(* ===== verification/_CoqProject ===== *)
-Q . S2P
Prelude.v
SortSearch.v
PmRegion.v
X86.v
Hart.v
Rv32.v
Decode.v
TransArith.v
TransControl.v
TransMem.v
TransSys.v
BlockFacts.v
BlockArith.v
Refine.v
Clint.v
Plic.v
Uart.v
Monad.v
Trap.v
Machine.v
Mmu.v
Console.v
CsrHandlers.v
Csr.v
Interrupt.v
Amo.v
Engine.v
Debug.v
Calls.v
BlockMem.v
BlockSys.v
Run.v
Typing.v
Emulator.v
Fault.v
Bytes.v
Ini.v
Fdt.v
DeviceTree.v
Sbi.v
Entry.v
Vm.v
Startup.v
Sha1.v
Boot.v
SelfTest.v
Guest.v
Host.v
