(* ===== verification/Prelude.v ===== *)
(** * Zelda.RISCV.Emulator: verification development

    ** The program

    Zelda.RISCV.Emulator runs a RV32IMA system by dynamic binary translation to
    x86-64. It has three parts under src/.

    The vmm (src/vmm/) is a process of the host. [main] reads a configuration file,
    builds a device tree, maps the memories and devices of the guest, and resumes the
    hart. From there the vmm alternates between two activities. [vmresume] makes sure
    that the guest's pc is translated - [prefetch_instructions] fetches words through
    the mmu and every translator appends a copy of a template of host code, patched
    with its parameters, to the hart's translation cache - and jumps into the cache.
    The blocks run one after the other; they call back into the vmm for memory
    accesses, atomics, csrs, fences, wfi and the returns from traps, until one leaves
    the cache: a jump or branch, an exception, or the jumper at the end of a translation
    unit. On the way back the interrupt pump advances the guest's clock, polls the
    devices and takes an interrupt that is due; then the next round begins.

    The firmware (src/bootrom/) is guest code: it starts at machine level, sets up
    traps and delegation, reports what it finds on the console, enters the kernel at
    supervisor level and serves its SBI calls. It can carry self tests.

    The guest's init program (src/guest/) is a small shell for the Linux that runs in
    the machine.

    ** The development, file by file

    Each file opens with a comment on what it models and shows. From the bottom up:

    - Prelude.v: fixed-width integers and their automation, bit fields, lists.
      Monad.v: the outcomes of a vmm function (it returns, takes a guest trap, ends the
      process, or fails an assertion) and invariants of programs.
      Bytes.v: buffers of bytes with bounds-checked accesses, big-endian words.
    - SortSearch.v: src/vmm/sort.h, src/vmm/search.h. PmRegion.v: src/vmm/pm_region.c.
    - Hart.v: [struct hart] and the translation cache (src/vmm/hart.c, src/vmm/hart.h)
      with the [PRECHECK]/[COMMIT] macros of src/vmm/translation.h.
    - Rv32.v: the ISA manual's RV32IM, the specification. Decode.v: the decoder.
      X86.v: the syntax and semantics of the x86-64 the templates use.
      TransArith.v, TransControl.v, TransMem.v, TransSys.v: every template and
      translator (src/vmm/translate_*.c, src/vmm/translation.c,
      src/vmm/csr_representation.c), instruction by instruction.
      BlockFacts.v, BlockArith.v, Refine.v, BlockMem.v, BlockSys.v: what a block does
      when it runs, for every instruction.
    - Clint.v, Plic.v, Uart.v: the device models (src/vmm/emulate_clint.c,
      src/vmm/emulate_plic.c, src/vmm/emulate_uart.c). Machine.v: the whole machine
      and its memory map (src/vmm/emulate_ram.c, src/vmm/emulate_rom.c,
      src/vmm/emulate_syscon.c, src/vmm/mmu.h).
    - Trap.v, CsrHandlers.v, Csr.v, Interrupt.v: the privileged architecture
      (src/vmm/hart_trap.c, src/vmm/hart_exception.c, src/vmm/hart_util.h, the csr_*.c
      files, src/vmm/hart_interrupt.c). Mmu.v: the mmu (src/vmm/mmu*.c, src/vmm/mmu*.h).
      Amo.v: src/vmm/translate_amo.c. Debug.v: src/vmm/debug.c and
      src/vmm/debug_breakpoint.c. Calls.v: the functions blocks call, by symbol.
    - Engine.v: the translation loop (src/vmm/translation.c). Run.v: a run through the
      cache (src/vmm/vmm_trap.S is its way out). Typing.v: the ranges of every field of
      the machine, and that everything the vmm does keeps them. Emulator.v: the loop of
      rounds - [vmexit], the pump, [vmresume], traps - and what it does as a whole.
      Fault.v: what becomes of it when a fetch faults in the middle of a prefetch.
    - Ini.v: src/vmm/ini.c. Fdt.v, DeviceTree.v: src/vmm/fdt.c and the nodes of the
      device files. Vm.v: src/vmm/vm.c, src/vmm/main.c and the init functions.
      Startup.v: [main], from the configuration to the running guest. Host.v: the raw
      terminal of src/vmm/emulate_uart.c, src/vmm/log.c, the dump of the device tree.
    - Console.v, Sbi.v, Entry.v, Sha1.v, Boot.v, SelfTest.v: the firmware
      (src/bootrom/uart.c, src/bootrom/printk.c, src/bootrom/sbi.c, the trap vector of
      src/bootrom/entry.S, src/bootrom/sha1.c, its reset and hand-over with
      src/bootrom/init.c and src/bootrom/fdt.c, src/bootrom/unittest.c).
    - Guest.v: src/guest/init.c.

    ** How state and operations correspond

    A C struct is a Record of the same fields, a static variable a field of the record
    of its file's component, all of them together the Record [machine]. A function that
    only computes is a function; one that changes the state of one component takes and
    returns that state; one that may trap, exit or fail an assertion is a [prog]. An
    integer is a [Z] in the range of its C type with the conversions written out
    ([u8], [u32], [s32], [u64]). Functions have the names of the source. The comment
    over a definition names the file, the lines and the symbol it translates.

    Four interfaces separate the layers. [GuestBank] with its laws [GuestBankLaws]
    (X86.v) is what the semantics of host code needs of the guest's state; the hart and
    the machine are instances. [Assembler] with [AssemblerOk] (Hart.v) is what the
    cache needs of the assembler: how many bytes a template takes. The outcomes of a
    call out of a block ([callres], X86.v) are what a block needs of the vmm;
    [machine_call] (Calls.v) provides them. [Kernel] with its laws [Linux] (Guest.v) is
    what the guest's shell needs of the kernel it runs on.

    ** What the theorems show

    - Execution: [Startup.program_runs_the_guest] goes from the configuration file to
      the guest: what the vmm does from [main] on is what a machine of the ISA does that
      takes its traps and interrupts where the emulator takes them.
      [Emulator.emulator_refines_isa] is that for every number of rounds without
      breakpoints, as long as the guest's code lies in one half of the address space and
      no fetch fault cuts a prefetch short, conditions outside of which the code is wrong.
      The words that are executed are those the fetches of the prefetch have read, one
      after the other, each on the machine the one before has left; a fetch changes
      nothing but the instruction TLB and, where it reads a device, that device.
      [Run.round_executes_isa] is one round. Under them lie [Run.blocks_implement_rv32]
      and [Refine.translators_implement_isa] (each block is its instruction),
      [Engine.prefetch_correct], the theorems on the cache of Hart.v, and for memory
      [Mmu.mmu_implements_sv32], [Mmu.mmu_accesses_precise], [Mmu.mmu_store_load].
      [Emulator.runs_stay_typed] keeps every field in the range of its C type, and
      [Emulator.loop_goes_on] shows that the loop never gets stuck, in a prefetch either.
    - Privileged architecture: delegation, return from traps, the csr instructions, the
      interrupt taken, wfi, the atomics.
    - Devices: the claim protocol, the uart's queue; the debugger changes nothing the
      guest can see.
    - Start-up: the configuration file is split without leaving its buffer and read as it
      is written; the device tree is laid down as its format says, never outside its
      buffers, and describes the machine; [Vm.machine_boots] gives the machine [main]
      resumes, [Boot.kernel_entered] runs the firmware on it from its reset entry to the
      kernel's first instruction.
    - Firmware: [Entry.ecall_through_vector] is an SBI call as the kernel sees it, with
      the trap vector run instruction by instruction; what [printk] prints, SHA-1 against
      FIPS 180-4, the timer; [SelfTest.self_tests_pass] runs the project's own tests of
      the emulator on the model of it, all of which pass.
    - Guest: [Guest.session_answered] is a session with the shell, on a kernel whose
      writes may be short and whose reads may fail.
    - Deviations: where the code does not do what it means to, a theorem or a concrete
      machine shows it ([Mmu.tlb_aliases], [Fault.prefetch_fault_unchains],
      [Refine.divide_error_exactly], and lemmas named in the files).

    Most theorems with hypotheses are followed by a witness, an instance on concrete
    data in the module [Witness] or [Board] of the file.

    ** Bounds and fuel

    Loops that are not structural run on fuel, and a theorem shows for each that the
    fuel given is enough. Prefetching: [PREFETCH_FUEL] is 4097 rounds, since every
    round but the last adds one of at most 4096 translations. A run through the cache:
    [RUN_FUEL] is the size of the cache plus one, since every block takes a byte.
    Searching and sorting: the length of the array. Splitting a configuration file,
    looking a key up, scanning a device tree: the length of the buffer. The debugger:
    a measure of the lines still to be read. SHA-1: 64 rounds of padding, the length
    of the data for the blocks. The numeral of [printk]: 32 digits. The console's wait
    for the transmitter has fuel where the code has none; the theorems on [printk] show
    it never waits. The 64 rounds of [hart_idle] are the code's own. The loops of the
    guest's shell have one bound, and the theorem on it says how large it must be.

    ** What is a parameter

    The sizes of the assembled templates; the contents of the caller-saved registers
    after a call of host code ([junk]); what the host's terminal is given to read, and the lines the
    debugger reads; the files of the host and its terminal calls; where the linker puts
    the firmware's trap vector, .bss, stacks and test data; which registers the compiler
    chooses for each statement of inline assembly or overwrites in a call, and what its
    code leaves on the stack and in its variables; the Linux kernel.

    ** What is not modelled

    - Output that is not the guest's: the [dump_*] functions and what the debugger
      prints.
    - The switch of host stacks in src/vmm/vmm_trap.S; leaving the cache is an outcome.
    - The compiled code of the firmware and of the guest's shell: their C functions are
      programs of the machine and of the kernel. What they keep in memory for themselves
      is a parameter, as above.
    - More than one running hart: the code starts the boot hart only.
    - Builds with DEBUG_TRACE or NATIVE_DEBUGER. *)

From stdpp Require Export base tactics gmap list numbers option strings.
From Stdlib Require Export ZArith Lia Btauto.

#[export] Set Default Goal Selector "!".

Declare Scope vmm_scope.
Delimit Scope vmm_scope with vmm.
Global Open Scope Z_scope.

(** ** Fixed-width integers

    A C integer is a [Z] in the range of its type; an operation that may leave
    the range is followed by the conversion of the type it is stored in. *)

Definition u8 (x : Z) : Z := x mod 2 ^ 8.
Definition u16 (x : Z) : Z := x mod 2 ^ 16.
Definition u32 (x : Z) : Z := x mod 2 ^ 32.
Definition u64 (x : Z) : Z := x mod 2 ^ 64.

(** Two's complement reading of the low [w] bits. *)
Definition signed (w x : Z) : Z :=
  let y := x mod 2 ^ w in
  if y <? 2 ^ (w - 1) then y else y - 2 ^ w.

Abbreviation s8 := (signed 8).
Abbreviation s16 := (signed 16).
Abbreviation s32 := (signed 32).
Abbreviation s64 := (signed 64).

(** A string literal or a C string as its bytes. *)
Definition text (s : string) : list Z :=
  map (fun c => Z.of_N (Ascii.N_of_ascii c)) (String.list_ascii_of_string s).

(** [x] is a value of the C type [uint<w>_t]. *)
Definition is_uint (w x : Z) : Prop := 0 <= x < 2 ^ w.

(** C truth values: [int] results of comparisons and the test of an integer. *)
Definition truthy (x : Z) : bool := negb (x =? 0).
Definition int_of_bool (b : bool) : Z := if b then 1 else 0.

(** [x & (1 << i)] as a boolean. *)
Definition bit_set (x i : Z) : bool := truthy (Z.land x (Z.shiftl 1 i)).

(** Assignment of a one-bit bit-field that occupies bit [i] of a word. *)
Definition put_bit (x i : Z) (b : bool) : Z :=
  if b then Z.setbit x i else Z.clearbit x i.

Arguments u8 : simpl never.
Arguments u16 : simpl never.
Arguments u32 : simpl never.
Arguments u64 : simpl never.
Arguments signed : simpl never.
Arguments is_uint : simpl never.
Arguments put_bit : simpl never.
Arguments bit_set : simpl never.
Global Arguments Z.land : simpl never.
Global Arguments Z.lor : simpl never.
Global Arguments Z.lxor : simpl never.
Global Arguments Z.shiftl : simpl never.
Global Arguments Z.shiftr : simpl never.
Global Arguments Z.testbit : simpl never.
Global Arguments Z.modulo : simpl never.
Global Arguments Z.div : simpl never.
Global Arguments Z.pow : simpl never.
Global Arguments Z.add : simpl never.
Global Arguments Z.sub : simpl never.
Global Arguments Z.mul : simpl never.
Global Arguments Z.opp : simpl never.

(** ** Automation *)

(** Linear arithmetic after turning division and remainder into equations. *)
Ltac dlia := Z.to_euclidean_division_equations; lia.

Ltac unfold_words :=
  unfold u8, u16, u32, u64, signed, is_uint, truthy, int_of_bool in *.

Ltac norm_pow :=
  change (2 ^ 8) with 256 in *; change (2 ^ 16) with 65536 in *;
  change (2 ^ 32) with 4294967296 in *;
  change (2 ^ 64) with 18446744073709551616 in *;
  change (2 ^ (8 - 1)) with 128 in *; change (2 ^ (16 - 1)) with 32768 in *;
  change (2 ^ (32 - 1)) with 2147483648 in *;
  change (2 ^ (64 - 1)) with 9223372036854775808 in *.

(** Goals about wrapped words: unfold the widths, split the boolean tests and
    leave the rest to [lia] with the division equations. *)
Ltac word_lia :=
  unfold_words; norm_pow;
  repeat match goal with
         | |- context [if ?b then _ else _] =>
             let E := fresh "E" in destruct b eqn:E
         | H : context [if ?b then _ else _] |- _ =>
             let E := fresh "E" in destruct b eqn:E
         end;
  rewrite ?Z.ltb_lt, ?Z.ltb_ge, ?Z.leb_le, ?Z.leb_gt, ?Z.eqb_eq, ?Z.eqb_neq in *;
  dlia.

(** Case analysis on the innermost boolean test of the goal. *)
Ltac case_test :=
  match goal with
  | |- context [if ?b then _ else _] =>
      lazymatch b with
      | context [if _ then _ else _] => fail
      | _ => let E := fresh "E" in destruct b eqn:E
      end
  end.

Ltac to_prop :=
  rewrite ?andb_true_iff, ?andb_false_iff, ?orb_true_iff, ?orb_false_iff,
    ?negb_true_iff, ?negb_false_iff,
    ?Z.ltb_lt, ?Z.ltb_ge, ?Z.leb_le, ?Z.leb_gt, ?Z.eqb_eq, ?Z.eqb_neq,
    ?Z.gtb_lt, ?Z.geb_le in *.

Create HintDb words.
Create Rewrite HintDb words.
Create Rewrite HintDb zbits.

(** ** Lemmas on words *)

Lemma u8_range x : is_uint 8 (u8 x).
Proof. word_lia. Qed.
Lemma u16_range x : is_uint 16 (u16 x).
Proof. word_lia. Qed.
Lemma u32_range x : is_uint 32 (u32 x).
Proof. word_lia. Qed.
Lemma u64_range x : is_uint 64 (u64 x).
Proof. word_lia. Qed.

Lemma u8_id x : is_uint 8 x -> u8 x = x.
Proof. unfold u8, is_uint. apply Z.mod_small. Qed.
Lemma u16_id x : is_uint 16 x -> u16 x = x.
Proof. unfold u16, is_uint. apply Z.mod_small. Qed.
Lemma u32_id x : is_uint 32 x -> u32 x = x.
Proof. unfold u32, is_uint. apply Z.mod_small. Qed.
Lemma u64_id x : is_uint 64 x -> u64 x = x.
Proof. unfold u64, is_uint. apply Z.mod_small. Qed.

Lemma u32_u32 x : u32 (u32 x) = u32 x.
Proof. apply u32_id, u32_range. Qed.
Lemma u32_u64 x : u32 (u64 x) = u32 x.
Proof. word_lia. Qed.
Lemma u64_u32 x : u64 (u32 x) = u32 x.
Proof. word_lia. Qed.
Lemma u64_u64 x : u64 (u64 x) = u64 x.
Proof. apply u64_id, u64_range. Qed.

Lemma u32_add_l x y : u32 (u32 x + y) = u32 (x + y).
Proof. unfold u32. apply Zplus_mod_idemp_l. Qed.
Lemma u32_add_r x y : u32 (x + u32 y) = u32 (x + y).
Proof. unfold u32. apply Zplus_mod_idemp_r. Qed.
Lemma u32_sub_l x y : u32 (u32 x - y) = u32 (x - y).
Proof. unfold u32. apply Zminus_mod_idemp_l. Qed.
Lemma u32_sub_r x y : u32 (x - u32 y) = u32 (x - y).
Proof. unfold u32. apply Zminus_mod_idemp_r. Qed.

Lemma signed_range w x : 0 < w -> - 2 ^ (w - 1) <= signed w x < 2 ^ (w - 1).
Proof.
  intros Hw. unfold signed.
  assert (E : 2 ^ w = 2 * 2 ^ (w - 1)).
  { replace w with (Z.succ (w - 1)) at 1 by lia. apply Z.pow_succ_r. lia. }
  pose proof (Z.mod_pos_bound x (2 ^ w) ltac:(apply Z.pow_pos_nonneg; lia)).
  destruct (Z.ltb_spec (x mod 2 ^ w) (2 ^ (w - 1))); lia.
Qed.

Lemma signed_mod w x : 0 < w -> (signed w x) mod 2 ^ w = x mod 2 ^ w.
Proof.
  intros Hw. unfold signed.
  assert (0 < 2 ^ w) by (apply Z.pow_pos_nonneg; lia).
  destruct (_ <? _).
  - apply Z.mod_mod. lia.
  - rewrite Zminus_mod, Z.mod_same, Z.sub_0_r, !Z.mod_mod by lia. done.
Qed.

Lemma u32_s32 x : u32 (s32 x) = u32 x.
Proof. apply (signed_mod 32). lia. Qed.
Lemma s32_u32 x : s32 (u32 x) = s32 x.
Proof. unfold signed, u32. by rewrite Z.mod_mod by lia. Qed.
Lemma s32_id x : - 2 ^ 31 <= x < 2 ^ 31 -> s32 x = x.
Proof. change (2 ^ 31) with 2147483648. intros. word_lia. Qed.

#[export] Hint Rewrite u32_u32 u32_u64 u64_u32 u64_u64 u32_s32 s32_u32 u32_add_l u32_add_r
  u32_sub_l u32_sub_r : words.
#[export] Hint Resolve u8_range u16_range u32_range u64_range : words.

Lemma is_uint_weaken v w x : v <= w -> is_uint v x -> is_uint w x.
Proof.
  unfold is_uint. intros Hvw [H0 H1]. split; [done|].
  destruct (Z.le_gt_cases 0 v).
  - eapply Z.lt_le_trans; [done|]. apply Z.pow_le_mono_r; lia.
  - rewrite Z.pow_neg_r in H1 by lia. lia.
Qed.

(** ** Bits *)

Lemma u32_land x : u32 x = Z.land x (Z.ones 32).
Proof. unfold u32. by rewrite Z.land_ones by lia. Qed.

Lemma testbit_u32 x i : Z.testbit (u32 x) i = (i <? 32) && Z.testbit x i.
Proof.
  unfold u32. destruct (Z.ltb_spec i 32); cbn [andb].
  - destruct (Z.le_gt_cases 0 i).
    + by rewrite Z.mod_pow2_bits_low by lia.
    + by rewrite !Z.testbit_neg_r by lia.
  - rewrite Z.mod_pow2_bits_high by lia. done.
Qed.

Lemma testbit_u64 x i : Z.testbit (u64 x) i = (i <? 64) && Z.testbit x i.
Proof.
  unfold u64. destruct (Z.ltb_spec i 64); cbn [andb].
  - destruct (Z.le_gt_cases 0 i).
    + by rewrite Z.mod_pow2_bits_low by lia.
    + by rewrite !Z.testbit_neg_r by lia.
  - rewrite Z.mod_pow2_bits_high by lia. done.
Qed.

Lemma testbit_high w x i : is_uint w x -> 0 <= w <= i -> Z.testbit x i = false.
Proof.
  intros [H0 H1] Hi.
  rewrite <- (Z.mod_small x (2 ^ w)) by lia.
  apply Z.mod_pow2_bits_high. lia.
Qed.

Lemma bit_set_testbit x i : 0 <= i -> bit_set x i = Z.testbit x i.
Proof.
  intros Hi. unfold bit_set, truthy.
  rewrite Z.shiftl_mul_pow2, Z.mul_1_l by done.
  destruct (Z.testbit x i) eqn:E.
  - destruct (Z.eqb_spec (Z.land x (2 ^ i)) 0) as [H|]; [|done].
    apply (f_equal (λ z, Z.testbit z i)) in H.
    rewrite Z.land_spec, E, Z.pow2_bits_true, Z.bits_0 in H by done. done.
  - assert (H : Z.land x (2 ^ i) = 0).
    { apply Z.bits_inj'. intros j Hj. rewrite Z.land_spec, Z.bits_0.
      destruct (decide (i = j)) as [->|Hne].
      - by rewrite E.
      - rewrite Z.pow2_bits_false by done. apply andb_false_r. }
    by rewrite H.
Qed.

Lemma testbit_put_bit x i b j :
  0 <= i -> 0 <= j ->
  Z.testbit (put_bit x i b) j = if i =? j then b else Z.testbit x j.
Proof.
  intros Hi Hj. unfold put_bit.
  destruct b, (Z.eqb_spec i j) as [->|Hne].
  - by rewrite Z.setbit_eq.
  - by rewrite Z.setbit_neq.
  - by rewrite Z.clearbit_eq.
  - by rewrite Z.clearbit_neq.
Qed.

Lemma is_uint_bits w x :
  0 <= w -> 0 <= x -> (forall i, w <= i -> Z.testbit x i = false) -> is_uint w x.
Proof.
  intros Hw Hx H. unfold is_uint. split; [done|].
  destruct (decide (x = 0)) as [->|]; [apply Z.pow_pos_nonneg; lia|].
  destruct (Z.lt_ge_cases x (2 ^ w)) as [|Hge]; [done|].
  pose proof (Z.log2_le_mono _ _ Hge) as Hl.
  rewrite Z.log2_pow2 in Hl by done.
  specialize (H (Z.log2 x) Hl). rewrite Z.bit_log2 in H by lia. done.
Qed.

Lemma put_bit_range w x i b :
  0 <= i < w -> is_uint w x -> is_uint w (put_bit x i b).
Proof.
  intros Hi Hx. apply is_uint_bits; [lia| |].
  - unfold put_bit. destruct b.
    + unfold Z.setbit. apply Z.lor_nonneg. destruct Hx.
      split; [lia|]. apply Z.shiftl_nonneg. lia.
    + unfold Z.clearbit. apply Z.ldiff_nonneg. destruct Hx. lia.
  - intros j Hj. rewrite testbit_put_bit by lia.
    destruct (Z.eqb_spec i j); [lia|]. eapply testbit_high; [done|lia].
Qed.

Lemma land_range w x y : 0 <= w -> 0 <= x -> is_uint w y -> is_uint w (Z.land x y).
Proof.
  intros Hw Hx Hy. apply is_uint_bits; [done| |].
  - apply Z.land_nonneg. lia.
  - intros i Hi. rewrite Z.land_spec, (testbit_high w y) by (done || lia).
    apply andb_false_r.
Qed.

Lemma land_range_l w x y : 0 <= w -> is_uint w x -> is_uint w (Z.land x y).
Proof.
  intros Hw Hx. apply is_uint_bits; [done| |].
  - apply Z.land_nonneg. destruct Hx. lia.
  - intros i Hi. by rewrite Z.land_spec, (testbit_high w x) by (done || lia).
Qed.

Lemma ldiff_range w x y : 0 <= w -> is_uint w x -> is_uint w (Z.ldiff x y).
Proof.
  intros Hw Hx. apply is_uint_bits; [done| |].
  - apply Z.ldiff_nonneg. destruct Hx. lia.
  - intros i Hi. by rewrite Z.ldiff_spec, (testbit_high w x) by (done || lia).
Qed.

Lemma lor_range w x y : 0 <= w -> is_uint w x -> is_uint w y -> is_uint w (Z.lor x y).
Proof.
  intros Hw Hx Hy. apply is_uint_bits; [done| |].
  - apply Z.lor_nonneg. destruct Hx, Hy. lia.
  - intros i Hi. rewrite Z.lor_spec, (testbit_high w x), (testbit_high w y) by (done || lia).
    done.
Qed.

Lemma lxor_range w x y : 0 <= w -> is_uint w x -> is_uint w y -> is_uint w (Z.lxor x y).
Proof.
  intros Hw Hx Hy. apply is_uint_bits; [done| |].
  - apply Z.lxor_nonneg. destruct Hx, Hy. lia.
  - intros i Hi. rewrite Z.lxor_spec, (testbit_high w x), (testbit_high w y) by (done || lia).
    done.
Qed.

#[export] Hint Rewrite Z.land_spec Z.lor_spec Z.lxor_spec Z.ldiff_spec Z.bits_0
  testbit_u32 testbit_u64 : zbits.
#[export] Hint Rewrite Z.shiftl_spec Z.shiftr_spec Z.lnot_spec testbit_put_bit using lia : zbits.

(** A field of an instruction word, [(w >> lo) & (2^n - 1)], as arithmetic. *)
Lemma field_mod w lo n :
  0 <= lo -> 0 <= n -> Z.land (Z.shiftr w lo) (Z.ones n) = (w / 2 ^ lo) mod 2 ^ n.
Proof. intros. by rewrite Z.land_ones, Z.shiftr_div_pow2 by lia. Qed.

(** Disjoint fields: or is addition. *)
Lemma lor_shiftl_add x y n :
  0 <= n -> 0 <= x < 2 ^ n -> Z.lor x (Z.shiftl y n) = x + y * 2 ^ n.
Proof.
  intros Hn Hx.
  assert (D : Z.land x (Z.shiftl y n) = 0).
  { apply Z.bits_inj'. intros i Hi. rewrite Z.land_spec, Z.bits_0.
    destruct (Z.lt_ge_cases i n).
    - rewrite Z.shiftl_spec_low by lia. apply andb_false_r.
    - rewrite (testbit_high n x) by (done || lia). done. }
  rewrite <- Z.lxor_lor, <- Z.add_nocarry_lxor by done.
  by rewrite Z.shiftl_mul_pow2.
Qed.
