(* ===== verification/SortSearch.v ===== *)
(** * The array macros [SORT], [INSERTION_SORT] and [SEARCH]

    Models the statement macros of src/vmm/sort.h and src/vmm/search.h, which
    keep the translation cache's pc map, the physical memory regions and the
    breakpoints ordered. An array is a list with a separate element count; the
    comparator may fail an [ASSERT], so it returns an option, and so do the
    macros ([None]: the emulator stops, or an index is out of range).

    Proved here: the loops terminate within the fuel given; [INSERTION_SORT]
    moves the last element to a place that keeps the array ordered and changes
    nothing beyond the count; [SORT] orders any array and permutes it; [SEARCH]
    returns an index that matches and misses none. *)

From stdpp Require Import sorting.
From S2P Require Import Prelude.
Local Open Scope Z_scope.

Section Macros.
Context {A : Type} (comp : A -> A -> option Z).

Definition ELEM (l : list A) (i : Z) : option A :=
  if i <? 0 then None else l !! Z.to_nat i.

(** src/vmm/search.h:10-37 SEARCH *)
Fixpoint search_loop (fuel : nat) (l : list A) (target : A)
    (idx_low idx_high : Z) : option (option Z) :=
  match fuel with
  | O => None
  | S fuel =>
      if idx_low <=? idx_high then
        elem_low ← ELEM l idx_low;
        elem_high ← ELEM l idx_high;
        c_low ← comp target elem_low;
        if negb (truthy c_low) then Some (Some idx_low) else
        c_high ← comp target elem_high;
        if negb (truthy c_high) then Some (Some idx_high) else
        let idx_mid := Z.quot (idx_low + idx_high) 2 in
        if (idx_mid =? idx_low) || (idx_mid =? idx_high) then Some None else
        elem_mid ← ELEM l idx_mid;
        c_mid ← comp target elem_mid;
        if c_mid <? 0 then search_loop fuel l target idx_low idx_mid
        else search_loop fuel l target idx_mid idx_high
      else Some None
  end.

Definition SEARCH (l : list A) (num : Z) (target : A) : option (option Z) :=
  search_loop (S (Z.to_nat num)) l target 0 (num - 1).

(** src/vmm/sort.h:35-63 INSERTION_SORT *)
Fixpoint insertion_point (fuel : nat) (l : list A) (elem_target : A)
    (idx_low idx_high : Z) : option Z :=
  match fuel with
  | O => None
  | S fuel =>
      if idx_low <=? idx_high then
        elem_low ← ELEM l idx_low;
        elem_high ← ELEM l idx_high;
        c_low ← comp elem_target elem_low;
        if c_low <=? 0 then Some idx_low else
        c_high ← comp elem_high elem_target;
        if c_high <=? 0 then Some (idx_high + 1) else
        let idx_mid := Z.quot (idx_low + idx_high) 2 in
        if (idx_mid =? idx_low) || (idx_mid =? idx_high) then Some (idx_mid + 1) else
        elem_mid ← ELEM l idx_mid;
        c_mid ← comp elem_target elem_mid;
        if c_mid <? 0 then insertion_point fuel l elem_target idx_low idx_mid
        else insertion_point fuel l elem_target idx_mid idx_high
      else Some 0
  end.

(** src/vmm/sort.h:64-74 INSERTION_SORT *)
Fixpoint shift_up (count idx : nat) (l : list A) : option (list A) :=
  match count with
  | O => Some l
  | S count =>
      prev ← l !! (idx - 1)%nat;
      shift_up count (idx - 1) (<[idx := prev]> l)
  end.

(** src/vmm/sort.h:35-76 INSERTION_SORT *)
Definition INSERTION_SORT (l : list A) (num : Z) : option (list A) :=
  if truthy num then
    elem_target ← ELEM l (num - 1);
    idx_move ← insertion_point (S (Z.to_nat num)) l elem_target 0 (num - 2);
    if idx_move <? num - 1 then
      l' ← shift_up (Z.to_nat (num - 1 - idx_move)) (Z.to_nat (num - 1)) l;
      Some (<[Z.to_nat idx_move := elem_target]> l')
    else Some l
  else Some l.

(** src/vmm/sort.h:15-25 SORT *)
Fixpoint bubble_pass (count idx_in : nat) (l : list A) : option (list A) :=
  match count with
  | O => Some l
  | S count =>
      prev_elem ← l !! idx_in;
      next_elem ← l !! S idx_in;
      c ← comp prev_elem next_elem;
      bubble_pass count (S idx_in)
        (if 0 <? c then <[idx_in := next_elem]> (<[S idx_in := prev_elem]> l) else l)
  end.

(** src/vmm/sort.h:12-27 SORT *)
Fixpoint bubble_sort (idx_out : nat) (l : list A) : option (list A) :=
  match idx_out with
  | O => Some l
  | S idx_out' => l' ← bubble_pass idx_out 0 l; bubble_sort idx_out' l'
  end.

Definition SORT (l : list A) (num : Z) : option (list A) :=
  bubble_sort (Z.to_nat (num - 1)) l.
End Macros.

(** ** Searching *)

Lemma ELEM_lookup {A} (l : list A) i x :
  ELEM l i = Some x <-> 0 <= i /\ l !! Z.to_nat i = Some x.
Proof. unfold ELEM. destruct (Z.ltb_spec i 0); intuition (done || lia). Qed.

Section Search_facts.
Context {A : Type} (comp : A -> A -> option Z).

(** What [SEARCH] needs of the comparator: it is defined on the elements
    searched and its sign falls along the array. *)
Definition falling (sg : Z -> Z) (l : list A) (num : Z) (t : A) : Prop :=
  (forall i, 0 <= i < num -> exists x, l !! Z.to_nat i = Some x /\ comp t x = Some (sg i)) /\
  (forall i j, 0 <= i <= j -> j < num -> sg i < 0 -> sg j < 0) /\
  (forall i j, 0 <= i <= j -> j < num -> 0 < sg j -> 0 < sg i).

Lemma falling_ELEM sg l num t i :
  falling sg l num t -> 0 <= i < num -> exists x, ELEM l i = Some x /\ comp t x = Some (sg i).
Proof.
  intros [H _] Hi. destruct (H i Hi) as (x & Hx & Hc). exists x. split; [|done].
  apply ELEM_lookup. split; [lia|done].
Qed.

Lemma search_loop_correct sg l num t fuel low high :
  falling sg l num t -> 0 <= low -> high < num ->
  (high - low + 2 <= Z.of_nat fuel)%Z ->
  (0 < fuel)%nat ->
  (forall i, 0 <= i < num -> sg i = 0 -> exists j, low <= j <= high /\ sg j = 0) ->
  exists r, search_loop comp fuel l t low high = Some r /\
    match r with
    | Some i => 0 <= i < num /\ sg i = 0
    | None => forall i, 0 <= i < num -> sg i <> 0
    end.
Proof.
  intros HF. revert low high.
  induction fuel as [|fuel IH]; intros low high Hlow Hhigh Hfuel Hpos Hin; [lia|].
  cbn [search_loop]. destruct (Z.leb_spec low high) as [Hle|Hgt].
  2: { exists None. split; [done|]. intros i Hi E. destruct (Hin i Hi E). lia. }
  destruct (falling_ELEM sg l num t low HF) as (xl & -> & Hcl); [lia|].
  destruct (falling_ELEM sg l num t high HF) as (xh & -> & Hch); [lia|].
  cbn [mbind option_bind]. rewrite Hcl. cbn [mbind option_bind]. unfold truthy.
  destruct (Z.eqb_spec (sg low) 0) as [E0|N0]; cbn [negb].
  { exists (Some low). split; [done|]. split; [lia|done]. }
  rewrite Hch. cbn [mbind option_bind].
  destruct (Z.eqb_spec (sg high) 0) as [E1|N1]; cbn [negb].
  { exists (Some high). split; [done|]. split; [lia|done]. }
  set (mid := Z.quot (low + high) 2).
  assert (Hmid : low <= mid <= high /\ 2 * mid <= low + high < 2 * mid + 2) by (subst mid; dlia).
  destruct (Z.eqb_spec mid low) as [El|Nl]; cbn [orb].
  { exists None. split; [done|]. intros i Hi E. destruct (Hin i Hi E) as (j & ? & ?).
    assert (j = low \/ j = high) as [-> | ->] by lia; done. }
  destruct (Z.eqb_spec mid high) as [Eh|Nh]; cbn [orb].
  { exists None. split; [done|]. intros i Hi E. destruct (Hin i Hi E) as (j & ? & ?).
    assert (j = low \/ j = high) as [-> | ->] by lia; done. }
  destruct (falling_ELEM sg l num t mid HF) as (xm & -> & Hcm); [lia|].
  cbn [mbind option_bind]. rewrite Hcm. cbn [mbind option_bind].
  destruct HF as (_ & Hneg & Hpo).
  destruct (Z.ltb_spec (sg mid) 0) as [Hm|Hm].
  - apply IH; [lia..|]. intros i Hi E. destruct (Hin i Hi E) as (j & ? & ?).
    exists j. split; [|done]. split; [lia|]. destruct (Z.le_gt_cases j mid); [done|].
    specialize (Hneg mid j). lia.
  - apply IH; [lia..|]. intros i Hi E. destruct (Hin i Hi E) as (j & ? & ?).
    destruct (Z.eq_dec (sg mid) 0); [exists mid; split; [lia|done]|].
    exists j. split; [|done]. split; [|lia]. destruct (Z.le_gt_cases mid j); [done|].
    specialize (Hpo j mid). lia.
Qed.

(** [SEARCH] terminates, returns only matching elements and misses none. *)
Lemma SEARCH_falling sg l num t :
  falling sg l num t -> 0 <= num ->
  exists r, SEARCH comp l num t = Some r /\
    match r with
    | Some i => 0 <= i < num /\ sg i = 0
    | None => forall i, 0 <= i < num -> sg i <> 0
    end.
Proof.
  intros HF Hn. eapply search_loop_correct; [done|lia..|].
  intros i ? ?. exists i. split; [lia|done].
Qed.
End Search_facts.

(** ** Sorting: a comparator that agrees with a key *)

Section Keyed.
Context {A : Type} (comp : A -> A -> option Z) (key : A -> Z) (P : A -> Prop).

(** On the elements considered the comparator succeeds and has the sign of
    the difference of the keys. *)
Definition agrees : Prop :=
  forall x y, P x -> P y -> exists c, comp x y = Some c /\ (c ?= 0) = (key x ?= key y).

Definition key_le (x y : A) : Prop := key x <= key y.

Lemma agrees_le x y : agrees -> P x -> P y ->
  exists c, comp x y = Some c /\ (c <=? 0) = (key x <=? key y) /\
    (c <? 0) = (key x <? key y) /\ (0 <? c) = (key y <? key x) /\ (c =? 0) = (key x =? key y).
Proof.
  intros HA Hx Hy. destruct (HA x y Hx Hy) as (c & Hc & E). exists c. split; [done|].
  destruct (Z.compare_spec c 0), (Z.compare_spec (key x) (key y)); try done;
    repeat match goal with |- context [?a <=? ?b] => destruct (Z.leb_spec a b)
      | |- context [?a <? ?b] => destruct (Z.ltb_spec a b)
      | |- context [?a =? ?b] => destruct (Z.eqb_spec a b) end; repeat split; lia.
Qed.

Lemma SEARCH_keyed l num t :
  agrees -> P t -> Forall P (take (Z.to_nat num) l) -> 0 <= num <= Z.of_nat (length l) ->
  StronglySorted key_le (take (Z.to_nat num) l) ->
  exists r, SEARCH comp l num t = Some r /\
    match r with
    | Some i => 0 <= i < num /\ exists x, l !! Z.to_nat i = Some x /\ key x = key t
    | None => Forall (fun x => key x <> key t) (take (Z.to_nat num) l)
    end.
Proof.
  intros HA Ht HP Hn HS.
  assert (Hl : forall i, 0 <= i < num -> exists x, l !! Z.to_nat i = Some x /\ P x).
  { intros i Hi. destruct (lookup_lt_is_Some_2 l (Z.to_nat i)) as [x Hx]; [lia|].
    exists x. split; [done|]. eapply Forall_lookup_1; [exact HP|].
    rewrite lookup_take_lt; [done|lia]. }
  set (sg := fun i => match l !! Z.to_nat i with
                      | Some x => default 0 (comp t x) | None => 0 end).
  assert (Hsg : forall i, 0 <= i < num -> exists x, l !! Z.to_nat i = Some x /\
    comp t x = Some (sg i) /\ (sg i <? 0) = (key t <? key x) /\
    (0 <? sg i) = (key x <? key t) /\ (sg i =? 0) = (key t =? key x)).
  { intros i Hi. destruct (Hl i Hi) as (x & Hx & Px). exists x.
    destruct (agrees_le t x HA Ht Px) as (c & Hc & H1 & H2 & H3 & H4).
    unfold sg. rewrite Hx, Hc. done. }
  assert (Hord : forall i j x y, 0 <= i <= j -> j < num ->
    l !! Z.to_nat i = Some x -> l !! Z.to_nat j = Some y -> key x <= key y).
  { intros i j x y Hij Hj Hx Hy. destruct (Z.eq_dec i j) as [->|]; [simplify_eq; lia|].
    rewrite <- (take_drop (S (Z.to_nat i)) (take _ l)) in HS.
    eapply (StronglySorted_app_1_elem_of _ _ _ x y) in HS; [done| |].
    - rewrite take_take, Nat.min_l by lia. apply list_elem_of_lookup.
      exists (Z.to_nat i). rewrite lookup_take_lt by lia. done.
    - apply list_elem_of_lookup. exists (Z.to_nat j - S (Z.to_nat i))%nat.
      rewrite lookup_drop, lookup_take_lt by lia. rewrite <- Hy. f_equal. lia. }
  destruct (SEARCH_falling comp sg l num t) as (r & Hr & Hp); [|lia|].
  - repeat split.
    + intros i Hi. destruct (Hsg i Hi) as (x & ? & ? & _). eauto.
    + intros i j Hij Hj H. destruct (Hsg i) as (x & ? & ? & ? & ? & ?); [lia|].
      destruct (Hsg j) as (y & ? & ? & ? & ? & ?); [lia|].
      pose proof (Hord i j x y Hij Hj ltac:(done) ltac:(done)). lia.
    + intros i j Hij Hj H. destruct (Hsg i) as (x & ? & ? & ? & ? & ?); [lia|].
      destruct (Hsg j) as (y & ? & ? & ? & ? & ?); [lia|].
      pose proof (Hord i j x y Hij Hj ltac:(done) ltac:(done)). lia.
  - exists r. split; [done|]. destruct r as [i|].
    + destruct Hp as [Hi H0]. split; [done|].
      destruct (Hsg i Hi) as (x & ? & ? & ? & ? & ?). exists x. split; [done|]. lia.
    + apply Forall_lookup_2. intros i x Hx. apply lookup_take_Some in Hx as [Hx Hlt].
      specialize (Hp (Z.of_nat i)). destruct (Hsg (Z.of_nat i)) as (y & Hy & ? & ? & ? & ?); [lia|].
      rewrite Nat2Z.id in Hy. simplify_eq. lia.
Qed.

(** *** [INSERTION_SORT] *)

Hypothesis comp_agrees : agrees.

Definition sorted_at (l : list A) (n : Z) (k : Z -> Z) : Prop :=
  (forall i, 0 <= i < n -> exists x, ELEM l i = Some x /\ P x /\ key x = k i) /\
  (forall i j, 0 <= i <= j -> j < n -> k i <= k j).

Lemma insertion_point_correct l n k t fuel low high :
  sorted_at l n k -> P t -> 0 <= low -> high < n -> low <= n ->
  high - low + 2 <= Z.of_nat fuel -> (0 < fuel)%nat ->
  (low <= high \/ (n = 0 /\ low = 0)) ->
  (forall i, 0 <= i < low -> k i <= key t) ->
  (forall i, high < i < n -> key t <= k i) ->
  exists p, insertion_point comp fuel l t low high = Some p /\ 0 <= p <= n /\
    (forall i, 0 <= i < p -> k i <= key t) /\ (forall i, p <= i < n -> key t <= k i).
Proof.
  intros HS Ht. revert low high.
  induction fuel as [|fuel IH]; intros low high Hlow Hhigh Hn Hfuel Hpos Hcase Hl Hh; [lia|].
  cbn [insertion_point]. destruct (Z.leb_spec low high) as [Hle|Hgt].
  2: { exists 0. split; [done|]. split; [lia|]. split; intros; lia. }
  destruct HS as [HS Hmono].
  destruct (HS low) as (xl & -> & Pl & Kl); [lia|].
  destruct (HS high) as (xh & -> & Ph & Kh); [lia|].
  cbn [mbind option_bind].
  destruct (agrees_le t xl comp_agrees Ht Pl) as (cl & -> & Ecl & _).
  destruct (agrees_le xh t comp_agrees Ph Ht) as (ch & Ech' & Ech & _).
  cbn [mbind option_bind]. rewrite Ecl, Ech'. cbn [mbind option_bind]. rewrite Ech.
  destruct (Z.leb_spec (key t) (key xl)) as [Hcl|Hcl].
  { exists low. split; [done|]. split; [lia|]. split; [done|].
    intros i Hi. specialize (Hmono low i). lia. }
  destruct (Z.leb_spec (key xh) (key t)) as [Hch|Hch].
  { exists (high + 1). split; [done|]. split; [lia|]. split.
    - intros i Hi. specialize (Hmono i high). lia.
    - intros i Hi. apply Hh. lia. }
  set (mid := Z.quot (low + high) 2).
  assert (Hmid : low <= mid <= high /\ 2 * mid <= low + high < 2 * mid + 2) by (subst mid; dlia).
  destruct (Z.eq_dec low high) as [->|]; [rewrite Kl in Hcl; rewrite Kh in Hch; lia|].
  destruct (orb _ _) eqn:E.
  { to_prop. exists (mid + 1). split; [done|]. split; [lia|]. split.
    - intros i Hi. specialize (Hmono i low). lia.
    - intros i Hi. specialize (Hmono high i). lia. }
  to_prop. destruct (HS mid) as (xm & -> & Pm & Km); [lia|].
  cbn [mbind option_bind].
  destruct (agrees_le t xm comp_agrees Ht Pm) as (cm & -> & _ & Ecm & _).
  cbn [mbind option_bind]. rewrite Ecm.
  destruct (Z.ltb_spec (key t) (key xm)) as [Hm|Hm];
    (apply IH; [lia..| |]; intros i Hi).
  - apply Hl. lia.
  - specialize (Hmono mid i). lia.
  - specialize (Hmono i mid). lia.
  - apply Hh. lia.
Qed.

Lemma shift_up_app (a b c : list A) x :
  shift_up (length b) (length a + length b) (a ++ b ++ x :: c) =
  Some (a ++ (match b with [] => x | y :: _ => y end) :: b ++ c).
Proof.
  revert x c. induction b as [|z b IH] using rev_ind; intros x c.
  - done.
  - rewrite length_app. cbn [length]. rewrite Nat.add_1_r. cbn [shift_up].
    replace (length a + S (length b) - 1)%nat with (length a + length b)%nat by lia.
    rewrite <- app_assoc. cbn [app].
    rewrite lookup_app_r, lookup_app_r by lia.
    replace (length a + length b - length a - length b)%nat with 0%nat by lia.
    cbn [lookup list_lookup mbind option_bind].
    rewrite insert_app_r_alt, insert_app_r_alt by lia.
    replace (length a + S (length b) - length a - length b)%nat with 1%nat by lia.
    cbn [insert list_insert]. rewrite IH. do 2 f_equal.
    destruct b; cbn [app]; f_equal; by rewrite <- app_assoc.
Qed.

Lemma sorted_at_list l a x c :
  l = a ++ x :: c -> Forall P a -> StronglySorted key_le a ->
  sorted_at l (Z.of_nat (length a)) (fun i => from_option key 0 (a !! Z.to_nat i)).
Proof.
  intros -> HP HS. split.
  - intros i Hi. destruct (lookup_lt_is_Some_2 a (Z.to_nat i)) as [y Hy]; [lia|].
    exists y. split; [rewrite ELEM_lookup; split; [lia|by apply lookup_app_l_Some]|].
    split; [by eapply Forall_lookup_1|]. by rewrite Hy.
  - intros i j Hij Hj.
    destruct (lookup_lt_is_Some_2 a (Z.to_nat i)) as [y Hy]; [lia|].
    destruct (lookup_lt_is_Some_2 a (Z.to_nat j)) as [z Hz]; [lia|].
    rewrite Hy, Hz. cbn. destruct (Z.eq_dec i j) as [->|]; [simplify_eq; lia|].
    rewrite <- (take_drop_middle a _ _ Hz) in HS.
    eapply (StronglySorted_app_1_elem_of _ _ _ y z) in HS; [done| |by left].
    apply list_elem_of_lookup. exists (Z.to_nat i). by rewrite lookup_take_lt by lia.
Qed.

Lemma INSERTION_SORT_keyed (a : list A) t c :
  Forall P a -> P t -> StronglySorted key_le a ->
  exists a1 a2, a = a1 ++ a2 /\
    INSERTION_SORT comp (a ++ t :: c) (Z.of_nat (length a) + 1) = Some (a1 ++ t :: a2 ++ c) /\
    StronglySorted key_le (a1 ++ t :: a2).
Proof.
  intros HP Ht HS. set (n := Z.of_nat (length a)).
  set (l := a ++ t :: c).
  pose proof (sorted_at_list l a t c eq_refl HP HS) as HK. fold n in HK.
  unfold INSERTION_SORT, truthy.
  destruct (Z.eqb_spec (n + 1) 0) as [|_]; [lia|]. cbn [negb].
  replace (n + 1 - 1) with n by lia.
  assert (HE : ELEM l n = Some t).
  { apply ELEM_lookup. split; [lia|]. subst l n. rewrite Nat2Z.id. by apply list_lookup_middle. }
  rewrite HE. cbn [mbind option_bind].
  destruct (insertion_point_correct l n _ t (S (Z.to_nat (n + 1))) 0 (n + 1 - 2) HK Ht)
    as (p & -> & Hp & Hlo & Hhi); [lia..|intros; lia|intros; lia|].
  cbn [mbind option_bind].
  exists (take (Z.to_nat p) a), (drop (Z.to_nat p) a).
  split; [by rewrite take_drop|].
  assert (HSS : StronglySorted key_le (take (Z.to_nat p) a ++ t :: drop (Z.to_nat p) a)).
  { rewrite <- (take_drop (Z.to_nat p) a) in HS.
    apply StronglySorted_app in HS as (Hx & H1 & H2).
    apply StronglySorted_app. split; [|split; [done|]].
    - intros x1 x2 Hx1 [->|Hx2]%elem_of_cons; [|by apply Hx].
      apply list_elem_of_lookup in Hx1 as [i Hi]. apply lookup_take_Some in Hi as [Hi ?].
      specialize (Hlo (Z.of_nat i)). rewrite Nat2Z.id, Hi in Hlo. apply Hlo. lia.
    - apply StronglySorted_cons. split; [|done]. apply Forall_lookup_2. intros i x Hi.
      rewrite lookup_drop in Hi. pose proof (lookup_lt_Some _ _ _ Hi).
      specialize (Hhi (p + Z.of_nat i)).
      replace (Z.to_nat (p + Z.of_nat i)) with (Z.to_nat p + i)%nat in Hhi by lia.
      rewrite Hi in Hhi. apply Hhi. lia. }
  split; [|exact HSS].
  destruct (Z.ltb_spec p n) as [Hlt|Hge].
  - pose proof (shift_up_app (take (Z.to_nat p) a) (drop (Z.to_nat p) a) c t) as E.
    rewrite (app_assoc _ (drop _ _)), take_drop in E. fold l in E.
    rewrite length_take, length_drop in E.
    replace (Z.to_nat p `min` length a)%nat with (Z.to_nat p) in E by lia.
    replace (length a - Z.to_nat p)%nat with (Z.to_nat (n - p)) in E by lia.
    replace (Z.to_nat p + Z.to_nat (n - p))%nat with (Z.to_nat n) in E by lia.
    rewrite E. cbn [mbind option_bind]. f_equal.
    rewrite insert_app_r_alt by (rewrite length_take; lia).
    rewrite length_take.
    replace (Z.to_nat p - Z.to_nat p `min` length a)%nat with 0%nat by lia.
    done.
  - assert (p = n) as -> by lia. unfold l.
    rewrite take_ge, drop_ge by lia. done.
Qed.

(** *** [SORT] *)

Lemma bubble_pass_app (pre mid rest : list A) x :
  P x -> Forall P mid ->
  exists mid' m,
    bubble_pass comp (length mid) (length pre) (pre ++ x :: mid ++ rest) =
      Some (pre ++ mid' ++ m :: rest) /\
    mid' ++ [m] ≡ₚ x :: mid /\ Forall (fun y => key_le y m) mid'.
Proof.
  revert pre x. induction mid as [|y mid IH]; intros pre x Hx HP; cbn [length bubble_pass].
  - exists [], x. repeat split; [done|constructor].
  - apply Forall_cons in HP as [Hy HP].
    rewrite lookup_app_r, lookup_app_r by lia.
    replace (length pre - length pre)%nat with 0%nat by lia.
    replace (S (length pre) - length pre)%nat with 1%nat by lia.
    cbn [lookup list_lookup mbind option_bind app].
    destruct (agrees_le x y comp_agrees Hx Hy) as (c & -> & _ & _ & Ec & _).
    cbn [mbind option_bind]. rewrite Ec.
    assert (Hstep : forall u v, P v -> exists mid' m,
      bubble_pass comp (length mid) (S (length pre)) (pre ++ u :: v :: mid ++ rest) =
        Some (pre ++ (u :: mid') ++ m :: rest) /\
      mid' ++ [m] ≡ₚ v :: mid /\ Forall (fun y => key_le y m) mid').
    { intros u v Hv. destruct (IH (pre ++ [u]) v Hv HP) as (mid' & m & E & Hp & Hm).
      exists mid', m. rewrite length_app, Nat.add_1_r, <- !app_assoc in E. done. }
    destruct (Z.ltb_spec (key y) (key x)) as [Hlt|Hge].
    + rewrite insert_app_r_alt, insert_app_r_alt by lia.
      replace (length pre - length pre)%nat with 0%nat by lia.
      replace (S (length pre) - length pre)%nat with 1%nat by lia.
      cbn [insert list_insert].
      destruct (Hstep y x Hx) as (mid' & m & E & Hp & Hm). exists (y :: mid'), m.
      split; [done|]. split.
      * cbn [app]. rewrite Hp. constructor.
      * apply Forall_cons. split; [|done]. unfold key_le.
        assert (Hxm : x ∈ mid' ++ [m]) by (rewrite Hp; left).
        apply elem_of_app in Hxm as [Hxm| ->%list_elem_of_singleton]; [|lia].
        rewrite Forall_forall in Hm. specialize (Hm x Hxm). unfold key_le in Hm. lia.
    + destruct (Hstep x y Hy) as (mid' & m & E & Hp & Hm). exists (x :: mid'), m.
      split; [done|]. split.
      * cbn [app]. rewrite Hp. done.
      * apply Forall_cons. split; [|done]. unfold key_le.
        assert (Hxm : y ∈ mid' ++ [m]) by (rewrite Hp; left).
        apply elem_of_app in Hxm as [Hxm| ->%list_elem_of_singleton]; [|lia].
        rewrite Forall_forall in Hm. specialize (Hm y Hxm). unfold key_le in Hm. lia.
Qed.

Lemma bubble_sort_app n (seg tl rest : list A) :
  length seg = S n -> Forall P seg -> StronglySorted key_le tl ->
  (forall x y, x ∈ seg -> y ∈ tl -> key_le x y) ->
  exists out, bubble_sort comp n (seg ++ tl ++ rest) = Some (out ++ rest) /\
    out ≡ₚ seg ++ tl /\ StronglySorted key_le out.
Proof.
  revert seg tl. induction n as [|n IH]; intros seg tl Hlen HP HS Hle; cbn [bubble_sort].
  - exists (seg ++ tl). rewrite <- app_assoc. split; [done|]. split; [done|].
    destruct seg as [|x [|? ?]]; try done. apply StronglySorted_app.
    split; [done|]. split; [|done]. repeat constructor.
  - destruct seg as [|x mid]; [done|]. cbn [length] in Hlen.
    apply Forall_cons in HP as [Hx HP].
    destruct (bubble_pass_app [] mid (tl ++ rest) x Hx HP) as (mid' & m & E & Hp & Hm).
    cbn [length app] in E |- *. replace (S n) with (length mid) by lia. rewrite E.
    cbn [mbind option_bind].
    destruct (IH mid' (m :: tl)) as (out & E' & Hp' & HS').
    + apply Permutation_length in Hp. rewrite length_app in Hp. cbn [length] in Hp. lia.
    + assert (HF : Forall P (mid' ++ [m])) by (rewrite Hp; by constructor).
      by apply Forall_app in HF as [? _].
    + apply StronglySorted_cons. split; [|done]. apply Forall_forall. intros y Hy.
      apply Hle; [|done]. rewrite <- Hp. apply elem_of_app. right. by left.
    + intros y z Hy [->|Hz]%elem_of_cons.
      * rewrite Forall_forall in Hm. by apply Hm.
      * apply Hle; [|done]. rewrite <- Hp. apply elem_of_app. by left.
    + exists out. split; [done|]. split; [|done].
      rewrite Hp'. change (x :: mid ++ tl) with ((x :: mid) ++ tl). rewrite <- Hp.
      rewrite <- app_assoc. done.
Qed.

Lemma SORT_keyed (seg rest : list A) :
  Forall P seg ->
  exists out, SORT comp (seg ++ rest) (Z.of_nat (length seg)) = Some (out ++ rest) /\
    out ≡ₚ seg /\ StronglySorted key_le out.
Proof.
  intros HP. unfold SORT. destruct seg as [|x seg].
  { exists []. repeat split; constructor. }
  cbn [length]. replace (Z.to_nat (Z.of_nat (S (length seg)) - 1)) with (length seg) by lia.
  destruct (bubble_sort_app (length seg) (x :: seg) [] rest) as (out & E & Hp & HS).
  - done.
  - done.
  - constructor.
  - intros ? ? _ H. by apply elem_of_nil in H.
  - exists out. rewrite app_nil_r in Hp. done.
Qed.
End Keyed.

(** ** Properties *)

(** [SORT]. On any array prefix whose elements the comparator compares like
    integer keys, the bubble sort terminates, permutes the first [num] elements into
    ascending key order and leaves the rest of the array alone. *)
Theorem SORT_correct {A} (comp : A -> A -> option Z) (key : A -> Z) (P : A -> Prop) l num :
  agrees comp key P -> 0 <= num <= Z.of_nat (length l) -> Forall P (take (Z.to_nat num) l) ->
  exists out, SORT comp l num = Some (out ++ drop (Z.to_nat num) l) /\
    out ≡ₚ take (Z.to_nat num) l /\ StronglySorted (fun x y => key x <= key y) out.
Proof.
  intros HA Hn HP.
  destruct (SORT_keyed comp key P HA (take (Z.to_nat num) l) (drop (Z.to_nat num) l) HP)
    as (out & E & Hp & HS).
  rewrite take_drop in E. rewrite length_take in E.
  replace (Z.of_nat (Nat.min (Z.to_nat num) (length l))) with num in E by lia.
  by exists out.
Qed.

(** [SEARCH]. On an array in ascending key order the search terminates; an
    index it returns holds an element with the target's key, and when it returns
    none no element of the first [num] has it. *)
Theorem SEARCH_correct {A} (comp : A -> A -> option Z) (key : A -> Z) (P : A -> Prop) l num t :
  agrees comp key P -> P t -> 0 <= num <= Z.of_nat (length l) ->
  Forall P (take (Z.to_nat num) l) ->
  StronglySorted (fun x y => key x <= key y) (take (Z.to_nat num) l) ->
  exists r, SEARCH comp l num t = Some r /\
    match r with
    | Some i => 0 <= i < num /\ exists x, l !! Z.to_nat i = Some x /\ key x = key t
    | None => Forall (fun x => key x <> key t) (take (Z.to_nat num) l)
    end.
Proof. intros HA Ht Hn HP HS. by apply (SEARCH_keyed comp key P). Qed.

(** [INSERTION_SORT]. When the first [num - 1] elements are in order, one call
    places the last of the [num] between them: the others keep their relative
    order, the first [num] elements end in order, the rest is untouched. *)
Theorem INSERTION_SORT_correct {A} (comp : A -> A -> option Z) (key : A -> Z) (P : A -> Prop)
    (a : list A) t c :
  agrees comp key P -> Forall P a -> P t -> StronglySorted (fun x y => key x <= key y) a ->
  exists a1 a2, a = a1 ++ a2 /\
    INSERTION_SORT comp (a ++ t :: c) (Z.of_nat (length a) + 1) = Some (a1 ++ t :: a2 ++ c) /\
    StronglySorted (fun x y => key x <= key y) (a1 ++ t :: a2).
Proof. intros HA HP Ht HS. by apply (INSERTION_SORT_keyed comp key P). Qed.

Module Witness.
Definition comp_Z (x y : Z) : option Z := Some (x - y).

Lemma comp_Z_agrees : agrees comp_Z id (fun _ => True).
Proof.
  intros x y _ _. exists (x - y). split; [done|]. unfold id.
  destruct (Z.compare_spec (x - y) 0), (Z.compare_spec x y); done || lia.
Qed.

Lemma sorted_147 : StronglySorted (fun x y : Z => x <= y) [1; 4; 7].
Proof. repeat constructor; lia. Qed.

Lemma SORT_correct_witness :
  exists out, SORT comp_Z [7; 1; 4; 0] 3 = Some (out ++ [0]) /\ out ≡ₚ [7; 1; 4] /\
    StronglySorted (fun x y : Z => x <= y) out.
Proof.
  apply (SORT_correct comp_Z id (fun _ => True) [7; 1; 4; 0] 3).
  - apply comp_Z_agrees.
  - cbn. lia.
  - by repeat constructor.
Defined.

Lemma SEARCH_correct_witness :
  exists r, SEARCH comp_Z [1; 4; 7] 3 4 = Some r /\
    match r with
    | Some i => 0 <= i < 3 /\ exists x, [1; 4; 7] !! Z.to_nat i = Some x /\ x = 4
    | None => Forall (fun x => x <> 4) [1; 4; 7]
    end.
Proof.
  apply (SEARCH_correct comp_Z id (fun _ => True) [1; 4; 7] 3 4).
  - apply comp_Z_agrees.
  - done.
  - cbn. lia.
  - by repeat constructor.
  - apply sorted_147.
Defined.

Lemma INSERTION_SORT_correct_witness :
  exists a1 a2, [1; 4; 7] = a1 ++ a2 /\
    INSERTION_SORT comp_Z ([1; 4; 7] ++ 5 :: [0]) 4 = Some (a1 ++ 5 :: a2 ++ [0]) /\
    StronglySorted (fun x y : Z => x <= y) (a1 ++ 5 :: a2).
Proof.
  apply (INSERTION_SORT_correct comp_Z id (fun _ => True) [1; 4; 7] 5 [0]).
  - apply comp_Z_agrees.
  - by repeat constructor.
  - done.
  - apply sorted_147.
Defined.
End Witness.
