(* ===== verification/PmRegion.v ===== *)
(** * Physical memory regions

    Models src/vmm/pm_region.c: the table of memory and MMIO regions, kept in
    address order by [SORT] and looked up by [SEARCH] with an interval
    comparator. The callbacks of a region are the constructors of
    [region_kind], one per emulated device that registers one.

    Proved here: on a table of disjoint regions in address order the lookup
    returns exactly the region that holds the address; registering a region that
    is disjoint from the others succeeds, adds that region and keeps the table in
    order; the last address of the 4 GiB space stops the emulator. *)

From stdpp Require Import sorting.
From S2P Require Import Prelude SortSearch.
Local Open Scope Z_scope.

(** The [pmr_read]/[pmr_write]/[pmr_direct] triples the devices register. *)
Inductive region_kind :=
  | ram_region | bootrom_region | clint_region | plic_region | uart_region | syscon_region.

#[export] Instance region_kind_eq_dec : EqDecision region_kind.
Proof. solve_decision. Defined.

(** src/vmm/pm_region.h:27-34 pm_region_operation *)
Record pm_region_operation := {
  addr_low : Z;
  addr_high : Z;
  pmr_callbacks : region_kind
}.

#[export] Instance pm_region_eq_dec : EqDecision pm_region_operation.
Proof. solve_decision. Defined.

(** Only the RAM region has a [pmr_direct]. *)
Definition has_pmr_direct (r : pm_region_operation) : bool :=
  match pmr_callbacks r with ram_region => true | _ => false end.

Definition MAX_NR_PM_REGIONS : Z := 256.

(** src/vmm/pm_region.c:22-47 pm_region_operation_compare *)
Definition pm_region_operation_compare (pmr1 pmr2 : pm_region_operation) : option Z :=
  if negb (addr_low pmr1 <=? addr_high pmr1) then None else
  if negb (addr_low pmr2 <=? addr_high pmr2) then None else
  if addr_high pmr1 <=? addr_low pmr2 then Some (-1) else
  if addr_high pmr2 <=? addr_low pmr1 then Some 1 else
  if ((addr_low pmr1 <=? addr_low pmr2) && (addr_high pmr2 <=? addr_high pmr1)) ||
     ((addr_low pmr2 <=? addr_low pmr1) && (addr_high pmr1 <=? addr_high pmr2))
  then Some 0 else None.

(** The table is the list of its [nr_pmr_ops] entries.
    src/vmm/pm_region.c:49-66 search_pm_region_callback *)
Definition search_pm_region_callback (pmr_ops : list pm_region_operation) (guest_pa : Z) :
    option (option pm_region_operation) :=
  let target := {| addr_low := u32 guest_pa; addr_high := u32 (guest_pa + 1);
                   pmr_callbacks := ram_region |} in
  rc ← SEARCH pm_region_operation_compare pmr_ops (Z.of_nat (length pmr_ops)) target;
  match rc with
  | None => Some None
  | Some i => r ← pmr_ops !! Z.to_nat i; Some (Some r)
  end.

(** src/vmm/pm_region.c:68-80 register_pm_region_operation *)
Definition register_pm_region_operation (pmr_ops : list pm_region_operation)
    (pmr : pm_region_operation) : option (list pm_region_operation) :=
  found ← search_pm_region_callback pmr_ops (addr_low pmr);
  if decide (is_Some found) then None else
  if negb (Z.of_nat (length pmr_ops) <? MAX_NR_PM_REGIONS) then None else
  let pmr_ops := pmr_ops ++ [pmr] in
  pmr_ops ← SORT pm_region_operation_compare pmr_ops (Z.of_nat (length pmr_ops));
  found ← search_pm_region_callback pmr_ops (addr_low pmr);
  if decide (is_Some found) then Some pmr_ops else None.

(** ** Specification *)

Definition region_ok (r : pm_region_operation) : Prop :=
  0 <= addr_low r < addr_high r /\ addr_high r < 2 ^ 32.

Definition covers (r : pm_region_operation) (pa : Z) : Prop := addr_low r <= pa < addr_high r.

Definition below (r s : pm_region_operation) : Prop := addr_high r <= addr_low s.

Definition disjoint_regions (r s : pm_region_operation) : Prop := below r s \/ below s r.

(** Regions are non-empty, pairwise disjoint and in address order. *)
Definition table_ok (rs : list pm_region_operation) : Prop :=
  Forall region_ok rs /\ StronglySorted below rs.

#[export] Instance covers_dec r pa : Decision (covers r pa).
Proof. unfold covers. apply _. Defined.

(** ** Lookup *)

Lemma table_ok_order rs i j x y :
  table_ok rs -> (i < j)%nat -> rs !! i = Some x -> rs !! j = Some y -> below x y.
Proof.
  intros [_ HS] Hij Hx Hy. rewrite <- (take_drop j rs) in HS.
  eapply (StronglySorted_app_1_elem_of _ _ _ x y) in HS; [done| |].
  - apply list_elem_of_lookup. exists i. by rewrite lookup_take_lt by done.
  - apply list_elem_of_lookup. exists 0%nat. by rewrite lookup_drop, Nat.add_0_r.
Qed.

Lemma compare_target rs pa x :
  0 <= pa < 2 ^ 32 - 1 -> region_ok x ->
  pm_region_operation_compare
    {| addr_low := u32 pa; addr_high := u32 (pa + 1); pmr_callbacks := rs |} x =
  Some (if pa <? addr_low x then -1 else if addr_high x <=? pa then 1 else 0).
Proof.
  intros Hpa [Hx1 Hx2]. unfold pm_region_operation_compare. cbn [addr_low addr_high].
  rewrite !u32_id by (unfold is_uint; lia).
  repeat match goal with |- context [?a <=? ?b] => destruct (Z.leb_spec a b)
    | |- context [?a <? ?b] => destruct (Z.ltb_spec a b) end; cbn; try done; lia.
Qed.

Lemma search_falling rs pa :
  0 <= pa < 2 ^ 32 - 1 -> table_ok rs ->
  falling pm_region_operation_compare
    (fun i => match rs !! Z.to_nat i with
              | Some x => if pa <? addr_low x then -1 else if addr_high x <=? pa then 1 else 0
              | None => 0 end)
    rs (Z.of_nat (length rs))
    {| addr_low := u32 pa; addr_high := u32 (pa + 1); pmr_callbacks := ram_region |}.
Proof.
  intros Hpa HT. pose proof HT as [HF _].
  assert (Hl : forall i, 0 <= i < Z.of_nat (length rs) ->
    exists x, rs !! Z.to_nat i = Some x /\ region_ok x).
  { intros i Hi. destruct (lookup_lt_is_Some_2 rs (Z.to_nat i)) as [x Hx]; [lia|].
    exists x. split; [done|]. by eapply Forall_lookup_1. }
  split; [|split].
  - intros i Hi. destruct (Hl i Hi) as (x & Hx & Ho). exists x. split; [done|].
    rewrite Hx. by apply compare_target.
  - intros i j Hij Hj. destruct (Z.eq_dec i j) as [->|]; [done|].
    destruct (Hl i ltac:(lia)) as (x & Hx & [? ?]), (Hl j ltac:(lia)) as (y & Hy & [? ?]).
    pose proof (table_ok_order rs (Z.to_nat i) (Z.to_nat j) x y HT ltac:(lia) Hx Hy) as Hb. unfold below in Hb.
    rewrite Hx, Hy. repeat case_test; to_prop; lia.
  - intros i j Hij Hj. destruct (Z.eq_dec i j) as [->|]; [done|].
    destruct (Hl i ltac:(lia)) as (x & Hx & [? ?]), (Hl j ltac:(lia)) as (y & Hy & [? ?]).
    pose proof (table_ok_order rs (Z.to_nat i) (Z.to_nat j) x y HT ltac:(lia) Hx Hy) as Hb. unfold below in Hb.
    rewrite Hx, Hy. repeat case_test; to_prop; lia.
Qed.

Lemma search_pm_region_spec rs pa :
  0 <= pa < 2 ^ 32 - 1 -> table_ok rs ->
  exists o, search_pm_region_callback rs pa = Some o /\
    match o with
    | Some r => r ∈ rs /\ covers r pa
    | None => Forall (fun r => ~ covers r pa) rs
    end.
Proof.
  intros Hpa HT. unfold search_pm_region_callback.
  destruct (SEARCH_falling _ _ _ _ _ (search_falling rs pa Hpa HT) ltac:(lia)) as (r & -> & Hr).
  cbn [mbind option_bind]. destruct r as [i|].
  - destruct Hr as [Hi H0]. destruct (lookup_lt_is_Some_2 rs (Z.to_nat i)) as [x Hx]; [lia|].
    rewrite Hx in H0 |- *. cbn [mbind option_bind]. exists (Some x). split; [done|].
    split; [by eapply list_elem_of_lookup_2|].
    unfold covers. revert H0. repeat case_test; to_prop; lia.
  - exists None. split; [done|]. apply Forall_lookup_2. intros i x Hx Hc.
    pose proof (lookup_lt_Some _ _ _ Hx).
    apply (Hr (Z.of_nat i)); [lia|]. rewrite Nat2Z.id, Hx. unfold covers in Hc.
    destruct (Z.ltb_spec pa (addr_low x)); [lia|]. destruct (Z.leb_spec (addr_high x) pa); lia.
Qed.

(** At most one region of a table holds an address. *)
Lemma table_ok_unique rs pa x y :
  table_ok rs -> x ∈ rs -> y ∈ rs -> covers x pa -> covers y pa -> x = y.
Proof.
  intros HT [i Hi]%list_elem_of_lookup [j Hj]%list_elem_of_lookup Hx Hy.
  unfold covers in *.
  destruct (lt_eq_lt_dec i j) as [[Hij| ->]|Hij].
  - pose proof (table_ok_order rs i j x y HT Hij Hi Hj). unfold below in *. lia.
  - congruence.
  - pose proof (table_ok_order rs j i y x HT Hij Hj Hi). unfold below in *. lia.
Qed.

(** ** Registration *)

Lemma compare_agrees rs :
  Forall region_ok rs ->
  (forall x y, x ∈ rs -> y ∈ rs -> x = y \/ disjoint_regions x y) ->
  agrees pm_region_operation_compare addr_low (fun x => x ∈ rs).
Proof.
  intros HF Hd x y Hx Hy. rewrite Forall_forall in HF.
  destruct (HF x Hx) as [Hx1 Hx2], (HF y Hy) as [Hy1 Hy2].
  unfold pm_region_operation_compare.
  destruct (Hd x y Hx Hy) as [<-|[Hb|Hb]]; unfold below in *;
    repeat match goal with |- context [?a <=? ?b] => destruct (Z.leb_spec a b); try lia end;
    cbn [negb andb orb]; eexists; (split; [reflexivity|]).
  - by rewrite !Z.compare_refl.
  - destruct (Z.compare_spec (addr_low x) (addr_low y)); done || lia.
  - destruct (Z.compare_spec (addr_low x) (addr_low y)); done || lia.
Qed.

Lemma sorted_by_low rs :
  Forall region_ok rs -> NoDup rs ->
  (forall x y, x ∈ rs -> y ∈ rs -> x = y \/ disjoint_regions x y) ->
  StronglySorted (key_le addr_low) rs -> StronglySorted below rs.
Proof.
  induction rs as [|x rs IH]; intros HF HN Hd HS; [constructor|].
  apply StronglySorted_cons in HS as [Hx HS]. apply Forall_cons in HF as [Ho HF].
  apply NoDup_cons in HN as [Hn HN].
  apply StronglySorted_cons. split.
  - rewrite Forall_forall in Hx, HF |- *. intros y Hy. specialize (Hx y Hy).
    destruct (Hd x y) as [->|[?|?]]; [by left|by right|done|done|].
    destruct (HF y Hy), Ho. unfold key_le, below in *. lia.
  - apply IH; [done..| |done]. intros. apply Hd; by right.
Qed.

Lemma table_ok_nodup rs : table_ok rs -> NoDup rs.
Proof.
  intros [HF HS]. induction rs as [|x rs IH]; [constructor|].
  apply StronglySorted_cons in HS as [Hx HS]. apply Forall_cons in HF as [Ho HF].
  constructor; [|by apply IH]. intros Hin. rewrite Forall_forall in Hx.
  specialize (Hx x Hin). destruct Ho. unfold below in Hx. lia.
Qed.

Lemma table_ok_pairwise rs x y :
  table_ok rs -> x ∈ rs -> y ∈ rs -> x = y \/ disjoint_regions x y.
Proof.
  intros HT [i Hi]%list_elem_of_lookup [j Hj]%list_elem_of_lookup.
  destruct (lt_eq_lt_dec i j) as [[Hij| ->]|Hij].
  - right; left. by eapply table_ok_order.
  - left. congruence.
  - right; right. by eapply table_ok_order.
Qed.

Lemma register_spec rs r :
  table_ok rs -> region_ok r -> Forall (disjoint_regions r) rs ->
  Z.of_nat (length rs) < MAX_NR_PM_REGIONS ->
  exists rs', register_pm_region_operation rs r = Some rs' /\ rs' ≡ₚ r :: rs /\ table_ok rs'.
Proof.
  intros HT Hr Hd Hlen. unfold register_pm_region_operation.
  assert (Hrange : 0 <= addr_low r < 2 ^ 32 - 1) by (destruct Hr; lia).
  destruct (search_pm_region_spec rs (addr_low r) Hrange HT) as (o & -> & Ho).
  cbn [mbind option_bind]. destruct o as [x|].
  { exfalso. destruct Ho as [Hx Hc]. rewrite Forall_forall in Hd.
    destruct (Hd x Hx), Hr; unfold below, covers in *; lia. }
  destruct (decide _) as [[? ?]|_]; [done|].
  destruct (Z.ltb_spec (Z.of_nat (length rs)) MAX_NR_PM_REGIONS); [|lia]. cbn [negb].
  assert (Hpw : forall x y, x ∈ rs ++ [r] -> y ∈ rs ++ [r] -> x = y \/ disjoint_regions x y).
  { rewrite Forall_forall in Hd.
    intros x y [Hx| ->%list_elem_of_singleton]%elem_of_app [Hy| ->%list_elem_of_singleton]%elem_of_app.
    - by eapply table_ok_pairwise.
    - right. destruct (Hd x Hx); [by right|by left].
    - right. by apply Hd.
    - by left. }
  assert (HF : Forall region_ok (rs ++ [r])).
  { apply Forall_app. split; [by destruct HT|by constructor]. }
  assert (HN : NoDup (rs ++ [r])).
  { apply NoDup_app. split; [by apply table_ok_nodup|]. split; [|apply NoDup_singleton].
    intros x Hx ->%list_elem_of_singleton. rewrite Forall_forall in Hd.
    destruct (Hd r Hx), Hr; unfold below in *; lia. }
  destruct (SORT_keyed pm_region_operation_compare addr_low (fun x => x ∈ rs ++ [r])
              (compare_agrees _ HF Hpw) (rs ++ [r]) []) as (out & E & Hp & HS).
  { apply Forall_forall. done. }
  rewrite !app_nil_r in E. rewrite E. cbn [mbind option_bind].
  assert (HT' : table_ok out).
  { split; [by rewrite Hp|]. apply sorted_by_low; [by rewrite Hp|by rewrite Hp| |done].
    intros x y. rewrite Hp. apply Hpw. }
  destruct (search_pm_region_spec out (addr_low r) Hrange HT') as (o & -> & Ho').
  cbn [mbind option_bind]. destruct o as [x|].
  - destruct (decide _) as [_|Hn]; [|by destruct Hn].
    exists out. split; [done|]. split; [|done]. rewrite Hp. apply Permutation_app_comm.
  - exfalso. rewrite Forall_forall in Ho'. apply (Ho' r).
    + rewrite Hp. apply elem_of_app. right. by left.
    + destruct Hr. unfold covers. lia.
Qed.

(** ** Properties *)

(** Address lookup. On a table of disjoint regions in address order (what
    registration builds), [search_pm_region_callback] terminates without a failed
    assertion for every physical address but 0xffffffff and returns the one region
    that covers it, or NULL when none does. *)
Theorem search_pm_region_correct rs pa :
  0 <= pa < 2 ^ 32 - 1 -> table_ok rs ->
  exists o, search_pm_region_callback rs pa = Some o /\
    forall r, o = Some r <-> r ∈ rs /\ covers r pa.
Proof.
  intros Hpa HT. destruct (search_pm_region_spec rs pa Hpa HT) as (o & -> & Ho).
  exists o. split; [done|]. intros r. split.
  - intros ->. done.
  - intros [Hin Hc]. destruct o as [x|].
    + f_equal. destruct Ho. by apply (table_ok_unique rs pa).
    + rewrite Forall_forall in Ho. by destruct (Ho r Hin).
Qed.

(** Registration. A non-empty region disjoint from those present is accepted
    (table not full), the table becomes a permutation of the old one with the new
    region, stays disjoint and in order, and every address then resolves to the new
    region or to what it resolved to before. *)
Theorem register_pm_region_correct rs r :
  table_ok rs -> region_ok r -> Forall (disjoint_regions r) rs ->
  Z.of_nat (length rs) < MAX_NR_PM_REGIONS ->
  exists rs', register_pm_region_operation rs r = Some rs' /\ rs' ≡ₚ r :: rs /\ table_ok rs' /\
    forall pa, 0 <= pa < 2 ^ 32 - 1 ->
      search_pm_region_callback rs' pa =
      if decide (covers r pa) then Some (Some r) else search_pm_region_callback rs pa.
Proof.
  intros HT Hr Hd Hlen. destruct (register_spec rs r HT Hr Hd Hlen) as (rs' & E & Hp & HT').
  exists rs'. repeat (split; [done|]). intros pa Hpa.
  destruct (search_pm_region_spec rs' pa Hpa HT') as (o' & -> & Ho').
  destruct (search_pm_region_spec rs pa Hpa HT) as (o & -> & Ho).
  assert (Hin : forall x, x ∈ rs' <-> x = r \/ x ∈ rs).
  { intros x. by rewrite Hp, elem_of_cons. }
  destruct (decide (covers r pa)) as [Hc|Hc]; f_equal.
  - destruct o' as [x|].
    + f_equal. apply (table_ok_unique rs' pa); try apply Ho'; try done. apply Hin. by left.
    + rewrite Forall_forall in Ho'. destruct (Ho' r); [apply Hin; by left|done].
  - destruct o' as [x|], o as [y|]; try done.
    + f_equal. destruct Ho as [Hy Hy']. apply (table_ok_unique rs' pa); try apply Ho'; try done.
      apply Hin. by right.
    + destruct Ho' as [[->|Hx]%Hin Hx']; [done|]. rewrite Forall_forall in Ho. by destruct (Ho x).
    + destruct Ho as [Hy Hy']. rewrite Forall_forall in Ho'. destruct (Ho' y); [|done].
      apply Hin. by right.
Qed.

(** The last address of the 4 GiB space: the probe [guest_pa, guest_pa + 1)
    wraps to an empty interval, the comparator's assertion fails and the emulator
    stops, whatever regions are registered. *)
Theorem search_last_address_asserts rs :
  rs <> [] -> search_pm_region_callback rs 0xffffffff = None.
Proof.
  intros Hne. destruct rs as [|x rs]; [done|].
  unfold search_pm_region_callback, SEARCH.
  cbn [length search_loop].
  destruct (Z.leb_spec 0 (Z.of_nat (S (length rs)) - 1)); [|lia].
  change (ELEM (x :: rs) 0) with (Some x). cbn [mbind option_bind].
  destruct (lookup_lt_is_Some_2 (x :: rs) (length rs)) as [y Hy]; [cbn; lia|].
  replace (Z.of_nat (S (length rs)) - 1) with (Z.of_nat (length rs)) by lia.
  assert (ELEM (x :: rs) (Z.of_nat (length rs)) = Some y) as ->; [|done].
  apply ELEM_lookup. by rewrite Nat2Z.id; split; [lia|].
Qed.

Module Witness.
Definition ram : pm_region_operation :=
  {| addr_low := 0x80000000; addr_high := 0xa0000000; pmr_callbacks := ram_region |}.
Definition uart : pm_region_operation :=
  {| addr_low := 0x10000000; addr_high := 0x10000100; pmr_callbacks := uart_region |}.

Lemma ram_table_ok : table_ok [ram].
Proof. split; repeat constructor; done. Qed.

Lemma search_pm_region_correct_witness :
  exists o, search_pm_region_callback [ram] 0x80001000 = Some o /\
    forall r, o = Some r <-> r ∈ [ram] /\ covers r 0x80001000.
Proof. apply (search_pm_region_correct [ram] 0x80001000); [lia|apply ram_table_ok]. Defined.

Lemma register_pm_region_correct_witness :
  exists rs', register_pm_region_operation [ram] uart = Some rs' /\ rs' ≡ₚ [uart; ram] /\
    table_ok rs' /\ forall pa, 0 <= pa < 2 ^ 32 - 1 ->
      search_pm_region_callback rs' pa =
      if decide (covers uart pa) then Some (Some uart) else search_pm_region_callback [ram] pa.
Proof.
  apply (register_pm_region_correct [ram] uart).
  - apply ram_table_ok.
  - done.
  - repeat constructor. by vm_compute.
  - done.
Defined.

Lemma search_last_address_asserts_witness : search_pm_region_callback [ram] 0xffffffff = None.
Proof. apply (search_last_address_asserts [ram]). congruence. Defined.
End Witness.
