(* ===== verification/X86.v ===== *)
(** * Host code: the x86-64 subset of the translation templates

    The translators of src/vmm/translate_*.c copy blocks of inline assembly into
    the translation cache. This file gives that assembly its syntax (one
    constructor per mnemonic and operand form the templates use, in AT&T operand
    order) and an executable semantics.

    A register holds an integer, the address of a vmm symbol, or a pointer into
    the hart structure; arithmetic on anything else is stuck, so a theorem that a
    block runs also says that it never uses an address as a number. The guest
    registers and pc are reached only through [r15] and [r14], as in the code, and
    the machine state behind them is a parameter [W] with the lens operations of
    the class [GuestBank]. A call leaves the caller-saved registers with arbitrary
    contents ([junk]), which every theorem quantifies over. *)

From S2P Require Import Prelude.
Local Open Scope Z_scope.

(** ** Syntax *)

Inductive reg64 := rax | rbx | rcx | rdx | rsi | rdi | r8 | r12 | r13 | r14 | r15.

Scheme Equality for reg64.

(** The vmm functions a template calls, and the trap entry of vmm_trap.S. *)
Module Sym.
Inductive symbol :=
  | enter_vmm_dbg_shell | vmm_entry_point
  | mmu_read8 | mmu_read16 | mmu_read32 | mmu_write8 | mmu_write16 | mmu_write32
  | amo_instruction_slowpath | flush_translation_cache
  | ebreak_callback | mret_callback | sret_callback | sfence_vma_callback
  | ecall_callback | wfi_callback | riscv_generic_csr_callback.

#[export] Instance symbol_eq_dec : EqDecision symbol.
Proof. solve_decision. Defined.
End Sym.
Export (hints) Sym.
Abbreviation symbol := Sym.symbol.

(** 32-bit operands: [$z], [%r], [(%r)] and [PIC_PARAM(i)]. *)
Inductive operand := Imm (z : Z) | Reg (r : reg64) | Mem (r : reg64) | PIC_PARAM (i : nat).

(** The 32-bit names of the registers. *)
Abbreviation eax := (Reg rax).
Abbreviation ebx := (Reg rbx).
Abbreviation ecx := (Reg rcx).
Abbreviation edx := (Reg rdx).
Abbreviation esi := (Reg rsi).
Abbreviation edi := (Reg rdi).
Abbreviation r8d := (Reg r8).

Inductive cond := CC_e | CC_ne | CC_l | CC_ge | CC_b | CC_ae.

Inductive xinstr :=
  | movl (src dst : operand)
  | movq (src dst : reg64)
  | movq_imm (z : Z) (dst : reg64)
  | movq_sym (s : symbol) (dst : reg64)
  | addl (src dst : operand)
  | subl (src dst : operand)
  | andl (src dst : operand)
  | orl (src dst : operand)
  | xorl (src dst : operand)
  | cmpl (src dst : operand)
  | addq (src dst : reg64)
  | shl (k : Z) (dst : reg64)
  | shrq (k : Z) (dst : reg64)
  | shl_cl (dst : reg64)
  | shr_cl (dst : reg64)
  | sar_cl (dst : reg64)
  | setcc (c : cond) (dst : reg64)
  | movzbl (src dst : reg64)
  | movzwl (src dst : reg64)
  | movsbl (src dst : reg64)
  | movswl (src dst : reg64)
  | movsxd (src dst : reg64)
  | mul (src : reg64)
  | imul (src : reg64)
  | imulq (src : reg64)
  | div (src : reg64)
  | idiv (src : reg64)
  | btr (k : Z) (dst : reg64)
  | pushq (r : reg64)
  | popq (r : reg64)
  | call (r : reg64)
  | jmpq (r : reg64)
  | jcc (c : cond) (l : nat)
  | jmp (l : nat)
  | label (l : nat)
  | jmp_translation_end.

(** ** State *)

Inductive val := Vint (z : Z) | Vcode (s : symbol) | Vhart (off : Z) | Vcache.

(** Layout of [struct hart]: the register profile first, then the pc. *)
Definition HART_REGISTERS_OFFSET : Z := 0.
Definition HART_PC_OFFSET : Z := 128.

(** The guest state as the templates see it. *)
Class GuestBank (W : Type) := {
  rd_reg : Z -> W -> Z;
  wr_reg : Z -> Z -> W -> W;
  rd_pc : W -> Z;
  wr_pc : Z -> W -> W;
  bank_wf : W -> Prop
}.

Class GuestBankLaws (W : Type) `{GuestBank W} := {
  rd_reg_uint w i : bank_wf w -> 0 <= i < 32 -> is_uint 32 (rd_reg i w);
  rd_pc_uint w : bank_wf w -> is_uint 32 (rd_pc w);
  rd_wr_reg w i v : bank_wf w -> 0 <= i < 32 -> rd_reg i (wr_reg i v w) = v;
  rd_wr_reg_ne w i j v : i <> j -> 0 <= i -> 0 <= j -> rd_reg i (wr_reg j v w) = rd_reg i w;
  rd_wr_pc w v : rd_pc (wr_pc v w) = v;
  rd_reg_wr_pc w i v : rd_reg i (wr_pc v w) = rd_reg i w;
  rd_pc_wr_reg w i v : rd_pc (wr_reg i v w) = rd_pc w;
  wr_wr_reg w i u v : wr_reg i v (wr_reg i u w) = wr_reg i v w;
  wr_rd_reg w i : bank_wf w -> 0 <= i < 32 -> wr_reg i (rd_reg i w) w = w;
  wr_reg_wf w i v : bank_wf w -> 0 <= i < 32 -> is_uint 32 v -> bank_wf (wr_reg i v w);
  wr_pc_wf w v : bank_wf w -> is_uint 32 v -> bank_wf (wr_pc v w);
  wr_reg_comm w i j u v :
    i <> j -> 0 <= i -> 0 <= j -> wr_reg i u (wr_reg j v w) = wr_reg j v (wr_reg i u w);
  wr_reg_pc w i u v : wr_reg i u (wr_pc v w) = wr_pc v (wr_reg i u w)
}.

Record cpu := {
  gpr : reg64 -> val;
  flags : option (Z * Z);
  stack : list val
}.

Definition set_gpr (r : reg64) (v : val) (c : cpu) : cpu :=
  {| gpr := fun r' => if reg64_beq r' r then v else gpr c r';
     flags := flags c; stack := stack c |}.

Definition set_flags (f : option (Z * Z)) (c : cpu) : cpu :=
  {| gpr := gpr c; flags := f; stack := stack c |}.

(** What a called vmm function does: it returns (with the width and value of its
    result), or control leaves for the guest's trap handler, or the process
    exits, or the call has no defined result. *)
Inductive callres (W : Type) :=
  | CRet (ret : option (Z * Z)) (w : W)
  | CTrap (w : W)
  | CExit (w : W)
  | CFail.
Arguments CRet {W}.
Arguments CTrap {W}.
Arguments CExit {W}.
Arguments CFail {W}.

(** How a block ends: at its [_translation_end] label, at [vmm_entry_point],
    inside a callee that does not return, in a host divide error, or stuck. *)
Inductive outcome (W : Type) :=
  | XFall (c : cpu) (w : W)
  | XVmm (c : cpu) (w : W)
  | XTrap (w : W)
  | XExit (w : W)
  | XFault (w : W)
  | XStuck.
Arguments XFall {W}.
Arguments XVmm {W}.
Arguments XTrap {W}.
Arguments XExit {W}.
Arguments XFault {W}.
Arguments XStuck {W}.

(** ** Semantics *)

Definition is_reg_offset (off : Z) : bool :=
  (HART_REGISTERS_OFFSET <=? off) && (off <? HART_PC_OFFSET) && (off mod 4 =? 0).

Definition cond_holds (c : cond) (dst src : Z) : bool :=
  match c with
  | CC_e => dst =? src
  | CC_ne => negb (dst =? src)
  | CC_l => s32 dst <? s32 src
  | CC_ge => negb (s32 dst <? s32 src)
  | CC_b => dst <? src
  | CC_ae => negb (dst <? src)
  end.

Definition caller_saved (r : reg64) : bool :=
  match r with
  | rax | rcx | rdx | rsi | rdi | r8 => true
  | _ => false
  end.

Section Semantics.
Context {W : Type} `{GuestBank W}.
(** The vmm function behind a symbol, on the five argument registers. *)
Context (vmm_call : symbol -> val -> val -> val -> val -> val -> W -> callres W).
Context (junk : nat -> reg64 -> Z).
Context (params : list Z).

Definition host_load (a : val) (w : W) : option Z :=
  match a with
  | Vhart off =>
      if is_reg_offset off then Some (rd_reg (off / 4) w)
      else if off =? HART_PC_OFFSET then Some (rd_pc w) else None
  | _ => None
  end.

Definition host_store (a : val) (v : Z) (w : W) : option W :=
  match a with
  | Vhart off =>
      if is_reg_offset off then Some (wr_reg (off / 4) v w)
      else if off =? HART_PC_OFFSET then Some (wr_pc v w) else None
  | _ => None
  end.

Definition as_int (v : val) : option Z :=
  match v with Vint z => Some z | _ => None end.

Definition get32 (o : operand) (c : cpu) (w : W) : option Z :=
  match o with
  | Imm z => Some (u32 z)
  | Reg r => z ← as_int (gpr c r); Some (u32 z)
  | Mem r => host_load (gpr c r) w
  | PIC_PARAM i => z ← params !! i; Some (u32 z)
  end.

Definition put32 (o : operand) (v : Z) (c : cpu) (w : W) : option (cpu * W) :=
  match o with
  | Reg r => Some (set_gpr r (Vint v) c, w)
  | Mem r => w' ← host_store (gpr c r) v w; Some (c, w')
  | _ => None
  end.

Definition get64 (r : reg64) (c : cpu) : option Z := z ← as_int (gpr c r); Some (u64 z).
Definition getr32 (r : reg64) (c : cpu) : option Z := z ← as_int (gpr c r); Some (u32 z).

Definition alu32 (f : Z -> Z -> Z) (src dst : operand) (c : cpu) (w : W) : option (cpu * W) :=
  a ← get32 src c w;
  b ← get32 dst c w;
  '(c', w') ← put32 dst (u32 (f b a)) c w;
  Some (set_flags None c', w').

Definition shift32 (f : Z -> Z -> Z) (k : Z) (dst : reg64) (c : cpu) (w : W) :
    option (cpu * W) :=
  b ← getr32 dst c;
  Some (set_flags None (set_gpr dst (Vint (u32 (f b (Z.land k 31)))) c), w).

Definition add_val (a b : val) : option val :=
  match a, b with
  | Vint x, Vint y => Some (Vint (u64 (x + y)))
  | Vhart off, Vint x | Vint x, Vhart off => Some (Vhart (off + u64 x))
  | _, _ => None
  end.

Definition pair32 (hi lo : Z) : Z := hi * 2 ^ 32 + lo.

Inductive step_result :=
  | Next (c : cpu) (w : W)
  | Goto (l : nat) (c : cpu) (w : W)
  | Done (o : outcome W).

Definition of_option (o : option (cpu * W)) : step_result :=
  match o with Some (c, w) => Next c w | None => Done XStuck end.

Definition divide (signed_div : bool) (src : reg64) (c : cpu) (w : W) : step_result :=
  match getr32 rdx c, getr32 rax c, getr32 src c with
  | Some hi, Some lo, Some d =>
      let n := if signed_div then s64 (pair32 hi lo) else pair32 hi lo in
      let d := if signed_div then s32 d else d in
      if d =? 0 then Done (XFault w)
      else
        let q := Z.quot n d in
        let ok := if signed_div then (- 2 ^ 31 <=? q) && (q <? 2 ^ 31) else q <? 2 ^ 32 in
        if ok then
          Next (set_flags None (set_gpr rdx (Vint (u32 (Z.rem n d)))
                  (set_gpr rax (Vint (u32 q)) c))) w
        else Done (XFault w)
  | _, _, _ => Done XStuck
  end.

Definition after_call (site : nat) (ret : option (Z * Z)) (c : cpu) : cpu :=
  {| gpr := fun r =>
       if reg64_beq r rax then
         match ret with
         | Some (width, v) => Vint (u64 (v mod 2 ^ width + junk site rax * 2 ^ width))
         | None => Vint (u64 (junk site rax))
         end
       else if caller_saved r then Vint (u64 (junk site r)) else gpr c r;
     flags := None; stack := stack c |}.

Definition step (site : nat) (i : xinstr) (c : cpu) (w : W) : step_result :=
  match i with
  | movl src dst => of_option (a ← get32 src c w; put32 dst a c w)
  | movq src dst => Next (set_gpr dst (gpr c src) c) w
  | movq_imm z dst => Next (set_gpr dst (Vint (u64 z)) c) w
  | movq_sym s dst => Next (set_gpr dst (Vcode s) c) w
  | addl src dst => of_option (alu32 Z.add src dst c w)
  | subl src dst => of_option (alu32 Z.sub src dst c w)
  | andl src dst => of_option (alu32 Z.land src dst c w)
  | orl src dst => of_option (alu32 Z.lor src dst c w)
  | xorl src dst =>
      match src, dst with
      | Reg r, Reg r' =>
          if reg64_beq r r' then Next (set_flags None (set_gpr r (Vint 0) c)) w
          else of_option (alu32 Z.lxor src dst c w)
      | _, _ => of_option (alu32 Z.lxor src dst c w)
      end
  | cmpl src dst =>
      of_option (a ← get32 src c w; b ← get32 dst c w; Some (set_flags (Some (b, a)) c, w))
  | addq src dst =>
      of_option (v ← add_val (gpr c dst) (gpr c src);
                 Some (set_flags None (set_gpr dst v c), w))
  | shl k dst => of_option (shift32 Z.shiftl k dst c w)
  | shrq k dst =>
      of_option (b ← get64 dst c;
                 Some (set_flags None (set_gpr dst (Vint (Z.shiftr b (Z.land k 63))) c), w))
  | shl_cl dst => of_option (k ← getr32 rcx c; shift32 Z.shiftl k dst c w)
  | shr_cl dst => of_option (k ← getr32 rcx c; shift32 Z.shiftr k dst c w)
  | sar_cl dst =>
      of_option (k ← getr32 rcx c; shift32 (fun x n => Z.shiftr (s32 x) n) k dst c w)
  | setcc cc dst =>
      match flags c, as_int (gpr c dst) with
      | Some (b, a), Some x =>
          Next (set_gpr dst (Vint (u64 (Z.shiftl (Z.shiftr x 8) 8 +
                                        int_of_bool (cond_holds cc b a)))) c) w
      | _, _ => Done XStuck
      end
  | movzbl src dst => of_option (x ← getr32 src c; Some (set_gpr dst (Vint (u8 x)) c, w))
  | movzwl src dst => of_option (x ← getr32 src c; Some (set_gpr dst (Vint (u16 x)) c, w))
  | movsbl src dst => of_option (x ← getr32 src c; Some (set_gpr dst (Vint (u32 (s8 x))) c, w))
  | movswl src dst => of_option (x ← getr32 src c; Some (set_gpr dst (Vint (u32 (s16 x))) c, w))
  | movsxd src dst => of_option (x ← getr32 src c; Some (set_gpr dst (Vint (u64 (s32 x))) c, w))
  | mul src =>
      of_option (a ← getr32 rax c; b ← getr32 src c;
                 Some (set_flags None (set_gpr rdx (Vint (u32 (a * b / 2 ^ 32)))
                         (set_gpr rax (Vint (u32 (a * b))) c)), w))
  | imul src =>
      of_option (a ← getr32 rax c; b ← getr32 src c;
                 Some (set_flags None (set_gpr rdx (Vint (u32 (s32 a * s32 b / 2 ^ 32)))
                         (set_gpr rax (Vint (u32 (s32 a * s32 b))) c)), w))
  | imulq src =>
      of_option (a ← get64 rax c; b ← get64 src c;
                 Some (set_flags None (set_gpr rdx (Vint (u64 (s64 a * s64 b / 2 ^ 64)))
                         (set_gpr rax (Vint (u64 (s64 a * s64 b))) c)), w))
  | div src => divide false src c w
  | idiv src => divide true src c w
  | btr k dst =>
      of_option (x ← getr32 dst c; Some (set_flags None (set_gpr dst (Vint (Z.clearbit x k)) c), w))
  | pushq r => Next {| gpr := gpr c; flags := flags c; stack := gpr c r :: stack c |} w
  | popq r =>
      match stack c with
      | v :: st => Next (set_gpr r v {| gpr := gpr c; flags := flags c; stack := st |}) w
      | [] => Done XStuck
      end
  | call r =>
      match gpr c r with
      | Vcode s =>
          match vmm_call s (gpr c rdi) (gpr c rsi) (gpr c rdx) (gpr c rcx) (gpr c r8) w with
          | CRet ret w' => Next (after_call site ret c) w'
          | CTrap w' => Done (XTrap w')
          | CExit w' => Done (XExit w')
          | CFail => Done XStuck
          end
      | _ => Done XStuck
      end
  | jmpq r =>
      match gpr c r with
      | Vcode Sym.vmm_entry_point => Done (XVmm c w)
      | _ => Done XStuck
      end
  | jcc cc l =>
      match flags c with
      | Some (b, a) => if cond_holds cc b a then Goto l c w else Next c w
      | None => Done XStuck
      end
  | jmp l => Goto l c w
  | label _ => Next c w
  | jmp_translation_end => Done (XFall c w)
  end.

(** All jumps of the templates are forward: a taken jump skips to its label.
    Running off the end of the code (into the parameters) is stuck. *)
Fixpoint exec (code : list xinstr) (skip : option nat) (c : cpu) (w : W) : outcome W :=
  match code with
  | [] => XStuck
  | i :: rest =>
      match skip with
      | Some l =>
          match i with
          | label l' => if (l =? l')%nat then exec rest None c w else exec rest skip c w
          | _ => exec rest skip c w
          end
      | None =>
          match step (length rest) i c w with
          | Next c' w' => exec rest None c' w'
          | Goto l c' w' => exec rest (Some l) c' w'
          | Done o => o
          end
      end
  end.
End Semantics.

(** ** The template macros of src/vmm/translation.h *)

(** src/vmm/translation.h:49-53 SAVE_GUEST_CONTEXT_SWITCH_REGS *)
Definition SAVE_GUEST_CONTEXT_SWITCH_REGS : list xinstr :=
  [pushq r15; pushq r14; pushq r13; pushq r12].

(** src/vmm/translation.h:55-59 RESTORE_GUEST_CONTEXT_SWITCH_REGS *)
Definition RESTORE_GUEST_CONTEXT_SWITCH_REGS : list xinstr :=
  [popq r12; popq r13; popq r14; popq r15].

(** src/vmm/translation.h:64-77 BEGIN_TRANSLATION *)
Definition BEGIN_TRANSLATION : list xinstr :=
  [movq r12 rdi; movq_imm 1 rsi; movq_sym Sym.enter_vmm_dbg_shell rax]
  ++ SAVE_GUEST_CONTEXT_SWITCH_REGS ++ [call rax] ++ RESTORE_GUEST_CONTEXT_SWITCH_REGS.

(** src/vmm/translation.h:144-145 END_INSTRUCTION *)
Definition END_INSTRUCTION : list xinstr := [jmp_translation_end].

(** src/vmm/translation.h:209-210 PROCEED_TO_NEXT_INSTRUCTION *)
Definition PROCEED_TO_NEXT_INSTRUCTION : list xinstr := [addl (Imm 4) (Mem r14)].

(** src/vmm/translation.h:212-213 RESET_ZERO_REGISTER *)
Definition RESET_ZERO_REGISTER : list xinstr := [movl (Imm 0) (Mem r15)].

(** src/vmm/translation.h:229-231 TRAP_TO_VMM *)
Definition TRAP_TO_VMM : list xinstr := [movq_sym Sym.vmm_entry_point rax; jmpq rax].
