(* ===== verification/Hart.v ===== *)
(** * The hart and its translation cache

    Models [struct hart] (src/vmm/hart.h), the translation cache operations of
    src/vmm/hart.c and the [PRECHECK]/[COMMIT] macros of src/vmm/translation.h
    through which every translator adds a block to the cache.

    The cache memory is a finite map from offsets to the chunks written there
    (a patched template, or the jumper of vmm_trap.S); writing a chunk removes
    whatever overlapped it. The sizes of the assembled templates are parameters
    (class [Assembler]): the assembler decides them.

    Proved here: the invariant of the cache (mapping array in order, no pc
    translated twice, blocks inside the used part and apart from each other) is
    kept by every operation; a pc that was added is found and one that was not is
    not; [PRECHECK] then [COMMIT] always succeeds; the pcs must lie within half of
    the address space, since the comparator subtracts them as 32-bit integers. *)

From stdpp Require Import sorting.
From S2P Require Import Prelude SortSearch PmRegion X86.
Local Open Scope Z_scope.

(** ** Data *)

(** The [indicator] of each template: the label prefix of its assembly. *)
Module Ind.
Inductive indicator :=
  | add_instruction | sub_instruction | and_instruction | or_instruction | xor_instruction
  | slt_instruction | sltu_instruction | sll_instruction | srl_instruction | sra_instruction
  | addi_instruction | stli_instruction | stliu_instruction | xori_instruction
  | ori_instruction | andi_instruction | slli_instruction | srli_instruction
  | srai_instruction
  | mul_instruction | mulh_instruction | mulhu_instruction | mulhsu_instruction
  | div_instruction | rem_instruction | divu_instruction | remu_instruction
  | beq_instruction | bne_instruction | blt_instruction | bltu_instruction
  | bge_instruction | bgeu_instruction
  | jal_instruction_without_target | jalr_instruction | lui_instruction | auipc_instruction
  | lb_instruction | lbu_instruction | lh_instruction | lhu_instruction | lw_instruction
  | sb_instruction | sh_instruction | sw_instruction
  | fence_instruction | fence_i_instruction | amo_instruction
  | ebreak_instruction | mret_instruction | sret_instruction | sfence_vma_instruction
  | ecall_instruction | wfi_instruction | csr_instructions.

#[export] Instance indicator_eq_dec : EqDecision indicator.
Proof. solve_decision. Defined.
End Ind.
Export (hints) Ind.
Abbreviation indicator := Ind.indicator.

(** The sizes the assembler gives to the templates and to the jumper. *)
Class Assembler := {
  translation_size : indicator -> Z;
  jumper_size : Z
}.

Definition TRANSLATION_CACHE_SIZE : Z := 1024 * 512.
Definition MAX_INSTRUCTIONS_TOTRANSLATE : Z := 4096.

(** Each template is a few dozen instructions, far below the cache size. *)
Class AssemblerOk `{Assembler} : Prop := {
  translation_size_pos i : 0 < translation_size i;
  translation_size_fits i : translation_size i + jumper_size <= TRANSLATION_CACHE_SIZE;
  jumper_size_pos : 0 < jumper_size
}.

(** A template: its indicator, its code and the number of its [PARAM32] slots. *)
Record template := {
  t_indicator : indicator;
  t_code : list xinstr;
  t_nparams : nat
}.

(** What lies at an offset of the cache memory. *)
Inductive chunk :=
  | Block (t : template) (params : list Z)
  | Jumper.

(** src/vmm/hart.h:29-32 program_counter_mapping_item *)
Record program_counter_mapping_item := { guest_pc : Z; tc_offset : Z }.

(** src/vmm/hart.h:53-62 status_control_blob *)
Record status_control_blob := {
  uie : bool; sie : bool; mie : bool; upie : bool; spie : bool; mpie : bool;
  spp : bool; mpp : Z
}.

(** The csr callbacks, by the name of the function the registration gives. *)
Module Fn.
Inductive csr_write_fn :=
  | csr_mscratch_write | csr_misa_write | csr_mtvec_write | csr_mcounteren_write
  | csr_mie_write | csr_mip_write | csr_medeleg_write | csr_mideleg_write | csr_mstatus_write
  | csr_mepc_write | csr_mcause_write | csr_mtval_write | csr_scounteren_write
  | csr_satp_write | csr_sie_write | csr_sip_write | csr_sstatus_write | csr_stvec_write
  | csr_sscratch_write | csr_sepc_write | csr_stval_write | csr_scause_write | csr_time_write
  | csr_timeh_write | csr_scratch_write | csr_pmpaddr_write | csr_pmpcfg_write.

Inductive csr_read_fn :=
  | csr_mscratch_read | csr_misa_read | csr_mvendorid_read | csr_mhartid_read | csr_mtvec_read
  | csr_mcounteren_read | csr_mie_read | csr_mip_read | csr_medeleg_read | csr_mideleg_read
  | csr_mstatus_read | csr_mepc_read | csr_mcause_read | csr_mtval_read | csr_scounteren_read
  | csr_satp_read | csr_sie_read | csr_sip_read | csr_sstatus_read | csr_stvec_read
  | csr_sscratch_read | csr_sepc_read | csr_stval_read | csr_scause_read | csr_time_read
  | csr_timeh_read | csr_cycle_read | csr_cycleh_read | csr_scratch_read | csr_pmpaddr_read
  | csr_pmpcfg_read.

Inductive csr_reset_fn :=
  | csr_misa_reset | csr_mvendorid_reset | csr_mtvec_reset | csr_mcounteren_reset
  | csr_mie_reset | csr_mip_reset | csr_medeleg_reset | csr_mideleg_reset | csr_mstatus_reset
  | csr_mepc_reset | csr_mcause_reset | csr_mtval_reset | csr_scounteren_reset
  | csr_satp_reset | csr_stvec_reset | csr_sscratch_reset | csr_sepc_reset | csr_stval_reset
  | csr_scause_reset | csr_pmpaddr_reset | csr_pmpcfg_reset.
End Fn.

(** src/vmm/csr.h:14-26 csr_entry *)
Record csr_entry := {
  is_valid : bool;
  csr_addr : Z;
  csr_blob : Z;
  wpri_mask : Z;
  write : option Fn.csr_write_fn;
  read : option Fn.csr_read_fn
}.

Definition csr_entry0 : csr_entry :=
  {| is_valid := false; csr_addr := 0; csr_blob := 0; wpri_mask := 0;
     write := None; read := None |}.

(** src/vmm/mmu_tlb.h:34-43 tlb_entry *)
Record tlb_entry := {
  va_tag : Z; pa_tag : Z; page_mask : Z; entry_valid : bool;
  level1_pte : Z; level2_pte : option Z;
  pmr : option pm_region_operation
}.

Definition tlb_entry0 : tlb_entry :=
  {| va_tag := 0; pa_tag := 0; page_mask := 0; entry_valid := false;
     level1_pte := 0; level2_pte := None; pmr := None |}.

(** src/vmm/hart.h:65-95 hart *)
Record hart := {
  registers : list Z;
  pc : Z;
  hart_id : Z;
  nr_translated_instructions : Z;
  pc_mappings : list program_counter_mapping_item;
  translation_cache : gmap Z chunk;
  translation_cache_ptr : Z;
  csrs_base : gmap Z csr_entry;
  hart_magic : Z;
  idelegation : Z;
  ienable : Z;
  ipending : Z;
  status : status_control_blob;
  privilege_level : Z;
  itlb : gmap Z tlb_entry;
  dtlb : gmap Z tlb_entry;
  itlb_cap : Z;
  dtlb_cap : Z;
  tsc : Z
}.

(** Field updates. *)
Definition set_registers v (h : hart) : hart :=
  {| registers := v; pc := pc h; hart_id := hart_id h; nr_translated_instructions :=
     nr_translated_instructions h; pc_mappings := pc_mappings h; translation_cache :=
     translation_cache h; translation_cache_ptr := translation_cache_ptr h; csrs_base :=
     csrs_base h; hart_magic := hart_magic h; idelegation := idelegation h; ienable :=
     ienable h; ipending := ipending h; status := status h; privilege_level :=
     privilege_level h; itlb := itlb h; dtlb := dtlb h; itlb_cap := itlb_cap h; dtlb_cap
     := dtlb_cap h; tsc := tsc h |}.
Definition set_pc v (h : hart) : hart :=
  {| registers := registers h; pc := v; hart_id := hart_id h; nr_translated_instructions
     := nr_translated_instructions h; pc_mappings := pc_mappings h; translation_cache :=
     translation_cache h; translation_cache_ptr := translation_cache_ptr h; csrs_base :=
     csrs_base h; hart_magic := hart_magic h; idelegation := idelegation h; ienable :=
     ienable h; ipending := ipending h; status := status h; privilege_level :=
     privilege_level h; itlb := itlb h; dtlb := dtlb h; itlb_cap := itlb_cap h; dtlb_cap
     := dtlb_cap h; tsc := tsc h |}.
Definition set_nr_translated_instructions v (h : hart) : hart :=
  {| registers := registers h; pc := pc h; hart_id := hart_id h;
     nr_translated_instructions := v; pc_mappings := pc_mappings h; translation_cache :=
     translation_cache h; translation_cache_ptr := translation_cache_ptr h; csrs_base :=
     csrs_base h; hart_magic := hart_magic h; idelegation := idelegation h; ienable :=
     ienable h; ipending := ipending h; status := status h; privilege_level :=
     privilege_level h; itlb := itlb h; dtlb := dtlb h; itlb_cap := itlb_cap h; dtlb_cap
     := dtlb_cap h; tsc := tsc h |}.
Definition set_pc_mappings v (h : hart) : hart :=
  {| registers := registers h; pc := pc h; hart_id := hart_id h;
     nr_translated_instructions := nr_translated_instructions h; pc_mappings := v;
     translation_cache := translation_cache h; translation_cache_ptr :=
     translation_cache_ptr h; csrs_base := csrs_base h; hart_magic := hart_magic h;
     idelegation := idelegation h; ienable := ienable h; ipending := ipending h; status :=
     status h; privilege_level := privilege_level h; itlb := itlb h; dtlb := dtlb h;
     itlb_cap := itlb_cap h; dtlb_cap := dtlb_cap h; tsc := tsc h |}.
Definition set_translation_cache v (h : hart) : hart :=
  {| registers := registers h; pc := pc h; hart_id := hart_id h;
     nr_translated_instructions := nr_translated_instructions h; pc_mappings :=
     pc_mappings h; translation_cache := v; translation_cache_ptr := translation_cache_ptr
     h; csrs_base := csrs_base h; hart_magic := hart_magic h; idelegation := idelegation
     h; ienable := ienable h; ipending := ipending h; status := status h; privilege_level
     := privilege_level h; itlb := itlb h; dtlb := dtlb h; itlb_cap := itlb_cap h;
     dtlb_cap := dtlb_cap h; tsc := tsc h |}.
Definition set_translation_cache_ptr v (h : hart) : hart :=
  {| registers := registers h; pc := pc h; hart_id := hart_id h;
     nr_translated_instructions := nr_translated_instructions h; pc_mappings :=
     pc_mappings h; translation_cache := translation_cache h; translation_cache_ptr := v;
     csrs_base := csrs_base h; hart_magic := hart_magic h; idelegation := idelegation h;
     ienable := ienable h; ipending := ipending h; status := status h; privilege_level :=
     privilege_level h; itlb := itlb h; dtlb := dtlb h; itlb_cap := itlb_cap h; dtlb_cap
     := dtlb_cap h; tsc := tsc h |}.
Definition set_csrs_base v (h : hart) : hart :=
  {| registers := registers h; pc := pc h; hart_id := hart_id h;
     nr_translated_instructions := nr_translated_instructions h; pc_mappings :=
     pc_mappings h; translation_cache := translation_cache h; translation_cache_ptr :=
     translation_cache_ptr h; csrs_base := v; hart_magic := hart_magic h; idelegation :=
     idelegation h; ienable := ienable h; ipending := ipending h; status := status h;
     privilege_level := privilege_level h; itlb := itlb h; dtlb := dtlb h; itlb_cap :=
     itlb_cap h; dtlb_cap := dtlb_cap h; tsc := tsc h |}.
Definition set_idelegation v (h : hart) : hart :=
  {| registers := registers h; pc := pc h; hart_id := hart_id h;
     nr_translated_instructions := nr_translated_instructions h; pc_mappings :=
     pc_mappings h; translation_cache := translation_cache h; translation_cache_ptr :=
     translation_cache_ptr h; csrs_base := csrs_base h; hart_magic := hart_magic h;
     idelegation := v; ienable := ienable h; ipending := ipending h; status := status h;
     privilege_level := privilege_level h; itlb := itlb h; dtlb := dtlb h; itlb_cap :=
     itlb_cap h; dtlb_cap := dtlb_cap h; tsc := tsc h |}.
Definition set_ienable v (h : hart) : hart :=
  {| registers := registers h; pc := pc h; hart_id := hart_id h;
     nr_translated_instructions := nr_translated_instructions h; pc_mappings :=
     pc_mappings h; translation_cache := translation_cache h; translation_cache_ptr :=
     translation_cache_ptr h; csrs_base := csrs_base h; hart_magic := hart_magic h;
     idelegation := idelegation h; ienable := v; ipending := ipending h; status := status
     h; privilege_level := privilege_level h; itlb := itlb h; dtlb := dtlb h; itlb_cap :=
     itlb_cap h; dtlb_cap := dtlb_cap h; tsc := tsc h |}.
Definition set_ipending v (h : hart) : hart :=
  {| registers := registers h; pc := pc h; hart_id := hart_id h;
     nr_translated_instructions := nr_translated_instructions h; pc_mappings :=
     pc_mappings h; translation_cache := translation_cache h; translation_cache_ptr :=
     translation_cache_ptr h; csrs_base := csrs_base h; hart_magic := hart_magic h;
     idelegation := idelegation h; ienable := ienable h; ipending := v; status := status
     h; privilege_level := privilege_level h; itlb := itlb h; dtlb := dtlb h; itlb_cap :=
     itlb_cap h; dtlb_cap := dtlb_cap h; tsc := tsc h |}.
Definition set_status v (h : hart) : hart :=
  {| registers := registers h; pc := pc h; hart_id := hart_id h;
     nr_translated_instructions := nr_translated_instructions h; pc_mappings :=
     pc_mappings h; translation_cache := translation_cache h; translation_cache_ptr :=
     translation_cache_ptr h; csrs_base := csrs_base h; hart_magic := hart_magic h;
     idelegation := idelegation h; ienable := ienable h; ipending := ipending h; status :=
     v; privilege_level := privilege_level h; itlb := itlb h; dtlb := dtlb h; itlb_cap :=
     itlb_cap h; dtlb_cap := dtlb_cap h; tsc := tsc h |}.
Definition set_privilege_level v (h : hart) : hart :=
  {| registers := registers h; pc := pc h; hart_id := hart_id h;
     nr_translated_instructions := nr_translated_instructions h; pc_mappings :=
     pc_mappings h; translation_cache := translation_cache h; translation_cache_ptr :=
     translation_cache_ptr h; csrs_base := csrs_base h; hart_magic := hart_magic h;
     idelegation := idelegation h; ienable := ienable h; ipending := ipending h; status :=
     status h; privilege_level := v; itlb := itlb h; dtlb := dtlb h; itlb_cap := itlb_cap
     h; dtlb_cap := dtlb_cap h; tsc := tsc h |}.
Definition set_itlb v (h : hart) : hart :=
  {| registers := registers h; pc := pc h; hart_id := hart_id h;
     nr_translated_instructions := nr_translated_instructions h; pc_mappings :=
     pc_mappings h; translation_cache := translation_cache h; translation_cache_ptr :=
     translation_cache_ptr h; csrs_base := csrs_base h; hart_magic := hart_magic h;
     idelegation := idelegation h; ienable := ienable h; ipending := ipending h; status :=
     status h; privilege_level := privilege_level h; itlb := v; dtlb := dtlb h; itlb_cap
     := itlb_cap h; dtlb_cap := dtlb_cap h; tsc := tsc h |}.
Definition set_dtlb v (h : hart) : hart :=
  {| registers := registers h; pc := pc h; hart_id := hart_id h;
     nr_translated_instructions := nr_translated_instructions h; pc_mappings :=
     pc_mappings h; translation_cache := translation_cache h; translation_cache_ptr :=
     translation_cache_ptr h; csrs_base := csrs_base h; hart_magic := hart_magic h;
     idelegation := idelegation h; ienable := ienable h; ipending := ipending h; status :=
     status h; privilege_level := privilege_level h; itlb := itlb h; dtlb := v; itlb_cap
     := itlb_cap h; dtlb_cap := dtlb_cap h; tsc := tsc h |}.
Definition set_itlb_cap v (h : hart) : hart :=
  {| registers := registers h; pc := pc h; hart_id := hart_id h;
     nr_translated_instructions := nr_translated_instructions h; pc_mappings :=
     pc_mappings h; translation_cache := translation_cache h; translation_cache_ptr :=
     translation_cache_ptr h; csrs_base := csrs_base h; hart_magic := hart_magic h;
     idelegation := idelegation h; ienable := ienable h; ipending := ipending h; status :=
     status h; privilege_level := privilege_level h; itlb := itlb h; dtlb := dtlb h;
     itlb_cap := v; dtlb_cap := dtlb_cap h; tsc := tsc h |}.
Definition set_dtlb_cap v (h : hart) : hart :=
  {| registers := registers h; pc := pc h; hart_id := hart_id h;
     nr_translated_instructions := nr_translated_instructions h; pc_mappings :=
     pc_mappings h; translation_cache := translation_cache h; translation_cache_ptr :=
     translation_cache_ptr h; csrs_base := csrs_base h; hart_magic := hart_magic h;
     idelegation := idelegation h; ienable := ienable h; ipending := ipending h; status :=
     status h; privilege_level := privilege_level h; itlb := itlb h; dtlb := dtlb h;
     itlb_cap := itlb_cap h; dtlb_cap := v; tsc := tsc h |}.
Definition set_tsc v (h : hart) : hart :=
  {| registers := registers h; pc := pc h; hart_id := hart_id h;
     nr_translated_instructions := nr_translated_instructions h; pc_mappings :=
     pc_mappings h; translation_cache := translation_cache h; translation_cache_ptr :=
     translation_cache_ptr h; csrs_base := csrs_base h; hart_magic := hart_magic h;
     idelegation := idelegation h; ienable := ienable h; ipending := ipending h; status :=
     status h; privilege_level := privilege_level h; itlb := itlb h; dtlb := dtlb h;
     itlb_cap := itlb_cap h; dtlb_cap := dtlb_cap h; tsc := v |}.

(** src/vmm/hart.h:98-99 HART_REG *)
Definition HART_REG (h : hart) (i : Z) : Z := default 0 (registers h !! Z.to_nat i).
Definition set_HART_REG (i v : Z) (h : hart) : hart :=
  set_registers (<[Z.to_nat i := v]> (registers h)) h.

Definition csr_at (h : hart) (a : Z) : csr_entry := default csr_entry0 (csrs_base h !! a).
Definition set_csr_blob (v : Z) (e : csr_entry) : csr_entry :=
  {| is_valid := is_valid e; csr_addr := csr_addr e; csr_blob := v;
     wpri_mask := wpri_mask e; write := write e; read := read e |}.
Definition put_csr_blob (a v : Z) (h : hart) : hart :=
  set_csrs_base (<[a := set_csr_blob v (csr_at h a)]> (csrs_base h)) h.

Definition PRIVILEGE_LEVEL_USER : Z := 0.
Definition PRIVILEGE_LEVEL_SUPERVISOR : Z := 1.
Definition PRIVILEGE_LEVEL_MACHINE : Z := 3.

(** The guest state behind [r15] and [r14]. *)
#[export] Instance hart_bank : GuestBank hart := {
  rd_reg i h := HART_REG h i;
  wr_reg i v h := set_HART_REG i v h;
  rd_pc := pc;
  wr_pc := set_pc;
  bank_wf h := length (registers h) = 32%nat /\ Forall (is_uint 32) (registers h) /\ is_uint 32 (pc h)
}.

#[export] Instance hart_bank_laws : GuestBankLaws hart.
Proof.
  assert (Hlook : forall (h : hart) i, length (registers h) = 32%nat -> 0 <= i < 32 ->
    exists v, registers h !! Z.to_nat i = Some v /\ HART_REG h i = v).
  { intros h i Hl Hi. destruct (lookup_lt_is_Some_2 (registers h) (Z.to_nat i)) as [v Hv]; [lia|].
    exists v. split; [done|]. unfold HART_REG. by rewrite Hv. }
  split; cbn [rd_reg wr_reg rd_pc wr_pc bank_wf hart_bank].
  - intros h i (Hl & HF & _) Hi. destruct (Hlook h i Hl Hi) as (v & Hv & ->).
    by eapply Forall_lookup_1.
  - intros h (_ & _ & Hp). done.
  - intros h i v (Hl & _) Hi. unfold HART_REG, set_HART_REG, set_registers; cbn [registers].
    rewrite list_lookup_insert_eq by lia. done.
  - intros h i j v Hne Hi Hj. unfold HART_REG, set_HART_REG, set_registers; cbn [registers].
    by rewrite list_lookup_insert_ne by lia.
  - done.
  - done.
  - done.
  - intros h i u v. unfold set_HART_REG, set_registers; cbn. by rewrite list_insert_insert_eq.
  - intros h i (Hl & _) Hi. destruct (Hlook h i Hl Hi) as (v & Hv & ->).
    unfold set_HART_REG, set_registers. rewrite list_insert_id by done. by destruct h.
  - intros h i v (Hl & HF & Hp) Hi Hv. unfold set_HART_REG, set_registers; cbn [registers pc].
    rewrite length_insert. split; [done|]. split; [by apply Forall_insert|done].
  - intros h v (Hl & HF & Hp) Hv. done.
  - intros h i j u v Hne Hi Hj. unfold set_HART_REG, set_registers; cbn.
    rewrite list_insert_insert_ne by lia. done.
  - done.
Qed.

(** ** The translation cache *)

(** src/vmm/hart.h:101-110 prefetch_blob *)
Record prefetch_blob := {
  next_instruction_to_fetch : Z;
  is_to_stop : bool;
  is_flushable : bool
}.

Definition set_next v (b : prefetch_blob) :=
  {| next_instruction_to_fetch := v; is_to_stop := is_to_stop b; is_flushable := is_flushable b |}.
Definition set_is_to_stop v (b : prefetch_blob) :=
  {| next_instruction_to_fetch := next_instruction_to_fetch b; is_to_stop := v;
     is_flushable := is_flushable b |}.
Definition set_is_flushable v (b : prefetch_blob) :=
  {| next_instruction_to_fetch := next_instruction_to_fetch b; is_to_stop := is_to_stop b;
     is_flushable := v |}.

(** src/vmm/hart.c:103-107 comparing_mapping_item *)
Definition comparing_mapping_item (pa pb : program_counter_mapping_item) : option Z :=
  Some (s32 (guest_pc pa - guest_pc pb)).

Section Cache.
Context `{Assembler}.

Definition chunk_size (c : chunk) : Z :=
  match c with Block t _ => translation_size (t_indicator t) | Jumper => jumper_size end.

(** src/vmm/hart.h:112-128 unoccupied_cache_size *)
Definition unoccupied_cache_size (h : hart) : Z :=
  if nr_translated_instructions h <? MAX_INSTRUCTIONS_TOTRANSLATE
  then TRANSLATION_CACHE_SIZE - translation_cache_ptr h - jumper_size
  else 0.

(** src/vmm/hart.c:84-93 flush_translation_cache *)
Definition flush_translation_cache (h : hart) : hart :=
  set_translation_cache_ptr 0 (set_nr_translated_instructions 0 h).

(** [memcpy] of a chunk to an offset of the cache memory: what overlapped the
    bytes written is gone. *)
Definition overlaps (o1 n1 o2 n2 : Z) : bool := (o1 <? o2 + n2) && (o2 <? o1 + n1).
Definition write_chunk (off : Z) (c : chunk) (m : gmap Z chunk) : gmap Z chunk :=
  <[off := c]> (filter (fun kv => overlaps off (chunk_size c) kv.1 (chunk_size kv.2) = false) m).

(** src/vmm/hart.c:109-147 add_translation_item *)
Definition add_translation_item (h : hart) (guest_instruction_address : Z) (c : chunk)
    (instruction_block_length : Z) : option (Z * hart) :=
  if unoccupied_cache_size h <? instruction_block_length then Some (-1, h) else
  if negb (nr_translated_instructions h <? MAX_INSTRUCTIONS_TOTRANSLATE) then Some (-2, h) else
  let tc_off := translation_cache_ptr h in
  let h := set_translation_cache (write_chunk tc_off c (translation_cache h)) h in
  let h := set_translation_cache_ptr (tc_off + instruction_block_length) h in
  let n := Z.to_nat (nr_translated_instructions h) in
  let mappings :=
    take n (pc_mappings h) ++ [{| guest_pc := guest_instruction_address; tc_offset := tc_off |}]
    ++ drop (S n) (pc_mappings h) in
  let h := set_nr_translated_instructions (nr_translated_instructions h + 1) h in
  mappings ← INSERTION_SORT comparing_mapping_item mappings (nr_translated_instructions h);
  Some (0, set_pc_mappings mappings h).

(** src/vmm/hart.c:149-167 search_translation_item *)
Definition search_translation_item (h : hart) (guest_instruction_address : Z) :
    option (option program_counter_mapping_item) :=
  let key := {| guest_pc := guest_instruction_address; tc_offset := 0 |} in
  rc ← SEARCH comparing_mapping_item (pc_mappings h) (nr_translated_instructions h) key;
  match rc with
  | None => Some None
  | Some i => it ← pc_mappings h !! Z.to_nat i; Some (Some it)
  end.

(** src/vmm/translation.h:236-247 PRECHECK_TRANSLATION_CACHE
    The result says whether the translator goes on or returns. *)
Definition PRECHECK_TRANSLATION_CACHE (i : indicator) (b : prefetch_blob) (h : hart) :
    bool * prefetch_blob * hart :=
  if unoccupied_cache_size h <? translation_size i then
    if is_flushable b then (true, set_is_flushable false b, flush_translation_cache h)
    else (false, set_is_to_stop true b, h)
  else (true, set_is_flushable false b, h).

(** The parameter slots of a template as assembled ([.int 0xcccccccc]). *)
Definition unpatched (t : template) : chunk := Block t (replicate (t_nparams t) 0xcccccccc).

Definition patch (params : list Z) (c : chunk) : chunk :=
  match c with Block t _ => Block t params | Jumper => Jumper end.

(** src/vmm/translation.h:101-129 COMMIT_TRANSLATION *)
Definition COMMIT_TRANSLATION (t : template) (params : list Z) (h : hart)
    (instruction_linear_addr : Z) : option hart :=
  '(rc, h) ← add_translation_item h instruction_linear_addr (unpatched t)
               (translation_size (t_indicator t));
  if negb (rc =? 0) then None else
  item ← search_translation_item h instruction_linear_addr;
  match item with
  | None => None
  | Some it =>
      if negb (guest_pc it =? instruction_linear_addr) then None else
      Some (set_translation_cache (alter (patch (map u32 params)) (tc_offset it) (translation_cache h)) h)
  end.

(** The common frame of the translators: [PRECHECK], the template, [COMMIT],
    then the update of the blob. *)
Definition translate (t : template) (params : list Z)
    (epilogue : prefetch_blob -> prefetch_blob) (b : prefetch_blob) (h : hart) :
    option (prefetch_blob * hart) :=
  let instruction_linear_address := next_instruction_to_fetch b in
  let '(go, b, h) := PRECHECK_TRANSLATION_CACHE (t_indicator t) b h in
  if go then
    h ← COMMIT_TRANSLATION t params h instruction_linear_address;
    Some (epilogue b, h)
  else Some (b, h).

(** [blob->next_instruction_to_fetch += 4] and [blob->is_to_stop = 1]. *)
Definition advance (b : prefetch_blob) : prefetch_blob :=
  set_next (u32 (next_instruction_to_fetch b + 4)) b.
Definition stop (b : prefetch_blob) : prefetch_blob := set_is_to_stop true b.
End Cache.

Definition translator : Type := prefetch_blob -> hart -> option (prefetch_blob * hart).

(** ** The order of the mapping array *)

(** [pc] lies in the half of the address space that starts at [base]. *)
Definition in_window (base pc : Z) : Prop := u32 (pc - base) < 2 ^ 31.

Definition window_key (base : Z) (it : program_counter_mapping_item) : Z := u32 (guest_pc it - base).

Lemma sub_in_window base a b :
  in_window base a -> in_window base b -> s32 (a - b) = u32 (a - base) - u32 (b - base).
Proof.
  unfold in_window. intros Ha Hb. rewrite <- s32_u32.
  replace (u32 (a - b)) with (u32 (u32 (a - base) - u32 (b - base))).
  - rewrite s32_u32. apply s32_id. pose proof (u32_range (a - base)). pose proof (u32_range (b - base)).
    unfold is_uint in *. lia.
  - rewrite u32_sub_l, u32_sub_r. f_equal. lia.
Qed.

Lemma comparing_agrees base :
  agrees comparing_mapping_item (window_key base) (fun it => in_window base (guest_pc it)).
Proof.
  intros x y Hx Hy. eexists. split; [reflexivity|]. unfold window_key.
  rewrite (sub_in_window base) by done.
  generalize (u32 (guest_pc x - base)) (u32 (guest_pc y - base)). intros a b.
  destruct (Z.compare_spec (a - b) 0), (Z.compare_spec a b); done || lia.
Qed.

Lemma window_key_inj base a b :
  is_uint 32 a -> is_uint 32 b -> u32 (a - base) = u32 (b - base) -> a = b.
Proof. unfold is_uint, u32. change (2 ^ 32) with 4294967296. intros. dlia. Qed.

Section Cache_facts.
Context `{AssemblerOk}.

Definition live (h : hart) : list program_counter_mapping_item :=
  take (Z.to_nat (nr_translated_instructions h)) (pc_mappings h).

Definition block_at (h : hart) (off : Z) (t : template) (ps : list Z) : Prop :=
  translation_cache h !! off = Some (Block t ps).

(** The block of a mapping lies in the used part of the cache. *)
Definition placed (h : hart) (it : program_counter_mapping_item) : Prop :=
  exists t ps, block_at h (tc_offset it) t ps /\
    0 <= tc_offset it /\ tc_offset it + translation_size (t_indicator t) <= translation_cache_ptr h.

Record cache_wf (base : Z) (h : hart) : Prop := {
  wf_nr : 0 <= nr_translated_instructions h <= MAX_INSTRUCTIONS_TOTRANSLATE;
  wf_len : nr_translated_instructions h <= Z.of_nat (length (pc_mappings h));
  wf_ptr : 0 <= translation_cache_ptr h <= TRANSLATION_CACHE_SIZE;
  wf_uint : Forall (fun it => is_uint 32 (guest_pc it)) (live h);
  wf_window : Forall (fun it => in_window base (guest_pc it)) (live h);
  wf_sorted : StronglySorted (key_le (window_key base)) (live h);
  wf_nodup_pc : NoDup (guest_pc <$> live h);
  wf_nodup_off : NoDup (tc_offset <$> live h);
  wf_placed : Forall (placed h) (live h)
}.

Definition translated (h : hart) (a : Z) : Prop := a ∈ (guest_pc <$> live h).

Lemma flush_cache_wf base h : cache_wf base h -> cache_wf base (flush_translation_cache h).
Proof.
  intros [? ? ? ? ? ? ? ? ?]. unfold flush_translation_cache.
  split; unfold live; cbn -[TRANSLATION_CACHE_SIZE MAX_INSTRUCTIONS_TOTRANSLATE]; try constructor;
    unfold TRANSLATION_CACHE_SIZE, MAX_INSTRUCTIONS_TOTRANSLATE in *; lia.
Qed.

Lemma search_translation_item_spec base h a :
  cache_wf base h -> is_uint 32 a -> in_window base a ->
  exists o, search_translation_item h a = Some o /\
    match o with
    | Some it => it ∈ live h /\ guest_pc it = a
    | None => ~ translated h a
    end.
Proof.
  intros HW Ha Hwin. unfold search_translation_item.
  destruct (SEARCH_keyed comparing_mapping_item (window_key base) _ (pc_mappings h)
    (nr_translated_instructions h) {| guest_pc := a; tc_offset := 0 |} (comparing_agrees base))
    as (r & -> & Hr).
  - done.
  - apply (wf_window _ _ HW).
  - split; [apply (wf_nr _ _ HW)|apply (wf_len _ _ HW)].
  - apply (wf_sorted _ _ HW).
  - cbn [mbind option_bind]. destruct r as [i|].
    + destruct Hr as (Hi & it & Hit & Hk). rewrite Hit. cbn [mbind option_bind].
      exists (Some it). split; [done|].
      assert (Hin : it ∈ live h).
      { apply list_elem_of_lookup. exists (Z.to_nat i). unfold live.
        by rewrite lookup_take_lt by lia. }
      split; [done|]. pose proof (wf_uint _ _ HW) as HU. rewrite Forall_forall in HU.
      eapply window_key_inj; [by apply HU|done|exact Hk].
    + exists None. split; [done|]. intros (it & -> & Hin)%list_elem_of_fmap.
      rewrite Forall_forall in Hr. by apply (Hr it Hin).
Qed.

Lemma live_unique base h it1 it2 :
  cache_wf base h -> it1 ∈ live h -> it2 ∈ live h -> guest_pc it1 = guest_pc it2 -> it1 = it2.
Proof.
  intros HW [i Hi]%list_elem_of_lookup [j Hj]%list_elem_of_lookup E.
  assert (i = j) as ->; [|congruence].
  eapply (NoDup_lookup (guest_pc <$> live h)); [apply (wf_nodup_pc _ _ HW)| |].
  - rewrite list_lookup_fmap, Hi. reflexivity.
  - rewrite list_lookup_fmap, Hj. cbn. by rewrite E.
Qed.

Lemma search_translated base h it :
  cache_wf base h -> it ∈ live h -> search_translation_item h (guest_pc it) = Some (Some it).
Proof.
  intros HW Hin.
  pose proof (wf_uint _ _ HW) as HU. pose proof (wf_window _ _ HW) as HV.
  rewrite Forall_forall in HU, HV.
  destruct (search_translation_item_spec base h (guest_pc it) HW (HU _ Hin) (HV _ Hin))
    as (o & -> & Ho).
  destruct o as [it'|].
  - destruct Ho as [Hin' E]. do 2 f_equal. by eapply live_unique.
  - exfalso. apply Ho. unfold translated. apply list_elem_of_fmap. eauto.
Qed.

(** *** Writing a chunk *)

Lemma write_chunk_same off c m : write_chunk off c m !! off = Some c.
Proof. apply lookup_insert_eq. Qed.

Lemma write_chunk_apart off c m off' c' :
  m !! off' = Some c' -> 0 < chunk_size c' -> 0 < chunk_size c ->
  off' + chunk_size c' <= off \/ off + chunk_size c <= off' ->
  write_chunk off c m !! off' = Some c'.
Proof.
  intros Hm Hpos Hpos' Hd. unfold write_chunk.
  rewrite lookup_insert_ne by lia. apply map_lookup_filter_Some. split; [done|].
  cbn. unfold overlaps. destruct (Z.ltb_spec off (off' + chunk_size c')); [|done].
  destruct (Z.ltb_spec off' (off + chunk_size c)); [lia|done].
Qed.

Lemma chunk_size_pos c : 0 < chunk_size c.
Proof. destruct c; [apply translation_size_pos|apply jumper_size_pos]. Qed.

(** The two harts differ at most in the translation cache. *)
Definition same_guest (h h' : hart) : Prop :=
  h' = set_translation_cache (translation_cache h')
         (set_translation_cache_ptr (translation_cache_ptr h')
           (set_nr_translated_instructions (nr_translated_instructions h')
             (set_pc_mappings (pc_mappings h') h))).

Lemma same_guest_refl h : same_guest h h.
Proof. by destruct h. Qed.
Lemma same_guest_trans h1 h2 h3 : same_guest h1 h2 -> same_guest h2 h3 -> same_guest h1 h3.
Proof. unfold same_guest. intros -> ->. done. Qed.
Lemma flush_same_guest h : same_guest h (flush_translation_cache h).
Proof. by destruct h. Qed.

(** The block of [it] is still in place. *)
Definition kept (h h' : hart) (it : program_counter_mapping_item) : Prop :=
  forall t ps, block_at h (tc_offset it) t ps -> block_at h' (tc_offset it) t ps.

Record added (base : Z) (h : hart) (a : Z) (t : template) (ps : list Z) (h' : hart) : Prop := {
  added_wf : cache_wf base h';
  added_live : live h' ≡ₚ {| guest_pc := a; tc_offset := translation_cache_ptr h |} :: live h;
  added_block : block_at h' (translation_cache_ptr h) t ps;
  added_kept : Forall (kept h h') (live h);
  added_ptr : translation_cache_ptr h' =
    translation_cache_ptr h + translation_size (t_indicator t);
  added_same : same_guest h h';
  added_below off c : translation_cache h !! off = Some c ->
    off + chunk_size c <= translation_cache_ptr h -> translation_cache h' !! off = Some c;
  added_room : translation_cache_ptr h' + jumper_size <= TRANSLATION_CACHE_SIZE
}.

(** The invariant of a cache with one more block at its end. *)
Lemma grown_wf base h a t ps h' :
  cache_wf base h -> is_uint 32 a -> in_window base a -> ~ translated h a ->
  live h' ≡ₚ {| guest_pc := a; tc_offset := translation_cache_ptr h |} :: live h ->
  StronglySorted (key_le (window_key base)) (live h') ->
  block_at h' (translation_cache_ptr h) t ps -> Forall (kept h h') (live h) ->
  translation_cache_ptr h' = translation_cache_ptr h + translation_size (t_indicator t) ->
  nr_translated_instructions h' <= Z.of_nat (length (pc_mappings h')) ->
  0 <= nr_translated_instructions h' <= MAX_INSTRUCTIONS_TOTRANSLATE ->
  translation_cache_ptr h' <= TRANSLATION_CACHE_SIZE ->
  cache_wf base h'.
Proof.
  intros [_ _ Hptr HU HV _ HNpc HNoff HPl] Ha Hwin Hnew Hperm HS' Hblock Hkept Eptr Hlen' Hnr' Hroom.
  pose proof (translation_size_pos (t_indicator t)) as Hpos.
  split; [done|done|lia| | |done| | |]; rewrite Hperm.
  - by constructor.
  - by constructor.
  - by constructor.
  - constructor; [|done]. intros (it & E & Hit)%list_elem_of_fmap.
    rewrite Forall_forall in HPl. destruct (HPl it Hit) as (t1 & ps1 & _ & _ & Hhi).
    pose proof (translation_size_pos (t_indicator t1)). cbn in E. lia.
  - constructor; [exists t, ps; cbn; split; [done|lia]|].
    rewrite Forall_forall in HPl, Hkept |- *. intros it Hit.
    destruct (HPl it Hit) as (t1 & ps1 & Hb1 & Hlo & Hhi).
    exists t1, ps1. split; [by apply Hkept|]. lia.
Qed.

Lemma add_translation_item_spec base h a t ps :
  cache_wf base h -> is_uint 32 a -> in_window base a -> ~ translated h a ->
  translation_size (t_indicator t) <= unoccupied_cache_size h ->
  exists h', add_translation_item h a (Block t ps) (translation_size (t_indicator t)) = Some (0, h') /\
    added base h a t ps h'.
Proof.
  intros HW Ha Hwin Hnew Hroom. pose proof (translation_size_pos (t_indicator t)) as Hpos.
  pose proof jumper_size_pos as Hj.
  unfold unoccupied_cache_size in Hroom. unfold add_translation_item, unoccupied_cache_size.
  destruct (Z.ltb_spec (nr_translated_instructions h) MAX_INSTRUCTIONS_TOTRANSLATE) as [Hnr|];
    [|lia].
  destruct (Z.ltb_spec (TRANSLATION_CACHE_SIZE - translation_cache_ptr h - jumper_size)
    (translation_size (t_indicator t))); [lia|]. cbn [negb].
  pose proof HW as [Hnr0 Hlen Hptr HU HV HS HNpc HNoff HPl].
  set (n := Z.to_nat (nr_translated_instructions h)).
  set (it0 := {| guest_pc := a; tc_offset := translation_cache_ptr h |}).
  cbn [nr_translated_instructions set_nr_translated_instructions set_translation_cache_ptr
       set_translation_cache pc_mappings].
  fold n. fold it0.
  assert (Hn : Z.of_nat n = nr_translated_instructions h) by (subst n; lia).
  assert (Hlive : length (take n (pc_mappings h)) = n) by (rewrite length_take; lia).
  destruct (INSERTION_SORT_keyed comparing_mapping_item (window_key base) _
    (comparing_agrees base) (take n (pc_mappings h)) it0 (drop (S n) (pc_mappings h)))
    as (a1 & a2 & Ea & Esort & HS'); [done|done|done|].
  rewrite Hlive in Esort. replace (Z.of_nat n + 1) with (nr_translated_instructions h + 1)
    in Esort by lia.
  cbn [app] in Esort |- *. rewrite Esort. cbn [mbind option_bind].
  eexists. split; [reflexivity|].
  match goal with |- added _ _ _ _ _ ?x => set (h' := x) end.
  assert (Hlive' : live h' = a1 ++ it0 :: a2).
  { unfold live. cbn -[Z.to_nat]. change (a1 ++ it0 :: a2 ++ drop (S n) (pc_mappings h)) with
      (a1 ++ (it0 :: a2) ++ drop (S n) (pc_mappings h)). rewrite app_assoc.
    apply take_app_length'. apply (f_equal length) in Ea.
    rewrite Hlive in Ea. rewrite length_app in *. cbn [length]. lia. }
  assert (Hperm : live h' ≡ₚ it0 :: live h).
  { rewrite Hlive'. unfold live. fold n. rewrite Ea. symmetry. apply Permutation_middle. }
  assert (Hkept : Forall (kept h h') (live h)).
  { rewrite Forall_forall in HPl |- *. intros it Hit t' ps' Hb.
    destruct (HPl it Hit) as (t1 & ps1 & Hb1 & Hlo & Hhi). unfold block_at in *.
    simplify_eq. cbn. apply write_chunk_apart; cbn; [done|apply translation_size_pos|done|].
    left. congruence || (rewrite Hb in Hb1; simplify_eq; lia). }
  assert (Hblock : block_at h' (translation_cache_ptr h) t ps) by (unfold block_at; cbn; apply write_chunk_same).
  split; [|done|done|done|done|by destruct h| |cbn; lia].
  2: { intros off c Hc Hle. cbn. apply write_chunk_apart; [done|apply chunk_size_pos|done|by left]. }
  apply (grown_wf base h a t ps h' HW Ha Hwin Hnew Hperm); [by rewrite Hlive'|done|done|done| |cbn; lia|cbn; lia].
  cbn. rewrite length_app. cbn [length]. rewrite length_app, length_drop.
  apply (f_equal length) in Ea. rewrite length_app in Ea. lia.
Qed.

(** Patching the parameters of one block changes no other. *)
Lemma patch_wf base h it f :
  (forall t ps, exists ps', f (Block t ps) = Block t ps') -> cache_wf base h -> it ∈ live h ->
  cache_wf base (set_translation_cache (alter f (tc_offset it) (translation_cache h)) h).
Proof.
  intros Hf [? ? ? ? ? ? ? ? HPl] Hin. split; try done.
  change (live (set_translation_cache _ h)) with (live h).
  rewrite Forall_forall in HPl |- *. intros it' Hin'.
  destruct (HPl it' Hin') as (t & ps & Hb & Hr).
  unfold placed, block_at in *. cbn.
  destruct (decide (tc_offset it = tc_offset it')) as [E|E].
  - destruct (Hf t ps) as (ps' & E'). exists t, ps'. rewrite E, lookup_alter_eq, Hb. cbn.
    rewrite E'. done.
  - exists t, ps. by rewrite lookup_alter_ne.
Qed.

Lemma COMMIT_TRANSLATION_spec base h a t ps :
  cache_wf base h -> is_uint 32 a -> in_window base a -> ~ translated h a ->
  translation_size (t_indicator t) <= unoccupied_cache_size h ->
  exists h', COMMIT_TRANSLATION t ps h a = Some h' /\ added base h a t (map u32 ps) h'.
Proof.
  intros HW Ha Hwin Hnew Hroom. unfold COMMIT_TRANSLATION.
  destruct (add_translation_item_spec base h a t (replicate (t_nparams t) 0xcccccccc))
    as (h1 & E & HA); [done..|].
  unfold unpatched. rewrite E. cbn [mbind option_bind]. change (0 =? 0) with true. cbn [negb].
  destruct HA as [HW1 Hlive Hblk Hkept Hptr Hsame Hbelow Hroom1].
  set (it0 := {| guest_pc := a; tc_offset := translation_cache_ptr h |}) in *.
  assert (Hin : it0 ∈ live h1) by (rewrite Hlive; by left).
  pose proof (search_translated base h1 it0 HW1 Hin) as Hs. cbn [guest_pc it0] in Hs.
  rewrite Hs. cbn [mbind option_bind guest_pc it0]. rewrite Z.eqb_refl. cbn [negb].
  eexists. split; [reflexivity|]. split.
  - apply (patch_wf base h1 it0); [|done|done]. intros. eexists. reflexivity.
  - exact Hlive.
  - unfold block_at in *. cbn. rewrite lookup_alter_eq, Hblk. done.
  - rewrite Forall_forall in Hkept |- *. intros it Hit t' ps' Hb. unfold block_at. cbn.
    rewrite lookup_alter_ne; [by apply Hkept|]. intros E'.
    pose proof (wf_nodup_off _ _ HW1) as HN. rewrite Hlive in HN. apply NoDup_cons in HN as [HN _].
    apply HN. cbn. rewrite E'. by apply list_elem_of_fmap_2.
  - exact Hptr.
  - unfold same_guest in *. rewrite Hsame at 2. reflexivity.
  - intros off c Hc Hle. cbn. rewrite lookup_alter_ne; [by apply Hbelow|].
    pose proof (chunk_size_pos c). cbn. lia.
  - exact Hroom1.
Qed.

Lemma unoccupied_after_flush i h :
  translation_size i <= unoccupied_cache_size (flush_translation_cache h).
Proof.
  pose proof (translation_size_fits i). unfold unoccupied_cache_size. cbn. lia.
Qed.

(** What a translator has done: it added the block for the address, to the
    cache as it was or to a flushed one, or it found no room and stopped. *)
Inductive translate_result (base : Z) (t : template) (ps : list Z)
    (epilogue : prefetch_blob -> prefetch_blob) (b : prefetch_blob) (h : hart) :
    prefetch_blob -> hart -> Prop :=
  | translated_into h0 h' :
      h0 = h \/ (h0 = flush_translation_cache h /\ is_flushable b = true /\
                 unoccupied_cache_size h < translation_size (t_indicator t)) ->
      added base h0 (next_instruction_to_fetch b) t (map u32 ps) h' ->
      translate_result base t ps epilogue b h (epilogue (set_is_flushable false b)) h'
  | translate_full :
      is_flushable b = false -> unoccupied_cache_size h < translation_size (t_indicator t) ->
      translate_result base t ps epilogue b h (set_is_to_stop true b) h.

Lemma translate_spec base t ps epilogue b h :
  cache_wf base h -> is_uint 32 (next_instruction_to_fetch b) ->
  in_window base (next_instruction_to_fetch b) -> ~ translated h (next_instruction_to_fetch b) ->
  exists b' h', translate t ps epilogue b h = Some (b', h') /\
    translate_result base t ps epilogue b h b' h'.
Proof.
  intros HW Ha Hwin Hnew. unfold translate, PRECHECK_TRANSLATION_CACHE.
  destruct (Z.ltb_spec (unoccupied_cache_size h) (translation_size (t_indicator t))) as [Hfull|Hroom].
  - destruct (is_flushable b) eqn:Hfl.
    + destruct (COMMIT_TRANSLATION_spec base (flush_translation_cache h)
        (next_instruction_to_fetch b) t ps) as (h' & E & HA); try done.
      { by apply flush_cache_wf. }
      { intros (? & _ & Hin)%list_elem_of_fmap. unfold live in Hin. cbn in Hin.
        by apply elem_of_nil in Hin. }
      { apply unoccupied_after_flush. }
      rewrite E. cbn [mbind option_bind]. do 2 eexists. split; [reflexivity|].
      eapply translated_into; [|exact HA]. by right.
    + do 2 eexists. split; [reflexivity|]. by constructor.
  - destruct (COMMIT_TRANSLATION_spec base h (next_instruction_to_fetch b) t ps)
      as (h' & E & HA); [done..|lia|].
    rewrite E. cbn [mbind option_bind]. do 2 eexists. split; [reflexivity|].
    eapply translated_into; [|exact HA]. by left.
Qed.
End Cache_facts.

(** ** A concrete hart

    Sizes and a freshly reset hart for the evaluations: every template 64 bytes,
    the jumper 32. *)

Module Concrete.
#[export] Instance sizes : Assembler := {| translation_size _ := 64; jumper_size := 32 |}.
#[export] Instance sizes_ok : AssemblerOk.
Proof. split; try intros []; vm_compute; congruence. Qed.

Definition empty_hart (at_pc : Z) : hart :=
  {| registers := replicate 32 0; pc := at_pc; hart_id := 0; nr_translated_instructions := 0;
     pc_mappings := []; translation_cache := ∅; translation_cache_ptr := 0; csrs_base := ∅;
     hart_magic := 0xdeadbeef; idelegation := 0; ienable := 0; ipending := 0;
     status := {| uie := false; sie := false; mie := false; upie := false; spie := false;
                  mpie := false; spp := false; mpp := 0 |};
     privilege_level := PRIVILEGE_LEVEL_MACHINE; itlb := ∅; dtlb := ∅;
     itlb_cap := 0x4000; dtlb_cap := 0x4000; tsc := 0 |}.

Definition fetch_at (a : Z) : prefetch_blob :=
  {| next_instruction_to_fetch := a; is_to_stop := false; is_flushable := true |}.

Lemma empty_cache_wf base a : cache_wf base (empty_hart a).
Proof.
  split; unfold live; cbn; try constructor;
    unfold MAX_INSTRUCTIONS_TOTRANSLATE, TRANSLATION_CACHE_SIZE; lia.
Qed.

Lemma empty_not_translated a b : ~ translated (empty_hart a) b.
Proof. intros H. by apply elem_of_nil in H. Qed.
End Concrete.

(** ** Properties *)

(** C26. Committing a translation. On a hart with a well-formed cache, an address
    not yet translated and a block that fits, [COMMIT_TRANSLATION] succeeds: the
    mapping array gains exactly that address, the patched block lies at the old end
    of the cache, every earlier block is untouched, nothing of the guest state
    changes, and the cache is well-formed again (array sorted, no address twice, no
    blocks overlapping). *)
Theorem commit_translation_correct `{AssemblerOk} base h a t ps :
  cache_wf base h -> is_uint 32 a -> in_window base a -> ~ translated h a ->
  translation_size (t_indicator t) <= unoccupied_cache_size h ->
  exists h', COMMIT_TRANSLATION t ps h a = Some h' /\ cache_wf base h' /\
    live h' ≡ₚ {| guest_pc := a; tc_offset := translation_cache_ptr h |} :: live h /\
    block_at h' (translation_cache_ptr h) t (map u32 ps) /\
    Forall (fun it => forall t' ps', block_at h (tc_offset it) t' ps' ->
      block_at h' (tc_offset it) t' ps') (live h) /\
    same_guest h h'.
Proof.
  intros HW Ha Hwin Hnew Hroom.
  destruct (COMMIT_TRANSLATION_spec base h a t ps HW Ha Hwin Hnew Hroom) as (h' & E & []).
  exists h'. repeat (split; [done|]). done.
Qed.

(** Finding a translation. On a well-formed cache the binary search of
    [search_translation_item] terminates and returns the mapping of exactly the
    address asked for when it is translated, NULL otherwise. *)
Theorem search_translation_item_correct `{AssemblerOk} base h a :
  cache_wf base h -> is_uint 32 a -> in_window base a ->
  exists o, search_translation_item h a = Some o /\
    forall it, o = Some it <-> it ∈ live h /\ guest_pc it = a.
Proof.
  intros HW Ha Hwin.
  destruct (search_translation_item_spec base h a HW Ha Hwin) as (o & -> & Ho).
  exists o. split; [done|]. intros it. split.
  - by intros ->.
  - intros [Hin E]. destruct o as [it'|].
    + f_equal. destruct Ho. eapply live_unique; [done..|]. congruence.
    + destruct Ho. rewrite <- E. by apply list_elem_of_fmap_2.
Qed.

(** C27. A translator never fails for lack of room: whatever the fill of the cache,
    [PRECHECK] and [COMMIT] together either add the block (to the cache or, at the
    first instruction of a prefetch, to a flushed one) or stop the prefetch and
    leave the hart unchanged. *)
Theorem translate_total `{AssemblerOk} base t ps epilogue b h :
  cache_wf base h -> is_uint 32 (next_instruction_to_fetch b) ->
  in_window base (next_instruction_to_fetch b) -> ~ translated h (next_instruction_to_fetch b) ->
  exists b' h', translate t ps epilogue b h = Some (b', h') /\ cache_wf base h' /\
    same_guest h h' /\
    ((b' = epilogue (set_is_flushable false b) /\ translated h' (next_instruction_to_fetch b)) \/
     (is_flushable b = false /\ b' = set_is_to_stop true b /\ h' = h)).
Proof.
  intros HW Ha Hwin Hnew.
  destruct (translate_spec base t ps epilogue b h HW Ha Hwin Hnew) as (b' & h' & E & Hr).
  exists b', h'. split; [done|]. destruct Hr as [h0 h' Hh0 HA|].
  - destruct HA as [HW' Hlive _ _ _ Hsame]. split; [done|]. split.
    + destruct Hh0 as [->|(-> & _)]; [done|].
      eapply same_guest_trans; [apply flush_same_guest|done].
    + left. split; [done|]. unfold translated. rewrite Hlive. by left.
  - split; [done|]. split; [apply same_guest_refl|]. by right.
Qed.

#[local] Existing Instance Concrete.sizes.

(** The limit of the comparator: it subtracts addresses as 32-bit integers, so
    the order it gives is not transitive across the whole address space. After code
    at 0, 0x20000000, 0x80000000 and 0x40000000 is committed in that order, the
    mapping array holds the address 0 but the search no longer finds it. *)
Theorem mapping_order_breaks t :
  exists h, (h ← COMMIT_TRANSLATION t [] (Concrete.empty_hart 0) 0x0;
             h ← COMMIT_TRANSLATION t [] h 0x20000000;
             h ← COMMIT_TRANSLATION t [] h 0x80000000;
             COMMIT_TRANSLATION t [] h 0x40000000) = Some h /\
    translated h 0x0 /\ search_translation_item h 0x0 = Some None.
Proof.
  eexists. split; [vm_compute; reflexivity|]. split; [|vm_compute; reflexivity].
  unfold translated. apply (bool_decide_unpack _). vm_compute. exact I.
Qed.

Module Witness.
Import Concrete.

Definition nothing : template := {| t_indicator := Ind.fence_instruction; t_code := []; t_nparams := 1 |}.

Lemma base_window : is_uint 32 0x80000000 /\ in_window 0x80000000 0x80000000.
Proof. split; [split|]; vm_compute; congruence. Qed.

Lemma commit_translation_correct_witness :
  let h := empty_hart 0x80000000 in
  exists h', COMMIT_TRANSLATION nothing [7] h 0x80000000 = Some h' /\ cache_wf 0x80000000 h' /\
  live h' ≡ₚ {| guest_pc := 0x80000000; tc_offset := 0 |} :: live h /\
  block_at h' 0 nothing [u32 7] /\
  Forall (fun it => forall t' ps', block_at h (tc_offset it) t' ps' ->
    block_at h' (tc_offset it) t' ps') (live h) /\
  same_guest h h'.
Proof.
  apply (commit_translation_correct 0x80000000 (empty_hart 0x80000000) 0x80000000 nothing [7]).
  - apply empty_cache_wf.
  - apply base_window.
  - apply base_window.
  - apply empty_not_translated.
  - vm_compute. congruence.
Defined.

Lemma search_translation_item_correct_witness :
  exists o, search_translation_item (empty_hart 0x80000000) 0x80000000 = Some o /\
  forall it, o = Some it <-> it ∈ live (empty_hart 0x80000000) /\ guest_pc it = 0x80000000.
Proof.
  apply (search_translation_item_correct 0x80000000 (empty_hart 0x80000000) 0x80000000).
  - apply empty_cache_wf.
  - apply base_window.
  - apply base_window.
Defined.

Lemma translate_total_witness :
  let h := empty_hart 0x80000000 in let b := fetch_at 0x80000000 in
  exists b' h', translate nothing [7] advance b h = Some (b', h') /\ cache_wf 0x80000000 h' /\
    same_guest h h' /\
    ((b' = advance (set_is_flushable false b) /\ translated h' 0x80000000) \/
     (true = false /\ b' = set_is_to_stop true b /\ h' = h)).
Proof.
  apply (translate_total 0x80000000 nothing [7] advance (fetch_at 0x80000000) (empty_hart 0x80000000)).
  - apply empty_cache_wf.
  - apply base_window.
  - apply base_window.
  - apply empty_not_translated.
Defined.
End Witness.
