(* ===== verification/Rv32.v ===== *)
(** * The RV32IM instructions as the ISA manual gives them

    The specification side: instruction formats as bit fields, a decoder into an
    abstract syntax, and the effect of the register-to-register, immediate and
    control-flow instructions on the guest registers and pc. Nothing here is
    taken from the emulator: the translators are proved against it.

    A write to x0 is dropped ([set_rd]); division by zero and overflow have the
    results the M extension defines. *)

From S2P Require Import Prelude X86.
Local Open Scope Z_scope.

(** Bits [hi:lo] of an instruction word. *)
Definition field (hi lo w : Z) : Z := (w / 2 ^ lo) mod 2 ^ (hi - lo + 1).

Definition f_opcode := field 6 0.
Definition f_rd := field 11 7.
Definition f_funct3 := field 14 12.
Definition f_rs1 := field 19 15.
Definition f_rs2 := field 24 20.
Definition f_funct7 := field 31 25.

Definition imm_I (w : Z) : Z := signed 12 (field 31 20 w).
Definition imm_S (w : Z) : Z := signed 12 (field 31 25 w * 2 ^ 5 + field 11 7 w).
Definition imm_B (w : Z) : Z :=
  signed 13 (field 31 31 w * 2 ^ 12 + field 7 7 w * 2 ^ 11 + field 30 25 w * 2 ^ 5
             + field 11 8 w * 2).
Definition imm_U (w : Z) : Z := field 31 12 w * 2 ^ 12.
Definition imm_J (w : Z) : Z :=
  signed 21 (field 31 31 w * 2 ^ 20 + field 19 12 w * 2 ^ 12 + field 20 20 w * 2 ^ 11
             + field 30 21 w * 2).

Inductive alu_op :=
  | ADD | SUB | SLL | SLT | SLTU | XOR | SRL | SRA | OR | AND
  | MUL | MULH | MULHSU | MULHU | DIV | DIVU | REM | REMU.

Inductive branch_op := BEQ | BNE | BLT | BGE | BLTU | BGEU.

Inductive instr :=
  | I_LUI (rd imm : Z)
  | I_AUIPC (rd imm : Z)
  | I_JAL (rd off : Z)
  | I_JALR (rd rs1 off : Z)
  | I_BRANCH (op : branch_op) (rs1 rs2 off : Z)
  | I_OP_IMM (op : alu_op) (rd rs1 imm : Z)
  | I_OP (op : alu_op) (rd rs1 rs2 : Z).

Definition decode_op_imm (w : Z) : option (alu_op * Z) :=
  match f_funct3 w with
  | 0 => Some (ADD, imm_I w)
  | 1 => if f_funct7 w =? 0 then Some (SLL, f_rs2 w) else None
  | 2 => Some (SLT, imm_I w)
  | 3 => Some (SLTU, imm_I w)
  | 4 => Some (XOR, imm_I w)
  | 5 => if f_funct7 w =? 0 then Some (SRL, f_rs2 w)
         else if f_funct7 w =? 32 then Some (SRA, f_rs2 w) else None
  | 6 => Some (OR, imm_I w)
  | 7 => Some (AND, imm_I w)
  | _ => None
  end.

Definition decode_op (w : Z) : option alu_op :=
  match f_funct7 w, f_funct3 w with
  | 0, 0 => Some ADD | 0, 1 => Some SLL | 0, 2 => Some SLT | 0, 3 => Some SLTU
  | 0, 4 => Some XOR | 0, 5 => Some SRL | 0, 6 => Some OR | 0, 7 => Some AND
  | 32, 0 => Some SUB | 32, 5 => Some SRA
  | 1, 0 => Some MUL | 1, 1 => Some MULH | 1, 2 => Some MULHSU | 1, 3 => Some MULHU
  | 1, 4 => Some DIV | 1, 5 => Some DIVU | 1, 6 => Some REM | 1, 7 => Some REMU
  | _, _ => None
  end.

Definition decode_branch (w : Z) : option branch_op :=
  match f_funct3 w with
  | 0 => Some BEQ | 1 => Some BNE | 4 => Some BLT | 5 => Some BGE | 6 => Some BLTU | 7 => Some BGEU
  | _ => None
  end.

(** The computational and control-flow part of RV32IM. *)
Definition decode (w : Z) : option instr :=
  match f_opcode w with
  | 0x37 => Some (I_LUI (f_rd w) (imm_U w))
  | 0x17 => Some (I_AUIPC (f_rd w) (imm_U w))
  | 0x6f => Some (I_JAL (f_rd w) (imm_J w))
  | 0x67 => if f_funct3 w =? 0 then Some (I_JALR (f_rd w) (f_rs1 w) (imm_I w)) else None
  | 0x63 => op ← decode_branch w; Some (I_BRANCH op (f_rs1 w) (f_rs2 w) (imm_B w))
  | 0x13 => '(op, i) ← decode_op_imm w; Some (I_OP_IMM op (f_rd w) (f_rs1 w) i)
  | 0x33 => op ← decode_op w; Some (I_OP op (f_rd w) (f_rs1 w) (f_rs2 w))
  | _ => None
  end.

(** Operations on 32-bit words. *)
Definition alu (op : alu_op) (a b : Z) : Z :=
  match op with
  | ADD => u32 (a + b)
  | SUB => u32 (a - b)
  | SLL => u32 (a * 2 ^ (b mod 32))
  | SLT => if s32 a <? s32 b then 1 else 0
  | SLTU => if u32 a <? u32 b then 1 else 0
  | XOR => Z.lxor a (u32 b)
  | SRL => a / 2 ^ (b mod 32)
  | SRA => u32 (s32 a / 2 ^ (b mod 32))
  | OR => Z.lor a (u32 b)
  | AND => Z.land a (u32 b)
  | MUL => u32 (a * b)
  | MULH => u32 (s32 a * s32 b / 2 ^ 32)
  | MULHSU => u32 (s32 a * b / 2 ^ 32)
  | MULHU => u32 (a * b / 2 ^ 32)
  | DIV => if b =? 0 then 2 ^ 32 - 1 else u32 (Z.quot (s32 a) (s32 b))
  | DIVU => if b =? 0 then 2 ^ 32 - 1 else a / b
  | REM => if b =? 0 then a else u32 (Z.rem (s32 a) (s32 b))
  | REMU => if b =? 0 then a else a mod b
  end.

Definition branch_taken (op : branch_op) (a b : Z) : bool :=
  match op with
  | BEQ => a =? b
  | BNE => negb (a =? b)
  | BLT => s32 a <? s32 b
  | BGE => s32 b <=? s32 a
  | BLTU => a <? b
  | BGEU => b <=? a
  end.

Section Effect.
Context {W : Type} `{GuestBank W}.

(** A write to x0 has no effect. *)
Definition set_rd (rd v : Z) (w : W) : W := if rd =? 0 then w else wr_reg rd v w.

Definition execute (i : instr) (w : W) : W :=
  let next := u32 (rd_pc w + 4) in
  match i with
  | I_LUI rd imm => wr_pc next (set_rd rd imm w)
  | I_AUIPC rd imm => wr_pc next (set_rd rd (u32 (rd_pc w + imm)) w)
  | I_JAL rd off => wr_pc (u32 (rd_pc w + off)) (set_rd rd next w)
  | I_JALR rd rs1 off =>
      wr_pc (Z.clearbit (u32 (rd_reg rs1 w + off)) 0) (set_rd rd next w)
  | I_BRANCH op rs1 rs2 off =>
      wr_pc (if branch_taken op (rd_reg rs1 w) (rd_reg rs2 w)
             then u32 (rd_pc w + off) else next) w
  | I_OP_IMM op rd rs1 imm => wr_pc next (set_rd rd (alu op (rd_reg rs1 w) imm) w)
  | I_OP op rd rs1 rs2 =>
      wr_pc next (set_rd rd (alu op (rd_reg rs1 w) (rd_reg rs2 w)) w)
  end.
End Effect.

(** The two M-extension cases in which the host's divide instruction faults. *)
Definition div_overflow (a b : Z) : bool := (s32 a =? - 2 ^ 31) && (s32 b =? -1).

Lemma field_land hi lo w : 0 <= lo <= hi ->
  Z.land (Z.shiftr w lo) (Z.ones (hi - lo + 1)) = field hi lo w.
Proof. intros. unfold field. by rewrite field_mod by lia. Qed.

Lemma field_range hi lo w : lo <= hi -> is_uint (hi - lo + 1) (field hi lo w).
Proof. intros. unfold field, is_uint. apply Z.mod_pos_bound. apply Z.pow_pos_nonneg; lia. Qed.
