(* ===== verification/Decode.v ===== *)
(** * Instruction decoding

    Models [instruction_decoding_per_type] of src/vmm/translation.c, [sign_extend32]
    of src/vmm/util.h and the enumerations of src/vmm/translation.h.

    Proved here: [sign_extend32] is the two's complement reading of the low bits;
    the decoded fields and immediates of each encoding type are the fields of the
    instruction formats as the ISA manual lays them out ([field hi lo]); an
    instruction can be rebuilt from what was decoded. *)

From S2P Require Import Prelude X86 Rv32.
Local Open Scope Z_scope.

(** src/vmm/translation.h:9-23 RISCV_OPCODE *)
Definition RISCV_OPCODE_LUI : Z := 0x37.
Definition RISCV_OPCODE_AUIPC : Z := 0x17.
Definition RISCV_OPCODE_JAL : Z := 0x6f.
Definition RISCV_OPCODE_JARL : Z := 0x67.
Definition RISCV_OPCODE_BRANCH : Z := 0x63.
Definition RISCV_OPCODE_LOAD : Z := 0x03.
Definition RISCV_OPCODE_STORE : Z := 0x23.
Definition RISCV_OPCODE_OP_IMM : Z := 0x13.
Definition RISCV_OPCODE_OP : Z := 0x33.
Definition RISCV_OPCODE_FENCE : Z := 0x0f.
Definition RISCV_OPCODE_SUPERVISOR_LEVEL : Z := 0x73.
Definition RISCV_OPCODE_AMO : Z := 0x2f.

(** src/vmm/translation.h:26-34 INSTRUCTION_ENCODING_TYPE *)
Inductive INSTRUCTION_ENCODING_TYPE :=
  | ENCODING_TYPE_UNKNOWN | ENCODING_TYPE_U | ENCODING_TYPE_I | ENCODING_TYPE_UJ
  | ENCODING_TYPE_S | ENCODING_TYPE_B | ENCODING_TYPE_R.

(** src/vmm/translation.h:36-45 decoding *)
Record decoding := {
  instr_encoding_type : INSTRUCTION_ENCODING_TYPE;
  opcode : Z; funct3 : Z; rd_index : Z; rs1_index : Z; rs2_index : Z; funct7 : Z; imm : Z
}.

(** src/vmm/translation.c:25-82 instruction_decoding_per_type *)
Definition instruction_decoding_per_type (intrs : Z) (encoding_type : INSTRUCTION_ENCODING_TYPE) :
    option decoding :=
  let f lo mask := Z.land (Z.shiftr intrs lo) mask in
  let mk rd f3 rs1 rs2 f7 im :=
    Some {| instr_encoding_type := encoding_type; opcode := Z.land intrs 0x7f; funct3 := f3;
            rd_index := rd; rs1_index := rs1; rs2_index := rs2; funct7 := f7; imm := im |} in
  match encoding_type with
  | ENCODING_TYPE_U => mk (f 7 0x1f) 0 0 0 0 (f 12 0xfffff)
  | ENCODING_TYPE_UJ =>
      mk (f 7 0x1f) 0 0 0 0
        (Z.lor (Z.lor (Z.lor (f 21 0x3ff) (Z.shiftl (f 20 0x1) 10))
                      (Z.shiftl (f 12 0xff) 11))
               (Z.shiftl (f 31 0x1) 19))
  | ENCODING_TYPE_I => mk (f 7 0x1f) (f 12 7) (f 15 0x1f) 0 0 (f 20 0xfff)
  | ENCODING_TYPE_S =>
      mk 0 (f 12 7) (f 15 0x1f) (f 20 0x1f) 0 (Z.lor (f 7 0x1f) (Z.shiftl (f 25 0x7f) 5))
  | ENCODING_TYPE_B =>
      mk 0 (f 12 0x7) (f 15 0x1f) (f 20 0x1f) 0
        (Z.lor (Z.lor (Z.lor (f 8 0xf) (Z.shiftl (f 25 0x3f) 4))
                      (Z.shiftl (f 7 0x1) 10))
               (Z.shiftl (f 31 0x1) 11))
  | ENCODING_TYPE_R => mk (f 7 0x1f) (f 12 0x7) (f 15 0x1f) (f 20 0x1f) (f 25 0x7f) 0
  | ENCODING_TYPE_UNKNOWN => None
  end.

(** src/vmm/util.h:36-46 sign_extend32 *)
Fixpoint sign_extend_loop (count : nat) (bit_position sign ret : Z) : Z :=
  match count with
  | O => ret
  | S count =>
      sign_extend_loop count (bit_position + 1) sign
        (s32 (Z.lor ret (Z.shiftl sign bit_position)))
  end.

(** src/vmm/util.h:36-46 sign_extend32 *)
Definition sign_extend32 (data sign_bit : Z) : Z :=
  let sign := Z.land (Z.shiftr data sign_bit) 1 in
  sign_extend_loop (Z.to_nat (32 - sign_bit)) sign_bit sign (s32 data).

(** ** Sign extension *)

Lemma testbit_signed w x i :
  0 < w -> 0 <= i -> Z.testbit (signed w x) i = Z.testbit x (Z.min i (w - 1)).
Proof.
  intros Hw Hi. unfold signed.
  assert (Hp : 0 < 2 ^ (w - 1)) by (apply Z.pow_pos_nonneg; lia).
  assert (E : 2 ^ w = 2 * 2 ^ (w - 1)).
  { replace w with (Z.succ (w - 1)) at 1 by lia. apply Z.pow_succ_r. lia. }
  assert (Htop : Z.testbit x (w - 1) = negb (x mod 2 ^ w <? 2 ^ (w - 1))).
  { rewrite <- (Z.mod_pow2_bits_low x w) by lia.
    pose proof (Z.mod_pos_bound x (2 ^ w) ltac:(lia)).
    rewrite Z.testbit_eqb by lia. destruct (Z.ltb_spec (x mod 2 ^ w) (2 ^ (w - 1))).
    - rewrite Z.div_small by lia. done.
    - replace (x mod 2 ^ w / 2 ^ (w - 1)) with 1; [done|].
      apply Z.div_unique with (x mod 2 ^ w - 2 ^ (w - 1)); lia. }
  destruct (Z.ltb_spec (x mod 2 ^ w) (2 ^ (w - 1))); cbn [negb] in Htop.
  - destruct (Z.lt_ge_cases i (w - 1)).
    + rewrite Z.min_l, Z.mod_pow2_bits_low by lia. done.
    + rewrite Z.min_r by lia. rewrite Htop. destruct (Z.eq_dec i (w - 1)) as [->|].
      * by rewrite Z.mod_pow2_bits_low by lia.
      * by rewrite Z.mod_pow2_bits_high by lia.
  - replace (x mod 2 ^ w - 2 ^ w) with (x mod 2 ^ w + -1 * 2 ^ w) by lia.
    rewrite <- lor_shiftl_add by (try apply Z.mod_pos_bound; lia).
    rewrite Z.lor_spec. destruct (Z.lt_ge_cases i w).
    + rewrite Z.shiftl_spec_low, orb_false_r, Z.mod_pow2_bits_low by lia. f_equal.
      destruct (Z.eq_dec i (w - 1)); lia.
    + rewrite Z.shiftl_spec, Z.bits_m1 by lia. rewrite orb_true_r.
      by rewrite Z.min_r, Htop by lia.
Qed.

Lemma testbit_sign_extend_loop count pos sign ret i :
  0 <= pos -> pos + Z.of_nat count <= 32 -> 0 <= sign <= 1 -> 0 <= i < 32 ->
  Z.testbit (sign_extend_loop count pos sign ret) i =
  Z.testbit ret i || ((pos <=? i) && (i <? pos + Z.of_nat count) && (sign =? 1)).
Proof.
  revert pos ret. induction count as [|count IH]; intros pos ret Hp Hc Hs Hi; cbn [sign_extend_loop].
  - destruct (Z.leb_spec pos i), (Z.ltb_spec i (pos + Z.of_nat 0)); try lia;
      by rewrite orb_false_r.
  - rewrite IH by lia. rewrite testbit_signed, Z.lor_spec by lia.
    rewrite Z.min_l by lia. rewrite Z.shiftl_spec by lia.
    assert (Hbit : Z.testbit sign (i - pos) = ((i =? pos) && (sign =? 1))).
    { assert (sign = 0 \/ sign = 1) as [-> | ->] by lia.
      - rewrite Z.bits_0. by rewrite andb_false_r.
      - destruct (Z.eqb_spec i pos) as [->|]; [by rewrite Z.sub_diag|].
        destruct (Z.lt_ge_cases (i - pos) 0); [by rewrite Z.testbit_neg_r by lia|].
        apply (testbit_high 1); [unfold is_uint; lia|lia]. }
    rewrite Hbit. destruct (Z.testbit ret i); [done|]. cbn [orb].
    destruct (Z.eqb_spec i pos), (Z.leb_spec (pos + 1) i), (Z.leb_spec pos i),
      (Z.ltb_spec i (pos + 1 + Z.of_nat count)), (Z.ltb_spec i (pos + Z.of_nat (S count)));
      try lia; destruct (sign =? 1); done.
Qed.

(** A 32-bit integer is determined by its 32 bits. *)
Lemma s32_bits_eq x y :
  (forall i, 0 <= i < 32 -> Z.testbit x i = Z.testbit y i) -> s32 x = s32 y.
Proof.
  intros H. apply Z.bits_inj'. intros i Hi. rewrite !testbit_signed by lia. apply H. lia.
Qed.

Lemma sign_extend_loop_s32 count pos sign ret :
  s32 ret = ret -> s32 (sign_extend_loop count pos sign ret) = sign_extend_loop count pos sign ret.
Proof.
  revert pos ret. induction count as [|count IH]; intros pos ret Hr; cbn [sign_extend_loop]; [done|].
  apply IH. pose proof (signed_range 32 (Z.lor ret (Z.shiftl sign pos)) ltac:(lia)).
  by apply s32_id.
Qed.

Lemma sign_extend32_signed d k :
  0 <= k <= 31 -> is_uint (k + 1) d -> sign_extend32 d k = signed (k + 1) d.
Proof.
  intros Hk Hd. unfold sign_extend32.
  assert (Hsign : Z.land (Z.shiftr d k) 1 = Z.b2z (Z.testbit d k)).
  { rewrite Z.testbit_spec' by lia. change 1 with (Z.ones 1) at 1.
    by rewrite field_mod by lia. }
  pose proof (signed_range 32 d ltac:(lia)) as Hr1.
  rewrite <- sign_extend_loop_s32 by (apply s32_id; exact Hr1).
  pose proof (signed_range (k + 1) d ltac:(lia)) as Hr.
  rewrite <- (s32_id (signed (k + 1) d)).
  2: { assert (2 ^ (k + 1 - 1) <= 2 ^ 31) by (apply Z.pow_le_mono_r; lia). lia. }
  apply s32_bits_eq. intros i Hi. rewrite Hsign.
  rewrite testbit_sign_extend_loop by (destruct (Z.testbit d k); cbn; lia).
  rewrite !testbit_signed, Z.min_l by lia.
  replace (k + 1 - 1) with k by lia. replace (k + Z.of_nat (Z.to_nat (32 - k))) with 32 by lia.
  destruct (Z.ltb_spec i 32); [|lia]. rewrite andb_true_r.
  destruct (Z.leb_spec k i).
  - rewrite Z.min_r by lia. destruct (Z.eq_dec i k) as [->|].
    + by destruct (Z.testbit d k).
    + rewrite (testbit_high (k + 1) d) by (done || lia). by destruct (Z.testbit d k).
  - rewrite Z.min_l, orb_false_r by lia. done.
Qed.

(** ** The instruction formats *)

Lemma mask_field lo n w : 0 <= lo -> 0 < n ->
  Z.land (Z.shiftr w lo) (Z.ones n) = field (lo + n - 1) lo w.
Proof. intros. unfold field. rewrite field_mod by lia. do 2 f_equal. lia. Qed.

Lemma opcode_field w : Z.land w 0x7f = f_opcode w.
Proof. pose proof (mask_field 0 7 w) as E. rewrite Z.shiftr_0_r in E. apply E; lia. Qed.

Ltac decode_fields :=
  repeat match goal with
    | |- context [Z.land (Z.shiftr ?w ?lo) ?m] =>
        let n := eval vm_compute in (Z.log2 m + 1) in
        change (Z.land (Z.shiftr w lo) m) with (Z.land (Z.shiftr w lo) (Z.ones n));
        rewrite (mask_field lo n w) by lia;
        let hi := eval vm_compute in (lo + n - 1) in change (lo + n - 1) with hi
    end.

Ltac decode_start :=
  unfold instruction_decoding_per_type; intros E; injection E as <-;
  cbn [rd_index rs1_index rs2_index funct3 funct7 imm opcode];
  match goal with |- context [Z.land ?w 0x7f = f_opcode ?w] => rewrite (opcode_field w) end.

Lemma or_field x y n m : 0 <= n -> is_uint n x -> is_uint m y -> 0 <= m ->
  Z.lor x (Z.shiftl y n) = x + y * 2 ^ n /\ is_uint (n + m) (x + y * 2 ^ n).
Proof.
  intros Hn [Hx0 Hx1] [Hy0 Hy1] Hm. split; [by apply lor_shiftl_add|].
  unfold is_uint. rewrite Z.pow_add_r by lia.
  assert (0 < 2 ^ n) by (apply Z.pow_pos_nonneg; lia). nia.
Qed.

Section Formats.
Context (w : Z) (d : decoding).

Lemma decode_R :
  instruction_decoding_per_type w ENCODING_TYPE_R = Some d ->
  rd_index d = f_rd w /\ rs1_index d = f_rs1 w /\ rs2_index d = f_rs2 w /\
  funct3 d = f_funct3 w /\ funct7 d = f_funct7 w /\ opcode d = f_opcode w.
Proof. decode_start. decode_fields. repeat (split; [done|]). done. Qed.

Lemma decode_I :
  instruction_decoding_per_type w ENCODING_TYPE_I = Some d ->
  rd_index d = f_rd w /\ rs1_index d = f_rs1 w /\ funct3 d = f_funct3 w /\
  imm d = field 31 20 w /\ sign_extend32 (imm d) 11 = imm_I w /\ opcode d = f_opcode w.
Proof.
  decode_start. decode_fields. repeat (split; [done|]). split; [|done].
  rewrite sign_extend32_signed; [done|lia|]. by apply field_range.
Qed.

Lemma decode_U :
  instruction_decoding_per_type w ENCODING_TYPE_U = Some d ->
  rd_index d = f_rd w /\ imm d = field 31 12 w /\ opcode d = f_opcode w.
Proof. decode_start. decode_fields. done. Qed.

Lemma decode_S :
  instruction_decoding_per_type w ENCODING_TYPE_S = Some d ->
  rs1_index d = f_rs1 w /\ rs2_index d = f_rs2 w /\ funct3 d = f_funct3 w /\
  sign_extend32 (imm d) 11 = imm_S w /\ opcode d = f_opcode w.
Proof.
  decode_start. decode_fields. repeat (split; [done|]). split; [|done].
  destruct (or_field (field 11 7 w) (field 31 25 w) 5 7) as [E1 R1]; try lia;
    [by apply field_range..|].
  cbn [Z.add Z.sub] in *. rewrite E1.
  rewrite sign_extend32_signed; [|lia|exact R1]. unfold imm_S. f_equal. lia.
Qed.

Lemma decode_B :
  instruction_decoding_per_type w ENCODING_TYPE_B = Some d ->
  rs1_index d = f_rs1 w /\ rs2_index d = f_rs2 w /\ funct3 d = f_funct3 w /\
  sign_extend32 (u32 (Z.shiftl (imm d) 1)) 12 = imm_B w /\ opcode d = f_opcode w.
Proof.
  decode_start. decode_fields. repeat (split; [done|]). split; [|done].
  destruct (or_field (field 11 8 w) (field 30 25 w) 4 6) as [E1 R1]; try lia;
    [by apply field_range..|].
  destruct (or_field _ (field 7 7 w) 10 1 ltac:(lia) R1) as [E2 R2]; [by apply field_range|lia|].
  destruct (or_field _ (field 31 31 w) 11 1 ltac:(lia) R2) as [E3 R3]; [by apply field_range|lia|].
  cbn [Z.add Z.sub] in *. rewrite E1, E2, E3, Z.shiftl_mul_pow2 by lia.
  unfold is_uint in R3. change (2 ^ (11 + 1)) with 4096 in R3.
  rewrite u32_id by (unfold is_uint; lia).
  rewrite sign_extend32_signed; [|lia|unfold is_uint; change (2 ^ (12 + 1)) with 8192; lia].
  unfold imm_B. f_equal. lia.
Qed.

Lemma decode_UJ :
  instruction_decoding_per_type w ENCODING_TYPE_UJ = Some d ->
  rd_index d = f_rd w /\
  sign_extend32 (u32 (Z.shiftl (imm d) 1)) 20 = imm_J w /\ opcode d = f_opcode w.
Proof.
  decode_start. decode_fields. repeat (split; [done|]). split; [|done].
  destruct (or_field (field 30 21 w) (field 20 20 w) 10 1) as [E1 R1]; try lia;
    [by apply field_range..|].
  destruct (or_field _ (field 19 12 w) 11 8 ltac:(lia) R1) as [E2 R2]; [by apply field_range|lia|].
  destruct (or_field _ (field 31 31 w) 19 1 ltac:(lia) R2) as [E3 R3]; [by apply field_range|lia|].
  cbn [Z.add Z.sub] in *. rewrite E1, E2, E3, Z.shiftl_mul_pow2 by lia.
  unfold is_uint in R3. change (2 ^ (19 + 1)) with 1048576 in R3.
  rewrite u32_id by (unfold is_uint; lia).
  rewrite sign_extend32_signed; [|lia|unfold is_uint; change (2 ^ (20 + 1)) with 2097152; lia].
  unfold imm_J. f_equal. lia.
Qed.
End Formats.

(** ** Encoding *)

(** The instruction word a decoding stands for, format by format. *)
Definition encode_instruction (d : decoding) : Z :=
  let im lo n := (imm d / 2 ^ lo) mod 2 ^ n in
  opcode d +
  match instr_encoding_type d with
  | ENCODING_TYPE_UNKNOWN => 0
  | ENCODING_TYPE_U => rd_index d * 2 ^ 7 + imm d * 2 ^ 12
  | ENCODING_TYPE_UJ =>
      rd_index d * 2 ^ 7 + im 11 8 * 2 ^ 12 + im 10 1 * 2 ^ 20 + im 0 10 * 2 ^ 21 + im 19 1 * 2 ^ 31
  | ENCODING_TYPE_I =>
      rd_index d * 2 ^ 7 + funct3 d * 2 ^ 12 + rs1_index d * 2 ^ 15 + imm d * 2 ^ 20
  | ENCODING_TYPE_S =>
      im 0 5 * 2 ^ 7 + funct3 d * 2 ^ 12 + rs1_index d * 2 ^ 15 + rs2_index d * 2 ^ 20
      + im 5 7 * 2 ^ 25
  | ENCODING_TYPE_B =>
      im 10 1 * 2 ^ 7 + im 0 4 * 2 ^ 8 + funct3 d * 2 ^ 12 + rs1_index d * 2 ^ 15
      + rs2_index d * 2 ^ 20 + im 4 6 * 2 ^ 25 + im 11 1 * 2 ^ 31
  | ENCODING_TYPE_R =>
      rd_index d * 2 ^ 7 + funct3 d * 2 ^ 12 + rs1_index d * 2 ^ 15 + rs2_index d * 2 ^ 20
      + funct7 d * 2 ^ 25
  end.

(** Adjacent fields join. *)
Lemma field_join a b c w : 0 <= a -> a <= b < c ->
  field b a w + field c (b + 1) w * 2 ^ (b + 1 - a) = field c a w.
Proof.
  intros Ha Hb. unfold field.
  replace (c - a + 1) with ((b - a + 1) + (c - (b + 1) + 1)) by lia.
  rewrite (Z.pow_add_r 2 (b - a + 1)) by lia.
  assert (0 < 2 ^ (b - a + 1)) by (apply Z.pow_pos_nonneg; lia).
  assert (0 < 2 ^ (c - (b + 1) + 1)) by (apply Z.pow_pos_nonneg; lia).
  rewrite Z.rem_mul_r by lia.
  replace (2 ^ (b + 1)) with (2 ^ a * 2 ^ (b - a + 1)).
  - assert (0 < 2 ^ a) by (apply Z.pow_pos_nonneg; lia).
    rewrite <- Z.div_div by lia.
    replace (b + 1 - a) with (b - a + 1) by lia. ring.
  - rewrite <- Z.pow_add_r by lia. f_equal. lia.
Qed.

Lemma field_all w : is_uint 32 w -> field 31 0 w = w.
Proof. intros Hw. unfold field. rewrite Z.div_1_r. by apply Z.mod_small. Qed.

Ltac encode_start Hw :=
  unfold instruction_decoding_per_type; intros E; injection E as <-;
  unfold encode_instruction;
  cbn [instr_encoding_type rd_index rs1_index rs2_index funct3 funct7 imm opcode];
  match goal with |- context [Z.land ?w 0x7f + _ = ?w] => rewrite (opcode_field w) end;
  decode_fields; unfold f_opcode;
  match goal with |- _ = ?w => transitivity (field 31 0 w); [|by apply field_all] end.
Ltac join a b w :=
  let J := fresh "J" in
  pose proof (field_join a b 31 w ltac:(lia) ltac:(lia)) as J;
  let n := eval vm_compute in (b + 1) in change (b + 1) with n in J;
  let m := eval vm_compute in (n - a) in change (n - a) with m in J.
Section Encoding.
Context (w : Z) (d : decoding) (Hw : is_uint 32 w).

Lemma encode_R :
  instruction_decoding_per_type w ENCODING_TYPE_R = Some d -> encode_instruction d = w.
Proof.
  encode_start Hw.
  join 0 6 w. join 7 11 w.
  join 12 14 w. join 15 19 w. join 20 24 w.
  lia.
Qed.

Lemma encode_I :
  instruction_decoding_per_type w ENCODING_TYPE_I = Some d -> encode_instruction d = w.
Proof.
  encode_start Hw.
  join 0 6 w. join 7 11 w.
  join 12 14 w. join 15 19 w.
  lia.
Qed.

Lemma encode_U :
  instruction_decoding_per_type w ENCODING_TYPE_U = Some d -> encode_instruction d = w.
Proof.
  encode_start Hw.
  join 0 6 w. join 7 11 w. lia.
Qed.

Lemma encode_S :
  instruction_decoding_per_type w ENCODING_TYPE_S = Some d -> encode_instruction d = w.
Proof.
  encode_start Hw.
  destruct (or_field (field 11 7 w) (field 31 25 w) 5 7) as [E1 R1]; try lia;
    [by apply field_range..|]. rewrite E1.
  pose proof (field_range 11 7 w ltac:(lia)) as F1. pose proof (field_range 31 25 w ltac:(lia)) as F2.
  join 0 6 w. join 7 11 w.
  join 12 14 w. join 15 19 w. join 20 24 w.
  unfold is_uint in F1, F2. cbn [Z.add Z.sub] in *.
  generalize dependent (field 11 7 w). generalize dependent (field 31 25 w).  intros.
  dlia.
Qed.

Lemma encode_B :
  instruction_decoding_per_type w ENCODING_TYPE_B = Some d -> encode_instruction d = w.
Proof.
  encode_start Hw.
  destruct (or_field (field 11 8 w) (field 30 25 w) 4 6) as [E1 R1]; try lia;
    [by apply field_range..|].
  destruct (or_field _ (field 7 7 w) 10 1 ltac:(lia) R1) as [E2 R2]; [by apply field_range|lia|].
  destruct (or_field _ (field 31 31 w) 11 1 ltac:(lia) R2) as [E3 R3]; [by apply field_range|lia|].
  cbn [Z.add Z.sub] in *. rewrite E1, E2, E3. clear E1 E2 E3 R1 R2 R3.
  pose proof (field_range 11 8 w ltac:(lia)) as F1. pose proof (field_range 30 25 w ltac:(lia)) as F2.
  pose proof (field_range 7 7 w ltac:(lia)) as F3. pose proof (field_range 31 31 w ltac:(lia)) as F4.
  join 0 6 w. join 7 7 w.
  join 8 11 w.
  join 12 14 w. join 15 19 w. join 20 24 w.
  join 25 30 w.
  unfold is_uint in F1, F2, F3, F4.
  generalize dependent (field 11 8 w). generalize dependent (field 30 25 w). generalize dependent (field 7 7 w). generalize dependent (field 31 31 w). intros.
  dlia.
Qed.

Lemma encode_UJ :
  instruction_decoding_per_type w ENCODING_TYPE_UJ = Some d -> encode_instruction d = w.
Proof.
  encode_start Hw.
  destruct (or_field (field 30 21 w) (field 20 20 w) 10 1) as [E1 R1]; try lia;
    [by apply field_range..|].
  destruct (or_field _ (field 19 12 w) 11 8 ltac:(lia) R1) as [E2 R2]; [by apply field_range|lia|].
  destruct (or_field _ (field 31 31 w) 19 1 ltac:(lia) R2) as [E3 R3]; [by apply field_range|lia|].
  cbn [Z.add Z.sub] in *. rewrite E1, E2, E3. clear E1 E2 E3 R1 R2 R3.
  pose proof (field_range 30 21 w ltac:(lia)) as F1. pose proof (field_range 20 20 w ltac:(lia)) as F2.
  pose proof (field_range 19 12 w ltac:(lia)) as F3. pose proof (field_range 31 31 w ltac:(lia)) as F4.
  join 0 6 w. join 7 11 w.
  join 12 19 w.
  join 20 20 w. join 21 30 w.
  unfold is_uint in F1, F2, F3, F4.
  generalize dependent (field 30 21 w). generalize dependent (field 20 20 w). generalize dependent (field 19 12 w). generalize dependent (field 31 31 w). intros.
  dlia.
Qed.
Lemma encode_decode t :
  instruction_decoding_per_type w t = Some d -> encode_instruction d = w.
Proof.
  destruct t; [done|apply encode_U|apply encode_I|apply encode_UJ|apply encode_S|apply encode_B
              |apply encode_R].
Qed.
End Encoding.

(** ** Properties *)

(** Decoding loses nothing: for every 32-bit word and every encoding type, the
    fields and the immediate [instruction_decoding_per_type] extracts put back
    together are the word itself (so the scattered B and J immediates are read bit
    for bit). *)
Theorem decode_roundtrip w d t :
  is_uint 32 w -> instruction_decoding_per_type w t = Some d -> encode_instruction d = w.
Proof. intros Hw. by apply encode_decode. Qed.

Lemma decode_roundtrip_witness :
  exists d, instruction_decoding_per_type 0xfe5214e3 ENCODING_TYPE_B = Some d /\
    encode_instruction d = 0xfe5214e3.
Proof.
  eexists. split; [reflexivity|].
  apply (decode_roundtrip 0xfe5214e3 _ ENCODING_TYPE_B); [vm_compute; split; congruence|reflexivity].
Defined.

(** [sign_extend32] is two's complement: on a value of [k + 1] bits, extending
    from bit [k] gives the signed value of those bits, for every [k] up to 31. *)
Theorem sign_extend32_twos_complement d k :
  0 <= k <= 31 -> is_uint (k + 1) d ->
  sign_extend32 d k = (if d <? 2 ^ k then d else d - 2 ^ (k + 1)).
Proof.
  intros Hk Hd. rewrite sign_extend32_signed by done. unfold signed.
  replace (k + 1 - 1) with k by lia. by rewrite Z.mod_small by apply Hd.
Qed.

Lemma sign_extend32_twos_complement_witness : sign_extend32 0xfff 11 = -1.
Proof.
  apply (sign_extend32_twos_complement 0xfff 11); [lia|vm_compute; split; congruence].
Defined.

(** The immediates the translators use are the ISA's: whatever the word, the
    decoded immediate shifted and sign-extended the way each translator does it is
    the I, S, B, U or J immediate of the manual. *)
Theorem decoded_immediates w :
  (forall d, instruction_decoding_per_type w ENCODING_TYPE_I = Some d ->
     sign_extend32 (imm d) 11 = imm_I w) /\
  (forall d, instruction_decoding_per_type w ENCODING_TYPE_S = Some d ->
     sign_extend32 (imm d) 11 = imm_S w) /\
  (forall d, instruction_decoding_per_type w ENCODING_TYPE_B = Some d ->
     sign_extend32 (u32 (Z.shiftl (imm d) 1)) 12 = imm_B w) /\
  (forall d, instruction_decoding_per_type w ENCODING_TYPE_U = Some d ->
     Z.shiftl (imm d) 12 = imm_U w) /\
  (forall d, instruction_decoding_per_type w ENCODING_TYPE_UJ = Some d ->
     sign_extend32 (u32 (Z.shiftl (imm d) 1)) 20 = imm_J w).
Proof.
  repeat split; intros d E.
  - by apply decode_I in E as (_ & _ & _ & _ & H & _).
  - by apply decode_S in E as (_ & _ & _ & H & _).
  - by apply decode_B in E as (_ & _ & _ & H & _).
  - apply decode_U in E as (_ & -> & _). by rewrite Z.shiftl_mul_pow2 by lia.
  - by apply decode_UJ in E as (_ & H & _).
Qed.

Lemma decoded_immediates_witness :
  exists d, instruction_decoding_per_type 0xfe5214e3 ENCODING_TYPE_B = Some d /\
    sign_extend32 (u32 (Z.shiftl (imm d) 1)) 12 = -24.
Proof.
  eexists. split; [reflexivity|].
  apply (proj1 (proj2 (proj2 (decoded_immediates 0xfe5214e3)))). reflexivity.
Defined.
