(* ===== verification/TransArith.v ===== *)
(** * Templates and translators of the OP and OP-IMM instructions

    Models src/vmm/translate_arithmetic.c, src/vmm/translate_arithmetic_immediate.c
    and src/vmm/translate_multiplication_and_division.c: every template instruction
    by instruction, the translator that commits it with its parameters, and the
    handler tables. A missing handler fails the [ASSERT] of the entry ([None]).
    The theorems on these templates are in BlockFacts.v and Refine.v. *)

From S2P Require Import Prelude X86 Hart Decode.
Local Open Scope Z_scope.

(** ** Templates: src/vmm/translate_arithmetic.c *)

(** src/vmm/translate_arithmetic.c:15-39 add_instruction *)
Definition add_instruction : template := {|
  t_indicator := Ind.add_instruction;
  t_code := BEGIN_TRANSLATION
    ++ [movl (PIC_PARAM 0) edx; shl 0x2 rdx; addq r15 rdx; movl (Mem rdx) esi;
        movl (PIC_PARAM 1) edx; shl 0x2 rdx; addq r15 rdx; movl (Mem rdx) eax;
        addl esi eax; movl (PIC_PARAM 2) edx; shl 0x2 rdx; addq r15 rdx;
        movl eax (Mem rdx)]
    ++ RESET_ZERO_REGISTER
    ++ PROCEED_TO_NEXT_INSTRUCTION
    ++ END_INSTRUCTION;
  t_nparams := 3 |}.

(** src/vmm/translate_arithmetic.c:57-81 sub_instruction *)
Definition sub_instruction : template := {|
  t_indicator := Ind.sub_instruction;
  t_code := BEGIN_TRANSLATION
    ++ [movl (PIC_PARAM 0) edx; shl 0x2 rdx; addq r15 rdx; movl (Mem rdx) eax;
        movl (PIC_PARAM 1) edx; shl 0x2 rdx; addq r15 rdx; movl (Mem rdx) esi;
        subl esi eax; movl (PIC_PARAM 2) edx; shl 0x2 rdx; addq r15 rdx;
        movl eax (Mem rdx)]
    ++ RESET_ZERO_REGISTER
    ++ PROCEED_TO_NEXT_INSTRUCTION
    ++ END_INSTRUCTION;
  t_nparams := 3 |}.

(** src/vmm/translate_arithmetic.c:112-136 and_instruction *)
Definition and_instruction : template := {|
  t_indicator := Ind.and_instruction;
  t_code := BEGIN_TRANSLATION
    ++ [movl (PIC_PARAM 0) edx; shl 0x2 rdx; addq r15 rdx; movl (Mem rdx) esi;
        movl (PIC_PARAM 1) edx; shl 0x2 rdx; addq r15 rdx; movl (Mem rdx) eax;
        andl esi eax; movl (PIC_PARAM 2) edx; shl 0x2 rdx; addq r15 rdx;
        movl eax (Mem rdx)]
    ++ RESET_ZERO_REGISTER
    ++ PROCEED_TO_NEXT_INSTRUCTION
    ++ END_INSTRUCTION;
  t_nparams := 3 |}.

(** src/vmm/translate_arithmetic.c:154-178 or_instruction *)
Definition or_instruction : template := {|
  t_indicator := Ind.or_instruction;
  t_code := BEGIN_TRANSLATION
    ++ [movl (PIC_PARAM 0) edx; shl 0x2 rdx; addq r15 rdx; movl (Mem rdx) esi;
        movl (PIC_PARAM 1) edx; shl 0x2 rdx; addq r15 rdx; movl (Mem rdx) eax;
        orl esi eax; movl (PIC_PARAM 2) edx; shl 0x2 rdx; addq r15 rdx; movl eax (Mem rdx)]
    ++ RESET_ZERO_REGISTER
    ++ PROCEED_TO_NEXT_INSTRUCTION
    ++ END_INSTRUCTION;
  t_nparams := 3 |}.

(** src/vmm/translate_arithmetic.c:196-220 xor_instruction *)
Definition xor_instruction : template := {|
  t_indicator := Ind.xor_instruction;
  t_code := BEGIN_TRANSLATION
    ++ [movl (PIC_PARAM 0) edx; shl 0x2 rdx; addq r15 rdx; movl (Mem rdx) esi;
        movl (PIC_PARAM 1) edx; shl 0x2 rdx; addq r15 rdx; movl (Mem rdx) eax;
        xorl esi eax; movl (PIC_PARAM 2) edx; shl 0x2 rdx; addq r15 rdx;
        movl eax (Mem rdx)]
    ++ RESET_ZERO_REGISTER
    ++ PROCEED_TO_NEXT_INSTRUCTION
    ++ END_INSTRUCTION;
  t_nparams := 3 |}.

(** src/vmm/translate_arithmetic.c:238-265 slt_instruction *)
Definition slt_instruction : template := {|
  t_indicator := Ind.slt_instruction;
  t_code := BEGIN_TRANSLATION
    ++ [xorl ecx ecx; movl (PIC_PARAM 0) edx; shl 0x2 rdx; addq r15 rdx;
        movl (Mem rdx) esi; movl (PIC_PARAM 1) edx; shl 0x2 rdx; addq r15 rdx;
        movl (Mem rdx) edi; cmpl edi esi; setcc CC_l rcx; movzbl rcx rcx;
        movl (PIC_PARAM 2) edx; shl 0x2 rdx; addq r15 rdx; movl ecx (Mem rdx)]
    ++ RESET_ZERO_REGISTER
    ++ PROCEED_TO_NEXT_INSTRUCTION
    ++ END_INSTRUCTION;
  t_nparams := 3 |}.

(** src/vmm/translate_arithmetic.c:283-310 sltu_instruction *)
Definition sltu_instruction : template := {|
  t_indicator := Ind.sltu_instruction;
  t_code := BEGIN_TRANSLATION
    ++ [xorl ecx ecx; movl (PIC_PARAM 0) edx; shl 0x2 rdx; addq r15 rdx;
        movl (Mem rdx) esi; movl (PIC_PARAM 1) edx; shl 0x2 rdx; addq r15 rdx;
        movl (Mem rdx) edi; cmpl edi esi; setcc CC_b rcx; movzbl rcx rcx;
        movl (PIC_PARAM 2) edx; shl 0x2 rdx; addq r15 rdx; movl ecx (Mem rdx)]
    ++ RESET_ZERO_REGISTER
    ++ PROCEED_TO_NEXT_INSTRUCTION
    ++ END_INSTRUCTION;
  t_nparams := 3 |}.

(** src/vmm/translate_arithmetic.c:328-353 sll_instruction *)
Definition sll_instruction : template := {|
  t_indicator := Ind.sll_instruction;
  t_code := BEGIN_TRANSLATION
    ++ [movl (PIC_PARAM 0) edx; shl 0x2 rdx; addq r15 rdx; movl (Mem rdx) eax;
        movl (PIC_PARAM 1) edx; shl 0x2 rdx; addq r15 rdx; movl (Mem rdx) ecx;
        andl (Imm 0x1f) ecx; shl_cl rax; movl (PIC_PARAM 2) edx; shl 0x2 rdx;
        addq r15 rdx; movl eax (Mem rdx)]
    ++ RESET_ZERO_REGISTER
    ++ PROCEED_TO_NEXT_INSTRUCTION
    ++ END_INSTRUCTION;
  t_nparams := 3 |}.

(** src/vmm/translate_arithmetic.c:374-399 srl_instruction *)
Definition srl_instruction : template := {|
  t_indicator := Ind.srl_instruction;
  t_code := BEGIN_TRANSLATION
    ++ [movl (PIC_PARAM 0) edx; shl 0x2 rdx; addq r15 rdx; movl (Mem rdx) eax;
        movl (PIC_PARAM 1) edx; shl 0x2 rdx; addq r15 rdx; movl (Mem rdx) ecx;
        andl (Imm 0x1f) ecx; shr_cl rax; movl (PIC_PARAM 2) edx; shl 0x2 rdx;
        addq r15 rdx; movl eax (Mem rdx)]
    ++ RESET_ZERO_REGISTER
    ++ PROCEED_TO_NEXT_INSTRUCTION
    ++ END_INSTRUCTION;
  t_nparams := 3 |}.

(** src/vmm/translate_arithmetic.c:417-442 sra_instruction *)
Definition sra_instruction : template := {|
  t_indicator := Ind.sra_instruction;
  t_code := BEGIN_TRANSLATION
    ++ [movl (PIC_PARAM 0) edx; shl 0x2 rdx; addq r15 rdx; movl (Mem rdx) eax;
        movl (PIC_PARAM 1) edx; shl 0x2 rdx; addq r15 rdx; movl (Mem rdx) ecx;
        andl (Imm 0x1f) ecx; sar_cl rax; movl (PIC_PARAM 2) edx; shl 0x2 rdx;
        addq r15 rdx; movl eax (Mem rdx)]
    ++ RESET_ZERO_REGISTER
    ++ PROCEED_TO_NEXT_INSTRUCTION
    ++ END_INSTRUCTION;
  t_nparams := 3 |}.

(** ** Templates: src/vmm/translate_arithmetic_immediate.c *)

(** src/vmm/translate_arithmetic_immediate.c:18-39 addi_instruction *)
Definition addi_instruction : template := {|
  t_indicator := Ind.addi_instruction;
  t_code := BEGIN_TRANSLATION
    ++ [movl (PIC_PARAM 1) edx; shl 2 rdx; addq r15 rdx; movl (Mem rdx) eax;
        movl (PIC_PARAM 0) edx; addl edx eax; movl (PIC_PARAM 2) edx; shl 2 rdx;
        addq r15 rdx; movl eax (Mem rdx)]
    ++ RESET_ZERO_REGISTER
    ++ PROCEED_TO_NEXT_INSTRUCTION
    ++ END_INSTRUCTION;
  t_nparams := 3 |}.

(** src/vmm/translate_arithmetic_immediate.c:58-81 stli_instruction *)
Definition stli_instruction : template := {|
  t_indicator := Ind.stli_instruction;
  t_code := BEGIN_TRANSLATION
    ++ [xorl ecx ecx; movl (PIC_PARAM 1) edx; shl 2 rdx; addq r15 rdx; movl (Mem rdx) eax;
        cmpl (PIC_PARAM 0) eax; setcc CC_l rcx; movzbl rcx rcx; movl (PIC_PARAM 2) edx;
        shl 2 rdx; addq r15 rdx; movl ecx (Mem rdx)]
    ++ RESET_ZERO_REGISTER
    ++ PROCEED_TO_NEXT_INSTRUCTION
    ++ END_INSTRUCTION;
  t_nparams := 3 |}.

(** src/vmm/translate_arithmetic_immediate.c:100-123 stliu_instruction *)
Definition stliu_instruction : template := {|
  t_indicator := Ind.stliu_instruction;
  t_code := BEGIN_TRANSLATION
    ++ [xorl ecx ecx; movl (PIC_PARAM 1) edx; shl 2 rdx; addq r15 rdx; movl (Mem rdx) eax;
        cmpl (PIC_PARAM 0) eax; setcc CC_b rcx; movzbl rcx rcx; movl (PIC_PARAM 2) edx;
        shl 2 rdx; addq r15 rdx; movl ecx (Mem rdx)]
    ++ RESET_ZERO_REGISTER
    ++ PROCEED_TO_NEXT_INSTRUCTION
    ++ END_INSTRUCTION;
  t_nparams := 3 |}.

(** src/vmm/translate_arithmetic_immediate.c:142-164 xori_instruction *)
Definition xori_instruction : template := {|
  t_indicator := Ind.xori_instruction;
  t_code := BEGIN_TRANSLATION
    ++ [xorl ecx ecx; movl (PIC_PARAM 1) edx; shl 2 rdx; addq r15 rdx; movl (Mem rdx) eax;
        movl (PIC_PARAM 0) edx; xorl edx eax; movl (PIC_PARAM 2) edx; shl 2 rdx;
        addq r15 rdx; movl eax (Mem rdx)]
    ++ RESET_ZERO_REGISTER
    ++ PROCEED_TO_NEXT_INSTRUCTION
    ++ END_INSTRUCTION;
  t_nparams := 3 |}.

(** src/vmm/translate_arithmetic_immediate.c:183-205 ori_instruction *)
Definition ori_instruction : template := {|
  t_indicator := Ind.ori_instruction;
  t_code := BEGIN_TRANSLATION
    ++ [xorl ecx ecx; movl (PIC_PARAM 1) edx; shl 2 rdx; addq r15 rdx; movl (Mem rdx) eax;
        movl (PIC_PARAM 0) edx; orl edx eax; movl (PIC_PARAM 2) edx; shl 2 rdx;
        addq r15 rdx; movl eax (Mem rdx)]
    ++ RESET_ZERO_REGISTER
    ++ PROCEED_TO_NEXT_INSTRUCTION
    ++ END_INSTRUCTION;
  t_nparams := 3 |}.

(** src/vmm/translate_arithmetic_immediate.c:224-246 andi_instruction *)
Definition andi_instruction : template := {|
  t_indicator := Ind.andi_instruction;
  t_code := BEGIN_TRANSLATION
    ++ [xorl ecx ecx; movl (PIC_PARAM 1) edx; shl 2 rdx; addq r15 rdx; movl (Mem rdx) eax;
        movl (PIC_PARAM 0) edx; andl edx eax; movl (PIC_PARAM 2) edx; shl 2 rdx;
        addq r15 rdx; movl eax (Mem rdx)]
    ++ RESET_ZERO_REGISTER
    ++ PROCEED_TO_NEXT_INSTRUCTION
    ++ END_INSTRUCTION;
  t_nparams := 3 |}.

(** src/vmm/translate_arithmetic_immediate.c:264-287 slli_instruction *)
Definition slli_instruction : template := {|
  t_indicator := Ind.slli_instruction;
  t_code := BEGIN_TRANSLATION
    ++ [xorl ecx ecx; movl (PIC_PARAM 1) edx; shl 2 rdx; addq r15 rdx; movl (Mem rdx) eax;
        movl (PIC_PARAM 0) ecx; andl (Imm 0x1f) ecx; shl_cl rax; movl (PIC_PARAM 2) edx;
        shl 2 rdx; addq r15 rdx; movl eax (Mem rdx)]
    ++ RESET_ZERO_REGISTER
    ++ PROCEED_TO_NEXT_INSTRUCTION
    ++ END_INSTRUCTION;
  t_nparams := 3 |}.

(** src/vmm/translate_arithmetic_immediate.c:307-330 srli_instruction *)
Definition srli_instruction : template := {|
  t_indicator := Ind.srli_instruction;
  t_code := BEGIN_TRANSLATION
    ++ [xorl ecx ecx; movl (PIC_PARAM 1) edx; shl 2 rdx; addq r15 rdx; movl (Mem rdx) eax;
        movl (PIC_PARAM 0) ecx; andl (Imm 0x1f) ecx; shr_cl rax; movl (PIC_PARAM 2) edx;
        shl 2 rdx; addq r15 rdx; movl eax (Mem rdx)]
    ++ RESET_ZERO_REGISTER
    ++ PROCEED_TO_NEXT_INSTRUCTION
    ++ END_INSTRUCTION;
  t_nparams := 3 |}.

(** src/vmm/translate_arithmetic_immediate.c:340-363 srai_instruction *)
Definition srai_instruction : template := {|
  t_indicator := Ind.srai_instruction;
  t_code := BEGIN_TRANSLATION
    ++ [xorl ecx ecx; movl (PIC_PARAM 1) edx; shl 2 rdx; addq r15 rdx; movl (Mem rdx) eax;
        movl (PIC_PARAM 0) ecx; andl (Imm 0x1f) ecx; sar_cl rax; movl (PIC_PARAM 2) edx;
        shl 2 rdx; addq r15 rdx; movl eax (Mem rdx)]
    ++ RESET_ZERO_REGISTER
    ++ PROCEED_TO_NEXT_INSTRUCTION
    ++ END_INSTRUCTION;
  t_nparams := 3 |}.

(** ** Templates: src/vmm/translate_multiplication_and_division.c *)

(** src/vmm/translate_multiplication_and_division.c:20-44 mul_instruction *)
Definition mul_instruction : template := {|
  t_indicator := Ind.mul_instruction;
  t_code := BEGIN_TRANSLATION
    ++ [movl (PIC_PARAM 0) esi; shl 0x2 rsi; addq r15 rsi; movl (Mem rsi) edx;
        movl (PIC_PARAM 1) esi; shl 0x2 rsi; addq r15 rsi; movl (Mem rsi) eax; imul rdx;
        movl (PIC_PARAM 2) edi; shl 0x2 rdi; addq r15 rdi; movl eax (Mem rdi)]
    ++ RESET_ZERO_REGISTER
    ++ PROCEED_TO_NEXT_INSTRUCTION
    ++ END_INSTRUCTION;
  t_nparams := 3 |}.

(** src/vmm/translate_multiplication_and_division.c:64-88 mulh_instruction *)
Definition mulh_instruction : template := {|
  t_indicator := Ind.mulh_instruction;
  t_code := BEGIN_TRANSLATION
    ++ [movl (PIC_PARAM 0) esi; shl 0x2 rsi; addq r15 rsi; movl (Mem rsi) edx;
        movl (PIC_PARAM 1) esi; shl 0x2 rsi; addq r15 rsi; movl (Mem rsi) eax; imul rdx;
        movl (PIC_PARAM 2) edi; shl 0x2 rdi; addq r15 rdi; movl edx (Mem rdi)]
    ++ RESET_ZERO_REGISTER
    ++ PROCEED_TO_NEXT_INSTRUCTION
    ++ END_INSTRUCTION;
  t_nparams := 3 |}.

(** src/vmm/translate_multiplication_and_division.c:107-131 mulhu_instruction *)
Definition mulhu_instruction : template := {|
  t_indicator := Ind.mulhu_instruction;
  t_code := BEGIN_TRANSLATION
    ++ [movl (PIC_PARAM 0) esi; shl 0x2 rsi; addq r15 rsi; movl (Mem rsi) edx;
        movl (PIC_PARAM 1) esi; shl 0x2 rsi; addq r15 rsi; movl (Mem rsi) eax; mul rdx;
        movl (PIC_PARAM 2) edi; shl 0x2 rdi; addq r15 rdi; movl edx (Mem rdi)]
    ++ RESET_ZERO_REGISTER
    ++ PROCEED_TO_NEXT_INSTRUCTION
    ++ END_INSTRUCTION;
  t_nparams := 3 |}.

(** src/vmm/translate_multiplication_and_division.c:150-176 mulhsu_instruction *)
Definition mulhsu_instruction : template := {|
  t_indicator := Ind.mulhsu_instruction;
  t_code := BEGIN_TRANSLATION
    ++ [movl (PIC_PARAM 0) esi; shl 0x2 rsi; addq r15 rsi; movl (Mem rsi) eax;
        movsxd rax rax; movl (PIC_PARAM 1) esi; shl 0x2 rsi; addq r15 rsi;
        movl (Mem rsi) edx; imulq rdx; shrq 32 rax; movl (PIC_PARAM 2) edi; shl 0x2 rdi;
        addq r15 rdi; movl eax (Mem rdi)]
    ++ RESET_ZERO_REGISTER
    ++ PROCEED_TO_NEXT_INSTRUCTION
    ++ END_INSTRUCTION;
  t_nparams := 3 |}.

(** src/vmm/translate_multiplication_and_division.c:203-234 div_instruction *)
Definition div_instruction : template := {|
  t_indicator := Ind.div_instruction;
  t_code := BEGIN_TRANSLATION
    ++ [movl (PIC_PARAM 0) esi; shl 0x2 rsi; addq r15 rsi; movl (Mem rsi) eax;
        movsxd rax rdx; shrq 32 rdx; movl (PIC_PARAM 1) esi; shl 0x2 rsi; addq r15 rsi;
        movl (Mem rsi) ebx; movl ebx r8d; cmpl (Imm 0x0) r8d; jcc CC_ne 1;
        movl (Imm 0xffffffff) eax; jmp 2; label 1; idiv rbx; label 2;
        movl (PIC_PARAM 2) edi; shl 0x2 rdi; addq r15 rdi; movl eax (Mem rdi)]
    ++ RESET_ZERO_REGISTER
    ++ PROCEED_TO_NEXT_INSTRUCTION
    ++ END_INSTRUCTION;
  t_nparams := 3 |}.

(** src/vmm/translate_multiplication_and_division.c:253-279 rem_instruction *)
Definition rem_instruction : template := {|
  t_indicator := Ind.rem_instruction;
  t_code := BEGIN_TRANSLATION
    ++ [movl (PIC_PARAM 0) esi; shl 0x2 rsi; addq r15 rsi; movl (Mem rsi) eax;
        movsxd rax rdx; shrq 32 rdx; movl (PIC_PARAM 1) esi; shl 0x2 rsi; addq r15 rsi;
        movl (Mem rsi) ebx; idiv rbx; movl (PIC_PARAM 2) edi; shl 0x2 rdi; addq r15 rdi;
        movl edx (Mem rdi)]
    ++ RESET_ZERO_REGISTER
    ++ PROCEED_TO_NEXT_INSTRUCTION
    ++ END_INSTRUCTION;
  t_nparams := 3 |}.

(** src/vmm/translate_multiplication_and_division.c:298-328 divu_instruction *)
Definition divu_instruction : template := {|
  t_indicator := Ind.divu_instruction;
  t_code := BEGIN_TRANSLATION
    ++ [movl (PIC_PARAM 0) esi; shl 0x2 rsi; addq r15 rsi; movl (Mem rsi) eax;
        xorl edx edx; movl (PIC_PARAM 1) esi; shl 0x2 rsi; addq r15 rsi;
        movl (Mem rsi) ebx; movl ebx r8d; cmpl (Imm 0x0) r8d; jcc CC_ne 1;
        movl (Imm 0xffffffff) eax; jmp 2; label 1; div rbx; label 2;
        movl (PIC_PARAM 2) edi; shl 0x2 rdi; addq r15 rdi; movl eax (Mem rdi)]
    ++ RESET_ZERO_REGISTER
    ++ PROCEED_TO_NEXT_INSTRUCTION
    ++ END_INSTRUCTION;
  t_nparams := 3 |}.

(** src/vmm/translate_multiplication_and_division.c:347-372 remu_instruction *)
Definition remu_instruction : template := {|
  t_indicator := Ind.remu_instruction;
  t_code := BEGIN_TRANSLATION
    ++ [movl (PIC_PARAM 0) esi; shl 0x2 rsi; addq r15 rsi; movl (Mem rsi) eax;
        xorl edx edx; movl (PIC_PARAM 1) esi; shl 0x2 rsi; addq r15 rsi;
        movl (Mem rsi) ebx; div rbx; movl (PIC_PARAM 2) edi; shl 0x2 rdi; addq r15 rdi;
        movl edx (Mem rdi)]
    ++ RESET_ZERO_REGISTER
    ++ PROCEED_TO_NEXT_INSTRUCTION
    ++ END_INSTRUCTION;
  t_nparams := 3 |}.

Section Translators.
Context `{Assembler}.

(** ** Translators *)

(** src/vmm/translate_arithmetic.c:8-48 riscv_add_translator *)
Definition riscv_add_translator (dec : decoding) (instruction : Z) : translator :=
  translate add_instruction [rs1_index dec; rs2_index dec; rd_index dec] advance.

(** src/vmm/translate_arithmetic.c:50-90 riscv_sub_translator *)
Definition riscv_sub_translator (dec : decoding) (instruction : Z) : translator :=
  translate sub_instruction [rs1_index dec; rs2_index dec; rd_index dec] advance.

(** src/vmm/translate_arithmetic.c:105-145 riscv_and_translator *)
Definition riscv_and_translator (dec : decoding) (instruction : Z) : translator :=
  translate and_instruction [rs1_index dec; rs2_index dec; rd_index dec] advance.

(** src/vmm/translate_arithmetic.c:147-187 riscv_or_translator *)
Definition riscv_or_translator (dec : decoding) (instruction : Z) : translator :=
  translate or_instruction [rs1_index dec; rs2_index dec; rd_index dec] advance.

(** src/vmm/translate_arithmetic.c:189-229 riscv_xor_translator *)
Definition riscv_xor_translator (dec : decoding) (instruction : Z) : translator :=
  translate xor_instruction [rs1_index dec; rs2_index dec; rd_index dec] advance.

(** src/vmm/translate_arithmetic.c:231-274 riscv_slt_translator *)
Definition riscv_slt_translator (dec : decoding) (instruction : Z) : translator :=
  translate slt_instruction [rs1_index dec; rs2_index dec; rd_index dec] advance.

(** src/vmm/translate_arithmetic.c:276-319 riscv_sltu_translator *)
Definition riscv_sltu_translator (dec : decoding) (instruction : Z) : translator :=
  translate sltu_instruction [rs1_index dec; rs2_index dec; rd_index dec] advance.

(** src/vmm/translate_arithmetic.c:321-362 riscv_sll_translator *)
Definition riscv_sll_translator (dec : decoding) (instruction : Z) : translator :=
  translate sll_instruction [rs1_index dec; rs2_index dec; rd_index dec] advance.

(** src/vmm/translate_arithmetic.c:367-408 riscv_srl_translator *)
Definition riscv_srl_translator (dec : decoding) (instruction : Z) : translator :=
  translate srl_instruction [rs1_index dec; rs2_index dec; rd_index dec] advance.

(** src/vmm/translate_arithmetic.c:410-451 riscv_sra_translator *)
Definition riscv_sra_translator (dec : decoding) (instruction : Z) : translator :=
  translate sra_instruction [rs1_index dec; rs2_index dec; rd_index dec] advance.

(** src/vmm/translate_arithmetic.c:92-102 riscv_add_sub_translator *)
Definition riscv_add_sub_translator (dec : decoding) (instruction : Z) : translator := fun b h =>
  if funct7 dec =? 0x20 then riscv_sub_translator dec instruction b h
  else if truthy (funct7 dec) then None
  else riscv_add_translator dec instruction b h.

(** src/vmm/translate_arithmetic.c:453-463 riscv_srl_sra_translator *)
Definition riscv_srl_sra_translator (dec : decoding) (instruction : Z) : translator := fun b h =>
  if funct7 dec =? 0x20 then riscv_sra_translator dec instruction b h
  else if truthy (funct7 dec) then None
  else riscv_srl_translator dec instruction b h.

(** src/vmm/translate_arithmetic.c:482-494 arithmetic_constructor *)
Definition arithmetic_handlers (funct3 : Z) : option (decoding -> Z -> translator) :=
  match funct3 with
  | 0x0 => Some riscv_add_sub_translator
  | 0x7 => Some riscv_and_translator
  | 0x6 => Some riscv_or_translator
  | 0x4 => Some riscv_xor_translator
  | 0x2 => Some riscv_slt_translator
  | 0x3 => Some riscv_sltu_translator
  | 0x1 => Some riscv_sll_translator
  | 0x5 => Some riscv_srl_sra_translator
  | _ => None
  end.

(** src/vmm/translate_arithmetic.c:466-479 riscv_arithmetic_instructions_class0_translation_entry *)
Definition riscv_arithmetic_instructions_class0_translation_entry (dec : decoding)
    (instruction : Z) : translator := fun b h =>
  handler ← arithmetic_handlers (funct3 dec);
  handler dec instruction b h.

(** src/vmm/translate_arithmetic_immediate.c:10-48 riscv_addi_translator *)
Definition riscv_addi_translator (dec : decoding) (instruction : Z) : translator :=
  let signed_offset := sign_extend32 (imm dec) 11 in
  translate addi_instruction [signed_offset; rs1_index dec; rd_index dec] advance.

(** src/vmm/translate_arithmetic_immediate.c:50-90 riscv_stli_translator *)
Definition riscv_stli_translator (dec : decoding) (instruction : Z) : translator :=
  let signed_imm := sign_extend32 (imm dec) 11 in
  translate stli_instruction [signed_imm; rs1_index dec; rd_index dec] advance.

(** src/vmm/translate_arithmetic_immediate.c:92-132 riscv_stliu_translator *)
Definition riscv_stliu_translator (dec : decoding) (instruction : Z) : translator :=
  let signed_imm := sign_extend32 (imm dec) 11 in
  translate stliu_instruction [signed_imm; rs1_index dec; rd_index dec] advance.

(** src/vmm/translate_arithmetic_immediate.c:134-173 riscv_xori_translator *)
Definition riscv_xori_translator (dec : decoding) (instruction : Z) : translator :=
  let signed_imm := sign_extend32 (imm dec) 11 in
  translate xori_instruction [signed_imm; rs1_index dec; rd_index dec] advance.

(** src/vmm/translate_arithmetic_immediate.c:175-214 riscv_ori_translator *)
Definition riscv_ori_translator (dec : decoding) (instruction : Z) : translator :=
  let signed_imm := sign_extend32 (imm dec) 11 in
  translate ori_instruction [signed_imm; rs1_index dec; rd_index dec] advance.

(** src/vmm/translate_arithmetic_immediate.c:216-255 riscv_andi_translator *)
Definition riscv_andi_translator (dec : decoding) (instruction : Z) : translator :=
  let signed_imm := sign_extend32 (imm dec) 11 in
  translate andi_instruction [signed_imm; rs1_index dec; rd_index dec] advance.

(** src/vmm/translate_arithmetic_immediate.c:257-296 riscv_slli_translator *)
Definition riscv_slli_translator (dec : decoding) (instruction : Z) : translator :=
  translate slli_instruction [imm dec; rs1_index dec; rd_index dec] advance.

(** src/vmm/translate_arithmetic_immediate.c:298-373 riscv_right_shift_translator *)
Definition riscv_right_shift_translator (dec : decoding) (instruction : Z) : translator :=
  if negb (truthy (Z.land (imm dec) 0x400)) then
    translate srli_instruction [imm dec; rs1_index dec; rd_index dec] advance
  else
    translate srai_instruction [imm dec; rs1_index dec; rd_index dec] advance.

(** src/vmm/translate_arithmetic_immediate.c:387-399 arithmetic_immediate_constructor *)
Definition arithmetic_immediate_handlers (funct3 : Z) : option (decoding -> Z -> translator) :=
  match funct3 with
  | 0x0 => Some riscv_addi_translator
  | 0x1 => Some riscv_slli_translator
  | 0x2 => Some riscv_stli_translator
  | 0x3 => Some riscv_stliu_translator
  | 0x4 => Some riscv_xori_translator
  | 0x5 => Some riscv_right_shift_translator
  | 0x6 => Some riscv_ori_translator
  | 0x7 => Some riscv_andi_translator
  | _ => None
  end.

(** src/vmm/translate_arithmetic_immediate.c:377-385 riscv_arithmetic_immediate_instructions_translation_entry *)
Definition riscv_arithmetic_immediate_instructions_translation_entry (instruction : Z) :
    translator := fun b h =>
  dec ← instruction_decoding_per_type instruction ENCODING_TYPE_I;
  handler ← arithmetic_immediate_handlers (funct3 dec);
  handler dec instruction b h.

(** src/vmm/translate_multiplication_and_division.c:12-53 riscv_mul_translator *)
Definition riscv_mul_translator (dec : decoding) (instruction : Z) : translator :=
  translate mul_instruction [rs1_index dec; rs2_index dec; rd_index dec] advance.

(** src/vmm/translate_multiplication_and_division.c:56-97 riscv_mulh_translator *)
Definition riscv_mulh_translator (dec : decoding) (instruction : Z) : translator :=
  translate mulh_instruction [rs1_index dec; rs2_index dec; rd_index dec] advance.

(** src/vmm/translate_multiplication_and_division.c:99-140 riscv_mulhu_translator *)
Definition riscv_mulhu_translator (dec : decoding) (instruction : Z) : translator :=
  translate mulhu_instruction [rs1_index dec; rs2_index dec; rd_index dec] advance.

(** src/vmm/translate_multiplication_and_division.c:142-185 riscv_mulhsu_translator *)
Definition riscv_mulhsu_translator (dec : decoding) (instruction : Z) : translator :=
  translate mulhsu_instruction [rs1_index dec; rs2_index dec; rd_index dec] advance.

(** src/vmm/translate_multiplication_and_division.c:195-243 riscv_div_translator *)
Definition riscv_div_translator (dec : decoding) (instruction : Z) : translator :=
  translate div_instruction [rs1_index dec; rs2_index dec; rd_index dec] advance.

(** src/vmm/translate_multiplication_and_division.c:245-288 riscv_rem_translator *)
Definition riscv_rem_translator (dec : decoding) (instruction : Z) : translator :=
  translate rem_instruction [rs1_index dec; rs2_index dec; rd_index dec] advance.

(** src/vmm/translate_multiplication_and_division.c:290-337 riscv_divu_translator *)
Definition riscv_divu_translator (dec : decoding) (instruction : Z) : translator :=
  translate divu_instruction [rs1_index dec; rs2_index dec; rd_index dec] advance.

(** src/vmm/translate_multiplication_and_division.c:339-381 riscv_remu_translator *)
Definition riscv_remu_translator (dec : decoding) (instruction : Z) : translator :=
  translate remu_instruction [rs1_index dec; rs2_index dec; rd_index dec] advance.

(** src/vmm/translate_multiplication_and_division.c:394-406 mul_and_div_constructor *)
Definition mul_and_div_handlers (funct3 : Z) : option (decoding -> Z -> translator) :=
  match funct3 with
  | 0x0 => Some riscv_mul_translator
  | 0x1 => Some riscv_mulh_translator
  | 0x3 => Some riscv_mulhu_translator
  | 0x2 => Some riscv_mulhsu_translator
  | 0x4 => Some riscv_div_translator
  | 0x5 => Some riscv_divu_translator
  | 0x6 => Some riscv_rem_translator
  | 0x7 => Some riscv_remu_translator
  | _ => None
  end.

(** src/vmm/translate_multiplication_and_division.c:383-390 riscv_mul_div_instructions_translation_entry *)
Definition riscv_mul_div_instructions_translation_entry (dec : decoding) (instruction : Z) :
    translator := fun b h =>
  handler ← mul_and_div_handlers (funct3 dec);
  handler dec instruction b h.

(** src/vmm/translation.c:290-307 riscv_arithmetic_instructions_translation_entry *)
Definition riscv_arithmetic_instructions_translation_entry (instruction : Z) : translator :=
  fun b h =>
  dec ← instruction_decoding_per_type instruction ENCODING_TYPE_R;
  if negb (truthy (Z.land (funct7 dec) 0x3)) then
    riscv_arithmetic_instructions_class0_translation_entry dec instruction b h
  else if negb (Z.land (funct7 dec) 0x3 =? 0x1) then None
  else riscv_mul_div_instructions_translation_entry dec instruction b h.
End Translators.
