(* ===== verification/TransControl.v ===== *)
(** * Templates and translators of LUI, AUIPC, the jumps and the branches

    Models the translators of src/vmm/translation.c (lui, auipc),
    src/vmm/translate_unconditional_jump_intrs.c and src/vmm/translate_branch.c. A
    jump or branch ends its translation unit: the block leaves to the vmm with the
    pc set to the target. *)

From S2P Require Import Prelude X86 Hart Decode.
Local Open Scope Z_scope.

(** ** Templates *)

(** src/vmm/translation.c:94-111 lui_instruction *)
Definition lui_instruction : template := {|
  t_indicator := Ind.lui_instruction;
  t_code := BEGIN_TRANSLATION
    ++ [movl (PIC_PARAM 0) eax; movl (PIC_PARAM 1) edx; shl 12 rax; shl 2 rdx;
        addq r15 rdx; movl eax (Mem rdx)]
    ++ RESET_ZERO_REGISTER
    ++ PROCEED_TO_NEXT_INSTRUCTION
    ++ END_INSTRUCTION;
  t_nparams := 2 |}.

(** src/vmm/translation.c:134-153 auipc_instruction *)
Definition auipc_instruction : template := {|
  t_indicator := Ind.auipc_instruction;
  t_code := BEGIN_TRANSLATION
    ++ [movl (PIC_PARAM 1) edx; shl 2 rdx; addq r15 rdx; movl (PIC_PARAM 0) eax;
        shl 12 rax; movl (PIC_PARAM 2) ecx; addl ecx eax; movl eax (Mem rdx)]
    ++ RESET_ZERO_REGISTER
    ++ PROCEED_TO_NEXT_INSTRUCTION
    ++ END_INSTRUCTION;
  t_nparams := 3 |}.

(** src/vmm/translate_unconditional_jump_intrs.c:21-39 jal_instruction_without_target *)
Definition jal_instruction_without_target : template := {|
  t_indicator := Ind.jal_instruction_without_target;
  t_code := BEGIN_TRANSLATION
    ++ [movl (PIC_PARAM 0) edx; shl 2 rdx; addq r15 rdx; movl (PIC_PARAM 1) eax;
        movl eax (Mem rdx); movl (PIC_PARAM 2) eax; movl eax (Mem r14)]
    ++ RESET_ZERO_REGISTER
    ++ TRAP_TO_VMM;
  t_nparams := 3 |}.

(** src/vmm/translate_unconditional_jump_intrs.c:63-87 jalr_instruction *)
Definition jalr_instruction : template := {|
  t_indicator := Ind.jalr_instruction;
  t_code := BEGIN_TRANSLATION
    ++ [movl (PIC_PARAM 2) edx; shl 2 rdx; addq r15 rdx; movl (Mem rdx) ebx;
        movl (PIC_PARAM 3) eax; addl eax ebx; btr 0x0 rbx; movl (PIC_PARAM 0) edx;
        shl 2 rdx; addq r15 rdx; movl (PIC_PARAM 1) eax; movl eax (Mem rdx);
        movl ebx (Mem r14)]
    ++ RESET_ZERO_REGISTER
    ++ TRAP_TO_VMM;
  t_nparams := 4 |}.

(** src/vmm/translate_branch.c:18-42 beq_instruction *)
Definition beq_instruction : template := {|
  t_indicator := Ind.beq_instruction;
  t_code := BEGIN_TRANSLATION
    ++ [movl (PIC_PARAM 0) edx; shl 2 rdx; addq r15 rdx; movl (Mem rdx) esi;
        movl (PIC_PARAM 1) edx; shl 2 rdx; addq r15 rdx; movl (Mem rdx) edi;
        movl (Mem r14) edx; addl (Imm 0x4) edx; cmpl esi edi; jcc CC_ne 1;
        movl (PIC_PARAM 2) edx; label 1; movl edx (Mem r14)]
    ++ TRAP_TO_VMM;
  t_nparams := 3 |}.

(** src/vmm/translate_branch.c:62-86 bne_instruction *)
Definition bne_instruction : template := {|
  t_indicator := Ind.bne_instruction;
  t_code := BEGIN_TRANSLATION
    ++ [movl (PIC_PARAM 0) edx; shl 2 rdx; addq r15 rdx; movl (Mem rdx) esi;
        movl (PIC_PARAM 1) edx; shl 2 rdx; addq r15 rdx; movl (Mem rdx) edi;
        movl (Mem r14) edx; addl (Imm 0x4) edx; cmpl esi edi; jcc CC_e 1;
        movl (PIC_PARAM 2) edx; label 1; movl edx (Mem r14)]
    ++ TRAP_TO_VMM;
  t_nparams := 3 |}.

(** src/vmm/translate_branch.c:107-131 blt_instruction *)
Definition blt_instruction : template := {|
  t_indicator := Ind.blt_instruction;
  t_code := BEGIN_TRANSLATION
    ++ [movl (PIC_PARAM 0) edx; shl 2 rdx; addq r15 rdx; movl (Mem rdx) esi;
        movl (PIC_PARAM 1) edx; shl 2 rdx; addq r15 rdx; movl (Mem rdx) edi;
        movl (Mem r14) edx; addl (Imm 0x4) edx; cmpl edi esi; jcc CC_ge 1;
        movl (PIC_PARAM 2) edx; label 1; movl edx (Mem r14)]
    ++ TRAP_TO_VMM;
  t_nparams := 3 |}.

(** src/vmm/translate_branch.c:151-175 bltu_instruction *)
Definition bltu_instruction : template := {|
  t_indicator := Ind.bltu_instruction;
  t_code := BEGIN_TRANSLATION
    ++ [movl (PIC_PARAM 0) edx; shl 2 rdx; addq r15 rdx; movl (Mem rdx) esi;
        movl (PIC_PARAM 1) edx; shl 2 rdx; addq r15 rdx; movl (Mem rdx) edi;
        movl (Mem r14) edx; addl (Imm 0x4) edx; cmpl edi esi; jcc CC_ae 1;
        movl (PIC_PARAM 2) edx; label 1; movl edx (Mem r14)]
    ++ TRAP_TO_VMM;
  t_nparams := 3 |}.

(** src/vmm/translate_branch.c:195-219 bge_instruction *)
Definition bge_instruction : template := {|
  t_indicator := Ind.bge_instruction;
  t_code := BEGIN_TRANSLATION
    ++ [movl (PIC_PARAM 0) edx; shl 2 rdx; addq r15 rdx; movl (Mem rdx) esi;
        movl (PIC_PARAM 1) edx; shl 2 rdx; addq r15 rdx; movl (Mem rdx) edi;
        movl (Mem r14) edx; addl (Imm 0x4) edx; cmpl edi esi; jcc CC_l 1;
        movl (PIC_PARAM 2) edx; label 1; movl edx (Mem r14)]
    ++ TRAP_TO_VMM;
  t_nparams := 3 |}.

(** src/vmm/translate_branch.c:239-263 bgeu_instruction *)
Definition bgeu_instruction : template := {|
  t_indicator := Ind.bgeu_instruction;
  t_code := BEGIN_TRANSLATION
    ++ [movl (PIC_PARAM 0) edx; shl 2 rdx; addq r15 rdx; movl (Mem rdx) esi;
        movl (PIC_PARAM 1) edx; shl 2 rdx; addq r15 rdx; movl (Mem rdx) edi;
        movl (Mem r14) edx; addl (Imm 0x4) edx; cmpl edi esi; jcc CC_b 1;
        movl (PIC_PARAM 2) edx; label 1; movl edx (Mem r14)]
    ++ TRAP_TO_VMM;
  t_nparams := 3 |}.

Section Translators.
Context `{Assembler}.

(** ** Translators *)

(** src/vmm/translation.c:84-123 riscv_lui_translator *)
Definition riscv_lui_translator (instruction : Z) : translator := fun b h =>
  dec ← instruction_decoding_per_type instruction ENCODING_TYPE_U;
  translate lui_instruction [imm dec; rd_index dec] advance b h.

(** src/vmm/translation.c:125-163 riscv_auipc_translator *)
Definition riscv_auipc_translator (instruction : Z) : translator := fun b h =>
  dec ← instruction_decoding_per_type instruction ENCODING_TYPE_U;
  translate auipc_instruction [imm dec; rd_index dec; next_instruction_to_fetch b] advance b h.

(** src/vmm/translate_unconditional_jump_intrs.c:9-51 riscv_jal_translator *)
Definition riscv_jal_translator (instruction : Z) : translator := fun b h =>
  dec ← instruction_decoding_per_type instruction ENCODING_TYPE_UJ;
  let jump_target :=
    next_instruction_to_fetch b + sign_extend32 (u32 (Z.shiftl (imm dec) 1)) 20 in
  translate jal_instruction_without_target
    [rd_index dec; u32 (next_instruction_to_fetch b + 4); jump_target] stop b h.

(** src/vmm/translate_unconditional_jump_intrs.c:53-97 riscv_jalr_translator *)
Definition riscv_jalr_translator (instruction : Z) : translator := fun b h =>
  dec ← instruction_decoding_per_type instruction ENCODING_TYPE_I;
  let signed_offset := sign_extend32 (imm dec) 11 in
  translate jalr_instruction
    [rd_index dec; u32 (next_instruction_to_fetch b + 4); rs1_index dec; signed_offset] stop b h.

(** src/vmm/translate_branch.c:9-51 riscv_beq_translator *)
Definition riscv_beq_translator (dec : decoding) (instruction : Z) : translator := fun b =>
  let branch_taken_target :=
    next_instruction_to_fetch b + sign_extend32 (u32 (Z.shiftl (imm dec) 1)) 12 in
  translate beq_instruction [rs1_index dec; rs2_index dec; branch_taken_target] stop b.

(** src/vmm/translate_branch.c:53-95 riscv_bne_translator *)
Definition riscv_bne_translator (dec : decoding) (instruction : Z) : translator := fun b =>
  let branch_taken_target :=
    next_instruction_to_fetch b + sign_extend32 (u32 (Z.shiftl (imm dec) 1)) 12 in
  translate bne_instruction [rs1_index dec; rs2_index dec; branch_taken_target] stop b.

(** src/vmm/translate_branch.c:98-140 riscv_blt_translator *)
Definition riscv_blt_translator (dec : decoding) (instruction : Z) : translator := fun b =>
  let branch_taken_target :=
    next_instruction_to_fetch b + sign_extend32 (u32 (Z.shiftl (imm dec) 1)) 12 in
  translate blt_instruction [rs1_index dec; rs2_index dec; branch_taken_target] stop b.

(** src/vmm/translate_branch.c:142-184 riscv_bltu_translator *)
Definition riscv_bltu_translator (dec : decoding) (instruction : Z) : translator := fun b =>
  let branch_taken_target :=
    next_instruction_to_fetch b + sign_extend32 (u32 (Z.shiftl (imm dec) 1)) 12 in
  translate bltu_instruction [rs1_index dec; rs2_index dec; branch_taken_target] stop b.

(** src/vmm/translate_branch.c:186-228 riscv_bge_translator *)
Definition riscv_bge_translator (dec : decoding) (instruction : Z) : translator := fun b =>
  let branch_taken_target :=
    next_instruction_to_fetch b + sign_extend32 (u32 (Z.shiftl (imm dec) 1)) 12 in
  translate bge_instruction [rs1_index dec; rs2_index dec; branch_taken_target] stop b.

(** src/vmm/translate_branch.c:230-272 riscv_bgeu_translator *)
Definition riscv_bgeu_translator (dec : decoding) (instruction : Z) : translator := fun b =>
  let branch_taken_target :=
    next_instruction_to_fetch b + sign_extend32 (u32 (Z.shiftl (imm dec) 1)) 12 in
  translate bgeu_instruction [rs1_index dec; rs2_index dec; branch_taken_target] stop b.

(** src/vmm/translate_branch.c:287-297 branch_constructor *)
Definition branch_handlers (funct3 : Z) : option (decoding -> Z -> translator) :=
  match funct3 with
  | 0x0 => Some riscv_beq_translator
  | 0x1 => Some riscv_bne_translator
  | 0x4 => Some riscv_blt_translator
  | 0x6 => Some riscv_bltu_translator
  | 0x5 => Some riscv_bge_translator
  | 0x7 => Some riscv_bgeu_translator
  | _ => None
  end.

(** src/vmm/translate_branch.c:276-284 riscv_branch_instructions_translation_entry *)
Definition riscv_branch_instructions_translation_entry (instruction : Z) : translator := fun b h =>
  dec ← instruction_decoding_per_type instruction ENCODING_TYPE_B;
  handler ← branch_handlers (funct3 dec);
  handler dec instruction b h.
End Translators.
