(* ===== verification/TransMem.v ===== *)
(** * Templates and translators of the loads, the stores and the atomics

    Models the translators of src/vmm/translate_memory_load.c,
    src/vmm/translate_memory_store.c and src/vmm/translate_amo.c. Their templates
    call [mmu_read*], [mmu_write*] and [amo_instruction_slowpath], which are modelled
    in Mmu.v and Amo.v. *)

From S2P Require Import Prelude X86 Hart Decode.
Local Open Scope Z_scope.

(** ** Templates *)

(** src/vmm/translate_memory_load.c:20-47 lb_instruction *)
Definition lb_instruction : template := {|
  t_indicator := Ind.lb_instruction;
  t_code := BEGIN_TRANSLATION
    ++ [movl (PIC_PARAM 1) edx; shl 2 rdx; addq r15 rdx; movl (Mem rdx) esi;
        movl (PIC_PARAM 0) edx; addl edx esi; movq r12 rdi; movq_sym Sym.mmu_read8 rax]
    ++ SAVE_GUEST_CONTEXT_SWITCH_REGS
    ++ [call rax]
    ++ RESTORE_GUEST_CONTEXT_SWITCH_REGS
    ++ [movl (PIC_PARAM 2) edx; shl 2 rdx; addq r15 rdx; movsbl rax rax;
        movl eax (Mem rdx)]
    ++ RESET_ZERO_REGISTER
    ++ PROCEED_TO_NEXT_INSTRUCTION
    ++ END_INSTRUCTION;
  t_nparams := 3 |}.

(** src/vmm/translate_memory_load.c:68-95 lbu_instruction *)
Definition lbu_instruction : template := {|
  t_indicator := Ind.lbu_instruction;
  t_code := BEGIN_TRANSLATION
    ++ [movl (PIC_PARAM 1) edx; shl 2 rdx; addq r15 rdx; movl (Mem rdx) esi;
        movl (PIC_PARAM 0) edx; addl edx esi; movq r12 rdi; movq_sym Sym.mmu_read8 rax]
    ++ SAVE_GUEST_CONTEXT_SWITCH_REGS
    ++ [call rax]
    ++ RESTORE_GUEST_CONTEXT_SWITCH_REGS
    ++ [movl (PIC_PARAM 2) edx; shl 2 rdx; addq r15 rdx; movzbl rax rax;
        movl eax (Mem rdx)]
    ++ RESET_ZERO_REGISTER
    ++ PROCEED_TO_NEXT_INSTRUCTION
    ++ END_INSTRUCTION;
  t_nparams := 3 |}.

(** src/vmm/translate_memory_load.c:117-144 lh_instruction *)
Definition lh_instruction : template := {|
  t_indicator := Ind.lh_instruction;
  t_code := BEGIN_TRANSLATION
    ++ [movl (PIC_PARAM 1) edx; shl 2 rdx; addq r15 rdx; movl (Mem rdx) esi;
        movl (PIC_PARAM 0) edx; addl edx esi; movq r12 rdi; movq_sym Sym.mmu_read16 rax]
    ++ SAVE_GUEST_CONTEXT_SWITCH_REGS
    ++ [call rax]
    ++ RESTORE_GUEST_CONTEXT_SWITCH_REGS
    ++ [movl (PIC_PARAM 2) edx; shl 2 rdx; addq r15 rdx; movswl rax rax;
        movl eax (Mem rdx)]
    ++ RESET_ZERO_REGISTER
    ++ PROCEED_TO_NEXT_INSTRUCTION
    ++ END_INSTRUCTION;
  t_nparams := 3 |}.

(** src/vmm/translate_memory_load.c:165-192 lhu_instruction *)
Definition lhu_instruction : template := {|
  t_indicator := Ind.lhu_instruction;
  t_code := BEGIN_TRANSLATION
    ++ [movl (PIC_PARAM 1) edx; shl 2 rdx; addq r15 rdx; movl (Mem rdx) esi;
        movl (PIC_PARAM 0) edx; addl edx esi; movq r12 rdi; movq_sym Sym.mmu_read16 rax]
    ++ SAVE_GUEST_CONTEXT_SWITCH_REGS
    ++ [call rax]
    ++ RESTORE_GUEST_CONTEXT_SWITCH_REGS
    ++ [movl (PIC_PARAM 2) edx; shl 2 rdx; addq r15 rdx; movzwl rax rax;
        movl eax (Mem rdx)]
    ++ RESET_ZERO_REGISTER
    ++ PROCEED_TO_NEXT_INSTRUCTION
    ++ END_INSTRUCTION;
  t_nparams := 3 |}.

(** src/vmm/translate_memory_load.c:213-239 lw_instruction *)
Definition lw_instruction : template := {|
  t_indicator := Ind.lw_instruction;
  t_code := BEGIN_TRANSLATION
    ++ [movl (PIC_PARAM 1) edx; shl 2 rdx; addq r15 rdx; movl (Mem rdx) esi;
        movl (PIC_PARAM 0) edx; addl edx esi; movq r12 rdi; movq_sym Sym.mmu_read32 rax]
    ++ SAVE_GUEST_CONTEXT_SWITCH_REGS
    ++ [call rax]
    ++ RESTORE_GUEST_CONTEXT_SWITCH_REGS
    ++ [movl (PIC_PARAM 2) edx; shl 2 rdx; addq r15 rdx; movl eax (Mem rdx)]
    ++ RESET_ZERO_REGISTER
    ++ PROCEED_TO_NEXT_INSTRUCTION
    ++ END_INSTRUCTION;
  t_nparams := 3 |}.

(** src/vmm/translate_memory_store.c:19-45 sb_instruction *)
Definition sb_instruction : template := {|
  t_indicator := Ind.sb_instruction;
  t_code := BEGIN_TRANSLATION
    ++ [movl (PIC_PARAM 1) edx; shl 2 rdx; addq r15 rdx; movl (Mem rdx) esi;
        movl (PIC_PARAM 0) edx; addl edx esi; movl (PIC_PARAM 2) edx; shl 2 rdx;
        addq r15 rdx; movl (Mem rdx) edx; andl (Imm 0xff) edx; movq r12 rdi;
        movq_sym Sym.mmu_write8 rax]
    ++ SAVE_GUEST_CONTEXT_SWITCH_REGS
    ++ [call rax]
    ++ RESTORE_GUEST_CONTEXT_SWITCH_REGS
    ++ PROCEED_TO_NEXT_INSTRUCTION
    ++ END_INSTRUCTION;
  t_nparams := 3 |}.

(** src/vmm/translate_memory_store.c:65-91 sh_instruction *)
Definition sh_instruction : template := {|
  t_indicator := Ind.sh_instruction;
  t_code := BEGIN_TRANSLATION
    ++ [movl (PIC_PARAM 1) edx; shl 2 rdx; addq r15 rdx; movl (Mem rdx) esi;
        movl (PIC_PARAM 0) edx; addl edx esi; movl (PIC_PARAM 2) edx; shl 2 rdx;
        addq r15 rdx; movl (Mem rdx) edx; andl (Imm 0xffff) edx; movq r12 rdi;
        movq_sym Sym.mmu_write16 rax]
    ++ SAVE_GUEST_CONTEXT_SWITCH_REGS
    ++ [call rax]
    ++ RESTORE_GUEST_CONTEXT_SWITCH_REGS
    ++ PROCEED_TO_NEXT_INSTRUCTION
    ++ END_INSTRUCTION;
  t_nparams := 3 |}.

(** src/vmm/translate_memory_store.c:111-136 sw_instruction *)
Definition sw_instruction : template := {|
  t_indicator := Ind.sw_instruction;
  t_code := BEGIN_TRANSLATION
    ++ [movl (PIC_PARAM 1) edx; shl 2 rdx; addq r15 rdx; movl (Mem rdx) esi;
        movl (PIC_PARAM 0) edx; addl edx esi; movl (PIC_PARAM 2) edx; shl 2 rdx;
        addq r15 rdx; movl (Mem rdx) edx; movq r12 rdi; movq_sym Sym.mmu_write32 rax]
    ++ SAVE_GUEST_CONTEXT_SWITCH_REGS
    ++ [call rax]
    ++ RESTORE_GUEST_CONTEXT_SWITCH_REGS
    ++ PROCEED_TO_NEXT_INSTRUCTION
    ++ END_INSTRUCTION;
  t_nparams := 3 |}.

(** src/vmm/translate_amo.c:155-182 amo_instruction *)
Definition amo_instruction : template := {|
  t_indicator := Ind.amo_instruction;
  t_code := BEGIN_TRANSLATION
    ++ [movq r12 rdi; movl (PIC_PARAM 0) esi; movl (PIC_PARAM 1) edx;
        movl (PIC_PARAM 2) ecx; movl (PIC_PARAM 3) r8d;
        movq_sym Sym.amo_instruction_slowpath rax]
    ++ SAVE_GUEST_CONTEXT_SWITCH_REGS
    ++ [call rax]
    ++ RESTORE_GUEST_CONTEXT_SWITCH_REGS
    ++ RESET_ZERO_REGISTER
    ++ PROCEED_TO_NEXT_INSTRUCTION
    ++ END_INSTRUCTION;
  t_nparams := 4 |}.

Section Translators.
Context `{Assembler}.

(** ** Translators *)

(** src/vmm/translate_memory_load.c:10-56 riscv_lb_translator *)
Definition riscv_lb_translator (dec : decoding) (instruction : Z) : translator :=
  let signed_offset := sign_extend32 (imm dec) 11 in
  translate lb_instruction [signed_offset; rs1_index dec; rd_index dec] advance.

(** src/vmm/translate_memory_load.c:58-104 riscv_lbu_translator *)
Definition riscv_lbu_translator (dec : decoding) (instruction : Z) : translator :=
  let signed_offset := sign_extend32 (imm dec) 11 in
  translate lbu_instruction [signed_offset; rs1_index dec; rd_index dec] advance.

(** src/vmm/translate_memory_load.c:107-153 riscv_lh_translator *)
Definition riscv_lh_translator (dec : decoding) (instruction : Z) : translator :=
  let signed_offset := sign_extend32 (imm dec) 11 in
  translate lh_instruction [signed_offset; rs1_index dec; rd_index dec] advance.

(** src/vmm/translate_memory_load.c:155-201 riscv_lhu_translator *)
Definition riscv_lhu_translator (dec : decoding) (instruction : Z) : translator :=
  let signed_offset := sign_extend32 (imm dec) 11 in
  translate lhu_instruction [signed_offset; rs1_index dec; rd_index dec] advance.

(** src/vmm/translate_memory_load.c:203-248 riscv_lw_translator *)
Definition riscv_lw_translator (dec : decoding) (instruction : Z) : translator :=
  let signed_offset := sign_extend32 (imm dec) 11 in
  translate lw_instruction [signed_offset; rs1_index dec; rd_index dec] advance.

(** src/vmm/translate_memory_load.c:263-272 memory_load_constructor *)
Definition memory_load_handlers (funct3 : Z) : option (decoding -> Z -> translator) :=
  match funct3 with
  | 2 => Some riscv_lw_translator
  | 1 => Some riscv_lh_translator
  | 5 => Some riscv_lhu_translator
  | 0 => Some riscv_lb_translator
  | 4 => Some riscv_lbu_translator
  | _ => None
  end.

(** src/vmm/translate_memory_load.c:252-260 riscv_memory_load_instructions_translation_entry *)
Definition riscv_memory_load_instructions_translation_entry (instruction : Z) : translator :=
  fun b h =>
  dec ← instruction_decoding_per_type instruction ENCODING_TYPE_I;
  handler ← memory_load_handlers (funct3 dec);
  handler dec instruction b h.

(** src/vmm/translate_memory_store.c:11-54 riscv_sb_translator *)
Definition riscv_sb_translator (dec : decoding) (instruction : Z) : translator :=
  let signed_offset := sign_extend32 (imm dec) 11 in
  translate sb_instruction [signed_offset; rs1_index dec; rs2_index dec] advance.

(** src/vmm/translate_memory_store.c:57-100 riscv_sh_translator *)
Definition riscv_sh_translator (dec : decoding) (instruction : Z) : translator :=
  let signed_offset := sign_extend32 (imm dec) 11 in
  translate sh_instruction [signed_offset; rs1_index dec; rs2_index dec] advance.

(** src/vmm/translate_memory_store.c:103-145 riscv_sw_translator *)
Definition riscv_sw_translator (dec : decoding) (instruction : Z) : translator :=
  let signed_offset := sign_extend32 (imm dec) 11 in
  translate sw_instruction [signed_offset; rs1_index dec; rs2_index dec] advance.

(** src/vmm/translate_memory_store.c:160-167 memory_store_constructor *)
Definition memory_store_handlers (funct3 : Z) : option (decoding -> Z -> translator) :=
  match funct3 with
  | 0 => Some riscv_sb_translator
  | 1 => Some riscv_sh_translator
  | 2 => Some riscv_sw_translator
  | _ => None
  end.

(** src/vmm/translate_memory_store.c:149-157 riscv_memory_store_instructions_translation_entry *)
Definition riscv_memory_store_instructions_translation_entry (instruction : Z) : translator :=
  fun b h =>
  dec ← instruction_decoding_per_type instruction ENCODING_TYPE_S;
  handler ← memory_store_handlers (funct3 dec);
  handler dec instruction b h.

(** src/vmm/translate_amo.c:148-192 riscv_amo_translator *)
Definition riscv_amo_translator (dec : decoding) (instruction : Z) : translator :=
  translate amo_instruction
    [rs1_index dec; rs2_index dec; rd_index dec; Z.shiftr (funct7 dec) 2] advance.

(** src/vmm/translate_amo.c:211-223 amo_constructor *)
Definition amo_handlers (funct5 : Z) : option (decoding -> Z -> translator) :=
  match funct5 with
  | 0x0 | 0x1 | 0x2 | 0x3 | 0x4 | 0x8 | 0xc => Some riscv_amo_translator
  | _ => None
  end.

(** src/vmm/translate_amo.c:196-208 riscv_amo_instructions_translation_entry *)
Definition riscv_amo_instructions_translation_entry (instruction : Z) : translator := fun b h =>
  dec ← instruction_decoding_per_type instruction ENCODING_TYPE_R;
  let funct5 := u8 (Z.shiftr (funct7 dec) 2) in
  handler ← amo_handlers funct5;
  handler dec instruction b h.
End Translators.
