(* ===== verification/TransSys.v ===== *)
(** * Templates and translators of FENCE, SYSTEM and the csr instructions

    Models the translators of src/vmm/translate_fence.c,
    src/vmm/translate_privileged_instr.c and src/vmm/csr_representation.c, and the
    table of all translators ([translation_init] of src/vmm/translation.c). The
    callbacks the templates call are modelled in Trap.v, Interrupt.v, Calls.v and
    Csr.v. *)

From S2P Require Import Prelude X86 Hart Decode TransArith TransControl TransMem.
Local Open Scope Z_scope.

(** ** Templates *)

(** src/vmm/translate_fence.c:18-31 fence_i_instruction *)
Definition fence_i_instruction : template := {|
  t_indicator := Ind.fence_i_instruction;
  t_code := BEGIN_TRANSLATION
    ++ [movq r12 rdi; movq_sym Sym.flush_translation_cache rax]
    ++ SAVE_GUEST_CONTEXT_SWITCH_REGS
    ++ [call rax]
    ++ RESTORE_GUEST_CONTEXT_SWITCH_REGS
    ++ PROCEED_TO_NEXT_INSTRUCTION
    ++ TRAP_TO_VMM;
  t_nparams := 1 |}.

(** src/vmm/translate_fence.c:52-60 fence_instruction *)
Definition fence_instruction : template := {|
  t_indicator := Ind.fence_instruction;
  t_code := BEGIN_TRANSLATION
    ++ PROCEED_TO_NEXT_INSTRUCTION
    ++ END_INSTRUCTION;
  t_nparams := 1 |}.

(** src/vmm/translate_privileged_instr.c:27-40 ebreak_instruction *)
Definition ebreak_instruction : template := {|
  t_indicator := Ind.ebreak_instruction;
  t_code := BEGIN_TRANSLATION
    ++ [movq r12 rdi; movq_sym Sym.ebreak_callback rax]
    ++ SAVE_GUEST_CONTEXT_SWITCH_REGS
    ++ [call rax]
    ++ RESTORE_GUEST_CONTEXT_SWITCH_REGS
    ++ PROCEED_TO_NEXT_INSTRUCTION
    ++ END_INSTRUCTION;
  t_nparams := 1 |}.

(** src/vmm/translate_privileged_instr.c:69-81 mret_instruction *)
Definition mret_instruction : template := {|
  t_indicator := Ind.mret_instruction;
  t_code := BEGIN_TRANSLATION
    ++ [movq r12 rdi; movq_sym Sym.mret_callback rax]
    ++ SAVE_GUEST_CONTEXT_SWITCH_REGS
    ++ [call rax]
    ++ RESTORE_GUEST_CONTEXT_SWITCH_REGS
    ++ TRAP_TO_VMM;
  t_nparams := 1 |}.

(** src/vmm/translate_privileged_instr.c:108-120 sret_instruction *)
Definition sret_instruction : template := {|
  t_indicator := Ind.sret_instruction;
  t_code := BEGIN_TRANSLATION
    ++ [movq r12 rdi; movq_sym Sym.sret_callback rax]
    ++ SAVE_GUEST_CONTEXT_SWITCH_REGS
    ++ [call rax]
    ++ RESTORE_GUEST_CONTEXT_SWITCH_REGS
    ++ TRAP_TO_VMM;
  t_nparams := 1 |}.

(** src/vmm/translate_privileged_instr.c:146-159 sfence_vma_instruction *)
Definition sfence_vma_instruction : template := {|
  t_indicator := Ind.sfence_vma_instruction;
  t_code := BEGIN_TRANSLATION
    ++ [movq r12 rdi; movq_sym Sym.sfence_vma_callback rax]
    ++ SAVE_GUEST_CONTEXT_SWITCH_REGS
    ++ [call rax]
    ++ RESTORE_GUEST_CONTEXT_SWITCH_REGS
    ++ PROCEED_TO_NEXT_INSTRUCTION
    ++ TRAP_TO_VMM;
  t_nparams := 1 |}.

(** src/vmm/translate_privileged_instr.c:199-212 ecall_instruction *)
Definition ecall_instruction : template := {|
  t_indicator := Ind.ecall_instruction;
  t_code := BEGIN_TRANSLATION
    ++ [movq r12 rdi; movq_sym Sym.ecall_callback rax]
    ++ SAVE_GUEST_CONTEXT_SWITCH_REGS
    ++ [call rax]
    ++ RESTORE_GUEST_CONTEXT_SWITCH_REGS
    ++ PROCEED_TO_NEXT_INSTRUCTION
    ++ TRAP_TO_VMM;
  t_nparams := 1 |}.

(** src/vmm/translate_privileged_instr.c:239-252 wfi_instruction *)
Definition wfi_instruction : template := {|
  t_indicator := Ind.wfi_instruction;
  t_code := BEGIN_TRANSLATION
    ++ [movq r12 rdi; movq_sym Sym.wfi_callback rax]
    ++ SAVE_GUEST_CONTEXT_SWITCH_REGS
    ++ [call rax]
    ++ RESTORE_GUEST_CONTEXT_SWITCH_REGS
    ++ PROCEED_TO_NEXT_INSTRUCTION
    ++ TRAP_TO_VMM;
  t_nparams := 1 |}.

(** src/vmm/csr_representation.c:119-135 csr_instructions *)
Definition csr_instructions : template := {|
  t_indicator := Ind.csr_instructions;
  t_code := BEGIN_TRANSLATION
    ++ [movq r12 rdi; movl (PIC_PARAM 0) esi; movq_sym Sym.riscv_generic_csr_callback rax]
    ++ SAVE_GUEST_CONTEXT_SWITCH_REGS
    ++ [call rax]
    ++ RESTORE_GUEST_CONTEXT_SWITCH_REGS
    ++ RESET_ZERO_REGISTER
    ++ PROCEED_TO_NEXT_INSTRUCTION
    ++ TRAP_TO_VMM;
  t_nparams := 1 |}.

Section Translators.
Context `{Assembler}.

(** ** Translators *)

(** src/vmm/translate_fence.c:11-40 riscv_fence_i_translator *)
Definition riscv_fence_i_translator (dec : decoding) (instruction : Z) : translator := fun b =>
  translate fence_i_instruction [next_instruction_to_fetch b] stop b.

(** src/vmm/translate_fence.c:45-67 riscv_fence_translator *)
Definition riscv_fence_translator (dec : decoding) (instruction : Z) : translator := fun b =>
  translate fence_instruction [next_instruction_to_fetch b] advance b.

(** src/vmm/translate_fence.c:87-93 fence_constructor *)
Definition fence_handlers (funct3 : Z) : option (decoding -> Z -> translator) :=
  match funct3 with
  | 0x0 => Some riscv_fence_translator
  | 0x1 => Some riscv_fence_i_translator
  | _ => None
  end.

(** src/vmm/translate_fence.c:72-84 riscv_fence_instructions_translation_entry *)
Definition riscv_fence_instructions_translation_entry (instruction : Z) : translator := fun b h =>
  dec ← instruction_decoding_per_type instruction ENCODING_TYPE_S;
  handler ← fence_handlers (funct3 dec);
  handler dec instruction b h.

(** src/vmm/translate_privileged_instr.c:20-47 riscv_ebreak_translator *)
Definition riscv_ebreak_translator (dec : decoding) (instruction : Z) : translator := fun b =>
  translate ebreak_instruction [next_instruction_to_fetch b] advance b.

(** src/vmm/translate_privileged_instr.c:62-88 riscv_mret_translator *)
Definition riscv_mret_translator (dec : decoding) (instruction : Z) : translator := fun b =>
  translate mret_instruction [next_instruction_to_fetch b] stop b.

(** src/vmm/translate_privileged_instr.c:101-127 riscv_sret_translator *)
Definition riscv_sret_translator (dec : decoding) (instruction : Z) : translator := fun b =>
  translate sret_instruction [next_instruction_to_fetch b] stop b.

(** src/vmm/translate_privileged_instr.c:139-166 riscv_sfence_vma_translator *)
Definition riscv_sfence_vma_translator (dec : decoding) (instruction : Z) : translator := fun b
    =>
  translate sfence_vma_instruction [next_instruction_to_fetch b] stop b.

(** src/vmm/translate_privileged_instr.c:192-219 riscv_ecall_translator *)
Definition riscv_ecall_translator (dec : decoding) (instruction : Z) : translator := fun b =>
  translate ecall_instruction [next_instruction_to_fetch b] stop b.

(** src/vmm/translate_privileged_instr.c:231-259 riscv_wfi_translator *)
Definition riscv_wfi_translator (dec : decoding) (instruction : Z) : translator := fun b h =>
  if negb (0x8 =? Z.shiftr (imm dec) 5) then None else
  translate wfi_instruction [next_instruction_to_fetch b] stop b h.

(** src/vmm/translate_privileged_instr.c:260-284 riscv_funct3_000_translator *)
Definition riscv_funct3_000_translator (dec : decoding) (instruction : Z) : translator := fun b h =>
  if Z.land (Z.shiftr (imm dec) 5) 0x7f =? 0x9 then riscv_sfence_vma_translator dec instruction b h
  else if rs2_index dec =? 0x5 then riscv_wfi_translator dec instruction b h
  else if rs2_index dec =? 0x1 then riscv_ebreak_translator dec instruction b h
  else if rs2_index dec =? 0x2 then
    if Z.shiftr (imm dec) 5 =? 0x18 then riscv_mret_translator dec instruction b h
    else if Z.shiftr (imm dec) 5 =? 0x8 then riscv_sret_translator dec instruction b h
    else None
  else if rs2_index dec =? 0x0 then riscv_ecall_translator dec instruction b h
  else None.

(** src/vmm/csr_representation.c:111-143 riscv_generic_csr_instructions_translator *)
Definition riscv_generic_csr_instructions_translator (dec : decoding) (instruction : Z) :
    translator :=
  translate csr_instructions [instruction] stop.

(** src/vmm/translate_privileged_instr.c:311-322 supervisor_level_constructor *)
Definition supervisor_level_handlers (funct3 : Z) : option (decoding -> Z -> translator) :=
  match funct3 with
  | 0x0 => Some riscv_funct3_000_translator
  | 0x1 | 0x2 | 0x3 | 0x5 | 0x6 | 0x7 => Some riscv_generic_csr_instructions_translator
  | _ => None
  end.

(** src/vmm/translate_privileged_instr.c:290-303 riscv_supervisor_level_instructions_translation_entry *)
Definition riscv_supervisor_level_instructions_translation_entry (instruction : Z) : translator :=
  fun b h =>
  dec ← instruction_decoding_per_type instruction
          (if negb (truthy (Z.land (Z.shiftr instruction 12) 0x7))
           then ENCODING_TYPE_S else ENCODING_TYPE_I);
  handler ← supervisor_level_handlers (funct3 dec);
  handler dec instruction b h.

(** src/vmm/translation.c:309-325 translation_init *)
Definition translators (opcode : Z) : option (Z -> translator) :=
  if opcode =? RISCV_OPCODE_LUI then Some riscv_lui_translator
  else if opcode =? RISCV_OPCODE_AUIPC then Some riscv_auipc_translator
  else if opcode =? RISCV_OPCODE_JAL then Some riscv_jal_translator
  else if opcode =? RISCV_OPCODE_JARL then Some riscv_jalr_translator
  else if opcode =? RISCV_OPCODE_OP_IMM then
    Some riscv_arithmetic_immediate_instructions_translation_entry
  else if opcode =? RISCV_OPCODE_STORE then Some riscv_memory_store_instructions_translation_entry
  else if opcode =? RISCV_OPCODE_LOAD then Some riscv_memory_load_instructions_translation_entry
  else if opcode =? RISCV_OPCODE_BRANCH then Some riscv_branch_instructions_translation_entry
  else if opcode =? RISCV_OPCODE_OP then Some riscv_arithmetic_instructions_translation_entry
  else if opcode =? RISCV_OPCODE_FENCE then Some riscv_fence_instructions_translation_entry
  else if opcode =? RISCV_OPCODE_SUPERVISOR_LEVEL then
    Some riscv_supervisor_level_instructions_translation_entry
  else if opcode =? RISCV_OPCODE_AMO then Some riscv_amo_instructions_translation_entry
  else None.
End Translators.
