(* ===== verification/BlockFacts.v ===== *)
(** * Running the templates

    The symbolic execution library for the blocks of the translation cache, against
    the interface [GuestBank] of the guest state: one lemma per instruction
    sequence the templates share (the debugger prologue, the load and store of a
    guest register, the zeroing of x0, the advance of the pc, the call of a vmm
    function), and the tactic [block_run] that runs a block with them. *)

From S2P Require Import Prelude X86 Hart.
Local Open Scope Z_scope.

Section Facts.
Context {W : Type} `{GuestBankLaws W}.
Context (vmm_call : symbol -> val -> val -> val -> val -> val -> W -> callres W).

(** The four registers [vmresume] loads before it enters the cache. *)
Definition context (c : cpu) : Prop :=
  gpr c r15 = Vhart 0 /\ gpr c r14 = Vhart HART_PC_OFFSET /\
  gpr c r13 = Vcache /\ gpr c r12 = Vhart 0.

Definition run_block (junk : nat -> reg64 -> Z) (t : template) (ps : list Z) (c : cpu) (w : W) :
    outcome W := exec vmm_call junk ps (t_code t) None c w.

(** From any cpu state that holds the context, and whatever callees leave in
    the caller-saved registers, the block ends at its end label (to the next
    block) or at the vmm entry point, in guest state [w'], with the context and
    the stack as they were. *)
Definition block_falls (t : template) (ps : list Z) (w w' : W) : Prop :=
  forall junk c, context c -> exists c', run_block junk t ps c w = XFall c' w' /\
    context c' /\ stack c' = stack c.
Definition block_exits (t : template) (ps : list Z) (w w' : W) : Prop :=
  forall junk c, context c -> exists c', run_block junk t ps c w = XVmm c' w' /\
    context c' /\ stack c' = stack c.
Definition block_traps (t : template) (ps : list Z) (w w' : W) : Prop :=
  forall junk c, context c -> run_block junk t ps c w = XTrap w'.
Definition block_faults (t : template) (ps : list Z) (w w' : W) : Prop :=
  forall junk c, context c -> run_block junk t ps c w = XFault w'.

(** [enter_vmm_dbg_shell(hartptr, 1)] returns at once: no breakpoint here. *)
Definition no_breakpoint (w : W) : Prop :=
  forall a b c, vmm_call Sym.enter_vmm_dbg_shell (Vhart 0) (Vint 1) a b c w = CRet None w.

Section Exec.
Context (junk : nat -> reg64 -> Z) (ps : list Z).
Abbreviation exec := (X86.exec vmm_call junk ps).
Abbreviation step := (X86.step vmm_call junk ps).

Lemma exec_next i rest c w c' w' :
  step (length rest) i c w = Next c' w' -> exec (i :: rest) None c w = exec rest None c' w'.
Proof. intros E. cbn [X86.exec]. by rewrite E. Qed.

Lemma exec_goto i rest c w l c' w' :
  step (length rest) i c w = Goto l c' w' ->
  exec (i :: rest) None c w = exec rest (Some l) c' w'.
Proof. intros E. cbn [X86.exec]. by rewrite E. Qed.

Lemma exec_done i rest c w o :
  step (length rest) i c w = Done o -> exec (i :: rest) None c w = o.
Proof. intros E. cbn [X86.exec]. by rewrite E. Qed.

Lemma exec_jcc cc l rest c w x y :
  flags c = Some (x, y) ->
  exec (jcc cc l :: rest) None c w =
  if cond_holds cc x y then exec rest (Some l) c w else exec rest None c w.
Proof. intros E. cbn [X86.exec X86.step]. rewrite E. by destruct (cond_holds cc x y). Qed.

Lemma exec_jmp l rest c w : exec (jmp l :: rest) None c w = exec rest (Some l) c w.
Proof. done. Qed.

Lemma exec_skip i rest l c w :
  (forall l', i <> label l') -> exec (i :: rest) (Some l) c w = exec rest (Some l) c w.
Proof. intros Hi. destruct i; try done. by destruct (Hi l0). Qed.

Lemma exec_skip_other l' rest l c w :
  l <> l' -> exec (label l' :: rest) (Some l) c w = exec rest (Some l) c w.
Proof. intros Hl. cbn [X86.exec]. by destruct (Nat.eqb_spec l l'). Qed.

Lemma exec_land l rest c w : exec (label l :: rest) (Some l) c w = exec rest None c w.
Proof. cbn [X86.exec]. by rewrite Nat.eqb_refl. Qed.

(** The divide instructions: a result or the host's divide error. *)
Definition quotient_fits (signed_div : bool) (q : Z) : bool :=
  if signed_div then (- 2 ^ 31 <=? q) && (q <? 2 ^ 31) else q <? 2 ^ 32.

Lemma exec_divide (sd : bool) r rest c w hi lo d :
  gpr c rdx = Vint hi -> gpr c rax = Vint lo -> gpr c r = Vint d ->
  exec ((if sd then idiv r else div r) :: rest) None c w =
  let n := if sd then s64 (pair32 (u32 hi) (u32 lo)) else pair32 (u32 hi) (u32 lo) in
  let d := if sd then s32 (u32 d) else u32 d in
  if d =? 0 then XFault w
  else if quotient_fits sd (Z.quot n d) then
    exec rest None (set_flags None (set_gpr rdx (Vint (u32 (Z.rem n d)))
                     (set_gpr rax (Vint (u32 (Z.quot n d))) c))) w
  else XFault w.
Proof.
  intros H1 H2 H3. destruct sd; cbn [X86.exec X86.step]; unfold divide, getr32;
    rewrite H1, H2, H3; cbn [as_int mbind option_bind];
    unfold quotient_fits; repeat case_test; done.
Qed.

(** Addresses of guest registers. *)
Lemma reg_offset i : 0 <= i < 32 -> u64 (u32 (Z.shiftl (u32 (u32 i)) (Z.land 2 31))) = 4 * i.
Proof.
  intros Hi. change (Z.land 2 31) with 2. rewrite u32_u32, (u32_id i) by (unfold is_uint; lia).
  rewrite Z.shiftl_mul_pow2 by lia. change (2 ^ 2) with 4.
  rewrite u32_id, u64_id by (unfold is_uint; lia). lia.
Qed.

Lemma host_load_reg i w : 0 <= i < 32 -> host_load (Vhart (0 + 4 * i)) w = Some (rd_reg i w).
Proof.
  intros Hi. unfold host_load, is_reg_offset, HART_REGISTERS_OFFSET, HART_PC_OFFSET.
  replace (0 + 4 * i) with (i * 4) by lia.
  rewrite Z.mod_mul, Z.div_mul by lia.
  destruct (Z.leb_spec 0 (i * 4)), (Z.ltb_spec (i * 4) 128); try lia. done.
Qed.

Lemma host_store_reg i v w : 0 <= i < 32 ->
  host_store (Vhart (0 + 4 * i)) v w = Some (wr_reg i v w).
Proof.
  intros Hi. unfold host_store, is_reg_offset, HART_REGISTERS_OFFSET, HART_PC_OFFSET.
  replace (0 + 4 * i) with (i * 4) by lia.
  rewrite Z.mod_mul, Z.div_mul by lia.
  destruct (Z.leb_spec 0 (i * 4)), (Z.ltb_spec (i * 4) 128); try lia. done.
Qed.

Lemma host_load_pc w : host_load (Vhart HART_PC_OFFSET) w = Some (rd_pc w).
Proof. done. Qed.
Lemma host_store_pc v w : host_store (Vhart HART_PC_OFFSET) v w = Some (wr_pc v w).
Proof. done. Qed.
Lemma host_store_zero v w : host_store (Vhart 0) v w = Some (wr_reg 0 v w).
Proof. done. Qed.

(** [movl PIC_PARAM(k), r; shl $2, r; addq %r15, r]: the address of a guest
    register. *)
Definition with_reg_address (r : reg64) (i : Z) (c : cpu) : cpu :=
  set_flags None (set_gpr r (Vhart (0 + 4 * i))
    (set_flags None (set_gpr r (Vint (u32 (Z.shiftl (u32 (u32 i)) (Z.land 2 31))))
      (set_gpr r (Vint (u32 i)) c)))).

Lemma exec_reg_address k r i rest c w :
  ps !! k = Some i -> 0 <= i < 32 -> gpr c r15 = Vhart 0 -> r <> r15 ->
  exec (movl (PIC_PARAM k) (Reg r) :: shl 2 r :: addq r15 r :: rest) None c w =
  exec rest None (with_reg_address r i c) w.
Proof.
  intros Hk Hi H15 Hr.
  assert (Hneq : reg64_beq r15 r = false).
  { destruct (reg64_beq r15 r) eqn:E; [|done]. apply internal_reg64_dec_bl in E. by subst. }
  assert (Heq : reg64_beq r r = true) by (by apply internal_reg64_dec_lb).
  rewrite (exec_next _ _ _ _ (set_gpr r (Vint (u32 i)) c) w).
  2: { cbn [X86.step get32 mbind option_bind]. rewrite Hk. done. }
  rewrite (exec_next _ _ _ _ (set_flags None
    (set_gpr r (Vint (u32 (Z.shiftl (u32 (u32 i)) (Z.land 2 31)))) (set_gpr r (Vint (u32 i)) c))) w).
  2: { unfold X86.step, shift32, getr32. cbn [set_gpr gpr]. rewrite Heq. done. }
  rewrite (exec_next _ _ _ _ (with_reg_address r i c) w); [done|].
  unfold X86.step. cbn [set_gpr set_flags gpr]. rewrite Heq, Hneq, H15.
  cbn [add_val mbind option_bind]. rewrite reg_offset by done. done.
Qed.

(** A call between the save and the restore of the context registers. *)
Definition after_saved_call (site : nat) (ret : option (Z * Z)) (c : cpu) : cpu :=
  set_gpr r15 (gpr c r15) (set_gpr r14 (gpr c r14) (set_gpr r13 (gpr c r13)
    (set_gpr r12 (gpr c r12)
      {| gpr := gpr (after_call junk site ret c); flags := None; stack := stack c |}))).

Definition after_result (rest : list xinstr) (c : cpu) (r : callres W) : outcome W :=
  match r with
  | CRet ret w => exec rest None (after_saved_call (4 + length rest) ret c) w
  | CTrap w => XTrap w
  | CExit w => XExit w
  | CFail => XStuck
  end.

Lemma exec_saved_call_result rest c w s :
  gpr c rax = Vcode s ->
  exec (SAVE_GUEST_CONTEXT_SWITCH_REGS ++ call rax :: RESTORE_GUEST_CONTEXT_SWITCH_REGS
        ++ rest) None c w =
  after_result rest c (vmm_call s (gpr c rdi) (gpr c rsi) (gpr c rdx) (gpr c rcx) (gpr c r8) w).
Proof.
  intros Hs. cbn [SAVE_GUEST_CONTEXT_SWITCH_REGS RESTORE_GUEST_CONTEXT_SWITCH_REGS app].
  do 4 (erewrite exec_next; [|reflexivity]).
  destruct (vmm_call _ _ _ _ _ _ _) as [ret w'|w'|w'|] eqn:Hc; cbn [after_result].
  - erewrite exec_next; [|unfold X86.step; cbn [gpr]; rewrite Hs, Hc; reflexivity].
    do 4 (erewrite exec_next; [|reflexivity]). reflexivity.
  - erewrite exec_done; [reflexivity|]. unfold X86.step; cbn [gpr]. by rewrite Hs, Hc.
  - erewrite exec_done; [reflexivity|]. unfold X86.step; cbn [gpr]. by rewrite Hs, Hc.
  - erewrite exec_done; [reflexivity|]. unfold X86.step; cbn [gpr]. by rewrite Hs, Hc.
Qed.

Lemma exec_saved_call rest c w s ret w' :
  gpr c rax = Vcode s ->
  vmm_call s (gpr c rdi) (gpr c rsi) (gpr c rdx) (gpr c rcx) (gpr c r8) w = CRet ret w' ->
  exec (SAVE_GUEST_CONTEXT_SWITCH_REGS ++ call rax :: RESTORE_GUEST_CONTEXT_SWITCH_REGS
        ++ rest) None c w =
  exec rest None (after_saved_call (4 + length rest) ret c) w'.
Proof. intros Hs Hc. by rewrite (exec_saved_call_result rest c w s Hs), Hc. Qed.

Lemma after_saved_call_context site ret c : context c -> context (after_saved_call site ret c).
Proof. intros (H15 & H14 & H13 & H12). repeat split; cbn; done. Qed.

Lemma exec_prologue rest c w :
  context c -> no_breakpoint w ->
  exists c', exec (BEGIN_TRANSLATION ++ rest) None c w = exec rest None c' w /\
    context c' /\ stack c' = stack c.
Proof.
  intros HC HB. pose proof HC as (_ & _ & _ & H12).
  unfold BEGIN_TRANSLATION. rewrite <- !app_assoc. cbn [app].
  do 3 (erewrite exec_next; [|reflexivity]).
  erewrite exec_saved_call; [|reflexivity|].
  2: { cbn [gpr set_gpr reg64_beq]. rewrite H12. apply HB. }
  eexists. split; [reflexivity|]. split; [|reflexivity].
  apply after_saved_call_context. done.
Qed.

(** The macros of translation.h. *)
Lemma exec_reset_zero rest c w : gpr c r15 = Vhart 0 ->
  exec (RESET_ZERO_REGISTER ++ rest) None c w = exec rest None c (wr_reg 0 0 w).
Proof.
  intros H15. cbn [RESET_ZERO_REGISTER app]. erewrite exec_next; [reflexivity|].
  unfold X86.step. cbn [get32 put32 mbind option_bind]. rewrite H15. reflexivity.
Qed.

Lemma exec_proceed rest c w : gpr c r14 = Vhart HART_PC_OFFSET ->
  exec (PROCEED_TO_NEXT_INSTRUCTION ++ rest) None c w =
  exec rest None (set_flags None c) (wr_pc (u32 (rd_pc w + 4)) w).
Proof.
  intros H14. cbn [PROCEED_TO_NEXT_INSTRUCTION app]. erewrite exec_next; [reflexivity|].
  unfold X86.step, alu32. cbn [get32 put32 mbind option_bind]. rewrite H14. reflexivity.
Qed.

Lemma exec_end c w : exec END_INSTRUCTION None c w = XFall c w.
Proof. done. Qed.

Lemma exec_trap_to_vmm c w :
  exec TRAP_TO_VMM None c w = XVmm (set_gpr rax (Vcode Sym.vmm_entry_point) c) w.
Proof. done. Qed.
End Exec.
End Facts.

#[global] Arguments context : simpl never.
#[global] Arguments exec : simpl never.
#[global] Arguments with_reg_address : simpl never.

Ltac eval_step :=
  unfold step, alu32, shift32, getr32, get64, divide, with_reg_address, after_saved_call, after_call;
  cbn [get32 put32 mbind option_bind of_option as_int add_val set_gpr set_flags gpr flags stack
       reg64_beq caller_saved lookup list_lookup];
  repeat match goal with H : gpr ?c ?r = _ |- context [gpr ?c ?r] => rewrite H end;
  rewrite ?reg_offset by lia; rewrite ?host_load_reg, ?host_store_reg by lia;
  cbn [get32 put32 mbind option_bind of_option as_int add_val host_load host_store].

Ltac run_steps :=
  repeat first
    [ erewrite exec_reg_address by
        (first [reflexivity | lia | discriminate
               | unfold with_reg_address, after_saved_call, after_call;
                 cbn [gpr set_gpr set_flags reg64_beq caller_saved]; assumption])
    | erewrite exec_next; [|solve [eval_step; reflexivity]] ].

Ltac skip_steps :=
  repeat first
    [ rewrite exec_land
    | rewrite exec_skip_other by discriminate
    | rewrite exec_skip by discriminate ].

(** Looks a register of the current cpu up. *)
Ltac look :=
  unfold with_reg_address, after_saved_call, after_call;
  cbn [gpr set_gpr set_flags reg64_beq caller_saved]; first [assumption | reflexivity].

Ltac run_macros :=
  rewrite ?exec_reset_zero by look; rewrite ?exec_proceed by look;
  rewrite ?exec_end, ?exec_trap_to_vmm.

(** Opens a block: unfolds the template and runs the debugger prologue. *)
Ltac start_block HB :=
  let junk := fresh "junk" in let c := fresh "c" in let HC := fresh "HC" in
  let c1 := fresh "c1" in let HS := fresh "HS" in
  intros junk c HC; unfold run_block;
  match goal with |- context [t_code ?t] => unfold t; cbn [t_code] end;
  match goal with
  | |- context [exec ?vc junk ?ps (BEGIN_TRANSLATION ++ ?rest) None c ?w] =>
      destruct (exec_prologue vc junk ps rest c w HC HB)
        as (c1 & -> & (H15 & H14 & H13 & H12) & HS); clear HC
  end; cbn [app].

Section Finish.
Context {W : Type} `{GuestBankLaws W}.

Lemma fall_intro (c c' : cpu) (w1 w2 : W) :
  w1 = w2 -> context c' -> stack c' = stack c ->
  exists c'', XFall c' w1 = XFall c'' w2 /\ context c'' /\ stack c'' = stack c.
Proof. intros ->. eauto. Qed.

Lemma exit_intro (c c' : cpu) (w1 w2 : W) :
  w1 = w2 -> context c' -> stack c' = stack c ->
  exists c'', XVmm c' w1 = XVmm c'' w2 /\ context c'' /\ stack c'' = stack c.
Proof. intros ->. eauto. Qed.
End Finish.

Ltac show_context := split; [look|split; [look|split; look]].

(** Closes a block that ended: leaves the equation of the guest states. *)
Ltac end_block :=
  first [apply fall_intro | apply exit_intro];
  [ | show_context | assumption ].

Ltac block_run HB := start_block HB; run_steps; run_macros; end_block.
