(* ===== verification/BlockArith.v ===== *)
(** * The computational blocks

    Each template of the OP, OP-IMM, LUI, AUIPC, jump and branch translators, run
    from any cpu state, has the effect [Rv32.execute] gives its instruction; the
    divide templates fault on the operands of [div_faults]. *)

From S2P Require Import Prelude X86 Hart Decode Rv32 BlockFacts TransArith TransControl.
Local Open Scope Z_scope.

(** ** Operations on words *)

Section Words.
Implicit Types a b i : Z.

Lemma shift_count x : Z.land (u32 (Z.land x (u32 31))) 31 = x mod 32.
Proof.
  change (u32 31) with (Z.ones 5). change 31 with (Z.ones 5).
  rewrite !Z.land_ones by lia. change (2 ^ 5) with 32.
  unfold u32. change (2 ^ 32) with 4294967296. dlia.
Qed.

Lemma u32_mod_32 x : u32 x mod 32 = x mod 32.
Proof. unfold u32. change (2 ^ 32) with 4294967296. dlia. Qed.

Lemma flag_byte x : u32 (u8 (u32 (u64 (Z.shiftl (Z.shiftr 0 8) 8 + int_of_bool x)))) = int_of_bool x.
Proof. by destruct x. Qed.

Lemma u32_lxor a b : u32 (Z.lxor a b) = Z.lxor (u32 a) (u32 b).
Proof. apply Z.bits_inj'. intros i Hi. autorewrite with zbits. by destruct (i <? 32). Qed.
Lemma u32_lor a b : u32 (Z.lor a b) = Z.lor (u32 a) (u32 b).
Proof. apply Z.bits_inj'. intros i Hi. autorewrite with zbits. by destruct (i <? 32). Qed.
Lemma u32_land2 a b : u32 (Z.land a b) = Z.land (u32 a) (u32 b).
Proof. apply Z.bits_inj'. intros i Hi. autorewrite with zbits. by destruct (i <? 32). Qed.

Lemma u32_div_pow2 a n : is_uint 32 a -> 0 <= n -> u32 (a / 2 ^ n) = a / 2 ^ n.
Proof.
  intros [H0 H1] Hn. apply u32_id. unfold is_uint.
  assert (0 < 2 ^ n) by (apply Z.pow_pos_nonneg; lia).
  split; [apply Z.div_pos; lia|]. apply Z.div_lt_upper_bound; nia.
Qed.

Lemma s64_small x : - 2 ^ 63 <= x < 2 ^ 63 -> s64 (u64 x) = x.
Proof.
  change (2 ^ 63) with 9223372036854775808. intros. unfold signed, u64.
  change (2 ^ 64) with 18446744073709551616. change (2 ^ (64 - 1)) with 9223372036854775808.
  rewrite Z.mod_mod by lia.
  destruct (Z.ltb_spec (x mod 18446744073709551616) 9223372036854775808); dlia.
Qed.

(** Bits 63:32 of a 64-bit product. *)
Lemma high_half x : u32 (Z.shiftr (u64 x) 32) = u32 (x / 2 ^ 32).
Proof.
  rewrite Z.shiftr_div_pow2 by lia. unfold u32, u64.
  change (2 ^ 64) with (2 ^ 32 * 2 ^ 32). change (2 ^ 32) with 4294967296. dlia.
Qed.

Lemma s32_bound a : - 2147483648 <= s32 a < 2147483648.
Proof. exact (signed_range 32 a ltac:(lia)). Qed.

(** [movsxd; shr $32]: the sign word that precedes a signed division. *)
Lemma sign_pair a :
  s64 (pair32 (u32 (Z.shiftr (u64 (u64 (s32 (u32 a)))) (Z.land 32 63))) (u32 a)) = s32 a.
Proof.
  change (Z.land 32 63) with 32. rewrite u64_u64, high_half, s32_u32. unfold pair32.
  pose proof (s32_bound a) as Hb. rewrite <- (u32_s32 a).
  generalize dependent (s32 a). clear. intros x Hb.
  transitivity (s64 (u64 x)); [|apply s64_small; lia].
  f_equal. unfold u32, u64. change (2 ^ 64) with (2 ^ 32 * 2 ^ 32). norm_pow. dlia.
Qed.

(** The operands on which the host's divide instruction faults. *)
Definition div_faults (op : alu_op) (x y : Z) : bool :=
  match op with
  | DIV => negb (y =? 0) && div_overflow x y
  | REM => (y =? 0) || div_overflow x y
  | REMU => y =? 0
  | _ => false
  end.

Lemma quot_bound x y :
  - 2147483648 <= x < 2147483648 -> - 2147483648 <= y < 2147483648 -> y <> 0 ->
  (- 2 ^ 31 <=? Z.quot x y) && (Z.quot x y <? 2 ^ 31) =
  negb ((x =? - 2 ^ 31) && (y =? -1)).
Proof.
  intros Hx Hy Hne. change (- 2 ^ 31) with (-2147483648). change (2 ^ 31) with 2147483648.
  destruct (Z.eqb_spec x (-2147483648)) as [->|Hx1], (Z.eqb_spec y (-1)) as [->|Hy1]; cbn [andb negb];
    [done|..]; apply andb_true_iff; rewrite Z.leb_le, Z.ltb_lt.
  all: pose proof (Z.quot_rem' x y) as Eq || pose proof (Z.quot_rem' (-2147483648) y) as Eq || idtac.
  all: Z.to_euclidean_division_equations; nia.
Qed.

Lemma s32_zero x : is_uint 32 x -> (s32 x =? 0) = (x =? 0).
Proof.
  intros Hx. destruct (Z.eqb_spec x 0) as [->|Hne]; [done|].
  apply Z.eqb_neq. unfold is_uint in Hx. word_lia.
Qed.
End Words.

(** ** The templates *)

Section Templates.
Context {W : Type} `{GuestBankLaws W}.
Context (vmm_call : symbol -> val -> val -> val -> val -> val -> W -> callres W).
Context (w : W) (HB : no_breakpoint vmm_call w) (HW : bank_wf w) (HZ : rd_reg 0 w = 0).
Context (rd rs1 rs2 : Z) (Hrd : 0 <= rd < 32) (Hrs1 : 0 <= rs1 < 32) (Hrs2 : 0 <= rs2 < 32).

Abbreviation a := (rd_reg rs1 w).
Abbreviation b := (rd_reg rs2 w).
Abbreviation next := (u32 (rd_pc w + 4)).
Abbreviation falls := (block_falls vmm_call).
Abbreviation exits := (block_exits vmm_call).
Abbreviation faults := (block_faults vmm_call).

Lemma a_uint : is_uint 32 a.
Proof. by apply rd_reg_uint. Qed.
Lemma b_uint : is_uint 32 b.
Proof. by apply rd_reg_uint. Qed.
Lemma u32_a : u32 a = a.
Proof. apply u32_id, a_uint. Qed.
Lemma u32_b : u32 b = b.
Proof. apply u32_id, b_uint. Qed.

(** Storing to rd and then zeroing x0 is a write that x0 ignores. *)
Lemma reset_set_rd v : wr_reg 0 0 (wr_reg rd v w) = set_rd rd v w.
Proof.
  unfold set_rd. destruct (Z.eqb_spec rd 0) as [E|Hne].
  - rewrite E, wr_wr_reg. rewrite <- HZ at 2. apply wr_rd_reg; [done|lia].
  - rewrite wr_reg_comm by lia. f_equal. rewrite <- HZ at 2. apply wr_rd_reg; [done|lia].
Qed.

Lemma op_result v v' : v = v' ->
  wr_pc (u32 (rd_pc (wr_reg 0 0 (wr_reg rd v w)) + 4)) (wr_reg 0 0 (wr_reg rd v w)) =
  wr_pc next (set_rd rd v' w).
Proof. intros ->. by rewrite !rd_pc_wr_reg, reset_set_rd. Qed.

Ltac op_block := block_run HB; apply op_result; rewrite ?u32_u32, ?u32_a, ?u32_b.

(** *** OP *)

Lemma add_block : falls add_instruction [rs1; rs2; rd] w (execute (I_OP ADD rd rs1 rs2) w).
Proof. op_block. cbn [alu]. f_equal. lia. Qed.
Lemma sub_block : falls sub_instruction [rs1; rs2; rd] w (execute (I_OP SUB rd rs1 rs2) w).
Proof. op_block. done. Qed.
Lemma and_block : falls and_instruction [rs1; rs2; rd] w (execute (I_OP AND rd rs1 rs2) w).
Proof. op_block. cbn [alu]. rewrite u32_land2, u32_a, u32_b. apply Z.land_comm. Qed.
Lemma or_block : falls or_instruction [rs1; rs2; rd] w (execute (I_OP OR rd rs1 rs2) w).
Proof. op_block. cbn [alu]. rewrite u32_lor, u32_a, u32_b. apply Z.lor_comm. Qed.
Lemma xor_block : falls xor_instruction [rs1; rs2; rd] w (execute (I_OP XOR rd rs1 rs2) w).
Proof. op_block. cbn [alu]. rewrite u32_lxor, u32_a, u32_b. apply Z.lxor_comm. Qed.
Lemma slt_block : falls slt_instruction [rs1; rs2; rd] w (execute (I_OP SLT rd rs1 rs2) w).
Proof. op_block. rewrite flag_byte. done. Qed.
Lemma sltu_block : falls sltu_instruction [rs1; rs2; rd] w (execute (I_OP SLTU rd rs1 rs2) w).
Proof. op_block. rewrite flag_byte. cbn [alu cond_holds]. by rewrite u32_a, u32_b. Qed.

Ltac shift_block n :=
  op_block; rewrite ?shift_count, ?u32_u32, ?u32_a;
  assert (Hn : 0 <= n mod 32) by (apply Z.mod_pos_bound; lia); cbn [alu];
  rewrite ?Z.shiftl_mul_pow2, ?Z.shiftr_div_pow2 by done.

Lemma sll_block : falls sll_instruction [rs1; rs2; rd] w (execute (I_OP SLL rd rs1 rs2) w).
Proof. shift_block (rd_reg rs2 w). done. Qed.
Lemma srl_block : falls srl_instruction [rs1; rs2; rd] w (execute (I_OP SRL rd rs1 rs2) w).
Proof. shift_block (rd_reg rs2 w). apply u32_div_pow2; [apply a_uint|done]. Qed.
Lemma sra_block : falls sra_instruction [rs1; rs2; rd] w (execute (I_OP SRA rd rs1 rs2) w).
Proof. shift_block (rd_reg rs2 w). by rewrite <- s32_u32, u32_a. Qed.

(** *** The M extension *)

Lemma mul_block : falls mul_instruction [rs1; rs2; rd] w (execute (I_OP MUL rd rs1 rs2) w).
Proof.
  op_block. cbn [alu]. unfold u32. rewrite Zmult_mod, (Zmult_mod a b).
  change (2 ^ 32) with (2 ^ 32). f_equal. rewrite Z.mul_comm.
  f_equal; apply (signed_mod 32); lia.
Qed.
Lemma mulh_block : falls mulh_instruction [rs1; rs2; rd] w (execute (I_OP MULH rd rs1 rs2) w).
Proof. op_block. cbn [alu]. by rewrite Z.mul_comm. Qed.
Lemma mulhu_block : falls mulhu_instruction [rs1; rs2; rd] w (execute (I_OP MULHU rd rs1 rs2) w).
Proof. op_block. cbn [alu]. by rewrite Z.mul_comm. Qed.
Lemma mulhsu_block : falls mulhsu_instruction [rs1; rs2; rd] w (execute (I_OP MULHSU rd rs1 rs2) w).
Proof.
  op_block. cbn [alu]. change (Z.land 32 63) with 32.
  rewrite !u64_u64, high_half. pose proof (s32_bound a). pose proof b_uint as [Hb0 Hb1].
  rewrite !s64_small by lia. done.
Qed.


Lemma signed_div_ok :
  div_overflow a b = false -> b <> 0 -> quotient_fits true (Z.quot (s32 a) (s32 b)) = true.
Proof.
  intros Ho Hb. unfold quotient_fits, div_overflow in *.
  rewrite quot_bound, Ho by (try apply s32_bound; pose proof (s32_zero b b_uint); lia). done.
Qed.
Lemma signed_div_overflows :
  div_overflow a b = true -> b <> 0 -> quotient_fits true (Z.quot (s32 a) (s32 b)) = false.
Proof.
  intros Ho Hb. unfold quotient_fits, div_overflow in *.
  rewrite quot_bound, Ho by (try apply s32_bound; pose proof (s32_zero b b_uint); lia). done.
Qed.

Lemma div_block : div_faults DIV a b = false ->
  falls div_instruction [rs1; rs2; rd] w (execute (I_OP DIV rd rs1 rs2) w).
Proof.
  cbn [div_faults]. intros Hok. start_block HB. run_steps.
  erewrite exec_jcc by reflexivity. cbn [cond_holds]. rewrite u32_u32, u32_b.
  change (u32 0) with 0. destruct (Z.eqb_spec b 0) as [Hb|Hb]; cbn [negb andb] in Hok |- *.
  - run_steps. rewrite exec_jmp. skip_steps. run_steps. run_macros. end_block.
    apply op_result. cbn [alu]. by rewrite Hb.
  - skip_steps. erewrite (exec_divide _ _ _ true) by look. cbv zeta.
    rewrite sign_pair, !u32_b, s32_zero by apply b_uint.
    destruct (Z.eqb_spec b 0); [done|]. rewrite signed_div_ok by done.
    run_steps. run_macros. end_block. apply op_result. cbn [alu].
    destruct (Z.eqb_spec b 0); [done|]. by rewrite !u32_u32.
Qed.

Lemma rem_block : div_faults REM a b = false ->
  falls rem_instruction [rs1; rs2; rd] w (execute (I_OP REM rd rs1 rs2) w).
Proof.
  cbn [div_faults]. intros [Hb Hok]%orb_false_iff. apply Z.eqb_neq in Hb.
  start_block HB. run_steps.
  erewrite (exec_divide _ _ _ true) by look. cbv zeta.
  rewrite sign_pair, !u32_b, s32_zero by apply b_uint.
  destruct (Z.eqb_spec b 0); [done|]. rewrite signed_div_ok by done.
  run_steps. run_macros. end_block. apply op_result. cbn [alu].
  destruct (Z.eqb_spec b 0); [done|]. by rewrite !u32_u32.
Qed.

Lemma unsigned_pair : pair32 (u32 0) (u32 a) = a.
Proof. rewrite u32_a. unfold pair32. change (u32 0) with 0. lia. Qed.

Lemma unsigned_div_ok : b <> 0 -> quotient_fits false (Z.quot a b) = true.
Proof.
  intros Hb. pose proof a_uint as [Ha0 Ha1]. pose proof b_uint as [Hb0 Hb1].
  unfold quotient_fits. apply Z.ltb_lt. rewrite Z.quot_div_nonneg by lia.
  apply Z.div_lt_upper_bound; nia.
Qed.

Lemma div_range : b <> 0 -> u32 (a / b) = a / b /\ u32 (a mod b) = a mod b.
Proof.
  intros Hb. pose proof a_uint as [Ha0 Ha1]. pose proof b_uint as [Hb0 Hb1].
  pose proof (Z.mod_pos_bound a b). pose proof (Z.mod_le a b).
  split; apply u32_id; unfold is_uint; [|lia].
  split; [apply Z.div_pos; lia|]. apply Z.div_lt_upper_bound; nia.
Qed.

Lemma divu_block :
  falls divu_instruction [rs1; rs2; rd] w (execute (I_OP DIVU rd rs1 rs2) w).
Proof.
  start_block HB. run_steps.
  erewrite exec_jcc by reflexivity. cbn [cond_holds]. rewrite u32_u32, u32_b.
  change (u32 0) with 0. destruct (Z.eqb_spec b 0) as [Hb|Hb]; cbn [negb].
  - run_steps. rewrite exec_jmp. skip_steps. run_steps. run_macros. end_block.
    apply op_result. cbn [alu]. by rewrite Hb.
  - skip_steps. erewrite (exec_divide _ _ _ false) by look. cbv zeta.
    rewrite unsigned_pair, !u32_b. destruct (Z.eqb_spec b 0); [done|].
    rewrite unsigned_div_ok by done.
    run_steps. run_macros. end_block. apply op_result. cbn [alu].
    destruct (Z.eqb_spec b 0); [done|]. rewrite !u32_u32.
    pose proof a_uint as [? ?]. pose proof b_uint as [? ?].
    rewrite Z.quot_div_nonneg by lia. by apply div_range.
Qed.

Lemma remu_block : div_faults REMU a b = false ->
  falls remu_instruction [rs1; rs2; rd] w (execute (I_OP REMU rd rs1 rs2) w).
Proof.
  cbn [div_faults]. intros Hb. apply Z.eqb_neq in Hb.
  start_block HB. run_steps.
  erewrite (exec_divide _ _ _ false) by look. cbv zeta.
  rewrite unsigned_pair, !u32_b. destruct (Z.eqb_spec b 0); [done|].
  rewrite unsigned_div_ok by done.
  run_steps. run_macros. end_block. apply op_result. cbn [alu].
  destruct (Z.eqb_spec b 0); [done|]. rewrite !u32_u32.
  pose proof a_uint as [? ?]. pose proof b_uint as [? ?].
  rewrite Z.rem_mod_nonneg by lia. by apply div_range.
Qed.

(** On the other operands the host faults. *)
Lemma div_block_faults : div_faults DIV a b = true -> faults div_instruction [rs1; rs2; rd] w w.
Proof.
  cbn [div_faults]. intros [Hb Hov]%andb_true_iff. apply negb_true_iff, Z.eqb_neq in Hb.
  start_block HB. run_steps.
  erewrite exec_jcc by reflexivity. cbn [cond_holds]. rewrite u32_u32, u32_b.
  change (u32 0) with 0. destruct (Z.eqb_spec b 0); [done|]. cbn [negb].
  skip_steps. erewrite (exec_divide _ _ _ true) by look. cbv zeta.
  rewrite sign_pair, !u32_b, s32_zero by apply b_uint.
  destruct (Z.eqb_spec b 0); [done|]. by rewrite signed_div_overflows.
Qed.
Lemma rem_block_faults : div_faults REM a b = true -> faults rem_instruction [rs1; rs2; rd] w w.
Proof.
  cbn [div_faults]. intros Hf. start_block HB. run_steps.
  erewrite (exec_divide _ _ _ true) by look. cbv zeta.
  rewrite sign_pair, !u32_b, s32_zero by apply b_uint.
  destruct (Z.eqb_spec b 0); [done|]. by rewrite signed_div_overflows.
Qed.
Lemma remu_block_faults : div_faults REMU a b = true -> faults remu_instruction [rs1; rs2; rd] w w.
Proof.
  cbn [div_faults]. intros Hf. start_block HB. run_steps.
  erewrite (exec_divide _ _ _ false) by look. cbv zeta.
  rewrite unsigned_pair, !u32_b. by rewrite Hf.
Qed.

(** *** OP-IMM *)

Section Immediate.
Context (i : Z).

Lemma addi_block :
  falls addi_instruction [u32 i; rs1; rd] w (execute (I_OP_IMM ADD rd rs1 i) w).
Proof. op_block. cbn [alu]. by rewrite u32_add_r. Qed.
Lemma stli_block :
  falls stli_instruction [u32 i; rs1; rd] w (execute (I_OP_IMM SLT rd rs1 i) w).
Proof. op_block. rewrite flag_byte. cbn [alu cond_holds]. by rewrite s32_u32. Qed.
Lemma stliu_block :
  falls stliu_instruction [u32 i; rs1; rd] w (execute (I_OP_IMM SLTU rd rs1 i) w).
Proof. op_block. rewrite flag_byte. cbn [alu cond_holds]. by rewrite u32_a. Qed.
Lemma xori_block :
  falls xori_instruction [u32 i; rs1; rd] w (execute (I_OP_IMM XOR rd rs1 i) w).
Proof. op_block. cbn [alu]. by rewrite u32_lxor, u32_u32, u32_a. Qed.
Lemma ori_block :
  falls ori_instruction [u32 i; rs1; rd] w (execute (I_OP_IMM OR rd rs1 i) w).
Proof. op_block. cbn [alu]. by rewrite u32_lor, u32_u32, u32_a. Qed.
Lemma andi_block :
  falls andi_instruction [u32 i; rs1; rd] w (execute (I_OP_IMM AND rd rs1 i) w).
Proof. op_block. cbn [alu]. by rewrite u32_land2, u32_u32, u32_a. Qed.
Lemma slli_block :
  falls slli_instruction [u32 i; rs1; rd] w (execute (I_OP_IMM SLL rd rs1 i) w).
Proof. shift_block i. by rewrite u32_mod_32, Z.shiftl_mul_pow2 by done. Qed.
Lemma srli_block :
  falls srli_instruction [u32 i; rs1; rd] w (execute (I_OP_IMM SRL rd rs1 i) w).
Proof.
  shift_block i. rewrite u32_mod_32, Z.shiftr_div_pow2 by done.
  apply u32_div_pow2; [apply a_uint|done].
Qed.
Lemma srai_block :
  falls srai_instruction [u32 i; rs1; rd] w (execute (I_OP_IMM SRA rd rs1 i) w).
Proof.
  shift_block i. rewrite u32_mod_32, Z.shiftr_div_pow2 by done. by rewrite <- s32_u32, u32_a.
Qed.
End Immediate.

(** *** LUI, AUIPC, the jumps and the branches *)

Lemma upper_imm i : is_uint 20 i -> u32 (Z.shiftl (u32 i) (Z.land 12 31)) = i * 2 ^ 12.
Proof.
  intros [H0' H1']. change (Z.land 12 31) with 12. rewrite Z.shiftl_mul_pow2 by lia.
  rewrite (u32_id i) by (unfold is_uint; lia). apply u32_id. unfold is_uint. lia.
Qed.

Lemma lui_block i : is_uint 20 i ->
  falls lui_instruction [i; rd] w (execute (I_LUI rd (i * 2 ^ 12)) w).
Proof.
  intros Hi. block_run HB. apply op_result. rewrite !u32_u32. by apply upper_imm.
Qed.

Lemma auipc_block i : is_uint 20 i ->
  falls auipc_instruction [i; rd; rd_pc w] w (execute (I_AUIPC rd (i * 2 ^ 12)) w).
Proof.
  intros Hi. block_run HB. apply op_result. rewrite !u32_u32, upper_imm by done.
  rewrite u32_add_r. f_equal. lia.
Qed.

Lemma jal_block off :
  exits jal_instruction_without_target [rd; next; u32 (rd_pc w + off)] w (execute (I_JAL rd off) w).
Proof.
  block_run HB. rewrite wr_reg_pc, reset_set_rd, !u32_u32. done.
Qed.

Lemma jalr_block off :
  exits jalr_instruction [rd; next; rs1; u32 off] w (execute (I_JALR rd rs1 off) w).
Proof.
  block_run HB. rewrite wr_reg_pc, reset_set_rd, !u32_u32, u32_a, u32_add_r.
  cbn [execute]. f_equal.
  pose proof (u32_range (a + off)) as Hr. apply u32_id.
  change (Z.clearbit (u32 (a + off)) 0) with (put_bit (u32 (a + off)) 0 false).
  apply put_bit_range; [lia|done].
Qed.

Ltac branch_block :=
  start_block HB; run_steps; erewrite exec_jcc by reflexivity; cbn [cond_holds];
  rewrite ?s32_u32, ?u32_a, ?u32_b; cbn [execute branch_taken];
  rewrite ?Z.leb_antisym; try rewrite (Z.eqb_sym b a);
  match goal with
  | |- context [?x <? ?y] => destruct (x <? y)
  | |- context [?x =? ?y] => destruct (x =? y)
  end;
  cbn [negb]; run_steps; skip_steps; run_steps; run_macros; end_block;
  rewrite ?u32_u32, ?u32_add_l; done.

Lemma beq_block off :
  exits beq_instruction [rs1; rs2; u32 (rd_pc w + off)] w (execute (I_BRANCH BEQ rs1 rs2 off) w).
Proof. branch_block. Qed.
Lemma bne_block off :
  exits bne_instruction [rs1; rs2; u32 (rd_pc w + off)] w (execute (I_BRANCH BNE rs1 rs2 off) w).
Proof. branch_block. Qed.
Lemma blt_block off :
  exits blt_instruction [rs1; rs2; u32 (rd_pc w + off)] w (execute (I_BRANCH BLT rs1 rs2 off) w).
Proof. branch_block. Qed.
Lemma bltu_block off :
  exits bltu_instruction [rs1; rs2; u32 (rd_pc w + off)] w (execute (I_BRANCH BLTU rs1 rs2 off) w).
Proof. branch_block. Qed.
Lemma bge_block off :
  exits bge_instruction [rs1; rs2; u32 (rd_pc w + off)] w (execute (I_BRANCH BGE rs1 rs2 off) w).
Proof. branch_block. Qed.
Lemma bgeu_block off :
  exits bgeu_instruction [rs1; rs2; u32 (rd_pc w + off)] w (execute (I_BRANCH BGEU rs1 rs2 off) w).
Proof. branch_block. Qed.
End Templates.
