(* ===== verification/Refine.v ===== *)
(** * The computational instructions refine the ISA

    For every instruction word that [Rv32.decode] accepts, the translator the
    emulator dispatches to commits a block that, run on the guest state, has
    exactly the effect [Rv32.execute] gives the instruction: OP, OP-IMM (RV32I and
    M), LUI, AUIPC, JAL, JALR and the branches. The exception is stated as well:
    the divide templates raise the host's divide error on the operands of
    [host_faults]. *)

From S2P Require Import Prelude X86 Hart Decode Rv32 BlockFacts BlockArith TransArith TransControl TransSys.
Local Open Scope Z_scope.

(** ** From the instruction word to the block *)

Definition is_jump (i : instr) : bool :=
  match i with I_JAL _ _ | I_JALR _ _ _ | I_BRANCH _ _ _ _ => true | _ => false end.

Section Dispatch.
Context `{Assembler} {W : Type} `{GuestBankLaws W}.
Context (vmm_call : symbol -> val -> val -> val -> val -> val -> W -> callres W).

(** The states in which guest code runs: registers in range and x0 zero. *)
Definition guest_ok (w : W) : Prop := bank_wf w /\ rd_reg 0 w = 0.

Definition host_faults (i : instr) (w : W) : bool :=
  match i with
  | I_OP op _ rs1 rs2 => div_faults op (rd_reg rs1 w) (rd_reg rs2 w)
  | _ => false
  end.

(** The block does what the instruction does. *)
Definition block_implements (t : template) (ps : list Z) (i : instr) (w : W) : Prop :=
  if host_faults i w then block_faults vmm_call t ps w w
  else if is_jump i then block_exits vmm_call t ps w (execute i w)
  else block_falls vmm_call t ps w (execute i w).

Definition implements (t : template) (ps : Z -> list Z) (i : instr) : Prop :=
  forall w, guest_ok w -> no_breakpoint vmm_call w ->
    block_implements t (map u32 (ps (rd_pc w))) i w.

Definition epilogue_of (i : instr) : prefetch_blob -> prefetch_blob :=
  if is_jump i then stop else advance.

Lemma f_rd_range i : 0 <= f_rd i < 32.
Proof. exact (field_range 11 7 i ltac:(lia)). Qed.
Lemma f_rs1_range i : 0 <= f_rs1 i < 32.
Proof. exact (field_range 19 15 i ltac:(lia)). Qed.
Lemma f_rs2_range i : 0 <= f_rs2 i < 32.
Proof. exact (field_range 24 20 i ltac:(lia)). Qed.
Lemma u32_reg r : 0 <= r < 32 -> u32 r = r.
Proof. intros. apply u32_id. unfold is_uint. lia. Qed.
End Dispatch.

#[export] Hint Resolve f_rd_range f_rs1_range f_rs2_range : words.

(** The template of each OP instruction. *)
Definition op_template (op : alu_op) : template :=
  match op with
  | ADD => add_instruction | SUB => sub_instruction | SLL => sll_instruction
  | SLT => slt_instruction | SLTU => sltu_instruction | XOR => xor_instruction
  | SRL => srl_instruction | SRA => sra_instruction | OR => or_instruction
  | AND => and_instruction | MUL => mul_instruction | MULH => mulh_instruction
  | MULHSU => mulhsu_instruction | MULHU => mulhu_instruction
  | DIV => div_instruction | DIVU => divu_instruction
  | REM => rem_instruction | REMU => remu_instruction
  end.

Section Classes.
Context `{Assembler} {W : Type} `{GuestBankLaws W}.
Context (vmm_call : symbol -> val -> val -> val -> val -> val -> W -> callres W).

Ltac params := cbn [map]; rewrite ?u32_u32, ?(u32_reg (f_rd _)), ?(u32_reg (f_rs1 _)),
  ?(u32_reg (f_rs2 _)) by auto with words.
Ltac op L := apply L; auto with words.

Lemma implements_op op i :
  implements vmm_call (op_template op) (fun _ => [f_rs1 i; f_rs2 i; f_rd i])
    (I_OP op (f_rd i) (f_rs1 i) (f_rs2 i)).
Proof.
  destruct op; intros w [HW HZ] HB; unfold block_implements, op_template;
    cbn [host_faults is_jump]; params.
  - op add_block. - op sub_block. - op sll_block. - op slt_block. - op sltu_block.
  - op xor_block. - op srl_block. - op sra_block. - op or_block. - op and_block.
  - op mul_block. - op mulh_block. - op mulhsu_block. - op mulhu_block.
  - case_test; [op div_block_faults|op div_block].
  - op divu_block.
  - case_test; [op rem_block_faults|op rem_block].
  - case_test; [op remu_block_faults|op remu_block].
Qed.

Lemma implements_op_imm op i im t :
  match op with
  | ADD => t = addi_instruction | SLT => t = stli_instruction | SLTU => t = stliu_instruction
  | XOR => t = xori_instruction | OR => t = ori_instruction | AND => t = andi_instruction
  | SLL => t = slli_instruction | SRL => t = srli_instruction | SRA => t = srai_instruction
  | _ => False
  end ->
  implements vmm_call t (fun _ => [im; f_rs1 i; f_rd i]) (I_OP_IMM op (f_rd i) (f_rs1 i) im).
Proof.
  destruct op; intros Ht; try done; subst t; intros w [HW HZ] HB; unfold block_implements;
    cbn [host_faults is_jump]; params.
  - op addi_block. - op slli_block. - op stli_block. - op stliu_block. - op xori_block.
  - op srli_block. - op srai_block. - op ori_block. - op andi_block.
Qed.

Lemma implements_branch op i off t :
  match op with
  | BEQ => t = beq_instruction | BNE => t = bne_instruction | BLT => t = blt_instruction
  | BGE => t = bge_instruction | BLTU => t = bltu_instruction | BGEU => t = bgeu_instruction
  end ->
  implements vmm_call t (fun p => [f_rs1 i; f_rs2 i; p + off]) (I_BRANCH op (f_rs1 i) (f_rs2 i) off).
Proof.
  destruct op; intros ->; intros w [HW HZ] HB; unfold block_implements;
    cbn [host_faults is_jump]; params.
  - op beq_block. - op bne_block. - op blt_block. - op bge_block. - op bltu_block. - op bgeu_block.
Qed.

Lemma implements_upper i :
  implements vmm_call lui_instruction (fun _ => [field 31 12 i; f_rd i]) (I_LUI (f_rd i) (imm_U i)) /\
  implements vmm_call auipc_instruction (fun p => [field 31 12 i; f_rd i; p])
    (I_AUIPC (f_rd i) (imm_U i)).
Proof.
  pose proof (field_range 31 12 i ltac:(lia)) as Hf.
  split; intros w [HW HZ] HB; unfold block_implements; cbn [host_faults is_jump]; params;
    rewrite (u32_id (field 31 12 i)) by (by eapply is_uint_weaken; [|exact Hf]).
  - apply lui_block; auto with words.
  - rewrite (u32_id (rd_pc w)) by (by apply rd_pc_uint). apply auipc_block; auto with words.
Qed.

Lemma implements_jumps i off :
  implements vmm_call jal_instruction_without_target
    (fun p => [f_rd i; u32 (p + 4); p + off]) (I_JAL (f_rd i) off) /\
  implements vmm_call jalr_instruction
    (fun p => [f_rd i; u32 (p + 4); f_rs1 i; off]) (I_JALR (f_rd i) (f_rs1 i) off).
Proof.
  split; intros w [HW HZ] HB; unfold block_implements; cbn [host_faults is_jump]; params.
  - apply jal_block; auto with words.
  - apply jalr_block; auto with words.
Qed.
End Classes.

(** ** The dispatch *)

Section Translation.
Context `{Assembler} {W : Type} `{GuestBankLaws W}.
Context (vmm_call : symbol -> val -> val -> val -> val -> val -> W -> callres W).

(** The translator found for the word commits a block that implements the
    instruction. *)
Definition translates (i : Z) (ins : instr) : Prop :=
  exists tr t ps, translators (Z.land i 0x7f) = Some tr /\
    (forall b h, tr i b h = translate t (ps (next_instruction_to_fetch b)) (epilogue_of ins) b h) /\
    implements vmm_call t ps ins.

Lemma decode_total i T : T <> ENCODING_TYPE_UNKNOWN ->
  exists d, instruction_decoding_per_type i T = Some d.
Proof. destruct T; [done|..]; eexists; reflexivity. Qed.

Lemma implements_shamt op rd rs1 im1 im2 t ps :
  match op with SLL | SRL | SRA => True | _ => False end -> im1 mod 32 = im2 mod 32 ->
  implements vmm_call t ps (I_OP_IMM op rd rs1 im1) -> implements vmm_call t ps (I_OP_IMM op rd rs1 im2).
Proof.
  intros Hop E HI w HG HB. specialize (HI w HG HB). unfold block_implements in *.
  cbn [host_faults is_jump execute] in *. destruct op; try done; cbn [alu] in *; by rewrite <- E.
Qed.

(** Opens the entry of the handler the table gives. *)
Ltac with_entry ps t tac :=
  match goal with
  | E : forall tr, _ = Some tr -> forall b h, _ |- _ =>
      exists t, ps; split; [reflexivity|]; split;
      [intros b h; rewrite (E _ eq_refl) | tac]
  end.

(** The I immediate of a shift: its low five bits are the amount, its bit 10 is the one of
    [funct7] that tells the arithmetic shift. *)
Lemma shift_fields i x : x = i / 2 ^ 20 mod 2 ^ (31 - 20 + 1) ->
  x mod 32 = f_rs2 i mod 32 /\ truthy (Z.land x 0x400) = (f_funct7 i / 32 mod 2 =? 1).
Proof.
  intros Him. split.
  { rewrite Him. unfold f_rs2, field. change (2 ^ (31 - 20 + 1)) with (32 * 128).
    change (2 ^ (24 - 20 + 1)) with 32. rewrite Z.mod_mod by lia. dlia. }
  assert (Hbit : truthy (Z.land x 0x400) = bit_set x 10) by done.
  rewrite bit_set_testbit, Z.testbit_eqb in Hbit by lia.
  assert (Hf7 : f_funct7 i = x / 32).
  { rewrite Him. unfold f_funct7, field. change (2 ^ (31 - 20 + 1)) with (128 * 32).
    change (2 ^ (31 - 25 + 1)) with 128. change (2 ^ 25) with (2 ^ 20 * 32).
    change (2 ^ 20) with 1048576. dlia. }
  replace (x / 2 ^ 10) with (f_funct7 i / 32) in Hbit by (rewrite Hf7; clear; dlia). done.
Qed.

Lemma translates_op_imm i op im :
  f_opcode i = 0x13 -> decode_op_imm i = Some (op, im) ->
  translates i (I_OP_IMM op (f_rd i) (f_rs1 i) im).
Proof.
  intros Hop Hd. destruct (decode_total i ENCODING_TYPE_I) as [d Ed]; [done|].
  destruct (decode_I i d Ed) as (Hrd & Hrs1 & Hf3 & Him & Hse & _).
  unfold translates. rewrite opcode_field, Hop.
  exists riscv_arithmetic_immediate_instructions_translation_entry.
  assert (Hentry : forall tr, arithmetic_immediate_handlers (f_funct3 i) = Some tr ->
    forall b h, riscv_arithmetic_immediate_instructions_translation_entry i b h = tr d i b h).
  { intros tr E b h. unfold riscv_arithmetic_immediate_instructions_translation_entry.
    rewrite Ed. cbn [mbind option_bind]. rewrite Hf3, E. done. }
  destruct (shift_fields i (imm d) Him) as [Hshift Hbit].
  unfold decode_op_imm in Hd. repeat case_match; simplify_eq; to_prop;
    try match goal with E : f_funct7 i = _ |- _ => rename E into Ef7 end.
  - with_entry (fun _ : Z => [imm_I i; f_rs1 i; f_rd i]) addi_instruction
      ltac:(by apply implements_op_imm).
    unfold riscv_addi_translator; cbv zeta. by rewrite Hse, Hrs1, Hrd.
  - with_entry (fun _ : Z => [imm_I i; f_rs1 i; f_rd i]) andi_instruction
      ltac:(by apply implements_op_imm).
    unfold riscv_andi_translator; cbv zeta. by rewrite Hse, Hrs1, Hrd.
  - with_entry (fun _ : Z => [imm d; f_rs1 i; f_rd i]) srli_instruction
      ltac:(apply (implements_shamt _ _ _ (imm d)); [done|done|by apply implements_op_imm]).
    unfold riscv_right_shift_translator; cbv zeta. by rewrite Hbit, Hrs1, Hrd, Ef7.
  - with_entry (fun _ : Z => [imm d; f_rs1 i; f_rd i]) srai_instruction
      ltac:(apply (implements_shamt _ _ _ (imm d)); [done|done|by apply implements_op_imm]).
    unfold riscv_right_shift_translator; cbv zeta. by rewrite Hbit, Hrs1, Hrd, Ef7.
  - with_entry (fun _ : Z => [imm_I i; f_rs1 i; f_rd i]) stliu_instruction
      ltac:(by apply implements_op_imm).
    unfold riscv_stliu_translator; cbv zeta. by rewrite Hse, Hrs1, Hrd.
  - with_entry (fun _ : Z => [imm_I i; f_rs1 i; f_rd i]) ori_instruction
      ltac:(by apply implements_op_imm).
    unfold riscv_ori_translator; cbv zeta. by rewrite Hse, Hrs1, Hrd.
  - with_entry (fun _ : Z => [imm_I i; f_rs1 i; f_rd i]) xori_instruction
      ltac:(by apply implements_op_imm).
    unfold riscv_xori_translator; cbv zeta. by rewrite Hse, Hrs1, Hrd.
  - with_entry (fun _ : Z => [imm_I i; f_rs1 i; f_rd i]) stli_instruction
      ltac:(by apply implements_op_imm).
    unfold riscv_stli_translator; cbv zeta. by rewrite Hse, Hrs1, Hrd.
  - with_entry (fun _ : Z => [imm d; f_rs1 i; f_rd i]) slli_instruction
      ltac:(apply (implements_shamt _ _ _ (imm d)); [done|done|by apply implements_op_imm]).
    unfold riscv_slli_translator. by rewrite Hrs1, Hrd.
Qed.

(** OP: the entry splits on the low bits of funct7. *)
Lemma op_entry i d tr :
  instruction_decoding_per_type i ENCODING_TYPE_R = Some d ->
  (Z.land (funct7 d) 3 = 0 /\ arithmetic_handlers (funct3 d) = Some tr \/
   Z.land (funct7 d) 3 = 1 /\ mul_and_div_handlers (funct3 d) = Some tr) ->
  forall b h, riscv_arithmetic_instructions_translation_entry i b h = tr d i b h.
Proof.
  intros Ed Hcase b h. unfold riscv_arithmetic_instructions_translation_entry.
  rewrite Ed. cbn [mbind option_bind].
  destruct Hcase as [[-> E]|[-> E]]; cbn;
    unfold riscv_arithmetic_instructions_class0_translation_entry,
      riscv_mul_div_instructions_translation_entry; by rewrite E.
Qed.

Definition op_codes (op : alu_op) : Z * Z :=
  match op with
  | ADD => (0, 0) | SUB => (32, 0) | SLL => (0, 1) | SLT => (0, 2) | SLTU => (0, 3)
  | XOR => (0, 4) | SRL => (0, 5) | SRA => (32, 5) | OR => (0, 6) | AND => (0, 7)
  | MUL => (1, 0) | MULH => (1, 1) | MULHSU => (1, 2) | MULHU => (1, 3)
  | DIV => (1, 4) | DIVU => (1, 5) | REM => (1, 6) | REMU => (1, 7)
  end.

Lemma decode_op_codes i op : decode_op i = Some op -> (f_funct7 i, f_funct3 i) = op_codes op.
Proof. unfold decode_op. intros E. repeat case_match; simplify_eq; reflexivity. Qed.

Lemma translates_by_handler i op d tr t :
  f_opcode i = 0x33 -> instruction_decoding_per_type i ENCODING_TYPE_R = Some d ->
  (Z.land (funct7 d) 3 = 0 /\ arithmetic_handlers (funct3 d) = Some tr \/
   Z.land (funct7 d) 3 = 1 /\ mul_and_div_handlers (funct3 d) = Some tr) ->
  (forall b h, tr d i b h = translate t [rs1_index d; rs2_index d; rd_index d] advance b h) ->
  op_template op = t ->
  translates i (I_OP op (f_rd i) (f_rs1 i) (f_rs2 i)).
Proof.
  intros Hop Ed Hcase Htr Ht. destruct (decode_R i d Ed) as (Hrd & Hrs1 & Hrs2 & _).
  unfold translates. rewrite opcode_field, Hop.
  exists riscv_arithmetic_instructions_translation_entry, t, (fun _ => [f_rs1 i; f_rs2 i; f_rd i]).
  split; [reflexivity|]. split.
  - intros b h. rewrite (op_entry i d tr) by done. by rewrite Htr, Hrs1, Hrs2, Hrd.
  - subst t. apply implements_op.
Qed.

Ltac by_handler T t :=
  eapply (translates_by_handler _ _ _ T t); [eassumption|eassumption| | |reflexivity];
  [ match goal with E7 : funct7 _ = _, E3 : funct3 _ = _ |- _ => rewrite E7, E3 end;
    first [left; done | right; done]
  | intros b h;
    try match goal with E7 : funct7 _ = _ |- _ =>
      unfold riscv_add_sub_translator, riscv_srl_sra_translator; rewrite E7 end;
    reflexivity ].

Lemma translates_op i op :
  f_opcode i = 0x33 -> decode_op i = Some op ->
  translates i (I_OP op (f_rd i) (f_rs1 i) (f_rs2 i)).
Proof.
  intros Hop Hd. destruct (decode_total i ENCODING_TYPE_R) as [d Ed]; [done|].
  destruct (decode_R i d Ed) as (_ & _ & _ & Hf3 & Hf7 & _).
  apply decode_op_codes in Hd. rewrite <- Hf3, <- Hf7 in Hd. clear Hf3 Hf7.
  destruct op; cbn [op_codes] in Hd; injection Hd as H7 H3.
  - by_handler riscv_add_sub_translator add_instruction.
  - by_handler riscv_add_sub_translator sub_instruction.
  - by_handler riscv_sll_translator sll_instruction.
  - by_handler riscv_slt_translator slt_instruction.
  - by_handler riscv_sltu_translator sltu_instruction.
  - by_handler riscv_xor_translator xor_instruction.
  - by_handler riscv_srl_sra_translator srl_instruction.
  - by_handler riscv_srl_sra_translator sra_instruction.
  - by_handler riscv_or_translator or_instruction.
  - by_handler riscv_and_translator and_instruction.
  - by_handler riscv_mul_translator mul_instruction.
  - by_handler riscv_mulh_translator mulh_instruction.
  - by_handler riscv_mulhsu_translator mulhsu_instruction.
  - by_handler riscv_mulhu_translator mulhu_instruction.
  - by_handler riscv_div_translator div_instruction.
  - by_handler riscv_divu_translator divu_instruction.
  - by_handler riscv_rem_translator rem_instruction.
  - by_handler riscv_remu_translator remu_instruction.
Qed.

Ltac branch_entry Hentry Hrs1 Hrs2 Him t :=
  match type of Hrs1 with _ = f_rs1 ?i =>
    exists t, (fun p : Z => [f_rs1 i; f_rs2 i; p + imm_B i]); split; [reflexivity|]; split;
    [ intros b h; rewrite (Hentry _ eq_refl); by rewrite <- Hrs1, <- Hrs2, <- Him
    | by apply implements_branch ]
  end.

Lemma translates_branch i op :
  f_opcode i = 0x63 -> decode_branch i = Some op ->
  translates i (I_BRANCH op (f_rs1 i) (f_rs2 i) (imm_B i)).
Proof.
  intros Hop Hd. destruct (decode_total i ENCODING_TYPE_B) as [d Ed]; [done|].
  destruct (decode_B i d Ed) as (Hrs1 & Hrs2 & Hf3 & Him & _).
  unfold translates. rewrite opcode_field, Hop.
  exists riscv_branch_instructions_translation_entry.
  assert (Hentry : forall tr, branch_handlers (f_funct3 i) = Some tr ->
    forall b h, riscv_branch_instructions_translation_entry i b h = tr d i b h).
  { intros tr E b h. unfold riscv_branch_instructions_translation_entry.
    rewrite Ed. cbn [mbind option_bind]. rewrite Hf3, E. done. }
  unfold decode_branch in Hd.
  repeat case_match; simplify_eq.
  - branch_entry Hentry Hrs1 Hrs2 Him beq_instruction.
  - branch_entry Hentry Hrs1 Hrs2 Him bgeu_instruction.
  - branch_entry Hentry Hrs1 Hrs2 Him bge_instruction.
  - branch_entry Hentry Hrs1 Hrs2 Him bltu_instruction.
  - branch_entry Hentry Hrs1 Hrs2 Him blt_instruction.
  - branch_entry Hentry Hrs1 Hrs2 Him bne_instruction.
Qed.

Lemma translates_upper i :
  (f_opcode i = 0x37 -> translates i (I_LUI (f_rd i) (imm_U i))) /\
  (f_opcode i = 0x17 -> translates i (I_AUIPC (f_rd i) (imm_U i))).
Proof.
  destruct (decode_total i ENCODING_TYPE_U) as [d Ed]; [done|].
  destruct (decode_U i d Ed) as (Hrd & Him & _).
  split; intros Hop; unfold translates; rewrite opcode_field, Hop.
  - exists riscv_lui_translator, lui_instruction, (fun _ => [field 31 12 i; f_rd i]).
    split; [reflexivity|]. split; [|apply implements_upper].
    intros b h. unfold riscv_lui_translator. rewrite Ed. cbn [mbind option_bind].
    by rewrite Hrd, Him.
  - exists riscv_auipc_translator, auipc_instruction, (fun p => [field 31 12 i; f_rd i; p]).
    split; [reflexivity|]. split; [|apply implements_upper].
    intros b h. unfold riscv_auipc_translator. rewrite Ed. cbn [mbind option_bind].
    by rewrite Hrd, Him.
Qed.

Lemma translates_jumps i :
  (f_opcode i = 0x6f -> translates i (I_JAL (f_rd i) (imm_J i))) /\
  (f_opcode i = 0x67 -> translates i (I_JALR (f_rd i) (f_rs1 i) (imm_I i))).
Proof.
  split; intros Hop; unfold translates; rewrite opcode_field, Hop.
  - destruct (decode_total i ENCODING_TYPE_UJ) as [d Ed]; [done|].
    destruct (decode_UJ i d Ed) as (Hrd & Him & _).
    exists riscv_jal_translator, jal_instruction_without_target,
      (fun p => [f_rd i; u32 (p + 4); p + imm_J i]).
    split; [reflexivity|]. split; [|by apply implements_jumps].
    intros b h. unfold riscv_jal_translator. rewrite Ed. cbn [mbind option_bind]. cbv zeta.
    by rewrite Hrd, Him.
  - destruct (decode_total i ENCODING_TYPE_I) as [d Ed]; [done|].
    destruct (decode_I i d Ed) as (Hrd & Hrs1 & _ & _ & Him & _).
    exists riscv_jalr_translator, jalr_instruction,
      (fun p => [f_rd i; u32 (p + 4); f_rs1 i; imm_I i]).
    split; [reflexivity|]. split; [|by apply implements_jumps].
    intros b h. unfold riscv_jalr_translator. rewrite Ed. cbn [mbind option_bind]. cbv zeta.
    by rewrite Hrd, Hrs1, Him.
Qed.

Lemma decode_translates i ins : decode i = Some ins -> translates i ins.
Proof.
  unfold decode. intros Hd. repeat case_match; simplify_eq;
    try (match goal with E : f_opcode _ = _ |- _ =>
           first [by apply translates_upper | by apply translates_jumps] end);
    apply bind_Some in Hd as (op & Hop & Hd).
  - by simplify_eq; apply translates_op.
  - by simplify_eq; apply translates_branch.
  - destruct op as [op im]. by simplify_eq; apply translates_op_imm.
Qed.
End Translation.

(** ** The guest state stays in range *)

Definition m_extension (op : alu_op) : bool :=
  match op with MUL | MULH | MULHSU | MULHU | DIV | DIVU | REM | REMU => true | _ => false end.

Lemma div_range_le a d : is_uint 32 a -> 0 < d -> is_uint 32 (a / d) /\ is_uint 32 (a mod d).
Proof.
  intros [Ha0 Ha1] Hd. pose proof (Z.mod_pos_bound a d Hd). pose proof (Z.mod_le a d Ha0 Hd).
  unfold is_uint. split; [|lia].
  split; [by apply Z.div_pos|]. apply Z.div_lt_upper_bound; nia.
Qed.

Lemma alu_base_range op a b : m_extension op = false -> is_uint 32 a -> is_uint 32 (alu op a b).
Proof.
  intros Hop Ha. assert (Hp : 0 < 2 ^ (b mod 32)).
  { apply Z.pow_pos_nonneg; [lia|]. apply Z.mod_pos_bound. lia. }
  destruct op; try done; cbn [alu]; auto with words.
  - by case_test.
  - by case_test.
  - apply lxor_range; auto with words; lia.
  - by apply div_range_le.
  - apply lor_range; auto with words; lia.
  - apply land_range; auto with words; [lia|]. by destruct Ha.
Qed.

Lemma alu_range op a b : is_uint 32 a -> is_uint 32 b -> is_uint 32 (alu op a b).
Proof.
  intros Ha Hb. destruct (m_extension op) eqn:Hop; [|by apply alu_base_range].
  destruct op; try done; cbn [alu]; auto with words; destruct (Z.eqb_spec b 0); auto with words;
    try done; apply div_range_le; unfold is_uint in Hb; done || lia.
Qed.

Lemma decode_op_imm_base i op im : decode_op_imm i = Some (op, im) -> m_extension op = false.
Proof. unfold decode_op_imm. intros E. repeat case_match; by simplify_eq. Qed.

Section Range.
Context {W : Type} `{GuestBankLaws W}.

Lemma set_rd_ok rd v (w : W) : 0 <= rd < 32 -> is_uint 32 v -> guest_ok w -> guest_ok (set_rd rd v w).
Proof.
  intros Hrd Hv [HW HZ]. unfold set_rd, guest_ok. destruct (Z.eqb_spec rd 0); [done|].
  split; [by apply wr_reg_wf|]. by rewrite rd_wr_reg_ne by lia.
Qed.

Lemma wr_pc_ok v (w : W) : is_uint 32 v -> guest_ok w -> guest_ok (wr_pc v w).
Proof.
  intros Hv [HW HZ]. split; [by apply wr_pc_wf|]. by rewrite rd_reg_wr_pc.
Qed.

Lemma execute_ok i ins (w : W) : decode i = Some ins -> guest_ok w -> guest_ok (execute ins w).
Proof.
  unfold decode. intros Hd HG. pose proof HG as [HW HZ].
  assert (Hreg : forall r, 0 <= r < 32 -> is_uint 32 (rd_reg r w)) by (intros; by apply rd_reg_uint).
  assert (HU : is_uint 32 (imm_U i)).
  { unfold imm_U, is_uint. pose proof (field_range 31 12 i ltac:(lia)) as [? ?]. lia. }
  repeat case_match; simplify_eq; cbn [execute];
    repeat match goal with
    | E : _ ≫= _ = Some _ |- _ => apply bind_Some in E as (? & ? & ?)
    | p : alu_op * Z |- _ => destruct p
    end; simplify_eq; cbn [execute]; apply wr_pc_ok; auto with words;
    try (apply set_rd_ok; auto with words).
  - apply (put_bit_range 32 _ 0 false); [lia|auto with words].
  - apply alu_range; auto with words.
  - destruct (branch_taken _ _ _); auto with words.
  - by eapply alu_base_range, Hreg; [eapply decode_op_imm_base|auto with words].
Qed.
End Range.

(** ** Properties *)

(** C5. The computational translators implement the ISA. For every instruction
    word the ISA decoder accepts (OP, OP-IMM, M, LUI, AUIPC, JAL, JALR, branches),
    the emulator's dispatch finds a translator; on a hart with a well-formed cache
    it terminates, and it either commits a block for the pc or stops for lack of
    room; and that block, run from any in-range guest state with x0 = 0 at that pc,
    ends with exactly the ISA's effect on registers and pc (or, on the operands of
    [host_faults] only, raises the host's divide error). *)
Theorem translators_implement_isa `{AssemblerOk} {W : Type} `{GuestBankLaws W}
    (vmm_call : symbol -> val -> val -> val -> val -> val -> W -> callres W) base i ins b h :
  decode i = Some ins ->
  cache_wf base h -> is_uint 32 (next_instruction_to_fetch b) ->
  in_window base (next_instruction_to_fetch b) -> ~ translated h (next_instruction_to_fetch b) ->
  exists tr t ps b' h',
    translators (Z.land i 0x7f) = Some tr /\ tr i b h = Some (b', h') /\
    translate_result base t ps (epilogue_of ins) b h b' h' /\
    forall w, guest_ok w -> rd_pc w = next_instruction_to_fetch b -> no_breakpoint vmm_call w ->
      block_implements vmm_call t (map u32 ps) ins w.
Proof.
  intros Hd HW Ha Hwin Hnew.
  destruct (decode_translates vmm_call i ins Hd) as (tr & t & ps & Htr & Hrun & Himp).
  destruct (translate_spec base t (ps (next_instruction_to_fetch b)) (epilogue_of ins) b h)
    as (b' & h' & E & Hres); [done..|].
  exists tr, t, (ps (next_instruction_to_fetch b)), b', h'. rewrite Hrun.
  repeat split; [done|done|done|]. intros w HG Hpc HB. rewrite <- Hpc. by apply Himp.
Qed.

(** The operands on which the host's divide instruction faults. *)
Definition faulting_operands (op : alu_op) (a b : Z) : Prop :=
  match op with
  | DIV => b <> 0 /\ s32 a = - 2 ^ 31 /\ s32 b = -1
  | REM => b = 0 \/ (s32 a = - 2 ^ 31 /\ s32 b = -1)
  | REMU => b = 0
  | _ => False
  end.

Lemma div_faults_spec op a b : div_faults op a b = true <-> faulting_operands op a b.
Proof.
  destruct op; cbn [div_faults faulting_operands]; try (split; [discriminate|done]); unfold div_overflow;
    repeat rewrite ?orb_true_iff, ?andb_true_iff, ?negb_true_iff; rewrite ?Z.eqb_eq, ?Z.eqb_neq; tauto.
Qed.

(** The divide templates as functions of their operands. *)
Lemma div_templates_decided {W : Type} `{GuestBankLaws W}
    (vmm_call : symbol -> val -> val -> val -> val -> val -> W -> callres W) op i w :
  guest_ok w -> no_breakpoint vmm_call w ->
  let ps := [f_rs1 i; f_rs2 i; f_rd i] in
  if div_faults op (rd_reg (f_rs1 i) w) (rd_reg (f_rs2 i) w)
  then block_faults vmm_call (op_template op) ps w w
  else block_falls vmm_call (op_template op) ps w (execute (I_OP op (f_rd i) (f_rs1 i) (f_rs2 i)) w) /\
       ~ block_faults vmm_call (op_template op) ps w w.
Proof.
  intros HG HB ps. pose proof (implements_op vmm_call op i w HG HB) as HI.
  unfold block_implements in HI. cbn [host_faults is_jump map] in HI.
  rewrite !u32_reg in HI by auto with words.
  destruct (div_faults op _ _); [done|]. split; [done|]. intros HF.
  set (c0 := {| gpr := fun r => match r with r14 => Vhart HART_PC_OFFSET | r13 => Vcache | _ => Vhart 0 end;
                flags := None; stack := [] |}).
  assert (HC : context c0) by done. specialize (HF (fun _ _ => 0) c0 HC).
  destruct (HI (fun _ _ => 0) c0 HC) as (c' & HX & _). subst ps; congruence.
Qed.

(** C39. The host divide error. Running the template of an OP instruction kills the
    emulator with the host's divide error exactly for DIV and REM of INT_MIN by -1,
    and for REM and REMU by zero: the templates of rem and remu test no divisor,
    and neither signed template tests for overflow. On all other operands, of the M
    extension or not, the block falls through with the ISA's result in rd and the pc at the
    next instruction. *)
Theorem divide_error_exactly {W : Type} `{GuestBankLaws W}
    (vmm_call : symbol -> val -> val -> val -> val -> val -> W -> callres W) op i w :
  guest_ok w -> no_breakpoint vmm_call w ->
  let a := rd_reg (f_rs1 i) w in let b := rd_reg (f_rs2 i) w in
  let ps := [f_rs1 i; f_rs2 i; f_rd i] in
  (block_faults vmm_call (op_template op) ps w w <->
   match op with
   | DIV => b <> 0 /\ s32 a = - 2 ^ 31 /\ s32 b = -1
   | REM => b = 0 \/ (s32 a = - 2 ^ 31 /\ s32 b = -1)
   | REMU => b = 0
   | _ => False
   end) /\
  (~ faulting_operands op a b ->
   block_falls vmm_call (op_template op) ps w (wr_pc (u32 (rd_pc w + 4)) (set_rd (f_rd i) (alu op a b) w))).
Proof.
  intros HG HB a b ps. pose proof (div_templates_decided vmm_call op i w HG HB) as HD.
  pose proof (div_faults_spec op a b) as HS. unfold faulting_operands in HS at 1. rewrite <- HS, <- div_faults_spec.
  fold a b in HD. cbv zeta in HD. fold ps in HD. destruct (div_faults op a b).
  - split; [done|]. intros Hn. by destruct Hn.
  - destruct HD as [HD Hno]. split; [by split|]. intros _. exact HD.
Qed.

(** x0 stays zero. Executing any computational instruction from a state with
    in-range registers and x0 = 0 leaves in-range registers, x0 = 0 and an
    in-range pc; with the first property, so does the translated block. *)
Theorem blocks_preserve_guest_ok {W : Type} `{GuestBankLaws W} `{Assembler}
    (vmm_call : symbol -> val -> val -> val -> val -> val -> W -> callres W) i ins w :
  decode i = Some ins -> guest_ok w -> no_breakpoint vmm_call w ->
  exists tr t ps, translators (Z.land i 0x7f) = Some tr /\
    (forall b h, tr i b h = translate t (ps (next_instruction_to_fetch b)) (epilogue_of ins) b h) /\
    forall junk c, context c ->
      match run_block vmm_call junk t (map u32 (ps (rd_pc w))) c w with
      | XFall _ w' | XVmm _ w' | XFault w' => guest_ok w'
      | _ => False
      end.
Proof.
  intros Hd HG HB. destruct (decode_translates vmm_call i ins Hd) as (tr & t & ps & Htr & Hrun & Himp).
  exists tr, t, ps. repeat (split; [done|]). intros junk c HC.
  specialize (Himp w HG HB). unfold block_implements in Himp.
  pose proof (execute_ok i ins w Hd HG) as HE. revert Himp. repeat case_test; intros Himp.
  - by rewrite (Himp junk c HC).
  - destruct (Himp junk c HC) as (c' & -> & _). done.
  - destruct (Himp junk c HC) as (c' & -> & _). done.
Qed.

(** *** Witnesses *)

Module Witness.
Import Concrete.

Definition quiet : symbol -> val -> val -> val -> val -> val -> hart -> callres hart :=
  fun _ _ _ _ _ _ h => CRet None h.

(** [remu a0, a1, a2] with a1 = 7 and a2 = 0. *)
Definition remu_word : Z := 0x02c5f533.
Definition guest7 : hart := wr_reg 11 7 (empty_hart 0x80000000).

Lemma guest7_ok : guest_ok guest7 /\ no_breakpoint quiet guest7.
Proof.
  split; [|done]. split; [|done]. split; [done|].
  split; [|done]. apply (bool_decide_unpack _). vm_compute. exact I.
Qed.

Lemma translators_implement_isa_witness :
  exists tr t ps b' h', translators (Z.land 0x00500093 0x7f) = Some tr /\
    tr 0x00500093 (fetch_at 0x80000000) (empty_hart 0x80000000) = Some (b', h') /\
    translate_result 0x80000000 t ps advance (fetch_at 0x80000000) (empty_hart 0x80000000) b' h' /\
    forall w, guest_ok w -> rd_pc w = 0x80000000 -> no_breakpoint quiet w ->
      block_implements quiet t (map u32 ps) (I_OP_IMM ADD 1 0 5) w.
Proof.
  apply (translators_implement_isa quiet 0x80000000 0x00500093 (I_OP_IMM ADD 1 0 5)
    (fetch_at 0x80000000) (empty_hart 0x80000000)).
  - reflexivity.
  - apply empty_cache_wf.
  - split; vm_compute; congruence.
  - unfold in_window. vm_compute. congruence.
  - apply empty_not_translated.
Defined.

(** REMU by zero faults; DIV does not, and gives 2^32 - 1 in a0. *)
Lemma divide_error_exactly_witness :
  block_faults quiet (op_template REMU) [11; 12; 10] guest7 guest7 /\
  block_falls quiet (op_template DIV) [11; 12; 10] guest7 (wr_pc (u32 (rd_pc guest7 + 4)) (wr_reg 10 (2 ^ 32 - 1) guest7)).
Proof.
  split.
  - apply (proj1 (divide_error_exactly quiet REMU remu_word guest7 (proj1 guest7_ok) (proj2 guest7_ok))). reflexivity.
  - apply (proj2 (divide_error_exactly quiet DIV remu_word guest7 (proj1 guest7_ok) (proj2 guest7_ok))).
    intros [Hb _]. apply Hb. reflexivity.
Defined.

Lemma blocks_preserve_guest_ok_witness :
  exists tr t ps, translators (Z.land remu_word 0x7f) = Some tr /\
  (forall b h, tr remu_word b h = translate t (ps (next_instruction_to_fetch b)) advance b h) /\
  forall junk c, context c ->
    match run_block quiet junk t (map u32 (ps (rd_pc guest7))) c guest7 with
    | XFall _ w' | XVmm _ w' | XFault w' => guest_ok w'
    | _ => False
    end.
Proof.
  apply (blocks_preserve_guest_ok quiet remu_word (I_OP REMU 10 11 12) guest7);
    [reflexivity|apply guest7_ok|apply guest7_ok].
Defined.
End Witness.
