(* ===== verification/Clint.v ===== *)
(** * The core-local interruptor

    Models src/vmm/emulate_clint.c: the guest clock [mtime], the timer compare
    registers, the software-interrupt doorbells, and their memory-mapped registers.
    The C arrays are lists of [MAX_NR_HARTS] entries.

    Proved here: the pending bits MTIP and MSIP are exactly the state of the clock
    and of the doorbell and no other pending bit changes; skipping to the next
    deadline never moves the clock back and makes the earliest armed timer due; a
    timer compare value written in two halves is read back whole. *)

From S2P Require Import Prelude Hart.
Local Open Scope Z_scope.

Definition MAX_NR_HARTS : Z := 64.
Definition CLINT_REG_MSIP : Z := 0x0000.
Definition CLINT_REG_MTIMECMP : Z := 0x4000.
Definition CLINT_REG_MTIME : Z := 0xbff8.

(** An access to a C array that is in range, as the callers guarantee. *)
Definition arr (l : list Z) (i : Z) : Z := default 0 (l !! Z.to_nat i).
Definition set_arr (i v : Z) (l : list Z) : list Z := <[Z.to_nat i := v]> l.

(** src/vmm/emulate_clint.c:11-18 clint_state *)
Record clint_state := {
  clint_base : Z;
  clint_size : Z;
  clint_nr_harts : Z;
  mtime : Z;
  mtimecmp : list Z;
  msip : list Z
}.

Definition set_mtime v (c : clint_state) : clint_state :=
  {| clint_base := clint_base c; clint_size := clint_size c; clint_nr_harts := clint_nr_harts c;
     mtime := v; mtimecmp := mtimecmp c; msip := msip c |}.
Definition set_mtimecmp v (c : clint_state) : clint_state :=
  {| clint_base := clint_base c; clint_size := clint_size c; clint_nr_harts := clint_nr_harts c;
     mtime := mtime c; mtimecmp := v; msip := msip c |}.
Definition set_msip v (c : clint_state) : clint_state :=
  {| clint_base := clint_base c; clint_size := clint_size c; clint_nr_harts := clint_nr_harts c;
     mtime := mtime c; mtimecmp := mtimecmp c; msip := v |}.

(** ** The clock *)

(** src/vmm/emulate_clint.c:22-26 clint_advance_time *)
Definition clint_advance_time (ticks : Z) (c : clint_state) : clint_state :=
  set_mtime (u64 (mtime c + ticks)) c.

(** src/vmm/emulate_clint.c:28-32 clint_get_time *)
Definition clint_get_time (c : clint_state) : Z := mtime c.

(** The loop over the harts.
    src/vmm/emulate_clint.c:37-43 clint_skip_to_next_deadline *)
Fixpoint earliest_deadline (harts : nat) (idx : Z) (earliest : Z) (cmp : list Z) : Z :=
  match harts with
  | O => earliest
  | S harts =>
      earliest_deadline harts (idx + 1)
        (if arr cmp idx <? earliest then arr cmp idx else earliest) cmp
  end.

Definition NO_DEADLINE : Z := 2 ^ 64 - 1.

(** src/vmm/emulate_clint.c:34-51 clint_skip_to_next_deadline *)
Definition clint_skip_to_next_deadline (c : clint_state) : Z * clint_state :=
  let earliest := earliest_deadline (Z.to_nat (clint_nr_harts c)) 0 NO_DEADLINE (mtimecmp c) in
  if earliest =? NO_DEADLINE then (0, c)
  else (1, if mtime c <? earliest then set_mtime earliest c else c).

(** src/vmm/emulate_clint.c:53-59 clint_refresh_pending *)
Definition clint_refresh_pending (c : clint_state) (h : hart) : hart :=
  let id := hart_id h in
  set_ipending
    (put_bit (put_bit (ipending h) 7 (arr (mtimecmp c) id <=? mtime c))
             3 (truthy (arr (msip c) id))) h.

(** ** The registers *)

(** src/vmm/emulate_clint.c:61-88 clint_read *)
Definition clint_read (addr access_size : Z) (c : clint_state) : Z :=
  let offset := u32 (addr - clint_base c) in
  if (CLINT_REG_MSIP <=? offset) && (offset <? CLINT_REG_MSIP + 4 * MAX_NR_HARTS) then
    let id := (offset - CLINT_REG_MSIP) / 4 in
    if id <? clint_nr_harts c then arr (msip c) id else 0
  else if (CLINT_REG_MTIMECMP <=? offset) && (offset <? CLINT_REG_MTIMECMP + 8 * MAX_NR_HARTS) then
    let id := (offset - CLINT_REG_MTIMECMP) / 8 in
    let cmp := if id <? clint_nr_harts c then arr (mtimecmp c) id else 0 in
    if access_size =? 8 then cmp
    else if truthy (Z.land offset 4) then Z.shiftr cmp 32 else Z.land cmp 0xffffffff
  else if offset =? CLINT_REG_MTIME then
    if access_size =? 8 then mtime c else Z.land (mtime c) 0xffffffff
  else if offset =? CLINT_REG_MTIME + 4 then Z.shiftr (mtime c) 32
  else 0.

(** [(old & ~0xffffffff) | (value & 0xffffffff)] and its high-half counterpart. *)
Definition with_low_half (old value : Z) : Z :=
  Z.lor (Z.ldiff old 0xffffffff) (Z.land value 0xffffffff).
Definition with_high_half (old value : Z) : Z :=
  Z.lor (Z.land old 0xffffffff) (u64 (Z.shiftl value 32)).

(** src/vmm/emulate_clint.c:90-124 clint_write *)
Definition clint_write (addr access_size value : Z) (c : clint_state) : clint_state :=
  let offset := u32 (addr - clint_base c) in
  if (CLINT_REG_MSIP <=? offset) && (offset <? CLINT_REG_MSIP + 4 * MAX_NR_HARTS) then
    let id := (offset - CLINT_REG_MSIP) / 4 in
    if id <? clint_nr_harts c then set_msip (set_arr id (Z.land value 1) (msip c)) c else c
  else if (CLINT_REG_MTIMECMP <=? offset) && (offset <? CLINT_REG_MTIMECMP + 8 * MAX_NR_HARTS) then
    let id := (offset - CLINT_REG_MTIMECMP) / 8 in
    if id <? clint_nr_harts c then
      let old := arr (mtimecmp c) id in
      set_mtimecmp (set_arr id
        (if access_size =? 8 then value
         else if truthy (Z.land offset 4) then with_high_half old value
         else with_low_half old value) (mtimecmp c)) c
    else c
  else if offset =? CLINT_REG_MTIME then
    set_mtime (if access_size =? 8 then value else with_low_half (mtime c) value) c
  else if offset =? CLINT_REG_MTIME + 4 then set_mtime (with_high_half (mtime c) value) c
  else c.

(** The state [clint_init] leaves, for the configured base, size and hart count.
    src/vmm/emulate_clint.c:158-186 clint_init *)
Definition clint_init (base size nr_harts : Z) : clint_state :=
  {| clint_base := base; clint_size := size; clint_nr_harts := nr_harts; mtime := 0;
     mtimecmp := replicate (Z.to_nat MAX_NR_HARTS) NO_DEADLINE;
     msip := replicate (Z.to_nat MAX_NR_HARTS) 0 |}.

(** ** Invariant *)

Record clint_wf (c : clint_state) : Prop := {
  clint_harts : 0 <= clint_nr_harts c <= MAX_NR_HARTS;
  clint_cmps : length (mtimecmp c) = Z.to_nat MAX_NR_HARTS /\ Forall (is_uint 64) (mtimecmp c);
  clint_msips : length (msip c) = Z.to_nat MAX_NR_HARTS /\ Forall (is_uint 1) (msip c);
  clint_time : is_uint 64 (mtime c);
  clint_fits : is_uint 32 (clint_base c)
}.

Lemma arr_set_same l i v : 0 <= i < Z.of_nat (length l) -> arr (set_arr i v l) i = v.
Proof. intros. unfold arr, set_arr. by rewrite list_lookup_insert_eq by lia. Qed.

Lemma arr_set_other l i j v : 0 <= i -> 0 <= j -> i <> j -> arr (set_arr i v l) j = arr l j.
Proof. intros. unfold arr, set_arr. by rewrite list_lookup_insert_ne by lia. Qed.

Lemma arr_set l i j v : 0 <= i -> 0 <= j < Z.of_nat (length l) ->
  arr (set_arr i v l) j = if i =? j then v else arr l j.
Proof.
  intros. destruct (Z.eqb_spec i j) as [->|]; [by apply arr_set_same|by apply arr_set_other; lia].
Qed.

Lemma length_set_arr i v l : length (set_arr i v l) = length l.
Proof. apply length_insert. Qed.

Lemma arr_uint w l i : 0 <= w -> Forall (is_uint w) l -> is_uint w (arr l i).
Proof.
  intros Hw HF. unfold arr. destruct (l !! Z.to_nat i) eqn:E; cbn.
  - by eapply Forall_lookup_1.
  - unfold is_uint. split; [lia|]. apply Z.pow_pos_nonneg; lia.
Qed.

Lemma clint_init_wf base size n :
  is_uint 32 base -> 0 <= n <= MAX_NR_HARTS -> clint_wf (clint_init base size n).
Proof.
  intros Hb Hn. split; cbn -[MAX_NR_HARTS Z.to_nat replicate]; try done.
  - rewrite length_replicate. split; [done|]. apply Forall_replicate. by vm_compute.
  - rewrite length_replicate. split; [done|]. apply Forall_replicate. by vm_compute.
Qed.

Lemma land_low x : Z.land x 0xffffffff = x mod 2 ^ 32.
Proof. change 0xffffffff with (Z.ones 32). by apply Z.land_ones. Qed.

Lemma with_low_half_eq old value :
  is_uint 64 old -> with_low_half old value = old / 2 ^ 32 * 2 ^ 32 + value mod 2 ^ 32.
Proof.
  intros Ho. unfold with_low_half. rewrite land_low. change 0xffffffff with (Z.ones 32).
  rewrite Z.ldiff_ones_r, Z.lor_comm, lor_shiftl_add by (try apply Z.mod_pos_bound; lia).
  rewrite Z.shiftr_div_pow2 by lia. lia.
Qed.

Lemma with_high_half_eq old value :
  with_high_half old value = value mod 2 ^ 32 * 2 ^ 32 + old mod 2 ^ 32.
Proof.
  unfold with_high_half. rewrite land_low.
  assert (E : u64 (Z.shiftl value 32) = Z.shiftl (value mod 2 ^ 32) 32).
  { rewrite !Z.shiftl_mul_pow2 by lia. unfold u64. change (2 ^ 64) with (2 ^ 32 * 2 ^ 32).
    rewrite Z.mul_mod_distr_r by lia. done. }
  rewrite E, lor_shiftl_add; [lia|lia|]. apply Z.mod_pos_bound. lia.
Qed.

Lemma halves_uint old value : is_uint 64 old ->
  is_uint 64 (with_low_half old value) /\ is_uint 64 (with_high_half old value).
Proof.
  intros Ho. rewrite with_low_half_eq, with_high_half_eq by done. unfold is_uint in *.
  change (2 ^ 64) with (2 ^ 32 * 2 ^ 32) in *. change (2 ^ 32) with 4294967296 in *. split; dlia.
Qed.

Lemma clint_write_wf addr size value c :
  is_uint 64 value -> clint_wf c -> clint_wf (clint_write addr size value c).
Proof.
  intros Hv [Hh [Hl1 HF1] [Hl2 HF2] Ht Hb]. unfold clint_write. cbv zeta.
  destruct (halves_uint (mtime c) value Ht) as [Hm1 Hm2].
  destruct (halves_uint (arr (mtimecmp c) ((u32 (addr - clint_base c) - CLINT_REG_MTIMECMP) / 8)) value)
    as [Hc1 Hc2]; [by apply arr_uint|].
  repeat case_test; try done; split; cbn; rewrite ?length_set_arr; try done;
    (split; [done|]); apply Forall_insert; try done.
  apply (land_range 1 value 1); [lia|apply Hv|by vm_compute].
Qed.

(** ** Deadlines *)

Lemma earliest_deadline_spec n i e cmp :
  let d := earliest_deadline n i e cmp in
  d <= e /\ (forall j, i <= j < i + Z.of_nat n -> d <= arr cmp j) /\
  (d = e \/ exists j, i <= j < i + Z.of_nat n /\ d = arr cmp j).
Proof.
  cbv zeta. revert i e. induction n as [|n IH]; intros i e; cbn [earliest_deadline].
  - split; [lia|]. split; [lia|]. by left.
  - destruct (IH (i + 1) (if arr cmp i <? e then arr cmp i else e)) as (H1 & H2 & H3).
    destruct (Z.ltb_spec (arr cmp i) e).
    + split; [lia|]. split.
      * intros j Hj. destruct (Z.eq_dec j i) as [->|]; [lia|]. apply H2. lia.
      * right. destruct H3 as [->|(j & Hj & ->)]; [exists i|exists j]; split; lia || done.
    + split; [lia|]. split.
      * intros j Hj. destruct (Z.eq_dec j i) as [->|]; [lia|]. apply H2. lia.
      * destruct H3 as [->|(j & Hj & ->)]; [by left|right; exists j; split; lia || done].
Qed.

(** ** Timer compare registers *)

(** The register of hart [id]: its low half ([half = 0]) or its high half (1). *)
Definition timecmp_address (c : clint_state) (id half : Z) : Z :=
  clint_base c + CLINT_REG_MTIMECMP + 8 * id + 4 * half.

Lemma timecmp_offset c id half :
  0 <= id < MAX_NR_HARTS -> 0 <= half <= 1 ->
  u32 (timecmp_address c id half - clint_base c) = CLINT_REG_MTIMECMP + 8 * id + 4 * half.
Proof.
  intros. unfold timecmp_address, CLINT_REG_MTIMECMP, MAX_NR_HARTS in *.
  rewrite u32_id; [lia|unfold is_uint; lia].
Qed.

Lemma timecmp_half id half :
  0 <= half <= 1 -> truthy (Z.land (CLINT_REG_MTIMECMP + 8 * id + 4 * half) 4) = (half =? 1).
Proof.
  intros. change (bit_set (CLINT_REG_MTIMECMP + 8 * id + 4 * half) 2 = (half =? 1)).
  rewrite bit_set_testbit, Z.testbit_eqb by lia. unfold CLINT_REG_MTIMECMP. change (2 ^ 2) with 4.
  destruct (Z.eqb_spec half 1); [apply Z.eqb_eq|apply Z.eqb_neq]; dlia.
Qed.

(** Decides the region tests of an access to such a register. *)
Ltac timecmp_access :=
  rewrite timecmp_offset by lia; cbv zeta;
  match goal with |- context [CLINT_REG_MTIMECMP + 8 * ?id + 4 * ?half - CLINT_REG_MTIMECMP] =>
    replace ((CLINT_REG_MTIMECMP + 8 * id + 4 * half - CLINT_REG_MTIMECMP) / 8) with id by dlia
  end;
  rewrite timecmp_half by lia;
  repeat match goal with
  | |- context [?a <=? ?b] => rewrite (proj2 (Z.leb_le a b)) by (unfold CLINT_REG_MSIP, CLINT_REG_MTIMECMP, MAX_NR_HARTS in *; lia)
  | |- context [?a <? ?b] =>
      first [rewrite (proj2 (Z.ltb_lt a b)) by (unfold CLINT_REG_MSIP, CLINT_REG_MTIMECMP, MAX_NR_HARTS in *; lia)
            |rewrite (proj2 (Z.ltb_ge a b)) by (unfold CLINT_REG_MSIP, CLINT_REG_MTIMECMP, MAX_NR_HARTS in *; lia)]
  end; cbn [andb].

Lemma clint_write_timecmp c id half v :
  clint_wf c -> 0 <= id < clint_nr_harts c -> 0 <= half <= 1 ->
  clint_write (timecmp_address c id half) 4 v c =
  set_mtimecmp (set_arr id
    (if half =? 1 then with_high_half (arr (mtimecmp c) id) v
     else with_low_half (arr (mtimecmp c) id) v) (mtimecmp c)) c.
Proof.
  intros HW Hid Hhalf. pose proof (clint_harts _ HW). unfold clint_write. timecmp_access. done.
Qed.

Lemma clint_read_timecmp c id half size :
  clint_wf c -> 0 <= id < clint_nr_harts c -> 0 <= half <= 1 ->
  clint_read (timecmp_address c id half) size c =
  let cmp := arr (mtimecmp c) id in
  if size =? 8 then cmp else if half =? 1 then Z.shiftr cmp 32 else Z.land cmp 0xffffffff.
Proof.
  intros HW Hid Hhalf. pose proof (clint_harts _ HW). unfold clint_read. timecmp_access. done.
Qed.

(** ** Properties *)

(** Timer and doorbell lines. [clint_refresh_pending] sets MTIP exactly when
    the clock has reached the hart's compare value, MSIP exactly when its doorbell
    is rung, and changes no other bit of the pending register. *)
Theorem clint_refresh_pending_exact c h i :
  0 <= i < 32 ->
  Z.testbit (ipending (clint_refresh_pending c h)) i =
  if i =? 7 then arr (mtimecmp c) (hart_id h) <=? mtime c
  else if i =? 3 then truthy (arr (msip c) (hart_id h))
  else Z.testbit (ipending h) i.
Proof.
  intros Hi. unfold clint_refresh_pending. cbn [ipending set_ipending].
  rewrite !testbit_put_bit by lia. rewrite (Z.eqb_sym 3), (Z.eqb_sym 7).
  destruct (Z.eqb_spec i 3), (Z.eqb_spec i 7); done || lia.
Qed.

(** Skipping to the next deadline. The clock never goes back; nothing happens
    (result 0) exactly when no hart of the machine has a timer armed; otherwise some
    hart's timer is due afterwards, and the clock was not moved past the earliest
    armed deadline unless it was there already. *)
Theorem clint_skip_correct c :
  clint_wf c ->
  let (rc, c') := clint_skip_to_next_deadline c in
  mtime c <= mtime c' /\ mtimecmp c' = mtimecmp c /\ msip c' = msip c /\
  (rc = 0 -> c' = c /\ forall j, 0 <= j < clint_nr_harts c -> arr (mtimecmp c) j = NO_DEADLINE) /\
  (rc <> 0 -> exists j, 0 <= j < clint_nr_harts c /\ arr (mtimecmp c) j <= mtime c' /\
     forall k, 0 <= k < clint_nr_harts c -> mtime c' = mtime c \/ mtime c' <= arr (mtimecmp c) k).
Proof.
  intros [Hh [Hl HF] _ _]. unfold clint_skip_to_next_deadline.
  destruct (earliest_deadline_spec (Z.to_nat (clint_nr_harts c)) 0 NO_DEADLINE (mtimecmp c))
    as (H1 & H2 & H3).
  set (d := earliest_deadline _ _ _ _) in *.
  rewrite Z2Nat.id in H2, H3 by lia.
  destruct (Z.eqb_spec d NO_DEADLINE) as [E|E].
  - repeat split; try lia. intros j Hj. specialize (H2 j ltac:(lia)).
    pose proof (arr_uint 64 (mtimecmp c) j ltac:(lia) HF) as [_ Hu]. unfold NO_DEADLINE in *. lia.
  - destruct H3 as [H3|(j & Hj & Ej)]; [done|].
    destruct (Z.ltb_spec (mtime c) d); cbn; repeat split; try lia; intros _; exists j;
      (split; [lia|]; split; [lia|]); intros k Hk; specialize (H2 k ltac:(lia)); lia.
Qed.

(** Programming a timer on a 32-bit hart. Writing the low half and then the
    high half of a hart's [mtimecmp] arms exactly that 64-bit deadline, and the two
    halves and the whole read back; the other harts' deadlines, the clock and the
    doorbells stay. *)
Theorem clint_timecmp_roundtrip c id lo hi :
  clint_wf c -> 0 <= id < clint_nr_harts c -> is_uint 32 lo -> is_uint 32 hi ->
  let low := timecmp_address c id 0 in
  let high := timecmp_address c id 1 in
  let c' := clint_write high 4 hi (clint_write low 4 lo c) in
  arr (mtimecmp c') id = hi * 2 ^ 32 + lo /\
  clint_read low 4 c' = lo /\ clint_read high 4 c' = hi /\ clint_read low 8 c' = hi * 2 ^ 32 + lo /\
  (forall j, 0 <= j -> j <> id -> arr (mtimecmp c') j = arr (mtimecmp c) j) /\
  mtime c' = mtime c /\ msip c' = msip c.
Proof.
  intros HW Hid Hlo Hhi. cbv zeta.
  assert (Hlen : 0 <= id < Z.of_nat (length (mtimecmp c))).
  { destruct HW as [? [-> _] _ _ _]. lia. }
  set (c1 := clint_write (timecmp_address c id 0) 4 lo c).
  assert (HW1 : clint_wf c1).
  { apply clint_write_wf; [|done]. by eapply is_uint_weaken; [|exact Hlo]. }
  assert (E1 : c1 = set_mtimecmp (set_arr id (with_low_half (arr (mtimecmp c) id) lo) (mtimecmp c)) c)
    by (apply clint_write_timecmp; done || lia).
  assert (Hc : clint_base c1 = clint_base c /\ clint_nr_harts c1 = clint_nr_harts c) by (by rewrite E1).
  assert (Ha : timecmp_address c id 1 = timecmp_address c1 id 1).
  { unfold timecmp_address. by rewrite (proj1 Hc). }
  set (c2 := clint_write (timecmp_address c id 1) 4 hi c1).
  assert (HW2 : clint_wf c2).
  { apply clint_write_wf; [|done]. by eapply is_uint_weaken; [|exact Hhi]. }
  assert (E2 : c2 = set_mtimecmp (set_arr id (with_high_half (arr (mtimecmp c1) id) hi) (mtimecmp c1)) c1).
  { subst c2. rewrite Ha. apply clint_write_timecmp; [done|by rewrite (proj2 Hc)|lia]. }
  assert (V : arr (mtimecmp c2) id = hi * 2 ^ 32 + lo).
  { rewrite E2, E1. cbn [mtimecmp set_mtimecmp].
    rewrite !arr_set_same by (rewrite ?length_set_arr; lia).
    rewrite with_high_half_eq, with_low_half_eq
      by (apply arr_uint; [lia|]; destruct HW as [_ [_ ?] _ _ _]; done).
    unfold is_uint in *. change (2 ^ 32) with 4294967296 in *. dlia. }
  assert (R : forall half size, 0 <= half <= 1 ->
    clint_read (timecmp_address c id half) size c2 =
    if size =? 8 then hi * 2 ^ 32 + lo
    else if half =? 1 then Z.shiftr (hi * 2 ^ 32 + lo) 32 else Z.land (hi * 2 ^ 32 + lo) 0xffffffff).
  { intros half size Hhalf.
    replace (timecmp_address c id half) with (timecmp_address c2 id half).
    - rewrite clint_read_timecmp; [by rewrite V|done| |done]. rewrite E2, E1. done.
    - unfold timecmp_address. rewrite E2, E1. done. }
  rewrite !R by lia. cbn [Z.eqb Pos.eqb]. rewrite land_low, Z.shiftr_div_pow2 by lia.
  unfold is_uint in *. repeat split; try done.
  - change (2 ^ 32) with 4294967296 in *. dlia.
  - change (2 ^ 32) with 4294967296 in *. dlia.
  - intros j Hj Hne. rewrite E2, E1. cbn [mtimecmp set_mtimecmp].
    by rewrite !arr_set_other by lia.
  - by rewrite E2, E1.
  - by rewrite E2, E1.
Qed.

Module Witness.
Definition board : clint_state := clint_init 0x02000000 0x10000 1.

Lemma clint_start_wf : clint_wf board.
Proof. apply clint_init_wf; [split|]; vm_compute; try split; congruence. Qed.

Lemma clint_refresh_pending_exact_witness :
  Z.testbit (ipending (clint_refresh_pending board (Concrete.empty_hart 0))) 7 = false.
Proof. apply (clint_refresh_pending_exact board (Concrete.empty_hart 0) 7). lia. Defined.

Lemma clint_skip_correct_witness :
  let (rc, c') := clint_skip_to_next_deadline board in
  mtime board <= mtime c' /\ mtimecmp c' = mtimecmp board /\ msip c' = msip board /\
  (rc = 0 -> c' = board /\ forall j, 0 <= j < clint_nr_harts board -> arr (mtimecmp board) j = NO_DEADLINE) /\
  (rc <> 0 -> exists j, 0 <= j < clint_nr_harts board /\ arr (mtimecmp board) j <= mtime c' /\
     forall k, 0 <= k < clint_nr_harts board -> mtime c' = mtime board \/ mtime c' <= arr (mtimecmp board) k).
Proof. apply (clint_skip_correct board clint_start_wf). Defined.

Lemma clint_timecmp_roundtrip_witness :
  arr (mtimecmp (clint_write 0x02004004 4 1 (clint_write 0x02004000 4 7 board))) 0 = 0x100000007.
Proof.
  apply (clint_timecmp_roundtrip board 0 7 1).
  - exact clint_start_wf.
  - vm_compute. split; congruence.
  - vm_compute. split; congruence.
  - vm_compute. split; congruence.
Defined.
End Witness.
