(* ===== verification/Plic.v ===== *)
(** * The platform-level interrupt controller

    Models src/vmm/emulate_plic.c: the priority, enable and threshold registers, the
    level state of the sources, the choice of the best source of a context, the
    claim/complete protocol and the memory-mapped registers.

    Proved here: the source chosen is the enabled, unclaimed, pending one of highest
    priority above the threshold, the lowest-numbered on a tie; a claimed source is
    not offered again to any context before it is completed; completion offers it
    again exactly when the device still asserts its line; the pending register
    always equals the lines the devices assert. *)

From S2P Require Import Prelude Hart Clint.
Local Open Scope Z_scope.

Definition PLIC_NR_SOURCES : Z := 32.
Definition PLIC_IRQ_UART0 : Z := 10.
Definition PLIC_CONTEXTS_PER_HART : Z := 2.
Definition PLIC_CONTEXT_MACHINE (hart_id : Z) : Z := hart_id * PLIC_CONTEXTS_PER_HART + 0.
Definition PLIC_CONTEXT_SUPERVISOR (hart_id : Z) : Z := hart_id * PLIC_CONTEXTS_PER_HART + 1.
Definition PLIC_MAX_CONTEXTS : Z := MAX_NR_HARTS * PLIC_CONTEXTS_PER_HART.

Definition PLIC_REG_PRIORITY_BASE : Z := 0x000000.
Definition PLIC_REG_PENDING_BASE : Z := 0x001000.
Definition PLIC_REG_ENABLE_BASE : Z := 0x002000.
Definition PLIC_REG_ENABLE_STRIDE : Z := 0x80.
Definition PLIC_REG_CONTEXT_BASE : Z := 0x200000.
Definition PLIC_REG_CONTEXT_STRIDE : Z := 0x1000.
Definition PLIC_REG_CONTEXT_THRESHOLD : Z := 0x0.
Definition PLIC_REG_CONTEXT_CLAIM : Z := 0x4.

(** src/vmm/emulate_plic.c:23-37 plic_state *)
Record plic_state := {
  plic_base : Z;
  nr_contexts : Z;
  priority : list Z;
  asserted : Z;
  pending : Z;
  claimed : Z;
  enable : list Z;
  threshold : list Z
}.

Definition set_priority v (p : plic_state) : plic_state :=
  {| plic_base := plic_base p; nr_contexts := nr_contexts p; priority := v; asserted := asserted p;
     pending := pending p; claimed := claimed p; enable := enable p; threshold := threshold p |}.
Definition set_lines a pe (p : plic_state) : plic_state :=
  {| plic_base := plic_base p; nr_contexts := nr_contexts p; priority := priority p; asserted := a;
     pending := pe; claimed := claimed p; enable := enable p; threshold := threshold p |}.
Definition set_claimed v (p : plic_state) : plic_state :=
  {| plic_base := plic_base p; nr_contexts := nr_contexts p; priority := priority p;
     asserted := asserted p; pending := pending p; claimed := v; enable := enable p;
     threshold := threshold p |}.
Definition set_enable v (p : plic_state) : plic_state :=
  {| plic_base := plic_base p; nr_contexts := nr_contexts p; priority := priority p;
     asserted := asserted p; pending := pending p; claimed := claimed p; enable := v;
     threshold := threshold p |}.
Definition set_threshold v (p : plic_state) : plic_state :=
  {| plic_base := plic_base p; nr_contexts := nr_contexts p; priority := priority p;
     asserted := asserted p; pending := pending p; claimed := claimed p; enable := enable p;
     threshold := v |}.

(** ** Operations *)

(** src/vmm/emulate_plic.c:41-52 plic_set_pending *)
Definition plic_set_pending (source : Z) (line : bool) (p : plic_state) : option plic_state :=
  if negb ((0 <? source) && (source <? PLIC_NR_SOURCES)) then None else
  Some (set_lines (put_bit (asserted p) source line) (put_bit (pending p) source line) p).

(** One pass of the loop over the sources that are left.
    src/vmm/emulate_plic.c:66-77 plic_best_source *)
Fixpoint best_source_loop (remaining : nat) (source candidates : Z) (prio : list Z) (thr : Z)
    (best best_priority : Z) : Z :=
  match remaining with
  | O => best
  | S remaining =>
      let continue := best_source_loop remaining (source + 1) candidates prio thr in
      if negb (bit_set candidates source) then continue best best_priority
      else if arr prio source <=? thr then continue best best_priority
      else if best_priority <? arr prio source then continue source (arr prio source)
      else continue best best_priority
  end.

(** src/vmm/emulate_plic.c:58-79 plic_best_source *)
Definition plic_best_source (context : Z) (p : plic_state) : Z :=
  let candidates := Z.land (Z.land (pending p) (u32 (Z.lnot (claimed p)))) (arr (enable p) context) in
  best_source_loop (Z.to_nat (PLIC_NR_SOURCES - 1)) 1 candidates (priority p)
    (arr (threshold p) context) 0 0.

(** src/vmm/emulate_plic.c:81-89 plic_refresh_pending *)
Definition plic_refresh_pending (p : plic_state) (h : hart) : hart :=
  let mcontext := PLIC_CONTEXT_MACHINE (hart_id h) in
  let scontext := PLIC_CONTEXT_SUPERVISOR (hart_id h) in
  set_ipending
    (put_bit (put_bit (ipending h) 11 (truthy (plic_best_source mcontext p)))
             9 (truthy (plic_best_source scontext p))) h.

(** src/vmm/emulate_plic.c:91-100 plic_claim *)
Definition plic_claim (context : Z) (p : plic_state) : Z * plic_state :=
  let source := plic_best_source context p in
  (source, if truthy source then set_claimed (put_bit (claimed p) source true) p else p).

(** src/vmm/emulate_plic.c:102-115 plic_complete *)
Definition plic_complete (context source : Z) (p : plic_state) : plic_state :=
  if (source =? 0) || (PLIC_NR_SOURCES <=? source) then p else
  let p := set_claimed (put_bit (claimed p) source false) p in
  set_lines (asserted p) (put_bit (pending p) source (bit_set (asserted p) source)) p.

(** src/vmm/emulate_plic.c:117-145 plic_mmio_read *)
Definition plic_mmio_read (addr access_size : Z) (p : plic_state) : Z * plic_state :=
  let offset := u32 (addr - plic_base p) in
  if offset <? PLIC_REG_PRIORITY_BASE + 4 * PLIC_NR_SOURCES then
    (arr (priority p) (offset / 4), p)
  else if (PLIC_REG_PENDING_BASE <=? offset) && (offset <? PLIC_REG_ENABLE_BASE) then
    (if offset =? PLIC_REG_PENDING_BASE then pending p else 0, p)
  else if (PLIC_REG_ENABLE_BASE <=? offset) && (offset <? PLIC_REG_CONTEXT_BASE) then
    let context := (offset - PLIC_REG_ENABLE_BASE) / PLIC_REG_ENABLE_STRIDE in
    let word := (offset - PLIC_REG_ENABLE_BASE) mod PLIC_REG_ENABLE_STRIDE / 4 in
    (if (context <? nr_contexts p) && (word =? 0) then arr (enable p) context else 0, p)
  else if PLIC_REG_CONTEXT_BASE <=? offset then
    let context := (offset - PLIC_REG_CONTEXT_BASE) / PLIC_REG_CONTEXT_STRIDE in
    let reg := (offset - PLIC_REG_CONTEXT_BASE) mod PLIC_REG_CONTEXT_STRIDE in
    if context <? nr_contexts p then
      if reg =? PLIC_REG_CONTEXT_THRESHOLD then (arr (threshold p) context, p)
      else if reg =? PLIC_REG_CONTEXT_CLAIM then plic_claim context p
      else (0, p)
    else (0, p)
  else (0, p).

(** src/vmm/emulate_plic.c:147-177 plic_mmio_write *)
Definition plic_mmio_write (addr access_size value : Z) (p : plic_state) : plic_state :=
  let offset := u32 (addr - plic_base p) in
  if offset <? PLIC_REG_PRIORITY_BASE + 4 * PLIC_NR_SOURCES then
    if truthy (offset / 4) then set_priority (set_arr (offset / 4) (u32 value) (priority p)) p else p
  else if (PLIC_REG_PENDING_BASE <=? offset) && (offset <? PLIC_REG_ENABLE_BASE) then p
  else if (PLIC_REG_ENABLE_BASE <=? offset) && (offset <? PLIC_REG_CONTEXT_BASE) then
    let context := (offset - PLIC_REG_ENABLE_BASE) / PLIC_REG_ENABLE_STRIDE in
    let word := (offset - PLIC_REG_ENABLE_BASE) mod PLIC_REG_ENABLE_STRIDE / 4 in
    if (context <? nr_contexts p) && (word =? 0)
    then set_enable (set_arr context (u32 value) (enable p)) p else p
  else if PLIC_REG_CONTEXT_BASE <=? offset then
    let context := (offset - PLIC_REG_CONTEXT_BASE) / PLIC_REG_CONTEXT_STRIDE in
    let reg := (offset - PLIC_REG_CONTEXT_BASE) mod PLIC_REG_CONTEXT_STRIDE in
    if context <? nr_contexts p then
      if reg =? PLIC_REG_CONTEXT_THRESHOLD
      then set_threshold (set_arr context (u32 value) (threshold p)) p
      else if reg =? PLIC_REG_CONTEXT_CLAIM then plic_complete context (u32 value) p
      else p
    else p
  else p.

(** The state [plic_init] leaves.
    src/vmm/emulate_plic.c:233-254 plic_init *)
Definition plic_init (base nr_harts : Z) : plic_state :=
  {| plic_base := base; nr_contexts := nr_harts * PLIC_CONTEXTS_PER_HART;
     priority := replicate (Z.to_nat PLIC_NR_SOURCES) 0; asserted := 0; pending := 0; claimed := 0;
     enable := replicate (Z.to_nat PLIC_MAX_CONTEXTS) 0;
     threshold := replicate (Z.to_nat PLIC_MAX_CONTEXTS) 0 |}.

(** ** Specification *)

(** Source [s] may interrupt context [context]. *)
Definition qualifies (p : plic_state) (context s : Z) : Prop :=
  1 <= s < PLIC_NR_SOURCES /\ Z.testbit (pending p) s = true /\ Z.testbit (claimed p) s = false /\
  Z.testbit (arr (enable p) context) s = true /\ arr (threshold p) context < arr (priority p) s.

Record plic_wf (p : plic_state) : Prop := {
  plic_priorities : Forall (is_uint 32) (priority p);
  plic_thresholds : Forall (is_uint 32) (threshold p);
  plic_pending : pending p = asserted p
}.

(** Best among the sources below [s]: [b] with priority [q], or none (0, 0). *)
Definition best_below (ok : Z -> Prop) (prio : list Z) (s b q : Z) : Prop :=
  (b = 0 /\ q = 0 /\ forall t, 1 <= t < s -> ~ ok t) \/
  (1 <= b < s /\ ok b /\ q = arr prio b /\
   forall t, 1 <= t < s -> ok t -> arr prio t <= q /\ (arr prio t = q -> b <= t)).

Lemma best_source_loop_spec left s cand prio thr b q :
  Forall (is_uint 32) prio -> 0 <= thr -> 1 <= s ->
  let ok t := bit_set cand t = true /\ thr < arr prio t in
  best_below ok prio s b q ->
  exists q', best_below ok prio (s + Z.of_nat left) (best_source_loop left s cand prio thr b q) q'.
Proof.
  intros HF Ht Hs ok. revert s Hs b q. induction left as [|left IH]; intros s Hs b q HB;
    cbn [best_source_loop].
  { exists q. by rewrite Z.add_0_r. }
  replace (s + Z.of_nat (S left)) with (s + 1 + Z.of_nat left) by lia.
  assert (Hskip : ~ ok s -> best_below ok prio (s + 1) b q).
  { intros Hno. destruct HB as [(-> & -> & Hn)|(Hb & Hok & -> & Hm)]; [left|right].
    - repeat split; try done. intros t Ht'. destruct (Z.eq_dec t s) as [->|]; [done|]. apply Hn. lia.
    - split; [lia|]. split; [done|]. split; [done|]. intros t Ht' Hokt.
      destruct (Z.eq_dec t s) as [->|]; [done|]. apply Hm; [lia|done]. }
  destruct (bit_set cand s) eqn:Hc; cbn [negb].
  2: { apply IH; [lia|]. apply Hskip. intros [? _]. congruence. }
  destruct (Z.leb_spec (arr prio s) thr).
  { apply IH; [lia|]. apply Hskip. intros [_ ?]. lia. }
  assert (Hoks : ok s) by done.
  destruct (Z.ltb_spec q (arr prio s)); apply IH; try lia.
  - right. split; [lia|]. split; [done|]. split; [done|]. intros t Ht' Hokt.
    destruct (Z.eq_dec t s) as [->|]; [lia|].
    destruct HB as [(-> & -> & Hn)|(Hb & Hok & -> & Hm)]; [by destruct (Hn t); [lia|]|].
    destruct (Hm t ltac:(lia) Hokt). lia.
  - destruct HB as [(-> & -> & Hn)|(Hb & Hok & -> & Hm)]; [exfalso; lia|].
    right. split; [lia|]. split; [done|]. split; [done|]. intros t Ht' Hokt.
    destruct (Z.eq_dec t s) as [->|]; [lia|]. apply Hm; [lia|done].
Qed.

Lemma candidates_ok p context s : 1 <= s < PLIC_NR_SOURCES ->
  bit_set (Z.land (Z.land (pending p) (u32 (Z.lnot (claimed p)))) (arr (enable p) context)) s = true <->
  Z.testbit (pending p) s = true /\ Z.testbit (claimed p) s = false /\
  Z.testbit (arr (enable p) context) s = true.
Proof.
  unfold PLIC_NR_SOURCES. intros Hs. rewrite bit_set_testbit by lia.
  rewrite !Z.land_spec, testbit_u32, Z.lnot_spec by lia.
  destruct (Z.ltb_spec s 32); [|lia]. cbn [andb].
  destruct (Z.testbit (pending p) s), (Z.testbit (claimed p) s),
    (Z.testbit (arr (enable p) context) s); cbn; intuition congruence.
Qed.

Lemma best_source_spec p context :
  plic_wf p ->
  let b := plic_best_source context p in
  (b = 0 /\ forall s, ~ qualifies p context s) \/
  (qualifies p context b /\ forall s, qualifies p context s ->
     arr (priority p) s <= arr (priority p) b /\ (arr (priority p) s = arr (priority p) b -> b <= s)).
Proof.
  intros [HF1 HF2 _]. cbv zeta. unfold plic_best_source.
  set (cand := Z.land _ _). set (thr := arr (threshold p) context).
  assert (Hthr : 0 <= thr) by (apply (arr_uint 32); [lia|done]).
  destruct (best_source_loop_spec (Z.to_nat (PLIC_NR_SOURCES - 1)) 1 cand (priority p) thr 0 0)
    as (q & HB); [done|done|lia| |].
  { left. repeat split; try done. lia. }
  replace (1 + Z.of_nat (Z.to_nat (PLIC_NR_SOURCES - 1))) with PLIC_NR_SOURCES in HB by done.
  set (b := best_source_loop _ _ _ _ _ _ _) in *.
  assert (Hq : forall s, qualifies p context s <->
    1 <= s < PLIC_NR_SOURCES /\ bit_set cand s = true /\ thr < arr (priority p) s).
  { intros s. unfold qualifies. split.
    - intros (Hs & H). split; [done|]. split; [|tauto]. apply candidates_ok; [done|tauto].
    - intros (Hs & H & H'). apply candidates_ok in H as (? & ? & ?); done. }
  destruct HB as [(-> & _ & Hn)|(Hb & Hok & -> & Hm)]; [left|right].
  - split; [done|]. intros s Hs%Hq. destruct Hs as (Hs & Hok). by apply (Hn s).
  - split; [apply Hq; done|]. intros s Hs%Hq. destruct Hs as (Hs & Hok'). by apply Hm.
Qed.

(** ** Events *)

(** What can happen to the controller: a device drives its line, or the guest
    accesses a register. *)
Inductive plic_event :=
  | Line (source : Z) (level : bool)
  | Read (addr size : Z)
  | Write (addr size value : Z).

Definition plic_step (e : plic_event) (p : plic_state) : option plic_state :=
  match e with
  | Line s b => plic_set_pending s b p
  | Read a n => Some (plic_mmio_read a n p).2
  | Write a n v => Some (plic_mmio_write a n v p)
  end.

Fixpoint plic_run (es : list plic_event) (p : plic_state) : option plic_state :=
  match es with
  | [] => Some p
  | e :: es => p ← plic_step e p; plic_run es p
  end.

(** A write of [s] to the claim/complete register of a context. *)
Definition completes (base s : Z) (e : plic_event) : bool :=
  match e with
  | Write a _ v =>
      let offset := u32 (a - base) in
      (PLIC_REG_CONTEXT_BASE <=? offset) &&
      ((offset - PLIC_REG_CONTEXT_BASE) mod PLIC_REG_CONTEXT_STRIDE =? PLIC_REG_CONTEXT_CLAIM) &&
      (u32 v =? s)
  | _ => false
  end.

Lemma plic_complete_wf context s p : 0 <= s -> plic_wf p -> plic_wf (plic_complete context s p).
Proof.
  intros Hs [HF1 HF2 HP]. unfold plic_complete. case_test; [done|]. split; cbn; try done.
  rewrite HP. apply Z.bits_inj'. intros i Hi.
  rewrite testbit_put_bit, bit_set_testbit by lia. destruct (Z.eqb_spec s i); by subst.
Qed.

Lemma plic_step_wf e p p' : plic_wf p -> plic_step e p = Some p' -> plic_wf p'.
Proof.
  intros HW. pose proof HW as [HF1 HF2 HP]. destruct e as [s b|a n|a n v]; cbn [plic_step].
  - unfold plic_set_pending. case_test; [done|]. intros [= <-]. split; cbn; try done. by rewrite HP.
  - intros [= <-]. unfold plic_mmio_read. cbv zeta. repeat case_test; cbn; try done.
    unfold plic_claim. case_test; done.
  - intros [= <-]. unfold plic_mmio_write. cbv zeta. repeat case_test; try done.
    + split; cbn; try done. apply Forall_insert; [done|]. apply u32_range.
    + split; cbn; try done. apply Forall_insert; [done|]. apply u32_range.
    + apply plic_complete_wf; [|done]. apply u32_range.
Qed.

Lemma plic_run_wf es p p' : plic_wf p -> plic_run es p = Some p' -> plic_wf p'.
Proof.
  revert p. induction es as [|e es IH]; intros p HW; cbn [plic_run].
  - by intros [= <-].
  - intros (p1 & E & Hr)%bind_Some. eapply IH; [|exact Hr]. by eapply plic_step_wf.
Qed.

Lemma best_source_range p context : plic_wf p -> 0 <= plic_best_source context p < PLIC_NR_SOURCES.
Proof.
  intros HW. destruct (best_source_spec p context HW) as [[-> _]|[(H & _) _]]; [done|lia].
Qed.

(** A claimed source stays claimed until it is completed. *)
Lemma plic_step_claimed e p p' s :
  plic_wf p -> 0 <= s -> Z.testbit (claimed p) s = true -> completes (plic_base p) s e = false ->
  plic_step e p = Some p' -> Z.testbit (claimed p') s = true /\ plic_base p' = plic_base p.
Proof.
  intros HW Hs Hc Hnc. destruct e as [s' b|a n|a n v]; cbn [plic_step].
  - unfold plic_set_pending. case_test; [done|]. by intros [= <-].
  - intros [= <-]. unfold plic_mmio_read. cbv zeta. repeat case_test; cbn; try done.
    unfold plic_claim. pose proof (best_source_range p ((u32 (a - plic_base p) - PLIC_REG_CONTEXT_BASE) / PLIC_REG_CONTEXT_STRIDE) HW).
    case_test; [|done]. cbn. rewrite testbit_put_bit by lia. by destruct (_ =? s).
  - intros [= <-]. cbn [completes] in Hnc. cbv zeta in Hnc. unfold plic_mmio_write. cbv zeta.
    repeat case_test; cbn; try done. unfold plic_complete. case_test; [done|]. cbn.
    split; [|done]. rewrite testbit_put_bit; [|apply u32_range|done].
    destruct (Z.eqb_spec (u32 v) s) as [E'|]; [|done].
    discriminate Hnc.
Qed.

(** ** Properties *)

(** The source offered to a context. [plic_best_source] returns 0 exactly when
    no source qualifies (pending, not claimed, enabled for the context, priority
    above its threshold); otherwise it returns a qualifying source of the highest
    priority, and the lowest-numbered one among equals. *)
Theorem plic_best_source_correct p context :
  plic_wf p ->
  let b := plic_best_source context p in
  (b = 0 <-> forall s, ~ qualifies p context s) /\
  (b <> 0 -> qualifies p context b) /\
  (forall s, qualifies p context s ->
     arr (priority p) s < arr (priority p) b \/ (arr (priority p) s = arr (priority p) b /\ b <= s)).
Proof.
  intros HW. cbv zeta. destruct (best_source_spec p context HW) as [[-> Hn]|[Hq Hm]].
  - repeat split; try done. intros s Hs. by destruct (Hn s).
  - pose proof Hq as (Hr & _). split; [|split].
    + split; [lia|]. intros Hn. by destruct (Hn _ Hq).
    + done.
    + intros s Hs. destruct (Hm s Hs). lia.
Qed.

(** C28. One handler per claim. Once a context has claimed source [s], no context is
    offered [s] again, whatever the devices and the guest do, until the guest writes
    [s] to a claim/complete register. *)
Theorem plic_claim_exclusive p context es p' :
  plic_wf p ->
  let (s, p1) := plic_claim context p in
  s <> 0 -> Forall (fun e => completes (plic_base p) s e = false) es ->
  plic_run es p1 = Some p' ->
  forall context', plic_best_source context' p' <> s.
Proof.
  intros HW. unfold plic_claim. pose proof (best_source_range p context HW) as Hr.
  set (s := plic_best_source context p) in *. intros Hs Hes Hrun context'.
  unfold truthy in Hrun. destruct (Z.eqb_spec s 0); [done|]. cbn [negb] in Hrun.
  set (p1 := set_claimed (put_bit (claimed p) s true) p) in *.
  assert (HW1 : plic_wf p1) by by destruct HW.
  assert (Hc1 : Z.testbit (claimed p1) s = true).
  { cbn. rewrite testbit_put_bit, Z.eqb_refl by lia. done. }
  change (plic_base p) with (plic_base p1) in Hes.
  assert (Hc : Z.testbit (claimed p') s = true).
  { clearbody p1 s. clear HW n. revert p1 HW1 Hc1 Hes Hrun.
    induction es as [|e es IH]; intros p1 HW1 Hc1 Hes; cbn [plic_run].
    - by intros [= <-].
    - intros (p2 & E & Hrun)%bind_Some. inversion Hes as [|? ? He Hes']; subst.
      destruct (plic_step_claimed e p1 p2 s HW1 ltac:(lia) Hc1 He E) as [Hc2 Hb].
      apply (IH p2); [by eapply plic_step_wf|done|by rewrite Hb|done]. }
  pose proof (plic_run_wf es p1 p' HW1 Hrun) as HW'.
  destruct (best_source_spec p' context' HW') as [[-> _]|[(_ & _ & Hnc & _) _]]; [done|].
  intros E. rewrite E in Hnc. congruence.
Qed.

(** Completion. After the guest completes source [s], the source can be offered
    to a context exactly when its device still asserts the line (and the context
    enables it above its threshold): a level-triggered interrupt fires again, a
    served one does not. *)
Theorem plic_complete_rearms p context s context' :
  plic_wf p -> 1 <= s < PLIC_NR_SOURCES ->
  qualifies (plic_complete context s p) context' s <->
  Z.testbit (asserted p) s = true /\ Z.testbit (arr (enable p) context') s = true /\
  arr (threshold p) context' < arr (priority p) s.
Proof.
  intros HW Hs. unfold qualifies, plic_complete, PLIC_NR_SOURCES in *.
  destruct (Z.eqb_spec s 0); [lia|]. destruct (Z.leb_spec 32 s); [lia|]. cbn.
  rewrite !testbit_put_bit, Z.eqb_refl, bit_set_testbit by lia. tauto.
Qed.

(** The pending register tells the truth: from reset, after any sequence of
    line changes and register accesses, the pending word equals the lines the
    devices assert. *)
Theorem plic_pending_is_asserted base nr_harts es p :
  plic_run es (plic_init base nr_harts) = Some p -> pending p = asserted p.
Proof.
  intros Hrun. apply (plic_run_wf es (plic_init base nr_harts)); [|done].
  split; cbn -[replicate Z.to_nat]; try done; by apply Forall_replicate.
Qed.

(** External interrupt lines. [plic_refresh_pending] sets MEIP (SEIP) exactly
    when some source qualifies for the hart's machine (supervisor) context, and
    changes no other pending bit. *)
Theorem plic_refresh_pending_exact p h i :
  plic_wf p -> 0 <= i < 32 ->
  let m := PLIC_CONTEXT_MACHINE (hart_id h) in
  let s := PLIC_CONTEXT_SUPERVISOR (hart_id h) in
  let set := Z.testbit (ipending (plic_refresh_pending p h)) i = true in
  (i = 11 -> set <-> exists src, qualifies p m src) /\
  (i = 9 -> set <-> exists src, qualifies p s src) /\
  (i <> 11 -> i <> 9 -> Z.testbit (ipending (plic_refresh_pending p h)) i = Z.testbit (ipending h) i).
Proof.
  intros HW Hi. cbv zeta. unfold plic_refresh_pending. cbn [ipending set_ipending].
  assert (Hex : forall c, truthy (plic_best_source c p) = true <-> exists src, qualifies p c src).
  { intros c. unfold truthy. rewrite negb_true_iff, Z.eqb_neq.
    destruct (best_source_spec p c HW) as [[-> Hn]|[Hq _]].
    - split; [done|]. intros [src Hs]. by destruct (Hn src).
    - split; [by eauto|]. destruct Hq. lia. }
  split; [|split].
  - intros ->. rewrite !testbit_put_bit by lia. cbn [Z.eqb Pos.eqb]. apply Hex.
  - intros ->. rewrite !testbit_put_bit by lia. cbn [Z.eqb Pos.eqb]. apply Hex.
  - intros H1 H2. rewrite !testbit_put_bit by lia.
    destruct (Z.eqb_spec 9 i), (Z.eqb_spec 11 i); done || lia.
Qed.

Module Witness.
(** The uart asserts its line, with priority 1 and enabled for context 1. *)
Definition uart_asserted : list plic_event :=
  [Write 0x0c000028 4 1; Write 0x0c002080 4 0x400; Line 10 true].
Definition board : plic_state :=
  default (plic_init 0x0c000000 1) (plic_run uart_asserted (plic_init 0x0c000000 1)).

Lemma plic_start_wf : plic_wf board.
Proof.
  eapply (plic_run_wf uart_asserted (plic_init 0x0c000000 1)); [|reflexivity].
  split; cbn -[replicate Z.to_nat]; try done; by apply Forall_replicate.
Qed.

Lemma uart_qualifies : qualifies board 1 10.
Proof. repeat split; vm_compute; congruence. Qed.

Lemma plic_best_source_correct_witness : plic_best_source 1 board <> 0.
Proof.
  destruct (plic_best_source_correct board 1 plic_start_wf) as [H _].
  intros E. exact (proj1 H E 10 uart_qualifies).
Defined.

(** The device drops and raises its line again; source 10 is not offered. *)
Definition redriven : plic_state :=
  default board (plic_run [Line 10 false; Line 10 true] (plic_claim 1 board).2).

Lemma plic_claim_exclusive_witness : pending redriven = 2 ^ 10 /\ plic_best_source 1 redriven <> 10.
Proof.
  split; [by vm_compute|].
  apply (plic_claim_exclusive board 1 [Line 10 false; Line 10 true] redriven plic_start_wf).
  - vm_compute. congruence.
  - repeat constructor.
  - reflexivity.
Defined.

Lemma plic_complete_rearms_witness : qualifies (plic_complete 1 10 (plic_claim 1 board).2) 1 10.
Proof.
  apply (plic_complete_rearms (plic_claim 1 board).2 1 10 1).
  - destruct plic_start_wf. split; done.
  - done.
  - repeat split; vm_compute; congruence.
Defined.

Lemma plic_pending_is_asserted_witness : pending board = asserted board.
Proof. apply (plic_pending_is_asserted 0x0c000000 1 uart_asserted board). reflexivity. Defined.

Lemma plic_refresh_pending_exact_witness :
  Z.testbit (ipending (plic_refresh_pending board (Concrete.empty_hart 0))) 9 = true.
Proof.
  apply (proj1 (proj2 (plic_refresh_pending_exact board (Concrete.empty_hart 0) 9 plic_start_wf ltac:(lia))) eq_refl).
  exists 10. exact uart_qualifies.
Defined.
End Witness.
