(* ===== verification/Uart.v ===== *)
(** * The console uart

    Models src/vmm/emulate_uart.c: the receive fifo (a 256-byte ring), the escape
    sequence of the host terminal, the interrupt line into the interrupt controller
    and the memory-mapped registers of the NS16550. The host terminal itself is
    outside: what [read] returned is an argument of [uart_poll_input], and what
    [write] sends to the terminal is a result of [uart_mmio_write].

    Proved here: the ring is a queue of at most 255 bytes (a push to a full queue is
    dropped); splitting the host's input at any point changes nothing; after every
    register access the interrupt line is up exactly when the interrupt
    identification register reports an interrupt. *)

From S2P Require Import Prelude Hart Clint Plic.
Local Open Scope Z_scope.

Definition UART_16550_BASE : Z := 0x10000000.
Definition UART_REG_QUEUE : Z := 0.
Definition UART_REG_IER : Z := 1.
Definition UART_REG_IIR : Z := 2.
Definition UART_REG_FCR : Z := 2.
Definition UART_REG_LCR : Z := 3.
Definition UART_REG_MCR : Z := 4.
Definition UART_REG_LSR : Z := 5.
Definition UART_REG_MSR : Z := 6.
Definition UART_REG_SCR : Z := 7.
Definition UART_IER_RX_AVAIL : Z := 0x01.
Definition UART_IER_THR_EMPTY : Z := 0x02.
Definition UART_IIR_NO_INT : Z := 0x01.
Definition UART_IIR_THR_EMPTY : Z := 0x02.
Definition UART_IIR_RX_AVAIL : Z := 0x04.
Definition UART_IIR_FIFO : Z := 0xc0.
Definition UART_LCR_DLAB : Z := 0x80.
Definition UART_LSR_DR : Z := 0x01.
Definition UART_LSR_THRE : Z := 0x20.
Definition UART_LSR_TEMT : Z := 0x40.
Definition UART_MSR_CTS : Z := 0x10.
Definition UART_MSR_DSR : Z := 0x20.
Definition UART_MSR_DCD : Z := 0x80.
Definition UART_RX_FIFO_SIZE : Z := 256.
Definition UART_ESCAPE_CHAR : Z := 0x01.

(** src/vmm/emulate_uart.c:56-71 uart_state *)
Record uart_state := {
  ier : Z; lcr : Z; mcr : Z; fcr : Z; scr : Z; dll : Z; dlm : Z;
  rx_fifo : list Z;
  rx_head : Z;
  rx_tail : Z;
  console_attached : bool;
  escape_armed : bool
}.

Definition set_ier v (u : uart_state) : uart_state :=
  {| ier := v; lcr := lcr u; mcr := mcr u; fcr := fcr u; scr := scr u; dll := dll u; dlm := dlm u;
     rx_fifo := rx_fifo u; rx_head := rx_head u; rx_tail := rx_tail u;
     console_attached := console_attached u; escape_armed := escape_armed u |}.
Definition set_lcr v (u : uart_state) : uart_state :=
  {| ier := ier u; lcr := v; mcr := mcr u; fcr := fcr u; scr := scr u; dll := dll u; dlm := dlm u;
     rx_fifo := rx_fifo u; rx_head := rx_head u; rx_tail := rx_tail u;
     console_attached := console_attached u; escape_armed := escape_armed u |}.
Definition set_mcr v (u : uart_state) : uart_state :=
  {| ier := ier u; lcr := lcr u; mcr := v; fcr := fcr u; scr := scr u; dll := dll u; dlm := dlm u;
     rx_fifo := rx_fifo u; rx_head := rx_head u; rx_tail := rx_tail u;
     console_attached := console_attached u; escape_armed := escape_armed u |}.
Definition set_fcr v (u : uart_state) : uart_state :=
  {| ier := ier u; lcr := lcr u; mcr := mcr u; fcr := v; scr := scr u; dll := dll u; dlm := dlm u;
     rx_fifo := rx_fifo u; rx_head := rx_head u; rx_tail := rx_tail u;
     console_attached := console_attached u; escape_armed := escape_armed u |}.
Definition set_scr v (u : uart_state) : uart_state :=
  {| ier := ier u; lcr := lcr u; mcr := mcr u; fcr := fcr u; scr := v; dll := dll u; dlm := dlm u;
     rx_fifo := rx_fifo u; rx_head := rx_head u; rx_tail := rx_tail u;
     console_attached := console_attached u; escape_armed := escape_armed u |}.
Definition set_divisor l m (u : uart_state) : uart_state :=
  {| ier := ier u; lcr := lcr u; mcr := mcr u; fcr := fcr u; scr := scr u; dll := l; dlm := m;
     rx_fifo := rx_fifo u; rx_head := rx_head u; rx_tail := rx_tail u;
     console_attached := console_attached u; escape_armed := escape_armed u |}.
Definition set_ring f hd tl (u : uart_state) : uart_state :=
  {| ier := ier u; lcr := lcr u; mcr := mcr u; fcr := fcr u; scr := scr u; dll := dll u; dlm := dlm u;
     rx_fifo := f; rx_head := hd; rx_tail := tl;
     console_attached := console_attached u; escape_armed := escape_armed u |}.
Definition set_escape_armed v (u : uart_state) : uart_state :=
  {| ier := ier u; lcr := lcr u; mcr := mcr u; fcr := fcr u; scr := scr u; dll := dll u; dlm := dlm u;
     rx_fifo := rx_fifo u; rx_head := rx_head u; rx_tail := rx_tail u;
     console_attached := console_attached u; escape_armed := v |}.

(** ** The receive ring *)

(** src/vmm/emulate_uart.c:129-133 uart_rx_empty *)
Definition uart_rx_empty (u : uart_state) : bool := rx_head u =? rx_tail u.

(** src/vmm/emulate_uart.c:135-145 uart_rx_push *)
Definition uart_rx_push (ch : Z) (u : uart_state) : uart_state :=
  let next := (rx_tail u + 1) mod UART_RX_FIFO_SIZE in
  if next =? rx_head u then u
  else set_ring (set_arr (rx_tail u) ch (rx_fifo u)) (rx_head u) next u.

(** src/vmm/emulate_uart.c:147-157 uart_rx_pop *)
Definition uart_rx_pop (u : uart_state) : Z * uart_state :=
  if uart_rx_empty u then (0, u)
  else (arr (rx_fifo u) (rx_head u),
        set_ring (rx_fifo u) ((rx_head u + 1) mod UART_RX_FIFO_SIZE) (rx_tail u) u).

(** One byte of the host's input; the boolean says that the operator asked to
    leave ([exit(0)]).
    src/vmm/emulate_uart.c:181-202 uart_poll_input *)
Definition uart_input_byte (ch : Z) (u : uart_state) : bool * uart_state :=
  if escape_armed u then
    let u := set_escape_armed false u in
    if ch =? 0x78 then (true, u)
    else if ch =? UART_ESCAPE_CHAR then (false, uart_rx_push UART_ESCAPE_CHAR u)
    else (false, uart_rx_push ch u)
  else if ch =? UART_ESCAPE_CHAR then (false, set_escape_armed true u)
  else (false, uart_rx_push ch u).

Fixpoint uart_input (buf : list Z) (u : uart_state) : bool * uart_state :=
  match buf with
  | [] => (false, u)
  | ch :: buf =>
      let (quit, u) := uart_input_byte ch u in
      if quit then (true, u) else uart_input buf u
  end.

(** [buf] is what [poll] and [read] gave: at most 64 bytes, none when nothing is
    there. src/vmm/emulate_uart.c:163-203 uart_poll_input *)
Definition uart_poll_input (buf : list Z) (u : uart_state) : bool * uart_state :=
  if negb (console_attached u) then (false, u) else uart_input buf u.

(** ** Interrupts *)

(** src/vmm/emulate_uart.c:209-219 uart_interrupt_pending *)
Definition uart_interrupt_pending (u : uart_state) : bool :=
  if truthy (Z.land (ier u) UART_IER_RX_AVAIL) && negb (uart_rx_empty u) then true
  else truthy (Z.land (ier u) UART_IER_THR_EMPTY).

(** src/vmm/emulate_uart.c:221-225 uart_refresh_interrupt *)
Definition uart_refresh_interrupt (u : uart_state) (p : plic_state) : option plic_state :=
  plic_set_pending PLIC_IRQ_UART0 (uart_interrupt_pending u) p.

(** ** The registers *)

Definition uart_iir (u : uart_state) : Z :=
  Z.lor (if truthy (Z.land (ier u) UART_IER_RX_AVAIL) && negb (uart_rx_empty u)
         then UART_IIR_RX_AVAIL
         else if truthy (Z.land (ier u) UART_IER_THR_EMPTY) then UART_IIR_THR_EMPTY
         else UART_IIR_NO_INT) UART_IIR_FIFO.

Definition uart_lsr (u : uart_state) : Z :=
  let ret := Z.lor UART_LSR_TEMT UART_LSR_THRE in
  if negb (uart_rx_empty u) then Z.lor ret UART_LSR_DR else ret.

Definition dlab (u : uart_state) : bool := truthy (Z.land (lcr u) UART_LCR_DLAB).

(** src/vmm/emulate_uart.c:227-282 uart_mmio_read *)
Definition uart_mmio_read (addr access_size : Z) (u : uart_state) (p : plic_state) :
    option (Z * uart_state * plic_state) :=
  let reg := u32 (addr - UART_16550_BASE) in
  let (ret, u) :=
    if reg =? UART_REG_QUEUE then if dlab u then (dll u, u) else uart_rx_pop u
    else if reg =? UART_REG_IER then (if dlab u then dlm u else ier u, u)
    else if reg =? UART_REG_IIR then (uart_iir u, u)
    else if reg =? UART_REG_LCR then (lcr u, u)
    else if reg =? UART_REG_MCR then (mcr u, u)
    else if reg =? UART_REG_LSR then (uart_lsr u, u)
    else if reg =? UART_REG_MSR then
      (Z.lor (Z.lor UART_MSR_CTS UART_MSR_DSR) UART_MSR_DCD, u)
    else if reg =? UART_REG_SCR then (scr u, u)
    else (0, u) in
  p ← uart_refresh_interrupt u p;
  Some (ret, u, p).

(** The bytes written to the host's terminal come first in the result.
    src/vmm/emulate_uart.c:284-332 uart_mmio_write *)
Definition uart_mmio_write (addr access_size value : Z) (u : uart_state) (p : plic_state) :
    option (list Z * uart_state * plic_state) :=
  let reg := u32 (addr - UART_16550_BASE) in
  let v := u8 value in
  if negb (access_size =? 1) then Some ([], u, p) else
  let (out, u) :=
    if reg =? UART_REG_QUEUE then
      if dlab u then ([], set_divisor v (dlm u) u) else ([v], u)
    else if reg =? UART_REG_IER then
      ([], if dlab u then set_divisor (dll u) v u else set_ier (Z.land v 0x0f) u)
    else if reg =? UART_REG_FCR then
      ([], let u := set_fcr v u in if truthy (Z.land v 0x2) then set_ring (rx_fifo u) 0 0 u else u)
    else if reg =? UART_REG_LCR then ([], set_lcr v u)
    else if reg =? UART_REG_MCR then ([], set_mcr v u)
    else if reg =? UART_REG_SCR then ([], set_scr v u)
    else ([], u) in
  p ← uart_refresh_interrupt u p;
  Some (out, u, p).

(** [attached]: whether the terminal could be set up.
    src/vmm/emulate_uart.c:357-372 uart_init *)
Definition uart_init (attached : bool) : uart_state :=
  {| ier := 0; lcr := 0; mcr := 0; fcr := 0; scr := 0; dll := 0x03; dlm := 0;
     rx_fifo := replicate (Z.to_nat UART_RX_FIFO_SIZE) 0; rx_head := 0; rx_tail := 0;
     console_attached := attached; escape_armed := false |}.

(** ** The ring as a queue *)

Record uart_wf (u : uart_state) : Prop := {
  ring_length : length (rx_fifo u) = Z.to_nat UART_RX_FIFO_SIZE;
  ring_head : 0 <= rx_head u < UART_RX_FIFO_SIZE;
  ring_tail : 0 <= rx_tail u < UART_RX_FIFO_SIZE
}.

(** [n] bytes of the ring from index [i] on. *)
Fixpoint ring_from (f : list Z) (n : nat) (i : Z) : list Z :=
  match n with
  | O => []
  | S n => arr f i :: ring_from f n ((i + 1) mod UART_RX_FIFO_SIZE)
  end.

Definition ring_size (u : uart_state) : Z := (rx_tail u - rx_head u) mod UART_RX_FIFO_SIZE.
Definition ring_bytes (u : uart_state) : list Z :=
  ring_from (rx_fifo u) (Z.to_nat (ring_size u)) (rx_head u).

Lemma ring_from_snoc f n i :
  0 <= i < UART_RX_FIFO_SIZE ->
  ring_from f (S n) i = ring_from f n i ++ [arr f ((i + Z.of_nat n) mod UART_RX_FIFO_SIZE)].
Proof.
  revert i. induction n as [|n IH]; intros i Hi.
  - cbn. rewrite Z.add_0_r, Z.mod_small by done. done.
  - assert (Hm : 0 <= (i + 1) mod UART_RX_FIFO_SIZE < UART_RX_FIFO_SIZE)
      by (apply Z.mod_pos_bound; unfold UART_RX_FIFO_SIZE; lia).
    change (ring_from f (S (S n)) i) with
      (arr f i :: ring_from f (S n) ((i + 1) mod UART_RX_FIFO_SIZE)).
    rewrite IH by done. cbn [ring_from app]. do 4 f_equal.
    rewrite Zplus_mod_idemp_l. f_equal. lia.
Qed.

(** Writing outside the used part changes none of its bytes. *)
Lemma ring_from_outside f n i j v :
  0 <= i < UART_RX_FIFO_SIZE -> 0 <= j < UART_RX_FIFO_SIZE ->
  Z.of_nat n <= (j - i) mod UART_RX_FIFO_SIZE ->
  ring_from (set_arr j v f) n i = ring_from f n i.
Proof.
  revert i. induction n as [|n IH]; intros i Hi Hj Hn; [done|]. cbn [ring_from].
  unfold UART_RX_FIFO_SIZE in *. rewrite arr_set_other; [|lia|lia|].
  - f_equal. apply IH; [apply Z.mod_pos_bound; lia|done|].
    rewrite Zminus_mod_idemp_r. dlia.
  - intros ->. rewrite Z.sub_diag in Hn. change (0 mod 256) with 0 in Hn. lia.
Qed.

Lemma length_ring_from f n i : length (ring_from f n i) = n.
Proof. revert i. induction n as [|n IH]; intros i; cbn; [done|by rewrite IH]. Qed.

Lemma ring_empty u : uart_wf u -> uart_rx_empty u = true <-> ring_bytes u = [].
Proof.
  intros [_ Hh Ht]. unfold uart_rx_empty, ring_bytes, ring_size, UART_RX_FIFO_SIZE in *.
  rewrite Z.eqb_eq. split.
  - intros ->. by rewrite Z.sub_diag.
  - intros E%(f_equal length). rewrite length_ring_from in E. cbn in E. dlia.
Qed.

Lemma push_spec ch u : uart_wf u ->
  uart_wf (uart_rx_push ch u) /\
  ring_bytes (uart_rx_push ch u) =
  (if Z.of_nat (length (ring_bytes u)) <? UART_RX_FIFO_SIZE - 1 then ring_bytes u ++ [ch] else ring_bytes u).
Proof.
  intros [Hl Hh Ht].
  assert (Hlen : Z.of_nat (length (ring_bytes u)) = ring_size u).
  { unfold ring_bytes. rewrite length_ring_from. unfold ring_size, UART_RX_FIFO_SIZE in *. dlia. }
  rewrite Hlen. unfold uart_rx_push. cbv zeta.
  destruct (Z.eqb_spec ((rx_tail u + 1) mod UART_RX_FIFO_SIZE) (rx_head u)) as [E|E].
  - split; [done|]. destruct (Z.ltb_spec (ring_size u) (UART_RX_FIFO_SIZE - 1)); [|done].
    exfalso. unfold ring_size, UART_RX_FIFO_SIZE in *. dlia.
  - split.
    + split; cbn; [by rewrite length_set_arr|done|]. apply Z.mod_pos_bound.
      unfold UART_RX_FIFO_SIZE. lia.
    + destruct (Z.ltb_spec (ring_size u) (UART_RX_FIFO_SIZE - 1)) as [Hlt|Hge].
      2: { exfalso. unfold ring_size, UART_RX_FIFO_SIZE in *. dlia. }
      unfold ring_bytes. cbn [rx_fifo rx_head set_ring].
      assert (Hsz : Z.to_nat (ring_size (set_ring (set_arr (rx_tail u) ch (rx_fifo u)) (rx_head u)
        ((rx_tail u + 1) mod UART_RX_FIFO_SIZE) u)) = S (Z.to_nat (ring_size u))).
      { unfold ring_size in *. cbn [rx_head rx_tail set_ring]. unfold UART_RX_FIFO_SIZE in *. dlia. }
      rewrite Hsz.
      rewrite ring_from_snoc by done.
      assert (Hpos : (rx_head u + Z.of_nat (Z.to_nat (ring_size u))) mod UART_RX_FIFO_SIZE = rx_tail u).
      { unfold ring_size, UART_RX_FIFO_SIZE in *. dlia. }
      rewrite Hpos, arr_set_same by (rewrite Hl; unfold UART_RX_FIFO_SIZE in *; lia).
      f_equal. apply ring_from_outside; try done.
      unfold ring_size, UART_RX_FIFO_SIZE in *. dlia.
Qed.

Lemma pop_spec u : uart_wf u ->
  uart_wf (uart_rx_pop u).2 /\
  match ring_bytes u with
  | [] => uart_rx_pop u = (0, u)
  | ch :: rest => (uart_rx_pop u).1 = ch /\ ring_bytes (uart_rx_pop u).2 = rest
  end.
Proof.
  intros HW. pose proof HW as [Hl Hh Ht]. pose proof (ring_empty u HW) as HE.
  unfold uart_rx_pop. destruct (uart_rx_empty u) eqn:E.
  - split; [done|]. by rewrite (proj1 HE eq_refl).
  - split.
    + split; cbn; [done| |done]. apply Z.mod_pos_bound. unfold UART_RX_FIFO_SIZE. lia.
    + unfold uart_rx_empty in E. apply Z.eqb_neq in E. unfold ring_bytes.
      assert (Hsz : Z.to_nat (ring_size u) = S (Z.to_nat (ring_size (set_ring (rx_fifo u)
        ((rx_head u + 1) mod UART_RX_FIFO_SIZE) (rx_tail u) u)))).
      { unfold ring_size in *. cbn [rx_head rx_tail set_ring]. unfold UART_RX_FIFO_SIZE in *. dlia. }
      rewrite Hsz. done.
Qed.

Lemma uart_input_byte_wf ch u : uart_wf u -> uart_wf (uart_input_byte ch u).2.
Proof.
  intros HW. unfold uart_input_byte. repeat case_test; cbn; try apply push_spec; by destruct HW.
Qed.

Lemma uart_input_app a b u :
  uart_input (a ++ b) u =
  let (quit, u1) := uart_input a u in if quit then (true, u1) else uart_input b u1.
Proof.
  revert u. induction a as [|ch a IH]; intros u; cbn [app uart_input]; [done|].
  destruct (uart_input_byte ch u) as [[] u1]; [done|]. apply IH.
Qed.

(** ** The operator's escape sequence, as a specification of the whole stream *)

(** What the guest is sent for the bytes typed, whether the escape character is
    pending at the end, and whether the operator left. *)
Fixpoint unescape (armed : bool) (typed : list Z) : list Z * bool * bool :=
  match typed with
  | [] => ([], armed, false)
  | ch :: typed =>
      if armed then
        if ch =? 0x78 then ([], false, true)
        else let '(sent, a, q) := unescape false typed in (ch :: sent, a, q)
      else if ch =? UART_ESCAPE_CHAR then unescape true typed
      else let '(sent, a, q) := unescape false typed in (ch :: sent, a, q)
  end.

(** Appending to the queue, the bytes that do not fit dropped. *)
Fixpoint enqueue (queue sent : list Z) : list Z :=
  match sent with
  | [] => queue
  | ch :: sent =>
      enqueue (if Z.of_nat (length queue) <? UART_RX_FIFO_SIZE - 1 then queue ++ [ch] else queue) sent
  end.

Lemma uart_input_spec buf u : uart_wf u ->
  let '(sent, armed, quit) := unescape (escape_armed u) buf in
  let (quit', u') := uart_input buf u in
  quit' = quit /\ escape_armed u' = armed /\ ring_bytes u' = enqueue (ring_bytes u) sent /\ uart_wf u'.
Proof.
  revert u. induction buf as [|ch buf IH]; intros u HW; cbn [unescape uart_input]; [done|].
  pose proof (uart_input_byte_wf ch u HW) as HW1. unfold uart_input_byte in *.
  destruct (escape_armed u) eqn:Ea.
  - assert (HW0 : uart_wf (set_escape_armed false u)) by by destruct HW.
    destruct (ch =? 0x78) eqn:Ex; [done|].
    set (u0 := set_escape_armed false u) in *.
    assert (E : (if ch =? UART_ESCAPE_CHAR then (false, uart_rx_push UART_ESCAPE_CHAR u0)
                 else (false, uart_rx_push ch u0)) = (false, uart_rx_push ch u0)).
    { destruct (Z.eqb_spec ch UART_ESCAPE_CHAR) as [->|]; done. }
    rewrite E in HW1 |- *. specialize (IH (uart_rx_push ch u0) HW1).
    assert (Ha : escape_armed (uart_rx_push ch u0) = false) by (unfold uart_rx_push; by case_test).
    rewrite Ha in IH. destruct (unescape false buf) as [[sent a] q].
    destruct (uart_input buf (uart_rx_push ch u0)) as [q' u'].
    cbn [enqueue]. by rewrite (proj2 (push_spec ch u0 HW0)) in IH.
  - destruct (ch =? UART_ESCAPE_CHAR).
    + specialize (IH (set_escape_armed true u) HW1). exact IH.
    + specialize (IH (uart_rx_push ch u) HW1).
      assert (Ha : escape_armed (uart_rx_push ch u) = false) by (unfold uart_rx_push; by case_test).
      rewrite Ha in IH. destruct (unescape false buf) as [[sent a] q].
      destruct (uart_input buf (uart_rx_push ch u)) as [q' u'].
      cbn [enqueue]. by rewrite (proj2 (push_spec ch u HW)) in IH.
Qed.

Lemma truthy_land_bit x i : 0 <= i -> truthy (Z.land x (Z.shiftl 1 i)) = Z.testbit x i.
Proof. intros. exact (bit_set_testbit x i ltac:(done)). Qed.

(** ** Properties *)

(** C29. The receive ring is a bounded queue. Pushing appends the byte when fewer
    than 255 are queued and drops it otherwise; popping removes and returns the
    oldest byte, or returns 0 from an empty ring; the indices stay in range. *)
Theorem uart_ring_is_queue u :
  uart_wf u ->
  (forall ch, uart_wf (uart_rx_push ch u) /\
     ring_bytes (uart_rx_push ch u) =
     if Z.of_nat (length (ring_bytes u)) <? 255 then ring_bytes u ++ [ch] else ring_bytes u) /\
  uart_wf (uart_rx_pop u).2 /\
  match ring_bytes u with
  | [] => uart_rx_pop u = (0, u)
  | ch :: rest => (uart_rx_pop u).1 = ch /\ ring_bytes (uart_rx_pop u).2 = rest
  end.
Proof. intros HW. split; [intros ch; by apply push_spec|by apply pop_spec]. Qed.

(** Terminal input. Whatever the operator types, in whatever chunks the host
    delivers it, the guest's queue receives the unescaped stream (ctrl-a ctrl-a is
    one ctrl-a, ctrl-a x leaves the emulator, other bytes pass), minus what does not
    fit; an escape split across two polls is recognised. *)
Theorem uart_poll_input_unescapes u chunks :
  uart_wf u -> console_attached u = true ->
  let '(sent, armed, quit) := unescape (escape_armed u) (concat chunks) in
  let (quit', u') := foldl (fun st buf => if st.1 : bool then st else uart_poll_input buf st.2)
                       (false, u) chunks in
  quit' = quit /\ escape_armed u' = armed /\ ring_bytes u' = enqueue (ring_bytes u) sent.
Proof.
  intros HW Hc.
  assert (E : foldl (fun st buf => if st.1 : bool then st else uart_poll_input buf st.2) (false, u) chunks =
    uart_input (concat chunks) u).
  { clear HW. revert u Hc. induction chunks as [|buf chunks IH]; intros u Hc; [done|].
    cbn [foldl concat]. rewrite uart_input_app. cbn [fst snd].
    unfold uart_poll_input at 2. rewrite Hc. cbn [negb].
    assert (Hc1 : console_attached (uart_input buf u).2 = true).
    { clear IH. revert u Hc. induction buf as [|ch buf IH]; intros u Hc; [done|].
      cbn [uart_input]. unfold uart_input_byte, uart_rx_push.
      repeat case_test; cbn; try done; by apply IH. }
    destruct (uart_input buf u) as [[] u1]; [|by apply IH].
    clear. induction chunks as [|b' chunks IH]; [done|]. apply IH. }
  rewrite E. pose proof (uart_input_spec (concat chunks) u HW) as HS.
  destruct (unescape _ _) as [[sent a] q]. destruct (uart_input _ _) as [q' u']. tauto.
Qed.

(** The interrupt line and the identification register agree. After every
    register access the controller's line of the uart is asserted exactly when the
    IIR the guest would read next reports an interrupt (its low bit clear), and LSR
    reports data exactly when the queue is not empty. *)
Theorem uart_line_matches_iir addr size value u p :
  uart_wf u ->
  (forall v u' p', uart_mmio_read addr size u p = Some (v, u', p') ->
     Z.testbit (asserted p') PLIC_IRQ_UART0 = negb (Z.testbit (uart_iir u') 0) /\
     Z.testbit (uart_lsr u') 0 = negb (bool_decide (ring_bytes u' = []))) /\
  (forall out u' p', size = 1 -> uart_mmio_write addr size value u p = Some (out, u', p') ->
     Z.testbit (asserted p') PLIC_IRQ_UART0 = negb (Z.testbit (uart_iir u') 0)).
Proof.
  intros HW.
  assert (Hline : forall u' p1 p', uart_refresh_interrupt u' p1 = Some p' ->
    Z.testbit (asserted p') PLIC_IRQ_UART0 = negb (Z.testbit (uart_iir u') 0)).
  { intros u' p1 p' [= <-]. cbn [asserted set_lines]. unfold PLIC_IRQ_UART0.
    rewrite testbit_put_bit, Z.eqb_refl by lia. unfold uart_interrupt_pending, uart_iir.
    by repeat case_test. }
  split.
  - intros v u' p' E. unfold uart_mmio_read in E. cbv zeta in E.
    match type of E with (let (_, _) := ?r in _) = _ =>
      assert (HW' : uart_wf r.2); [|destruct r as [v1 u1]]
    end.
    { repeat case_test; try done. by apply pop_spec. }
    apply bind_Some in E as (p1 & E1 & E2). simplify_eq. split; [by eapply Hline|].
    cbn in HW'. pose proof (ring_empty u' HW') as HE. unfold uart_lsr.
    destruct (uart_rx_empty u').
    + by rewrite bool_decide_eq_true_2 by by apply HE.
    + rewrite bool_decide_eq_false_2; [done|]. intros Hn%HE. done.
  - intros out u' p' -> E. unfold uart_mmio_write in E. cbn [Z.eqb Pos.eqb negb] in E.
    match type of E with (let (_, _) := ?r in _) = _ => destruct r as [v1 u1] end.
    apply bind_Some in E as (p1 & E1 & E2). simplify_eq. by eapply Hline.
Qed.

Module Witness.
Definition board : uart_state := uart_init true.

Lemma uart_start_wf : uart_wf board.
Proof. split; done. Qed.

Lemma uart_ring_is_queue_witness :
  uart_wf (uart_rx_push 0x61 board) /\ ring_bytes (uart_rx_push 0x61 board) = [0x61].
Proof. apply (uart_ring_is_queue board uart_start_wf). Defined.

Lemma uart_poll_input_unescapes_witness :
  let (quit', u') := foldl (fun st buf => if st.1 : bool then st else uart_poll_input buf st.2)
                       (false, board) [[0x61; 0x01]; [0x01; 0x62]] in
  quit' = false /\ escape_armed u' = false /\ ring_bytes u' = [0x61; 0x01; 0x62].
Proof. apply (uart_poll_input_unescapes board [[0x61; 0x01]; [0x01; 0x62]] uart_start_wf eq_refl). Defined.

Lemma uart_line_matches_iir_witness :
  Z.testbit (asserted (plic_init 0 1)) PLIC_IRQ_UART0 =
  negb (Z.testbit (uart_iir board) 0).
Proof.
  apply (proj1 (uart_line_matches_iir UART_16550_BASE 1 0 board (plic_init 0 1) uart_start_wf) 0).
  reflexivity.
Defined.
End Witness.
