(* ===== verification/Monad.v ===== *)
(** * Outcomes of vmm functions

    A function of the vmm that works on a state either returns, or takes a guest
    trap ([raise_trap_raw] switches to the trap vector and never returns), or leaves
    the process ([exit]), or stops at a failed [ASSERT]. [prog S A] is the type of
    such functions, with its bind and the lifting of functions on a part of the
    state. *)

From S2P Require Import Prelude.
Local Open Scope Z_scope.

Inductive res (S A : Type) : Type :=
  | Ok (a : A) (s : S)
  | Trapped (s : S)
  | Exited (code : Z) (s : S)
  | Failed.
Arguments Ok {S A}.
Arguments Trapped {S A}.
Arguments Exited {S A}.
Arguments Failed {S A}.

Definition prog (S A : Type) : Type := S -> res S A.

Section Prog.
Context {S : Type}.

Definition ret {A} (a : A) : prog S A := fun s => Ok a s.
Definition bind {A B} (m : prog S A) (k : A -> prog S B) : prog S B := fun s =>
  match m s with
  | Ok a s => k a s
  | Trapped s => Trapped s
  | Exited c s => Exited c s
  | Failed => Failed
  end.
Definition get : prog S S := fun s => Ok s s.
Definition gets {A} (f : S -> A) : prog S A := fun s => Ok (f s) s.
Definition modify (f : S -> S) : prog S unit := fun s => Ok tt (f s).
Definition failed {A} : prog S A := fun _ => Failed.

(** The [ASSERT] macro of src/vmm/util.h. *)
Definition ASSERT (b : bool) : prog S unit := if b then ret tt else failed.

Definition of_opt {A} (o : option A) : prog S A :=
  match o with Some a => ret a | None => failed end.

(** A state update that may fail. *)
Definition try_modify (f : S -> option S) : prog S unit := fun s =>
  match f s with Some s => Ok tt s | None => Failed end.

(** Runs a program on a part of the state. *)
Definition zoom {T A} (view : S -> T) (put : T -> S -> S) (m : prog T A) : prog S A := fun s =>
  match m (view s) with
  | Ok a t => Ok a (put t s)
  | Trapped t => Trapped (put t s)
  | Exited c t => Exited c (put t s)
  | Failed => Failed
  end.
End Prog.

Notation "'let*' x ':=' m 'in' k" := (bind m (fun x => k))
  (at level 10, x pattern, m at level 100, k at level 200) : vmm_scope.
Notation "m ';;;' k" := (bind m (fun _ => k)) (at level 199, right associativity) : vmm_scope.
Global Open Scope vmm_scope.

(** The final state, however the program ended. *)
Definition final {S A} (r : res S A) : option S :=
  match r with Ok _ s | Trapped s | Exited _ s => Some s | Failed => None end.

(** Every outcome's state satisfies [P]. *)
Definition all_outcomes {S A} (P : S -> Prop) (r : res S A) : Prop :=
  match r with Ok _ s | Trapped s | Exited _ s => P s | Failed => True end.

Section Invariants.
Context {S : Type} (P : S -> Prop).

(** [m] keeps the invariant, whatever its outcome. *)
Definition preserves {A} (m : prog S A) : Prop := forall s, P s -> all_outcomes P (m s).

Lemma preserves_ret {A} (a : A) : preserves (ret a).
Proof. by intros s. Qed.
Lemma preserves_failed {A} : preserves (@failed S A).
Proof. by intros s. Qed.
Lemma preserves_gets {A} (f : S -> A) : preserves (gets f).
Proof. by intros s. Qed.
Lemma preserves_get : preserves get.
Proof. by intros s. Qed.
Lemma preserves_ASSERT b : preserves (ASSERT b).
Proof. intros s. by destruct b. Qed.
Lemma preserves_of_opt {A} (o : option A) : preserves (of_opt o).
Proof. intros s. by destruct o. Qed.

Lemma preserves_bind {A B} (m : prog S A) (k : A -> prog S B) :
  preserves m -> (forall a, preserves (k a)) -> preserves (bind m k).
Proof.
  intros Hm Hk s Hs. specialize (Hm s Hs). unfold bind. destruct (m s); try done. by apply Hk.
Qed.

Lemma preserves_modify f : (forall s, P s -> P (f s)) -> preserves (modify f).
Proof. intros Hf s Hs. by apply Hf. Qed.

Lemma preserves_try_modify f : (forall s s', P s -> f s = Some s' -> P s') -> preserves (try_modify f).
Proof.
  intros Hf s Hs. unfold try_modify. destruct (f s) eqn:E; [by eapply Hf|done].
Qed.
End Invariants.

Lemma preserves_zoom {S T A} (P : S -> Prop) (Q : T -> Prop) (view : S -> T) (put : T -> S -> S)
    (m : prog T A) :
  (forall s, P s -> Q (view s)) -> (forall s t, P s -> Q t -> P (put t s)) ->
  preserves Q m -> preserves P (zoom view put m).
Proof.
  intros Hv Hp Hm s Hs. specialize (Hm (view s) (Hv s Hs)). unfold zoom.
  destruct (m (view s)); cbn in *; auto.
Qed.

Create HintDb preserves.
#[export] Hint Resolve preserves_ret preserves_failed preserves_gets preserves_get
  preserves_ASSERT preserves_of_opt : preserves.
