(* ===== verification/Trap.v ===== *)
(** * Traps and privilege levels

    Models src/vmm/hart_util.h, src/vmm/hart_exception.c and src/vmm/hart_trap.c:
    trap entry at machine and supervisor level, the delegation of exceptions, the
    return instructions' effect on the status bits, and the flush of the translation
    cache when the address space changes.

    Proved here: what trap entry saves and sets; a return after a trap restores the
    pc, the privilege level and the interrupt enable; exceptions never trap below
    their origin; translations never survive a change of address space. *)

From S2P Require Import Prelude Monad Hart.
Local Open Scope Z_scope.

Definition CSR_ADDRESS_MSCRATCH : Z := 0x340.
Definition CSR_ADDRESS_MEPC : Z := 0x341.
Definition CSR_ADDRESS_MSTATUS : Z := 0x300.
Definition CSR_ADDRESS_MIDELEG : Z := 0x303.
Definition CSR_ADDRESS_MEDELEG : Z := 0x302.
Definition CSR_ADDRESS_MIP : Z := 0x344.
Definition CSR_ADDRESS_MIE : Z := 0x304.
Definition CSR_ADDRESS_MCAUSE : Z := 0x342.
Definition CSR_ADDRESS_MTVAL : Z := 0x343.
Definition CSR_ADDRESS_MTVEC : Z := 0x305.
Definition CSR_ADDRESS_SIE : Z := 0x104.
Definition CSR_ADDRESS_SIP : Z := 0x144.
Definition CSR_ADDRESS_SSTATUS : Z := 0x100.
Definition CSR_ADDRESS_STVEC : Z := 0x105.
Definition CSR_ADDRESS_SATP : Z := 0x180.
Definition CSR_ADDRESS_SCAUSE : Z := 0x142.
Definition CSR_ADDRESS_STVAL : Z := 0x143.
Definition CSR_ADDRESS_SEPC : Z := 0x141.
Definition CSR_ADDRESS_SSCRATCH : Z := 0x140.
Definition CSR_ADDRESS_TIME : Z := 0xC01.
Definition CSR_ADDRESS_TIMEH : Z := 0xC81.

Definition EXCEPTION_INSTRUCTION_ADDRESS_MISALIGN : Z := 0x0.
Definition EXCEPTION_ILLEEGAL_INSTRUCTION : Z := 0x2.
Definition EXCEPTION_LOAD_ADDRESS_MISALIGN : Z := 0x4.
Definition EXCEPTION_STORE_ADDRESS_MISALIGN : Z := 0x6.
Definition EXCEPTION_ECALL_FROM_UMODE : Z := 0x8.
Definition EXCEPTION_ECALL_FROM_SMODE : Z := 0x9.
Definition EXCEPTION_ECALL_FROM_MMODE : Z := 0xb.
Definition EXCEPTION_INSTRUCTION_PAGE_FAULT : Z := 0xc.
Definition EXCEPTION_LOAD_PAGE_FAULT : Z := 0xd.
Definition EXCEPTION_STORE_PAGE_FAULT : Z := 0xf.

Definition blob (h : hart) (a : Z) : Z := csr_blob (csr_at h a).

(** ** The address space *)

(** src/vmm/hart_util.h:23-33 address_space_tag *)
Definition address_space_tag (h : hart) : Z :=
  if (privilege_level h =? PRIVILEGE_LEVEL_MACHINE) ||
     negb (truthy (Z.land (blob h CSR_ADDRESS_SATP) 0x80000000))
  then 0 else blob h CSR_ADDRESS_SATP.

Section Cache.
Context `{Assembler}.

(** src/vmm/hart_util.h:41-48 flush_translation_cache_on_address_space_change *)
Definition flush_translation_cache_on_address_space_change (previous_tag : Z) (h : hart) : hart :=
  if negb (address_space_tag h =? previous_tag) then flush_translation_cache h else h.
End Cache.

(** ** Trap entry *)

Definition trap_status_m (pl : Z) (s : status_control_blob) : status_control_blob :=
  {| uie := uie s; sie := sie s; mie := false; upie := upie s; spie := spie s; mpie := mie s;
     spp := spp s; mpp := pl |}.
Definition trap_status_s (pl : Z) (s : status_control_blob) : status_control_blob :=
  {| uie := uie s; sie := false; mie := mie s; upie := upie s; spie := sie s; mpie := mpie s;
     spp := truthy (Z.land pl 1); mpp := mpp s |}.

(** Where a trap vector register sends a trap. *)
Definition trap_vector (tvec cause : Z) : Z :=
  let trap_mode := Z.land tvec 0x1 in
  if negb (truthy trap_mode) || negb (truthy (Z.land cause 0x80000000)) then Z.ldiff tvec 3
  else u32 (Z.ldiff tvec 3 + Z.land cause 0x7fffffff * 4).

(** src/vmm/hart_trap.c:8-54 setup_mmode_trap *)
Definition setup_mmode_trap (cause tval : Z) (h : hart) : hart :=
  let h := put_csr_blob CSR_ADDRESS_MCAUSE cause h in
  let h := put_csr_blob CSR_ADDRESS_MTVAL tval h in
  let h := put_csr_blob CSR_ADDRESS_MEPC (pc h) h in
  let h := set_status (trap_status_m (privilege_level h) (status h)) h in
  let h := set_privilege_level PRIVILEGE_LEVEL_MACHINE h in
  set_pc (trap_vector (blob h CSR_ADDRESS_MTVEC) cause) h.

(** src/vmm/hart_trap.c:56-84 setup_smode_trap *)
Definition setup_smode_trap (cause tval : Z) (h : hart) : hart :=
  let h := put_csr_blob CSR_ADDRESS_SCAUSE cause h in
  let h := put_csr_blob CSR_ADDRESS_STVAL tval h in
  let h := put_csr_blob CSR_ADDRESS_SEPC (pc h) h in
  let h := set_status (trap_status_s (privilege_level h) (status h)) h in
  let h := set_privilege_level PRIVILEGE_LEVEL_SUPERVISOR h in
  set_pc (trap_vector (blob h CSR_ADDRESS_STVEC) cause) h.

Section Raise.
Context `{Assembler}.

(** [do_trap] enters the vmm entry point and never returns.
    src/vmm/hart_trap.c:111-133 raise_trap_raw *)
Definition raise_trap_raw {A} (target_privilege_level cause tval : Z) : prog hart A := fun h =>
  let previous_tag := address_space_tag h in
  if target_privilege_level =? PRIVILEGE_LEVEL_MACHINE then
    Trapped (flush_translation_cache_on_address_space_change previous_tag
               (setup_mmode_trap cause tval h))
  else if target_privilege_level =? PRIVILEGE_LEVEL_SUPERVISOR then
    Trapped (flush_translation_cache_on_address_space_change previous_tag
               (setup_smode_trap cause tval h))
  else Failed.

(** src/vmm/hart_exception.c:18-30 exception_target_privilege_level *)
Definition exception_target_privilege_level (exception_number : Z) (h : hart) : Z :=
  if negb (privilege_level h =? PRIVILEGE_LEVEL_MACHINE) &&
     truthy (Z.land (blob h CSR_ADDRESS_MEDELEG) (Z.shiftl 1 exception_number))
  then PRIVILEGE_LEVEL_SUPERVISOR else PRIVILEGE_LEVEL_MACHINE.

(** src/vmm/hart_exception.c:35-44 raise_exception_internal *)
Definition raise_exception_with_tvalue {A} (exception_cause trap_value : Z) : prog hart A :=
  let* target_pl := gets (exception_target_privilege_level exception_cause) in
  ASSERT (exception_cause <? 16) ;;;
  raise_trap_raw target_pl exception_cause trap_value.

Definition raise_exception {A} (exception_cause : Z) : prog hart A :=
  raise_exception_with_tvalue exception_cause 0.

(** ** Return from a trap *)

(** src/vmm/hart_util.h:76-101 adjust_mstatus_upon_mret *)
Definition adjust_mstatus_upon_mret : prog hart unit :=
  let* h := get in
  let m := mpp (status h) in
  ASSERT ((m =? PRIVILEGE_LEVEL_USER) || (m =? PRIVILEGE_LEVEL_SUPERVISOR) ||
          (m =? PRIVILEGE_LEVEL_MACHINE)) ;;;
  modify (fun h =>
    let s := status h in
    set_status {| uie := uie s; sie := sie s; mie := mpie s; upie := upie s; spie := spie s;
                  mpie := true; spp := spp s; mpp := PRIVILEGE_LEVEL_USER |}
      (set_privilege_level m h)).

(** src/vmm/hart_util.h:103-113 adjust_mstatus_upon_sret *)
Definition adjust_mstatus_upon_sret : prog hart unit :=
  modify (fun h =>
    let s := status h in
    set_status {| uie := uie s; sie := spie s; mie := mie s; upie := upie s; spie := true;
                  mpie := mpie s; spp := false; mpp := mpp s |}
      (set_privilege_level (int_of_bool (spp s)) h)).

(** src/vmm/hart_util.h:58-64 adjust_pc_upon_mret *)
Definition adjust_pc_upon_mret : prog hart unit := modify (fun h => set_pc (blob h CSR_ADDRESS_MEPC) h).

(** src/vmm/hart_util.h:66-74 adjust_pc_upon_sret *)
Definition adjust_pc_upon_sret : prog hart unit := modify (fun h => set_pc (blob h CSR_ADDRESS_SEPC) h).

(** src/vmm/hart_util.h:115-121 assert_hart_running_in_mmode *)
Definition assert_hart_running_in_mmode : prog hart unit :=
  let* pl := gets privilege_level in
  if negb (pl =? PRIVILEGE_LEVEL_MACHINE) then raise_exception EXCEPTION_ILLEEGAL_INSTRUCTION
  else ret tt.

(** src/vmm/hart_util.h:123-129 assert_hart_running_in_smode *)
Definition assert_hart_running_in_smode : prog hart unit :=
  let* pl := gets privilege_level in
  if negb (pl =? PRIVILEGE_LEVEL_SUPERVISOR) then raise_exception EXCEPTION_ILLEEGAL_INSTRUCTION
  else ret tt.

(** ** The callbacks of the privileged instructions *)

(** src/vmm/translate_privileged_instr.c:49-60 mret_callback *)
Definition mret_callback : prog hart unit :=
  assert_hart_running_in_mmode ;;;
  let* previous_tag := gets address_space_tag in
  adjust_mstatus_upon_mret ;;;
  adjust_pc_upon_mret ;;;
  modify (flush_translation_cache_on_address_space_change previous_tag).

(** src/vmm/translate_privileged_instr.c:90-99 sret_callback *)
Definition sret_callback : prog hart unit :=
  assert_hart_running_in_smode ;;;
  let* previous_tag := gets address_space_tag in
  adjust_mstatus_upon_sret ;;;
  adjust_pc_upon_sret ;;;
  modify (flush_translation_cache_on_address_space_change previous_tag).

(** src/vmm/translate_privileged_instr.c:169-190 ecall_callback *)
Definition ecall_callback : prog hart unit :=
  let* pl := gets privilege_level in
  if pl =? PRIVILEGE_LEVEL_MACHINE then raise_exception EXCEPTION_ECALL_FROM_MMODE
  else if pl =? PRIVILEGE_LEVEL_SUPERVISOR then raise_exception EXCEPTION_ECALL_FROM_SMODE
  else if pl =? PRIVILEGE_LEVEL_USER then raise_exception EXCEPTION_ECALL_FROM_UMODE
  else failed.
End Raise.

(** ** Reading back what a trap wrote *)

Lemma blob_put a b v h : blob (put_csr_blob a v h) b = if b =? a then v else blob h b.
Proof.
  unfold blob, csr_at, put_csr_blob, set_csrs_base; cbn [csrs_base].
  destruct (Z.eqb_spec b a) as [->|Hne].
  - by rewrite lookup_insert_eq.
  - by rewrite lookup_insert_ne by done.
Qed.

Lemma blob_set_status a v h : blob (set_status v h) a = blob h a.
Proof. done. Qed.
Lemma blob_set_privilege a v h : blob (set_privilege_level v h) a = blob h a.
Proof. done. Qed.
Lemma blob_set_pc a v h : blob (set_pc v h) a = blob h a.
Proof. done. Qed.

Create Rewrite HintDb csr.
#[export] Hint Rewrite blob_put blob_set_status blob_set_privilege blob_set_pc : csr.

Ltac csr_reads := autorewrite with csr; cbn [Z.eqb Pos.eqb].

Lemma flush_keeps `{Assembler} tag h :
  let h' := flush_translation_cache_on_address_space_change tag h in
  pc h' = pc h /\ privilege_level h' = privilege_level h /\ status h' = status h /\
  registers h' = registers h /\ csrs_base h' = csrs_base h /\ ipending h' = ipending h /\
  address_space_tag h' = address_space_tag h /\
  (address_space_tag h' = tag \/ nr_translated_instructions h' = 0).
Proof.
  cbv zeta. unfold flush_translation_cache_on_address_space_change.
  destruct (Z.eqb_spec (address_space_tag h) tag); cbn [negb]; repeat split; try done; auto.
Qed.

Lemma flush_blob `{Assembler} tag h a :
  blob (flush_translation_cache_on_address_space_change tag h) a = blob h a.
Proof. unfold flush_translation_cache_on_address_space_change. by case_test. Qed.

Definition real_level (pl : Z) : Prop :=
  pl = PRIVILEGE_LEVEL_USER \/ pl = PRIVILEGE_LEVEL_SUPERVISOR \/ pl = PRIVILEGE_LEVEL_MACHINE.

Section Facts.
Context `{Assembler}.

(** [raise_trap_raw] to a real target, in one equation. *)
Lemma raise_trap_raw_eq {A} t cause tval h :
  t = PRIVILEGE_LEVEL_SUPERVISOR \/ t = PRIVILEGE_LEVEL_MACHINE ->
  raise_trap_raw (A := A) t cause tval h =
  Trapped (flush_translation_cache_on_address_space_change (address_space_tag h)
    (if t =? PRIVILEGE_LEVEL_MACHINE then setup_mmode_trap cause tval h
     else setup_smode_trap cause tval h)).
Proof. intros [->| ->]; reflexivity. Qed.

Lemma exception_target_cases n h :
  let t := exception_target_privilege_level n h in
  t = PRIVILEGE_LEVEL_SUPERVISOR \/ t = PRIVILEGE_LEVEL_MACHINE.
Proof. unfold exception_target_privilege_level. case_test; auto. Qed.

Lemma raise_exception_eq {A} n tval h :
  n < 16 ->
  raise_exception_with_tvalue (A := A) n tval h =
  raise_trap_raw (exception_target_privilege_level n h) n tval h.
Proof.
  intros Hn. unfold raise_exception_with_tvalue, bind, gets, ASSERT.
  by destruct (Z.ltb_spec n 16); [|lia].
Qed.

(** ** Properties *)

(** Trap entry. A trap to machine or supervisor level saves the pc, the cause,
    the trap value, the privilege level and the interrupt enable in that level's
    registers, disables that level's interrupts, enters that level at its trap
    vector (vectored only for interrupts in vectored mode), and touches neither the
    guest registers nor the other level's saved state. *)
Theorem trap_entry_saves {A} t cause tval h :
  t = PRIVILEGE_LEVEL_SUPERVISOR \/ t = PRIVILEGE_LEVEL_MACHINE ->
  real_level (privilege_level h) -> privilege_level h <= t ->
  exists h', raise_trap_raw (A := A) t cause tval h = Trapped h' /\
    privilege_level h' = t /\ registers h' = registers h /\
    if t =? PRIVILEGE_LEVEL_MACHINE then
      blob h' CSR_ADDRESS_MEPC = pc h /\ blob h' CSR_ADDRESS_MCAUSE = cause /\
      blob h' CSR_ADDRESS_MTVAL = tval /\ pc h' = trap_vector (blob h CSR_ADDRESS_MTVEC) cause /\
      mpp (status h') = privilege_level h /\ mpie (status h') = mie (status h) /\
      mie (status h') = false /\ spp (status h') = spp (status h) /\ sie (status h') = sie (status h) /\
      blob h' CSR_ADDRESS_SEPC = blob h CSR_ADDRESS_SEPC /\
      blob h' CSR_ADDRESS_SCAUSE = blob h CSR_ADDRESS_SCAUSE
    else
      blob h' CSR_ADDRESS_SEPC = pc h /\ blob h' CSR_ADDRESS_SCAUSE = cause /\
      blob h' CSR_ADDRESS_STVAL = tval /\ pc h' = trap_vector (blob h CSR_ADDRESS_STVEC) cause /\
      int_of_bool (spp (status h')) = privilege_level h /\ spie (status h') = sie (status h) /\
      sie (status h') = false /\ mpp (status h') = mpp (status h) /\ mie (status h') = mie (status h) /\
      blob h' CSR_ADDRESS_MEPC = blob h CSR_ADDRESS_MEPC /\
      blob h' CSR_ADDRESS_MCAUSE = blob h CSR_ADDRESS_MCAUSE.
Proof.
  intros Ht Hpl Hle. rewrite raise_trap_raw_eq by done. eexists. split; [reflexivity|].
  match goal with |- context [flush_translation_cache_on_address_space_change ?tag ?x] =>
    destruct (flush_keeps tag x) as (E1 & E2 & E3 & E4 & _) end.
  rewrite E1, E2, E3, E4, !flush_blob. clear E1 E2 E3 E4.
  destruct Ht as [->| ->]; cbn [Z.eqb Pos.eqb PRIVILEGE_LEVEL_MACHINE PRIVILEGE_LEVEL_SUPERVISOR];
    unfold setup_mmode_trap, setup_smode_trap; cbv zeta; csr_reads; repeat split.
  cbn. destruct Hpl as [->|[->|E]]; [reflexivity..|].
  rewrite E in Hle. unfold PRIVILEGE_LEVEL_MACHINE, PRIVILEGE_LEVEL_SUPERVISOR in Hle. lia.
Qed.

(** What a handler must leave alone to return to where the trap came from. *)
Definition handler_keeps (t : Z) (h1 h2 : hart) : Prop :=
  privilege_level h2 = t /\ status h2 = status h1 /\
  if t =? PRIVILEGE_LEVEL_MACHINE then blob h2 CSR_ADDRESS_MEPC = blob h1 CSR_ADDRESS_MEPC
  else blob h2 CSR_ADDRESS_SEPC = blob h1 CSR_ADDRESS_SEPC.

Lemma sret_callback_eq h :
  privilege_level h = PRIVILEGE_LEVEL_SUPERVISOR ->
  exists h', sret_callback h = Ok tt h' /\ pc h' = blob h CSR_ADDRESS_SEPC /\
    privilege_level h' = int_of_bool (spp (status h)) /\ registers h' = registers h /\
    sie (status h') = spie (status h).
Proof.
  intros Hp. unfold sret_callback, assert_hart_running_in_smode, bind, gets. rewrite Hp.
  cbn [Z.eqb Pos.eqb PRIVILEGE_LEVEL_SUPERVISOR negb]. eexists. split; [reflexivity|].
  match goal with |- context [flush_translation_cache_on_address_space_change ?tag ?x] =>
    destruct (flush_keeps tag x) as (-> & -> & -> & -> & _) end.
  by csr_reads.
Qed.

Lemma mret_callback_eq h :
  privilege_level h = PRIVILEGE_LEVEL_MACHINE -> real_level (mpp (status h)) ->
  exists h', mret_callback h = Ok tt h' /\ pc h' = blob h CSR_ADDRESS_MEPC /\
    privilege_level h' = mpp (status h) /\ registers h' = registers h /\
    mie (status h') = mpie (status h).
Proof.
  intros Hp Hreal. unfold mret_callback, assert_hart_running_in_mmode, bind, gets. rewrite Hp.
  cbn [Z.eqb Pos.eqb PRIVILEGE_LEVEL_MACHINE negb].
  unfold adjust_mstatus_upon_mret, bind, get, ASSERT, ret.
  assert (Hr : ((mpp (status h) =? PRIVILEGE_LEVEL_USER)
    || (mpp (status h) =? PRIVILEGE_LEVEL_SUPERVISOR)
    || (mpp (status h) =? PRIVILEGE_LEVEL_MACHINE))%bool = true).
  { destruct Hreal as [->|[->| ->]]; reflexivity. }
  rewrite Hr. eexists. split; [reflexivity|].
  match goal with |- context [flush_translation_cache_on_address_space_change ?tag ?x] =>
    destruct (flush_keeps tag x) as (-> & -> & -> & -> & _) end.
  by csr_reads.
Qed.

(** C21. Return undoes entry. Whatever a handler does to the registers, memory and
    other csrs, if it leaves the level's saved pc and the status bits alone and
    returns, the hart is back at the interrupted pc and privilege level, with the
    interrupt enable of the handler's level as it was and the handler's registers. *)
Theorem return_after_trap {A} t cause tval h :
  t = PRIVILEGE_LEVEL_SUPERVISOR \/ t = PRIVILEGE_LEVEL_MACHINE ->
  real_level (privilege_level h) -> privilege_level h <= t ->
  exists h1, raise_trap_raw (A := A) t cause tval h = Trapped h1 /\ forall h2, handler_keeps t h1 h2 ->
  exists h3, (if t =? PRIVILEGE_LEVEL_MACHINE then mret_callback h2 else sret_callback h2) = Ok tt h3 /\
    pc h3 = pc h /\ privilege_level h3 = privilege_level h /\ registers h3 = registers h2 /\
    (if t =? PRIVILEGE_LEVEL_MACHINE then mie (status h3) = mie (status h)
     else sie (status h3) = sie (status h)).
Proof.
  intros Ht Hpl Hle. rewrite raise_trap_raw_eq by done. eexists. split; [reflexivity|].
  intros h2. unfold handler_keeps. rewrite !flush_blob.
  match goal with |- context [flush_translation_cache_on_address_space_change ?tag ?x] =>
    destruct (flush_keeps tag x) as (_ & _ & -> & _) end.
  destruct Ht as [->| ->]; cbn [Z.eqb Pos.eqb PRIVILEGE_LEVEL_MACHINE PRIVILEGE_LEVEL_SUPERVISOR];
    unfold setup_mmode_trap, setup_smode_trap; cbv zeta; csr_reads; intros (Hp & Hs & Hepc).
  - destruct (sret_callback_eq h2 Hp) as (h3 & E & E1 & E2 & E3 & E4). exists h3.
    rewrite E1, E2, E3, E4, Hs, Hepc. cbn. repeat split; [done|].
    destruct Hpl as [->|[->|El]]; [reflexivity..|].
    rewrite El in Hle. unfold PRIVILEGE_LEVEL_MACHINE, PRIVILEGE_LEVEL_SUPERVISOR in Hle. lia.
  - destruct (mret_callback_eq h2 Hp) as (h3 & E & E1 & E2 & E3 & E4); [by rewrite Hs|].
    exists h3. by rewrite E1, E2, E3, E4, Hs, Hepc.
Qed.

(** C22. Exceptions. Raising any of the sixteen exception causes from a real
    privilege level always traps; it traps to supervisor level exactly when the hart
    was below machine level and the cause is delegated, to machine level otherwise;
    so a trap never lowers the privilege level and never leaves machine level. *)
Theorem exception_delegation {A} cause tval h :
  0 <= cause < 16 -> real_level (privilege_level h) ->
  exists h', raise_exception_with_tvalue (A := A) cause tval h = Trapped h' /\
    privilege_level h <= privilege_level h' /\
    (privilege_level h' = PRIVILEGE_LEVEL_SUPERVISOR <->
       privilege_level h <> PRIVILEGE_LEVEL_MACHINE /\
       Z.testbit (blob h CSR_ADDRESS_MEDELEG) cause = true) /\
    (privilege_level h' = PRIVILEGE_LEVEL_SUPERVISOR \/ privilege_level h' = PRIVILEGE_LEVEL_MACHINE).
Proof.
  intros Hc Hpl. rewrite raise_exception_eq, raise_trap_raw_eq by (try apply exception_target_cases; lia).
  eexists. split; [reflexivity|].
  match goal with |- context [flush_translation_cache_on_address_space_change ?tag ?x] =>
    destruct (flush_keeps tag x) as (_ & -> & _) end.
  unfold exception_target_privilege_level.
  change (truthy (Z.land (blob h CSR_ADDRESS_MEDELEG) (Z.shiftl 1 cause))) with
    (bit_set (blob h CSR_ADDRESS_MEDELEG) cause).
  rewrite bit_set_testbit by lia. unfold real_level in Hpl.
  destruct (Z.testbit (blob h CSR_ADDRESS_MEDELEG) cause); destruct Hpl as [->|[->| ->]]; cbn;
    unfold PRIVILEGE_LEVEL_SUPERVISOR, PRIVILEGE_LEVEL_MACHINE, PRIVILEGE_LEVEL_USER;
    repeat split; try lia; intuition (congruence || lia).
Qed.

(** The address space is the one before, or no translation is left. *)
Definition space_kept (h h' : hart) : Prop :=
  address_space_tag h' = address_space_tag h \/ nr_translated_instructions h' = 0.

Lemma raise_trap_raw_space {A} t cause tval h :
  all_outcomes (space_kept h) (raise_trap_raw (A := A) t cause tval h).
Proof.
  unfold raise_trap_raw. repeat case_test; cbn; try done;
    match goal with |- space_kept _ (flush_translation_cache_on_address_space_change ?tag ?x) =>
      destruct (flush_keeps tag x) as (_ & _ & _ & _ & _ & _ & _ & ?) end; done.
Qed.

Lemma raise_exception_space {A} cause tval h :
  all_outcomes (space_kept h) (raise_exception_with_tvalue (A := A) cause tval h).
Proof.
  unfold raise_exception_with_tvalue, bind, gets, ASSERT. case_test; [|done].
  apply raise_trap_raw_space.
Qed.

Lemma raise_never_returns {A} cause tval h (a : A) h' :
  raise_exception_with_tvalue cause tval h = Ok a h' -> False.
Proof.
  unfold raise_exception_with_tvalue, bind, gets, ASSERT, raise_trap_raw. by repeat case_test.
Qed.

(** Translations are made for one address space. Whatever a trap, an exception,
    an mret, an sret or an ecall does and however it ends, either the address space
    instructions are fetched through is the one before, or the translation cache has
    been emptied. *)
Theorem trap_flushes_on_space_change h :
  (forall A t cause tval, all_outcomes (space_kept h) (raise_trap_raw (A := A) t cause tval h)) /\
  (forall A cause tval, all_outcomes (space_kept h) (raise_exception_with_tvalue (A := A) cause tval h)) /\
  all_outcomes (space_kept h) (mret_callback h) /\ all_outcomes (space_kept h) (sret_callback h) /\
  all_outcomes (space_kept h) (ecall_callback h).
Proof.
  split; [intros; apply raise_trap_raw_space|]. split; [intros; apply raise_exception_space|].
  unfold mret_callback, sret_callback, ecall_callback, assert_hart_running_in_mmode,
    assert_hart_running_in_smode, raise_exception, bind, gets.
  pose proof (fun n => raise_exception_space (A := unit) n 0 h) as HR.
  split; [|split].
  - destruct (privilege_level h =? PRIVILEGE_LEVEL_MACHINE); cbn [negb].
    + unfold ret, adjust_mstatus_upon_mret, bind, get, ASSERT. case_test; [|done].
      unfold ret, modify, adjust_pc_upon_mret, modify, all_outcomes.
      match goal with |- space_kept _ (flush_translation_cache_on_address_space_change ?tag ?x) =>
        destruct (flush_keeps tag x) as (_ & _ & _ & _ & _ & _ & _ & ?) end. done.
    + specialize (HR EXCEPTION_ILLEEGAL_INSTRUCTION).
      destruct (raise_exception_with_tvalue _ _ _) eqn:E; [|done..]. by apply raise_never_returns in E.
  - destruct (privilege_level h =? PRIVILEGE_LEVEL_SUPERVISOR); cbn [negb].
    + unfold ret, adjust_mstatus_upon_sret, modify, adjust_pc_upon_sret, modify, all_outcomes.
      match goal with |- space_kept _ (flush_translation_cache_on_address_space_change ?tag ?x) =>
        destruct (flush_keeps tag x) as (_ & _ & _ & _ & _ & _ & _ & ?) end. done.
    + specialize (HR EXCEPTION_ILLEEGAL_INSTRUCTION).
      destruct (raise_exception_with_tvalue _ _ _) eqn:E; [|done..]. by apply raise_never_returns in E.
  - repeat case_test; try apply HR. done.
Qed.
End Facts.

Module Witness.
Import Concrete.

(** A supervisor-level hart with ecall from user level delegated. *)
Definition guest : hart :=
  put_csr_blob CSR_ADDRESS_MEDELEG 0x100
    (set_privilege_level PRIVILEGE_LEVEL_USER (empty_hart 0x1000)).

Lemma trap_entry_saves_witness :
  exists h', raise_trap_raw (A := unit) PRIVILEGE_LEVEL_SUPERVISOR 8 0 guest = Trapped h' /\
    privilege_level h' = PRIVILEGE_LEVEL_SUPERVISOR.
Proof.
  destruct (trap_entry_saves (A := unit) PRIVILEGE_LEVEL_SUPERVISOR 8 0 guest) as (h' & E & Hp & _).
  - by left.
  - by left.
  - vm_compute. congruence.
  - exact (ex_intro _ h' (conj E Hp)).
Defined.

(** The handler has changed every register. *)
Lemma return_after_trap_witness :
  exists h1 h3, raise_trap_raw (A := unit) PRIVILEGE_LEVEL_MACHINE 8 0 guest = Trapped h1 /\
    mret_callback (set_registers (replicate 32 7) h1) = Ok tt h3 /\
    pc h3 = 0x1000 /\ privilege_level h3 = PRIVILEGE_LEVEL_USER /\
    registers h3 = replicate 32 7 /\ mie (status h3) = mie (status guest).
Proof.
  destruct (return_after_trap (A := unit) PRIVILEGE_LEVEL_MACHINE 8 0 guest) as (h1 & E & HR).
  - by right.
  - by left.
  - vm_compute. congruence.
  - exists h1. injection E as E'. destruct (HR (set_registers (replicate 32 7) h1)) as (h3 & H3).
    + subst h1. repeat split.
    + exists h3. subst h1. split; [reflexivity|exact H3].
Defined.

Lemma exception_delegation_witness :
  exists h', raise_exception_with_tvalue (A := unit) 8 0 guest = Trapped h' /\
    privilege_level guest <= privilege_level h' /\
    (privilege_level h' = PRIVILEGE_LEVEL_SUPERVISOR <->
       privilege_level guest <> PRIVILEGE_LEVEL_MACHINE /\
       Z.testbit (blob guest CSR_ADDRESS_MEDELEG) 8 = true) /\
    (privilege_level h' = PRIVILEGE_LEVEL_SUPERVISOR \/ privilege_level h' = PRIVILEGE_LEVEL_MACHINE).
Proof. apply (exception_delegation (A := unit) 8 0 guest); [lia|by left]. Defined.
End Witness.
