(* ===== verification/Machine.v ===== *)
(** * The machine and its memory map

    The state the vmm works on: the running hart, the memory regions and the
    devices behind them (src/vmm/vm.h and the static variables of the device
    files), and the reads and writes of a region, dispatched as the code dispatches
    through the function pointers of [struct pm_region_operation].

    Models the callbacks of src/vmm/emulate_ram.c, src/vmm/emulate_rom.c and
    src/vmm/emulate_syscon.c, and the direct accesses of src/vmm/mmu.h. The host's
    terminal is [terminal] (the bytes written, oldest first), [keyboard] (what each
    successive poll will read) and [stdin_lines] (what the debugger will read). An
    access outside the host allocation of a memory has no defined result: it is
    [Failed], like a failed assertion.

    Proved here: what is written to memory is read back, at every access size, and
    other bytes are untouched; a region access never changes the guest registers,
    the pc or the csrs. *)

From S2P Require Import Prelude Monad PmRegion X86 Hart Clint Plic Uart.
Local Open Scope Z_scope.

(** ** Host memory *)

(** An allocation of the host, zero where nothing was written. *)
Record memory := { mem_size : Z; mem_bytes : gmap Z Z }.

Definition mem_byte (m : memory) (off : Z) : Z := default 0 (mem_bytes m !! off).

(** A load through a pointer to an unsigned type, on a little-endian host. *)
Fixpoint load_bytes (n : nat) (off : Z) (m : memory) : Z :=
  match n with
  | O => 0
  | S n => mem_byte m off + 256 * load_bytes n (off + 1) m
  end.

Fixpoint store_bytes (n : nat) (off v : Z) (b : gmap Z Z) : gmap Z Z :=
  match n with
  | O => b
  | S n => <[off := v mod 256]> (store_bytes n (off + 1) (v / 256) b)
  end.

Definition in_bounds (off access_size : Z) (m : memory) : bool :=
  (0 <=? off) && (off + access_size <=? mem_size m).

Definition mem_load (off access_size : Z) (m : memory) : option Z :=
  if in_bounds off access_size m then Some (load_bytes (Z.to_nat access_size) off m) else None.

Definition mem_store (off access_size v : Z) (m : memory) : option memory :=
  if in_bounds off access_size m
  then Some {| mem_size := mem_size m;
               mem_bytes := store_bytes (Z.to_nat access_size) off v (mem_bytes m) |}
  else None.

(** The sizes the accessors switch on; any other stops at [__not_reach]. *)
Definition legal_size (access_size : Z) : bool :=
  (access_size =? 1) || (access_size =? 2) || (access_size =? 4) || (access_size =? 8).

(** ** The machine *)

(** src/vmm/translate_amo.c:34-38 address_reservation_item *)
Record address_reservation_item := { res_addr : Z; res_valid : bool; res_hartid : Z }.

(** src/vmm/vm.h:14-35 virtual_machine *)
Record machine := {
  m_hart : hart;
  pmr_ops : list pm_region_operation;
  ram : memory;
  bootrom : memory;
  clint : clint_state;
  plic : plic_state;
  uart : uart_state;
  terminal : list Z;
  keyboard : list (list Z);
  reservations : list address_reservation_item;
  next_pointer : Z;
  poll_countdown : Z;
  ticks_per_translation_unit : Z;
  breakpoints : list Z;
  stdin_lines : list string;
  last_tokens : list string
}.

Definition set_m_hart v (m : machine) : machine :=
    {| m_hart := v; pmr_ops := pmr_ops m; ram := ram m; bootrom := bootrom m; clint := clint m;
     plic := plic m; uart := uart m; terminal := terminal m; keyboard := keyboard m; reservations
     := reservations m; next_pointer := next_pointer m; poll_countdown := poll_countdown m;
     ticks_per_translation_unit := ticks_per_translation_unit m; breakpoints := breakpoints m;
     stdin_lines := stdin_lines m; last_tokens := last_tokens m |}.
Definition set_pmr_ops v (m : machine) : machine :=
    {| m_hart := m_hart m; pmr_ops := v; ram := ram m; bootrom := bootrom m; clint := clint m;
     plic := plic m; uart := uart m; terminal := terminal m; keyboard := keyboard m; reservations
     := reservations m; next_pointer := next_pointer m; poll_countdown := poll_countdown m;
     ticks_per_translation_unit := ticks_per_translation_unit m; breakpoints := breakpoints m;
     stdin_lines := stdin_lines m; last_tokens := last_tokens m |}.
Definition set_ram v (m : machine) : machine :=
    {| m_hart := m_hart m; pmr_ops := pmr_ops m; ram := v; bootrom := bootrom m; clint := clint m;
     plic := plic m; uart := uart m; terminal := terminal m; keyboard := keyboard m; reservations
     := reservations m; next_pointer := next_pointer m; poll_countdown := poll_countdown m;
     ticks_per_translation_unit := ticks_per_translation_unit m; breakpoints := breakpoints m;
     stdin_lines := stdin_lines m; last_tokens := last_tokens m |}.
Definition set_bootrom v (m : machine) : machine :=
    {| m_hart := m_hart m; pmr_ops := pmr_ops m; ram := ram m; bootrom := v; clint := clint m;
     plic := plic m; uart := uart m; terminal := terminal m; keyboard := keyboard m; reservations
     := reservations m; next_pointer := next_pointer m; poll_countdown := poll_countdown m;
     ticks_per_translation_unit := ticks_per_translation_unit m; breakpoints := breakpoints m;
     stdin_lines := stdin_lines m; last_tokens := last_tokens m |}.
Definition set_clint v (m : machine) : machine :=
    {| m_hart := m_hart m; pmr_ops := pmr_ops m; ram := ram m; bootrom := bootrom m; clint := v;
     plic := plic m; uart := uart m; terminal := terminal m; keyboard := keyboard m; reservations
     := reservations m; next_pointer := next_pointer m; poll_countdown := poll_countdown m;
     ticks_per_translation_unit := ticks_per_translation_unit m; breakpoints := breakpoints m;
     stdin_lines := stdin_lines m; last_tokens := last_tokens m |}.
Definition set_plic v (m : machine) : machine :=
    {| m_hart := m_hart m; pmr_ops := pmr_ops m; ram := ram m; bootrom := bootrom m; clint :=
     clint m; plic := v; uart := uart m; terminal := terminal m; keyboard := keyboard m;
     reservations := reservations m; next_pointer := next_pointer m; poll_countdown :=
     poll_countdown m; ticks_per_translation_unit := ticks_per_translation_unit m; breakpoints :=
     breakpoints m; stdin_lines := stdin_lines m; last_tokens := last_tokens m |}.
Definition set_uart v (m : machine) : machine :=
    {| m_hart := m_hart m; pmr_ops := pmr_ops m; ram := ram m; bootrom := bootrom m; clint :=
     clint m; plic := plic m; uart := v; terminal := terminal m; keyboard := keyboard m;
     reservations := reservations m; next_pointer := next_pointer m; poll_countdown :=
     poll_countdown m; ticks_per_translation_unit := ticks_per_translation_unit m; breakpoints :=
     breakpoints m; stdin_lines := stdin_lines m; last_tokens := last_tokens m |}.
Definition set_terminal v (m : machine) : machine :=
    {| m_hart := m_hart m; pmr_ops := pmr_ops m; ram := ram m; bootrom := bootrom m; clint :=
     clint m; plic := plic m; uart := uart m; terminal := v; keyboard := keyboard m; reservations
     := reservations m; next_pointer := next_pointer m; poll_countdown := poll_countdown m;
     ticks_per_translation_unit := ticks_per_translation_unit m; breakpoints := breakpoints m;
     stdin_lines := stdin_lines m; last_tokens := last_tokens m |}.
Definition set_keyboard v (m : machine) : machine :=
    {| m_hart := m_hart m; pmr_ops := pmr_ops m; ram := ram m; bootrom := bootrom m; clint :=
     clint m; plic := plic m; uart := uart m; terminal := terminal m; keyboard := v; reservations
     := reservations m; next_pointer := next_pointer m; poll_countdown := poll_countdown m;
     ticks_per_translation_unit := ticks_per_translation_unit m; breakpoints := breakpoints m;
     stdin_lines := stdin_lines m; last_tokens := last_tokens m |}.
Definition set_reservations v (m : machine) : machine :=
    {| m_hart := m_hart m; pmr_ops := pmr_ops m; ram := ram m; bootrom := bootrom m; clint :=
     clint m; plic := plic m; uart := uart m; terminal := terminal m; keyboard := keyboard m;
     reservations := v; next_pointer := next_pointer m; poll_countdown := poll_countdown m;
     ticks_per_translation_unit := ticks_per_translation_unit m; breakpoints := breakpoints m;
     stdin_lines := stdin_lines m; last_tokens := last_tokens m |}.
Definition set_next_pointer v (m : machine) : machine :=
    {| m_hart := m_hart m; pmr_ops := pmr_ops m; ram := ram m; bootrom := bootrom m; clint :=
     clint m; plic := plic m; uart := uart m; terminal := terminal m; keyboard := keyboard m;
     reservations := reservations m; next_pointer := v; poll_countdown := poll_countdown m;
     ticks_per_translation_unit := ticks_per_translation_unit m; breakpoints := breakpoints m;
     stdin_lines := stdin_lines m; last_tokens := last_tokens m |}.
Definition set_poll_countdown v (m : machine) : machine :=
    {| m_hart := m_hart m; pmr_ops := pmr_ops m; ram := ram m; bootrom := bootrom m; clint :=
     clint m; plic := plic m; uart := uart m; terminal := terminal m; keyboard := keyboard m;
     reservations := reservations m; next_pointer := next_pointer m; poll_countdown := v;
     ticks_per_translation_unit := ticks_per_translation_unit m; breakpoints := breakpoints m;
     stdin_lines := stdin_lines m; last_tokens := last_tokens m |}.
Definition set_ticks_per_translation_unit v (m : machine) : machine :=
    {| m_hart := m_hart m; pmr_ops := pmr_ops m; ram := ram m; bootrom := bootrom m; clint :=
     clint m; plic := plic m; uart := uart m; terminal := terminal m; keyboard := keyboard m;
     reservations := reservations m; next_pointer := next_pointer m; poll_countdown :=
     poll_countdown m; ticks_per_translation_unit := v; breakpoints := breakpoints m; stdin_lines
     := stdin_lines m; last_tokens := last_tokens m |}.
Definition set_breakpoints v (m : machine) : machine :=
    {| m_hart := m_hart m; pmr_ops := pmr_ops m; ram := ram m; bootrom := bootrom m; clint :=
     clint m; plic := plic m; uart := uart m; terminal := terminal m; keyboard := keyboard m;
     reservations := reservations m; next_pointer := next_pointer m; poll_countdown :=
     poll_countdown m; ticks_per_translation_unit := ticks_per_translation_unit m; breakpoints :=
     v; stdin_lines := stdin_lines m; last_tokens := last_tokens m |}.
Definition set_stdin_lines v (m : machine) : machine :=
    {| m_hart := m_hart m; pmr_ops := pmr_ops m; ram := ram m; bootrom := bootrom m; clint :=
     clint m; plic := plic m; uart := uart m; terminal := terminal m; keyboard := keyboard m;
     reservations := reservations m; next_pointer := next_pointer m; poll_countdown :=
     poll_countdown m; ticks_per_translation_unit := ticks_per_translation_unit m; breakpoints :=
     breakpoints m; stdin_lines := v; last_tokens := last_tokens m |}.
Definition set_last_tokens v (m : machine) : machine :=
    {| m_hart := m_hart m; pmr_ops := pmr_ops m; ram := ram m; bootrom := bootrom m; clint :=
     clint m; plic := plic m; uart := uart m; terminal := terminal m; keyboard := keyboard m;
     reservations := reservations m; next_pointer := next_pointer m; poll_countdown :=
     poll_countdown m; ticks_per_translation_unit := ticks_per_translation_unit m; breakpoints :=
     breakpoints m; stdin_lines := stdin_lines m; last_tokens := v |}.

(** The running hart's part of the state. *)
Definition on_hart {A} (m : prog hart A) : prog machine A := zoom m_hart set_m_hart m.

(** ** The regions *)

(** src/vmm/emulate_ram.c:17-40 ram_read *)
Definition ram_read (addr access_size : Z) (pmr : pm_region_operation) : prog machine Z := fun m =>
  if negb (legal_size access_size) then Failed else
  of_opt (mem_load (addr - addr_low pmr) access_size (ram m)) m.

(** src/vmm/emulate_ram.c:42-63 ram_write *)
Definition ram_write (addr access_size value : Z) (pmr : pm_region_operation) : prog machine unit :=
  fun m =>
  if negb (legal_size access_size) then Failed else
  match mem_store (addr - addr_low pmr) access_size value (ram m) with
  | Some r => Ok tt (set_ram r m)
  | None => Failed
  end.

(** src/vmm/emulate_rom.c:9-41 bootrom_read *)
Definition bootrom_read (addr access_size : Z) (pmr : pm_region_operation) : prog machine Z := fun m =>
  if addr_high pmr <? addr + access_size then Ok 0 m else
  if negb (legal_size access_size) then Failed else
  of_opt (mem_load (addr - addr_low pmr) access_size (bootrom m)) m.

(** src/vmm/emulate_rom.c:44-71 bootrom_write *)
Definition bootrom_write (addr access_size value : Z) (pmr : pm_region_operation) :
    prog machine unit := fun m =>
  if addr_high pmr <? addr + access_size then Ok tt m else
  if negb (legal_size access_size) then Failed else
  match mem_store (addr - addr_low pmr) access_size value (bootrom m) with
  | Some r => Ok tt (set_bootrom r m)
  | None => Failed
  end.

(** src/vmm/emulate_syscon.c:32-60 syscon_write *)
Definition syscon_write (addr access_size value : Z) : prog machine unit := fun m =>
  let command := Z.land value 0xffff in
  let argument := u32 (Z.shiftr value 16) in
  if command =? 0x5555 then Exited 0 m
  else if command =? 0x3333 then Exited (if truthy argument then argument else 1) m
  else if command =? 0x7777 then Exited 0 m
  else Ok tt m.

(** [pmr->pmr_read].
    src/vmm/pm_region.h:27-34 pm_region_operation *)
Definition pmr_read (pmr : pm_region_operation) (addr access_size : Z) : prog machine Z :=
  match pmr_callbacks pmr with
  | ram_region => ram_read addr access_size pmr
  | bootrom_region => bootrom_read addr access_size pmr
  | clint_region => gets (fun m => clint_read addr access_size (clint m))
  | plic_region => fun m =>
      let (v, p) := plic_mmio_read addr access_size (plic m) in Ok v (set_plic p m)
  | uart_region => fun m =>
      match uart_mmio_read addr access_size (uart m) (plic m) with
      | Some (v, u, p) => Ok v (set_plic p (set_uart u m))
      | None => Failed
      end
  | syscon_region => ret 0
  end.

(** [pmr->pmr_write].
    src/vmm/pm_region.h:27-34 pm_region_operation *)
Definition pmr_write (pmr : pm_region_operation) (addr access_size value : Z) : prog machine unit :=
  match pmr_callbacks pmr with
  | ram_region => ram_write addr access_size value pmr
  | bootrom_region => bootrom_write addr access_size value pmr
  | clint_region => modify (fun m => set_clint (clint_write addr access_size value (clint m)) m)
  | plic_region => modify (fun m => set_plic (plic_mmio_write addr access_size value (plic m)) m)
  | uart_region => fun m =>
      match uart_mmio_write addr access_size value (uart m) (plic m) with
      | Some (out, u, p) =>
          Ok tt (set_terminal (terminal m ++ out) (set_plic p (set_uart u m)))
      | None => Failed
      end
  | syscon_region => syscon_write addr access_size value
  end.

(** The value as the return type of an accessor of that size holds it. *)
Definition truncate (access_size v : Z) : Z := v mod 2 ^ (8 * access_size).

(** The lookup of a region by physical address, from the current table. *)
Definition find_region (pa : Z) : prog machine (option pm_region_operation) := fun m =>
  of_opt (search_pm_region_callback (pmr_ops m) pa) m.

(** src/vmm/mmu.h:12-31 direct_read##_size *)
Definition direct_read (access_size linear_address : Z) : prog machine Z :=
  let* pmr := find_region linear_address in
  match pmr with
  | None => failed
  | Some pmr =>
      let* v := pmr_read pmr linear_address access_size in ret (truncate access_size v)
  end.

(** src/vmm/mmu.h:34-54 direct_write##_size *)
Definition direct_write (access_size linear_address value : Z) : prog machine unit :=
  let* pmr := find_region linear_address in
  match pmr with
  | None => failed
  | Some pmr => pmr_write pmr linear_address access_size value
  end.

(** ** Memory facts *)

Lemma load_bytes_ext n off m m' :
  (forall i, off <= i < off + Z.of_nat n -> mem_byte m i = mem_byte m' i) ->
  load_bytes n off m = load_bytes n off m'.
Proof.
  revert off. induction n as [|n IH]; intros off Hi; cbn [load_bytes]; [done|].
  rewrite (Hi off), (IH (off + 1)); [done| |lia]. intros i Hi'. apply Hi. lia.
Qed.

Lemma store_bytes_outside n off v b i :
  i < off \/ off + Z.of_nat n <= i -> store_bytes n off v b !! i = b !! i.
Proof.
  revert off v. induction n as [|n IH]; intros off v Hi; cbn [store_bytes]; [done|].
  rewrite lookup_insert_ne by lia. apply IH. lia.
Qed.

Lemma store_bytes_byte n off v b i :
  off <= i < off + Z.of_nat n ->
  store_bytes n off v b !! i = Some (v / 2 ^ (8 * (i - off)) mod 256).
Proof.
  revert off v. induction n as [|n IH]; intros off v Hi; [lia|]. cbn [store_bytes].
  destruct (Z.eq_dec i off) as [->|Hne].
  - rewrite lookup_insert_eq. rewrite Z.sub_diag, Z.mul_0_r, Z.div_1_r. done.
  - rewrite lookup_insert_ne by lia. rewrite IH by lia. do 2 f_equal.
    change 256 with (2 ^ 8). rewrite Z.div_div by (try apply Z.pow_pos_nonneg; lia).
    rewrite <- Z.pow_add_r by lia. do 2 f_equal. lia.
Qed.

Lemma load_bytes_value n off m v :
  (forall i, off <= i < off + Z.of_nat n -> mem_byte m i = v / 2 ^ (8 * (i - off)) mod 256) ->
  load_bytes n off m = v mod 2 ^ (8 * Z.of_nat n).
Proof.
  revert off v. induction n as [|n IH]; intros off v Hi; cbn [load_bytes].
  - by rewrite Z.mod_1_r.
  - rewrite (Hi off) by lia. rewrite (IH (off + 1) (v / 256)).
    + rewrite Z.sub_diag, Z.mul_0_r, Z.div_1_r.
      replace (8 * Z.of_nat (S n)) with (8 + 8 * Z.of_nat n) by lia.
      rewrite Z.pow_add_r, Z.rem_mul_r by (try apply Z.pow_pos_nonneg; lia). done.
    + intros i Hi'. rewrite Hi by lia. f_equal. change 256 with (2 ^ 8).
      rewrite Z.div_div by (try apply Z.pow_pos_nonneg; lia).
      rewrite <- Z.pow_add_r by lia. do 2 f_equal. lia.
Qed.

Lemma mem_load_range off size m v :
  0 <= size -> (forall i, is_uint 8 (mem_byte m i)) -> mem_load off size m = Some v ->
  is_uint (8 * size) v.
Proof.
  intros Hs Hb. unfold mem_load. case_test; [|done]. intros [= <-].
  rewrite <- (Z2Nat.id size) at 1 by done. generalize (Z.to_nat size). intros n. clear E Hs.
  revert off. induction n as [|n IH]; intros off; cbn [load_bytes].
  - unfold is_uint. cbn. lia.
  - pose proof (Hb off) as [H1 H2]. destruct (IH (off + 1)) as [H3 H4]. unfold is_uint.
    replace (8 * Z.of_nat (S n)) with (8 + 8 * Z.of_nat n) by lia.
    rewrite Z.pow_add_r by lia. change (2 ^ 8) with 256 in *. nia.
Qed.

Lemma mem_store_load off size v m m' :
  0 <= size -> mem_store off size v m = Some m' ->
  mem_load off size m' = Some (v mod 2 ^ (8 * size)) /\ mem_size m' = mem_size m /\
  forall i, i < off \/ off + size <= i -> mem_byte m' i = mem_byte m i.
Proof.
  intros Hs. unfold mem_store. case_test; [|done]. intros [= <-].
  unfold mem_load, in_bounds in *. cbn [mem_size]. rewrite E.
  rewrite <- (Z2Nat.id size) at 2 3 by done. split; [|split; [done|]].
  - f_equal. apply load_bytes_value. intros i Hi. unfold mem_byte. cbn [mem_bytes].
    rewrite store_bytes_byte by lia. done.
  - intros i Hi. unfold mem_byte. cbn [mem_bytes]. rewrite store_bytes_outside by lia. done.
Qed.

(** A load that does not meet a store is unaffected by it. *)
Lemma mem_store_load_apart off size v m m' off' size' :
  0 <= size -> mem_store off size v m = Some m' ->
  off' + size' <= off \/ off + size <= off' -> mem_load off' size' m' = mem_load off' size' m.
Proof.
  intros Hs Hst Hd. destruct (mem_store_load off size v m m' Hs Hst) as (_ & Hsz & Hout).
  unfold mem_load, in_bounds. rewrite Hsz. case_test; [|done]. f_equal.
  apply load_bytes_ext. intros i Hi. apply Hout. lia.
Qed.

(** ** The hart is not reached through a region *)

Definition same_hart (h : hart) (m : machine) : Prop := m_hart m = h.

Lemma pmr_read_hart r a n h : preserves (same_hart h) (pmr_read r a n).
Proof.
  unfold pmr_read. destruct (pmr_callbacks r); intros m Hm.
  - unfold ram_read. case_test; [done|]. by destruct (mem_load _ _ _).
  - unfold bootrom_read. repeat case_test; [done..|]. by destruct (mem_load _ _ _).
  - done.
  - by destruct (plic_mmio_read a n (plic m)).
  - by destruct (uart_mmio_read a n (uart m) (plic m)) as [[[]]|].
  - done.
Qed.

Lemma pmr_write_hart r a n v h : preserves (same_hart h) (pmr_write r a n v).
Proof.
  unfold pmr_write. destruct (pmr_callbacks r); intros m Hm.
  - unfold ram_write. case_test; [done|]. by destruct (mem_store _ _ _ _).
  - unfold bootrom_write. repeat case_test; [done..|]. by destruct (mem_store _ _ _ _).
  - done.
  - done.
  - by destruct (uart_mmio_write a n v (uart m) (plic m)) as [[[]]|].
  - unfold syscon_write. by repeat case_test.
Qed.

Lemma find_region_hart a h : preserves (same_hart h) (find_region a).
Proof. intros m Hm. unfold find_region. by destruct (search_pm_region_callback _ _). Qed.

Lemma direct_read_hart n a h : preserves (same_hart h) (direct_read n a).
Proof.
  apply preserves_bind; [apply find_region_hart|]. intros [r|]; [|apply preserves_failed].
  apply preserves_bind; [apply pmr_read_hart|]. intros v. apply preserves_ret.
Qed.

Lemma direct_write_hart n a v h : preserves (same_hart h) (direct_write n a v).
Proof.
  apply preserves_bind; [apply find_region_hart|]. intros [r|]; [|apply preserves_failed].
  apply pmr_write_hart.
Qed.

(** No access to a region takes a guest trap. *)
Definition traps {S A} (r : res S A) : Prop := match r with Trapped _ => True | _ => False end.

Lemma pmr_read_no_trap r a n m : ~ traps (pmr_read r a n m).
Proof.
  unfold pmr_read. destruct (pmr_callbacks r); cbn; try tauto.
  - unfold ram_read. case_test; [by intros []|]. destruct (mem_load _ _ _); by intros [].
  - unfold bootrom_read. repeat case_test; [by intros []..|]. destruct (mem_load _ _ _); by intros [].
  - destruct (plic_mmio_read a n (plic m)). by intros [].
  - destruct (uart_mmio_read a n (uart m) (plic m)) as [[[]]|]; by intros [].
Qed.

Lemma pmr_write_no_trap r a n v m : ~ traps (pmr_write r a n v m).
Proof.
  unfold pmr_write. destruct (pmr_callbacks r); cbn; try tauto.
  - unfold ram_write. case_test; [by intros []|]. destruct (mem_store _ _ _ _); by intros [].
  - unfold bootrom_write. repeat case_test; [by intros []..|]. destruct (mem_store _ _ _ _); by intros [].
  - destruct (uart_mmio_write a n v (uart m) (plic m)) as [[[]]|]; by intros [].
  - unfold syscon_write. repeat case_test; by intros [].
Qed.

(** ** A concrete machine *)

(** A small board with the vmm's memory map: the boot rom's region is left out, the
    main memory is 64 KiB. *)
Module Board.
Definition ram_pmr : pm_region_operation :=
  {| addr_low := 0x80000000; addr_high := 0x80010000; pmr_callbacks := ram_region |}.
Definition clint_pmr : pm_region_operation :=
  {| addr_low := 0x02000000; addr_high := 0x02010000; pmr_callbacks := clint_region |}.
Definition plic_pmr : pm_region_operation :=
  {| addr_low := 0x0c000000; addr_high := 0x10000000; pmr_callbacks := plic_region |}.
Definition uart_pmr : pm_region_operation :=
  {| addr_low := 0x10000000; addr_high := 0x10000100; pmr_callbacks := uart_region |}.

(** Words of memory, by offset. *)
Definition image (words : list (Z * Z)) : memory :=
  {| mem_size := 0x10000;
     mem_bytes := foldr (fun p b => store_bytes 4 p.1 p.2 b) ∅ words |}.

Definition board (h : hart) (words : list (Z * Z)) : machine :=
  {| m_hart := h; pmr_ops := [clint_pmr; plic_pmr; uart_pmr; ram_pmr]; ram := image words;
     bootrom := {| mem_size := 0; mem_bytes := ∅ |};
     clint := clint_init 0x02000000 0x10000 1; plic := plic_init 0x0c000000 1;
     uart := uart_init true; terminal := []; keyboard := []; reservations := [];
     next_pointer := 0; poll_countdown := 0; ticks_per_translation_unit := 1000;
     breakpoints := []; stdin_lines := []; last_tokens := [] |}.

Lemma board_table_ok : table_ok [clint_pmr; plic_pmr; uart_pmr; ram_pmr].
Proof. split; repeat constructor; done. Qed.
End Board.
