(* ===== verification/Mmu.v ===== *)
(** * The memory management unit

    Models src/vmm/mmu_tlb.h, src/vmm/mmu_tlb.c, src/vmm/mmu_pagewalker.c,
    src/vmm/mmu.h and src/vmm/mmu.c: the direct-mapped translation look-aside
    buffers, the sv32 page-table walk that fills them, and the guest's loads,
    stores and instruction fetches. A TLB is a finite map from slots to entries; a
    slot never written is invalid, as [invalidate_tlb] leaves it.

    Proved here: on a TLB miss the walker implements the address translation of the
    sv32 specification on the page tables the specification accepts, and takes the
    page fault of the access where the specification does; a store is read back;
    accesses change no guest register. The lookup does not compare the tag of an
    entry, and a concrete machine shows the aliasing this permits. *)

From S2P Require Import Prelude Monad PmRegion X86 Hart Trap Clint Plic Uart Machine.
Local Open Scope Z_scope.

Definition PAGE_SHIFT_4K : Z := 12.
Definition PAGE_SHIFT_4M : Z := 22.
Definition PAGE_MASK_4K : Z := 0xfffff000.
Definition PAGE_MASK_4M : Z := 0xffc00000.

(** ** The translation look-aside buffers *)

Abbreviation tlb := (gmap Z tlb_entry).
Definition tlb_at (t : tlb) (i : Z) : tlb_entry := default tlb_entry0 (t !! i).

(** src/vmm/mmu_tlb.h:49-53 VA_TO_4K_TLB_ENTRY *)
Definition VA_TO_4K_TLB_ENTRY (tlb_cap va : Z) : Z :=
  Z.land (Z.shiftr (u32 va) PAGE_SHIFT_4K) (u32 (tlb_cap - 1)).

(** src/vmm/mmu_tlb.h:56-60 VA_TO_4M_TLB_ENTRY *)
Definition VA_TO_4M_TLB_ENTRY (tlb_cap va : Z) : Z :=
  Z.land (Z.shiftr (u32 va) PAGE_SHIFT_4M) (u32 (tlb_cap - 1)).

(** src/vmm/mmu_tlb.h:63-69 VA_TO_TLB_ENTRY *)
Definition VA_TO_TLB_ENTRY (t : tlb) (tlb_cap va : Z) : option tlb_entry :=
  let entry := tlb_at t (VA_TO_4K_TLB_ENTRY tlb_cap va) in
  let entry := if negb (entry_valid entry) then tlb_at t (VA_TO_4M_TLB_ENTRY tlb_cap va) else entry in
  if entry_valid entry then Some entry else None.

Definition invalid_entry (e : tlb_entry) : tlb_entry :=
  {| va_tag := va_tag e; pa_tag := pa_tag e; page_mask := page_mask e; entry_valid := false;
     level1_pte := level1_pte e; level2_pte := level2_pte e; pmr := pmr e |}.

(** src/vmm/mmu_tlb.c:6-15 invalidate_tlb *)
Definition invalidate_tlb (tlb_cap : Z) (t : tlb) : tlb :=
  map_imap (fun idx e =>
    Some (if (0 <=? idx) && (idx <? tlb_cap) then invalid_entry e else e)) t.

(** ** The page-table walk *)

(** The fields of a page table entry.
    src/vmm/mmu_tlb.h:15-28 sv32_pte *)
Definition pte_valid (pte : Z) : bool := Z.testbit pte 0.
Definition pte_leaf (pte : Z) : bool := Z.testbit pte 1 || Z.testbit pte 2 || Z.testbit pte 3.
Definition pte_ppn (pte : Z) : Z := Z.shiftr pte 10.

(** A host pointer into the main memory is its offset there.
    src/vmm/emulate_ram.c:8-15 ram_direct *)
Definition ram_direct (addr : Z) (r : pm_region_operation) : Z := addr - addr_low r.

(** src/vmm/mmu_pagewalker.c:50-58 pte_at *)
Definition pte_at (pa : Z) : prog machine (option Z) :=
  let* r := find_region pa in
  match r with
  | Some r => if has_pmr_direct r then ret (Some (ram_direct pa r)) else ret None
  | None => ret None
  end.

(** A load through the pointer. *)
Definition read_pte (ptr : Z) : prog machine Z := fun m => of_opt (mem_load ptr 4 (ram m)) m.

(** The result code, and the TLB with the entry installed.
    src/vmm/mmu_pagewalker.c:65-143 walk_page_table *)
Definition walk_page_table (va : Z) (t : tlb) (tlb_cap : Z) : prog machine (Z * tlb) :=
  let* satp := gets (fun m => blob (m_hart m) CSR_ADDRESS_SATP) in
  ASSERT (truthy (Z.land satp 0x80000000)) ;;;
  let level1_base := u32 (Z.shiftl satp 12) in
  let level1_entry_offset := Z.land (Z.shiftr va 22) 0x3ff * 4 in
  let* level1 := pte_at (u32 (level1_base + level1_entry_offset)) in
  match level1 with
  | None => ret (-3, t)
  | Some level1_ptr =>
      let* level1_word := read_pte level1_ptr in
      if negb (pte_valid level1_word) then ret (-1, t) else
      let level1_ppn := pte_ppn level1_word in
      if pte_leaf level1_word then
        let pa := Z.land (u32 (Z.shiftl level1_ppn 12)) PAGE_MASK_4M in
        let* r := find_region pa in
        match r with
        | None => ret (-4, t)
        | Some r =>
            ret (0, <[VA_TO_4M_TLB_ENTRY tlb_cap va :=
              {| va_tag := Z.land va PAGE_MASK_4M; pa_tag := pa; page_mask := PAGE_MASK_4M;
                 entry_valid := true; level1_pte := level1_ptr; level2_pte := None;
                 pmr := Some r |}]> t)
        end
      else
        let level2_base := u32 (Z.shiftl level1_ppn 12) in
        let level2_entry_offset := Z.land (Z.shiftr va 12) 0x3ff * 4 in
        let* level2 := pte_at (u32 (level2_base + level2_entry_offset)) in
        match level2 with
        | None => ret (-3, t)
        | Some level2_ptr =>
            let* level2_word := read_pte level2_ptr in
            if negb (pte_valid level2_word) then ret (-2, t) else
            let level2_ppn := pte_ppn level2_word in
            let pa := Z.land (u32 (Z.shiftl level2_ppn 12)) PAGE_MASK_4K in
            let* r := find_region pa in
            match r with
            | None => ret (-4, t)
            | Some r =>
                ret (0, <[VA_TO_4K_TLB_ENTRY tlb_cap va :=
                  {| va_tag := Z.land va PAGE_MASK_4K; pa_tag := pa; page_mask := PAGE_MASK_4K;
                     entry_valid := true; level1_pte := level1_ptr; level2_pte := Some level2_ptr;
                     pmr := Some r |}]> t)
            end
        end
  end.

(** The scan of the root table for a superpage that maps to [pa].
    src/vmm/mmu_pagewalker.c:26-42 pa_to_va *)
Fixpoint pa_to_va_loop (n : nat) (idx level1_pte pa : Z) : prog machine (option Z) :=
  match n with
  | O => ret None
  | S n =>
      let* pte := read_pte (level1_pte + 4 * idx) in
      if negb (pte_valid pte) then pa_to_va_loop n (idx + 1) level1_pte pa
      else if pte_leaf pte then
        let ppn_4m := u32 (Z.shiftl (pte_ppn pte) 12) in
        if Z.land ppn_4m PAGE_MASK_4M =? Z.land pa PAGE_MASK_4M
        then ret (Some (Z.lor (Z.ldiff pa PAGE_MASK_4M) (u32 (Z.shiftl idx 22))))
        else pa_to_va_loop n (idx + 1) level1_pte pa
      else failed
  end.

(** src/vmm/mmu_pagewalker.c:12-43 pa_to_va *)
Definition pa_to_va (pa : Z) : prog machine (option Z) :=
  let* satp := gets (fun m => blob (m_hart m) CSR_ADDRESS_SATP) in
  ASSERT (truthy (Z.land satp 0x80000000)) ;;;
  let level1_base := u32 (Z.shiftl satp 12) in
  let* level1_pmr := find_region level1_base in
  let* level1_pmr := of_opt level1_pmr in
  if has_pmr_direct level1_pmr
  then pa_to_va_loop 1024 0 (ram_direct level1_base level1_pmr) pa
  else failed.

(** ** Guest accesses *)

(** Paging is in effect: below machine level, with the mode bit of satp. *)
Definition paging (h : hart) : bool :=
  (privilege_level h <? PRIVILEGE_LEVEL_MACHINE) &&
  truthy (Z.land (blob h CSR_ADDRESS_SATP) 0x80000000).

(** The physical address an entry gives. *)
Definition entry_address (e : tlb_entry) (va : Z) : Z :=
  Z.lor (pa_tag e) (Z.ldiff va (page_mask e)).

Section Access.
Context `{Assembler}.

(** The entry for an address: the cached one, or what a walk installs, or the page
    fault [fault] of the access. [get_tlb], [cap] and [put_tlb] select the
    instruction or the data TLB.
    src/vmm/mmu.h:71-84 vmread##_size *)
Definition translate_va (get_tlb : hart -> tlb) (cap : hart -> Z) (put_tlb : tlb -> hart -> hart)
    (fault va : Z) : prog machine tlb_entry :=
  let* h := gets m_hart in
  match VA_TO_TLB_ENTRY (get_tlb h) (cap h) va with
  | Some e => ret e
  | None =>
      let* rc_tlb := walk_page_table va (get_tlb h) (cap h) in
      let t := rc_tlb.2 in
      modify (fun m => set_m_hart (put_tlb t (m_hart m)) m) ;;;
      match VA_TO_TLB_ENTRY t (cap h) va with
      | Some e => ret e
      | None => on_hart (raise_exception_with_tvalue fault va)
      end
  end.

(** src/vmm/mmu.h:63-97 vmread##_size *)
Definition vmread (access_size linear_address : Z) : prog machine Z :=
  let* h := gets m_hart in
  if paging h then
    let* e := translate_va dtlb dtlb_cap set_dtlb EXCEPTION_LOAD_PAGE_FAULT linear_address in
    let* r := of_opt (pmr e) in
    let* v := pmr_read r (entry_address e linear_address) access_size in
    ret (truncate access_size v)
  else direct_read access_size linear_address.

(** src/vmm/mmu.h:101-135 vmwrite##_size *)
Definition vmwrite (access_size linear_address value : Z) : prog machine unit :=
  let* h := gets m_hart in
  if paging h then
    let* e := translate_va dtlb dtlb_cap set_dtlb EXCEPTION_STORE_PAGE_FAULT linear_address in
    let* r := of_opt (pmr e) in
    pmr_write r (entry_address e linear_address) access_size value
  else direct_write access_size linear_address value.

(** src/vmm/mmu.c:78-106 mmu_instruction_read32 *)
Definition mmu_instruction_read32 (instruction_va : Z) : prog machine Z :=
  let* h := gets m_hart in
  if paging h then
    let* e := translate_va itlb itlb_cap set_itlb EXCEPTION_INSTRUCTION_PAGE_FAULT instruction_va in
    let* r := of_opt (pmr e) in
    let* v := pmr_read r (entry_address e instruction_va) 4 in
    ret (u32 v)
  else direct_read 4 instruction_va.

(** src/vmm/mmu.c:9-13 mmu_read8 *)
Definition mmu_read8 (location : Z) : prog machine Z := vmread 1 location.
(** src/vmm/mmu.c:15-19 mmu_read16 *)
Definition mmu_read16 (location : Z) : prog machine Z := vmread 2 location.
(** src/vmm/mmu.c:22-26 mmu_read32 *)
Definition mmu_read32 (location : Z) : prog machine Z := vmread 4 location.
(** src/vmm/mmu.c:40-44 mmu_write8 *)
Definition mmu_write8 (location value : Z) : prog machine unit := vmwrite 1 location value.
(** src/vmm/mmu.c:46-50 mmu_write16 *)
Definition mmu_write16 (location value : Z) : prog machine unit := vmwrite 2 location value.
(** src/vmm/mmu.c:53-57 mmu_write32 *)
Definition mmu_write32 (location value : Z) : prog machine unit := vmwrite 4 location value.

(** src/vmm/mmu.c:28-36 mmu_read32_aligned *)
Definition mmu_read32_aligned (location : Z) : prog machine Z :=
  (if truthy (Z.land location 3)
   then on_hart (raise_exception_with_tvalue EXCEPTION_LOAD_ADDRESS_MISALIGN location)
   else ret tt) ;;;
  vmread 4 location.

(** src/vmm/mmu.c:60-68 mmu_write32_aligned *)
Definition mmu_write32_aligned (location value : Z) : prog machine unit :=
  (if truthy (Z.land location 3)
   then on_hart (raise_exception_with_tvalue EXCEPTION_LOAD_ADDRESS_MISALIGN location)
   else ret tt) ;;;
  vmwrite 4 location value.
End Access.

(** ** The sv32 specification *)

(** What the privileged architecture defines for sv32, up to the permission bits U,
    R, W, X, A, D, which this vmm does not check. [Malformed] are the entries the
    architecture also faults on and this vmm accepts: a writable entry that is not
    readable, a superpage that is not aligned, a pointer at the last level. *)
Inductive sv32_result :=
  | Page (pa size : Z)
  | Page_fault
  | Malformed.

(** [word] is the memory the page tables are read from; [None] when a table is not
    in readable memory. *)
Definition sv32_walk (word : Z -> option Z) (satp va : Z) : option sv32_result :=
  let root := satp mod 2 ^ 22 * 2 ^ 12 in
  pte1 ← word (root + va / 2 ^ 22 * 4);
  if negb (Z.testbit pte1 0) then Some Page_fault
  else if negb (Z.testbit pte1 1) && Z.testbit pte1 2 then Some Malformed
  else if Z.testbit pte1 1 || Z.testbit pte1 3 then
    if pte1 / 2 ^ 10 mod 2 ^ 10 =? 0
    then Some (Page (pte1 / 2 ^ 20 * 2 ^ 22 + va mod 2 ^ 22) (2 ^ 22))
    else Some Malformed
  else
    pte0 ← word (pte1 / 2 ^ 10 * 2 ^ 12 + va / 2 ^ 12 mod 2 ^ 10 * 4);
    if negb (Z.testbit pte0 0) then Some Page_fault
    else if negb (Z.testbit pte0 1) && Z.testbit pte0 2 then Some Malformed
    else if Z.testbit pte0 1 || Z.testbit pte0 3
    then Some (Page (pte0 / 2 ^ 10 * 2 ^ 12 + va mod 2 ^ 12) (2 ^ 12))
    else Some Malformed.

(** The main memory as page tables are read from it, below 4 GiB. *)
Definition ram_word (m : machine) (pa : Z) : option Z :=
  if (0 <=? pa) && (pa <? 2 ^ 32) then
    r ← search_pm_region_callback (pmr_ops m) pa;
    match r with
    | Some r => if has_pmr_direct r then mem_load (ram_direct pa r) 4 (ram m) else None
    | None => None
    end
  else None.

(** ** Page arithmetic *)

(** The mask of a page of [2 ^ k] bytes. *)
Definition page_mask_of (k : Z) : Z := Z.ldiff (Z.ones 32) (Z.ones k).

Lemma land_page_mask k x :
  0 <= k <= 32 -> is_uint 32 x -> Z.land x (page_mask_of k) = x / 2 ^ k * 2 ^ k.
Proof.
  intros Hk Hx. unfold page_mask_of. rewrite <- Z.shiftl_mul_pow2, <- Z.shiftr_div_pow2 by lia.
  apply Z.bits_inj'. intros i Hi. rewrite Z.land_spec, Z.ldiff_spec, !Z.testbit_ones by lia.
  rewrite Z.shiftl_spec by done.
  destruct (Z.ltb_spec i k).
  - rewrite (Z.testbit_neg_r _ (i - k)) by lia.
    destruct (Z.leb_spec 0 i); [|lia]. cbn. by rewrite andb_false_r, andb_false_r.
  - rewrite Z.shiftr_spec by lia. replace (i - k + k) with i by lia.
    rewrite andb_false_r. cbn. destruct (Z.ltb_spec i 32).
    + destruct (Z.leb_spec 0 i); [|lia]. cbn. by rewrite andb_true_r.
    + rewrite (testbit_high 32 x) by (done || lia). done.
Qed.

Lemma ldiff_page_mask k x : 0 <= k <= 32 -> is_uint 32 x -> Z.ldiff x (page_mask_of k) = x mod 2 ^ k.
Proof.
  intros Hk Hx. unfold page_mask_of. rewrite <- Z.land_ones by lia.
  apply Z.bits_inj'. intros i Hi. rewrite Z.land_spec, !Z.ldiff_spec, !Z.testbit_ones by lia.
  destruct (Z.ltb_spec i 32).
  - destruct (Z.leb_spec 0 i); [|lia]. cbn.
    destruct (Z.testbit x i), (i <? k); done.
  - rewrite (testbit_high 32 x) by (done || lia). done.
Qed.

Lemma lor_page k b off :
  0 <= k -> 0 <= off < 2 ^ k -> b mod 2 ^ k = 0 -> Z.lor b off = b + off.
Proof.
  intros Hk Ho Hb. apply Z.mod_divide in Hb; [|lia]. destruct Hb as [q ->].
  rewrite Z.lor_comm, <- Z.shiftl_mul_pow2, lor_shiftl_add, Z.shiftl_mul_pow2 by lia. lia.
Qed.

Lemma entry_address_page k e va :
  0 <= k <= 32 -> is_uint 32 va -> page_mask e = page_mask_of k -> pa_tag e mod 2 ^ k = 0 ->
  entry_address e va = pa_tag e + va mod 2 ^ k.
Proof.
  intros Hk Hva Hm Hb. unfold entry_address. rewrite Hm, ldiff_page_mask by done.
  apply (lor_page k); [lia| |done]. apply Z.mod_pos_bound, Z.pow_pos_nonneg; lia.
Qed.

(** ** The walk *)

Section Walk.
Context `{Assembler}.

Lemma ram_word_read m pa w :
  ram_word m pa = Some w ->
  0 <= pa < 2 ^ 32 /\ exists ptr, pte_at pa m = Ok (Some ptr) m /\ read_pte ptr m = Ok w m.
Proof.
  unfold ram_word, pte_at, read_pte, find_region, bind. case_test; [|done]. to_prop. intros Hw.
  split; [lia|]. destruct (search_pm_region_callback _ _) as [[r|]|]; cbn in Hw |- *; [|done..].
  destruct (has_pmr_direct r); [|done]. exists (ram_direct pa r). by rewrite Hw.
Qed.

(** The address of an entry: the code's 32-bit sum is the specification's, when the
    latter is below 4 GiB. *)
Lemma table_entry_address base i :
  0 <= base -> base mod 2 ^ 12 = 0 -> 0 <= i < 2 ^ 10 -> base + i * 4 < 2 ^ 32 ->
  u32 (u32 base + i * 4) = base + i * 4.
Proof.
  intros. rewrite u32_add_l. apply u32_id. unfold is_uint. lia.
Qed.

Lemma index1 va : is_uint 32 va -> Z.land (Z.shiftr va 22) 0x3ff = va / 2 ^ 22.
Proof.
  intros Hva. change 0x3ff with (Z.ones 10). rewrite field_mod by lia. apply Z.mod_small.
  unfold is_uint in Hva. change (2 ^ 32) with (2 ^ 10 * 2 ^ 22) in Hva. dlia.
Qed.

Lemma index2 va : Z.land (Z.shiftr va 12) 0x3ff = va / 2 ^ 12 mod 2 ^ 10.
Proof. change 0x3ff with (Z.ones 10). by rewrite field_mod by lia. Qed.

Lemma root_address satp off :
  0 <= off -> satp mod 2 ^ 22 * 2 ^ 12 + off < 2 ^ 32 ->
  u32 (Z.shiftl satp 12) = satp mod 2 ^ 22 * 2 ^ 12.
Proof.
  intros Ho Hb. rewrite Z.shiftl_mul_pow2 by lia. unfold u32.
  change (2 ^ 32) with (2 ^ 20 * 2 ^ 12) in *. rewrite Z.mul_mod_distr_r by lia. f_equal.
  change (2 ^ 22) with (2 ^ 20 * 4) in *. rewrite Z.rem_mul_r in * by lia.
  change (2 ^ 20) with 1048576 in *. change (2 ^ 12) with 4096 in *. dlia.
Qed.

(** The entry the walk installs for the page of [va], of [2 ^ k] bytes in [r]. *)
Record installed (k va pa : Z) (r : pm_region_operation) (e : tlb_entry) : Prop := {
  inst_valid : entry_valid e = true;
  inst_pmr : pmr e = Some r;
  inst_mask : page_mask e = page_mask_of k;
  inst_tag : pa_tag e = pa - va mod 2 ^ k;
  inst_aligned : pa_tag e mod 2 ^ k = 0
}.

Definition tlb_slot (k cap va : Z) : Z :=
  if k =? 12 then VA_TO_4K_TLB_ENTRY cap va else VA_TO_4M_TLB_ENTRY cap va.

Lemma page_base_ok k q va pa :
  0 <= k <= 32 -> pa = q * 2 ^ k + va mod 2 ^ k -> is_uint 32 pa ->
  is_uint 32 (q * 2 ^ k) /\ q * 2 ^ k = pa - va mod 2 ^ k /\ q * 2 ^ k mod 2 ^ k = 0.
Proof.
  intros Hk -> Hpa. assert (0 < 2 ^ k) by (apply Z.pow_pos_nonneg; lia).
  pose proof (Z.mod_pos_bound va (2 ^ k) ltac:(lia)). unfold is_uint in *.
  rewrite Z.mod_mul by lia. assert (0 <= q) by nia. repeat split; nia.
Qed.

Lemma pte_valid_bit w : pte_valid w = Z.testbit w 0.
Proof. done. Qed.

Lemma walk_sv32 m t cap va :
  let satp := blob (m_hart m) CSR_ADDRESS_SATP in
  is_uint 32 va -> truthy (Z.land satp 0x80000000) = true ->
  match sv32_walk (ram_word m) satp va with
  | Some (Page pa size) => forall r, is_uint 32 pa ->
      search_pm_region_callback (pmr_ops m) (pa - va mod size) = Some (Some r) ->
      exists k e, (k = 12 \/ k = 22) /\ size = 2 ^ k /\ installed k va pa r e /\
        walk_page_table va t cap m = Ok (0, <[tlb_slot k cap va := e]> t) m
  | Some Page_fault => exists rc, rc < 0 /\ walk_page_table va t cap m = Ok (rc, t) m
  | _ => True
  end.
Proof.
  intros satp Hva Hon. unfold sv32_walk.
  destruct (ram_word m (_ + va / _ * 4)) as [w1|] eqn:E1; cbn [mbind option_bind]; [|done].
  apply ram_word_read in E1 as (B1 & p1 & P1 & R1).
  assert (I1 : 0 <= va / 2 ^ 22 < 2 ^ 10).
  { rewrite <- index1 by done. change 0x3ff with (Z.ones 10). rewrite Z.land_ones by lia.
    by apply Z.mod_pos_bound. }
  unfold walk_page_table, bind, gets, ASSERT. fold satp. rewrite Hon. unfold ret.
  rewrite index1 by done. rewrite (root_address satp (va / 2 ^ 22 * 4)) by lia.
  rewrite (u32_id (_ + _)) by (unfold is_uint; lia). rewrite P1, R1.
  change (pte_valid w1) with (Z.testbit w1 0).
  destruct (Z.testbit w1 0); cbn [negb]; [|by exists (-1)].
  destruct (negb (Z.testbit w1 1) && Z.testbit w1 2) eqn:EM; [done|].
  unfold pte_leaf, pte_ppn.
  assert (HL : Z.testbit w1 1 || Z.testbit w1 2 || Z.testbit w1 3 = Z.testbit w1 1 || Z.testbit w1 3).
  { destruct (Z.testbit w1 1), (Z.testbit w1 2); done. }
  rewrite HL. rewrite Z.shiftr_div_pow2, Z.shiftl_mul_pow2 by lia.
  destruct (Z.testbit w1 1 || Z.testbit w1 3) eqn:EL.
  - destruct (Z.eqb_spec (w1 / 2 ^ 10 mod 2 ^ 10) 0) as [EA|]; [|done]. intros r Hpa Hr.
    destruct (page_base_ok 22 (w1 / 2 ^ 20) va _ ltac:(lia) eq_refl Hpa) as (U & T & A).
    assert (Eb : w1 / 2 ^ 10 * 2 ^ 12 = w1 / 2 ^ 20 * 2 ^ 22).
    { change (2 ^ 10) with 1024 in *. change (2 ^ 12) with 4096 in *.
      change (2 ^ 20) with 1048576 in *. change (2 ^ 22) with 4194304 in *. dlia. }
    rewrite Eb, (u32_id _ U). change PAGE_MASK_4M with (page_mask_of 22).
    rewrite land_page_mask, Z.div_mul by (lia || done).
    unfold find_region. rewrite <- T in Hr. rewrite Hr.
    exists 22. eexists. split; [by right|]. split; [done|]. split; [|reflexivity]. split; try done.
  - destruct (ram_word m (_ + _ mod _ * 4)) as [w2|] eqn:E2; cbn [mbind option_bind]; [|done].
    apply ram_word_read in E2 as (B2 & p2 & P2 & R2).
    assert (I2 : 0 <= va / 2 ^ 12 mod 2 ^ 10 < 2 ^ 10) by (by apply Z.mod_pos_bound).
    rewrite index2, table_entry_address by (try apply Z.mod_mul; change (2 ^ 12) with 4096 in *; lia).
    rewrite P2, R2. change (pte_valid w2) with (Z.testbit w2 0).
    destruct (Z.testbit w2 0); cbn [negb]; [|by exists (-2)].
    destruct (negb (Z.testbit w2 1) && Z.testbit w2 2); [done|].
    destruct (Z.testbit w2 1 || Z.testbit w2 3); [|done]. intros r Hpa Hr.
    destruct (page_base_ok 12 (w2 / 2 ^ 10) va _ ltac:(lia) eq_refl Hpa) as (U & T & A).
    rewrite (Z.shiftr_div_pow2 w2), (Z.shiftl_mul_pow2 (w2 / 2 ^ 10)) by lia.
    rewrite (u32_id _ U). change PAGE_MASK_4K with (page_mask_of 12).
    rewrite land_page_mask, Z.div_mul by (lia || done).
    unfold find_region. rewrite <- T in Hr. rewrite Hr.
    exists 12. eexists. split; [by left|]. split; [done|]. split; [|reflexivity]. split; try done.
Qed.

(** A freshly installed entry is the one the lookup finds. *)
Lemma lookup_installed k va pa r e t cap :
  k = 12 \/ k = 22 -> VA_TO_TLB_ENTRY t cap va = None -> installed k va pa r e ->
  VA_TO_TLB_ENTRY (<[tlb_slot k cap va := e]> t) cap va = Some e.
Proof.
  intros Hk Hmiss [Hv _ _ _ _]. unfold VA_TO_TLB_ENTRY in *. cbv zeta in *.
  unfold tlb_at in *.
  destruct (entry_valid (default tlb_entry0 (t !! VA_TO_4K_TLB_ENTRY cap va))) eqn:E4; cbn [negb] in Hmiss;
    [by rewrite E4 in Hmiss|].
  destruct Hk as [->| ->]; [change (tlb_slot 12 cap va) with (VA_TO_4K_TLB_ENTRY cap va)
    |change (tlb_slot 22 cap va) with (VA_TO_4M_TLB_ENTRY cap va)].
  - rewrite lookup_insert_eq. cbn. by rewrite Hv; cbn; rewrite Hv.
  - destruct (Z.eq_dec (VA_TO_4M_TLB_ENTRY cap va) (VA_TO_4K_TLB_ENTRY cap va)) as [->|Hne].
    + rewrite lookup_insert_eq. cbn. by rewrite Hv; cbn; rewrite Hv.
    + rewrite lookup_insert_ne by done. rewrite E4. cbn [negb]. rewrite lookup_insert_eq. cbn. by rewrite Hv.
Qed.

(** *** Which TLB an access uses *)

(** The laws of a selected TLB, instruction or data. *)
Record tlb_selection (get_tlb : hart -> tlb) (put_tlb : tlb -> hart -> hart) : Prop := {
  put_same h : put_tlb (get_tlb h) h = h
}.

Lemma itlb_selection : tlb_selection itlb set_itlb.
Proof. split. by intros []. Qed.
Lemma dtlb_selection : tlb_selection dtlb set_dtlb.
Proof. split. by intros []. Qed.

Lemma paging_mode h : paging h = true -> truthy (Z.land (blob h CSR_ADDRESS_SATP) 0x80000000) = true.
Proof. unfold paging. by intros [_ ?]%andb_true_iff. Qed.

Lemma set_m_hart_same m : set_m_hart (m_hart m) m = m.
Proof. by destruct m. Qed.

Lemma installed_address k va pa r e :
  k = 12 \/ k = 22 -> is_uint 32 va -> installed k va pa r e -> entry_address e va = pa.
Proof.
  intros Hk Hva []. rewrite (entry_address_page k) by (done || lia). lia.
Qed.

Lemma translate_va_sv32 get_tlb cap put_tlb va m :
  tlb_selection get_tlb put_tlb -> is_uint 32 va -> paging (m_hart m) = true ->
  VA_TO_TLB_ENTRY (get_tlb (m_hart m)) (cap (m_hart m)) va = None ->
  match sv32_walk (ram_word m) (blob (m_hart m) CSR_ADDRESS_SATP) va with
  | Some (Page pa size) => forall r, is_uint 32 pa ->
      search_pm_region_callback (pmr_ops m) (pa - va mod size) = Some (Some r) ->
      exists k e, (k = 12 \/ k = 22) /\ size = 2 ^ k /\ installed k va pa r e /\
        let t := <[tlb_slot k (cap (m_hart m)) va := e]> (get_tlb (m_hart m)) in
        VA_TO_TLB_ENTRY t (cap (m_hart m)) va = Some e /\
        forall fault, translate_va get_tlb cap put_tlb fault va m =
          Ok e (set_m_hart (put_tlb t (m_hart m)) m)
  | Some Page_fault =>
      forall fault, translate_va get_tlb cap put_tlb fault va m =
        on_hart (raise_exception_with_tvalue fault va) m
  | _ => True
  end.
Proof.
  intros [Hput] Hva Hp Hmiss.
  pose proof (walk_sv32 m (get_tlb (m_hart m)) (cap (m_hart m)) va Hva (paging_mode _ Hp)) as HW.
  cbv zeta in HW. unfold translate_va, bind, gets, modify. rewrite Hmiss.
  destruct (sv32_walk _ _ _) as [[pa size| |]|]; [|destruct HW as (rc & Hrc & ->)|done..].
  - intros r Hpa Hr. destruct (HW r Hpa Hr) as (k & e & Hk & Hs & Hi & ->). cbn [snd].
    exists k, e. do 3 (split; [done|]). rewrite (lookup_installed k va pa r) by done. done.
  - intros fault. cbn [snd]. by rewrite Hmiss, Hput, set_m_hart_same.
Qed.

(** *** What an access may change *)

Create HintDb looks.

(** A program that only looks. *)
Definition looks {A} (m : prog machine A) : Prop :=
  forall s, match m s with Ok _ s' => s' = s | Failed => True | _ => False end.

Lemma looks_ret {A} (a : A) : looks (ret a).
Proof. by intros s. Qed.
Lemma looks_gets {A} (f : machine -> A) : looks (gets f).
Proof. by intros s. Qed.
Lemma looks_ASSERT b : looks (ASSERT b).
Proof. intros s. by destruct b. Qed.
Lemma looks_bind {A B} (m : prog machine A) (k : A -> prog machine B) :
  looks m -> (forall a, looks (k a)) -> looks (bind m k).
Proof.
  intros Hm Hk s. specialize (Hm s). unfold bind. destruct (m s) as [a s'| | |]; try done.
  subst. apply Hk.
Qed.
Lemma looks_find_region pa : looks (find_region pa).
Proof. intros s. unfold find_region. by destruct (search_pm_region_callback _ _). Qed.
Lemma looks_read_pte p : looks (read_pte p).
Proof. intros s. unfold read_pte. by destruct (mem_load _ _ _). Qed.
Lemma looks_pte_at p : looks (pte_at p).
Proof.
  apply looks_bind; [apply looks_find_region|]. intros [r|]; [case_test|]; apply looks_ret.
Qed.
#[local] Hint Resolve looks_ret looks_gets looks_ASSERT looks_bind looks_find_region looks_read_pte looks_pte_at : looks.

Lemma looks_walk va t cap : looks (walk_page_table va t cap).
Proof.
  unfold walk_page_table. apply looks_bind; [auto with looks|]. intros satp.
  apply looks_bind; [auto with looks|]. intros _. cbv zeta.
  apply looks_bind; [auto with looks|]. intros [p1|]; [|auto with looks].
  apply looks_bind; [auto with looks|]. intros w1. case_test; [auto with looks|]. case_test.
  - apply looks_bind; [auto with looks|]. intros [r|]; auto with looks.
  - apply looks_bind; [auto with looks|]. intros [p2|]; [|auto with looks].
    apply looks_bind; [auto with looks|]. intros w2. case_test; auto with looks.
    apply looks_bind; [auto with looks|]. intros [r|]; auto with looks.
Qed.

(** The outcomes of a program that ends in the hart changed as [R] says when it goes
    on, and in a trap that leaves the guest registers and everything outside the
    hart as they were. *)
Definition precise {A} (R : hart -> hart -> Prop) (m : prog machine A) : Prop :=
  forall s, match m s with
    | Ok _ s' | Exited _ s' => R (m_hart s) (m_hart s')
    | Trapped s' => exists h', s' = set_m_hart h' s /\ registers h' = registers (m_hart s)
    | Failed => True
    end.

Definition put_only (put_tlb : tlb -> hart -> hart) (h h' : hart) : Prop :=
  h' = h \/ exists t, h' = put_tlb t h.

Lemma raise_trap_raw_registers {A} t cause tval h :
  all_outcomes (fun h' => registers h' = registers h) (raise_trap_raw (A := A) t cause tval h).
Proof.
  unfold raise_trap_raw. repeat case_test; cbn; try done;
    match goal with |- registers (flush_translation_cache_on_address_space_change ?tag ?x) = _ =>
      destruct (flush_keeps tag x) as (_ & _ & _ & -> & _) end; done.
Qed.

Lemma on_hart_raise {A} n va s :
  match on_hart (raise_exception_with_tvalue (A := A) n va) s with
  | Trapped s' => exists h', s' = set_m_hart h' s /\ registers h' = registers (m_hart s)
  | Failed => True
  | _ => False
  end.
Proof.
  unfold on_hart, zoom, raise_exception_with_tvalue, bind, gets, ASSERT. case_test; [|done].
  unfold ret.
  pose proof (raise_trap_raw_registers (A := A) (exception_target_privilege_level n (m_hart s)) n va (m_hart s)) as HR.
  destruct (exception_target_cases n (m_hart s)) as [Ht|Ht]; cbv zeta in Ht; rewrite Ht in HR |- *;
    rewrite raise_trap_raw_eq in HR |- * by auto; by eexists.
Qed.

Lemma translate_va_precise get_tlb cap put_tlb fault va :
  forall s, match translate_va get_tlb cap put_tlb fault va s with
    | Ok _ s' => exists h', s' = set_m_hart h' s /\ put_only put_tlb (m_hart s) h'
    | Trapped s' => exists h', s' = set_m_hart h' s /\ exists t, registers h' = registers (put_tlb t (m_hart s))
    | Exited _ _ => False
    | Failed => True
    end.
Proof.
  intros s. unfold translate_va, bind, gets, modify.
  destruct (VA_TO_TLB_ENTRY _ _ _).
  { exists (m_hart s). rewrite set_m_hart_same. split; [done|by left]. }
  pose proof (looks_walk va (get_tlb (m_hart s)) (cap (m_hart s)) s) as HL.
  destruct (walk_page_table _ _ _ _) as [[rc t] s'| | |]; try done. subst s'. cbn [snd].
  destruct (VA_TO_TLB_ENTRY _ _ _).
  - eexists. split; [done|]. right. by eexists.
  - pose proof (on_hart_raise (A := tlb_entry) fault va (set_m_hart (put_tlb t (m_hart s)) s)) as HR.
    destruct (on_hart _ _); try done. destruct HR as (h' & -> & Hr). exists h'. split; [done|]. by exists t.
Qed.

Definition dtlb_changed : hart -> hart -> Prop := put_only set_dtlb.
Definition itlb_changed : hart -> hart -> Prop := put_only set_itlb.

Lemma precise_weaken {A} (P Q : hart -> hart -> Prop) (m : prog machine A) :
  (forall h h', P h h' -> Q h h') -> precise P m -> precise Q m.
Proof. intros HPQ Hm s. specialize (Hm s). destruct (m s); auto. Qed.

Lemma precise_translated {A} get_tlb cap put_tlb fault va (k : tlb_entry -> prog machine A) :
  (forall t h, registers (put_tlb t h) = registers h) ->
  (forall e h, preserves (same_hart h) (k e)) -> (forall e s, ~ traps (k e s)) ->
  precise (put_only put_tlb) (bind (translate_va get_tlb cap put_tlb fault va) k).
Proof.
  intros Hreg Hk Hnt s. pose proof (translate_va_precise get_tlb cap put_tlb fault va s) as HT.
  unfold bind. destruct (translate_va _ _ _ _ _ s) as [e s'|s'| |]; try done.
  - destruct HT as (h' & -> & Hp). specialize (Hk e h' (set_m_hart h' s) eq_refl).
    specialize (Hnt e (set_m_hart h' s)).
    destruct (k e _) as [x y|y|x y|]; cbn in Hk, Hnt; [by rewrite Hk|tauto|by rewrite Hk|done].
  - destruct HT as (h' & -> & t & Hr). exists h'. by rewrite Hr, Hreg.
Qed.

Lemma precise_quiet {A} (m : prog machine A) (R : hart -> hart -> Prop) :
  (forall h, R h h) -> (forall h, preserves (same_hart h) m) -> (forall s, ~ traps (m s)) -> precise R m.
Proof.
  intros HR Hk Hnt s. specialize (Hk (m_hart s) s eq_refl). specialize (Hnt s).
  destruct (m s) as [x y|y|x y|]; cbn in Hk, Hnt; [by rewrite Hk|tauto|by rewrite Hk|done].
Qed.

Lemma direct_read_no_trap n a s : ~ traps (direct_read n a s).
Proof.
  unfold direct_read, bind, find_region.
  destruct (search_pm_region_callback _ _) as [[r|]|]; cbn; try tauto.
  pose proof (pmr_read_no_trap r a n s). by destruct (pmr_read _ _ _ _).
Qed.
Lemma direct_write_no_trap n a v s : ~ traps (direct_write n a v s).
Proof.
  unfold direct_write, bind, find_region.
  destruct (search_pm_region_callback _ _) as [[r|]|]; cbn; try tauto. apply pmr_write_no_trap.
Qed.

(** The two accesses through an entry. *)
Lemma entry_read_quiet n va e h :
  preserves (same_hart h)
    (let* r := of_opt (pmr e) in let* v := pmr_read r (entry_address e va) n in ret (truncate n v)).
Proof.
  apply preserves_bind; [apply preserves_of_opt|]. intros r.
  apply preserves_bind; [apply pmr_read_hart|]. intros v. apply preserves_ret.
Qed.
Lemma entry_read_no_trap (f : Z -> Z) n va e s :
  ~ traps ((let* r := of_opt (pmr e) in let* v := pmr_read r (entry_address e va) n in ret (f v)) s).
Proof.
  unfold bind. destruct (pmr e) as [r|]; cbn; [|tauto].
  pose proof (pmr_read_no_trap r (entry_address e va) n s). by destruct (pmr_read _ _ _ _).
Qed.
Lemma entry_write_quiet n va v e h :
  preserves (same_hart h) (let* r := of_opt (pmr e) in pmr_write r (entry_address e va) n v).
Proof. apply preserves_bind; [apply preserves_of_opt|]. intros r. apply pmr_write_hart. Qed.
Lemma entry_write_no_trap n va v e s :
  ~ traps ((let* r := of_opt (pmr e) in pmr_write r (entry_address e va) n v) s).
Proof. unfold bind. destruct (pmr e); cbn; [apply pmr_write_no_trap|tauto]. Qed.

Lemma put_only_refl put h : put_only put h h.
Proof. by left. Qed.

Lemma vmread_precise n va : precise dtlb_changed (vmread n va).
Proof.
  intros s. unfold vmread, bind at 1, gets. case_test.
  - exact (precise_translated dtlb dtlb_cap set_dtlb _ va _ (fun _ _ => eq_refl)
      (entry_read_quiet n va) (entry_read_no_trap (truncate n) n va) s).
  - exact (precise_quiet _ _ (put_only_refl set_dtlb) (direct_read_hart n va) (direct_read_no_trap n va) s).
Qed.

Lemma vmwrite_precise n va v : precise dtlb_changed (vmwrite n va v).
Proof.
  intros s. unfold vmwrite, bind at 1, gets. case_test.
  - exact (precise_translated dtlb dtlb_cap set_dtlb _ va _ (fun _ _ => eq_refl)
      (entry_write_quiet n va v) (entry_write_no_trap n va v) s).
  - exact (precise_quiet _ _ (put_only_refl set_dtlb) (direct_write_hart n va v) (direct_write_no_trap n va v) s).
Qed.

Lemma fetch_precise va : precise itlb_changed (mmu_instruction_read32 va).
Proof.
  intros s. unfold mmu_instruction_read32, bind at 1, gets. case_test.
  - exact (precise_translated itlb itlb_cap set_itlb _ va _ (fun _ _ => eq_refl)
      (entry_read_quiet 4 va) (entry_read_no_trap u32 4 va) s).
  - exact (precise_quiet _ _ (put_only_refl set_itlb) (direct_read_hart 4 va) (direct_read_no_trap 4 va) s).
Qed.

Lemma precise_guard {A} (b : bool) n va R (m : prog machine A) :
  precise R m ->
  precise R ((if b then on_hart (raise_exception_with_tvalue n va) else ret tt) ;;; m).
Proof.
  intros Hm s. unfold bind. destruct b; [|apply Hm].
  pose proof (on_hart_raise (A := unit) n va s). by destruct (on_hart _ _).
Qed.

Lemma vmread_paged n va m :
  paging (m_hart m) = true ->
  vmread n va m =
  (let* e := translate_va dtlb dtlb_cap set_dtlb EXCEPTION_LOAD_PAGE_FAULT va in
   let* r := of_opt (pmr e) in
   let* v := pmr_read r (entry_address e va) n in ret (truncate n v)) m.
Proof. intros Hp. unfold vmread, bind at 1, gets. by rewrite Hp. Qed.

Lemma vmwrite_paged n va v m :
  paging (m_hart m) = true ->
  vmwrite n va v m =
  (let* e := translate_va dtlb dtlb_cap set_dtlb EXCEPTION_STORE_PAGE_FAULT va in
   let* r := of_opt (pmr e) in pmr_write r (entry_address e va) n v) m.
Proof. intros Hp. unfold vmwrite, bind at 1, gets. by rewrite Hp. Qed.

Lemma fetch_paged va m :
  paging (m_hart m) = true ->
  mmu_instruction_read32 va m =
  (let* e := translate_va itlb itlb_cap set_itlb EXCEPTION_INSTRUCTION_PAGE_FAULT va in
   let* r := of_opt (pmr e) in
   let* v := pmr_read r (entry_address e va) 4 in ret (u32 v)) m.
Proof. intros Hp. unfold mmu_instruction_read32, bind at 1, gets. by rewrite Hp. Qed.

(** A raise has no value, so nothing follows it. *)
Lemma raise_then {A B} n va (k : A -> prog machine B) m :
  (let* x := on_hart (raise_exception_with_tvalue n va) in k x) m =
  on_hart (raise_exception_with_tvalue n va) m.
Proof.
  unfold bind, on_hart, zoom, raise_exception_with_tvalue, bind, gets, ASSERT.
  case_test; [|done]. unfold ret, raise_trap_raw. by repeat case_test.
Qed.

(** Where an access of [va] goes without a walk: the region and the address in it. *)
Definition resolve (m : machine) (va : Z) : option (pm_region_operation * Z) :=
  if paging (m_hart m) then
    e ← VA_TO_TLB_ENTRY (dtlb (m_hart m)) (dtlb_cap (m_hart m)) va;
    r ← pmr e; Some (r, entry_address e va)
  else
    r ← search_pm_region_callback (pmr_ops m) va; r ← r; Some (r, va).

Lemma vmread_resolved n va m r pa :
  resolve m va = Some (r, pa) ->
  vmread n va m = (let* x := pmr_read r pa n in ret (truncate n x)) m.
Proof.
  unfold resolve, vmread, translate_va, direct_read, find_region, bind, gets. case_test.
  - destruct (VA_TO_TLB_ENTRY _ _ _) as [e|]; cbn; [|done]. destruct (pmr e) as [r'|]; cbn; [|done].
    by intros [= <- <-].
  - destruct (search_pm_region_callback _ _) as [[r'|]|]; cbn; [|done..]. by intros [= <- <-].
Qed.

Lemma pmr_write_frame r a n v : forall m, match pmr_write r a n v m with
  | Ok _ m' => m_hart m' = m_hart m /\ pmr_ops m' = pmr_ops m
  | _ => True end.
Proof.
  intros m. unfold pmr_write. destruct (pmr_callbacks r); cbn; try done.
  - unfold ram_write. case_test; [done|]. by destruct (mem_store _ _ _ _).
  - unfold bootrom_write. repeat case_test; [done..|]. by destruct (mem_store _ _ _ _).
  - by destruct (uart_mmio_write a n v (uart m) (plic m)) as [[[]]|].
  - unfold syscon_write. by repeat case_test.
Qed.

(** Two machines that resolve addresses alike. *)
Lemma resolve_frame m m' va :
  m_hart m' = m_hart m -> pmr_ops m' = pmr_ops m -> resolve m' va = resolve m va.
Proof. unfold resolve. by intros -> ->. Qed.

(** After a data translation the address hits, and paging is still on. *)
Lemma translate_va_lands fault va m e m0 :
  paging (m_hart m) = true ->
  translate_va dtlb dtlb_cap set_dtlb fault va m = Ok e m0 ->
  VA_TO_TLB_ENTRY (dtlb (m_hart m0)) (dtlb_cap (m_hart m0)) va = Some e /\ paging (m_hart m0) = true.
Proof.
  intros E ET. unfold translate_va, bind, gets, modify in ET.
  destruct (VA_TO_TLB_ENTRY (dtlb (m_hart m)) _ _) eqn:EL; [by injection ET as <- <-|].
  pose proof (looks_walk va (dtlb (m_hart m)) (dtlb_cap (m_hart m)) m) as HL.
  destruct (walk_page_table _ _ _ _) as [[rc t] s'| | |]; try done. subst s'. cbn [snd] in ET.
  destruct (VA_TO_TLB_ENTRY t _ _) eqn:EL'; [by injection ET as <- <-|].
  pose proof (on_hart_raise (A := tlb_entry) fault va (set_m_hart (set_dtlb t (m_hart m)) m)) as HR.
  by rewrite ET in HR.
Qed.

(** A store that goes through goes where the address then resolves. *)
Lemma vmwrite_resolved n va v m m' :
  vmwrite n va v m = Ok tt m' ->
  exists r pa m0, resolve m' va = Some (r, pa) /\ pmr_write r pa n v m0 = Ok tt m'.
Proof.
  unfold vmwrite, bind at 1, gets. case_test.
  - unfold bind at 1. destruct (translate_va _ _ _ _ _ _) as [e m0|m0|c m0|] eqn:ET; [|done..].
    intros HW.
    destruct (translate_va_lands _ _ _ _ _ E ET) as [HL Hp]. unfold bind in HW. destruct (pmr e) as [r|] eqn:EP; [|done].
    cbn in HW. exists r, (entry_address e va), m0. split; [|done].
    pose proof (pmr_write_frame r (entry_address e va) n v m0) as HF. rewrite HW in HF.
    destruct HF as [Hh Ho]. rewrite (resolve_frame m0) by done.
    unfold resolve. by rewrite Hp, HL; cbn; rewrite EP.
  - unfold direct_write, bind, find_region.
    destruct (search_pm_region_callback _ _) as [[r|]|] eqn:ES; cbn; [|done..]. intros HW.
    exists r, va, m. split; [|done].
    pose proof (pmr_write_frame r va n v m) as HF. rewrite HW in HF. destruct HF as [Hh Ho].
    rewrite (resolve_frame m) by done. unfold resolve. rewrite E, ES. done.
Qed.

Lemma vmwrite_hits n va v m r pa :
  resolve m va = Some (r, pa) -> vmwrite n va v m = pmr_write r pa n v m.
Proof.
  unfold resolve, vmwrite, translate_va, direct_write, find_region, bind, gets. case_test.
  - destruct (VA_TO_TLB_ENTRY _ _ _) as [e|]; cbn; [|done]. destruct (pmr e) as [r'|]; cbn; [|done].
    by intros [= <- <-].
  - destruct (search_pm_region_callback _ _) as [[r'|]|]; cbn; [|done..]. by intros [= <- <-].
Qed.

Lemma pmr_read_frame r a n : forall m, match pmr_read r a n m with
  | Ok _ m' => m_hart m' = m_hart m /\ pmr_ops m' = pmr_ops m /\
      (pmr_callbacks r = ram_region -> m' = m)
  | _ => True end.
Proof.
  intros m. unfold pmr_read. destruct (pmr_callbacks r) eqn:ER; cbn; try done.
  - unfold ram_read. case_test; [done|]. by destruct (mem_load _ _ _).
  - unfold bootrom_read. repeat case_test; [done..|]. by destruct (mem_load _ _ _).
  - by destruct (plic_mmio_read a n (plic m)).
  - by destruct (uart_mmio_read a n (uart m) (plic m)) as [[[]]|].
Qed.

(** A load that goes through came from where the address then resolves. *)
Lemma vmread_lands n va m v m' :
  vmread n va m = Ok v m' ->
  exists r pa m0 x, resolve m' va = Some (r, pa) /\ pmr_read r pa n m0 = Ok x m' /\ v = truncate n x.
Proof.
  unfold vmread, bind at 1, gets. case_test.
  - unfold bind at 1. destruct (translate_va _ _ _ _ _ _) as [e m0|m0|c m0|] eqn:ET; [|done..].
    intros HR.
    destruct (translate_va_lands _ _ _ _ _ E ET) as [HL Hp].
    unfold bind in HR. destruct (pmr e) as [r|] eqn:EP; [|done]. cbn in HR.
    pose proof (pmr_read_frame r (entry_address e va) n m0) as HF.
    destruct (pmr_read _ _ _ _) as [x m1| | |] eqn:EX; [|done..]. injection HR as <- <-.
    destruct HF as (Hh & Ho & _). exists r, (entry_address e va), m0, x. split; [|done].
    rewrite (resolve_frame m0) by done. unfold resolve. by rewrite Hp, HL; cbn; rewrite EP.
  - unfold direct_read, bind, find_region.
    destruct (search_pm_region_callback _ _) as [[r|]|] eqn:ES; cbn; [|done..].
    pose proof (pmr_read_frame r va n m) as HF.
    destruct (pmr_read _ _ _ _) as [x m1| | |] eqn:EX; [|done..]. intros [= <- <-].
    destruct HF as (Hh & Ho & _). exists r, va, m, x. split; [|done].
    rewrite (resolve_frame m) by done. unfold resolve. rewrite E, ES. done.
Qed.

Lemma ram_write_read n a v r m m' :
  ram_write a n v r m = Ok tt m' -> ram_read a n r m' = Ok (v mod 2 ^ (8 * n)) m'.
Proof.
  unfold ram_write, ram_read. case_test; [done|].
  destruct (mem_store _ _ _ _) as [mem|] eqn:EM; [|done]. intros [= <-].
  unfold legal_size in E. to_prop.
  destruct (mem_store_load (a - addr_low r) n v (ram m) mem ltac:(lia) EM) as [HL _].
  cbn [ram set_ram]. by rewrite HL.
Qed.

Lemma tlb_index_aliases k va :
  0 <= k <= 20 ->
  VA_TO_4K_TLB_ENTRY (2 ^ k) (u32 (va + 2 ^ k * 2 ^ 12)) = VA_TO_4K_TLB_ENTRY (2 ^ k) va.
Proof.
  intros Hk. unfold VA_TO_4K_TLB_ENTRY. rewrite u32_u32.
  assert (EM : u32 (2 ^ k - 1) = Z.ones k).
  { rewrite Z.ones_equiv. unfold u32. rewrite Z.mod_small; [lia|].
    pose proof (Z.pow_le_mono_r 2 k 20 ltac:(lia) ltac:(lia)).
    pose proof (Z.pow_pos_nonneg 2 k ltac:(lia) ltac:(lia)).
    change (2 ^ 20) with 1048576 in *. change (2 ^ 32) with 4294967296. lia. }
  assert (ES : forall x, Z.land (Z.shiftr (u32 x) PAGE_SHIFT_4K) (Z.ones k) = x / 2 ^ 12 mod 2 ^ k).
  { intros x. rewrite <- (field_mod x 12 k) by lia. unfold PAGE_SHIFT_4K.
    apply Z.bits_inj'. intros i Hi. rewrite !Z.land_spec, !Z.shiftr_spec, testbit_u32, Z.testbit_ones by lia.
    destruct (Z.ltb_spec i k); [|by rewrite !andb_false_r]. by destruct (Z.ltb_spec (i + 12) 32); [|lia]. }
  rewrite EM, !ES, Z.div_add by lia. rewrite <- (Z.mul_1_l (2 ^ k)) at 1.
  by rewrite Z.mod_add by (apply Z.pow_nonzero; lia).
Qed.

Lemma translate_va_ok get_tlb cap put_tlb fault va m e m0 :
  translate_va get_tlb cap put_tlb fault va m = Ok e m0 ->
  exists h', m0 = set_m_hart h' m /\ put_only put_tlb (m_hart m) h'.
Proof.
  intros E. pose proof (translate_va_precise get_tlb cap put_tlb fault va m) as HT. by rewrite E in HT.
Qed.

Lemma pmr_read_devices r a n m x m' :
  pmr_read r a n m = Ok x m' -> exists p u, m' = set_plic p (set_uart u m).
Proof.
  assert (Hsame : exists p u, m = set_plic p (set_uart u m)).
  { exists (plic m), (uart m). by destruct m. }
  unfold pmr_read. destruct (pmr_callbacks r); cbn; try (by intros [= <- <-]).
  - unfold ram_read. case_test; [done|]. destruct (mem_load _ _ _); [|done]. by intros [= <- <-].
  - unfold bootrom_read. repeat case_test; [by intros [= <- <-]|done|].
    destruct (mem_load _ _ _); [|done]. by intros [= <- <-].
  - destruct (plic_mmio_read a n (plic m)). intros [= <- <-]. by eexists _, (uart m).
  - destruct (uart_mmio_read a n (uart m) (plic m)) as [[[v u] p]|]; [|done].
    intros [= <- <-]. by eexists _, _.
Qed.

(** A fetch changes at most the instruction TLB and the device it reads a register of. *)
Lemma fetch_frame a m i m1 :
  mmu_instruction_read32 a m = Ok i m1 ->
  is_uint 32 i /\ itlb_changed (m_hart m) (m_hart m1) /\
  exists p u, m1 = set_m_hart (m_hart m1) (set_plic p (set_uart u m)).
Proof.
  intros E. pose proof (fetch_precise a m) as HP. rewrite E in HP.
  assert (is_uint 32 i /\ exists p u, m1 = set_m_hart (m_hart m1) (set_plic p (set_uart u m))) as [Hi Hm]; [|done].
  revert E. unfold mmu_instruction_read32, bind at 1, gets. case_test.
  - unfold bind. destruct (translate_va _ _ _ _ _ _) as [e m0| | |] eqn:ET; [|done..].
    apply translate_va_ok in ET as (h' & -> & _). destruct (pmr e) as [r|]; [|done]. cbn.
    destruct (pmr_read _ _ _ _) as [x m2| | |] eqn:EX; [|done..]. intros [= <- <-].
    apply pmr_read_devices in EX as (p & u & ->). split; [apply u32_range|by exists p, u].
  - unfold direct_read, bind, find_region.
    destruct (search_pm_region_callback _ _) as [[r|]|]; cbn; [|done..].
    destruct (pmr_read _ _ _ _) as [x m2| | |] eqn:EX; [|done..]. intros [= <- <-].
    apply pmr_read_devices in EX as (p & u & ->). split; [apply (u32_range x)|by exists p, u].
Qed.

Lemma pmr_read_keeps_table r a n m x m' :
  pmr_read r a n m = Ok x m' -> reservations m' = reservations m /\ next_pointer m' = next_pointer m.
Proof.
  unfold pmr_read. destruct (pmr_callbacks r); cbn; try (by intros [= <- <-]).
  - unfold ram_read. case_test; [done|]. destruct (mem_load _ _ _); [|done]. by intros [= <- <-].
  - unfold bootrom_read. repeat case_test; [by intros [= <- <-]|done|].
    destruct (mem_load _ _ _); [|done]. by intros [= <- <-].
  - destruct (plic_mmio_read a n (plic m)). by intros [= <- <-].
  - destruct (uart_mmio_read a n (uart m) (plic m)) as [[[]]|]; [|done]. by intros [= <- <-].
Qed.

(** A load leaves the reservations alone. *)
Lemma vmread_keeps_table n va m v m' :
  vmread n va m = Ok v m' ->
  reservations m' = reservations m /\ next_pointer m' = next_pointer m /\
  hart_id (m_hart m') = hart_id (m_hart m).
Proof.
  intros E. assert (Hh : hart_id (m_hart m') = hart_id (m_hart m)).
  { pose proof (vmread_precise n va m) as HP. rewrite E in HP. by destruct HP as [->|[t ->]]. }
  revert E. unfold vmread, bind at 1, gets. case_test.
  - unfold bind. destruct (translate_va _ _ _ _ _ _) as [e m0| | |] eqn:ET; [|done..].
    apply translate_va_ok in ET as (h' & -> & _). destruct (pmr e) as [r|]; [|done]. cbn.
    destruct (pmr_read _ _ _ _) as [x m1| | |] eqn:EX; [|done..]. intros [= <- <-].
    by apply pmr_read_keeps_table in EX as [-> ->].
  - unfold direct_read, bind, find_region.
    destruct (search_pm_region_callback _ _) as [[r|]|]; cbn; [|done..].
    destruct (pmr_read _ _ _ _) as [x m1| | |] eqn:EX; [|done..]. intros [= <- <-].
    by apply pmr_read_keeps_table in EX as [-> ->].
Qed.

(** ** Properties *)

(** C12. Precise accesses. Whatever a guest load, store or fetch meets, it changes
    nothing of the hart but the TLB it uses when it goes on; when it takes a trap,
    the guest registers, the memory and the devices are as before the access. *)
Theorem mmu_accesses_precise n va v :
  precise dtlb_changed (vmread n va) /\ precise dtlb_changed (vmwrite n va v) /\
  precise dtlb_changed (mmu_read32_aligned va) /\ precise dtlb_changed (mmu_write32_aligned va v) /\
  precise itlb_changed (mmu_instruction_read32 va).
Proof.
  split; [apply vmread_precise|]. split; [apply vmwrite_precise|].
  split; [apply precise_guard, vmread_precise|]. split; [apply precise_guard, vmwrite_precise|].
  apply fetch_precise.
Qed.

(** C6. Address translation. With paging in effect and no cached translation, a
    guest load, store or fetch of an address that the sv32 page tables map to
    physical address [pa] is the access of the region that holds the page at [pa],
    with the translation cached; of an address whose page table entry is not valid
    it is the page fault of that access with the address as trap value, and nothing
    else. *)
Theorem mmu_implements_sv32 n va v m :
  let h := m_hart m in
  is_uint 32 va -> paging h = true ->
  VA_TO_TLB_ENTRY (dtlb h) (dtlb_cap h) va = None -> VA_TO_TLB_ENTRY (itlb h) (itlb_cap h) va = None ->
  match sv32_walk (ram_word m) (blob h CSR_ADDRESS_SATP) va with
  | Some (Page pa size) => forall r, is_uint 32 pa ->
      search_pm_region_callback (pmr_ops m) (pa - va mod size) = Some (Some r) ->
      exists dt it, let md := set_m_hart (set_dtlb dt h) m in let mi := set_m_hart (set_itlb it h) m in
        VA_TO_TLB_ENTRY dt (dtlb_cap h) va <> None /\ VA_TO_TLB_ENTRY it (itlb_cap h) va <> None /\
        vmread n va m = (let* x := pmr_read r pa n in ret (truncate n x)) md /\
        vmwrite n va v m = pmr_write r pa n v md /\
        mmu_instruction_read32 va m = (let* x := pmr_read r pa 4 in ret (u32 x)) mi
  | Some Page_fault =>
      vmread n va m = on_hart (raise_exception_with_tvalue EXCEPTION_LOAD_PAGE_FAULT va) m /\
      vmwrite n va v m = on_hart (raise_exception_with_tvalue EXCEPTION_STORE_PAGE_FAULT va) m /\
      mmu_instruction_read32 va m =
        on_hart (raise_exception_with_tvalue EXCEPTION_INSTRUCTION_PAGE_FAULT va) m
  | _ => True
  end.
Proof.
  intros h Hva Hp Hd Hi.
  pose proof (translate_va_sv32 dtlb dtlb_cap set_dtlb va m dtlb_selection Hva Hp Hd) as HD.
  pose proof (translate_va_sv32 itlb itlb_cap set_itlb va m itlb_selection Hva Hp Hi) as HI.
  fold h in HD, HI.
  rewrite (vmread_paged n va m Hp), (vmwrite_paged n va v m Hp), (fetch_paged va m Hp).
  destruct (sv32_walk _ _ _) as [[pa size| |]|]; [| |done..].
  - intros r Hpa Hr.
    destruct (HD r Hpa Hr) as (k & e & Hk & Hs & He & HLd & Er).
    destruct (HI r Hpa Hr) as (k' & e' & Hk' & Hs' & He' & HLi & Ef).
    eexists _, _. cbv zeta. rewrite HLd, HLi. do 2 (split; [done|]).
    unfold bind. rewrite !Er, Ef, (inst_pmr _ _ _ _ _ He), (inst_pmr _ _ _ _ _ He').
    by rewrite (installed_address k va pa r e), (installed_address k' va pa r e').
  - repeat split; match goal with |- bind ?t ?k m = _ => change (bind t k m) with
      (match t m with Ok a s => k a s | Trapped s => Trapped s | Exited c s => Exited c s | Failed => Failed end) end;
      rewrite ?HD, ?HI; apply (raise_then (A := tlb_entry)).
Qed.

(** C25. Stores are read back. When a guest store goes through and its address
    resolves to main memory, a load of the same size at that address returns the
    value stored, cut to the size, and changes nothing: paged or not, TLB hit or
    miss. *)
Theorem mmu_store_load n va v m m' r pa :
  vmwrite n va v m = Ok tt m' -> resolve m' va = Some (r, pa) -> pmr_callbacks r = ram_region ->
  vmread n va m' = Ok (v mod 2 ^ (8 * n)) m'.
Proof.
  intros HW HR Hram. rewrite (vmread_resolved n va m' r pa HR).
  destruct (vmwrite_resolved n va v m m' HW) as (r' & pa' & m0 & HR' & Hp).
  rewrite HR in HR'. injection HR' as <- <-. unfold pmr_write in Hp. rewrite Hram in Hp.
  apply ram_write_read in Hp. unfold bind, pmr_read. rewrite Hram, Hp. unfold ret, truncate.
  assert (0 < 2 ^ (8 * n)) by (unfold ram_read in Hp; revert Hp; case_test; [done|];
    intros _; unfold legal_size in E; to_prop; apply Z.pow_pos_nonneg; lia).
  by rewrite Z.mod_mod by lia.
Qed.

(** C37. The TLB compares no tags. After a load through a 4 KiB page, a load of the
    address one TLB reach (2^k pages for a TLB of 2^k entries) further on goes to
    the first page too and returns what a second load there returns, whatever the
    page tables say about that address: even when they leave it unmapped. *)
Theorem tlb_aliases k n va m m' pa r x :
  0 <= k < 20 -> dtlb_cap (m_hart m) = 2 ^ k -> is_uint 32 va -> paging (m_hart m) = true ->
  VA_TO_TLB_ENTRY (dtlb (m_hart m)) (dtlb_cap (m_hart m)) va = None ->
  sv32_walk (ram_word m) (blob (m_hart m) CSR_ADDRESS_SATP) va = Some (Page pa (2 ^ 12)) ->
  is_uint 32 pa -> search_pm_region_callback (pmr_ops m) (pa - va mod 2 ^ 12) = Some (Some r) ->
  vmread n va m = Ok x m' ->
  vmread n (u32 (va + 2 ^ k * 2 ^ 12)) m' = vmread n va m'.
Proof.
  intros Hk Hcap Hva Hp Hmiss HW Hpa Hr HV.
  pose proof (translate_va_sv32 dtlb dtlb_cap set_dtlb va m dtlb_selection Hva Hp Hmiss) as HT.
  rewrite HW in HT. destruct (HT r Hpa Hr) as (k' & e & Hk' & Hs & He & _ & ET). rewrite Hcap in ET. clear HT.
  assert (k' = 12) as -> by (destruct Hk' as [|E]; [done|rewrite E in Hs; by vm_compute in Hs]).
  rewrite (vmread_paged n va m Hp) in HV. unfold bind in HV. rewrite ET, (inst_pmr _ _ _ _ _ He) in HV.
  cbn in HV.
  match type of HV with match pmr_read r ?a n ?m0 with _ => _ end = _ =>
    pose proof (pmr_read_hart r a n (m_hart m0) m0 eq_refl) as HH;
    destruct (pmr_read r a n m0) as [y m1| | |]; [|done..] end.
  injection HV as <- <-. unfold same_hart in HH. cbn in HH.
  assert (HL : forall a, VA_TO_4K_TLB_ENTRY (2 ^ k) a = VA_TO_4K_TLB_ENTRY (2 ^ k) va ->
    resolve m1 a = Some (r, entry_address e a)).
  { intros a Ha. unfold resolve. rewrite HH. unfold paging in *. cbn in Hp |- *.
    unfold blob, csr_at in *. cbn in Hp |- *. rewrite Hp, ?Hcap.
    unfold VA_TO_TLB_ENTRY. cbv zeta. rewrite Ha. unfold tlb_slot, tlb_at. cbn [Z.eqb Pos.eqb].
    rewrite lookup_insert_eq. cbn. rewrite (inst_valid _ _ _ _ _ He). cbn.
    rewrite (inst_valid _ _ _ _ _ He). cbn. by rewrite (inst_pmr _ _ _ _ _ He). }
  rewrite (vmread_resolved n va m1 _ _ (HL va eq_refl)).
  rewrite (vmread_resolved n _ m1 _ _ (HL _ (tlb_index_aliases k va ltac:(lia)))).
  rewrite !(entry_address_page 12 e) by
    (done || lia || apply u32_range || apply (inst_mask _ _ _ _ _ He) || apply (inst_aligned _ _ _ _ _ He)).
  assert (u32 (va + 2 ^ k * 2 ^ 12) mod 2 ^ 12 = va mod 2 ^ 12) as ->; [|done].
  unfold u32. change (2 ^ 32) with (2 ^ 12 * 2 ^ 20). rewrite Z.rem_mul_r by lia.
  by rewrite (Z.mul_comm (2 ^ 12) (_ mod _)), Z.mod_add, Z.mod_mod, Z.mod_add by lia.
Qed.
End Walk.

Module Witness.
Import Concrete Board.

(** Supervisor level with paging on: the root table at 0x80000000 maps the first
    4 MiB through the table at 0x80001000, whose first entry is the page at
    0x80002000; nothing else is mapped. The page's second word holds 77. *)
Definition paged_hart : hart :=
  put_csr_blob CSR_ADDRESS_SATP 0x80080000
    (set_privilege_level PRIVILEGE_LEVEL_SUPERVISOR (empty_hart 0x1000)).

Definition tables : list (Z * Z) := [(0, 0x20000401); (0x1000, 0x2000080f); (0x2004, 77)].
Definition paged : machine := board paged_hart tables.
(** After a load of address 4. *)
Definition paged' : machine := default paged (final (vmread 4 4 paged)).

Lemma mmu_implements_sv32_witness :
  sv32_walk (ram_word paged) 0x80080000 4 = Some (Page 0x80002004 (2 ^ 12)) /\
  exists dt it, let md := set_m_hart (set_dtlb dt paged_hart) paged in
    let mi := set_m_hart (set_itlb it paged_hart) paged in
    VA_TO_TLB_ENTRY dt 0x4000 4 <> None /\ VA_TO_TLB_ENTRY it 0x4000 4 <> None /\
    vmread 4 4 paged = (let* x := pmr_read ram_pmr 0x80002004 4 in ret (truncate 4 x)) md /\
    vmwrite 4 4 5 paged = pmr_write ram_pmr 0x80002004 4 5 md /\
    mmu_instruction_read32 4 paged = (let* x := pmr_read ram_pmr 0x80002004 4 in ret (u32 x)) mi.
Proof.
  pose proof (mmu_implements_sv32 4 4 5 paged) as HT. cbv zeta in HT.
  split; [by vm_compute|].
  assert (HW : sv32_walk (ram_word paged) (blob (m_hart paged) CSR_ADDRESS_SATP) 4 =
    Some (Page 0x80002004 (2 ^ 12))) by by vm_compute.
  rewrite HW in HT. apply HT; by vm_compute.
Defined.

Lemma mmu_store_load_witness :
  exists m', vmwrite 4 8 99 paged = Ok tt m' /\ vmread 4 8 m' = Ok 99 m'.
Proof.
  eexists. split; [reflexivity|].
  match goal with |- vmread 4 8 ?m = _ =>
    exact (mmu_store_load 4 8 99 paged m ram_pmr 0x80002008 eq_refl ltac:(by vm_compute) eq_refl) end.
Defined.

(** The unmapped address 64 MiB on reads the page of address 4. *)
Lemma tlb_aliases_witness :
  sv32_walk (ram_word paged') 0x80080000 0x04000004 = Some Page_fault /\
  vmread 4 0x04000004 paged' = vmread 4 4 paged'.
Proof.
  split; [by vm_compute|].
  apply (tlb_aliases 14 4 4 paged paged' 0x80002004 ram_pmr 77); try lia; by vm_compute.
Defined.
End Witness.
