(* ===== verification/Console.v ===== *)
(** * The firmware's console

    Models src/bootrom/uart.c and src/bootrom/printk.c, guest code that runs at
    machine level: each access to a device register is the load or store of Mmu.v on
    the machine, so the proofs go through the memory map down to the uart of Uart.v.
    The arguments of a variadic call are a list; an argument of the wrong kind, a
    missing one, and a format that ends in the middle of a directive have no defined
    result ([Failed]). The busy loop on the transmitter runs on fuel; it never needs a
    second round on this machine.

    Proved here: [printk] writes to the host's terminal exactly what its format
    says, the numbers as numerals of the right value without leading zeros, and
    touches nothing else of the machine but the uart's interrupt line. *)

From S2P Require Import Prelude SortSearch Monad PmRegion X86 Hart Trap Clint Plic Uart Machine Mmu.
Local Open Scope Z_scope.

Definition UART16550_BASE : Z := 0x10000000.
Definition UART_REG_DLL : Z := 0.
Definition UART_REG_DLM : Z := 1.
Definition UART_REG_STATUS_RX : Z := 0x01.
Definition UART_REG_STATUS_TX : Z := 0x20.

(** ** The driver *)

Section Driver.
Context `{Assembler}.

Definition uart_store (reg v : Z) : prog machine unit := vmwrite 1 (UART16550_BASE + reg) v.
Definition uart_load (reg : Z) : prog machine Z := vmread 1 (UART16550_BASE + reg).

(** src/bootrom/uart.c:12-24 uart16550_init *)
Definition uart16550_init : prog machine unit :=
  uart_store UART_REG_IER 0x00 ;;;
  uart_store UART_REG_LCR 0x80 ;;;
  uart_store UART_REG_DLL 0x03 ;;;
  uart_store UART_REG_DLM 0x00 ;;;
  uart_store UART_REG_LCR 0x03 ;;;
  uart_store UART_REG_FCR 0xc7.

(** The busy loop: [false] when the fuel ran out with the transmitter still busy.
    src/bootrom/uart.c:29-29 uart16550_putchar *)
Fixpoint wait_transmitter (fuel : nat) : prog machine bool :=
  match fuel with
  | O => ret false
  | S fuel =>
      let* lsr := uart_load UART_REG_LSR in
      if Z.land lsr UART_REG_STATUS_TX =? 0 then wait_transmitter fuel else ret true
  end.

Definition TX_POLLS : nat := 16.

(** src/bootrom/uart.c:26-31 uart16550_putchar *)
Definition uart16550_putchar (ch : Z) : prog machine unit :=
  let* ready := wait_transmitter TX_POLLS in
  if ready then uart_store UART_REG_QUEUE ch else failed.

(** src/bootrom/uart.c:33-39 uart16550_getchar *)
Definition uart16550_getchar : prog machine Z :=
  let* lsr := uart_load UART_REG_LSR in
  if truthy (Z.land lsr UART_REG_STATUS_RX) then uart_load UART_REG_QUEUE else ret (-1).

(** ** Formatted output *)

(** src/bootrom/printk.c:12-16 uart_put_char *)
Definition uart_put_char (value : Z) : prog machine unit := uart16550_putchar (u8 value).

Definition DEFAULT_RESOLVE_STACK : nat := 128.

(** The digit stack, its top first.
    src/bootrom/printk.c:28-32 resolve_int32 *)
Fixpoint push_decimal (room : nat) (qword : Z) (stack : list Z) : list Z :=
  match room with
  | O => stack
  | S room =>
      if truthy qword then push_decimal room (qword / 10) (0x30 + qword mod 10 :: stack) else stack
  end.

(** Popping the stack.
    src/bootrom/printk.c:33-38 resolve_int32 *)
Fixpoint pop_digits (stack : list Z) : prog machine unit :=
  match stack with
  | [] => ret tt
  | d :: stack => uart_put_char d ;;; pop_digits stack
  end.

Definition or_zero (stack : list Z) : list Z := match stack with [] => [0x30] | _ => stack end.

(** src/bootrom/printk.c:19-39 resolve_int32 *)
Definition resolve_int32 (qword : Z) : prog machine unit :=
  if qword <? 0 then ret tt
  else pop_digits (or_zero (push_decimal DEFAULT_RESOLVE_STACK qword [])).

(** The tables [lower] and [upper].
    src/bootrom/printk.c:45-46 resolve_hex_uint32 *)
Definition hex_char (is_lowercase : bool) (d : Z) : Z :=
  if d <? 10 then 0x30 + d else (if is_lowercase then 0x61 else 0x41) + (d - 10).

(** src/bootrom/printk.c:49-53 resolve_hex_uint32 *)
Fixpoint push_hex (room : nat) (is_lowercase : bool) (qword : Z) (stack : list Z) : list Z :=
  match room with
  | O => stack
  | S room =>
      if truthy qword
      then push_hex room is_lowercase (Z.shiftr qword 4)
             (hex_char is_lowercase (Z.land qword 0xf) :: stack)
      else stack
  end.

(** src/bootrom/printk.c:41-61 resolve_hex_uint32 *)
Definition resolve_hex_uint32 (qword : Z) (is_lowercase : bool) : prog machine unit :=
  pop_digits (or_zero (push_hex DEFAULT_RESOLVE_STACK is_lowercase qword [])).

(** A variadic argument: a word, or a pointer to a string. *)
Inductive va_argument :=
  | va_word (v : Z)
  | va_string (s : list Z).

Fixpoint put_string (s : list Z) : prog machine unit :=
  match s with
  | [] => ret tt
  | c :: s => uart_put_char c ;;; put_string s
  end.

(** src/bootrom/printk.c:64-126 printk_mp_raw *)
Fixpoint printk_mp_raw (fmt : list Z) (args : list va_argument) : prog machine unit :=
  match fmt with
  | [] => ret tt
  | c :: fmt =>
      if negb (c =? 0x25) then uart_put_char c ;;; printk_mp_raw fmt args else
      match fmt with
      | [] => failed
      | d :: fmt =>
          if d =? 0x73 then
            match args with
            | va_string s :: args => put_string s ;;; printk_mp_raw fmt args
            | _ => failed
            end
          else if d =? 0x63 then
            match args with
            | va_word v :: args => uart_put_char v ;;; printk_mp_raw fmt args
            | _ => failed
            end
          else if d =? 0x64 then
            match args with
            | va_word v :: args =>
                let dword_arg := s32 v in
                (if dword_arg <? 0
                 then uart_put_char 0x2d ;;; resolve_int32 (s32 (- dword_arg))
                 else resolve_int32 dword_arg) ;;;
                printk_mp_raw fmt args
            | _ => failed
            end
          else if d =? 0x78 then
            match args with
            | va_word v :: args => resolve_hex_uint32 (u32 v) true ;;; printk_mp_raw fmt args
            | _ => failed
            end
          else if d =? 0x58 then
            match args with
            | va_word v :: args => resolve_hex_uint32 (u32 v) false ;;; printk_mp_raw fmt args
            | _ => failed
            end
          else printk_mp_raw fmt args
      end
  end.

(** The macro prefixes every format.
    src/bootrom/printk.h:20-20 printk *)
Definition printk (fmt : list Z) (args : list va_argument) : prog machine unit :=
  printk_mp_raw (text "BOOTROM: " ++ fmt) args.
End Driver.

(** ** Specification *)

(** [s] is the numeral of [n] in a base, most significant digit first, with the digit
    characters of [digit]: no leading zero, but for zero itself. *)
Definition numeral (base : Z) (digit : Z -> Z) (n : Z) (s : list Z) : Prop :=
  exists ds, s = map digit ds /\ Forall (fun d => 0 <= d < base) ds /\
    foldl (fun v d => v * base + d) 0 ds = n /\
    match ds with [] => False | d :: rest => d <> 0 \/ rest = [] end.

Definition dec_char (d : Z) : Z := 0x30 + d.

(** %c, %d, %x and %X. *)
Definition word_directives : list Z := [0x63; 0x64; 0x78; 0x58].

(** What a format and its arguments print, by the meaning of each directive. The most
    negative integer has no numeral: its negation overflows, and a lone minus sign is
    printed. A directive that is not known prints nothing. *)
Inductive renders : list Z -> list va_argument -> list Z -> Prop :=
  | renders_nil args : renders [] args []
  | renders_char c fmt args out :
      c <> 0x25 -> renders fmt args out -> renders (c :: fmt) args (u8 c :: out)
  | renders_s s fmt args out :
      renders fmt args out -> renders (0x25 :: 0x73 :: fmt) (va_string s :: args) (map u8 s ++ out)
  | renders_c v fmt args out :
      renders fmt args out -> renders (0x25 :: 0x63 :: fmt) (va_word v :: args) (u8 v :: out)
  | renders_d_pos v s fmt args out :
      0 <= s32 v -> numeral 10 dec_char (s32 v) s ->
      renders fmt args out -> renders (0x25 :: 0x64 :: fmt) (va_word v :: args) (s ++ out)
  | renders_d_neg v s fmt args out :
      - 2 ^ 31 < s32 v < 0 -> numeral 10 dec_char (- s32 v) s ->
      renders fmt args out -> renders (0x25 :: 0x64 :: fmt) (va_word v :: args) (0x2d :: s ++ out)
  | renders_d_min v fmt args out :
      s32 v = - 2 ^ 31 -> renders fmt args out -> renders (0x25 :: 0x64 :: fmt) (va_word v :: args) (0x2d :: out)
  | renders_x v s fmt args out :
      numeral 16 (hex_char true) (u32 v) s ->
      renders fmt args out -> renders (0x25 :: 0x78 :: fmt) (va_word v :: args) (s ++ out)
  | renders_X v s fmt args out :
      numeral 16 (hex_char false) (u32 v) s ->
      renders fmt args out -> renders (0x25 :: 0x58 :: fmt) (va_word v :: args) (s ++ out)
  | renders_unknown d fmt args out :
      d <> 0x73 -> existsb (Z.eqb d) word_directives = false ->
      renders fmt args out -> renders (0x25 :: d :: fmt) args out.

(** ** Digits *)

(** The digits of [n], least significant first. *)
Fixpoint digits (fuel : nat) (base n : Z) : list Z :=
  match fuel with
  | O => []
  | S fuel => if truthy n then n mod base :: digits fuel base (n / base) else []
  end.

Lemma push_decimal_digits room n stack :
  push_decimal room n stack = map dec_char (rev (digits room 10 n)) ++ stack.
Proof.
  revert n stack. induction room as [|room IH]; intros n stack; [done|].
  cbn [push_decimal digits]. case_test; [|done].
  cbn [rev]. by rewrite IH, map_app, <- (assoc_L app).
Qed.

Lemma push_hex_digits room lc n stack :
  push_hex room lc n stack = map (hex_char lc) (rev (digits room 16 n)) ++ stack.
Proof.
  revert n stack. induction room as [|room IH]; intros n stack; [done|].
  cbn [push_hex digits]. case_test; [|done].
  change 0xf with (Z.ones 4). rewrite Z.land_ones, Z.shiftr_div_pow2 by lia.
  cbn [rev]. by rewrite IH, map_app, <- (assoc_L app).
Qed.

Definition horner (base : Z) (ds : list Z) : Z := foldl (fun v d => v * base + d) 0 ds.

Lemma horner_snoc base ds d : horner base (ds ++ [d]) = horner base ds * base + d.
Proof. unfold horner. by rewrite foldl_app. Qed.

(** Enough digits: the value, the range of each digit and a leading digit that is not
    zero. *)
Lemma digits_spec base fuel : 1 < base -> forall n, 0 <= n < base ^ Z.of_nat fuel ->
  horner base (rev (digits fuel base n)) = n /\
  Forall (fun d => 0 <= d < base) (digits fuel base n) /\
  (n <> 0 -> exists d ds, rev (digits fuel base n) = d :: ds /\ d <> 0).
Proof.
  intros Hb. induction fuel as [|fuel IH]; intros n Hn; cbn [digits].
  - cbn in Hn. assert (n = 0) as -> by lia. split; [done|]. by split.
  - unfold truthy. destruct (Z.eqb_spec n 0) as [->|Hn0]; [split; [done|]; by split|].
    rewrite Nat2Z.inj_succ, Z.pow_succ_r in Hn by lia.
    destruct (IH (n / base)) as (Hv & HF & Hlead).
    { split; [apply Z.div_pos; lia|]. apply Z.div_lt_upper_bound; lia. }
    cbn [negb rev]. split; [|split].
    + rewrite horner_snoc, Hv. pose proof (Z.div_mod n base ltac:(lia)). lia.
    + constructor; [apply Z.mod_pos_bound; lia|done].
    + intros _. destruct (Z.eq_dec (n / base) 0) as [Hd|Hd].
      * rewrite Hd. assert (digits fuel base 0 = []) as -> by by destruct fuel.
        cbn. eexists _, _. split; [done|]. rewrite Z.mod_small; [done|].
        pose proof (Z.div_mod n base ltac:(lia)). pose proof (Z.mod_pos_bound n base ltac:(lia)). lia.
      * destruct (Hlead Hd) as (d & ds & -> & Hne). by eexists _, _.
Qed.

(** The stack is the numeral. *)
Lemma stack_numeral base digit n s :
  1 < base -> 2 ^ 32 <= base ^ 128 -> 0 <= n < 2 ^ 32 ->
  digit 0 = 0x30 -> s = or_zero (map digit (rev (digits DEFAULT_RESOLVE_STACK base n))) ->
  numeral base digit n s.
Proof.
  intros Hb Hpow Hn H0 ->. 
  destruct (digits_spec base DEFAULT_RESOLVE_STACK Hb n) as (Hv & HF & Hlead).
  { change (Z.of_nat DEFAULT_RESOLVE_STACK) with 128. lia. }
  destruct (Z.eq_dec n 0) as [->|Hne].
  - exists [0]. rewrite (eq_refl : digits DEFAULT_RESOLVE_STACK base 0 = []). cbn. rewrite H0.
    split; [done|]. split; [repeat constructor; lia|]. split; [lia|]. by right.
  - destruct (Hlead Hne) as (d & ds & E & Hd). rewrite E. exists (d :: ds).
    split; [done|]. split; [rewrite <- E; by apply Forall_rev|]. split; [by rewrite <- E|]. by left.
Qed.

(** ** The console on the machine *)

Section Facts.
Context `{AssemblerOk}.

(** An access to a register of the uart reaches it. *)
Definition at_uart (reg : Z) (m : machine) : Prop :=
  exists r, resolve m (UART16550_BASE + reg) = Some (r, UART16550_BASE + reg) /\
    pmr_callbacks r = uart_region.

(** The uart is mapped where the driver expects it and is set up for data. *)
Record console_ready (m : machine) : Prop := {
  cr_queue : at_uart UART_REG_QUEUE m;
  cr_lsr : at_uart UART_REG_LSR m;
  cr_dlab : dlab (uart m) = false
}.

(** The interrupt controller after the uart has driven its line. *)
Definition line_driven (u : uart_state) (p : plic_state) : plic_state :=
  default p (uart_refresh_interrupt u p).

Lemma refresh_line u p : uart_refresh_interrupt u p = Some (line_driven u p).
Proof. done. Qed.

Lemma put_bit_twice x i b : 0 <= i -> put_bit (put_bit x i b) i b = put_bit x i b.
Proof.
  intros Hi. apply Z.bits_inj'. intros j Hj. rewrite !testbit_put_bit by lia. by case_test.
Qed.

Lemma line_driven_twice u p : line_driven u (line_driven u p) = line_driven u p.
Proof.
  unfold line_driven, uart_refresh_interrupt, plic_set_pending. cbn -[put_bit].
  unfold set_lines. cbn -[put_bit]. by rewrite !put_bit_twice by done.
Qed.

(** The terminal got [out]; nothing else changed, but that the uart may have driven
    its line. *)
Definition prints (out : list Z) (m m' : machine) : Prop :=
  exists p, (p = plic m \/ p = line_driven (uart m) (plic m)) /\
    m' = set_terminal (terminal m ++ out) (set_plic p m).

Lemma prints_nil m : prints [] m m.
Proof. exists (plic m). split; [by left|]. rewrite app_nil_r. by destruct m. Qed.

Lemma prints_app o1 o2 m m1 m2 : prints o1 m m1 -> prints o2 m1 m2 -> prints (o1 ++ o2) m m2.
Proof.
  intros (p1 & Hp1 & ->) (p2 & Hp2 & ->). exists p2. cbn in *. split.
  - destruct Hp2 as [->| ->]; [done|]. right. destruct Hp1 as [->| ->]; [done|apply line_driven_twice].
  - unfold set_terminal, set_plic. cbn. by rewrite (assoc_L app).
Qed.

Lemma prints_ready out m m' : prints out m m' -> console_ready m -> console_ready m'.
Proof. intros (p & _ & ->) [Hq Hl Hd]. by split. Qed.

Lemma uart_store_at reg v m :
  at_uart reg m ->
  uart_store reg v m = pmr_write {| addr_low := 0; addr_high := 0; pmr_callbacks := uart_region |}
    (UART16550_BASE + reg) 1 v m.
Proof.
  intros (r & Hr & Hu). unfold uart_store. rewrite (vmwrite_hits 1 _ _ _ _ _ Hr).
  unfold pmr_write. by rewrite Hu.
Qed.

Lemma uart_load_at reg m :
  at_uart reg m ->
  uart_load reg m = match uart_mmio_read (UART16550_BASE + reg) 1 (uart m) (plic m) with
    | Some (v, u, p) => Ok (v mod 2 ^ 8) (set_plic p (set_uart u m)) | None => Failed end.
Proof.
  intros (r & Hr & Hu). unfold uart_load. rewrite (vmread_resolved _ _ _ _ _ Hr).
  unfold bind, pmr_read. rewrite Hu.
  by destruct (uart_mmio_read _ _ _ _) as [[[v u] p]|].
Qed.

Lemma mmio_read_lsr u p :
  uart_mmio_read (UART16550_BASE + UART_REG_LSR) 1 u p = Some (uart_lsr u, u, line_driven u p).
Proof. reflexivity. Qed.

Lemma mmio_write_queue v u p :
  dlab u = false ->
  uart_mmio_write (UART16550_BASE + UART_REG_QUEUE) 1 v u p = Some ([u8 v], u, line_driven u p).
Proof.
  intros Hd. unfold uart_mmio_write. change (u32 _) with 0. cbn -[u8 line_driven dlab].
  by rewrite Hd.
Qed.

(** The transmitter is never busy. *)
Lemma transmitter_free fuel m :
  console_ready m ->
  wait_transmitter (S fuel) m = Ok true (set_plic (line_driven (uart m) (plic m)) m).
Proof.
  intros HR. cbn [wait_transmitter]. unfold bind. rewrite uart_load_at by apply (cr_lsr _ HR).
  rewrite mmio_read_lsr.
  assert (E : (Z.land (uart_lsr (uart m) mod 2 ^ 8) UART_REG_STATUS_TX =? 0) = false).
  { unfold uart_lsr. by destruct (negb (uart_rx_empty (uart m))). }
  rewrite E. unfold ret, set_uart. by destruct m.
Qed.

Lemma putchar_prints ch m :
  console_ready m -> exists m', uart16550_putchar ch m = Ok tt m' /\ prints [u8 ch] m m'.
Proof.
  intros HR. unfold uart16550_putchar, bind. change TX_POLLS with (S 15). rewrite transmitter_free by done.
  rewrite uart_store_at by apply (cr_queue _ HR).
  unfold pmr_write. cbn [pmr_callbacks]. rewrite mmio_write_queue by apply (cr_dlab _ HR). eexists. split; [reflexivity|].
  eexists. split; [|by destruct m]. right. apply line_driven_twice.
Qed.

Lemma bind_prints {A} (m1 : prog machine unit) (k : prog machine A) o1 o2 m a m' :
  m1 m = Ok tt m' -> prints o1 m m' ->
  (exists m2, k m' = Ok a m2 /\ prints o2 m' m2) ->
  exists m2, (m1 ;;; k) m = Ok a m2 /\ prints (o1 ++ o2) m m2.
Proof.
  intros E1 H1 (m2 & E2 & H2). exists m2. unfold bind. rewrite E1. split; [done|]. by eapply prints_app.
Qed.

Lemma chars_print (put : list Z -> prog machine unit) :
  (forall s, put s = match s with [] => ret tt | c :: s => uart_put_char c ;;; put s end) ->
  forall s m, console_ready m -> exists m', put s m = Ok tt m' /\ prints (map u8 s) m m'.
Proof.
  intros Heq s. induction s as [|c s IH]; intros m HR; rewrite Heq.
  - exists m. split; [done|apply prints_nil].
  - destruct (putchar_prints (u8 c) m HR) as (m1 & E1 & H1).
    change (map u8 (c :: s)) with ([u8 c] ++ map u8 s).
    eapply bind_prints; [exact E1| |].
    + rewrite u8_id in H1 by apply u8_range. exact H1.
    + apply IH. by eapply prints_ready.
Qed.

Lemma string_prints s m :
  console_ready m -> exists m', put_string s m = Ok tt m' /\ prints (map u8 s) m m'.
Proof. apply chars_print. by intros []. Qed.

Lemma digits_print s m :
  console_ready m -> Forall (is_uint 8) s -> exists m', pop_digits s m = Ok tt m' /\ prints s m m'.
Proof.
  intros HR HF. destruct (chars_print pop_digits ltac:(by intros []) s m HR) as (m' & E & HP).
  exists m'. split; [done|]. assert (map u8 s = s) as <-; [|done].
  clear -HF. induction HF as [|c s Hc HF IH]; cbn; [done|]. by rewrite IH, u8_id.
Qed.
End Facts.

(** ** Properties *)

(** Every known directive of the format has an argument of its kind, and the format does
    not end in a directive. *)
Fixpoint formatted (fmt : list Z) (args : list va_argument) : bool :=
  match fmt with
  | [] => true
  | c :: fmt =>
      if negb (c =? 0x25) then formatted fmt args else
      match fmt with
      | [] => false
      | d :: fmt =>
          if d =? 0x73 then match args with va_string s :: args => formatted fmt args | _ => false end
          else if existsb (Z.eqb d) word_directives
          then match args with va_word v :: args => formatted fmt args | _ => false end
          else formatted fmt args
      end
  end.

Section Properties.
Context `{AssemblerOk}.

Lemma digit_bytes digit ds base :
  (forall d, 0 <= d < base -> is_uint 8 (digit d)) -> Forall (fun d => 0 <= d < base) ds ->
  Forall (is_uint 8) (map digit ds).
Proof. intros Hd HF. induction HF; constructor; auto. Qed.

Lemma hex_char_byte lc d : 0 <= d < 16 -> is_uint 8 (hex_char lc d).
Proof. intros Hd. unfold hex_char, is_uint. change (2 ^ 8) with 256. destruct lc; case_test; to_prop; lia. Qed.

Lemma numeral_bytes base digit n s :
  (forall d, 0 <= d < base -> is_uint 8 (digit d)) -> numeral base digit n s -> Forall (is_uint 8) s.
Proof. intros Hd (ds & -> & HF & _). by eapply digit_bytes. Qed.

Lemma resolve_int32_prints n m :
  0 <= n < 2 ^ 32 -> console_ready m ->
  exists s m', numeral 10 dec_char n s /\ resolve_int32 n m = Ok tt m' /\ prints s m m'.
Proof.
  intros Hn HR. unfold resolve_int32. destruct (Z.ltb_spec n 0); [lia|].
  rewrite push_decimal_digits, app_nil_r.
  match goal with |- context [pop_digits ?x] => set (s := x) end.
  assert (HN : numeral 10 dec_char n s) by (eapply stack_numeral; [lia|by vm_compute|done..]).
  destruct (digits_print s m HR) as (m' & E & HP).
  { eapply numeral_bytes; [|exact HN]. intros d Hd. unfold dec_char, is_uint. change (2 ^ 8) with 256. lia. }
  by exists s, m'.
Qed.

Lemma resolve_hex_prints n lc m :
  0 <= n < 2 ^ 32 -> console_ready m ->
  exists s m', numeral 16 (hex_char lc) n s /\ resolve_hex_uint32 n lc m = Ok tt m' /\ prints s m m'.
Proof.
  intros Hn HR. unfold resolve_hex_uint32. rewrite push_hex_digits, app_nil_r.
  match goal with |- context [pop_digits ?x] => set (s := x) end.
  assert (HN : numeral 16 (hex_char lc) n s) by (eapply stack_numeral; [lia|by vm_compute|done..]).
  destruct (digits_print s m HR) as (m' & E & HP).
  { eapply numeral_bytes; [|exact HN]. intros d. apply hex_char_byte. }
  by exists s, m'.
Qed.

(** One directive, then the rest of the format. *)
Lemma then_prints (m1 : prog machine unit) (k : prog machine unit) o1 (R : list Z -> Prop) m m' :
  m1 m = Ok tt m' -> prints o1 m m' -> console_ready m ->
  (console_ready m' -> exists out m2, R out /\ k m' = Ok tt m2 /\ prints out m' m2) ->
  exists out m2, R out /\ (m1 ;;; k) m = Ok tt m2 /\ prints (o1 ++ out) m m2.
Proof.
  intros E1 H1 HR Hk. destruct (Hk (prints_ready _ _ _ H1 HR)) as (out & m2 & Ho & E2 & H2).
  exists out, m2. split; [done|]. unfold bind. rewrite E1. split; [done|]. by eapply prints_app.
Qed.

Lemma decimal_prints v m :
  console_ready m ->
  exists s m', (forall fmt args out, renders fmt args out ->
      renders (0x25 :: 0x64 :: fmt) (va_word v :: args) (s ++ out)) /\
    (if s32 v <? 0 then uart_put_char 0x2d ;;; resolve_int32 (s32 (- s32 v)) else resolve_int32 (s32 v)) m =
      Ok tt m' /\ prints s m m'.
Proof.
  intros HR. pose proof (signed_range 32 v ltac:(lia)) as Hv. change (32 - 1) with 31 in Hv.
  change (2 ^ 31) with 2147483648 in *. destruct (Z.ltb_spec (s32 v) 0) as [Hneg|Hpos].
  - destruct (putchar_prints (u8 0x2d) m HR) as (m1 & E1 & H1).
    destruct (decide (s32 v = - 2147483648)) as [Emin|Hmin].
    { rewrite Emin. exists [0x2d], m1. split; [intros fmt args out Hr; by apply renders_d_min|]. split; [|exact H1].
      unfold bind, uart_put_char. by rewrite E1. }
    assert (E0 : s32 (- s32 v) = - s32 v) by (apply s32_id; lia). rewrite E0.
    destruct (resolve_int32_prints (- s32 v) m1) as (s & m2 & HN & E2 & H2); [lia|by eapply prints_ready|].
    destruct (bind_prints _ (resolve_int32 (- s32 v)) _ s m tt m1 E1 H1 ltac:(by exists m2)) as (m3 & E3 & H3).
    exists (0x2d :: s), m3. split; [|done]. intros fmt args out Hr. cbn [app]. apply renders_d_neg; try done.
    change (2 ^ 31) with 2147483648. lia.
  - destruct (resolve_int32_prints (s32 v) m) as (s & m2 & HN & E2 & H2); [lia|done|].
    exists s, m2. split; [|done]. intros fmt args out Hr. by apply renders_d_pos.
Qed.

(** A directive for a word, and one that is not known. *)
Lemma word_prints d v m : existsb (Z.eqb d) word_directives = true -> console_ready m ->
  exists s m', (forall fmt args out, renders fmt args out -> renders (0x25 :: d :: fmt) (va_word v :: args) (s ++ out)) /\
    (forall fmt args, printk_mp_raw (0x25 :: d :: fmt) (va_word v :: args) m = printk_mp_raw fmt args m') /\
    prints s m m'.
Proof.
  intros Hd HR. unfold word_directives in Hd. cbn [existsb] in Hd. to_prop. destruct Hd as [->|[->|[->|[->|?]]]]; [| | | |done].
  - destruct (putchar_prints (u8 v) m HR) as (m1 & E1 & H1). rewrite u8_id in H1 by apply u8_range.
    exists [u8 v], m1. split; [intros; by apply renders_c|]. split; [|done]. intros. cbn -[uart_put_char]. unfold bind.
    unfold uart_put_char. by rewrite E1.
  - destruct (decimal_prints v m HR) as (s & m1 & Hs & E1 & H1). exists s, m1. split; [done|]. split; [|done].
    intros. cbn -[uart_put_char resolve_int32 Z.ltb Z.opp]. unfold bind at 1. cbv zeta. by rewrite E1.
  - destruct (resolve_hex_prints (u32 v) true m (u32_range v) HR) as (s & m1 & HN & E1 & H1).
    exists s, m1. split; [intros; by apply renders_x|]. split; [|done]. intros. cbn -[resolve_hex_uint32]. unfold bind. by rewrite E1.
  - destruct (resolve_hex_prints (u32 v) false m (u32_range v) HR) as (s & m1 & HN & E1 & H1).
    exists s, m1. split; [intros; by apply renders_X|]. split; [|done]. intros. cbn -[resolve_hex_uint32]. unfold bind. by rewrite E1.
Qed.

Lemma unknown_skipped d fmt args m : d <> 0x73 -> existsb (Z.eqb d) word_directives = false ->
  printk_mp_raw (0x25 :: d :: fmt) args m = printk_mp_raw fmt args m.
Proof.
  intros Hs Hd. unfold word_directives in Hd. cbn [existsb] in Hd. repeat rewrite orb_false_iff in Hd.
  destruct Hd as (D1 & D2 & D3 & D4 & _). cbn [printk_mp_raw negb Z.eqb Pos.eqb].
  by rewrite (proj2 (Z.eqb_neq _ _) Hs), D1, D2, D3, D4.
Qed.

Lemma printk_mp_raw_prints n : forall fmt args m,
  (length fmt <= n)%nat -> formatted fmt args = true -> console_ready m ->
  exists out m', renders fmt args out /\ printk_mp_raw fmt args m = Ok tt m' /\ prints out m m'.
Proof.
  induction n as [|n IH]; intros fmt args m Hlen Hf HR.
  { destruct fmt; [|cbn in Hlen; lia]. exists [], m. split; [constructor|]. by split; [|apply prints_nil]. }
  destruct fmt as [|c fmt].
  { exists [], m. split; [constructor|]. by split; [|apply prints_nil]. }
  cbn [length] in Hlen. cbn [formatted] in Hf.
  destruct (Z.eqb_spec c 0x25) as [->|Hc]; cbn [negb] in *.
  - destruct fmt as [|d fmt]; [done|]. cbn [length] in Hlen.
    assert (Hrest : forall args', formatted fmt args' = true -> forall m', console_ready m' ->
      exists out m2, renders fmt args' out /\ printk_mp_raw fmt args' m' = Ok tt m2 /\ prints out m' m2).
    { intros args' Ha m' HR'. apply IH; [lia|done|done]. }
    destruct (Z.eqb_spec d 0x73) as [->|Hs].
    + destruct args as [|[v|s] args]; [done..|]. destruct (string_prints s m HR) as (m1 & E1 & H1).
      destruct (then_prints _ (printk_mp_raw fmt args) _ (renders fmt args) _ _ E1 H1 HR (Hrest args Hf m1)) as (out & m2 & Ho & E & HP).
      eexists _, m2. split; [by apply renders_s|]. done.
    + destruct (existsb (Z.eqb d) word_directives) eqn:Hd.
      * destruct args as [|[v|s] args]; [done| |done]. destruct (word_prints d v m Hd HR) as (s & m1 & Hr & E1 & H1).
        destruct (Hrest args Hf m1 (prints_ready _ _ _ H1 HR)) as (out & m2 & Ho & E & HP).
        exists (s ++ out), m2. split; [by apply Hr|]. split; [by rewrite E1|by eapply prints_app].
      * destruct (Hrest args Hf m HR) as (out & m2 & Ho & E & HP). exists out, m2.
        split; [by apply renders_unknown|]. split; [by rewrite unknown_skipped|done].
  - cbn [printk_mp_raw]. rewrite (proj2 (Z.eqb_neq _ _) Hc). cbn [negb].
    destruct (putchar_prints (u8 c) m HR) as (m1 & E1 & H1). rewrite u8_id in H1 by apply u8_range.
    destruct (then_prints _ (printk_mp_raw fmt args) _ (renders fmt args) _ _ E1 H1 HR) as (out & m2 & Ho & E & HP).
    { intros HR'. apply IH; [lia|done|done]. }
    eexists _, m2. split; [by apply renders_char|]. done.
Qed.


(** The most negative integer prints as a lone minus sign: its negation overflows and
    [resolve_int32] prints nothing for a negative number. *)
Lemma printk_int_min m :
  console_ready m -> exists m', printk_mp_raw (text "%d") [va_word (- 2 ^ 31)] m = Ok tt m' /\ prints [0x2d] m m'.
Proof.
  intros HR. destruct (putchar_prints (u8 0x2d) m HR) as (m1 & E1 & H1). exists m1. split; [|exact H1].
  change (printk_mp_raw _ _ m) with (((uart_put_char 0x2d ;;; resolve_int32 (- 2 ^ 31)) ;;; ret tt) m).
  unfold bind. unfold uart_put_char. by rewrite E1.
Qed.
End Properties.

Module Witness.
Import Concrete Board.
#[local] Existing Instance sizes.

Definition idle : machine := board (empty_hart 0x80000000) [].

Lemma idle_ready : console_ready idle.
Proof. by split; [exists uart_pmr..|]. Qed.


Example printk_terminal :
  option_map terminal (final (printk (text "0x%x + %d MiB") [va_word 0x80000000; va_word 64] idle)) =
  Some (text "BOOTROM: 0x80000000 + 64 MiB").
Proof. by vm_compute. Qed.
End Witness.
