(* ===== verification/CsrHandlers.v ===== *)
(** * The csr handlers

    Models the read, write and reset callbacks of src/vmm/csr_machine_level.c,
    src/vmm/csr_supervisor_level.c, src/vmm/csr_misc.c and
    src/vmm/csr_machine_level_pmp.c. A callback gets the csr's address [a] for the
    pointer to its entry; a read callback gets the clint's time [now], which the
    counters mirror. Most registers are storage in the entry; mstatus, mie, mip and
    mideleg live in the hart, and their supervisor counterparts are views of them. *)

From S2P Require Import Prelude Monad PmRegion X86 Hart Trap Clint Plic Uart Machine Mmu.
Local Open Scope Z_scope.

(** A bit of the value written, and the place of a one-bit field in a value read. *)
Definition value_bit (value i : Z) : bool := truthy (Z.land (Z.shiftr value i) 0x1).
Definition flag (b : bool) (i : Z) : Z := Z.shiftl (int_of_bool b) i.

Lemma flag_range w b i : 0 <= w -> 0 <= i < w -> is_uint w (flag b i).
Proof.
  intros Hw Hi. unfold flag. rewrite Z.shiftl_mul_pow2 by lia. unfold is_uint, int_of_bool.
  pose proof (Z.pow_lt_mono_r 2 i w ltac:(lia) ltac:(lia) ltac:(lia)).
  pose proof (Z.pow_pos_nonneg 2 i ltac:(lia) ltac:(lia)). destruct b; lia.
Qed.

(** ** Machine level *)

(** src/vmm/csr_machine_level.c:8-13 csr_mscratch_write *)
Definition csr_mscratch_write (a value : Z) (h : hart) : hart := put_csr_blob a value h.

(** src/vmm/csr_machine_level.c:15-21 csr_mscratch_read *)
Definition csr_mscratch_read (now a : Z) (h : hart) : Z := blob h a.

(** src/vmm/csr_machine_level.c:34-39 csr_misa_write *)
Definition csr_misa_write (a value : Z) (h : hart) : hart := h.

(** src/vmm/csr_machine_level.c:41-47 csr_misa_read *)
Definition csr_misa_read (now a : Z) (h : hart) : Z := blob h a.

(** src/vmm/csr_machine_level.c:49-59 csr_misa_reset *)
Definition csr_misa_reset (a : Z) (h : hart) : hart :=
  let h := put_csr_blob a 0 h in
  let set bit h := put_csr_blob a (Z.lor (blob h a) (Z.shiftl 1 bit)) h in
  set 30 (set 20 (set 18 (set 12 (set 8 (set 0 h))))).

(** src/vmm/csr_machine_level.c:71-75 csr_mvendorid_reset *)
Definition csr_mvendorid_reset (a : Z) (h : hart) : hart := put_csr_blob a 0x60a h.

(** src/vmm/csr_machine_level.c:77-83 csr_mvendorid_read *)
Definition csr_mvendorid_read (now a : Z) (h : hart) : Z := blob h a.

(** src/vmm/csr_machine_level.c:95-101 csr_mhartid_read *)
Definition csr_mhartid_read (now a : Z) (h : hart) : Z := hart_id h.

(** src/vmm/csr_machine_level.c:112-118 csr_mtvec_write *)
Definition csr_mtvec_write (a value : Z) (h : hart) : hart := put_csr_blob a value h.

(** src/vmm/csr_machine_level.c:120-126 csr_mtvec_read *)
Definition csr_mtvec_read (now a : Z) (h : hart) : Z := blob h a.

(** src/vmm/csr_machine_level.c:128-133 csr_mtvec_reset *)
Definition csr_mtvec_reset (a : Z) (h : hart) : hart := put_csr_blob a 0 h.

(** src/vmm/csr_machine_level.c:145-151 csr_mcounteren_write *)
Definition csr_mcounteren_write (a value : Z) (h : hart) : hart := put_csr_blob a value h.

(** src/vmm/csr_machine_level.c:153-159 csr_mcounteren_read *)
Definition csr_mcounteren_read (now a : Z) (h : hart) : Z := blob h a.

(** src/vmm/csr_machine_level.c:161-165 csr_mcounteren_reset *)
Definition csr_mcounteren_reset (a : Z) (h : hart) : hart := put_csr_blob a 0 h.

(** src/vmm/csr_machine_level.c:178-184 csr_mie_write *)
Definition csr_mie_write (a value : Z) (h : hart) : hart := set_ienable value h.

(** src/vmm/csr_machine_level.c:186-192 csr_mie_read *)
Definition csr_mie_read (now a : Z) (h : hart) : Z := ienable h.

(** src/vmm/csr_machine_level.c:194-199 csr_mie_reset *)
Definition csr_mie_reset (a : Z) (h : hart) : hart := set_ienable 0 h.

(** src/vmm/csr_machine_level.c:212-224 csr_mip_write *)
Definition csr_mip_write (a value : Z) (h : hart) : hart :=
  let mip_mask := Z.land (ipending h) 0x888 in
  set_ipending (Z.lor (Z.ldiff value 0x888) mip_mask) h.

(** src/vmm/csr_machine_level.c:226-232 csr_mip_read *)
Definition csr_mip_read (now a : Z) (h : hart) : Z := ipending h.

(** src/vmm/csr_machine_level.c:234-239 csr_mip_reset *)
Definition csr_mip_reset (a : Z) (h : hart) : hart := set_ipending 0 h.

(** src/vmm/csr_machine_level.c:251-257 csr_medeleg_write *)
Definition csr_medeleg_write (a value : Z) (h : hart) : hart := put_csr_blob a value h.

(** src/vmm/csr_machine_level.c:259-265 csr_medeleg_read *)
Definition csr_medeleg_read (now a : Z) (h : hart) : Z := blob h a.

(** src/vmm/csr_machine_level.c:267-271 csr_medeleg_reset *)
Definition csr_medeleg_reset (a : Z) (h : hart) : hart := put_csr_blob a 0 h.

(** src/vmm/csr_machine_level.c:283-289 csr_mideleg_write *)
Definition csr_mideleg_write (a value : Z) (h : hart) : hart := set_idelegation value h.

(** src/vmm/csr_machine_level.c:291-297 csr_mideleg_read *)
Definition csr_mideleg_read (now a : Z) (h : hart) : Z := idelegation h.

(** src/vmm/csr_machine_level.c:299-303 csr_mideleg_reset *)
Definition csr_mideleg_reset (a : Z) (h : hart) : hart := set_idelegation 0 h.

(** src/vmm/csr_machine_level.c:318-331 csr_mstatus_write *)
Definition csr_mstatus_write (a value : Z) (h : hart) : hart :=
  set_status
    {| uie := value_bit value 0; sie := value_bit value 1; mie := value_bit value 3;
       upie := value_bit value 4; spie := value_bit value 5; mpie := value_bit value 7;
       spp := value_bit value 8; mpp := Z.land (Z.shiftr value 11) 0x3 |} h.

(** src/vmm/csr_machine_level.c:333-348 csr_mstatus_read *)
Definition csr_mstatus_read (now a : Z) (h : hart) : Z :=
  let s := status h in
  let dword := 0 in
  let dword := Z.lor dword (flag (uie s) 0) in
  let dword := Z.lor dword (flag (sie s) 1) in
  let dword := Z.lor dword (flag (mie s) 3) in
  let dword := Z.lor dword (flag (upie s) 4) in
  let dword := Z.lor dword (flag (spie s) 5) in
  let dword := Z.lor dword (flag (mpie s) 7) in
  let dword := Z.lor dword (flag (spp s) 8) in
  Z.lor dword (Z.shiftl (mpp s) 11).

(** src/vmm/csr_machine_level.c:350-354 csr_mstatus_reset *)
Definition csr_mstatus_reset (a : Z) (h : hart) : hart := put_csr_blob a 0 h.

(** src/vmm/csr_machine_level.c:369-375 csr_mepc_write *)
Definition csr_mepc_write (a value : Z) (h : hart) : hart := put_csr_blob a value h.

(** src/vmm/csr_machine_level.c:377-383 csr_mepc_read *)
Definition csr_mepc_read (now a : Z) (h : hart) : Z := blob h a.

(** src/vmm/csr_machine_level.c:385-389 csr_mepc_reset *)
Definition csr_mepc_reset (a : Z) (h : hart) : hart := put_csr_blob a 0 h.

(** src/vmm/csr_machine_level.c:402-408 csr_mcause_write *)
Definition csr_mcause_write (a value : Z) (h : hart) : hart := put_csr_blob a value h.

(** src/vmm/csr_machine_level.c:410-416 csr_mcause_read *)
Definition csr_mcause_read (now a : Z) (h : hart) : Z := blob h a.

(** src/vmm/csr_machine_level.c:418-422 csr_mcause_reset *)
Definition csr_mcause_reset (a : Z) (h : hart) : hart := put_csr_blob a 0 h.

(** src/vmm/csr_machine_level.c:434-440 csr_mtval_write *)
Definition csr_mtval_write (a value : Z) (h : hart) : hart := put_csr_blob a value h.

(** src/vmm/csr_machine_level.c:442-448 csr_mtval_read *)
Definition csr_mtval_read (now a : Z) (h : hart) : Z := blob h a.

(** src/vmm/csr_machine_level.c:450-454 csr_mtval_reset *)
Definition csr_mtval_reset (a : Z) (h : hart) : hart := put_csr_blob a 0 h.

(** ** Supervisor level *)

Section Satp.
Context `{Assembler}.

(** src/vmm/csr_supervisor_level.c:7-13 csr_scounteren_write *)
Definition csr_scounteren_write (a value : Z) (h : hart) : hart := put_csr_blob a value h.

(** src/vmm/csr_supervisor_level.c:15-21 csr_scounteren_read *)
Definition csr_scounteren_read (now a : Z) (h : hart) : Z := blob h a.

(** src/vmm/csr_supervisor_level.c:23-27 csr_scounteren_reset *)
Definition csr_scounteren_reset (a : Z) (h : hart) : hart := put_csr_blob a 0 h.

(** src/vmm/csr_supervisor_level.c:44-66 csr_satp_write *)
Definition csr_satp_write (a value : Z) (h : hart) : hart :=
  let h := put_csr_blob a value h in
  let h := set_itlb (invalidate_tlb (itlb_cap h) (itlb h)) h in
  let h := set_dtlb (invalidate_tlb (dtlb_cap h) (dtlb h)) h in
  flush_translation_cache h.

(** src/vmm/csr_supervisor_level.c:68-74 csr_satp_read *)
Definition csr_satp_read (now a : Z) (h : hart) : Z := blob h a.

(** src/vmm/csr_supervisor_level.c:76-80 csr_satp_reset *)
Definition csr_satp_reset (a : Z) (h : hart) : hart := put_csr_blob a 0 h.

(** src/vmm/csr_supervisor_level.c:94-102 csr_sie_write *)
Definition csr_sie_write (a value : Z) (h : hart) : hart :=
  let h := set_ienable (put_bit (ienable h) 1 (value_bit value 1)) h in
  let h := set_ienable (put_bit (ienable h) 5 (value_bit value 5)) h in
  set_ienable (put_bit (ienable h) 9 (value_bit value 9)) h.

(** src/vmm/csr_supervisor_level.c:104-117 csr_sie_read *)
Definition csr_sie_read (now a : Z) (h : hart) : Z :=
  let b i := flag (Z.testbit (ienable h) i) i in
  let blob := 0 in
  let blob := Z.lor blob (b 0) in
  let blob := Z.lor blob (b 1) in
  let blob := Z.lor blob (b 4) in
  let blob := Z.lor blob (b 5) in
  let blob := Z.lor blob (b 8) in
  Z.lor blob (b 9).

(** src/vmm/csr_supervisor_level.c:130-137 csr_sip_write *)
Definition csr_sip_write (a value : Z) (h : hart) : hart :=
  set_ipending (put_bit (ipending h) 1 (value_bit value 1)) h.

(** src/vmm/csr_supervisor_level.c:139-149 csr_sip_read *)
Definition csr_sip_read (now a : Z) (h : hart) : Z :=
  let b i := flag (Z.testbit (ipending h) i) i in
  let blob := 0 in
  let blob := Z.lor blob (b 1) in
  let blob := Z.lor blob (b 5) in
  Z.lor blob (b 9).

(** src/vmm/csr_supervisor_level.c:163-173 csr_sstatus_write *)
Definition csr_sstatus_write (a value : Z) (h : hart) : hart :=
  let s := status h in
  set_status
    {| uie := value_bit value 0; sie := value_bit value 1; mie := mie s;
       upie := value_bit value 4; spie := value_bit value 5; mpie := mpie s;
       spp := value_bit value 8; mpp := mpp s |} h.

(** src/vmm/csr_supervisor_level.c:175-187 csr_sstatus_read *)
Definition csr_sstatus_read (now a : Z) (h : hart) : Z :=
  let s := status h in
  let blob := 0 in
  let blob := Z.lor blob (flag (uie s) 0) in
  let blob := Z.lor blob (flag (sie s) 1) in
  let blob := Z.lor blob (flag (upie s) 4) in
  let blob := Z.lor blob (flag (spie s) 5) in
  Z.lor blob (flag (spp s) 8).

(** src/vmm/csr_supervisor_level.c:199-205 csr_stvec_write *)
Definition csr_stvec_write (a value : Z) (h : hart) : hart := put_csr_blob a value h.

(** src/vmm/csr_supervisor_level.c:207-213 csr_stvec_read *)
Definition csr_stvec_read (now a : Z) (h : hart) : Z := blob h a.

(** src/vmm/csr_supervisor_level.c:215-219 csr_stvec_reset *)
Definition csr_stvec_reset (a : Z) (h : hart) : hart := put_csr_blob a 0 h.

(** src/vmm/csr_supervisor_level.c:231-237 csr_sscratch_write *)
Definition csr_sscratch_write (a value : Z) (h : hart) : hart := put_csr_blob a value h.

(** src/vmm/csr_supervisor_level.c:239-245 csr_sscratch_read *)
Definition csr_sscratch_read (now a : Z) (h : hart) : Z := blob h a.

(** src/vmm/csr_supervisor_level.c:247-251 csr_sscratch_reset *)
Definition csr_sscratch_reset (a : Z) (h : hart) : hart := put_csr_blob a 0 h.

(** src/vmm/csr_supervisor_level.c:263-269 csr_sepc_write *)
Definition csr_sepc_write (a value : Z) (h : hart) : hart := put_csr_blob a value h.

(** src/vmm/csr_supervisor_level.c:271-277 csr_sepc_read *)
Definition csr_sepc_read (now a : Z) (h : hart) : Z := blob h a.

(** src/vmm/csr_supervisor_level.c:279-283 csr_sepc_reset *)
Definition csr_sepc_reset (a : Z) (h : hart) : hart := put_csr_blob a 0 h.

(** src/vmm/csr_supervisor_level.c:295-301 csr_stval_write *)
Definition csr_stval_write (a value : Z) (h : hart) : hart := put_csr_blob a value h.

(** src/vmm/csr_supervisor_level.c:303-309 csr_stval_read *)
Definition csr_stval_read (now a : Z) (h : hart) : Z := blob h a.

(** src/vmm/csr_supervisor_level.c:311-315 csr_stval_reset *)
Definition csr_stval_reset (a : Z) (h : hart) : hart := put_csr_blob a 0 h.

(** src/vmm/csr_supervisor_level.c:327-333 csr_scause_write *)
Definition csr_scause_write (a value : Z) (h : hart) : hart := put_csr_blob a value h.

(** src/vmm/csr_supervisor_level.c:335-341 csr_scause_read *)
Definition csr_scause_read (now a : Z) (h : hart) : Z := blob h a.

(** src/vmm/csr_supervisor_level.c:343-347 csr_scause_reset *)
Definition csr_scause_reset (a : Z) (h : hart) : hart := put_csr_blob a 0 h.
End Satp.

(** ** Counters *)

(** src/vmm/csr_misc.c:16-19 csr_time_write *)
Definition csr_time_write (a value : Z) (h : hart) : hart := h.

(** src/vmm/csr_misc.c:21-26 csr_time_read *)
Definition csr_time_read (now a : Z) (h : hart) : Z * hart :=
  let h := set_tsc now h in (u32 (tsc h), h).

(** src/vmm/csr_misc.c:37-40 csr_timeh_write *)
Definition csr_timeh_write (a value : Z) (h : hart) : hart := h.

(** src/vmm/csr_misc.c:47-51 csr_timeh_read *)
Definition csr_timeh_read (now a : Z) (h : hart) : Z := u32 (Z.shiftr now 32).

(** src/vmm/csr_misc.c:67-71 csr_cycle_read *)
Definition csr_cycle_read (now a : Z) (h : hart) : Z := u32 now.

(** src/vmm/csr_misc.c:73-77 csr_cycleh_read *)
Definition csr_cycleh_read (now a : Z) (h : hart) : Z := u32 (Z.shiftr now 32).

(** src/vmm/csr_misc.c:79-83 csr_scratch_write *)
Definition csr_scratch_write (a value : Z) (h : hart) : hart := put_csr_blob a value h.

(** src/vmm/csr_misc.c:85-89 csr_scratch_read *)
Definition csr_scratch_read (now a : Z) (h : hart) : Z := blob h a.

(** ** Physical memory protection *)

(** src/vmm/csr_machine_level_pmp.c:12-20 csr_pmpaddr_write *)
Definition csr_pmpaddr_write (a value : Z) (h : hart) : hart := put_csr_blob a value h.

(** src/vmm/csr_machine_level_pmp.c:22-30 csr_pmpaddr_read *)
Definition csr_pmpaddr_read (now a : Z) (h : hart) : Z := blob h a.

(** src/vmm/csr_machine_level_pmp.c:32-36 csr_pmpaddr_reset *)
Definition csr_pmpaddr_reset (a : Z) (h : hart) : hart := put_csr_blob a 0 h.

(** src/vmm/csr_machine_level_pmp.c:66-74 csr_pmpcfg_write *)
Definition csr_pmpcfg_write (a value : Z) (h : hart) : hart := put_csr_blob a value h.

(** src/vmm/csr_machine_level_pmp.c:76-84 csr_pmpcfg_read *)
Definition csr_pmpcfg_read (now a : Z) (h : hart) : Z := blob h a.

(** src/vmm/csr_machine_level_pmp.c:86-90 csr_pmpcfg_reset *)
Definition csr_pmpcfg_reset (a : Z) (h : hart) : hart := put_csr_blob a 0 h.
