(* ===== verification/Csr.v ===== *)
(** * The csr registry and the csr instructions

    Models the registration of csrs (src/vmm/csr.h and the constructors of the csr
    files), [csr_registery_init] and [hart_init] of src/vmm/hart.c, and the callback of
    the csr instructions (src/vmm/csr_representation.c). The callback is parametric in
    the clint's time. The callbacks of the entries are in CsrHandlers.v.

    Proved here: the callback is the atomic read-modify-write the ISA manual
    describes; the supervisor registers are restricted views of the machine ones;
    a write to satp leaves no cached translation, of addresses or of code; every
    registered csr answers after [hart_init]; the callback does not look at the
    privilege level. *)

From S2P Require Import Prelude Monad PmRegion X86 Hart Decode Trap Clint Plic Uart Machine Mmu.
From S2P Require Import Rv32 CsrHandlers.
Local Open Scope Z_scope.

(** ** The registry *)

(** src/vmm/csr.h:31-37 csr_registery_entry *)
Record csr_registery_entry := {
  reg_addr : Z;
  reg_wpri_mask : Z;
  reg_write : option Fn.csr_write_fn;
  reg_read : option Fn.csr_read_fn;
  reg_reset : option Fn.csr_reset_fn
}.

Definition WPRI_MASK_ALL : Z := 0xffffffff.
Definition PMPADDR_BASE : Z := 0x3b0.
Definition PMPCFG_BASE : Z := 0x3a0.
Definition CSR_ADDRESS_CYCLE : Z := 0xC00.
Definition CSR_ADDRESS_INSTRET : Z := 0xC02.
Definition CSR_ADDRESS_CYCLEH : Z := 0xC80.
Definition CSR_ADDRESS_INSTRETH : Z := 0xC82.
Definition CSR_ADDRESS_MCYCLE : Z := 0xB00.
Definition CSR_ADDRESS_MINSTRET : Z := 0xB02.
Definition CSR_ADDRESS_MCYCLEH : Z := 0xB80.
Definition CSR_ADDRESS_MINSTRETH : Z := 0xB82.
Definition CSR_ADDRESS_MARCHID : Z := 0xF12.
Definition CSR_ADDRESS_MIMPID : Z := 0xF13.
Definition CSR_ADDRESS_MSTATUSH : Z := 0x310.
Definition CSR_ADDRESS_MENVCFG : Z := 0x30A.
Definition CSR_ADDRESS_MENVCFGH : Z := 0x31A.
Definition CSR_ADDRESS_SENVCFG : Z := 0x10A.

(** *** csr_machine_level.c *)

(** src/vmm/csr_machine_level.c:23-31 mscratch_csr_entry *)
Definition mscratch_csr_entry : csr_registery_entry :=
  {| reg_addr := CSR_ADDRESS_MSCRATCH; reg_wpri_mask := WPRI_MASK_ALL;
     reg_write := Some Fn.csr_mscratch_write; reg_read := Some Fn.csr_mscratch_read;
     reg_reset := None |}.

(** src/vmm/csr_machine_level.c:61-69 misa_csr_entry *)
Definition misa_csr_entry : csr_registery_entry :=
  {| reg_addr := 0x301; reg_wpri_mask := WPRI_MASK_ALL;
     reg_write := Some Fn.csr_misa_write; reg_read := Some Fn.csr_misa_read;
     reg_reset := Some Fn.csr_misa_reset |}.

(** src/vmm/csr_machine_level.c:86-93 mvendorid_csr_entry *)
Definition mvendorid_csr_entry : csr_registery_entry :=
  {| reg_addr := 0xf11; reg_wpri_mask := WPRI_MASK_ALL;
     reg_write := None; reg_read := Some Fn.csr_mvendorid_read;
     reg_reset := Some Fn.csr_mvendorid_reset |}.

(** src/vmm/csr_machine_level.c:104-110 mhartid_csr_entry *)
Definition mhartid_csr_entry : csr_registery_entry :=
  {| reg_addr := 0xf14; reg_wpri_mask := WPRI_MASK_ALL;
     reg_write := None; reg_read := Some Fn.csr_mhartid_read;
     reg_reset := None |}.

(** src/vmm/csr_machine_level.c:135-143 mtvec_csr_entry *)
Definition mtvec_csr_entry : csr_registery_entry :=
  {| reg_addr := CSR_ADDRESS_MTVEC; reg_wpri_mask := 0xfffffffd;
     reg_write := Some Fn.csr_mtvec_write; reg_read := Some Fn.csr_mtvec_read;
     reg_reset := Some Fn.csr_mtvec_reset |}.

(** src/vmm/csr_machine_level.c:167-175 mcounteren_csr_entry *)
Definition mcounteren_csr_entry : csr_registery_entry :=
  {| reg_addr := 0x306; reg_wpri_mask := WPRI_MASK_ALL;
     reg_write := Some Fn.csr_mcounteren_write; reg_read := Some Fn.csr_mcounteren_read;
     reg_reset := Some Fn.csr_mcounteren_reset |}.

(** src/vmm/csr_machine_level.c:201-209 mie_csr_entry *)
Definition mie_csr_entry : csr_registery_entry :=
  {| reg_addr := CSR_ADDRESS_MIE; reg_wpri_mask := 0x00000aaa;
     reg_write := Some Fn.csr_mie_write; reg_read := Some Fn.csr_mie_read;
     reg_reset := Some Fn.csr_mie_reset |}.

(** src/vmm/csr_machine_level.c:241-249 mip_csr_entry *)
Definition mip_csr_entry : csr_registery_entry :=
  {| reg_addr := CSR_ADDRESS_MIP; reg_wpri_mask := 0x00000aaa;
     reg_write := Some Fn.csr_mip_write; reg_read := Some Fn.csr_mip_read;
     reg_reset := Some Fn.csr_mip_reset |}.

(** src/vmm/csr_machine_level.c:273-281 medeleg_csr_entry *)
Definition medeleg_csr_entry : csr_registery_entry :=
  {| reg_addr := CSR_ADDRESS_MEDELEG; reg_wpri_mask := 0xfffff7ff;
     reg_write := Some Fn.csr_medeleg_write; reg_read := Some Fn.csr_medeleg_read;
     reg_reset := Some Fn.csr_medeleg_reset |}.

(** src/vmm/csr_machine_level.c:305-315 mideleg_csr_entry *)
Definition mideleg_csr_entry : csr_registery_entry :=
  {| reg_addr := CSR_ADDRESS_MIDELEG; reg_wpri_mask := 0x00000222;
     reg_write := Some Fn.csr_mideleg_write; reg_read := Some Fn.csr_mideleg_read;
     reg_reset := Some Fn.csr_mideleg_reset |}.

(** src/vmm/csr_machine_level.c:356-365 mstatus_csr_entry *)
Definition mstatus_csr_entry : csr_registery_entry :=
  {| reg_addr := CSR_ADDRESS_MSTATUS; reg_wpri_mask := 0x000019aa;
     reg_write := Some Fn.csr_mstatus_write; reg_read := Some Fn.csr_mstatus_read;
     reg_reset := Some Fn.csr_mstatus_reset |}.

(** src/vmm/csr_machine_level.c:391-399 mepc_csr_entry *)
Definition mepc_csr_entry : csr_registery_entry :=
  {| reg_addr := CSR_ADDRESS_MEPC; reg_wpri_mask := WPRI_MASK_ALL;
     reg_write := Some Fn.csr_mepc_write; reg_read := Some Fn.csr_mepc_read;
     reg_reset := Some Fn.csr_mepc_reset |}.

(** src/vmm/csr_machine_level.c:424-432 mcause_csr_entry *)
Definition mcause_csr_entry : csr_registery_entry :=
  {| reg_addr := CSR_ADDRESS_MCAUSE; reg_wpri_mask := WPRI_MASK_ALL;
     reg_write := Some Fn.csr_mcause_write; reg_read := Some Fn.csr_mcause_read;
     reg_reset := Some Fn.csr_mcause_reset |}.

(** src/vmm/csr_machine_level.c:456-464 mtval_csr_entry *)
Definition mtval_csr_entry : csr_registery_entry :=
  {| reg_addr := CSR_ADDRESS_MTVAL; reg_wpri_mask := WPRI_MASK_ALL;
     reg_write := Some Fn.csr_mtval_write; reg_read := Some Fn.csr_mtval_read;
     reg_reset := Some Fn.csr_mtval_reset |}.

(** *** csr_supervisor_level.c *)

(** src/vmm/csr_supervisor_level.c:29-37 scounteren_csr_entry *)
Definition scounteren_csr_entry : csr_registery_entry :=
  {| reg_addr := 0x106; reg_wpri_mask := WPRI_MASK_ALL;
     reg_write := Some Fn.csr_scounteren_write; reg_read := Some Fn.csr_scounteren_read;
     reg_reset := Some Fn.csr_scounteren_reset |}.

(** src/vmm/csr_supervisor_level.c:82-90 satp_csr_entry *)
Definition satp_csr_entry : csr_registery_entry :=
  {| reg_addr := CSR_ADDRESS_SATP; reg_wpri_mask := WPRI_MASK_ALL;
     reg_write := Some Fn.csr_satp_write; reg_read := Some Fn.csr_satp_read;
     reg_reset := Some Fn.csr_satp_reset |}.

(** src/vmm/csr_supervisor_level.c:120-127 sie_csr_entry *)
Definition sie_csr_entry : csr_registery_entry :=
  {| reg_addr := CSR_ADDRESS_SIE; reg_wpri_mask := 0x00000222;
     reg_write := Some Fn.csr_sie_write; reg_read := Some Fn.csr_sie_read;
     reg_reset := None |}.

(** src/vmm/csr_supervisor_level.c:152-159 sip_csr_entry *)
Definition sip_csr_entry : csr_registery_entry :=
  {| reg_addr := CSR_ADDRESS_SIP; reg_wpri_mask := 0x00000222;
     reg_write := Some Fn.csr_sip_write; reg_read := Some Fn.csr_sip_read;
     reg_reset := None |}.

(** src/vmm/csr_supervisor_level.c:190-197 sstatus_csr_entry *)
Definition sstatus_csr_entry : csr_registery_entry :=
  {| reg_addr := CSR_ADDRESS_SSTATUS; reg_wpri_mask := 0x00000133;
     reg_write := Some Fn.csr_sstatus_write; reg_read := Some Fn.csr_sstatus_read;
     reg_reset := None |}.

(** src/vmm/csr_supervisor_level.c:221-229 stvec_csr_entry *)
Definition stvec_csr_entry : csr_registery_entry :=
  {| reg_addr := CSR_ADDRESS_STVEC; reg_wpri_mask := WPRI_MASK_ALL;
     reg_write := Some Fn.csr_stvec_write; reg_read := Some Fn.csr_stvec_read;
     reg_reset := Some Fn.csr_stvec_reset |}.

(** src/vmm/csr_supervisor_level.c:253-261 sscratch_csr_entry *)
Definition sscratch_csr_entry : csr_registery_entry :=
  {| reg_addr := CSR_ADDRESS_SSCRATCH; reg_wpri_mask := WPRI_MASK_ALL;
     reg_write := Some Fn.csr_sscratch_write; reg_read := Some Fn.csr_sscratch_read;
     reg_reset := Some Fn.csr_sscratch_reset |}.

(** src/vmm/csr_supervisor_level.c:285-293 sepc_csr_entry *)
Definition sepc_csr_entry : csr_registery_entry :=
  {| reg_addr := CSR_ADDRESS_SEPC; reg_wpri_mask := WPRI_MASK_ALL;
     reg_write := Some Fn.csr_sepc_write; reg_read := Some Fn.csr_sepc_read;
     reg_reset := Some Fn.csr_sepc_reset |}.

(** src/vmm/csr_supervisor_level.c:317-325 stval_csr_entry *)
Definition stval_csr_entry : csr_registery_entry :=
  {| reg_addr := CSR_ADDRESS_STVAL; reg_wpri_mask := WPRI_MASK_ALL;
     reg_write := Some Fn.csr_stval_write; reg_read := Some Fn.csr_stval_read;
     reg_reset := Some Fn.csr_stval_reset |}.

(** src/vmm/csr_supervisor_level.c:349-357 scause_csr_entry *)
Definition scause_csr_entry : csr_registery_entry :=
  {| reg_addr := CSR_ADDRESS_SCAUSE; reg_wpri_mask := WPRI_MASK_ALL;
     reg_write := Some Fn.csr_scause_write; reg_read := Some Fn.csr_scause_read;
     reg_reset := Some Fn.csr_scause_reset |}.

(** *** csr_misc.c *)

(** src/vmm/csr_misc.c:28-35 time_csr_entry *)
Definition time_csr_entry : csr_registery_entry :=
  {| reg_addr := CSR_ADDRESS_TIME; reg_wpri_mask := WPRI_MASK_ALL;
     reg_write := Some Fn.csr_time_write; reg_read := Some Fn.csr_time_read;
     reg_reset := None |}.

(** src/vmm/csr_misc.c:53-60 timeh_csr_entry *)
Definition timeh_csr_entry : csr_registery_entry :=
  {| reg_addr := CSR_ADDRESS_TIMEH; reg_wpri_mask := WPRI_MASK_ALL;
     reg_write := Some Fn.csr_timeh_write; reg_read := Some Fn.csr_timeh_read;
     reg_reset := None |}.

(** src/vmm/csr_misc.c:106-147 counter_csr_entries *)
Definition counter_csr_entries : list csr_registery_entry :=
  let entry addr r w := {| reg_addr := addr; reg_wpri_mask := WPRI_MASK_ALL; reg_write := w;
                           reg_read := Some r; reg_reset := None |} in
  [entry CSR_ADDRESS_CYCLE Fn.csr_cycle_read None;
   entry CSR_ADDRESS_INSTRET Fn.csr_cycle_read None;
   entry CSR_ADDRESS_CYCLEH Fn.csr_cycleh_read None;
   entry CSR_ADDRESS_INSTRETH Fn.csr_cycleh_read None;
   entry CSR_ADDRESS_MCYCLE Fn.csr_cycle_read (Some Fn.csr_time_write);
   entry CSR_ADDRESS_MINSTRET Fn.csr_cycle_read (Some Fn.csr_time_write);
   entry CSR_ADDRESS_MCYCLEH Fn.csr_cycleh_read (Some Fn.csr_time_write);
   entry CSR_ADDRESS_MINSTRETH Fn.csr_cycleh_read (Some Fn.csr_time_write);
   entry CSR_ADDRESS_MARCHID Fn.csr_scratch_read None;
   entry CSR_ADDRESS_MIMPID Fn.csr_scratch_read None;
   entry CSR_ADDRESS_MSTATUSH Fn.csr_scratch_read (Some Fn.csr_scratch_write);
   entry CSR_ADDRESS_MENVCFG Fn.csr_scratch_read (Some Fn.csr_scratch_write);
   entry CSR_ADDRESS_MENVCFGH Fn.csr_scratch_read (Some Fn.csr_scratch_write);
   entry CSR_ADDRESS_SENVCFG Fn.csr_scratch_read (Some Fn.csr_scratch_write)].

(** src/vmm/csr_machine_level_pmp.c:38-64 DEFINE_PMPADDR_ENTRY *)
Definition DEFINE_PMPADDR_ENTRY (idx : Z) : csr_registery_entry :=
  {| reg_addr := PMPADDR_BASE + idx; reg_wpri_mask := WPRI_MASK_ALL;
     reg_write := Some Fn.csr_pmpaddr_write; reg_read := Some Fn.csr_pmpaddr_read;
     reg_reset := Some Fn.csr_pmpaddr_reset |}.

(** src/vmm/csr_machine_level_pmp.c:92-106 DEFINE_PMPCFG_ENTRY *)
Definition DEFINE_PMPCFG_ENTRY (idx : Z) : csr_registery_entry :=
  {| reg_addr := PMPCFG_BASE + idx; reg_wpri_mask := WPRI_MASK_ALL;
     reg_write := Some Fn.csr_pmpcfg_write; reg_read := Some Fn.csr_pmpcfg_read;
     reg_reset := Some Fn.csr_pmpcfg_reset |}.

(** The entries each constructor registers, in order.
    src/vmm/csr_machine_level.c:466-483 csr_machine_level_init *)
Definition csr_machine_level_init : list csr_registery_entry :=
  [misa_csr_entry; mscratch_csr_entry; mvendorid_csr_entry; mhartid_csr_entry; mtvec_csr_entry;
   mcounteren_csr_entry; mie_csr_entry; mip_csr_entry; medeleg_csr_entry; mideleg_csr_entry;
   mstatus_csr_entry; mepc_csr_entry; mcause_csr_entry; mtval_csr_entry].

(** src/vmm/csr_supervisor_level.c:359-372 csr_supervisor_level_init *)
Definition csr_supervisor_level_init : list csr_registery_entry :=
  [scounteren_csr_entry; satp_csr_entry; sie_csr_entry; sip_csr_entry; sstatus_csr_entry;
   stvec_csr_entry; sscratch_csr_entry; sepc_csr_entry; stval_csr_entry; scause_csr_entry].

(** src/vmm/csr_misc.c:149-160 csr_misc_init *)
Definition csr_misc_init : list csr_registery_entry :=
  [time_csr_entry; timeh_csr_entry] ++ counter_csr_entries.

(** src/vmm/csr_machine_level_pmp.c:108-136 csr_machine_level_init *)
Definition csr_machine_level_pmp_init : list csr_registery_entry :=
  map DEFINE_PMPADDR_ENTRY (seqZ 0 16) ++ map DEFINE_PMPCFG_ENTRY (seqZ 0 4).

(** [register_csr_entry] pushes at the head. The linker decides the order of the
    constructors; no address is registered twice, so it does not matter.
    src/vmm/csr.h:41-47 register_csr_entry *)
Definition csr_registery_head : list csr_registery_entry :=
  rev (csr_machine_level_init ++ csr_machine_level_pmp_init ++ csr_misc_init ++
       csr_supervisor_level_init).

(** ** Dispatch through the function pointers *)

Section Dispatch.
Context `{Assembler}.

Definition run_write (f : Fn.csr_write_fn) (a value : Z) (h : hart) : hart :=
  match f with
  | Fn.csr_mscratch_write => csr_mscratch_write a value h
  | Fn.csr_misa_write => csr_misa_write a value h
  | Fn.csr_mtvec_write => csr_mtvec_write a value h
  | Fn.csr_mcounteren_write => csr_mcounteren_write a value h
  | Fn.csr_mie_write => csr_mie_write a value h
  | Fn.csr_mip_write => csr_mip_write a value h
  | Fn.csr_medeleg_write => csr_medeleg_write a value h
  | Fn.csr_mideleg_write => csr_mideleg_write a value h
  | Fn.csr_mstatus_write => csr_mstatus_write a value h
  | Fn.csr_mepc_write => csr_mepc_write a value h
  | Fn.csr_mcause_write => csr_mcause_write a value h
  | Fn.csr_mtval_write => csr_mtval_write a value h
  | Fn.csr_scounteren_write => csr_scounteren_write a value h
  | Fn.csr_satp_write => csr_satp_write a value h
  | Fn.csr_sie_write => csr_sie_write a value h
  | Fn.csr_sip_write => csr_sip_write a value h
  | Fn.csr_sstatus_write => csr_sstatus_write a value h
  | Fn.csr_stvec_write => csr_stvec_write a value h
  | Fn.csr_sscratch_write => csr_sscratch_write a value h
  | Fn.csr_sepc_write => csr_sepc_write a value h
  | Fn.csr_stval_write => csr_stval_write a value h
  | Fn.csr_scause_write => csr_scause_write a value h
  | Fn.csr_time_write => csr_time_write a value h
  | Fn.csr_timeh_write => csr_timeh_write a value h
  | Fn.csr_scratch_write => csr_scratch_write a value h
  | Fn.csr_pmpaddr_write => csr_pmpaddr_write a value h
  | Fn.csr_pmpcfg_write => csr_pmpcfg_write a value h
  end.

Definition run_read (f : Fn.csr_read_fn) (now a : Z) (h : hart) : Z * hart :=
  match f with
  | Fn.csr_mscratch_read => (csr_mscratch_read now a h, h)
  | Fn.csr_misa_read => (csr_misa_read now a h, h)
  | Fn.csr_mvendorid_read => (csr_mvendorid_read now a h, h)
  | Fn.csr_mhartid_read => (csr_mhartid_read now a h, h)
  | Fn.csr_mtvec_read => (csr_mtvec_read now a h, h)
  | Fn.csr_mcounteren_read => (csr_mcounteren_read now a h, h)
  | Fn.csr_mie_read => (csr_mie_read now a h, h)
  | Fn.csr_mip_read => (csr_mip_read now a h, h)
  | Fn.csr_medeleg_read => (csr_medeleg_read now a h, h)
  | Fn.csr_mideleg_read => (csr_mideleg_read now a h, h)
  | Fn.csr_mstatus_read => (csr_mstatus_read now a h, h)
  | Fn.csr_mepc_read => (csr_mepc_read now a h, h)
  | Fn.csr_mcause_read => (csr_mcause_read now a h, h)
  | Fn.csr_mtval_read => (csr_mtval_read now a h, h)
  | Fn.csr_scounteren_read => (csr_scounteren_read now a h, h)
  | Fn.csr_satp_read => (csr_satp_read now a h, h)
  | Fn.csr_sie_read => (csr_sie_read now a h, h)
  | Fn.csr_sip_read => (csr_sip_read now a h, h)
  | Fn.csr_sstatus_read => (csr_sstatus_read now a h, h)
  | Fn.csr_stvec_read => (csr_stvec_read now a h, h)
  | Fn.csr_sscratch_read => (csr_sscratch_read now a h, h)
  | Fn.csr_sepc_read => (csr_sepc_read now a h, h)
  | Fn.csr_stval_read => (csr_stval_read now a h, h)
  | Fn.csr_scause_read => (csr_scause_read now a h, h)
  | Fn.csr_time_read => csr_time_read now a h
  | Fn.csr_timeh_read => (csr_timeh_read now a h, h)
  | Fn.csr_cycle_read => (csr_cycle_read now a h, h)
  | Fn.csr_cycleh_read => (csr_cycleh_read now a h, h)
  | Fn.csr_scratch_read => (csr_scratch_read now a h, h)
  | Fn.csr_pmpaddr_read => (csr_pmpaddr_read now a h, h)
  | Fn.csr_pmpcfg_read => (csr_pmpcfg_read now a h, h)
  end.

Definition run_reset (f : Fn.csr_reset_fn) (a : Z) (h : hart) : hart :=
  match f with
  | Fn.csr_misa_reset => csr_misa_reset a h
  | Fn.csr_mvendorid_reset => csr_mvendorid_reset a h
  | Fn.csr_mtvec_reset => csr_mtvec_reset a h
  | Fn.csr_mcounteren_reset => csr_mcounteren_reset a h
  | Fn.csr_mie_reset => csr_mie_reset a h
  | Fn.csr_mip_reset => csr_mip_reset a h
  | Fn.csr_medeleg_reset => csr_medeleg_reset a h
  | Fn.csr_mideleg_reset => csr_mideleg_reset a h
  | Fn.csr_mstatus_reset => csr_mstatus_reset a h
  | Fn.csr_mepc_reset => csr_mepc_reset a h
  | Fn.csr_mcause_reset => csr_mcause_reset a h
  | Fn.csr_mtval_reset => csr_mtval_reset a h
  | Fn.csr_scounteren_reset => csr_scounteren_reset a h
  | Fn.csr_satp_reset => csr_satp_reset a h
  | Fn.csr_stvec_reset => csr_stvec_reset a h
  | Fn.csr_sscratch_reset => csr_sscratch_reset a h
  | Fn.csr_sepc_reset => csr_sepc_reset a h
  | Fn.csr_stval_reset => csr_stval_reset a h
  | Fn.csr_scause_reset => csr_scause_reset a h
  | Fn.csr_pmpaddr_reset => csr_pmpaddr_reset a h
  | Fn.csr_pmpcfg_reset => csr_pmpcfg_reset a h
  end.

(** ** Initialisation of a hart *)

(** src/vmm/hart.c:18-38 csr_registery_init *)
Fixpoint csr_registery_init (ptr : list csr_registery_entry) (h : hart) : option hart :=
  match ptr with
  | [] => Some h
  | e :: ptr =>
      if truthy (Z.land (reg_addr e) 0xfffff000) then None else
      let a := Z.land (reg_addr e) 0xfff in
      let h := set_csrs_base (<[a := {| is_valid := true; csr_addr := a; csr_blob := 0;
                 wpri_mask := reg_wpri_mask e; write := reg_write e; read := reg_read e |}]>
                 (csrs_base h)) h in
      let h := match reg_reset e with Some f => run_reset f a h | None => h end in
      csr_registery_init ptr h
  end.

Definition HART_MAGIC_WORD : Z := 0xdeadbeef.

(** The record as [memset] and the first two assignments leave it. *)
Definition fresh_hart (id : Z) : hart :=
  {| registers := replicate 32 0; pc := 0; hart_id := id; nr_translated_instructions := 0;
     pc_mappings := []; translation_cache := ∅; translation_cache_ptr := 0; csrs_base := ∅;
     hart_magic := HART_MAGIC_WORD; idelegation := 0; ienable := 0; ipending := 0;
     status := {| uie := false; sie := false; mie := false; upie := false; spie := false;
                  mpie := false; spp := false; mpp := 0 |};
     privilege_level := 0; itlb := ∅; dtlb := ∅; itlb_cap := 0; dtlb_cap := 0; tsc := 0 |}.

(** The allocations always succeed here.
    src/vmm/hart.c:39-82 hart_init *)
Definition hart_init (hart_id : Z) : option hart :=
  let h := flush_translation_cache (fresh_hart hart_id) in
  let h := set_csrs_base ∅ h in
  h ← csr_registery_init csr_registery_head h;
  Some (set_privilege_level PRIVILEGE_LEVEL_MACHINE h).

(** ** The csr instructions *)

(** [csr->read], when there is one, cut to the mask. *)
Definition csr_value (now a : Z) : prog hart Z := fun h =>
  let (v, h) := match read (csr_at h a) with Some f => run_read f now a h | None => (0, h) end in
  Ok (Z.land v (wpri_mask (csr_at h a))) h.

(** [csr->write], when there is one. *)
Definition csr_store (a value : Z) : prog hart unit := modify (fun h =>
  match write (csr_at h a) with Some f => run_write f a value h | None => h end).

(** src/vmm/csr_representation.c:10-109 riscv_generic_csr_callback *)
Definition riscv_generic_csr_callback (now instruction : Z) : prog hart unit :=
  let* h := get in
  ASSERT (hart_magic h =? HART_MAGIC_WORD) ;;;
  ASSERT (Z.land instruction 0x7f =? RISCV_OPCODE_SUPERVISOR_LEVEL) ;;;
  let* dec := of_opt (instruction_decoding_per_type (u32 instruction) ENCODING_TYPE_I) in
  let a := Z.land (imm dec) 0xfff in
  let rd := rd_index dec in
  let rs1_reg := HART_REG h (rs1_index dec) in
  let mask := wpri_mask (csr_at h a) in
  if negb (is_valid (csr_at h a)) then failed else
  match funct3 dec with
  | 0x1 | 0x5 =>
      (if truthy rd then
         let* value_to_read := csr_value now a in modify (set_HART_REG rd value_to_read)
       else ret tt) ;;;
      let value_to_write := if funct3 dec =? 0x1 then rs1_reg else rs1_index dec in
      csr_store a (Z.land value_to_write mask)
  | 0x2 | 0x6 =>
      let* value_to_read := csr_value now a in
      modify (set_HART_REG rd value_to_read) ;;;
      let value_to_set := if funct3 dec =? 0x2 then rs1_reg else Z.land (rs1_index dec) 0x1f in
      if truthy (rs1_index dec)
      then csr_store a (Z.land (Z.lor value_to_read value_to_set) mask)
      else ret tt
  | 0x3 | 0x7 =>
      let* value_to_read := csr_value now a in
      modify (set_HART_REG rd value_to_read) ;;;
      let value_to_clear := if funct3 dec =? 0x3 then rs1_reg else Z.land (rs1_index dec) 0x1f in
      if truthy (rs1_index dec)
      then csr_store a (Z.land (Z.ldiff value_to_read value_to_clear) mask)
      else ret tt
  | _ => failed
  end.
End Dispatch.

(** ** Bits of the status registers *)

Definition bit_of (b : bool) (i : Z) : Z := if b then 2 ^ i else 0.

Lemma testbit_flag b i j : 0 <= i -> 0 <= j -> Z.testbit (flag b i) j = b && (i =? j).
Proof.
  intros Hi Hj. unfold flag, int_of_bool. rewrite Z.shiftl_spec by done. destruct b; cbn [andb].
  - destruct (Z.eqb_spec i j) as [->|Hne]; [by rewrite Z.sub_diag|].
    destruct (Z.lt_ge_cases j i); [by rewrite Z.testbit_neg_r by lia|].
    change 1 with (Z.ones 1). rewrite Z.testbit_ones by lia.
    destruct (Z.ltb_spec (j - i) 1); [lia|apply andb_false_r].
  - apply Z.bits_0.
Qed.

Lemma value_bit_testbit v i : 0 <= i -> value_bit v i = Z.testbit v i.
Proof.
  intros Hi. unfold value_bit. change 0x1 with (Z.shiftl 1 0).
  change (truthy (Z.land ?x (Z.shiftl 1 0))) with (bit_set x 0).
  rewrite bit_set_testbit, Z.shiftr_spec by lia. done.
Qed.

Definition low_bits : list Z := seqZ 0 16.

Lemma eq_low_bits x y :
  is_uint 16 x -> is_uint 16 y -> Forall (fun j => Z.testbit x j = Z.testbit y j) low_bits -> x = y.
Proof.
  intros Hx Hy HF. apply Z.bits_inj'. intros j Hj. destruct (Z.lt_ge_cases j 16).
  - rewrite Forall_forall in HF. apply HF, elem_of_seqZ. lia.
  - by rewrite (testbit_high 16 x), (testbit_high 16 y) by (done || lia).
Qed.

Lemma testbit_mpp v j :
  0 <= j -> Z.testbit (Z.shiftl (Z.land (Z.shiftr v 11) 0x3) 11) j = Z.testbit v j && Z.testbit 0x1800 j.
Proof.
  intros Hj. rewrite Z.shiftl_spec by done. change 0x1800 with (Z.shiftl 3 11).
  rewrite Z.shiftl_spec by done. destruct (Z.lt_ge_cases j 11).
  - rewrite !(Z.testbit_neg_r _ (j - 11)) by lia. by rewrite andb_false_r.
  - rewrite Z.land_spec, Z.shiftr_spec by lia. by replace (j - 11 + 11) with j by lia.
Qed.

Lemma mpp_range m : 0 <= m < 4 -> is_uint 16 (Z.shiftl m 11).
Proof. intros Hm. rewrite Z.shiftl_mul_pow2 by lia. unfold is_uint. lia. Qed.

Lemma word_nonneg x : is_uint 16 x -> 0 <= x.
Proof. by intros []. Qed.

Ltac word_range :=
  repeat first [assumption | apply word_nonneg | apply lor_range; [lia| |] | apply flag_range; [lia|lia] | apply mpp_range; lia
               | apply ldiff_range; [lia|] | apply land_range; [lia| |done] | by unfold is_uint ].

(** Evaluates the bits of constants and the tests between constants. *)
Ltac known_bits :=
  repeat match goal with
    | |- context [Z.testbit ?x (?a - ?b)] =>
        let k := eval vm_compute in (a - b) in
        lazymatch k with
        | Z.neg _ => change (Z.testbit x (a - b)) with false
        | _ => change (a - b) with k
        end
    | |- context [?a =? ?b] => let r := eval vm_compute in (a =? b) in change (a =? b) with r
    | |- context [Z.testbit (Z.pos ?p) ?k] =>
        let r := eval vm_compute in (Z.testbit (Z.pos p) k) in change (Z.testbit (Z.pos p) k) with r
    end.

(** Equality of words of flags, bit by bit. *)
Ltac by_flags :=
  apply eq_low_bits;
  [ word_range | word_range |
    let l := eval vm_compute in low_bits in change low_bits with l; repeat constructor;
    rewrite ?Z.lor_spec, ?Z.land_spec, ?Z.ldiff_spec, ?Z.lor_spec, ?testbit_flag, ?testbit_mpp, ?Z.shiftl_spec,
      ?Z.testbit_0_l, ?value_bit_testbit by lia;
    known_bits; try btauto ].

(** The same where the other bits are not known to be zero. *)
Lemma eq_bits x y :
  (forall j, 16 <= j -> Z.testbit x j = Z.testbit y j) ->
  Forall (fun j => Z.testbit x j = Z.testbit y j) low_bits -> x = y.
Proof.
  intros Hh HF. apply Z.bits_inj'. intros j Hj. destruct (Z.lt_ge_cases j 16); [|by apply Hh].
  rewrite Forall_forall in HF. apply HF, elem_of_seqZ. lia.
Qed.

Ltac by_bits :=
  apply eq_bits;
  [ let j := fresh "j" in let Hj := fresh "Hj" in intros j Hj;
    rewrite ?Z.lor_spec, ?Z.land_spec, ?Z.ldiff_spec, ?Z.lor_spec, ?Z.land_spec, ?Z.ldiff_spec,
      ?testbit_put_bit by lia;
    repeat match goal with
      | |- context [?a =? j] => destruct (Z.eqb_spec a j); [lia|]
      | |- context [Z.testbit (Z.pos ?p) j] =>
          rewrite (testbit_high 16 (Z.pos p) j) by (done || lia)
      end; try btauto
  | let l := eval vm_compute in low_bits in change low_bits with l; repeat constructor;
    rewrite ?Z.lor_spec, ?Z.land_spec, ?Z.ldiff_spec, ?Z.lor_spec, ?Z.land_spec, ?Z.ldiff_spec,
      ?testbit_put_bit, ?value_bit_testbit by lia;
    known_bits; try btauto ].

Definition status_ok (h : hart) : Prop := 0 <= mpp (status h) < 4.

Section Views.
Context `{Assembler}.

Lemma mpp_write_range v : 0 <= Z.land (Z.shiftr v 11) 0x3 < 4.
Proof. change 0x3 with (Z.ones 2). rewrite Z.land_ones by lia. by apply Z.mod_pos_bound. Qed.

Lemma mstatus_write_read now a v h :
  is_uint 32 v -> csr_mstatus_read now a (csr_mstatus_write a v h) = Z.land v 0x19bb.
Proof.
  intros [Hv _]. unfold csr_mstatus_read, csr_mstatus_write.
  cbn [status set_status uie sie mie upie spie mpie spp mpp].
  pose proof (mpp_write_range v). rewrite Z.lor_0_l. by_flags.
Qed.

Lemma sstatus_view now a a' h :
  status_ok h -> csr_sstatus_read now a h = Z.land (csr_mstatus_read now a' h) 0x133.
Proof.
  intros Hs. unfold csr_sstatus_read, csr_mstatus_read, status_ok in *. rewrite !Z.lor_0_l. by_flags.
Qed.

Lemma sstatus_write_view now a a' v h :
  status_ok h -> 0 <= v ->
  csr_mstatus_read now a (csr_sstatus_write a' v h) =
  Z.lor (Z.ldiff (csr_mstatus_read now a h) 0x133) (Z.land v 0x133).
Proof.
  intros Hs Hv. unfold csr_sstatus_write, csr_mstatus_read, status_ok in *.
  cbn [status set_status uie sie mie upie spie mpie spp mpp]. rewrite !Z.lor_0_l. by_flags.
Qed.

Lemma sie_view now a h :
  0 <= ienable h -> csr_sie_read now a h = Z.land (ienable h) 0x333.
Proof. intros Hi. unfold csr_sie_read. rewrite !Z.lor_0_l. by_flags. Qed.

Lemma sip_view now a h :
  0 <= ipending h -> csr_sip_read now a h = Z.land (ipending h) 0x222.
Proof. intros Hi. unfold csr_sip_read. rewrite !Z.lor_0_l. by_flags. Qed.

Lemma sie_write_view a v h :
  ienable (csr_sie_write a v h) = Z.lor (Z.ldiff (ienable h) 0x222) (Z.land v 0x222).
Proof. unfold csr_sie_write. cbn [ienable set_ienable]. by_bits. Qed.

Lemma sip_write_view a v h :
  ipending (csr_sip_write a v h) = Z.lor (Z.ldiff (ipending h) 0x2) (Z.land v 0x2).
Proof. unfold csr_sip_write. cbn [ipending set_ipending]. by_bits. Qed.

Lemma mip_write_view a v h :
  ipending (csr_mip_write a v h) = Z.lor (Z.ldiff v 0x888) (Z.land (ipending h) 0x888).
Proof. done. Qed.
End Views.

(** ** Helper lemmas *)

Section Facts.
Context `{Assembler}.

(** An entry up to its value. *)
Definition shape (e : csr_entry) : csr_entry := set_csr_blob 0 e.

Definition registered (e : csr_registery_entry) : csr_entry :=
  {| is_valid := true; csr_addr := reg_addr e; csr_blob := 0; wpri_mask := reg_wpri_mask e;
     write := reg_write e; read := reg_read e |}.

Lemma csr_at_put h a v b :
  csr_at (put_csr_blob a v h) b = if b =? a then set_csr_blob v (csr_at h a) else csr_at h b.
Proof.
  unfold csr_at, put_csr_blob, set_csrs_base; cbn [csrs_base].
  destruct (Z.eqb_spec b a) as [->|Hne].
  - by rewrite lookup_insert_eq.
  - by rewrite lookup_insert_ne by done.
Qed.

Lemma shape_put h a v b : shape (csr_at (put_csr_blob a v h) b) = shape (csr_at h b).
Proof. rewrite csr_at_put. by destruct (Z.eqb_spec b a) as [->|]. Qed.

Lemma run_reset_shape f a h b : shape (csr_at (run_reset f a h) b) = shape (csr_at h b).
Proof. destruct f; try apply shape_put; try done. unfold run_reset, csr_misa_reset. by rewrite !shape_put. Qed.

Definition legal_entry (e : csr_registery_entry) : Prop := 0 <= reg_addr e < 4096.
#[local] Instance legal_entry_dec e : Decision (legal_entry e).
Proof. unfold legal_entry. apply _. Defined.

Lemma legal_address a : 0 <= a < 4096 -> truthy (Z.land a 0xfffff000) = false /\ Z.land a 0xfff = a.
Proof.
  intros Ha. assert (HL : Z.land a 0xfff = a).
  { change 0xfff with (Z.ones 12). rewrite Z.land_ones by lia. by apply Z.mod_small. }
  split; [|done]. assert (E0 : Z.land a 0xfffff000 = 0).
  { rewrite <- HL, <- Z.land_assoc. change (Z.land 0xfff 0xfffff000) with 0. apply Z.land_0_r. }
  by rewrite E0.
Qed.

Lemma csr_registery_init_spec ptr : forall h,
  Forall legal_entry ptr -> NoDup (map reg_addr ptr) ->
  exists h', csr_registery_init ptr h = Some h' /\
    (forall e, e ∈ ptr -> shape (csr_at h' (reg_addr e)) = registered e) /\
    (forall b, b ∉ map reg_addr ptr -> shape (csr_at h' b) = shape (csr_at h b)).
Proof.
  induction ptr as [|e ptr IH]; intros h HL HN.
  { exists h. split; [done|]. split; [|done]. by intros e ?%elem_of_nil. }
  apply Forall_cons in HL as [He HL]. cbn [map] in HN. apply NoDup_cons in HN as [Hnew HN].
  destruct (legal_address _ He) as [E1 E2]. cbn [csr_registery_init]. rewrite E1, E2.
  match goal with |- context [csr_registery_init ptr ?h0] =>
    destruct (IH h0 HL HN) as (h' & -> & Hin & Hout); set (hr := h0) in * end.
  assert (Hr : forall b, shape (csr_at hr b) = if decide (b = reg_addr e) then registered e else shape (csr_at h b)).
  { intros b.
    assert (Hb : shape (csr_at (set_csrs_base (<[reg_addr e := registered e]> (csrs_base h)) h) b) =
                 if decide (b = reg_addr e) then registered e else shape (csr_at h b)).
    { unfold csr_at, set_csrs_base. cbn [csrs_base]. destruct (decide _) as [->|].
      - by rewrite lookup_insert_eq.
      - by rewrite lookup_insert_ne by done. }
    subst hr. destruct (reg_reset e); [rewrite run_reset_shape|]; exact Hb. }
  exists h'. split; [done|]. split.
  - intros e' [->|Hin']%elem_of_cons; [|by apply Hin].
    rewrite Hout by done. rewrite Hr. by destruct (decide _).
  - intros b Hb. cbn [map] in Hb. apply not_elem_of_cons in Hb as [Hne Hb].
    rewrite Hout by done. rewrite Hr. by destruct (decide _).
Qed.

Lemma registry_legal : Forall legal_entry csr_registery_head.
Proof. apply (bool_decide_unpack _). by vm_compute. Qed.

Lemma registry_nodup : NoDup (map reg_addr csr_registery_head).
Proof. apply (bool_decide_unpack _). by vm_compute. Qed.

(** *** No lookup hits after an invalidation *)

Lemma land_index x cap : 0 < cap <= 2 ^ 32 -> 0 <= x -> 0 <= Z.land x (u32 (cap - 1)) < cap.
Proof.
  intros Hc Hx. rewrite u32_id by (unfold is_uint; lia).
  split; [apply Z.land_nonneg; lia|].
  assert (cap - 1 - Z.land x (cap - 1) = Z.ldiff (cap - 1) (Z.land x (cap - 1))) as HS.
  { apply Z.sub_nocarry_ldiff, Z.bits_inj'. intros i Hi. rewrite Z.ldiff_spec, Z.land_spec, Z.bits_0.
    destruct (Z.testbit x i), (Z.testbit (cap - 1) i); done. }
  assert (0 <= Z.ldiff (cap - 1) (Z.land x (cap - 1))); [apply Z.ldiff_nonneg|]; lia.
Qed.

Lemma invalidate_at cap t i : 0 <= i < cap -> entry_valid (tlb_at (invalidate_tlb cap t) i) = false.
Proof.
  intros Hi. unfold tlb_at, invalidate_tlb. rewrite map_lookup_imap.
  destruct (t !! i) as [e|]; cbn; [|done].
  by destruct (Z.leb_spec 0 i), (Z.ltb_spec i cap); try lia.
Qed.

Lemma invalidate_misses cap t va :
  0 < cap <= 2 ^ 32 -> VA_TO_TLB_ENTRY (invalidate_tlb cap t) cap va = None.
Proof.
  intros Hc. unfold VA_TO_TLB_ENTRY. cbv zeta.
  assert (forall s, 0 <= s -> 0 <= Z.land (Z.shiftr (u32 va) s) (u32 (cap - 1)) < cap) as Hi.
  { intros s Hs. apply land_index; [done|]. apply Z.shiftr_nonneg. apply u32_range. }
  rewrite invalidate_at by by apply Hi. cbn [negb]. by rewrite invalidate_at by by apply Hi.
Qed.

(** *** What does not look at the privilege level *)

Definition map_res {S A} (f : S -> S) (r : res S A) : res S A :=
  match r with
  | Ok a s => Ok a (f s)
  | Trapped s => Trapped (f s)
  | Exited c s => Exited c (f s)
  | Failed => Failed
  end.

Definition blind {A} (m : prog hart A) : Prop :=
  forall pl h, m (set_privilege_level pl h) = map_res (set_privilege_level pl) (m h).

Lemma blind_bind {A B} (m : prog hart A) (k : A -> prog hart B) :
  blind m -> (forall a, blind (k a)) -> blind (bind m k).
Proof.
  intros Hm Hk pl h. unfold bind. rewrite Hm. destruct (m h); cbn; try done. apply Hk.
Qed.
Lemma blind_get {A} (k : hart -> prog hart A) :
  (forall pl h, k (set_privilege_level pl h) = k h) -> (forall h, blind (k h)) -> blind (bind get k).
Proof. intros Hk Hb pl h. unfold bind, get. rewrite Hk. apply Hb. Qed.
Lemma blind_ASSERT b : blind (ASSERT b).
Proof. by destruct b. Qed.
Lemma blind_of_opt {A} (o : option A) : blind (of_opt o).
Proof. by destruct o. Qed.
Lemma blind_ret {A} (a : A) : blind (ret a).
Proof. done. Qed.
Lemma blind_failed {A} : blind (@failed hart A).
Proof. done. Qed.
Lemma blind_set_HART_REG i v : blind (modify (set_HART_REG i v)).
Proof. done. Qed.
Lemma blind_value now a : blind (csr_value now a).
Proof.
  intros pl h. unfold csr_value. change (csr_at (set_privilege_level pl h) a) with (csr_at h a).
  destruct (read (csr_at h a)) as [f|]; [by destruct f|done].
Qed.
Lemma blind_store a v : blind (csr_store a v).
Proof.
  intros pl h. unfold csr_store, modify. change (csr_at (set_privilege_level pl h) a) with (csr_at h a).
  destruct (write (csr_at h a)) as [f|]; [by destruct f|done].
Qed.
End Facts.

(** ** Properties *)

Section Properties.
Context `{Assembler}.

(** What a csr instruction makes of the old value and its operand. *)
Definition csr_op (f3 old src : Z) : Z :=
  match f3 mod 4 with 1 => src | 2 => Z.lor old src | _ => Z.ldiff old src end.

(** C20. The six csr instructions. On a registered csr, the callback reads rs1, reads
    the csr unless it is a csrrw to x0, puts what it read in rd, and then writes rs1
    or the immediate (csrrw), or the old value with those bits set (csrrs) or cleared
    (csrrc), unless rs1 (the immediate) of a set or clear is zero. Values are cut to
    the mask of the csr both ways. *)
Theorem csr_callback_rmw now i h :
  let a := field 31 20 i in let f3 := f_funct3 i in let rd := f_rd i in let rs1 := f_rs1 i in
  hart_magic h = HART_MAGIC_WORD -> is_uint 32 i -> f_opcode i = 0x73 -> f3 mod 4 <> 0 ->
  is_valid (csr_at h a) = true ->
  let src := if f3 <? 4 then HART_REG h rs1 else rs1 in
  let reads := negb (f3 mod 4 =? 1) || negb (rd =? 0) in
  let writes := (f3 mod 4 =? 1) || negb (rs1 =? 0) in
  exists old h1, (if reads then csr_value now a h = Ok old h1 else h1 = h) /\
    riscv_generic_csr_callback now i h =
    (if writes then csr_store a (Z.land (csr_op f3 old src) (wpri_mask (csr_at h a))) else ret tt)
      (if reads then set_HART_REG rd old h1 else h1).
Proof.
  intros a f3 rd rs1 Hm Hi Hop Hf3 Hv src reads writes.
  destruct (instruction_decoding_per_type (u32 i) ENCODING_TYPE_I) as [d|] eqn:ED; [|done].
  pose proof ED as HD. rewrite (u32_id i Hi) in HD.
  apply decode_I in HD as (Erd & Ers & Ef & Ei & _ & _).
  assert (Ha : Z.land (imm d) 0xfff = a).
  { rewrite Ei. apply legal_address. exact (field_range 31 20 i ltac:(lia)). }
  assert (H5 : Z.land (rs1_index d) 0x1f = rs1).
  { rewrite Ers. change 0x1f with (Z.ones 5). rewrite Z.land_ones by lia. apply Z.mod_small.
    exact (field_range 19 15 i ltac:(lia)). }
  unfold riscv_generic_csr_callback, bind at 1, get. rewrite Hm, opcode_field, Hop.
  unfold ASSERT, bind at 1 2, ret. cbn [Z.eqb Pos.eqb HART_MAGIC_WORD RISCV_OPCODE_SUPERVISOR_LEVEL].
  rewrite ED. cbn [of_opt]. unfold bind at 1, ret. cbv zeta. rewrite Ha, H5, Hv, Erd, Ers, Ef. cbn [negb].
  fold f3 rd rs1. pose proof (field_range 14 12 i ltac:(lia)) as Hrange.
  change (field 14 12 i) with f3 in Hrange.
  destruct (csr_value now a h) as [old h1|h1|c h1|] eqn:EV;
    [|unfold csr_value in EV; by destruct (match read _ with Some _ => _ | None => _ end)..].
  assert (f3 = 1 \/ f3 = 2 \/ f3 = 3 \/ f3 = 5 \/ f3 = 6 \/ f3 = 7) as Hcases.
  { unfold is_uint in Hrange. change (2 ^ (14 - 12 + 1)) with 8 in Hrange.
    assert (f3 <> 0) by (intros ->; done). assert (f3 <> 4) by (intros ->; done). lia. }
  destruct reads eqn:ER; [exists old, h1|exists 0, h]; (split; [done|]);
    subst reads writes src; clearbody f3 rd rs1 a;
    destruct Hcases as [->|[->|[->|[->|[->| ->]]]]]; destruct (rd =? 0) eqn:E1, (rs1 =? 0) eqn:E2;
    try discriminate ER; unfold truthy, bind, ret, modify; rewrite ?E1, ?E2; cbn [negb];
    rewrite ?EV; reflexivity.
Qed.

(** Supervisor registers are restricted views. Writing mstatus and reading it back
    keeps exactly the implemented bits; sstatus, sie and sip read the machine
    registers under their masks; writing them changes exactly the supervisor bits of
    the machine registers; and a write to mip cannot change the machine-level pending
    bits, which belong to the devices. *)
Theorem supervisor_views now a a' v h :
  is_uint 32 v -> status_ok h -> 0 <= ienable h -> 0 <= ipending h ->
  csr_mstatus_read now a (csr_mstatus_write a v h) = Z.land v 0x19bb /\
  csr_sstatus_read now a h = Z.land (csr_mstatus_read now a' h) 0x133 /\
  csr_mstatus_read now a' (csr_sstatus_write a v h) =
    Z.lor (Z.ldiff (csr_mstatus_read now a' h) 0x133) (Z.land v 0x133) /\
  csr_sie_read now a h = Z.land (csr_mie_read now a' h) 0x333 /\
  csr_mie_read now a' (csr_sie_write a v h) =
    Z.lor (Z.ldiff (csr_mie_read now a' h) 0x222) (Z.land v 0x222) /\
  csr_sip_read now a h = Z.land (csr_mip_read now a' h) 0x222 /\
  csr_mip_read now a' (csr_sip_write a v h) =
    Z.lor (Z.ldiff (csr_mip_read now a' h) 0x2) (Z.land v 0x2) /\
  Z.land (csr_mip_read now a' (csr_mip_write a v h)) 0x888 = Z.land (csr_mip_read now a' h) 0x888.
Proof.
  intros Hv Hs Hie Hip. unfold csr_mie_read, csr_mip_read.
  split; [by apply mstatus_write_read|]. split; [by apply sstatus_view|].
  split; [apply sstatus_write_view; [done|by destruct Hv]|]. split; [by apply sie_view|].
  split; [apply sie_write_view|]. split; [by apply sip_view|]. split; [apply sip_write_view|].
  rewrite mip_write_view. by_bits.
Qed.

(** A write to satp takes effect at once: afterwards no virtual address hits either
    TLB and the code cache is empty, so nothing translated through the old page
    tables is used again. *)
Theorem satp_write_flushes a v va h :
  0 < itlb_cap h <= 2 ^ 32 -> 0 < dtlb_cap h <= 2 ^ 32 ->
  let h' := csr_satp_write a v h in
  blob h' a = v /\ VA_TO_TLB_ENTRY (itlb h') (itlb_cap h') va = None /\
  VA_TO_TLB_ENTRY (dtlb h') (dtlb_cap h') va = None /\
  nr_translated_instructions h' = 0 /\ translation_cache_ptr h' = 0 /\ registers h' = registers h.
Proof.
  intros Hi Hd h'.
  split; [change (blob (put_csr_blob a v h) a = v); rewrite blob_put; by rewrite Z.eqb_refl|].
  split; [by apply invalidate_misses|]. split; [by apply invalidate_misses|]. done.
Qed.

(** Hart initialisation. [hart_init] succeeds, at machine level with an empty code
    cache; afterwards exactly the registered addresses are valid csrs, each with the
    mask and the callbacks of its registration, whatever order the constructors ran
    in. *)
Theorem hart_init_registers id ptr :
  Permutation ptr csr_registery_head ->
  exists h, csr_registery_init ptr (flush_translation_cache (fresh_hart id)) = Some h /\
    (ptr = csr_registery_head ->
       hart_init id = Some (set_privilege_level PRIVILEGE_LEVEL_MACHINE h)) /\
    (forall e, e ∈ ptr -> shape (csr_at h (reg_addr e)) = registered e) /\
    (forall a, is_valid (csr_at h a) = true -> a ∈ map reg_addr ptr).
Proof.
  intros HP.
  destruct (csr_registery_init_spec ptr (flush_translation_cache (fresh_hart id))) as (h & E & Hin & Hout).
  - rewrite HP. apply registry_legal.
  - rewrite (Permutation_map reg_addr HP). apply registry_nodup.
  - exists h. split; [done|]. split; [intros ->; unfold hart_init|].
    { change (set_csrs_base ∅ (flush_translation_cache (fresh_hart id)))
        with (flush_translation_cache (fresh_hart id)). by rewrite E. }
    split; [done|]. intros a Ha. destruct (decide (a ∈ map reg_addr ptr)) as [|Hn]; [done|].
    specialize (Hout a Hn). apply (f_equal is_valid) in Hout.
    unfold shape, set_csr_blob in Hout. cbn [is_valid] in Hout. rewrite Ha in Hout. done.
Qed.

(** The callback never looks at the privilege level: at every level a csr
    instruction has the outcome it has at machine level, so user code reads and
    writes machine-level csrs. *)
Theorem csr_ignores_privilege now i pl h :
  riscv_generic_csr_callback now i (set_privilege_level pl h) =
  map_res (set_privilege_level pl) (riscv_generic_csr_callback now i h).
Proof.
  revert pl h. change (blind (riscv_generic_csr_callback now i)). unfold riscv_generic_csr_callback.
  apply blind_get; [reflexivity|]. intros h0.
  apply blind_bind; [apply blind_ASSERT|]. intros _. apply blind_bind; [apply blind_ASSERT|]. intros _.
  apply blind_bind; [apply blind_of_opt|]. intros d. cbv zeta.
  destruct (negb (is_valid _)); [apply blind_failed|].
  assert (forall (b : bool) a v, blind (if b then csr_store a v else ret tt)) as Hs.
  { intros [] a v; [apply blind_store|apply blind_ret]. }
  repeat match goal with |- blind (match ?x with _ => _ end) => destruct x end;
    try apply blind_failed; repeat (apply blind_bind; intros); try apply Hs;
    try apply blind_value; try apply blind_set_HART_REG; try apply blind_store.
  all: case_test; [apply blind_bind; intros; [apply blind_value|apply blind_set_HART_REG]|apply blind_ret].
Qed.

(** A reserved MPP stops the emulator. Machine code that writes 2, the reserved
    level, into mstatus.MPP and executes mret reaches the failed assertion of
    [adjust_mstatus_upon_mret]. *)
Theorem reserved_mpp_stops a v h :
  privilege_level h = PRIVILEGE_LEVEL_MACHINE -> Z.land (Z.shiftr v 11) 0x3 = 2 ->
  mret_callback (csr_mstatus_write a v h) = Failed.
Proof.
  intros Hp Hv. unfold mret_callback, assert_hart_running_in_mmode, bind, gets.
  change (privilege_level (csr_mstatus_write a v h)) with (privilege_level h). rewrite Hp.
  cbn [Z.eqb Pos.eqb PRIVILEGE_LEVEL_MACHINE negb]. unfold ret, adjust_mstatus_upon_mret, bind, get.
  unfold csr_mstatus_write. cbn [status set_status mpp]. by rewrite Hv.
Qed.
End Properties.

Module Witness.
Import Concrete.
#[local] Existing Instance sizes.

Definition ready : hart := default (empty_hart 0) (hart_init 0).

(** csrrs a0, mstatus, a1 with a1 = 8. *)
Lemma csr_callback_rmw_witness :
  exists old h1, csr_value 5 0x300 (set_HART_REG 11 8 ready) = Ok old h1 /\
    riscv_generic_csr_callback 5 0x3005a573 (set_HART_REG 11 8 ready) =
    csr_store 0x300 (Z.land (Z.lor old 8) 0x19aa) (set_HART_REG 10 old h1).
Proof.
  apply (csr_callback_rmw 5 0x3005a573 (set_HART_REG 11 8 ready)); try by vm_compute.
Defined.

Lemma supervisor_views_witness :
  csr_mstatus_read 0 0x300 (csr_mstatus_write 0x300 0x1888 ready) = 0x1888.
Proof.
  apply (supervisor_views 0 0x300 0x300 0x1888 ready); by vm_compute.
Defined.

Lemma satp_write_flushes_witness :
  VA_TO_TLB_ENTRY (itlb (csr_satp_write 0x180 0x80080000 (empty_hart 0))) 0x4000 4 = None.
Proof. apply (satp_write_flushes 0x180 0x80080000 4 (empty_hart 0)); by vm_compute. Defined.

Lemma hart_init_registers_witness :
  exists h, csr_registery_init csr_registery_head (flush_translation_cache (fresh_hart 0)) = Some h /\
    (csr_registery_head = csr_registery_head ->
       hart_init 0 = Some (set_privilege_level PRIVILEGE_LEVEL_MACHINE h)) /\
    (forall e, e ∈ csr_registery_head -> shape (csr_at h (reg_addr e)) = registered e) /\
    (forall a, is_valid (csr_at h a) = true -> a ∈ map reg_addr csr_registery_head).
Proof. apply (hart_init_registers 0 csr_registery_head). reflexivity. Defined.

Lemma reserved_mpp_stops_witness : mret_callback (csr_mstatus_write 0x300 0x1000 ready) = Failed.
Proof. apply (reserved_mpp_stops 0x300 0x1000 ready); by vm_compute. Defined.
End Witness.
