(* ===== verification/Interrupt.v ===== *)
(** * Interrupt delivery and the guest clock

    Models src/vmm/hart_interrupt.c: which interrupts are deliverable, the refresh of
    the pending bits from the devices, the pump that runs between translation units,
    and the idling of a hart in wfi. The console's host side is the machine's
    [keyboard]: what each poll of the terminal will read.

    Proved here: the pump takes exactly the highest-priority interrupt that the
    privileged architecture says is deliverable, and none when there is none; a hart
    that waits for its timer wakes, with the clock at the deadline. *)

From S2P Require Import Prelude Monad PmRegion X86 Hart Trap Clint Plic Uart Machine.
Local Open Scope Z_scope.

Definition INTERRUPT_SUPERVISOR_SOFTWARE : Z := 0x1.
Definition INTERRUPT_MACHINE_SOFTWARE : Z := 0x3.
Definition INTERRUPT_SUPERVISOR_TIMER : Z := 0x5.
Definition INTERRUPT_MACHINE_TIMER : Z := 0x7.
Definition INTERRUPT_SUPERVISOR_EXTERNAL : Z := 0x9.
Definition INTERRUPT_MACHINE_EXTERNAL : Z := 0xb.

(** src/vmm/hart_interrupt.c:19-24 set_ticks_per_translation_unit *)
Definition set_ticks (ticks : Z) : prog machine unit :=
  ASSERT (0 <? ticks) ;;; modify (set_ticks_per_translation_unit ticks).

(** src/vmm/hart_interrupt.c:26-35 interrupt_target_privilege_level *)
Definition interrupt_target_privilege_level (vector : Z) : prog hart Z :=
  ASSERT (vector <? 12) ;;;
  gets (fun h => if truthy (Z.land (idelegation h) (Z.shiftl 1 vector))
                 then PRIVILEGE_LEVEL_SUPERVISOR else PRIVILEGE_LEVEL_MACHINE).

(** src/vmm/hart_interrupt.c:37-64 is_interrupt_deliverable *)
Definition is_interrupt_deliverable (vector : Z) : prog hart bool :=
  let* target_pl := interrupt_target_privilege_level vector in
  let* h := get in
  let current_pl := privilege_level h in
  if negb (truthy (Z.land (ipending h) (Z.shiftl 1 vector))) ||
     negb (truthy (Z.land (ienable h) (Z.shiftl 1 vector))) then ret false
  else if target_pl <? current_pl then ret false
  else if current_pl <? target_pl then ret true
  else ret (if target_pl =? PRIVILEGE_LEVEL_MACHINE then mie (status h) else sie (status h)).

Definition CONSOLE_POLL_INTERVAL : Z := 4096.

(** A poll of the host's terminal. *)
Definition poll_console : prog machine unit := fun m =>
  if negb (console_attached (uart m)) then Ok tt m else
  let buf := default [] (head (keyboard m)) in
  let (quit, u) := uart_poll_input buf (uart m) in
  let m := set_keyboard (tail (keyboard m)) (set_uart u m) in
  if quit then Exited 0 m else Ok tt m.

(** [if (!poll_countdown--)].
    src/vmm/hart_interrupt.c:91-95 refresh_device_interrupts *)
Definition poll_when_due : prog machine unit :=
  let* countdown := gets poll_countdown in
  modify (set_poll_countdown (u32 (countdown - 1))) ;;;
  if countdown =? 0
  then modify (set_poll_countdown CONSOLE_POLL_INTERVAL) ;;; poll_console
  else ret tt.

(** src/vmm/hart_interrupt.c:88-100 refresh_device_interrupts *)
Definition refresh_device_interrupts : prog machine unit :=
  poll_when_due ;;;
  try_modify (fun m => p ← uart_refresh_interrupt (uart m) (plic m); Some (set_plic p m)) ;;;
  modify (fun m => set_m_hart (clint_refresh_pending (clint m) (m_hart m)) m) ;;;
  modify (fun m => set_m_hart (plic_refresh_pending (plic m) (m_hart m)) m).

Definition delivery_order : list Z :=
  [INTERRUPT_MACHINE_EXTERNAL; INTERRUPT_MACHINE_SOFTWARE; INTERRUPT_MACHINE_TIMER;
   INTERRUPT_SUPERVISOR_EXTERNAL; INTERRUPT_SUPERVISOR_SOFTWARE; INTERRUPT_SUPERVISOR_TIMER].

Section Pump.
Context `{Assembler}.

(** src/vmm/hart_interrupt.c:66-74 deliver_interrupt *)
Definition deliver_interrupt {A} (vector : Z) : prog hart A :=
  let* target_pl := interrupt_target_privilege_level vector in
  raise_trap_raw target_pl (Z.lor 0x80000000 vector) 0.

(** src/vmm/hart_interrupt.c:131-137 pump_devices_and_deliver_interrupts *)
Fixpoint deliver_first (order : list Z) : prog hart unit :=
  match order with
  | [] => ret tt
  | vector :: order =>
      let* deliverable := is_interrupt_deliverable vector in
      if deliverable then deliver_interrupt vector else deliver_first order
  end.

(** src/vmm/hart_interrupt.c:111-138 pump_devices_and_deliver_interrupts *)
Definition pump_devices_and_deliver_interrupts : prog machine unit :=
  modify (fun m => set_clint (clint_advance_time (ticks_per_translation_unit m) (clint m)) m) ;;;
  refresh_device_interrupts ;;;
  on_hart (deliver_first delivery_order).

(** src/vmm/hart_interrupt.c:150-163 hart_idle *)
Fixpoint idle_rounds (n : nat) : prog machine unit :=
  match n with
  | O => ret tt
  | S n =>
      poll_console ;;;
      refresh_device_interrupts ;;;
      let* awake := gets (fun m => truthy (Z.land (ipending (m_hart m)) (ienable (m_hart m)))) in
      if awake then ret tt else
      modify (fun m => set_clint (clint_skip_to_next_deadline (clint m)).2 m) ;;;
      idle_rounds n
  end.

(** src/vmm/hart_interrupt.c:146-164 hart_idle *)
Definition hart_idle : prog machine unit := idle_rounds 64.

(** src/vmm/translate_privileged_instr.c:222-230 wfi_callback *)
Definition wfi_callback : prog machine unit := hart_idle.
End Pump.

(** ** Specification *)

(** The level an interrupt is taken at, and whether it is taken now, as the
    privileged architecture defines them. *)
Definition interrupt_level (h : hart) (v : Z) : Z :=
  if Z.testbit (idelegation h) v then PRIVILEGE_LEVEL_SUPERVISOR else PRIVILEGE_LEVEL_MACHINE.

Definition interrupt_ready (h : hart) (v : Z) : bool :=
  Z.testbit (ipending h) v && Z.testbit (ienable h) v &&
  ((privilege_level h <? interrupt_level h v) ||
   ((privilege_level h =? interrupt_level h v) &&
    (if interrupt_level h v =? PRIVILEGE_LEVEL_MACHINE then mie (status h) else sie (status h)))).

Section Facts.
Context `{Assembler}.

Lemma target_eq v h :
  0 <= v < 12 -> interrupt_target_privilege_level v h = Ok (interrupt_level h v) h.
Proof.
  intros Hv. unfold interrupt_target_privilege_level, bind, ASSERT, gets, interrupt_level.
  destruct (Z.ltb_spec v 12); [|lia]. unfold ret.
  change (truthy (Z.land ?x (Z.shiftl 1 v))) with (bit_set x v). by rewrite bit_set_testbit by lia.
Qed.

Lemma deliverable_eq v h :
  0 <= v < 12 -> is_interrupt_deliverable v h = Ok (interrupt_ready h v) h.
Proof.
  intros Hv. unfold is_interrupt_deliverable, bind. rewrite target_eq by done. unfold get.
  change (truthy (Z.land ?x (Z.shiftl 1 v))) with (bit_set x v). rewrite !bit_set_testbit by lia.
  unfold interrupt_ready.
  destruct (Z.testbit (ipending h) v), (Z.testbit (ienable h) v); cbn [negb orb andb]; try done.
  destruct (Z.ltb_spec (interrupt_level h v) (privilege_level h)) as [Hlt|Hge].
  { destruct (Z.ltb_spec (privilege_level h) (interrupt_level h v)); [lia|].
    destruct (Z.eqb_spec (privilege_level h) (interrupt_level h v)); [lia|]. done. }
  destruct (Z.ltb_spec (privilege_level h) (interrupt_level h v)); [done|].
  destruct (Z.eqb_spec (privilege_level h) (interrupt_level h v)); [|lia]. done.
Qed.

Lemma deliver_first_eq order h :
  Forall (fun v => 0 <= v < 12) order ->
  deliver_first order h =
  match find (interrupt_ready h) order with
  | Some v => raise_trap_raw (interrupt_level h v) (Z.lor 0x80000000 v) 0 h
  | None => Ok tt h
  end.
Proof.
  induction order as [|v order IH]; intros HF; [done|]. apply Forall_cons in HF as [Hv HF].
  cbn [deliver_first find]. unfold bind. rewrite deliverable_eq by done.
  destruct (interrupt_ready h v); [|by apply IH].
  unfold deliver_interrupt, bind. by rewrite target_eq.
Qed.

Lemma delivery_order_ok : Forall (fun v => 0 <= v < 12) delivery_order.
Proof. repeat constructor; done. Qed.

(** *** A hart waiting for its timer *)

(** One hart, with a timer deadline and the timer interrupt enabled; nothing typed. *)
Record waits_for_timer (deadline : Z) (m : machine) : Prop := {
  wt_hart : hart_id (m_hart m) = 0;
  wt_clint : clint_nr_harts (clint m) = 1;
  wt_deadline : arr (mtimecmp (clint m)) 0 = deadline;
  wt_armed : 0 <= deadline < NO_DEADLINE;
  wt_enabled : Z.testbit (ienable (m_hart m)) INTERRUPT_MACHINE_TIMER = true;
  wt_quiet : keyboard m = []
}.

Lemma poll_quiet m : keyboard m = [] ->
  poll_console m = Ok tt m.
Proof.
  intros Hk. unfold poll_console, uart_poll_input. destruct (console_attached (uart m)) eqn:E; [|done].
  cbn [negb]. rewrite Hk. cbn. by destruct m; cbn in *; subst.
Qed.

Lemma poll_when_due_quiet m : keyboard m = [] ->
  exists m', poll_when_due m = Ok tt m' /\
    clint m' = clint m /\ keyboard m' = [] /\ m_hart m' = m_hart m.
Proof.
  intros Hk. unfold poll_when_due, bind, gets, modify.
  case_test; [rewrite poll_quiet by done|]; by eexists.
Qed.

Lemma refresh_quiet m :
  keyboard m = [] ->
  exists m', refresh_device_interrupts m = Ok tt m' /\
    clint m' = clint m /\ keyboard m' = [] /\ hart_id (m_hart m') = hart_id (m_hart m) /\
    ienable (m_hart m') = ienable (m_hart m) /\
    Z.testbit (ipending (m_hart m')) 7 = (arr (mtimecmp (clint m)) (hart_id (m_hart m)) <=? mtime (clint m)).
Proof.
  intros Hk. destruct (poll_when_due_quiet m Hk) as (m1 & E & Hc & Hk1 & Hh).
  unfold refresh_device_interrupts, bind. rewrite E.
  eexists. split; [reflexivity|]. cbn. rewrite Hc, Hh. repeat (split; [done|]).
  unfold clint_refresh_pending, plic_refresh_pending. cbn [ipending set_ipending].
  rewrite !testbit_put_bit by lia. done.
Qed.

Lemma awake_bit a b i : 0 <= i -> Z.testbit a i = true -> Z.testbit b i = true -> truthy (Z.land a b) = true.
Proof.
  intros Hi Ha Hb. unfold truthy. destruct (Z.eqb_spec (Z.land a b) 0) as [E|]; [|done].
  apply (f_equal (fun z => Z.testbit z i)) in E. by rewrite Z.land_spec, Ha, Hb, Z.bits_0 in E.
Qed.

(** A round of waiting: the hart wakes, or the clock moves to the deadline. *)
Lemma idle_round n d m :
  waits_for_timer d m ->
  exists m', idle_rounds (S n) m = (if truthy (Z.land (ipending (m_hart m')) (ienable (m_hart m')))
      then Ok tt m' else idle_rounds n (set_clint (clint_skip_to_next_deadline (clint m)).2 m')) /\
    waits_for_timer d m' /\ clint m' = clint m /\
    Z.testbit (ipending (m_hart m')) 7 = (d <=? mtime (clint m)).
Proof.
  intros [Hid Hn Hd Ha He Hq]. destruct (refresh_quiet m Hq) as (m' & E & Hc & Hk & Hid' & He' & Hp).
  exists m'. cbn [idle_rounds]. unfold bind. rewrite poll_quiet, E by done. unfold gets, modify.
  split; [case_test; [done|by rewrite Hc]|].
  split; [split; rewrite ?Hid', ?Hc, ?He'; done|]. split; [done|]. by rewrite Hp, Hid, Hd.
Qed.

Lemma skip_one_hart d m :
  waits_for_timer d m ->
  (clint_skip_to_next_deadline (clint m)).2 =
  (if mtime (clint m) <? d then set_mtime d (clint m) else clint m).
Proof.
  intros [Hid Hn Hd Ha He Hq]. unfold clint_skip_to_next_deadline. rewrite Hn.
  change (Z.to_nat 1) with 1%nat. cbn [earliest_deadline].
  rewrite Hd. destruct (Z.ltb_spec d NO_DEADLINE); [|lia].
  destruct (Z.eqb_spec d NO_DEADLINE); [lia|]. done.
Qed.

(** ** Properties *)

(** C10. The pump. After the clock advanced and the devices refreshed the pending
    bits, the interrupt taken is the first in the order machine external, software,
    timer, supervisor external, software, timer that is ready: pending, enabled, and
    destined for a higher level than the current one, or for the current one with its
    global enable on. It traps at its level with its cause; when none is ready the
    pump returns and changes nothing more. *)
Theorem pump_takes_highest m m1 :
  refresh_device_interrupts
    (set_clint (clint_advance_time (ticks_per_translation_unit m) (clint m)) m) = Ok tt m1 ->
  let h := m_hart m1 in
  match find (interrupt_ready h) delivery_order with
  | Some v => exists h', pump_devices_and_deliver_interrupts m = Trapped (set_m_hart h' m1) /\
      raise_trap_raw (A := unit) (interrupt_level h v) (2 ^ 31 + v) 0 h = Trapped h' /\
      privilege_level h' = interrupt_level h v /\ privilege_level h <= privilege_level h' /\
      registers h' = registers h
  | None => pump_devices_and_deliver_interrupts m = Ok tt m1 /\
      forall v, v ∈ delivery_order -> interrupt_ready h v = false
  end.
Proof.
  intros E h. unfold pump_devices_and_deliver_interrupts, bind, modify. rewrite E.
  unfold on_hart, zoom. rewrite deliver_first_eq by apply delivery_order_ok. fold h.
  destruct (find _ _) as [v|] eqn:EF.
  - apply find_some in EF as [Hin Hr]. apply list_elem_of_In in Hin.
    pose proof delivery_order_ok as HF. rewrite Forall_forall in HF. specialize (HF v Hin).
    assert (EC : Z.lor 0x80000000 v = 2 ^ 31 + v).
    { rewrite Z.lor_comm. change 0x80000000 with (Z.shiftl 1 31). rewrite lor_shiftl_add by lia. lia. }
    assert (Ht : interrupt_level h v = PRIVILEGE_LEVEL_SUPERVISOR \/ interrupt_level h v = PRIVILEGE_LEVEL_MACHINE).
    { unfold interrupt_level. case_test; auto. }
    rewrite EC. rewrite (raise_trap_raw_eq (A := unit)) by done.
    eexists. split; [reflexivity|]. split; [reflexivity|].
    match goal with |- context [flush_translation_cache_on_address_space_change ?tag ?x] =>
      destruct (flush_keeps tag x) as (_ & -> & _ & -> & _) end.
    unfold interrupt_ready in Hr. to_prop.
    destruct Ht as [Ht|Ht]; rewrite Ht in *; cbn; repeat split; try done;
      unfold PRIVILEGE_LEVEL_SUPERVISOR, PRIVILEGE_LEVEL_MACHINE in *; lia.
  - split.
    + by destruct m1.
    + intros v Hv. apply list_elem_of_In in Hv. by apply (find_none _ _ EF).
Qed.

(** C23. Waiting for the timer. A lone hart that executes wfi with a deadline armed and
    the timer interrupt enabled, while nothing is typed, returns from wfi with an
    enabled interrupt pending; the clock has not passed the deadline by waiting. *)
Theorem wfi_wakes_at_deadline d m :
  waits_for_timer d m ->
  exists m', wfi_callback m = Ok tt m' /\
    truthy (Z.land (ipending (m_hart m')) (ienable (m_hart m'))) = true /\
    mtime (clint m) <= mtime (clint m') <= Z.max d (mtime (clint m)).
Proof.
  intros HW. unfold wfi_callback, hart_idle.
  destruct (idle_round 63 d m HW) as (m1 & -> & HW1 & Hc1 & Hp1).
  destruct (truthy _) eqn:E1; [exists m1; rewrite Hc1; split; [done|]; split; [done|lia]|].
  assert (Hlt : mtime (clint m) < d).
  { destruct (Z.leb_spec d (mtime (clint m))); [|done]. exfalso.
    rewrite (awake_bit _ _ 7) in E1; [done|done|done|]. by destruct HW1. }
  rewrite (skip_one_hart d m HW). destruct (Z.ltb_spec (mtime (clint m)) d); [|lia].
  set (m2 := set_clint (set_mtime d (clint m)) m1).
  assert (HW2 : waits_for_timer d m2).
  { destruct HW1. split; try done; cbn; by rewrite <- Hc1. }
  destruct (idle_round 62 d m2 HW2) as (m3 & -> & HW3 & Hc3 & Hp3).
  assert (E3 : truthy (Z.land (ipending (m_hart m3)) (ienable (m_hart m3))) = true).
  { apply (awake_bit _ _ 7); [done| |by destruct HW3]. rewrite Hp3. cbn. apply Z.leb_refl. }
  rewrite E3. exists m3. split; [done|]. split; [done|]. rewrite Hc3. cbn. lia.
Qed.
End Facts.

Module Witness.
Import Concrete Board.
#[local] Existing Instance sizes.

(** A supervisor-level hart with the machine timer enabled and its deadline passed. *)
Definition ticking : machine :=
  board (set_ienable 0x80 (set_privilege_level PRIVILEGE_LEVEL_SUPERVISOR (empty_hart 0x1000))) [].

Definition due : machine := set_clint (set_mtimecmp (<[0%nat := 5]> (mtimecmp (clint ticking))) (clint ticking)) ticking.

Lemma pump_takes_highest_witness :
  exists m1, refresh_device_interrupts (set_clint (clint_advance_time 1000 (clint due)) due) = Ok tt m1 /\
  exists h', pump_devices_and_deliver_interrupts due = Trapped (set_m_hart h' m1) /\
    raise_trap_raw (A := unit) PRIVILEGE_LEVEL_MACHINE (2 ^ 31 + 7) 0 (m_hart m1) = Trapped h' /\
    privilege_level h' = PRIVILEGE_LEVEL_MACHINE /\
    privilege_level (m_hart m1) <= privilege_level h' /\ registers h' = registers (m_hart m1).
Proof.
  eexists. split; [reflexivity|].
  match goal with |- exists h', _ = Trapped (set_m_hart h' ?m1) /\ _ =>
    exact (pump_takes_highest due m1 eq_refl) end.
Defined.

Lemma due_waits : waits_for_timer 5 due.
Proof. by split. Qed.

Lemma wfi_wakes_at_deadline_witness :
  exists m', wfi_callback due = Ok tt m' /\
    truthy (Z.land (ipending (m_hart m')) (ienable (m_hart m'))) = true /\
    mtime (clint due) <= mtime (clint m') <= Z.max 5 (mtime (clint due)).
Proof. apply (wfi_wakes_at_deadline 5 due due_waits). Defined.
End Witness.
