(* ===== verification/Amo.v ===== *)
(** * Atomic memory operations

    Models the slow path of the A extension in src/vmm/translate_amo.c: the five
    read-modify-write operations the emulator has, and lr/sc with the table of
    address reservations (fields [reservations] and [next_pointer] of the machine).

    Proved here: an amo on main memory puts the old word in rd and combines it with
    rs2 in memory; an amo or lr that traps has changed no register; sc stores exactly
    when the hart holds a reservation of the address. Two deviations are shown: an
    sc whose store faults has already cleared rd, and a reservation made twice
    survives a successful sc. *)

From S2P Require Import Prelude Monad PmRegion X86 Hart Trap Clint Plic Uart Machine Mmu.
Local Open Scope Z_scope.

Definition reg (i : Z) : prog machine Z := gets (fun m => HART_REG (m_hart m) i).
Definition put_reg (i v : Z) : prog machine unit :=
  modify (fun m => set_m_hart (set_HART_REG i v (m_hart m)) m).

Definition MAX_RESERVATION_ITEMS : Z := 16.
Definition no_reservation : address_reservation_item :=
  {| res_addr := 0; res_valid := false; res_hartid := 0 |}.

(** The reservation of [addr] in the first free slot, or over the next one.
    src/vmm/translate_amo.c:51-62 lr_slowpath *)
Definition make_reservation (addr hart : Z) (m : machine) : machine :=
  let next := match list_find (fun it => res_valid it = false) (reservations m) with
              | Some (idx, _) => Z.of_nat idx
              | None => next_pointer m
              end in
  let m := set_reservations (<[Z.to_nat next :=
    {| res_addr := addr; res_valid := true; res_hartid := u8 hart |}]> (reservations m)) m in
  set_next_pointer ((next + 1) mod MAX_RESERVATION_ITEMS) m.

(** What sc looks for. *)
Definition reserves (addr hart : Z) (it : address_reservation_item) : Prop :=
  res_valid it = true /\ res_addr it = addr /\ res_hartid it = hart.
#[export] Instance reserves_dec addr hart it : Decision (reserves addr hart it).
Proof. unfold reserves. apply _. Defined.

(** src/vmm/translate_amo.c:73-79 sc_slowpath *)
Definition find_reservation (addr hart : Z) (rs : list address_reservation_item) : option nat :=
  fst <$> list_find (reserves addr hart) rs.

Definition invalid_item (it : address_reservation_item) : address_reservation_item :=
  {| res_addr := res_addr it; res_valid := false; res_hartid := res_hartid it |}.
Definition clear_reservation (idx : nat) (m : machine) : machine :=
  set_reservations (alter invalid_item idx (reservations m)) m.

Section Slowpaths.
Context `{Assembler}.

(** src/vmm/translate_amo.c:9-20 amoadd_slowpath *)
Definition amoadd_slowpath (rs1_index rs2_index rd_index : Z) : prog machine unit :=
  let* rs1 := reg rs1_index in
  let* rs2 := reg rs2_index in
  let* v := mmu_read32_aligned rs1 in
  put_reg rd_index v ;;;
  let* rd := reg rd_index in
  mmu_write32_aligned rs1 (u32 (rd + rs2)).

(** src/vmm/translate_amo.c:23-32 amoswap_slowpath *)
Definition amoswap_slowpath (rs1_index rs2_index rd_index : Z) : prog machine unit :=
  let* rs1 := reg rs1_index in
  let* rs2 := reg rs2_index in
  let* v := mmu_read32_aligned rs1 in
  put_reg rd_index v ;;;
  mmu_write32_aligned rs1 rs2.

(** src/vmm/translate_amo.c:44-64 lr_slowpath *)
Definition lr_slowpath (rs1_index rs2_index rd_index : Z) : prog machine unit :=
  let* rs1 := reg rs1_index in
  let* v := mmu_read32_aligned rs1 in
  put_reg rd_index v ;;;
  modify (fun m => make_reservation rs1 (hart_id (m_hart m)) m).

(** src/vmm/translate_amo.c:66-90 sc_slowpath *)
Definition sc_slowpath (rs1_index rs2_index rd_index : Z) : prog machine unit :=
  let* rs1 := reg rs1_index in
  let* rs2 := reg rs2_index in
  let* found := gets (fun m => find_reservation rs1 (hart_id (m_hart m)) (reservations m)) in
  match found with
  | Some idx =>
      put_reg rd_index 0x0 ;;;
      mmu_write32_aligned rs1 rs2 ;;;
      modify (clear_reservation idx)
  | None => put_reg rd_index 0x1
  end.

(** src/vmm/translate_amo.c:92-101 amoxor_slowpath *)
Definition amoxor_slowpath (rs1_index rs2_index rd_index : Z) : prog machine unit :=
  let* rs1 := reg rs1_index in
  let* rs2 := reg rs2_index in
  let* v := mmu_read32_aligned rs1 in
  put_reg rd_index v ;;;
  let* rd := reg rd_index in
  mmu_write32_aligned rs1 (Z.lxor rd rs2).

(** src/vmm/translate_amo.c:103-112 amoor_slowpath *)
Definition amoor_slowpath (rs1_index rs2_index rd_index : Z) : prog machine unit :=
  let* rs1 := reg rs1_index in
  let* rs2 := reg rs2_index in
  let* v := mmu_read32_aligned rs1 in
  put_reg rd_index v ;;;
  let* rd := reg rd_index in
  mmu_write32_aligned rs1 (Z.lor rd rs2).

(** src/vmm/translate_amo.c:114-123 amoand_slowpath *)
Definition amoand_slowpath (rs1_index rs2_index rd_index : Z) : prog machine unit :=
  let* rs1 := reg rs1_index in
  let* rs2 := reg rs2_index in
  let* v := mmu_read32_aligned rs1 in
  put_reg rd_index v ;;;
  let* rd := reg rd_index in
  mmu_write32_aligned rs1 (Z.land rd rs2).

(** src/vmm/translate_amo.c:125-147 amo_instruction_slowpath *)
Definition amo_instruction_slowpath (rs1_index rs2_index rd_index funct5 : Z) : prog machine unit :=
  match funct5 with
  | 0x0 => amoadd_slowpath rs1_index rs2_index rd_index
  | 0x1 => amoswap_slowpath rs1_index rs2_index rd_index
  | 0x2 => lr_slowpath rs1_index rs2_index rd_index
  | 0x3 => sc_slowpath rs1_index rs2_index rd_index
  | 0x4 => amoxor_slowpath rs1_index rs2_index rd_index
  | 0x8 => amoor_slowpath rs1_index rs2_index rd_index
  | 0xc => amoand_slowpath rs1_index rs2_index rd_index
  | _ => failed
  end.
End Slowpaths.

(** ** Specification *)

(** The word an amo leaves in memory. *)
Definition amo_op (funct5 old src : Z) : Z :=
  match funct5 with
  | 0x0 => (old + src) mod 2 ^ 32
  | 0x1 => src
  | 0x4 => Z.lxor old src
  | 0x8 => Z.lor old src
  | _ => Z.land old src
  end.

Definition is_amo (funct5 : Z) : bool :=
  (funct5 =? 0x0) || (funct5 =? 0x1) || (funct5 =? 0x4) || (funct5 =? 0x8) || (funct5 =? 0xc).

(** ** Facts *)

Section Facts.
Context `{Assembler}.

Definition with_reg (i v : Z) (m : machine) : machine := set_m_hart (set_HART_REG i v (m_hart m)) m.

(** The five amos in one equation. *)
Lemma amo_unfold f rs1 rs2 rd m :
  is_amo f = true ->
  amo_instruction_slowpath rs1 rs2 rd f m =
  let a := HART_REG (m_hart m) rs1 in let b := HART_REG (m_hart m) rs2 in
  match mmu_read32_aligned a m with
  | Ok v m1 => let m2 := with_reg rd v m1 in
      mmu_write32_aligned a (amo_op f (HART_REG (m_hart m2) rd) b) m2
  | Trapped s => Trapped s
  | Exited c s => Exited c s
  | Failed => Failed
  end.
Proof.
  intros Hf. unfold is_amo in Hf. to_prop.
  destruct Hf as [[[[->| ->]| ->]| ->]| ->]; unfold amo_instruction_slowpath, amoadd_slowpath,
    amoswap_slowpath, amoxor_slowpath, amoor_slowpath, amoand_slowpath, bind, reg, put_reg, gets,
    modify, amo_op; cbv zeta; by destruct (mmu_read32_aligned _ m).
Qed.

Lemma read_aligned_ok a m v m1 :
  mmu_read32_aligned a m = Ok v m1 -> truthy (Z.land a 3) = false /\ vmread 4 a m = Ok v m1.
Proof.
  unfold mmu_read32_aligned, bind. destruct (truthy _); [|done].
  pose proof (on_hart_raise (A := unit) EXCEPTION_LOAD_ADDRESS_MISALIGN a m) as HR.
  by destruct (on_hart _ m).
Qed.

Lemma read_aligned_traps a m s :
  mmu_read32_aligned a m = Trapped s -> exists h', s = set_m_hart h' m /\ registers h' = registers (m_hart m).
Proof.
  intros E. pose proof (precise_guard (truthy (Z.land a 3)) EXCEPTION_LOAD_ADDRESS_MISALIGN a
    dtlb_changed (vmread 4 a) (vmread_precise 4 a) m) as HP.
  change (match mmu_read32_aligned a m with
    | Ok _ s' | Exited _ s' => dtlb_changed (m_hart m) (m_hart s')
    | Trapped s' => exists h', s' = set_m_hart h' m /\ registers h' = registers (m_hart m)
    | Failed => True end) in HP. by rewrite E in HP.
Qed.

Lemma write_aligned_eq a v m :
  truthy (Z.land a 3) = false -> mmu_write32_aligned a v m = vmwrite 4 a v m.
Proof. intros E. unfold mmu_write32_aligned, bind. by rewrite E. Qed.

Lemma resolve_with_reg i v m va : resolve (with_reg i v m) va = resolve m va.
Proof. done. Qed.

Lemma read_keeps_registers n va m v m1 :
  vmread n va m = Ok v m1 -> registers (m_hart m1) = registers (m_hart m).
Proof.
  intros E. pose proof (vmread_precise n va m) as HP. rewrite E in HP.
  by destruct HP as [->|[t ->]].
Qed.

Lemma reg_with_reg i v m :
  length (registers (m_hart m)) = 32%nat -> 0 <= i < 32 -> HART_REG (m_hart (with_reg i v m)) i = v.
Proof.
  intros Hl Hi. unfold with_reg, HART_REG, set_HART_REG. cbn [m_hart set_m_hart registers set_registers].
  by rewrite list_lookup_insert_eq by lia.
Qed.

Lemma reg_with_reg_ne i j v m :
  i <> j -> 0 <= i -> 0 <= j -> HART_REG (m_hart (with_reg i v m)) j = HART_REG (m_hart m) j.
Proof.
  intros Hne Hi Hj. unfold with_reg, HART_REG, set_HART_REG. cbn [m_hart set_m_hart registers set_registers].
  by rewrite list_lookup_insert_ne by lia.
Qed.

Lemma ram_read_then_write r pa n v x m m' :
  ram m' = ram m -> ram_read pa n r m = Ok x m ->
  exists mem, ram_write pa n v r m' = Ok tt (set_ram mem m').
Proof.
  intros Hm. unfold ram_read, ram_write. case_test; [done|]. rewrite Hm. unfold mem_load, mem_store.
  destruct (in_bounds _ _ _); [|done]. intros _. by eexists.
Qed.

(** *** The reservation table *)

Record table_ok (m : machine) : Prop := {
  tb_length : length (reservations m) = 16%nat;
  tb_next : 0 <= next_pointer m < MAX_RESERVATION_ITEMS
}.

(** The slot a reservation goes to. *)
Definition slot_for (m : machine) : nat :=
  match list_find (fun it => res_valid it = false) (reservations m) with
  | Some (idx, _) => idx
  | None => Z.to_nat (next_pointer m)
  end.

Lemma slot_bound m : table_ok m -> (slot_for m < 16)%nat.
Proof.
  intros [Hl Hn]. unfold slot_for, MAX_RESERVATION_ITEMS in *.
  destruct (list_find _ _) as [[idx it]|] eqn:E; [|lia].
  apply list_find_Some in E as (E & _ & _). apply lookup_lt_Some in E. lia.
Qed.

Lemma make_slots a h m :
  table_ok m ->
  reservations (make_reservation a h m) =
    <[slot_for m := {| res_addr := a; res_valid := true; res_hartid := u8 h |}]> (reservations m) /\
  next_pointer (make_reservation a h m) = (Z.of_nat (slot_for m) + 1) mod 16.
Proof.
  intros [Hl Hn]. unfold make_reservation, slot_for.
  destruct (list_find _ _) as [[idx it]|]; cbn; rewrite ?Nat2Z.id, ?Z2Nat.id by lia; done.
Qed.

Lemma make_table_ok a h m : table_ok m -> table_ok (make_reservation a h m).
Proof.
  intros HT. destruct (make_slots a h m HT) as [E1 E2]. destruct HT as [Hl Hn].
  split; [by rewrite E1, length_insert|]. rewrite E2. by apply Z.mod_pos_bound.
Qed.

Lemma find_reservation_is_Some a h rs :
  is_Some (find_reservation a h rs) <-> exists it, it ∈ rs /\ reserves a h it.
Proof.
  unfold find_reservation. split.
  - intros [idx E]. destruct (list_find _ _) as [[i it]|] eqn:EL; [|done].
    apply list_find_Some in EL as (E1 & E2 & _). exists it. split; [by eapply list_elem_of_lookup_2|done].
  - intros (it & Hin & Hr). destruct (list_find_elem_of (reserves a h) rs it) as [[i x] E]; [done..|].
    by rewrite E.
Qed.

Lemma make_then_found a h m :
  table_ok m -> 0 <= h < 256 -> is_Some (find_reservation a h (reservations (make_reservation a h m))).
Proof.
  intros HT Hh. pose proof (slot_bound m HT) as Hs. destruct (make_slots a h m HT) as [-> _].
  apply find_reservation_is_Some. eexists. split.
  - eapply (list_elem_of_lookup_2 _ (slot_for m)). apply list_lookup_insert_eq. destruct HT. lia.
  - repeat split. cbn. by apply u8_id.
Qed.

(** Two reservations of one address lie in two slots. *)
Lemma two_slots a h m :
  table_ok m ->
  let m2 := make_reservation a h (make_reservation a h m) in
  let it := {| res_addr := a; res_valid := true; res_hartid := u8 h |} in
  exists i j, i <> j /\ reservations m2 !! i = Some it /\ reservations m2 !! j = Some it.
Proof.
  intros HT m2 it. set (m1 := make_reservation a h m).
  pose proof (make_table_ok a h m HT) as HT1. fold m1 in HT1.
  pose proof (slot_bound m HT) as B0. pose proof (slot_bound m1 HT1) as B1.
  destruct (make_slots a h m HT) as [E1 N1]. destruct (make_slots a h m1 HT1) as [E2 _]. fold m1 in E1, N1.
  change (reservations m2 = <[slot_for m1 := it]> (reservations m1)) in E2.
  assert (L1 : reservations m1 !! slot_for m = Some it).
  { rewrite E1. apply list_lookup_insert_eq. destruct HT. lia. }
  assert (Hne : slot_for m1 <> slot_for m).
  { intros Heq. unfold slot_for in Heq at 1.
    destruct (list_find _ (reservations m1)) as [[idx x]|] eqn:EF.
    - apply list_find_Some in EF as (Ex & Hx & _). subst idx. rewrite L1 in Ex. by injection Ex as <-.
    - rewrite N1 in Heq. dlia. }
  exists (slot_for m1), (slot_for m). split; [done|]. rewrite E2. split.
  - apply list_lookup_insert_eq. destruct HT1. lia.
  - by rewrite list_lookup_insert_ne.
Qed.

(** ** Properties *)

(** C11. An amo on main memory. When the word at the aligned address in rs1 can be
    read and resolves to main memory, the amo succeeds: rd holds the old word, every
    other register is as before, and a load of the address now gives the old word
    combined with the old rs2, even when rd is rs1 or rs2. *)
Theorem amo_correct f rs1 rs2 rd m old m1 r pa :
  let a := HART_REG (m_hart m) rs1 in let b := HART_REG (m_hart m) rs2 in
  is_amo f = true -> 0 <= rd < 32 -> length (registers (m_hart m)) = 32%nat ->
  truthy (Z.land a 3) = false -> vmread 4 a m = Ok old m1 ->
  resolve m1 a = Some (r, pa) -> pmr_callbacks r = ram_region ->
  exists m2, amo_instruction_slowpath rs1 rs2 rd f m = Ok tt m2 /\
    HART_REG (m_hart m2) rd = old /\
    (forall i, 0 <= i -> i <> rd -> HART_REG (m_hart m2) i = HART_REG (m_hart m) i) /\
    vmread 4 a m2 = Ok (amo_op f old b mod 2 ^ 32) m2.
Proof.
  intros a b Hf Hrd Hl Ha Hr Hres Hram. rewrite amo_unfold by done. fold a b. cbv zeta.
  unfold mmu_read32_aligned at 1, bind at 1. rewrite Ha. unfold ret. rewrite Hr.
  pose proof (read_keeps_registers _ _ _ _ _ Hr) as Hregs.
  rewrite reg_with_reg by (rewrite ?Hregs; done). rewrite write_aligned_eq by done.
  destruct (vmread_lands _ _ _ _ _ Hr) as (r' & pa' & m0 & x & Hres' & Hp & Ex).
  rewrite Hres in Hres'. injection Hres' as <- <-.
  assert (Hp1 : ram_read pa 4 r m1 = Ok x m1).
  { pose proof (pmr_read_frame r pa 4 m0) as HF. rewrite Hp in HF. destruct HF as (_ & _ & HF).
    unfold pmr_read in Hp. rewrite Hram in Hp. by rewrite (HF Hram) in Hp |- *. }
  set (m1' := with_reg rd old m1).
  destruct (ram_read_then_write r pa 4 (amo_op f old b) x m1 m1' eq_refl Hp1) as (mem & Hw).
  rewrite (vmwrite_hits 4 a _ m1' r pa) by exact Hres.
  unfold pmr_write. rewrite Hram, Hw. eexists. split; [reflexivity|].
  split; [by apply reg_with_reg; rewrite ?Hregs|]. split.
  - intros i Hi Hne. change (HART_REG (m_hart (set_ram mem m1')) i) with (HART_REG (m_hart m1') i).
    unfold m1'. rewrite reg_with_reg_ne by lia. unfold HART_REG. by rewrite Hregs.
  - rewrite (vmread_resolved 4 a _ r pa) by exact Hres. unfold bind, pmr_read. rewrite Hram.
    rewrite (ram_write_read _ _ _ _ _ _ Hw). unfold ret, truncate.
    change (8 * 4) with 32. by rewrite Z.mod_mod by lia.
Qed.

(** Precise atomics. An amo or a load-reserved that takes a trap has changed no
    guest register, no memory and no device: the trap can only come from its read,
    since its write uses the translation the read has just cached. *)
Theorem amo_traps_precise f rs1 rs2 rd m s :
  f <> 0x3 -> amo_instruction_slowpath rs1 rs2 rd f m = Trapped s ->
  exists h', s = set_m_hart h' m /\ registers h' = registers (m_hart m).
Proof.
  intros Hf E. destruct (is_amo f) eqn:EA.
  - rewrite amo_unfold in E by done. cbv zeta in E.
    destruct (mmu_read32_aligned _ m) as [v m1|s1|c s1|] eqn:ER; try done.
    + apply read_aligned_ok in ER as [Ha Hr]. rewrite write_aligned_eq in E by done.
      destruct (vmread_lands _ _ _ _ _ Hr) as (r & pa & m0 & x & Hres & _).
      rewrite (vmwrite_hits 4 _ _ _ r pa) in E by exact Hres.
      match type of E with pmr_write r pa 4 ?v ?mm = _ =>
        pose proof (pmr_write_no_trap r pa 4 v mm) as HN end. by rewrite E in HN.
    + injection E as <-. by apply read_aligned_traps in ER.
  - unfold amo_instruction_slowpath in E.
    assert (f = 2 \/ amo_instruction_slowpath rs1 rs2 rd f m = Failed) as [->|EF].
    { unfold is_amo in EA. destruct f as [|[[[[]|[]|]|[[]|[]|]|]|[[[]|[]|]|[[]|[]|]|]|]|]; auto; done. }
    + unfold lr_slowpath, bind, reg, gets in E.
      destruct (mmu_read32_aligned _ m) as [v m1|s1|c s1|] eqn:ER; try done.
      injection E as <-. by apply read_aligned_traps in ER.
    + unfold amo_instruction_slowpath in EF. by rewrite E in EF.
Qed.

(** C24. Load-reserved, store-conditional. After an lr that succeeds the hart holds a
    reservation of the address. An sc of an address the hart holds no reservation of
    puts 1 in rd and changes nothing else; with a reservation it puts 0 in rd and
    performs the store. *)
Theorem lr_sc_correct rs1 rs2 rd m :
  table_ok m -> 0 <= hart_id (m_hart m) < 256 ->
  let a := HART_REG (m_hart m) rs1 in let h := hart_id (m_hart m) in
  (forall m', lr_slowpath rs1 rs2 rd m = Ok tt m' ->
     is_Some (find_reservation a h (reservations m')) /\ table_ok m') /\
  ((~ exists it, it ∈ reservations m /\ reserves a h it) ->
     sc_slowpath rs1 rs2 rd m = Ok tt (with_reg rd 1 m)) /\
  ((exists it, it ∈ reservations m /\ reserves a h it) ->
     exists idx, sc_slowpath rs1 rs2 rd m =
       (mmu_write32_aligned a (HART_REG (m_hart m) rs2) ;;; modify (clear_reservation idx))
         (with_reg rd 0 m)).
Proof.
  intros HT Hh a h. split; [|split].
  - intros m' E. unfold lr_slowpath, bind, reg, put_reg, gets, modify in E. fold a in E.
    destruct (mmu_read32_aligned a m) as [v m1| | |] eqn:ER; [|done..]. injection E as <-.
    apply read_aligned_ok in ER as [_ ER].
    destruct (vmread_keeps_table 4 a m v m1 ER) as (Er & En & Eh).
    assert (HT1 : table_ok (with_reg rd v m1)).
    { destruct HT as [Hl Hn]. split; cbn; [by rewrite Er|by rewrite En]. }
    change (hart_id _) with (hart_id (m_hart m1)). rewrite Eh.
    split; [by apply (make_then_found a h (with_reg rd v m1))|by apply make_table_ok].
  - intros Hn. unfold sc_slowpath, bind, reg, gets. fold a h.
    destruct (find_reservation a h (reservations m)) eqn:EF; [|done].
    exfalso. apply Hn, find_reservation_is_Some. by rewrite EF.
  - intros Hy%find_reservation_is_Some. destruct Hy as [idx EF]. exists idx.
    unfold sc_slowpath, bind at 1 2 3, reg, gets. fold a h. by rewrite EF.
Qed.

(** A faulting sc is not precise. When the hart holds a reservation and the store
    of the sc takes a page fault, rd has already been cleared in the state the trap
    handler sees. *)
Theorem sc_fault_clobbers_rd rs1 rs2 rd m s :
  let a := HART_REG (m_hart m) rs1 in
  is_Some (find_reservation a (hart_id (m_hart m)) (reservations m)) ->
  0 <= rd < 32 -> length (registers (m_hart m)) = 32%nat ->
  mmu_write32_aligned a (HART_REG (m_hart m) rs2) (with_reg rd 0 m) = Trapped s ->
  sc_slowpath rs1 rs2 rd m = Trapped s /\ HART_REG (m_hart s) rd = 0.
Proof.
  intros a [idx EF] Hrd Hl E. split.
  - unfold sc_slowpath, bind at 1 2 3, reg, gets. fold a. rewrite EF.
    unfold bind, put_reg, modify. change (set_m_hart (set_HART_REG rd 0x0 (m_hart m)) m) with (with_reg rd 0 m).
    by rewrite E.
  - pose proof (precise_guard (truthy (Z.land a 3)) EXCEPTION_LOAD_ADDRESS_MISALIGN a
      dtlb_changed (vmwrite 4 a (HART_REG (m_hart m) rs2)) (vmwrite_precise 4 a _) (with_reg rd 0 m)) as HP.
    change (match mmu_write32_aligned a (HART_REG (m_hart m) rs2) (with_reg rd 0 m) with
      | Ok _ s' | Exited _ s' => dtlb_changed (m_hart (with_reg rd 0 m)) (m_hart s')
      | Trapped s' => exists h', s' = set_m_hart h' (with_reg rd 0 m) /\
          registers h' = registers (m_hart (with_reg rd 0 m))
      | Failed => True end) in HP. rewrite E in HP. destruct HP as (h' & -> & Hr).
    cbn [m_hart set_m_hart]. unfold HART_REG. rewrite Hr.
    exact (reg_with_reg rd 0 m Hl Hrd).
Qed.

(** A reservation made twice survives a store-conditional: lr takes a new slot
    every time, sc clears the first that matches, so a second sc of the address also
    succeeds. *)
Theorem double_reservation_survives a h m idx :
  table_ok m -> 0 <= h < 256 ->
  let m2 := make_reservation a h (make_reservation a h m) in
  find_reservation a h (reservations m2) = Some idx ->
  is_Some (find_reservation a h (reservations (clear_reservation idx m2))).
Proof.
  intros HT Hh m2 _. apply find_reservation_is_Some.
  destruct (two_slots a h m HT) as (i & j & Hne & Hi & Hj). fold m2 in Hi, Hj.
  assert (Hres : reserves a h {| res_addr := a; res_valid := true; res_hartid := u8 h |}).
  { repeat split. by apply u8_id. }
  eexists. split; [|exact Hres]. cbn [clear_reservation reservations set_reservations].
  destruct (decide (i = idx)) as [->|].
  - apply (list_elem_of_lookup_2 _ j). by rewrite list_lookup_alter_ne.
  - apply (list_elem_of_lookup_2 _ i). by rewrite list_lookup_alter_ne.
Qed.
End Facts.

Module Witness.
Import Concrete Board.
#[local] Existing Instance sizes.

(** A machine-level hart on main memory that holds 41; a1 is its address, a2 is 1. *)
Definition start : machine :=
  set_reservations (replicate 16 no_reservation)
    (board (set_HART_REG 12 1 (set_HART_REG 11 0x80000010 (empty_hart 0x80000000))) [(0x10, 41)]).

(** amoadd.w a1, a2, (a1): the destination is the address register. *)
Lemma amo_correct_witness :
  exists m2, amo_instruction_slowpath 11 12 11 0x0 start = Ok tt m2 /\
    HART_REG (m_hart m2) 11 = 41 /\
    (forall i, 0 <= i -> i <> 11 -> HART_REG (m_hart m2) i = HART_REG (m_hart start) i) /\
    vmread 4 0x80000010 m2 = Ok 42 m2.
Proof.
  apply (amo_correct 0x0 11 12 11 start 41 start ram_pmr 0x80000010); try lia; by vm_compute.
Defined.

(** lr.w a0, (a2): address 1 is not aligned. *)
Lemma amo_traps_precise_witness :
  exists s h', amo_instruction_slowpath 12 0 10 0x2 start = Trapped s /\
    s = set_m_hart h' start /\ registers h' = registers (m_hart start).
Proof.
  eexists. assert (E : amo_instruction_slowpath 12 0 10 0x2 start = Trapped _) by reflexivity.
  destruct (amo_traps_precise 0x2 12 0 10 start _ ltac:(lia) E) as (h' & E1 & E2).
  exists h'. exact (conj E (conj E1 E2)).
Defined.

Lemma start_table_ok : table_ok start.
Proof. by split. Qed.

Lemma lr_sc_correct_witness :
  sc_slowpath 11 12 10 start = Ok tt (with_reg 10 1 start).
Proof.
  apply (lr_sc_correct 11 12 10 start); [apply start_table_ok|by vm_compute|].
  intros (it & Hin & Hv & _). apply elem_of_replicate_inv in Hin. by subst it.
Defined.

(** A reservation of the unmapped address 0x04000000, under paging. *)
Definition reserved : machine :=
  make_reservation 0x04000000 0
    (set_reservations (replicate 16 no_reservation)
      (set_m_hart (set_HART_REG 11 0x04000000 Mmu.Witness.paged_hart) Mmu.Witness.paged)).

Lemma sc_fault_clobbers_rd_witness :
  exists s, sc_slowpath 11 12 10 reserved = Trapped s /\ HART_REG (m_hart s) 10 = 0.
Proof.
  eexists. eapply (sc_fault_clobbers_rd 11 12 10 reserved); try done; by eexists.
Defined.

Lemma double_reservation_survives_witness :
  is_Some (find_reservation 8 0 (reservations (clear_reservation 0
    (make_reservation 8 0 (make_reservation 8 0 start))))).
Proof. apply (double_reservation_survives 8 0 start 0); [apply start_table_ok|lia|by vm_compute]. Defined.
End Witness.
