(* ===== verification/Engine.v ===== *)
(** * The translation loop

    Models the heart of src/vmm/translation.c: [prefetch_one_instruction],
    [prefetch_instructions] and the lookup of [vmresume]. The loop of
    [prefetch_instructions] runs on fuel; [false] says that the fuel ran out, and a
    theorem shows that it never does: every round but the last adds one of the at
    most 4096 translations.

    Proved here: prefetching keeps the cache well-formed and makes the guest's pc
    translated, so the assertion of [vmresume] holds; in the cache a block that falls
    through is always followed by the block of the next guest instruction or by the
    jumper back to the vmm. A prefetch that ends in a page fault breaks this (Fault.v). *)

From S2P Require Import Prelude SortSearch Monad PmRegion X86 Hart Decode TransArith TransControl.
From S2P Require Import TransMem TransSys Trap Clint Plic Uart Machine Mmu.
Local Open Scope Z_scope.

(** ** The loop *)

Section Loop.
Context `{Assembler}.

(** src/vmm/translation.c:166-182 prefetch_one_instruction *)
Definition prefetch_one_instruction (b : prefetch_blob) : prog machine prefetch_blob :=
  let* instruction := mmu_instruction_read32 (next_instruction_to_fetch b) in
  match translators (Z.land instruction 0x7f) with
  | None => failed
  | Some per_category_translator => fun m =>
      match per_category_translator instruction b (m_hart m) with
      | Some (b, h) => Ok b (set_m_hart h m)
      | None => Failed
      end
  end.

Definition search_hart (a : Z) : prog machine (option program_counter_mapping_item) := fun m =>
  of_opt (search_translation_item (m_hart m) a) m.

(** src/vmm/translation.c:196-207 prefetch_instructions *)
Fixpoint prefetch_loop (fuel : nat) (b : prefetch_blob) : prog machine bool :=
  match fuel with
  | O => ret false
  | S fuel =>
      let* found := search_hart (next_instruction_to_fetch b) in
      match found with
      | Some _ => ret true
      | None =>
          let* b := prefetch_one_instruction b in
          if is_to_stop b then ret true else prefetch_loop fuel b
      end
  end.

(** The jumper at the end of the cache.
    src/vmm/translation.c:230-234 prefetch_instructions *)
Definition append_jumper (h : hart) : hart :=
  set_translation_cache_ptr (translation_cache_ptr h + jumper_size)
    (set_translation_cache (write_chunk (translation_cache_ptr h) Jumper (translation_cache h)) h).

(** One more round than there can be translations. *)
Definition PREFETCH_FUEL : nat := Z.to_nat (MAX_INSTRUCTIONS_TOTRANSLATE + 1).

(** src/vmm/translation.c:187-236 prefetch_instructions *)
Definition prefetch_instructions : prog machine bool :=
  let* h := gets m_hart in
  let old_trans_ptr := translation_cache_ptr h in
  let* finished := prefetch_loop PREFETCH_FUEL
    {| next_instruction_to_fetch := pc h; is_to_stop := false; is_flushable := true |} in
  modify (fun m => if negb (old_trans_ptr =? translation_cache_ptr (m_hart m))
                   then set_m_hart (append_jumper (m_hart m)) m else m) ;;;
  ret finished.

(** The entry of the cache the vmm jumps to, with the context registers set up.
    src/vmm/translation.c:242-260 vmresume *)
Definition enter_cache : prog machine Z :=
  let* h := gets m_hart in
  let* ti := search_hart (pc h) in
  let* ti := of_opt ti in
  ret (tc_offset ti).

(** [None]: the prefetch has not ended in its fuel, and the vmm does not get further.
    src/vmm/translation.c:238-261 vmresume *)
Definition vmresume (m : machine) : option (res machine Z) :=
  match prefetch_instructions m with
  | Ok false _ => None
  | _ => Some ((let* _ := prefetch_instructions in enter_cache) m)
  end.
End Loop.

(** ** The shape of every translator *)

(** A block that runs on into whatever follows it in the cache. *)
Definition template_falls (t : template) : bool :=
  existsb (fun i => match i with jmp_translation_end => true | _ => false end) (t_code t).

Section Shape.
Context `{Assembler}.

Definition epilogue_for (t : template) : prefetch_blob -> prefetch_blob :=
  if template_falls t then advance else stop.

(** A translator rejects the instruction (an assertion) or is the common frame with
    some template, going on to the next instruction exactly when the block does. *)
Definition shaped (f : translator) : Prop :=
  forall b, (forall h, f b h = None) \/
    exists t ps epilogue, (forall h, f b h = translate t ps epilogue b h) /\ epilogue = epilogue_for t.

(** Every handler of a table has the shape. *)
Definition shaped_table (table : Z -> option (decoding -> Z -> translator)) : Prop :=
  forall k hd, table k = Some hd -> forall dec i, shaped (hd dec i).

Ltac shape :=
  intros b;
  cbv delta [riscv_add_sub_translator riscv_srl_sra_translator riscv_right_shift_translator
    riscv_funct3_000_translator riscv_wfi_translator] beta;
  repeat case_test;
  first [ left; intros h; reflexivity | right; eexists _, _, _; split; [intros h; reflexivity|reflexivity] ].

Ltac table_shape := intros k hd E; 
  cbv delta [arithmetic_handlers arithmetic_immediate_handlers mul_and_div_handlers branch_handlers
    memory_load_handlers memory_store_handlers amo_handlers fence_handlers supervisor_level_handlers] beta in E;
  repeat case_match; simplify_eq; intros dec i; shape.

Lemma arithmetic_shaped : shaped_table arithmetic_handlers.
Proof. table_shape. Qed.
Lemma arithmetic_immediate_shaped : shaped_table arithmetic_immediate_handlers.
Proof. table_shape. Qed.
Lemma mul_and_div_shaped : shaped_table mul_and_div_handlers.
Proof. table_shape. Qed.
Lemma branch_shaped : shaped_table branch_handlers.
Proof. table_shape. Qed.
Lemma memory_load_shaped : shaped_table memory_load_handlers.
Proof. table_shape. Qed.
Lemma memory_store_shaped : shaped_table memory_store_handlers.
Proof. table_shape. Qed.
Lemma amo_shaped : shaped_table amo_handlers.
Proof. table_shape. Qed.
Lemma fence_shaped : shaped_table fence_handlers.
Proof. table_shape. Qed.
Lemma supervisor_level_shaped : shaped_table supervisor_level_handlers.
Proof. table_shape. Qed.

(** An entry function: decode, pick the handler of a table, run it. *)
Lemma shaped_by_table table (key : decoding -> Z) dec i :
  shaped_table table ->
  shaped (fun b h => d ← dec; handler ← table (key d); handler d i b h).
Proof.
  intros HT b. destruct dec as [d|]; [|by left]. cbn [mbind option_bind].
  destruct (table (key d)) as [hd|] eqn:E; [|by left]. by apply (HT _ _ E).
Qed.

Lemma translators_shaped op tr i : translators op = Some tr -> shaped (tr i).
Proof.
  unfold translators. repeat case_test; intros [= <-]; try shape.
  all: try (eapply shaped_by_table; first [apply arithmetic_immediate_shaped|apply memory_store_shaped
    |apply memory_load_shaped|apply branch_shaped|apply fence_shaped|apply supervisor_level_shaped|apply amo_shaped]).
  intros b. unfold riscv_arithmetic_instructions_translation_entry.
  destruct (instruction_decoding_per_type i ENCODING_TYPE_R) as [d|]; [|by left]. cbn [mbind option_bind].
  unfold riscv_arithmetic_instructions_class0_translation_entry, riscv_mul_div_instructions_translation_entry.
  repeat case_test; try (by left).
  - destruct (arithmetic_handlers (funct3 d)) as [hd|] eqn:EH; [|by left].
    by apply (arithmetic_shaped _ _ EH).
  - destruct (mul_and_div_handlers (funct3 d)) as [hd|] eqn:EH; [|by left].
    by apply (mul_and_div_shaped _ _ EH).
Qed.
End Shape.

(** ** Chained blocks *)

Section Chain.
Context `{AssemblerOk}.

(** What follows a block that falls through: the jumper, or the next instruction's
    block. *)
Definition linked (h : hart) (it : program_counter_mapping_item) (t : template) : Prop :=
  let off := tc_offset it + translation_size (t_indicator t) in
  (translation_cache h !! off = Some Jumper /\ off + jumper_size <= translation_cache_ptr h) \/
  exists it', it' ∈ live h /\ tc_offset it' = off /\ guest_pc it' = u32 (guest_pc it + 4).

(** Every live block that falls through is linked, or is the last one and [next] is
    the instruction after it. *)
Definition chained_open (h : hart) (next : option Z) : Prop :=
  forall it t ps, it ∈ live h -> block_at h (tc_offset it) t ps -> template_falls t = true ->
    linked h it t \/
    (tc_offset it + translation_size (t_indicator t) = translation_cache_ptr h /\
     next = Some (u32 (guest_pc it + 4))).

Definition chained (h : hart) : Prop := chained_open h None.

Lemma chained_linked h it t ps :
  chained h -> it ∈ live h -> block_at h (tc_offset it) t ps -> template_falls t = true -> linked h it t.
Proof. intros HC Hin Hb Hf. by destruct (HC it t ps Hin Hb Hf) as [|[_ ?]]. Qed.

(** A block that was placed in [h] is the block of [h'] too. *)
Lemma added_old base h a t ps h' it t1 ps1 :
  cache_wf base h -> added base h a t ps h' -> it ∈ live h -> block_at h' (tc_offset it) t1 ps1 ->
  block_at h (tc_offset it) t1 ps1 /\
  tc_offset it + translation_size (t_indicator t1) <= translation_cache_ptr h.
Proof.
  intros HW HA Hin Hb. pose proof (wf_placed _ _ HW) as HP. rewrite Forall_forall in HP.
  destruct (HP it Hin) as (t0 & ps0 & Hb0 & _ & Hhi).
  pose proof (added_kept _ _ _ _ _ _ HA) as HK. rewrite Forall_forall in HK.
  pose proof (HK it Hin t0 ps0 Hb0) as Hb'. unfold block_at in *. rewrite Hb in Hb'. by simplify_eq.
Qed.

Lemma added_linked base h a t ps h' it t1 :
  added base h a t ps h' -> linked h it t1 -> linked h' it t1.
Proof.
  intros HA [[HJ Hle]|(it' & Hin & Ho & Hp)].
  - left. rewrite (added_ptr _ _ _ _ _ _ HA). pose proof (translation_size_pos (t_indicator t)).
    split; [|lia]. by apply (added_below _ _ _ _ _ _ HA).
  - right. exists it'. split; [|done]. rewrite (added_live _ _ _ _ _ _ HA). by right.
Qed.

(** Adding the block of [a] to a cache whose open end expects [a]. *)
Lemma added_chain base h a t ps h' :
  cache_wf base h -> chained_open h (Some a) -> added base h a t ps h' ->
  chained_open h' (if template_falls t then Some (u32 (a + 4)) else None).
Proof.
  intros HW HC HA it t1 ps1 Hin Hb Hf. rewrite (added_live _ _ _ _ _ _ HA) in Hin.
  apply elem_of_cons in Hin as [->|Hin].
  - cbn [tc_offset guest_pc] in *. pose proof (added_block _ _ _ _ _ _ HA) as Hb'.
    unfold block_at in *. rewrite Hb in Hb'. simplify_eq. right. rewrite Hf.
    by rewrite (added_ptr _ _ _ _ _ _ HA).
  - destruct (added_old base h a t ps h' it t1 ps1 HW HA Hin Hb) as [Hb0 Hhi].
    left. destruct (HC it t1 ps1 Hin Hb0 Hf) as [HL|[Ho Hn]]; [by eapply added_linked|].
    right. exists {| guest_pc := a; tc_offset := translation_cache_ptr h |}.
    rewrite (added_live _ _ _ _ _ _ HA). split; [by left|]. cbn. split; [done|]. congruence.
Qed.

Lemma chained_weaken h next : chained h -> chained_open h next.
Proof. intros HC it t ps Hin Hb Hf. left. by eapply chained_linked. Qed.

Lemma flushed_chain h next : chained_open (flush_translation_cache h) next.
Proof. intros it t ps Hin. unfold live in Hin. cbn in Hin. by apply elem_of_nil in Hin. Qed.

(** The jumper closes the open end. *)
Lemma jumper_live h : live (append_jumper h) = live h.
Proof. done. Qed.

Lemma jumper_kept h off c :
  translation_cache h !! off = Some c -> off + chunk_size c <= translation_cache_ptr h ->
  translation_cache (append_jumper h) !! off = Some c.
Proof.
  intros Hc Hle. cbn. apply write_chunk_apart; [done|apply chunk_size_pos|apply jumper_size_pos|by left].
Qed.

Lemma jumper_block base h it t ps :
  cache_wf base h -> it ∈ live h -> block_at (append_jumper h) (tc_offset it) t ps ->
  block_at h (tc_offset it) t ps /\
  tc_offset it + translation_size (t_indicator t) <= translation_cache_ptr h.
Proof.
  intros HW Hin Hb. pose proof (wf_placed _ _ HW) as HP. rewrite Forall_forall in HP.
  destruct (HP it Hin) as (t0 & ps0 & Hb0 & _ & Hhi).
  assert (Hb' : block_at (append_jumper h) (tc_offset it) t0 ps0) by by apply jumper_kept.
  unfold block_at in *. rewrite Hb in Hb'. by simplify_eq.
Qed.

Lemma jumper_wf base h :
  cache_wf base h -> translation_cache_ptr h + jumper_size <= TRANSLATION_CACHE_SIZE ->
  cache_wf base (append_jumper h).
Proof.
  intros HW Hroom. pose proof (wf_placed _ _ HW) as HP. destruct HW. split; try done.
  - cbn. pose proof jumper_size_pos. lia.
  - rewrite jumper_live. rewrite Forall_forall in HP |- *. intros it Hin.
    destruct (HP it Hin) as (t & ps & Hb & Hlo & Hhi). exists t, ps.
    split; [by apply jumper_kept|]. cbn. pose proof jumper_size_pos. lia.
Qed.

Lemma jumper_chain base h next :
  cache_wf base h -> chained_open h next -> chained (append_jumper h).
Proof.
  intros HW HC it t ps Hin Hb Hf. left. rewrite jumper_live in Hin.
  destruct (jumper_block base h it t ps HW Hin Hb) as [Hb0 Hhi].
  destruct (HC it t ps Hin Hb0 Hf) as [[[HJ Hle]|HR]|[Ho _]].
  - left. pose proof jumper_size_pos. split; [by apply jumper_kept|]. cbn. lia.
  - by right.
  - left. rewrite Ho. cbn. split; [apply write_chunk_same|lia].
Qed.
End Chain.

(** ** The loop *)

Section Loop_facts.
Context `{AssemblerOk}.

(** The harts differ at most in the instruction TLB and in the translation cache. *)
Definition guest_same (h h' : hart) : Prop := same_guest (set_itlb (itlb h') h) h'.

Lemma guest_same_refl h : guest_same h h.
Proof. by destruct h. Qed.
Lemma guest_same_trans h1 h2 h3 : guest_same h1 h2 -> guest_same h2 h3 -> guest_same h1 h3.
Proof. unfold guest_same, same_guest. intros -> ->. done. Qed.
Lemma guest_same_itlb h h' : itlb_changed h h' -> guest_same h h'.
Proof. intros [->|[t ->]]; by destruct h. Qed.
Lemma guest_same_cache h h' : same_guest h h' -> guest_same h h'.
Proof. unfold guest_same, same_guest. intros ->. by destruct h. Qed.

(** The fields of the hart the rest of the emulator looks at. *)
Lemma guest_same_fields h h' : guest_same h h' ->
  registers h' = registers h /\ pc h' = pc h /\ hart_magic h' = hart_magic h.
Proof. unfold guest_same, same_guest. by intros ->. Qed.

(** ** The words fetched *)

(** One word, and what translating it does to the cache, which a guest does not see. *)
Definition fetch_word (a : Z) (m : machine) (i : Z) (m' : machine) : Prop :=
  exists m1 h, mmu_instruction_read32 a m = Ok i m1 /\ same_guest (m_hart m1) h /\ m' = set_m_hart h m1.

(** From [a] on, the words [ws] are fetched one after the other, each by a read of the
    machine the fetches before it have left, and [m'] is what they leave. *)
Inductive fetches : Z -> machine -> list Z -> machine -> Prop :=
  | fetches_none a m h : same_guest (m_hart m) h -> fetches a m [] (set_m_hart h m)
  | fetches_word a m i m1 ws m' :
      fetch_word a m i m1 -> fetches (u32 (a + 4)) m1 ws m' -> fetches a m (i :: ws) m'.

(** All that fetching and translating may change: the instruction TLB, the translation
    cache, and the devices whose registers are read as words. *)
Record prefetching (m m' : machine) : Prop := {
  pf_machine : exists p u, m' = set_m_hart (m_hart m') (set_plic p (set_uart u m));
  pf_guest : guest_same (m_hart m) (m_hart m')
}.

Lemma prefetching_refl m : prefetching m m.
Proof. split; [exists (plic m), (uart m); by destruct m|apply guest_same_refl]. Qed.
Lemma prefetching_trans m1 m2 m3 : prefetching m1 m2 -> prefetching m2 m3 -> prefetching m1 m3.
Proof.
  intros [(p1 & u1 & E1) H1] [(p2 & u2 & E2) H2]. split; [exists p2, u2; by rewrite E2, E1|].
  by eapply guest_same_trans.
Qed.
Lemma prefetching_hart m h : guest_same (m_hart m) h -> prefetching m (set_m_hart h m).
Proof. split; [exists (plic m), (uart m); by destruct m|done]. Qed.
Lemma prefetching_word a m i m1 : fetch_word a m i m1 -> prefetching m m1.
Proof.
  intros (m0 & h & (_ & Hi & Hm)%fetch_frame & Hh & ->).
  apply (prefetching_trans m m0); [split; [done|by apply guest_same_itlb]|].
  by apply prefetching_hart, guest_same_cache.
Qed.

Lemma fetches_frame a m ws m' : fetches a m ws m' -> prefetching m m'.
Proof.
  induction 1 as [a m h Hh|a m i m1 ws m' HF _ IH]; [by apply prefetching_hart, guest_same_cache|].
  eapply prefetching_trans; [by eapply prefetching_word|done].
Qed.

Lemma fetches_refl a m : fetches a m [] m.
Proof.
  replace m with (set_m_hart (m_hart m) m) at 2 by by destruct m. constructor. apply same_guest_refl.
Qed.

Lemma fetches_one a m i m1 : fetch_word a m i m1 -> fetches a m [i] m1.
Proof. intros. eapply fetches_word; [done|apply fetches_refl]. Qed.

(** A change of the cache after the last word. *)
Lemma fetches_cache a m ws m' h : fetches a m ws m' -> same_guest (m_hart m') h -> fetches a m ws (set_m_hart h m').
Proof.
  intros HF Hh. induction HF as [a m h0 H0'|a m i m1 ws m' HF1 _ IH]; [|by eapply fetches_word; [..|apply IH]].
  change (set_m_hart h (set_m_hart h0 m)) with (set_m_hart h m). constructor. by eapply same_guest_trans.
Qed.

(** The translation cache is the one of [h]. *)
Definition cache_same (h h' : hart) : Prop :=
  translation_cache h' = translation_cache h /\ translation_cache_ptr h' = translation_cache_ptr h /\
  nr_translated_instructions h' = nr_translated_instructions h /\ pc_mappings h' = pc_mappings h.

Lemma cache_same_itlb h h' : itlb_changed h h' -> cache_same h h'.
Proof. by intros [->|[t ->]]. Qed.

Lemma cache_same_live h h' : cache_same h h' -> live h' = live h.
Proof. unfold live. by intros (_ & _ & -> & ->). Qed.

Lemma cache_same_wf base h h' : cache_same h h' -> cache_wf base h -> cache_wf base h'.
Proof.
  intros HS HW. pose proof (cache_same_live h h' HS) as HL. destruct HS as (E1 & E2 & E3 & E4).
  destruct HW. split; rewrite ?HL, ?E2, ?E3, ?E4; try done.
  eapply Forall_impl; [done|]. intros it (t & ps & Hb & Hr). exists t, ps.
  unfold block_at. by rewrite E1, E2.
Qed.

Lemma cache_same_chain h h' next : cache_same h h' -> chained_open h next -> chained_open h' next.
Proof.
  intros HS HC it t ps. pose proof (cache_same_live h h' HS) as HL. destruct HS as (E1 & E2 & _).
  unfold block_at, linked. rewrite HL, E1, E2. apply HC.
Qed.

Lemma cache_same_translated h h' a : cache_same h h' -> translated h' a <-> translated h a.
Proof. intros HS. unfold translated. by rewrite (cache_same_live h h' HS). Qed.

Lemma live_length base h : cache_wf base h -> Z.of_nat (length (live h)) = nr_translated_instructions h.
Proof. intros []. unfold live. rewrite length_take. lia. Qed.

(** One instruction: the fetch, then a block added or no room. *)
Lemma prefetch_one_spec base b m b' m' :
  cache_wf base (m_hart m) -> is_uint 32 (next_instruction_to_fetch b) ->
  in_window base (next_instruction_to_fetch b) -> ~ translated (m_hart m) (next_instruction_to_fetch b) ->
  prefetch_one_instruction b m = Ok b' m' ->
  exists i m1 t ps, mmu_instruction_read32 (next_instruction_to_fetch b) m = Ok i m1 /\
    m' = set_m_hart (m_hart m') m1 /\
    translate_result base t ps (epilogue_for t) b (m_hart m1) b' (m_hart m').
Proof.
  intros HW Ha Hwin Hnew. unfold prefetch_one_instruction, bind.
  destruct (mmu_instruction_read32 _ m) as [i m1| | |] eqn:EF; [|done..].
  destruct (translators _) as [tr|] eqn:ET; [|done]. intros E.
  apply fetch_frame in EF as (_ & HF & _). pose proof (cache_same_itlb _ _ HF) as HS.
  destruct (translators_shaped _ tr i ET b) as [HN|(t & ps & ep & HT & ->)]; [by rewrite HN in E|].
  rewrite HT in E. exists i, m1, t, ps. split; [done|].
  destruct (translate_spec base t ps (epilogue_for t) b (m_hart m1)) as (b1 & h' & E1 & HR);
    [by eapply cache_same_wf|done|done|by rewrite (cache_same_translated _ _ _ HS)|].
  rewrite E1 in E. injection E as <- <-. by split.
Qed.

(** It is a fetch. *)
Lemma result_same base t ps ep b h b' h' : translate_result base t ps ep b h b' h' -> same_guest h h'.
Proof.
  intros [h0 h1 Hh HA|_ _]; [|apply same_guest_refl].
  eapply same_guest_trans; [|apply (added_same _ _ _ _ _ _ HA)].
  destruct Hh as [->|(-> & _)]; [apply same_guest_refl|apply flush_same_guest].
Qed.

(** The state of the loop after [j] rounds, at least one. *)
Record rest_inv (base pc0 : Z) (j : nat) (b : prefetch_blob) (h : hart) : Prop := {
  ri_wf : cache_wf base h;
  ri_next : next_instruction_to_fetch b = u32 (pc0 + 4 * Z.of_nat j);
  ri_go : is_to_stop b = false;
  ri_flush : is_flushable b = false;
  ri_chain : chained_open h (Some (next_instruction_to_fetch b));
  ri_pc : translated h pc0;
  ri_room : translation_cache_ptr h + jumper_size <= TRANSLATION_CACHE_SIZE;
  ri_count : (j <= length (live h))%nat
}.

Record rest_post (base pc0 : Z) (h' : hart) : Prop := {
  rp_wf : cache_wf base h';
  rp_chain : exists next, chained_open h' next;
  rp_pc : translated h' pc0;
  rp_room : translation_cache_ptr h' + jumper_size <= TRANSLATION_CACHE_SIZE
}.

(** The addresses a prefetch can visit lie in one half of the address space. *)
Definition prefetch_window (base pc0 : Z) : Prop :=
  forall j, 0 <= j <= MAX_INSTRUCTIONS_TOTRANSLATE -> in_window base (u32 (pc0 + 4 * j)).

Lemma added_translated base h a t ps h' x :
  added base h a t ps h' -> translated h' x <-> x = a \/ translated h x.
Proof.
  intros HA. unfold translated. rewrite (added_live _ _ _ _ _ _ HA). cbn. apply elem_of_cons.
Qed.

(** A round that adds a block. *)
Lemma round_added base pc0 j b h0 t ps h' :
  cache_wf base h0 -> next_instruction_to_fetch b = u32 (pc0 + 4 * Z.of_nat j) -> is_to_stop b = false ->
  chained_open h0 (Some (next_instruction_to_fetch b)) ->
  (pc0 = next_instruction_to_fetch b \/ translated h0 pc0) -> (j <= length (live h0))%nat ->
  added base h0 (next_instruction_to_fetch b) t (map u32 ps) h' ->
  let b' := epilogue_for t (set_is_flushable false b) in
  rest_post base pc0 h' /\ (is_to_stop b' = false -> rest_inv base pc0 (S j) b' h').
Proof.
  intros HW Hn Hgo HC Hpc Hj HA b'.
  pose proof (added_chain base h0 _ t (map u32 ps) h' HW HC HA) as HC'.
  assert (Htr : translated h' pc0).
  { rewrite (added_translated _ _ _ _ _ _ _ HA). tauto. }
  assert (Hlen : (S j <= length (live h'))%nat).
  { rewrite (Permutation_length (added_live _ _ _ _ _ _ HA)). cbn. lia. }
  split.
  - split; [apply (added_wf _ _ _ _ _ _ HA)|by eexists|done|apply (added_room _ _ _ _ _ _ HA)].
  - subst b'. unfold epilogue_for. destruct (template_falls t); [|done]. intros _.
    split; cbn [advance set_next set_is_flushable next_instruction_to_fetch is_to_stop is_flushable];
      try done; [apply (added_wf _ _ _ _ _ _ HA)| |apply (added_room _ _ _ _ _ _ HA)].
    rewrite Hn, u32_add_l. f_equal. lia.
Qed.

(** What the lookup at the start of a round finds. *)
Lemma rest_search base pc0 j b m :
  prefetch_window base pc0 -> rest_inv base pc0 j b (m_hart m) ->
  exists o, search_hart (next_instruction_to_fetch b) m = Ok o m /\
    match o with Some _ => True | None => ~ translated (m_hart m) (next_instruction_to_fetch b) end.
Proof.
  intros Hwin [HW Hn Hgo Hfl HC Hpc Hroom Hj].
  assert (Hjmax : 0 <= Z.of_nat j <= MAX_INSTRUCTIONS_TOTRANSLATE).
  { pose proof (wf_nr _ _ HW). rewrite <- (live_length base) in * by done. lia. }
  destruct (search_translation_item_spec base (m_hart m) (next_instruction_to_fetch b) HW) as (o & Es & Ho);
    [rewrite Hn; apply u32_range|rewrite Hn; by apply Hwin|].
  exists o. unfold search_hart. rewrite Es. split; [done|]. by destruct o.
Qed.

(** The next round of the loop. *)
Lemma rest_step base pc0 j b m b1 m1 :
  prefetch_window base pc0 -> rest_inv base pc0 j b (m_hart m) ->
  ~ translated (m_hart m) (next_instruction_to_fetch b) ->
  prefetch_one_instruction b m = Ok b1 m1 ->
  rest_post base pc0 (m_hart m1) /\ (exists i, fetch_word (next_instruction_to_fetch b) m i m1) /\
  (is_to_stop b1 = false -> rest_inv base pc0 (S j) b1 (m_hart m1)).
Proof.
  intros Hwin [HW Hn Hgo Hfl HC Hpc Hroom Hj] Hnew E1.
  assert (Hjmax : 0 <= Z.of_nat j <= MAX_INSTRUCTIONS_TOTRANSLATE).
  { pose proof (wf_nr _ _ HW). rewrite <- (live_length base) in * by done. lia. }
  assert (Hu : is_uint 32 (next_instruction_to_fetch b)) by (rewrite Hn; apply u32_range).
  assert (Hw : in_window base (next_instruction_to_fetch b)) by (rewrite Hn; by apply Hwin).
  destruct (prefetch_one_spec base b m b1 m1 HW Hu Hw Hnew E1) as (i & mi & t & ps & Ei & Em & HR).
  assert (HG : exists i, fetch_word (next_instruction_to_fetch b) m i m1).
  { exists i, mi, (m_hart m1). split; [done|]. split; [by eapply result_same|done]. }
  pose proof (proj1 (proj2 (fetch_frame _ _ _ _ Ei))) as HI. pose proof (cache_same_itlb _ _ HI) as HS.
  remember (m_hart mi) as h1 eqn:Eh1. clear Eh1 Ei Em.
  inversion HR as [h0 h' Hh0 HA Eb Eh|Hf Hfull Eb Eh]; subst.
  - destruct Hh0 as [->|(_ & Hf & _)]; [|congruence].
    destruct (round_added base pc0 j b h1 t ps (m_hart m1)) as [HP HN]; [by eapply cache_same_wf|
      done|done|by eapply cache_same_chain|right; by rewrite (cache_same_translated _ _ _ HS)|
      by rewrite (cache_same_live _ _ HS)|done|].
    by split.
  - split; [|by split]. split.
    + by eapply cache_same_wf.
    + eexists. by eapply cache_same_chain.
    + by rewrite (cache_same_translated _ _ _ HS).
    + destruct HS as (_ & -> & _). done.
Qed.

Lemma loop_rest base pc0 fuel : prefetch_window base pc0 -> forall j b m fin m',
  rest_inv base pc0 j b (m_hart m) -> prefetch_loop fuel b m = Ok fin m' ->
  rest_post base pc0 (m_hart m') /\ (exists ws, fetches (next_instruction_to_fetch b) m ws m') /\
  (MAX_INSTRUCTIONS_TOTRANSLATE < Z.of_nat (j + fuel) -> fin = true).
Proof.
  intros Hwin. induction fuel as [|fuel IH]; intros j b m fin m' HI E.
  - destruct HI as [HW Hn Hgo Hfl HC Hpc Hroom Hj].
    injection E as <- <-. split; [split; [done|by eexists|done|done]|]. split; [eexists; apply fetches_refl|].
    pose proof (wf_nr _ _ HW). rewrite <- (live_length base) in * by done. lia.
  - destruct (rest_search base pc0 j b m Hwin HI) as (o & Es & Ho).
    cbn [prefetch_loop] in E. unfold bind at 1 in E. rewrite Es in E. destruct o as [it|].
    { injection E as <- <-. destruct HI. split; [split; [done|by eexists|done|done]|].
      by split; [eexists; apply fetches_refl|]. }
    unfold bind in E. destruct (prefetch_one_instruction b m) as [b1 m1| | |] eqn:E1; [|done..].
    destruct (rest_step base pc0 j b m b1 m1 Hwin HI Ho E1) as (HP & [i HG] & HN).
    destruct (is_to_stop b1).
    + injection E as <- <-. split; [done|]. split; [|done]. eexists. by apply fetches_one.
    + destruct (IH (S j) _ m1 fin m' (HN eq_refl) E) as (HP' & [ws HG2] & Hfin).
      split; [done|]. split; [|intros; apply Hfin; lia]. exists (i :: ws). eapply fetches_word; [exact HG|].
      rewrite (ri_next _ _ _ _ _ HI), u32_add_l. rewrite (ri_next _ _ _ _ _ (HN eq_refl)) in HG2.
      by replace (pc0 + 4 * Z.of_nat j + 4) with (pc0 + 4 * Z.of_nat (S j)) by lia.
Qed.

(** The blob the prefetch starts with. *)
Definition first_blob (a : Z) : prefetch_blob :=
  {| next_instruction_to_fetch := a; is_to_stop := false; is_flushable := true |}.

(** The first round, from a pc that is not translated. *)
Lemma first_step base m b1 m1 :
  let pc0 := pc (m_hart m) in
  cache_wf base (m_hart m) -> chained (m_hart m) -> is_uint 32 pc0 -> in_window base pc0 ->
  ~ translated (m_hart m) pc0 -> prefetch_one_instruction (first_blob pc0) m = Ok b1 m1 ->
  rest_post base pc0 (m_hart m1) /\ (exists i, fetch_word pc0 m i m1) /\
  (is_to_stop b1 = false -> rest_inv base pc0 1 b1 (m_hart m1)).
Proof.
  intros pc0 HW HC Hu Hw Ho E1.
  destruct (prefetch_one_spec base (first_blob pc0) m b1 m1 HW Hu Hw Ho E1) as (i & mi & t & ps & Ei & Em & HR).
  assert (HG : exists i, fetch_word pc0 m i m1).
  { exists i, mi, (m_hart m1). split; [done|]. split; [by eapply result_same|done]. }
  pose proof (proj1 (proj2 (fetch_frame _ _ _ _ Ei))) as HI. pose proof (cache_same_itlb _ _ HI) as HS.
  remember (m_hart mi) as h1 eqn:Eh1. clear Eh1 Ei Em.
  inversion HR as [h0 h' Hh0 HA Eb Eh|Hf Hfull Eb Eh]; [|done]. subst b1 h'.
  assert (HW1 : cache_wf base h1) by (by eapply cache_same_wf).
  assert (Hbase : cache_wf base h0 /\ chained_open h0 (Some pc0)).
  { destruct Hh0 as [->|(-> & _ & _)].
    - split; [done|]. eapply cache_same_chain; [done|]. by apply chained_weaken.
    - split; [by apply flush_cache_wf|apply flushed_chain]. }
  destruct Hbase as (HW0 & HC0).
  destruct (round_added base pc0 0 (first_blob pc0) h0 t ps (m_hart m1)) as [HP HN]; [done| |done|done|
    by left|lia|done|].
  { cbn [first_blob next_instruction_to_fetch]. by rewrite Z.mul_0_r, Z.add_0_r, u32_id. }
  by split.
Qed.

Lemma prefetch_fuel_rounds : exists n, PREFETCH_FUEL = S n /\ Z.of_nat n = MAX_INSTRUCTIONS_TOTRANSLATE.
Proof.
  exists (Z.to_nat MAX_INSTRUCTIONS_TOTRANSLATE). unfold PREFETCH_FUEL, MAX_INSTRUCTIONS_TOTRANSLATE. lia.
Qed.

Lemma window_start base a : is_uint 32 a -> prefetch_window base a -> in_window base a.
Proof.
  intros Hu Hwin. rewrite <- (u32_id a) by done. rewrite <- (Z.add_0_r a).
  apply (Hwin 0). unfold MAX_INSTRUCTIONS_TOTRANSLATE. lia.
Qed.

(** The whole loop from the guest's pc: the pc was there already and nothing
    happened, or blocks were added. *)
Lemma prefetch_loop_spec base m fin m' :
  cache_wf base (m_hart m) -> chained (m_hart m) -> is_uint 32 (pc (m_hart m)) ->
  prefetch_window base (pc (m_hart m)) ->
  prefetch_loop PREFETCH_FUEL (first_blob (pc (m_hart m))) m = Ok fin m' ->
  fin = true /\ (exists ws, fetches (pc (m_hart m)) m ws m') /\
  ((m' = m /\ translated (m_hart m) (pc (m_hart m))) \/
   (rest_post base (pc (m_hart m)) (m_hart m') /\ ~ translated (m_hart m) (pc (m_hart m)))).
Proof.
  intros HW HC Hu Hwin E. destruct prefetch_fuel_rounds as (n & HFe & Hn).
  rewrite HFe in E. cbn [prefetch_loop next_instruction_to_fetch first_blob] in E.
  pose proof (window_start _ _ Hu Hwin) as Hw. unfold bind at 1, search_hart in E.
  destruct (search_translation_item_spec base _ _ HW Hu Hw) as (o & Es & Ho). rewrite Es in E.
  cbn [of_opt] in E. unfold ret at 1 in E. destruct o as [it|].
  { injection E as <- <-. split; [done|]. split; [eexists; apply fetches_refl|]. left. split; [done|].
    destruct Ho as [Hin <-]. by apply list_elem_of_fmap_2. }
  unfold bind in E. fold (first_blob (pc (m_hart m))) in E.
  destruct (prefetch_one_instruction _ m) as [b1 m1| | |] eqn:E1; [|done..].
  destruct (first_step base m b1 m1 HW HC Hu Hw Ho E1) as (HP & [i HG] & HN).
  destruct (is_to_stop b1).
  - injection E as <- <-. split; [done|]. split; [|by right]. eexists. by apply fetches_one.
  - destruct (loop_rest base (pc (m_hart m)) n Hwin 1 _ m1 fin m' (HN eq_refl) E) as (HP' & [ws HG2] & Hfin).
    split; [apply Hfin; lia|]. split; [|by right]. exists (i :: ws). eapply fetches_word; [exact HG|].
    by rewrite (ri_next _ _ _ _ _ (HN eq_refl)) in HG2.
Qed.

Lemma jumper_same_guest h : same_guest h (append_jumper h).
Proof. by destruct h. Qed.

Lemma prefetch_spec base m fin m' :
  let h := m_hart m in let h' := m_hart m' in
  cache_wf base h -> chained h -> is_uint 32 (pc h) -> prefetch_window base (pc h) ->
  prefetch_instructions m = Ok fin m' ->
  fin = true /\ cache_wf base h' /\ (exists ws, fetches (pc h) m ws m') /\
  (exists it, vmresume m = Some (Ok (tc_offset it) m') /\ it ∈ live h' /\ guest_pc it = pc h) /\
  (translation_cache_ptr h' <> translation_cache_ptr h \/ live h' = live h -> chained h').
Proof.
  intros h h' HW HC Hu Hwin E. pose proof E as EP.
  unfold prefetch_instructions, bind, gets, modify in E. cbv zeta in E.
  fold (first_blob (pc (m_hart m))) in E.
  destruct (prefetch_loop _ _ m) as [fin1 m1| | |] eqn:EL; [|done..].
  apply (prefetch_loop_spec base) in EL as (-> & [ws HG2] & HO); [|done..].
  unfold ret in E. injection E as <- Em. split; [done|].
  assert (Hpost : cache_wf base h' /\ (exists ws, fetches (pc h) m ws m') /\ translated h' (pc h) /\
    (translation_cache_ptr h' <> translation_cache_ptr h \/ live h' = live h -> chained h')).
  { subst h'. destruct HO as [[-> Htr]|[[HW1 [next HC1] Htr Hroom] Hnew]].
    - rewrite Z.eqb_refl in Em. cbn [negb] in Em. subst m'. split; [done|]. split; [by exists ws|]. split; [done|]. intros _. exact HC.
    - destruct (Z.eqb_spec (translation_cache_ptr (m_hart m)) (translation_cache_ptr (m_hart m1))) as [Ep|Ep];
        cbn [negb] in Em; subst m'.
      + split; [done|]. split; [by exists ws|]. split; [done|]. intros [Hp|Hl]; [by destruct Hp; symmetry|].
        exfalso. apply Hnew. unfold translated in *. cbn in Hl. unfold h in Hl. by rewrite <- Hl.
      + split; [by apply jumper_wf|]. split; [exists ws; apply fetches_cache; [done|apply jumper_same_guest]|].
        split; [done|]. intros _. by eapply jumper_chain. }
  destruct Hpost as (HW' & HG' & Htr & HC'). split; [done|]. split; [done|]. split; [|done].
  destruct HG' as [ws' HF]. pose proof (guest_same_fields _ _ (pf_guest _ _ (fetches_frame _ _ _ _ HF))) as (_ & HG' & _).
  apply list_elem_of_fmap in Htr as (it & Epc & Hin). exists it. split; [|done].
  unfold vmresume, bind at 1. rewrite EP. unfold enter_cache, bind, gets, search_hart.
  fold h'. fold h in HG'. fold h' in HG'. rewrite HG', Epc, (search_translated base) by done. done.
Qed.

(** ** Properties *)

(** C9. Prefetching. From a well-formed, chained cache, when the pcs a prefetch can
    visit lie in one half of the address space and it is not cut short by a trap,
    [prefetch_instructions] ends by itself and keeps the cache well-formed. What it does
    to the rest of the machine is to fetch words from the guest's pc on, one after the
    other, and nothing else: each fetch reads the machine the one before has left, and may
    fill the instruction TLB, or read the register of a device if the pc lies in one. The
    guest's pc is then translated: [vmresume] gets
    past its assertion and enters the cache at the block of the pc. The cache is
    again chained: every block that falls through is followed by the block of the
    next instruction or by the jumper (provided a refill after a flush did not end at
    exactly the old end of the cache, which the code takes for "nothing added"). *)
Theorem prefetch_correct base m fin m' :
  let h := m_hart m in let h' := m_hart m' in
  cache_wf base h -> chained h -> is_uint 32 (pc h) -> prefetch_window base (pc h) ->
  prefetch_instructions m = Ok fin m' ->
  fin = true /\ cache_wf base h' /\ (exists ws, fetches (pc h) m ws m') /\ prefetching m m' /\
  (exists it, vmresume m = Some (Ok (tc_offset it) m') /\ it ∈ live h' /\ guest_pc it = pc h) /\
  (translation_cache_ptr h' <> translation_cache_ptr h \/ live h' = live h -> chained h').
Proof.
  intros h h' HW HC Hu Hwin E. destruct (prefetch_spec base m fin m' HW HC Hu Hwin E) as (Hf & HW' & [ws HF] & HR).
  do 2 (split; [done|]). split; [by exists ws|]. split; [by eapply fetches_frame|done].
Qed.
End Loop_facts.

Module Witness.
Import Concrete Board.
#[local] Existing Instance sizes.

(** Machine level at the start of main memory: addi a0, zero, 1; then ecall. *)
Definition start : machine :=
  board (empty_hart 0x80000000) [(0, 0x00100513); (4, 0x00000073)].

Lemma start_chained : chained (m_hart start).
Proof. intros it t ps Hin. by apply elem_of_nil in Hin. Qed.

Lemma window_of base pc0 :
  u32 (pc0 - base) + 4 * MAX_INSTRUCTIONS_TOTRANSLATE < 2 ^ 31 -> prefetch_window base pc0.
Proof.
  unfold prefetch_window, in_window, MAX_INSTRUCTIONS_TOTRANSLATE. intros Hb j Hj.
  replace (u32 (u32 (pc0 + 4 * j) - base)) with (u32 (u32 (pc0 - base) + 4 * j)).
  - pose proof (u32_range (pc0 - base)). unfold is_uint in *. rewrite u32_id by (unfold is_uint; lia). lia.
  - rewrite u32_add_l, u32_sub_l. f_equal. lia.
Qed.

Definition finish : machine :=
  match prefetch_instructions start with Ok _ m => m | _ => start end.

Lemma start_window : prefetch_window 0x80000000 (pc (m_hart start)).
Proof. change (pc (m_hart start)) with 0x80000000. apply window_of; by vm_compute. Qed.

Lemma prefetch_correct_witness :
  prefetch_instructions start = Ok true finish /\
  exists it, vmresume start = Some (Ok (tc_offset it) finish) /\ it ∈ live (m_hart finish) /\
    guest_pc it = pc (m_hart start).
Proof.
  assert (E : prefetch_instructions start = Ok true finish) by (vm_compute; reflexivity).
  assert (Hpc : is_uint 32 (pc (m_hart start))).
  { change (pc (m_hart start)) with 0x80000000. unfold is_uint. lia. }
  split; [exact E|].
  exact (proj1 (proj2 (proj2 (proj2 (proj2 (prefetch_correct 0x80000000 start true finish
    (empty_cache_wf _ _) start_chained Hpc start_window E)))))).
Defined.
End Witness.
