(* ===== verification/Debug.v ===== *)
(** * The debugger

    Models src/vmm/debug_breakpoint.c, the sorted table of breakpoints, and the
    command loop of src/vmm/debug.c. The blocks of the translation cache enter it
    before every guest instruction. A command is an action on the machine; what a
    command prints is not modelled, but everything it reads and changes is. The
    lines the debugger reads are [stdin_lines], without zero bytes; when they run
    out the source repeats the last command, so a session that never continues has
    no result.

    Proved here: the breakpoint table is a set (what was added is found, nothing
    else is); the command found is the one with the longest prefix of the line; and
    the debugger is transparent: whatever is typed, it returns with the guest's
    registers, pc, csrs and memory as they were. *)

From stdpp Require Import sorting.
From S2P Require Import Prelude SortSearch Monad PmRegion X86 Hart Trap Clint Plic.
From S2P Require Import Uart Machine Mmu CsrHandlers Csr.
Local Open Scope Z_scope.

(** ** Breakpoints *)

Definition MAX_BREAKPOINTS : Z := 256.

(** src/vmm/debug_breakpoint.c:14-18 addr_cmp *)
Definition addr_cmp (addr0 addr1 : Z) : option Z := Some (s32 (addr0 - addr1)).

(** The table is the list of its [nr_breakpoints] entries.
    src/vmm/debug_breakpoint.c:39-45 is_address_breakpoint *)
Definition is_address_breakpoint (guest_addr : Z) (breakpoints : list Z) : option bool :=
  pbp ← SEARCH addr_cmp breakpoints (Z.of_nat (length breakpoints)) guest_addr;
  Some (match pbp with Some _ => true | None => false end).

(** src/vmm/debug_breakpoint.c:20-37 add_breakpoint *)
Definition add_breakpoint (guest_addr : Z) (breakpoints : list Z) : option (Z * list Z) :=
  let nr_breakpoints := Z.of_nat (length breakpoints) in
  if truthy (Z.land guest_addr 0x3) then Some (-2, breakpoints) else
  if MAX_BREAKPOINTS <=? nr_breakpoints then Some (-1, breakpoints) else
  known ← is_address_breakpoint guest_addr breakpoints;
  if known : bool then Some (0, breakpoints) else
  sorted ← INSERTION_SORT addr_cmp (breakpoints ++ [guest_addr]) (nr_breakpoints + 1);
  Some (0, sorted).

(** ** Numbers of the C library *)

Definition is_space (c : Z) : bool := (c =? 0x20) || ((0x09 <=? c) && (c <=? 0x0d)).

Definition digit_of (base c : Z) : option Z :=
  let d := if (0x30 <=? c) && (c <=? 0x39) then c - 0x30
           else if (0x61 <=? c) && (c <=? 0x7a) then c - 0x61 + 10
           else if (0x41 <=? c) && (c <=? 0x5a) then c - 0x41 + 10 else base in
  if d <? base then Some d else None.

Fixpoint digits_value (base acc : Z) (s : list Z) : Z :=
  match s with
  | [] => acc
  | c :: s' => match digit_of base c with
              | Some d => digits_value base (acc * base + d) s'
              | None => acc
              end
  end.

Fixpoint skip_space (s : list Z) : list Z :=
  match s with
  | c :: s' => if is_space c then skip_space s' else s
  | [] => []
  end.

(** The optional [0x] of base 16, taken only before a digit. *)
Definition skip_0x (base : Z) (s : list Z) : list Z :=
  match s with
  | 0x30 :: x :: d :: s' =>
      if (base =? 16) && ((x =? 0x78) || (x =? 0x58)) && bool_decide (is_Some (digit_of base d))
      then d :: s' else s
  | _ => s
  end.

(** [strtol] of the C library, which saturates at the ends of a 64-bit [long]. *)
Definition strtol (base : Z) (s : list Z) : Z :=
  let s := skip_space s in
  let negative := match s with 0x2d :: _ => true | _ => false end in
  let s := match s with 0x2d :: s' | 0x2b :: s' => s' | _ => s end in
  let v := digits_value base 0 (skip_0x base s) in
  Z.max (- 2 ^ 63) (Z.min (2 ^ 63 - 1) (if negative then - v else v)).

Definition atoi (s : list Z) : Z := s32 (strtol 10 s).

(** ** Commands *)

(** src/vmm/debug.h:10-13 ACTIONS *)
Inductive ACTIONS := ACTION_CONTINUE | ACTION_STOP.

(** The functions the command table points to. *)
Module Cmd.
Inductive func :=
  | dump_registers_info | dump_translation | dump_breakpoints_info | debug_continue
  | add_breakpoint_command | inspect_memory | inspect_virtual_memory | backtrace_call | debug_help.
End Cmd.

(** src/vmm/debug.c:178-224 cmds_items *)
Definition cmds_items : list (list string * Cmd.func) :=
  [(["info"; "registers"], Cmd.dump_registers_info);
   (["info"; "translation"], Cmd.dump_translation);
   (["info"; "breakpoints"], Cmd.dump_breakpoints_info);
   (["continue"], Cmd.debug_continue);
   (["break"], Cmd.add_breakpoint_command);
   (["/x"], Cmd.inspect_memory);
   (["/v"], Cmd.inspect_virtual_memory);
   (["backtrace"], Cmd.backtrace_call);
   (["help"], Cmd.debug_help)]%string.

(** How many words of [argv] the whole prefix matches; 0 when it does not.
    src/vmm/debug.c:259-273 process_cmds_tokens *)
Fixpoint match_prefix (cmd_prefixs argv : list string) (idx : nat) : nat :=
  match cmd_prefixs with
  | [] => idx
  | ptr_token :: cmd_prefixs =>
      match argv with
      | [] => 0
      | arg :: argv =>
          if bool_decide (ptr_token = arg) then match_prefix cmd_prefixs argv (S idx) else 0
      end
  end.

(** src/vmm/debug.c:253-279 process_cmds_tokens *)
Fixpoint find_command (items : list (list string * Cmd.func)) (argv : list string)
    (item_found : option Cmd.func) (lpm_counter : nat) : option Cmd.func * nat :=
  match items with
  | [] => (item_found, lpm_counter)
  | (cmd_prefixs, func) :: items =>
      let lpm_counter_tmp := match_prefix cmd_prefixs argv 0 in
      if (0 <? lpm_counter_tmp)%nat && (lpm_counter <? lpm_counter_tmp)%nat
      then find_command items argv (Some func) lpm_counter_tmp
      else find_command items argv item_found lpm_counter
  end.

Section Shell.
Context `{Assembler}.

(** Reads the words of the host memory behind the two addresses. *)
Fixpoint dump_words (count : nat) (ptr : Z) : prog machine unit :=
  match count with
  | O => ret tt
  | S count => let* _ := read_pte ptr in dump_words count (ptr + 4)
  end.

(** src/vmm/debug.c:64-104 inspect_memory *)
Definition inspect_memory (argv : list string) : prog machine ACTIONS :=
  match argv with
  | [a0; a1] =>
      let low_addr := u32 (strtol 16 (text a0)) in
      let high_addr := u32 (strtol 16 (text a1)) in
      if high_addr <? low_addr then ret ACTION_CONTINUE else
      let* pmr1 := find_region low_addr in
      let* pmr2 := find_region high_addr in
      match pmr1 with
      | None => ret ACTION_CONTINUE
      | Some r =>
          if negb (bool_decide (pmr1 = pmr2)) then ret ACTION_CONTINUE else
          if negb (has_pmr_direct r) then ret ACTION_CONTINUE else
          let pm_low := ram_direct low_addr r in
          let pm_high := ram_direct high_addr r in
          ASSERT (pm_low <=? pm_high) ;;;
          dump_words (Z.to_nat ((pm_high - pm_low + 3) / 4)) pm_low ;;;
          ret ACTION_CONTINUE
      end
  | _ => ret ACTION_CONTINUE
  end.

(** The loop of the virtual dump.
    src/vmm/debug.c:126-134 inspect_virtual_memory *)
Fixpoint dump_virtual (count : nat) (low_addr : Z) : prog machine unit :=
  match count with
  | O => ret tt
  | S count => let* _ := mmu_read32 low_addr in dump_virtual count (u32 (low_addr + 1))
  end.

(** src/vmm/debug.c:108-140 inspect_virtual_memory *)
Definition inspect_virtual_memory (argv : list string) : prog machine ACTIONS :=
  match argv with
  | [a0; a1] =>
      let low_addr := u32 (strtol 16 (text a0)) in
      let high_addr := u32 (strtol 16 (text a1)) in
      if high_addr <? low_addr then ret ACTION_CONTINUE else
      let low_addr := Z.land low_addr 0xfffffffc in
      let high_addr := Z.land high_addr 0xfffffffc in
      dump_virtual (Z.to_nat (high_addr - low_addr)) low_addr ;;;
      ret ACTION_CONTINUE
  | _ => ret ACTION_CONTINUE
  end.

(** src/vmm/debug.c:160-170 backtrace_call *)
Fixpoint backtrace_frames (count : nat) (first is_leaf_function : bool) (current_fp : Z) :
    prog machine unit :=
  match count with
  | O => ret tt
  | S count =>
      if first && is_leaf_function then
        let* fp := mmu_read32 (u32 (current_fp - 4)) in
        backtrace_frames count false is_leaf_function fp
      else
        let* _ := mmu_read32 (u32 (current_fp - 4)) in
        let* fp := mmu_read32 (u32 (current_fp - 8)) in
        backtrace_frames count false is_leaf_function fp
  end.

(** src/vmm/debug.c:142-172 backtrace_call *)
Definition backtrace_call (argv : list string) : prog machine ACTIONS :=
  match argv with
  | [a0; a1] =>
      let maxframe := atoi (text a1) in
      let* current_fp := gets (fun m => HART_REG (m_hart m) 8) in
      backtrace_frames (Z.to_nat maxframe) true (bool_decide (a0 = "leaf"%string)) current_fp ;;;
      ret ACTION_CONTINUE
  | _ => ret ACTION_CONTINUE
  end.

(** src/vmm/debug_breakpoint.c:63-74 add_breakpoint_command *)
Definition add_breakpoint_command (argv : list string) : prog machine ACTIONS :=
  match argv with
  | [] => ret ACTION_CONTINUE
  | a0 :: _ =>
      let addr := u32 (strtol 16 (text a0)) in
      let* bps := gets breakpoints in
      let* r := of_opt (add_breakpoint addr bps) in
      modify (set_breakpoints r.2) ;;;
      ret ACTION_CONTINUE
  end.

(** The call through the function pointer. *)
Definition run_command (func : Cmd.func) (argv : list string) : prog machine ACTIONS :=
  match func with
  | Cmd.dump_registers_info | Cmd.dump_translation | Cmd.dump_breakpoints_info | Cmd.debug_help =>
      ret ACTION_CONTINUE
  | Cmd.debug_continue => ret ACTION_STOP
  | Cmd.add_breakpoint_command => add_breakpoint_command argv
  | Cmd.inspect_memory => inspect_memory argv
  | Cmd.inspect_virtual_memory => inspect_virtual_memory argv
  | Cmd.backtrace_call => backtrace_call argv
  end.

(** src/vmm/debug.c:245-289 process_cmds_tokens *)
Definition process_cmds_tokens (argv : list string) : prog machine ACTIONS :=
  match find_command cmds_items argv None 0 with
  | (Some func, lpm_counter) =>
      if (0 <? lpm_counter)%nat then run_command func (drop lpm_counter argv)
      else ret ACTION_CONTINUE
  | (None, _) => ret ACTION_CONTINUE
  end.

(** ** The command loop *)

Definition CMDLINE_SIZE : nat := 256.
Definition TOKEN_SIZE : nat := 64.

(** [fgets(cmdline, n, stdin)] and the removal of the newline: at most [n - 1]
    characters of the next line, the rest stays to be read.
    src/vmm/debug.c:315-325 enter_vmm_dbg_shell *)
Definition fgets (n : nat) (lines : list string) : option (string * list string) :=
  match lines with
  | [] => None
  | l :: ls =>
      if (String.length l <? n - 1)%nat then Some (l, ls)
      else Some (String.substring 0 (n - 1) l,
                 String.substring (n - 1) (String.length l - (n - 1)) l :: ls)
  end.

(** [strtok] over the whole line, [cur] being the token under way, reversed. *)
Fixpoint strtok (s : list Ascii.ascii) (cur : list Ascii.ascii) : list string :=
  let flush := match cur with [] => [] | _ => [String.string_of_list_ascii (rev cur)] end in
  match s with
  | [] => flush
  | c :: s => if Ascii.eqb c (Ascii.ascii_of_nat 32) then flush ++ strtok s [] else strtok s (c :: cur)
  end.

(** src/vmm/debug.c:327-339 enter_vmm_dbg_shell *)
Definition split_tokens (cmdline : string) : list string :=
  take TOKEN_SIZE (strtok (String.list_ascii_of_string cmdline) []).

(** A token that does not fit its buffer has no defined copy.
    src/vmm/debug.c:345-349 enter_vmm_dbg_shell *)
Definition keep_tokens (tokens : list string) : prog machine unit :=
  if forallb (fun t => (String.length t <? TOKEN_SIZE)%nat) tokens
  then modify (set_last_tokens tokens) else failed.

(** One turn of the loop: [false] when there was no line left.
    src/vmm/debug.c:310-353 enter_vmm_dbg_shell *)
Definition dbg_turn : prog machine (bool * ACTIONS) :=
  let* lines := gets stdin_lines in
  let* last := gets last_tokens in
  match fgets (CMDLINE_SIZE - 1) lines with
  | None => let* action := process_cmds_tokens last in ret (false, action)
  | Some (cmdline, rest) =>
      modify (set_stdin_lines rest) ;;;
      match split_tokens cmdline with
      | [] => let* action := process_cmds_tokens last in ret (true, action)
      | tokens =>
          let* action := process_cmds_tokens tokens in
          keep_tokens tokens ;;;
          ret (true, action)
      end
  end.

(** At the end of the input the same command repeats for ever.
    src/vmm/debug.c:310-362 enter_vmm_dbg_shell *)
Fixpoint dbg_loop (fuel : nat) : prog machine unit :=
  match fuel with
  | O => failed
  | S fuel =>
      let* r := dbg_turn in
      match r with
      | (_, ACTION_STOP) => ret tt
      | (true, ACTION_CONTINUE) => dbg_loop fuel
      | (false, ACTION_CONTINUE) => failed
      end
  end.

(** A turn takes at least one character or one line's end. *)
Definition lines_weight (lines : list string) : nat :=
  foldr (fun l n => S (String.length l) + n)%nat 0%nat lines.

(** src/vmm/debug.c:295-363 enter_vmm_dbg_shell *)
Definition enter_vmm_dbg_shell (check_bps : Z) : prog machine unit :=
  let* m := get in
  ASSERT (hart_magic (m_hart m) =? HART_MAGIC_WORD) ;;;
  let* tracked :=
    (if truthy check_bps then of_opt (is_address_breakpoint (pc (m_hart m)) (breakpoints m))
     else ret true) in
  if negb tracked then ret tt else dbg_loop (S (lines_weight (stdin_lines m))).
End Shell.

(** ** The table *)

Definition window_of (base a : Z) : Prop := is_uint 32 a /\ in_window base a.
Definition addr_key (base a : Z) : Z := u32 (a - base).

(** The breakpoints lie in one half of the address space, in order. *)
Definition bps_ok (base : Z) (l : list Z) : Prop :=
  Forall (window_of base) l /\ StronglySorted (key_le (addr_key base)) l.

Lemma addr_cmp_agrees base : agrees addr_cmp (addr_key base) (window_of base).
Proof.
  intros x y [_ Hx] [_ Hy]. eexists. split; [reflexivity|].
  rewrite (sub_in_window base) by done. unfold addr_key.
  generalize (u32 (x - base)) (u32 (y - base)). intros a b.
  destruct (Z.compare_spec (a - b) 0), (Z.compare_spec a b); done || lia.
Qed.

Lemma is_breakpoint_spec base a l :
  bps_ok base l -> window_of base a ->
  is_address_breakpoint a l = Some (bool_decide (a ∈ l)).
Proof.
  intros [HF HS] Ha. unfold is_address_breakpoint.
  destruct (SEARCH_keyed addr_cmp (addr_key base) (window_of base) l (Z.of_nat (length l)) a)
    as (r & -> & Hr).
  - apply addr_cmp_agrees.
  - done.
  - by rewrite Nat2Z.id, firstn_all.
  - lia.
  - by rewrite Nat2Z.id, firstn_all.
  - cbn [mbind option_bind]. f_equal. symmetry. destruct r as [i|].
    + apply bool_decide_eq_true. destruct Hr as (_ & x & Hx & Hk).
      pose proof (Forall_lookup_1 _ _ _ _ HF Hx) as [Hx32 _]. destruct Ha as [Ha32 _].
      apply window_key_inj in Hk as ->; [|done..]. by eapply list_elem_of_lookup_2.
    + apply bool_decide_eq_false. intros Hin. rewrite Nat2Z.id, firstn_all, Forall_forall in Hr.
      by apply (Hr a Hin).
Qed.

Lemma add_breakpoint_spec base a l :
  bps_ok base l -> window_of base a ->
  exists rc l', add_breakpoint a l = Some (rc, l') /\ bps_ok base l' /\
    if truthy (Z.land a 3) then rc = -2 /\ l' = l
    else if MAX_BREAKPOINTS <=? Z.of_nat (length l) then rc = -1 /\ l' = l
    else rc = 0 /\ forall b, b ∈ l' <-> b = a \/ b ∈ l.
Proof.
  intros HB Ha. unfold add_breakpoint. case_test; [by eexists _, _|]. case_test; [by eexists _, _|].
  rewrite (is_breakpoint_spec base) by done. cbn [mbind option_bind].
  case_bool_decide as Hin.
  - eexists _, _. split; [done|]. split; [done|]. split; [done|]. intros b. split; [by right|].
    by intros [->|].
  - destruct HB as [HF HS].
    destruct (INSERTION_SORT_keyed addr_cmp (addr_key base) (window_of base)
      (addr_cmp_agrees base) l a [] HF Ha HS) as (l1 & l2 & -> & -> & HS').
    cbn [mbind option_bind]. rewrite app_nil_r. eexists _, _. split; [done|].
    apply Forall_app in HF as [HF1 HF2]. split; [|split; [done|]].
    + split; [|done]. apply Forall_app. split; [done|]. by constructor.
    + intros b. rewrite !elem_of_app, elem_of_cons. tauto.
Qed.

(** ** The command found *)

Lemma match_prefix_spec ps argv idx :
  match_prefix ps argv idx = if bool_decide (ps `prefix_of` argv) then (idx + length ps)%nat else 0%nat.
Proof.
  revert argv idx. induction ps as [|p ps IH]; intros argv idx; cbn [match_prefix].
  - rewrite bool_decide_true by apply prefix_nil. cbn. lia.
  - destruct argv as [|a argv].
    + rewrite bool_decide_false; [done|]. by intros [k E].
    + case_bool_decide as Hpa.
      * subst a. rewrite IH. cbn [length]. do 2 case_bool_decide; try done.
        -- lia.
        -- by destruct H0; apply prefix_cons.
        -- by destruct H; eapply prefix_cons_inv_2.
      * rewrite bool_decide_false; [done|]. intros E. by apply prefix_cons_inv_1 in E.
Qed.

(** [f] is the command of the longest of the prefixes of [argv] in the table. *)
Definition longest (items : list (list string * Cmd.func)) (argv : list string)
    (found : option Cmd.func) (n : nat) : Prop :=
  match found with
  | Some f => exists ps, (ps, f) ∈ items /\ length ps = n /\ ps `prefix_of` argv
  | None => n = 0%nat
  end /\
  forall ps f, (ps, f) ∈ items -> ps `prefix_of` argv -> (length ps <= n)%nat.

Lemma longest_other items argv found n ps f :
  longest items argv found n -> (ps `prefix_of` argv -> (length ps <= n)%nat) ->
  longest (items ++ [(ps, f)]) argv found n.
Proof.
  intros [Hfound Hmax] Hps. split.
  - destruct found; [|done]. destruct Hfound as (ps' & ? & ?). exists ps'.
    split; [|done]. apply elem_of_app. by left.
  - intros ps' f' [Hin|Hin]%elem_of_app Hp'; [by eapply Hmax|].
    apply list_elem_of_singleton in Hin. injection Hin as -> ->. auto.
Qed.

Lemma longest_this items argv found n ps f :
  longest items argv found n -> ps `prefix_of` argv -> (n <= length ps)%nat ->
  longest (items ++ [(ps, f)]) argv (Some f) (length ps).
Proof.
  intros [_ Hmax] Hp Hn. split.
  - exists ps. split; [|done]. apply elem_of_app. right. by left.
  - intros ps' f' [Hin|Hin]%elem_of_app Hp'; [specialize (Hmax _ _ Hin Hp'); lia|].
    apply list_elem_of_singleton in Hin. by injection Hin as -> ->.
Qed.

Lemma find_command_spec items done_items argv found n :
  longest done_items argv found n ->
  let r := find_command items argv found n in
  longest (done_items ++ items) argv r.1 r.2.
Proof.
  revert done_items found n. induction items as [|[ps f] items IH]; intros done_items found n HL.
  - by rewrite app_nil_r.
  - cbn [find_command]. rewrite match_prefix_spec, Nat.add_0_l, cons_middle, (assoc_L app).
    case_bool_decide as Hp.
    + destruct (Nat.ltb_spec 0 (length ps)), (Nat.ltb_spec n (length ps)); cbn [andb]; apply IH;
        first [apply longest_other; [done|lia] | eapply longest_this; [done|done|lia]].
    + cbn [andb Nat.ltb Nat.leb]. apply IH. by apply longest_other.
Qed.

(** ** Transparency *)

(** All that differs is the data TLB, the uart and the interrupt controller (a dump
    may read their registers), and the debugger's own state. *)
Definition inspected (m m' : machine) : Prop :=
  exists h p u b i l, dtlb_changed (m_hart m) h /\
    m' = set_last_tokens l (set_stdin_lines i (set_breakpoints b
           (set_plic p (set_uart u (set_m_hart h m))))).

Lemma inspected_refl m : inspected m m.
Proof.
  exists (m_hart m), (plic m), (uart m), (breakpoints m), (stdin_lines m), (last_tokens m).
  split; [by left|]. by destruct m.
Qed.

Lemma dtlb_changed_trans h1 h2 h3 : dtlb_changed h1 h2 -> dtlb_changed h2 h3 -> dtlb_changed h1 h3.
Proof.
  intros [->|[t ->]] [->|[t' ->]]; [by left|right; by eexists|right; by eexists|right; by exists t'].
Qed.

Lemma inspected_trans m1 m2 m3 : inspected m1 m2 -> inspected m2 m3 -> inspected m1 m3.
Proof.
  intros (h & p & u & b & i & l & Hh & ->) (h' & p' & u' & b' & i' & l' & Hh' & ->).
  exists h', p', u', b', i', l'. split; [by eapply dtlb_changed_trans|done].
Qed.

(** A program that only inspects the machine, when it returns. *)
Definition inspects {A} (q : prog machine A) : Prop :=
  forall m a m', q m = Ok a m' -> inspected m m'.

Create HintDb inspects.

Lemma inspects_ret {A} (a : A) : inspects (ret a).
Proof. intros m x m' [= _ <-]. apply inspected_refl. Qed.
Lemma inspects_failed {A} : inspects (failed (A := A)).
Proof. done. Qed.
Lemma inspects_looks {A} (q : prog machine A) : looks q -> inspects q.
Proof. intros Hq m a m' E. specialize (Hq m). rewrite E in Hq. subst. apply inspected_refl. Qed.
Lemma inspects_bind {A B} (q : prog machine A) (k : A -> prog machine B) :
  inspects q -> (forall a, inspects (k a)) -> inspects (bind q k).
Proof.
  intros Hq Hk m b m'. unfold bind. destruct (q m) as [a m1| | |] eqn:E; [|done..]. intros E'.
  eapply inspected_trans; [by eapply Hq|by eapply Hk].
Qed.
Lemma inspects_of_opt {A} (o : option A) : inspects (of_opt o).
Proof. destruct o; [apply inspects_ret|apply inspects_failed]. Qed.

#[export] Hint Resolve inspects_ret inspects_failed inspects_bind inspects_of_opt : inspects.
#[export] Hint Extern 1 (inspects (gets _)) => (apply inspects_looks, looks_gets) : inspects.
#[export] Hint Extern 1 (inspects (ASSERT _)) => (apply inspects_looks, looks_ASSERT) : inspects.
#[export] Hint Extern 1 (inspects (find_region _)) => (apply inspects_looks, looks_find_region) : inspects.
#[export] Hint Extern 1 (inspects (read_pte _)) => (apply inspects_looks, looks_read_pte) : inspects.

Section Transparent.
Context `{Assembler}.

Lemma inspects_vmread n va : inspects (vmread n va).
Proof.
  intros m v m'. unfold vmread, bind at 1, gets. case_test.
  - unfold bind. destruct (translate_va _ _ _ _ _ _) as [e m0| | |] eqn:ET; [|done..].
    apply translate_va_ok in ET as (h' & -> & Hp). destruct (pmr e) as [r|]; [|done]. cbn.
    destruct (pmr_read _ _ _ _) as [x m1| | |] eqn:EX; [|done..]. intros [= <- <-].
    apply pmr_read_devices in EX as (p & u & ->).
    by exists h', p, u, (breakpoints m), (stdin_lines m), (last_tokens m).
  - unfold direct_read, bind, find_region.
    destruct (search_pm_region_callback _ _) as [[r|]|]; cbn; [|done..].
    destruct (pmr_read _ _ _ _) as [x m1| | |] eqn:EX; [|done..]. intros [= <- <-].
    apply pmr_read_devices in EX as (p & u & ->).
    exists (m_hart m), p, u, (breakpoints m), (stdin_lines m), (last_tokens m). split; [by left|done].
Qed.
#[local] Hint Resolve inspects_vmread : inspects.

Lemma inspects_state f :
  (forall m, inspected m (f m)) -> inspects (modify f).
Proof. intros Hf m a m' [= _ <-]. apply Hf. Qed.

Lemma inspects_last_tokens l : inspects (modify (set_last_tokens l)).
Proof.
  apply inspects_state. intros m.
  exists (m_hart m), (plic m), (uart m), (breakpoints m), (stdin_lines m), l.
  split; [by left|]. by destruct m.
Qed.
Lemma inspects_stdin i : inspects (modify (set_stdin_lines i)).
Proof.
  apply inspects_state. intros m.
  exists (m_hart m), (plic m), (uart m), (breakpoints m), i, (last_tokens m).
  split; [by left|]. by destruct m.
Qed.
Lemma inspects_breakpoints b : inspects (modify (set_breakpoints b)).
Proof.
  apply inspects_state. intros m.
  exists (m_hart m), (plic m), (uart m), b, (stdin_lines m), (last_tokens m).
  split; [by left|]. by destruct m.
Qed.
#[local] Hint Resolve inspects_last_tokens inspects_stdin inspects_breakpoints : inspects.

Lemma inspects_dump_words n ptr : inspects (dump_words n ptr).
Proof. revert ptr. induction n; intros ptr; cbn [dump_words]; auto with inspects. Qed.
Lemma inspects_dump_virtual n va : inspects (dump_virtual n va).
Proof.
  revert va. induction n; intros va; cbn [dump_virtual]; unfold mmu_read32; auto with inspects.
Qed.
Lemma inspects_frames n first leaf fp : inspects (backtrace_frames n first leaf fp).
Proof.
  revert first fp. induction n as [|n IH]; intros first fp; cbn [backtrace_frames]; [auto with inspects|].
  unfold mmu_read32. case_test; auto 6 with inspects.
Qed.
#[local] Hint Resolve inspects_dump_words inspects_dump_virtual inspects_frames : inspects.

Lemma inspects_run_command func argv : inspects (run_command func argv).
Proof.
  destruct func; cbn [run_command]; auto with inspects.
  - destruct argv as [|a0 ?]; cbn [add_breakpoint_command]; auto 6 with inspects.
  - unfold inspect_memory. destruct argv as [|a0 [|a1 [|]]]; auto with inspects.
    case_test; auto with inspects. apply inspects_bind; [auto with inspects|]. intros pmr1.
    apply inspects_bind; [auto with inspects|]. intros pmr2.
    destruct pmr1; repeat case_test; auto 6 with inspects.
  - unfold inspect_virtual_memory. destruct argv as [|a0 [|a1 [|]]]; auto with inspects.
    case_test; auto with inspects.
  - unfold backtrace_call. destruct argv as [|a0 [|a1 [|]]]; auto 6 with inspects.
Qed.

Lemma inspects_process argv : inspects (process_cmds_tokens argv).
Proof.
  unfold process_cmds_tokens. destruct (find_command _ _ _ _) as [[f|] n]; [|auto with inspects].
  case_test; [apply inspects_run_command|auto with inspects].
Qed.
#[local] Hint Resolve inspects_process : inspects.

Lemma inspects_keep tokens : inspects (keep_tokens tokens).
Proof. unfold keep_tokens. case_test; auto with inspects. Qed.
#[local] Hint Resolve inspects_keep : inspects.

Lemma inspects_turn : inspects dbg_turn.
Proof.
  unfold dbg_turn. apply inspects_bind; [auto with inspects|]. intros lines.
  apply inspects_bind; [auto with inspects|]. intros last.
  destruct (fgets _ _) as [[cmdline rest]|]; [|auto with inspects].
  apply inspects_bind; [auto with inspects|]. intros _.
  destruct (split_tokens cmdline); auto 6 with inspects.
Qed.

Lemma inspects_loop fuel : inspects (dbg_loop fuel).
Proof.
  induction fuel; cbn [dbg_loop]; [auto with inspects|].
  apply inspects_bind; [apply inspects_turn|]. intros [[] []]; auto with inspects.
Qed.

Lemma inspects_shell check_bps : inspects (enter_vmm_dbg_shell check_bps).
Proof.
  unfold enter_vmm_dbg_shell. apply inspects_bind; [by intros m a m' [= _ <-]; apply inspected_refl|].
  intros m. apply inspects_bind; [auto with inspects|]. intros _.
  apply inspects_bind; [case_test; auto with inspects|]. intros tracked.
  case_test; [auto with inspects|apply inspects_loop].
Qed.

Lemma untracked_returns base m :
  hart_magic (m_hart m) = HART_MAGIC_WORD -> bps_ok base (breakpoints m) ->
  window_of base (pc (m_hart m)) -> pc (m_hart m) ∉ breakpoints m ->
  enter_vmm_dbg_shell 1 m = Ok tt m.
Proof.
  intros Hm HB Hw Hn. unfold enter_vmm_dbg_shell, bind, get, ASSERT. rewrite Hm, Z.eqb_refl.
  cbn -[is_address_breakpoint dbg_loop]. rewrite (is_breakpoint_spec base) by done.
  by rewrite bool_decide_false.
Qed.
End Transparent.

(** ** Properties *)

(** Breakpoints. On a table in order, for addresses in one half of the address
    space: adding an address stops at the guards (-2 for a misaligned address, -1
    for a full table) or succeeds; the table stays in order; and an address is
    then a breakpoint exactly if it is the new one or was one before. *)
Theorem breakpoints_are_a_set base a l b :
  bps_ok base l -> window_of base a -> window_of base b ->
  exists rc l', add_breakpoint a l = Some (rc, l') /\ bps_ok base l' /\
    rc = (if truthy (Z.land a 3) then -2
          else if MAX_BREAKPOINTS <=? Z.of_nat (length l) then -1 else 0) /\
    is_address_breakpoint b l = Some (bool_decide (b ∈ l)) /\
    is_address_breakpoint b l' =
      Some (bool_decide ((rc = 0 /\ b = a) \/ b ∈ l)).
Proof.
  intros HB Ha Hb. destruct (add_breakpoint_spec base a l HB Ha) as (rc & l' & E & HB' & Hrc).
  exists rc, l'. rewrite !(is_breakpoint_spec base) by done.
  do 2 (split; [done|]). repeat case_test; destruct Hrc as [-> Hl];
    (split; [done|]; split; [done|]; f_equal; apply bool_decide_ext).
  - subst. intuition (done || lia).
  - subst. intuition (done || lia).
  - rewrite Hl. intuition.
Qed.

(** The command found. [process_cmds_tokens] runs the command whose words are
    the longest prefix of the line's words among all commands of the table, with
    the remaining words as its arguments, and does nothing when no command
    matches. *)
Theorem longest_command_runs `{Assembler} argv :
  (exists ps func, (ps, func) ∈ cmds_items /\ ps `prefix_of` argv /\
     (forall ps' func', (ps', func') ∈ cmds_items -> ps' `prefix_of` argv ->
        (length ps' <= length ps)%nat) /\
     process_cmds_tokens argv = run_command func (drop (length ps) argv)) \/
  ((forall ps func, (ps, func) ∈ cmds_items -> ~ ps `prefix_of` argv) /\
   process_cmds_tokens argv = ret ACTION_CONTINUE).
Proof.
  assert (HL : longest [] argv None 0) by (split; [done|]; intros ? ? []%elem_of_nil).
  pose proof (find_command_spec cmds_items [] argv None 0 HL) as [Hf Hmax].
  unfold process_cmds_tokens. rewrite app_nil_l in *.
  assert (Hne : forall ps f, (ps, f) ∈ cmds_items -> (0 < length ps)%nat).
  { intros ps f Hin. assert (HF : Forall (fun i => (0 < length i.1)%nat) cmds_items).
    { repeat constructor. }
    rewrite Forall_forall in HF. by apply HF in Hin. }
  destruct (find_command _ _ _ _) as [[f|] n]; cbn [fst snd] in *.
  - left. destruct Hf as (ps & Hin & <- & Hp). exists ps, f. split; [done|]. split; [done|].
    split; [done|]. specialize (Hne _ _ Hin). destruct (Nat.ltb_spec 0 (length ps)); [done|lia].
  - right. split; [|done]. intros ps f Hin Hp. specialize (Hmax _ _ Hin Hp).
    specialize (Hne _ _ Hin). lia.
Qed.

(** C30. The debugger is transparent. However a session goes, whatever lines are
    typed, when the debugger returns the hart is what it was but for its data TLB
    (registers, pc, csrs, privilege level and translation cache included), and so
    are the memories, the CLINT, the terminal and the reservations; a dump of
    device addresses may have read the uart and the interrupt controller. *)
Theorem debugger_transparent `{Assembler} check_bps m m' :
  enter_vmm_dbg_shell check_bps m = Ok tt m' ->
  dtlb_changed (m_hart m) (m_hart m') /\ ram m' = ram m /\ bootrom m' = bootrom m /\
  clint m' = clint m /\ terminal m' = terminal m /\ pmr_ops m' = pmr_ops m /\
  reservations m' = reservations m.
Proof.
  intros E. apply inspects_shell in E as (h & p & u & b & i & l & Hh & ->). done.
Qed.

(** *** Witnesses *)

Module Witness.
Import Concrete Board.
#[local] Existing Instance sizes.

Definition kernel_bps : list Z := [0x80000000; 0x80000100].

Lemma kernel_bps_ok : bps_ok 0x80000000 kernel_bps.
Proof.
  split.
  - repeat constructor; unfold in_window; cbn; lia.
  - repeat constructor; unfold key_le; vm_compute; congruence.
Qed.

Lemma breakpoints_are_a_set_witness :
  exists rc l', add_breakpoint 0x80000040 kernel_bps = Some (rc, l') /\ bps_ok 0x80000000 l' /\
    rc = 0 /\ is_address_breakpoint 0x80000040 kernel_bps = Some false /\
    is_address_breakpoint 0x80000040 l' = Some true.
Proof.
  destruct (breakpoints_are_a_set 0x80000000 0x80000040 kernel_bps 0x80000040 kernel_bps_ok)
    as (rc & l' & E & Hok & Hrc & Hb & Hb').
  - split; [split; vm_compute; congruence|unfold in_window; vm_compute; congruence].
  - split; [split; vm_compute; congruence|unfold in_window; vm_compute; congruence].
  - exists rc, l'. split; [done|]. split; [done|]. split; [done|]. rewrite Hb, Hb'.
    rewrite Hrc. split; reflexivity.
Defined.

(** A session at a breakpoint: add one, an empty line repeats it, look at memory
    through the uart's registers, go on. *)
Definition typed : machine :=
  set_breakpoints [0x80000000] (set_stdin_lines
    ["break 80000040"; ""; "/v 0x10000004 10000008"; "info"; "continue"; "help"]%string
    (board (empty_hart 0x80000000) [])).

Definition session : machine := default typed (final (enter_vmm_dbg_shell 1 typed)).

Lemma debugger_transparent_witness :
  breakpoints session = [0x80000000; 0x80000040] /\ stdin_lines session = ["help"]%string /\
  registers (m_hart session) = registers (m_hart typed) /\ ram session = ram typed.
Proof.
  assert (E : enter_vmm_dbg_shell 1 typed = Ok tt session) by (vm_compute; reflexivity).
  destruct (debugger_transparent 1 typed session E) as (Hh & Hram & _).
  split; [vm_compute; reflexivity|]. split; [vm_compute; reflexivity|].
  split; [|exact Hram]. destruct Hh as [->|[t ->]]; reflexivity.
Defined.

(** The table loses breakpoints when they lie in both halves of the address space,
    as user code and a kernel do: the comparator is no order there. *)
Definition add_all (l : list Z) : option (list Z) :=
  foldl (fun o a => bps ← o; r ← add_breakpoint a bps; Some r.2) (Some []) l.

Lemma breakpoint_lost :
  exists l, add_all [0x1000; 0xd0000000; 0x50000000; 0x10000] = Some l /\
    0xd0000000 ∈ l /\ is_address_breakpoint 0xd0000000 l = Some false.
Proof.
  eexists. split; [vm_compute; reflexivity|]. split; [|reflexivity].
  right. right. left.
Qed.
End Witness.
