(* ===== verification/Calls.v ===== *)
(** * The functions the translation blocks call

    The guest state of the blocks (the class [GuestBank] of X86.v) is the machine
    here, and the parameter [vmm_call] of the x86 semantics is [machine_call]: the C
    functions of the vmm behind the symbols the templates load, as the components
    model them, with the arguments taken from the argument registers at the width
    of the C parameters. A call with anything but the hart's address in [rdi] has
    no defined result.

    Also models [sfence_vma_callback], [ebreak_callback] and the csr callback on
    the machine's clock. Proved here: a machine whose pc carries no breakpoint
    passes through the debugger hook of every block. *)

From S2P Require Import Prelude Monad PmRegion X86 Hart Rv32 Decode BlockFacts Refine.
From S2P Require Import Trap Clint Plic Uart Machine Mmu CsrHandlers Csr Interrupt.
From S2P Require Import Amo Debug.
Local Open Scope Z_scope.

(** ** The machine as the guest state *)

#[export] Instance machine_bank : GuestBank machine := {
  rd_reg i m := rd_reg i (m_hart m);
  wr_reg i v m := set_m_hart (wr_reg i v (m_hart m)) m;
  rd_pc m := rd_pc (m_hart m);
  wr_pc v m := set_m_hart (wr_pc v (m_hart m)) m;
  bank_wf m := bank_wf (m_hart m)
}.

#[export] Instance machine_bank_laws : GuestBankLaws machine.
Proof.
  split; cbn [rd_reg wr_reg rd_pc wr_pc bank_wf machine_bank]; intros;
    cbn [m_hart set_m_hart];
    first [by apply rd_reg_uint | by apply rd_pc_uint | by apply rd_wr_reg
          | by apply rd_wr_reg_ne | by apply rd_wr_pc | by apply rd_reg_wr_pc | by apply rd_pc_wr_reg
          | by apply wr_reg_wf | by apply wr_pc_wf | idtac].
  - change (set_m_hart (wr_reg i v (wr_reg i u (m_hart w))) w = set_m_hart (wr_reg i v (m_hart w)) w).
    by rewrite wr_wr_reg.
  - rewrite wr_rd_reg by done. by destruct w.
  - change (set_m_hart (wr_reg i u (wr_reg j v (m_hart w))) w =
            set_m_hart (wr_reg j v (wr_reg i u (m_hart w))) w).
    by rewrite wr_reg_comm.
  - change (set_m_hart (wr_reg i u (wr_pc v (m_hart w))) w =
            set_m_hart (wr_pc v (wr_reg i u (m_hart w))) w).
    by rewrite wr_reg_pc.
Qed.

(** ** Two callbacks *)

Section Callbacks.
Context `{Assembler}.

(** src/vmm/translate_privileged_instr.c:128-137 sfence_vma_callback *)
Definition sfence_vma_callback : prog hart unit :=
  modify (fun h => set_itlb (invalidate_tlb (itlb_cap h) (itlb h)) h) ;;;
  modify (fun h => set_dtlb (invalidate_tlb (dtlb_cap h) (dtlb h)) h) ;;;
  modify flush_translation_cache.

(** src/vmm/translate_privileged_instr.c:12-18 ebreak_callback *)
Definition ebreak_callback : prog machine unit := enter_vmm_dbg_shell 0.

(** The csr callback reads the clock of the clint. *)
Definition csr_callback (instruction : Z) : prog machine unit :=
  let* now := gets (fun m => clint_get_time (clint m)) in
  on_hart (riscv_generic_csr_callback now instruction).

(** ** The call *)

(** A function of type [void], and one that returns an integer of [w] bits. *)
Definition ret_void (r : res machine unit) : callres machine :=
  match r with
  | Ok _ m => CRet None m
  | Trapped m => CTrap m
  | Exited _ m => CExit m
  | Failed => CFail
  end.
Definition ret_uint (w : Z) (r : res machine Z) : callres machine :=
  match r with
  | Ok v m => CRet (Some (w, v)) m
  | Trapped m => CTrap m
  | Exited _ m => CExit m
  | Failed => CFail
  end.

Definition machine_call (s : symbol) (di si dx cx r8 : val) (m : machine) : callres machine :=
  match di with
  | Vhart 0 =>
      match s, si, dx, cx, r8 with
      | Sym.enter_vmm_dbg_shell, Vint check_bps, _, _, _ =>
          ret_void (enter_vmm_dbg_shell (s32 check_bps) m)
      | Sym.mmu_read8, Vint location, _, _, _ => ret_uint 8 (mmu_read8 (u32 location) m)
      | Sym.mmu_read16, Vint location, _, _, _ => ret_uint 16 (mmu_read16 (u32 location) m)
      | Sym.mmu_read32, Vint location, _, _, _ => ret_uint 32 (mmu_read32 (u32 location) m)
      | Sym.mmu_write8, Vint location, Vint value, _, _ =>
          ret_void (mmu_write8 (u32 location) (u8 value) m)
      | Sym.mmu_write16, Vint location, Vint value, _, _ =>
          ret_void (mmu_write16 (u32 location) (u16 value) m)
      | Sym.mmu_write32, Vint location, Vint value, _, _ =>
          ret_void (mmu_write32 (u32 location) (u32 value) m)
      | Sym.amo_instruction_slowpath, Vint rs1, Vint rs2, Vint rd, Vint funct5 =>
          ret_void (amo_instruction_slowpath (u8 rs1) (u8 rs2) (u8 rd) (u32 funct5) m)
      | Sym.flush_translation_cache, _, _, _, _ =>
          ret_void (on_hart (modify flush_translation_cache) m)
      | Sym.ebreak_callback, _, _, _, _ => ret_void (ebreak_callback m)
      | Sym.mret_callback, _, _, _, _ => ret_void (on_hart mret_callback m)
      | Sym.sret_callback, _, _, _, _ => ret_void (on_hart sret_callback m)
      | Sym.sfence_vma_callback, _, _, _, _ => ret_void (on_hart sfence_vma_callback m)
      | Sym.ecall_callback, _, _, _, _ => ret_void (on_hart ecall_callback m)
      | Sym.wfi_callback, _, _, _, _ => ret_void (wfi_callback m)
      | Sym.riscv_generic_csr_callback, Vint instruction, _, _, _ =>
          ret_void (csr_callback (u64 instruction) m)
      | _, _, _, _, _ => CFail
      end
  | _ => CFail
  end.
End Callbacks.

(** ** The states in which blocks run *)

Section Ready.
Context `{Assembler}.

(** Registers in range, x0 zero, and no breakpoint at the pc. *)
Record ready (m : machine) : Prop := {
  ready_guest : guest_ok m;
  ready_hook : no_breakpoint machine_call m
}.

Lemma untracked_hook base m :
  hart_magic (m_hart m) = HART_MAGIC_WORD -> bps_ok base (breakpoints m) ->
  window_of base (pc (m_hart m)) -> pc (m_hart m) ∉ breakpoints m ->
  no_breakpoint machine_call m.
Proof.
  intros. intros a b c. unfold machine_call. change (s32 1) with 1.
  by rewrite (untracked_returns base).
Qed.
End Ready.
