(* ===== verification/BlockMem.v ===== *)
(** * Loads, stores and atomics: from the instruction word to the machine

    The specification of the memory instructions of RV32IA as programs on the
    machine, with the accesses of Mmu.v (which MMU theorems tie to sv32) and the
    atomics of Amo.v, and the proof that the blocks the translators of
    src/vmm/translate_memory_load.c, src/vmm/translate_memory_store.c and
    src/vmm/translate_amo.c commit implement it, traps included. *)

From S2P Require Import Prelude Monad PmRegion X86 Hart Rv32 Decode BlockFacts BlockArith.
From S2P Require Import Refine TransMem TransSys Trap Clint Plic Uart Machine Mmu.
From S2P Require Import CsrHandlers Csr Interrupt Amo Debug Calls.
Local Open Scope Z_scope.

(** ** Specification *)

Inductive load_op := LB | LH | LW | LBU | LHU.
Inductive store_op := SB | SH | SW.

Inductive mem_instr :=
  | I_LOAD (op : load_op) (rd rs1 off : Z)
  | I_STORE (op : store_op) (rs1 rs2 off : Z)
  | I_AMO (funct5 rd rs1 rs2 : Z).

Definition decode_load (funct3 : Z) : option load_op :=
  match funct3 with
  | 0 => Some LB | 1 => Some LH | 2 => Some LW | 4 => Some LBU | 5 => Some LHU | _ => None
  end.
Definition decode_store (funct3 : Z) : option store_op :=
  match funct3 with 0 => Some SB | 1 => Some SH | 2 => Some SW | _ => None end.

(** The amos the emulator supports: the A extension without min and max. *)
Definition supported_amo (funct5 : Z) : bool := is_amo funct5 || (funct5 =? 2) || (funct5 =? 3).

Definition decode_mem (w : Z) : option mem_instr :=
  match f_opcode w with
  | 0x03 => op ← decode_load (f_funct3 w); Some (I_LOAD op (f_rd w) (f_rs1 w) (imm_I w))
  | 0x23 => op ← decode_store (f_funct3 w); Some (I_STORE op (f_rs1 w) (f_rs2 w) (imm_S w))
  | 0x2f =>
      let funct5 := field 31 27 w in
      if (f_funct3 w =? 2) && supported_amo funct5
      then Some (I_AMO funct5 (f_rd w) (f_rs1 w) (f_rs2 w)) else None
  | _ => None
  end.

Definition load_size (op : load_op) : Z := match op with LB | LBU => 1 | LH | LHU => 2 | LW => 4 end.
Definition load_value (op : load_op) (v : Z) : Z :=
  match op with LB => u32 (s8 v) | LH => u32 (s16 v) | _ => v end.
Definition store_size (op : store_op) : Z := match op with SB => 1 | SH => 2 | SW => 4 end.

Section Spec.
Context `{Assembler}.

(** On to the next instruction. *)
Definition next_pc : prog machine unit := modify (fun m => wr_pc (u32 (rd_pc m + 4)) m).

Definition execute_mem (i : mem_instr) : prog machine unit :=
  match i with
  | I_LOAD op rd rs1 off =>
      let* a := gets (fun m => u32 (rd_reg rs1 m + off)) in
      let* v := vmread (load_size op) a in
      modify (set_rd rd (load_value op v)) ;;; next_pc
  | I_STORE op rs1 rs2 off =>
      let* a := gets (fun m => u32 (rd_reg rs1 m + off)) in
      let* v := gets (rd_reg rs2) in
      vmwrite (store_size op) a (v mod 2 ^ (8 * store_size op)) ;;; next_pc
  | I_AMO funct5 rd rs1 rs2 =>
      amo_instruction_slowpath rs1 rs2 rd funct5 ;;;
      modify (wr_reg 0 0) ;;; next_pc
  end.

(** No defined end: stuck, or the host's divide error. *)
Definition undefined (o : outcome machine) : Prop :=
  match o with XStuck | XFault _ => True | _ => False end.

(** How a block ends, given what its instruction does: it goes on ([exits]: to the
    vmm, otherwise to the next block), control leaves for the trap handler, the
    process ends, or nothing is defined. *)
Definition block_ends (exits : bool) (t : template) (ps : list Z) (m : machine)
    (r : res machine unit) : Prop :=
  match r with
  | Ok _ m' => if exits then block_exits machine_call t ps m m'
               else block_falls machine_call t ps m m'
  | Trapped m' => block_traps machine_call t ps m m'
  | Exited _ m' =>
      forall junk c, context c -> run_block machine_call junk t ps c m = XExit m'
  | Failed => forall junk c, context c -> undefined (run_block machine_call junk t ps c m)
  end.
End Spec.

(** ** The blocks *)

Definition load_template (op : load_op) : template :=
  match op with
  | LB => lb_instruction | LH => lh_instruction | LW => lw_instruction
  | LBU => lbu_instruction | LHU => lhu_instruction
  end.
Definition store_template (op : store_op) : template :=
  match op with SB => sb_instruction | SH => sh_instruction | SW => sw_instruction end.

(** Enough to prove [block_ends]: the run from each context. *)
Section Ends.
Context `{Assembler}.

Definition ends_as (exits : bool) (c : cpu) (r : res machine unit) (o : outcome machine) : Prop :=
  match r with
  | Ok _ m' => exists c', o = (if exits then XVmm c' m' else XFall c' m') /\
                 context c' /\ stack c' = stack c
  | Trapped m' => o = XTrap m'
  | Exited _ m' => o = XExit m'
  | Failed => undefined o
  end.

Lemma block_ends_intro exits t ps m r :
  (forall junk c, context c -> ends_as exits c r (run_block machine_call junk t ps c m)) ->
  block_ends exits t ps m r.
Proof.
  intros HR. destruct r as [a m'|m'|k m'|]; cbn in *; [|intros junk c HC; by apply HR..].
  destruct exits; intros junk c HC; by apply HR.
Qed.

(** The call in the middle of a block, with the vmm function's program: after a
    return the rest of the block runs. *)
Lemma call_void_ends exits junk ps rest c0 c m s (q : prog machine unit) (k : unit -> prog machine unit) :
  gpr c rax = Vcode s ->
  machine_call s (gpr c rdi) (gpr c rsi) (gpr c rdx) (gpr c rcx) (gpr c r8) m = ret_void (q m) ->
  (forall m1, q m = Ok tt m1 ->
     ends_as exits c0 (k tt m1)
       (exec machine_call junk ps rest None (after_saved_call junk (4 + length rest) None c) m1)) ->
  ends_as exits c0 (bind q k m)
    (exec machine_call junk ps
       (SAVE_GUEST_CONTEXT_SWITCH_REGS ++ call rax :: RESTORE_GUEST_CONTEXT_SWITCH_REGS ++ rest)
       None c m).
Proof.
  intros Hs Hc Hk. rewrite (exec_saved_call_result machine_call junk ps rest c m s Hs), Hc. unfold bind.
  destruct (q m) as [[] m1|m1|x m1|]; cbn [ret_void after_result ends_as]; [by apply Hk|done..].
Qed.

Lemma call_uint_ends exits junk ps rest c0 c m s n (q : prog machine Z) (k : Z -> prog machine unit) :
  gpr c rax = Vcode s ->
  machine_call s (gpr c rdi) (gpr c rsi) (gpr c rdx) (gpr c rcx) (gpr c r8) m = ret_uint n (q m) ->
  (forall v m1, q m = Ok v m1 ->
     ends_as exits c0 (k v m1)
       (exec machine_call junk ps rest None
          (after_saved_call junk (4 + length rest) (Some (n, v)) c) m1)) ->
  ends_as exits c0 (bind q k m)
    (exec machine_call junk ps
       (SAVE_GUEST_CONTEXT_SWITCH_REGS ++ call rax :: RESTORE_GUEST_CONTEXT_SWITCH_REGS ++ rest)
       None c m).
Proof.
  intros Hs Hc Hk. rewrite (exec_saved_call_result machine_call junk ps rest c m s Hs), Hc. unfold bind.
  destruct (q m) as [v m1|m1|x m1|]; cbn [ret_uint after_result ends_as]; [by apply Hk|done..].
Qed.

(** An access leaves the guest's registers alone. *)
Lemma access_guest m m1 :
  dtlb_changed (m_hart m) (m_hart m1) -> guest_ok m ->
  guest_ok m1 /\ rd_pc m1 = rd_pc m /\ forall i, rd_reg i m1 = rd_reg i m.
Proof.
  unfold guest_ok. cbn [rd_reg rd_pc bank_wf machine_bank hart_bank].
  intros Hd HG. split; [|split]; destruct Hd as [->|[t ->]]; done.
Qed.

Lemma vmread_guest n va m v m1 :
  vmread n va m = Ok v m1 -> guest_ok m -> guest_ok m1 /\ v mod 2 ^ (8 * n) = v.
Proof.
  intros E HG. split.
  - pose proof (vmread_precise n va m) as HP. rewrite E in HP. by apply access_guest in HP as (? & _).
  - destruct (vmread_lands n va m v m1 E) as (r & pa & m0 & x & _ & _ & ->). apply Zmod_mod.
Qed.

Lemma vmwrite_guest n va v m m1 : vmwrite n va v m = Ok tt m1 -> guest_ok m -> guest_ok m1.
Proof.
  intros E HG. pose proof (vmwrite_precise n va v m) as HP. rewrite E in HP.
  by apply access_guest in HP as (? & _).
Qed.
End Ends.

(** A narrow result in the low part of [eax], under what the callee left above it. *)
Lemma returned_8 v j : u32 (u64 (v mod 2 ^ 8 + j * 2 ^ 8)) mod 2 ^ 8 = v mod 2 ^ 8.
Proof. rewrite u32_u64. unfold u32. norm_pow. dlia. Qed.
Lemma returned_16 v j : u32 (u64 (v mod 2 ^ 16 + j * 2 ^ 16)) mod 2 ^ 16 = v mod 2 ^ 16.
Proof. rewrite u32_u64. unfold u32. norm_pow. dlia. Qed.
Lemma returned_32 v j : u32 (u64 (v mod 2 ^ 32 + j * 2 ^ 32)) = u32 v.
Proof. rewrite u32_u64. unfold u32. norm_pow. dlia. Qed.
Lemma signed_of_low w x y : x mod 2 ^ w = y mod 2 ^ w -> signed w x = signed w y.
Proof. unfold signed. by intros ->. Qed.

Section Blocks.
Context `{Assembler} (m : machine) (HR : ready m).
Context (rd rs1 rs2 off : Z) (Hrd : 0 <= rd < 32) (Hrs1 : 0 <= rs1 < 32) (Hrs2 : 0 <= rs2 < 32).

Lemma address_eq : u32 (u32 (u32 (rd_reg rs1 m) + u32 (u32 (u32 off)))) = u32 (rd_reg rs1 m + off).
Proof. by rewrite !u32_u32, u32_add_l, u32_add_r. Qed.

Lemma falls_intro c c' m' (r : res machine unit) :
  r = Ok tt m' -> context c' -> stack c' = stack c -> ends_as false c r (XFall c' m').
Proof. intros ->. by exists c'. Qed.

Lemma exits_intro c c' m' (r : res machine unit) :
  r = Ok tt m' -> context c' -> stack c' = stack c -> ends_as true c r (XVmm c' m').
Proof. intros ->. by exists c'. Qed.

(** The end of a load block. *)
Lemma load_result v v' m1 :
  guest_ok m1 -> v' = v ->
  (modify (set_rd rd v) ;;; next_pc) m1 =
  Ok tt (wr_pc (u32 (rd_pc (wr_reg 0 0 (wr_reg rd v' m1)) + 4)) (wr_reg 0 0 (wr_reg rd v' m1))).
Proof. intros [HW HZ] ->. by rewrite reset_set_rd by done. Qed.

(** Runs a load block: up to the call, the call, and the rest. *)
Ltac load_run HB s n q :=
  start_block HB; run_steps; unfold execute_mem; unfold bind at 1; unfold gets; cbn [load_size];
  eapply (call_uint_ends false _ _ _ _ _ _ s n q);
  [ reflexivity
  | cbn -[u32 rd_reg]; rewrite address_eq; reflexivity
  | let v := fresh "v" in let m1 := fresh "m" in let Hv := fresh "Hv" in
    intros v m1 Hv; run_steps; run_macros;
    destruct (vmread_guest _ _ _ _ _ Hv (ready_guest m HR)) as [HG1 Hlow];
    try change (8 * 1) with 8 in Hlow; try change (8 * 2) with 16 in Hlow;
    apply falls_intro; [apply load_result; [exact HG1|]|show_context|assumption] ].

Lemma load_block op :
  block_ends false (load_template op) [u32 off; rs1; rd] m (execute_mem (I_LOAD op rd rs1 off) m).
Proof.
  apply block_ends_intro. pose proof (ready_hook m HR) as HB.
  destruct op; cbn [load_template].
  - load_run HB Sym.mmu_read8 8 (vmread 1 (u32 (rd_reg rs1 m + off))).
    cbn [load_value]. rewrite u32_u32. f_equal. apply signed_of_low, returned_8.
  - load_run HB Sym.mmu_read16 16 (vmread 2 (u32 (rd_reg rs1 m + off))).
    cbn [load_value]. rewrite u32_u32. f_equal. apply signed_of_low, returned_16.
  - load_run HB Sym.mmu_read32 32 (vmread 4 (u32 (rd_reg rs1 m + off))).
    cbn [load_value]. rewrite returned_32. exact Hlow.
  - load_run HB Sym.mmu_read8 8 (vmread 1 (u32 (rd_reg rs1 m + off))).
    cbn [load_value]. unfold u8. rewrite returned_8, Hlow by done. apply u32_id. rewrite <- Hlow. by apply (is_uint_weaken 8), u8_range.
  - load_run HB Sym.mmu_read16 16 (vmread 2 (u32 (rd_reg rs1 m + off))).
    cbn [load_value]. unfold u16. rewrite returned_16, Hlow by done. apply u32_id. rewrite <- Hlow. by apply (is_uint_weaken 16), u16_range.
Qed.

(** The low part of the stored register. *)
Lemma stored_8 x : u8 (u32 (Z.land (u32 x) (u32 255))) = x mod 2 ^ 8.
Proof.
  change (u32 255) with (Z.ones 8). rewrite Z.land_ones by lia. unfold u8, u32. norm_pow. dlia.
Qed.
Lemma stored_16 x : u16 (u32 (Z.land (u32 x) (u32 65535))) = x mod 2 ^ 16.
Proof.
  change (u32 65535) with (Z.ones 16). rewrite Z.land_ones by lia. unfold u16, u32. norm_pow. dlia.
Qed.

Ltac store_run HB s low :=
  start_block HB; run_steps; unfold execute_mem; do 2 (unfold bind at 1); unfold gets;
  cbn [store_size]; eapply (call_void_ends false _ _ _ _ _ _ s);
  [ reflexivity
  | cbn -[u32 rd_reg u8 u16 vmwrite]; rewrite address_eq, ?low; reflexivity
  | intros m1 _; run_macros; apply falls_intro; [reflexivity|show_context|assumption] ].

Lemma store_block op :
  block_ends false (store_template op) [u32 off; rs1; rs2] m (execute_mem (I_STORE op rs1 rs2 off) m).
Proof.
  apply block_ends_intro. pose proof (ready_hook m HR) as HB.
  destruct op; cbn [store_template].
  - store_run HB Sym.mmu_write8 stored_8.
  - store_run HB Sym.mmu_write16 stored_16.
  - store_run HB Sym.mmu_write32 u32_u32.
Qed.

Lemma amo_block funct5 :
  is_uint 32 funct5 ->
  block_ends false amo_instruction [rs1; rs2; rd; funct5] m (execute_mem (I_AMO funct5 rd rs1 rs2) m).
Proof.
  intros Hf. apply block_ends_intro. pose proof (ready_hook m HR) as HB.
  assert (Hu8 : forall r, 0 <= r < 32 -> u8 (u32 r) = r).
  { intros r Hr. rewrite u32_id, u8_id by (unfold is_uint; lia). done. }
  start_block HB. run_steps. unfold execute_mem.
  eapply (call_void_ends false _ _ _ _ _ _ Sym.amo_instruction_slowpath).
  - reflexivity.
  - cbn -[u32 u8 amo_instruction_slowpath]. rewrite !Hu8, !u32_u32, (u32_id funct5) by done. reflexivity.
  - intros m1 _. run_macros. apply falls_intro; [reflexivity|show_context|assumption].
Qed.
End Blocks.

(** ** From the instruction word *)

Section Translation.
Context `{Assembler}.

Definition translates_mem (i : Z) (ins : mem_instr) : Prop :=
  exists tr t ps, translators (Z.land i 0x7f) = Some tr /\
    (forall b h, tr i b h = translate t ps advance b h) /\
    forall m, ready m -> block_ends false t (map u32 ps) m (execute_mem ins m).

Lemma translates_load i op :
  f_opcode i = 0x03 -> decode_load (f_funct3 i) = Some op ->
  translates_mem i (I_LOAD op (f_rd i) (f_rs1 i) (imm_I i)).
Proof.
  intros Hop Hd. destruct (decode_total i ENCODING_TYPE_I) as [d Ed]; [done|].
  destruct (decode_I i d Ed) as (Hrd & Hrs1 & Hf3 & _ & Hse & _).
  unfold translates_mem. rewrite opcode_field, Hop.
  exists riscv_memory_load_instructions_translation_entry, (load_template op), [imm_I i; f_rs1 i; f_rd i].
  split; [reflexivity|]. split.
  - intros b h. unfold riscv_memory_load_instructions_translation_entry. rewrite Ed.
    cbn [mbind option_bind]. rewrite Hf3, <- Hse, <- Hrs1, <- Hrd.
    unfold decode_load in Hd. repeat case_match; simplify_eq; reflexivity.
  - intros m Hm. cbn [map]. rewrite (u32_reg (f_rs1 i)), (u32_reg (f_rd i)) by auto with words.
    apply load_block; auto with words.
Qed.

Lemma translates_store i op :
  f_opcode i = 0x23 -> decode_store (f_funct3 i) = Some op ->
  translates_mem i (I_STORE op (f_rs1 i) (f_rs2 i) (imm_S i)).
Proof.
  intros Hop Hd. destruct (decode_total i ENCODING_TYPE_S) as [d Ed]; [done|].
  destruct (decode_S i d Ed) as (Hrs1 & Hrs2 & Hf3 & Hse & _).
  unfold translates_mem. rewrite opcode_field, Hop.
  exists riscv_memory_store_instructions_translation_entry, (store_template op), [imm_S i; f_rs1 i; f_rs2 i].
  split; [reflexivity|]. split.
  - intros b h. unfold riscv_memory_store_instructions_translation_entry. rewrite Ed.
    cbn [mbind option_bind]. rewrite Hf3, <- Hse, <- Hrs1, <- Hrs2.
    unfold decode_store in Hd. repeat case_match; simplify_eq; reflexivity.
  - intros m Hm. cbn [map]. rewrite (u32_reg (f_rs1 i)), (u32_reg (f_rs2 i)) by auto with words.
    apply (store_block m Hm (f_rd i)); auto with words.
Qed.

Lemma funct5_bits i : Z.shiftr (f_funct7 i) 2 = field 31 27 i.
Proof.
  rewrite Z.shiftr_div_pow2 by lia. unfold f_funct7, field. norm_pow.
  change (2 ^ (31 - 25 + 1)) with 128. change (2 ^ (31 - 27 + 1)) with 32.
  change (2 ^ 25) with 33554432. change (2 ^ 27) with 134217728. change (2 ^ 2) with 4. dlia.
Qed.

Lemma translates_amo i :
  f_opcode i = 0x2f -> supported_amo (field 31 27 i) = true ->
  translates_mem i (I_AMO (field 31 27 i) (f_rd i) (f_rs1 i) (f_rs2 i)).
Proof.
  intros Hop Hs. destruct (decode_total i ENCODING_TYPE_R) as [d Ed]; [done|].
  destruct (decode_R i d Ed) as (Hrd & Hrs1 & Hrs2 & _ & Hf7 & _).
  unfold translates_mem. rewrite opcode_field, Hop.
  exists riscv_amo_instructions_translation_entry, amo_instruction,
    [f_rs1 i; f_rs2 i; f_rd i; field 31 27 i].
  assert (Hr : is_uint 5 (field 31 27 i)) by (exact (field_range 31 27 i ltac:(lia))).
  assert (Hu : is_uint 32 (field 31 27 i)) by (by apply (is_uint_weaken 5)).
  split; [reflexivity|]. split.
  - intros b h. unfold riscv_amo_instructions_translation_entry. rewrite Ed.
    cbn [mbind option_bind]. rewrite Hf7, funct5_bits.
    rewrite u8_id by (by apply (is_uint_weaken 5)).
    assert (Hh : amo_handlers (field 31 27 i) = Some riscv_amo_translator).
    { unfold supported_amo, is_amo in Hs. to_prop.
      destruct Hs as [[[[[[->| ->]| ->]| ->]| ->]| ->]| ->]; reflexivity. }
    rewrite Hh. cbn [mbind option_bind]. unfold riscv_amo_translator.
    by rewrite Hf7, funct5_bits, Hrd, Hrs1, Hrs2.
  - intros m Hm. cbn [map]. rewrite (u32_reg (f_rs1 i)), (u32_reg (f_rs2 i)), (u32_reg (f_rd i)), u32_id by auto with words.
    apply amo_block; auto with words.
Qed.

Lemma decode_mem_translates i ins : decode_mem i = Some ins -> translates_mem i ins.
Proof.
  unfold decode_mem. intros Hd. repeat case_match; simplify_eq;
    try (apply bind_Some in Hd as (op & Hop & Hd); simplify_eq).
  - apply translates_amo; [done|].
    by match goal with E : _ && _ = true |- _ => apply andb_true_iff in E as [_ E] end.
  - by apply translates_store.
  - by apply translates_load.
Qed.
End Translation.
