(* ===== verification/BlockSys.v ===== *)
(** * Fences, system and csr instructions: from the instruction word to the machine

    The specification of the remaining instructions as programs on the machine,
    with the callbacks of Trap.v, Interrupt.v, Csr.v and Calls.v, and the proof that
    the blocks of src/vmm/translate_fence.c, src/vmm/translate_privileged_instr.c
    and src/vmm/csr_representation.c implement it. With Refine.v and BlockMem.v
    every instruction the emulator supports has a specification; the first property
    collects them. *)

From S2P Require Import Prelude Monad PmRegion X86 Hart Rv32 Decode BlockFacts BlockArith.
From S2P Require Import Refine TransMem TransSys Trap Clint Plic Uart Machine Mmu.
From S2P Require Import CsrHandlers Csr Interrupt Amo Debug Calls BlockMem.
Local Open Scope Z_scope.

(** ** Specification *)

Inductive sys_instr :=
  | I_FENCE | I_FENCE_I | I_ECALL | I_EBREAK | I_MRET | I_SRET | I_WFI | I_SFENCE_VMA
  | I_CSR (word : Z).

Definition decode_privileged (w : Z) : option sys_instr :=
  if f_funct7 w =? 0x9 then Some I_SFENCE_VMA else
  match field 31 20 w with
  | 0x000 => Some I_ECALL
  | 0x001 => Some I_EBREAK
  | 0x102 => Some I_SRET
  | 0x302 => Some I_MRET
  | 0x105 => Some I_WFI
  | _ => None
  end.

Definition decode_sys (w : Z) : option sys_instr :=
  match f_opcode w with
  | 0x0f => match f_funct3 w with 0 => Some I_FENCE | 1 => Some I_FENCE_I | _ => None end
  | 0x73 => match f_funct3 w with
            | 0 => decode_privileged w
            | 4 => None
            | _ => Some (I_CSR w)
            end
  | _ => None
  end.

(** The instructions after which the vmm takes over. *)
Definition sys_exits (i : sys_instr) : bool :=
  match i with I_FENCE | I_EBREAK => false | _ => true end.

Section Spec.
Context `{Assembler}.

Definition execute_sys (i : sys_instr) : prog machine unit :=
  match i with
  | I_FENCE => next_pc
  | I_FENCE_I => on_hart (modify flush_translation_cache) ;;; next_pc
  | I_ECALL => on_hart ecall_callback ;;; next_pc
  | I_EBREAK => ebreak_callback ;;; next_pc
  | I_MRET => on_hart mret_callback ;;; ret tt
  | I_SRET => on_hart sret_callback ;;; ret tt
  | I_WFI => wfi_callback ;;; next_pc
  | I_SFENCE_VMA => on_hart sfence_vma_callback ;;; next_pc
  | I_CSR w => csr_callback w ;;; modify (wr_reg 0 0) ;;; next_pc
  end.
End Spec.

(** ** The blocks *)

Definition sys_template (i : sys_instr) : template :=
  match i with
  | I_FENCE => fence_instruction
  | I_FENCE_I => fence_i_instruction
  | I_ECALL => ecall_instruction
  | I_EBREAK => ebreak_instruction
  | I_MRET => mret_instruction
  | I_SRET => sret_instruction
  | I_WFI => wfi_instruction
  | I_SFENCE_VMA => sfence_vma_instruction
  | I_CSR _ => csr_instructions
  end.

(** The parameter of a template: the word of a csr instruction, the address of any
    other. *)
Definition sys_param (i : sys_instr) (at_pc : Z) : Z :=
  match i with I_CSR w => w | _ => at_pc end.

Section Blocks.
Context `{Assembler} (m : machine) (HR : ready m).

(** Runs a block that calls one function. *)
Ltac call_run HB s :=
  start_block HB; run_steps; unfold execute_sys; eapply (call_void_ends _ _ _ _ _ _ _ s);
  [ reflexivity | reflexivity
  | intros m1 _; run_macros;
    first [apply falls_intro | apply exits_intro]; [reflexivity|show_context|assumption] ].

Lemma sys_block i p :
  match i with I_CSR w => is_uint 32 w /\ p = w | _ => True end ->
  block_ends (sys_exits i) (sys_template i) [u32 p] m (execute_sys i m).
Proof.
  intros Hp. apply block_ends_intro. pose proof (ready_hook m HR) as HB.
  destruct i; cbn [sys_template sys_exits].
  - start_block HB. run_macros. apply falls_intro; [reflexivity|show_context|assumption].
  - call_run HB Sym.flush_translation_cache.
  - call_run HB Sym.ecall_callback.
  - call_run HB Sym.ebreak_callback.
  - call_run HB Sym.mret_callback.
  - call_run HB Sym.sret_callback.
  - call_run HB Sym.wfi_callback.
  - call_run HB Sym.sfence_vma_callback.
  - destruct Hp as [Hw ->]. start_block HB. run_steps. unfold execute_sys.
    eapply (call_void_ends _ _ _ _ _ _ _ Sym.riscv_generic_csr_callback).
    + reflexivity.
    + cbn -[u32 u64 csr_callback]. rewrite !u32_u32, u64_u32, u32_id by done. reflexivity.
    + intros m1 _. run_macros. apply exits_intro; [reflexivity|show_context|assumption].
Qed.
End Blocks.

(** ** From the instruction word *)

Lemma funct12_split w : field 31 20 w = f_funct7 w * 32 + f_rs2 w.
Proof.
  unfold f_funct7, f_rs2, field.
  change (2 ^ (31 - 20 + 1)) with 4096. change (2 ^ (31 - 25 + 1)) with 128.
  change (2 ^ (24 - 20 + 1)) with 32. change (2 ^ 25) with 33554432. change (2 ^ 20) with 1048576.
  dlia.
Qed.

(** What the funct3 = 0 translator looks at. *)
Lemma decode_S_codes w d :
  instruction_decoding_per_type w ENCODING_TYPE_S = Some d ->
  Z.shiftr (imm d) 5 = f_funct7 w /\ rs2_index d = f_rs2 w /\ funct3 d = f_funct3 w.
Proof.
  intros E. destruct (decode_S w d E) as (_ & Hrs2 & Hf3 & _). split; [|done].
  enough (Z.shiftr (imm d) 5 = f_funct7 w /\ opcode d = f_opcode w) by tauto.
  revert E. decode_start. decode_fields. split; [|done].
  destruct (or_field (field 11 7 w) (field 31 25 w) 5 7) as [E1 R1]; try lia; [by apply field_range..|].
  rewrite E1, Z.shiftr_div_pow2, Z.div_add by lia. rewrite Z.div_small; [done|]. by apply (field_range 11 7).
Qed.

Section Translation.
Context `{Assembler}.

Definition translates_sys (i : Z) (ins : sys_instr) : Prop :=
  exists tr, translators (Z.land i 0x7f) = Some tr /\
    forall b h, tr i b h =
      translate (sys_template ins) [sys_param ins (next_instruction_to_fetch b)]
        (if sys_exits ins then stop else advance) b h.

Lemma funct3_mask i : Z.land (Z.shiftr i 12) 0x7 = f_funct3 i.
Proof. exact (mask_field 12 3 i ltac:(lia) ltac:(lia)). Qed.

(** The fields of the privileged instructions. *)
Lemma privileged_codes i ins :
  decode_privileged i = Some ins ->
  f_funct7 i = 0x9 /\ ins = I_SFENCE_VMA \/
  (f_funct7 i, f_rs2 i, ins) ∈
    [(0, 0, I_ECALL); (0, 1, I_EBREAK); (8, 2, I_SRET); (24, 2, I_MRET); (8, 5, I_WFI)].
Proof.
  unfold decode_privileged. intros Hd. destruct (Z.eqb_spec (f_funct7 i) 0x9) as [E|_].
  { left. by simplify_eq. }
  right. pose proof (funct12_split i) as E12. pose proof (f_rs2_range i) as H2.
  assert (Hcodes : forall c, field 31 20 i = c -> f_funct7 i = c / 32 /\ f_rs2 i = c mod 32) by (intros; dlia).
  repeat case_match; simplify_eq;
    destruct (Hcodes _ eq_refl) as [-> ->]; repeat first [by left | right].
Qed.

(** The privileged instructions other than csr accesses. *)
Lemma privileged_entry i ins :
  f_funct3 i = 0 -> decode_privileged i = Some ins ->
  forall b h, riscv_supervisor_level_instructions_translation_entry i b h =
    translate (sys_template ins) [sys_param ins (next_instruction_to_fetch b)]
      (if sys_exits ins then stop else advance) b h.
Proof.
  intros H3 Hd b h. destruct (decode_total i ENCODING_TYPE_S) as [d Ed]; [done|].
  destruct (decode_S_codes i d Ed) as (H7 & H2 & Hf3).
  unfold riscv_supervisor_level_instructions_translation_entry.
  rewrite funct3_mask, H3. cbn [truthy Z.eqb negb]. rewrite Ed. cbn [mbind option_bind].
  rewrite Hf3, H3. cbn [supervisor_level_handlers mbind option_bind].
  unfold riscv_funct3_000_translator, riscv_wfi_translator. rewrite H7, H2.
  apply privileged_codes in Hd as [[-> ->]|Hd]; [reflexivity|].
  rewrite !elem_of_cons, elem_of_nil in Hd. destruct Hd as [E|[E|[E|[E|[E|[]]]]]];
    injection E as -> -> ->; reflexivity.
Qed.

Lemma csr_entry_translates i :
  f_funct3 i <> 0 -> f_funct3 i <> 4 ->
  forall b h, riscv_supervisor_level_instructions_translation_entry i b h =
    translate csr_instructions [i] stop b h.
Proof.
  intros H0 H4 b h. destruct (decode_total i ENCODING_TYPE_I) as [d Ed]; [done|].
  destruct (decode_I i d Ed) as (_ & _ & Hf3 & _).
  unfold riscv_supervisor_level_instructions_translation_entry. rewrite funct3_mask.
  unfold truthy. destruct (Z.eqb_spec (f_funct3 i) 0); [done|]. cbn [negb]. rewrite Ed.
  cbn [mbind option_bind]. rewrite Hf3.
  pose proof (field_range 14 12 i ltac:(lia)) as [Hl Hh]. fold f_funct3 in Hl, Hh.
  change (2 ^ (14 - 12 + 1)) with 8 in Hh.
  assert (Hc : f_funct3 i ∈ [1; 2; 3; 5; 6; 7]).
  { rewrite !elem_of_cons. lia. }
  rewrite !elem_of_cons, elem_of_nil in Hc.
  destruct Hc as [->|[->|[->|[->|[->|[->|[]]]]]]]; reflexivity.
Qed.

Lemma decode_sys_translates i ins : decode_sys i = Some ins -> translates_sys i ins.
Proof.
  unfold decode_sys, translates_sys. rewrite opcode_field. intros Hd.
  destruct (Z.eq_dec (f_opcode i) 0x73) as [Eo|Eo].
  - rewrite Eo in Hd |- *. exists riscv_supervisor_level_instructions_translation_entry.
    split; [reflexivity|]. intros b h.
    destruct (Z.eq_dec (f_funct3 i) 0) as [E0|E0]; [rewrite E0 in Hd; by apply privileged_entry|].
    destruct (Z.eq_dec (f_funct3 i) 4) as [E4|E4]; [by rewrite E4 in Hd|].
    assert (ins = I_CSR i) as -> by (repeat case_match; by simplify_eq). by apply csr_entry_translates.
  - assert (f_opcode i = 0x0f) as Ef by (repeat case_match; by simplify_eq).
    rewrite Ef in Hd |- *.
    exists riscv_fence_instructions_translation_entry. split; [reflexivity|]. intros b h.
    destruct (decode_total i ENCODING_TYPE_S) as [d Ed]; [done|].
    destruct (decode_S_codes i d Ed) as (_ & _ & Hf3).
    unfold riscv_fence_instructions_translation_entry. rewrite Ed. cbn [mbind option_bind]. rewrite Hf3.
    destruct (Z.eq_dec (f_funct3 i) 0) as [E0|E0]; [rewrite E0 in Hd |- *; by simplify_eq|].
    assert (f_funct3 i = 1 /\ ins = I_FENCE_I) as [-> ->].
    { repeat case_match; by simplify_eq. }
    reflexivity.
Qed.
End Translation.

Lemma decode_sys_csr i w : decode_sys i = Some (I_CSR w) -> w = i.
Proof.
  unfold decode_sys, decode_privileged. intros Hd. repeat case_match; congruence.
Qed.

(** ** All instructions *)

Inductive rv_instr := Comp (i : instr) | Memory (i : mem_instr) | Sys (i : sys_instr).

(** RV32IMA without the min and max amos, Zicsr, Zifencei and the privileged
    instructions. *)
Definition decode_rv32 (w : Z) : option rv_instr :=
  match decode w with
  | Some i => Some (Comp i)
  | None =>
      match decode_mem w with
      | Some i => Some (Memory i)
      | None => Sys <$> decode_sys w
      end
  end.

Definition rv_exits (i : rv_instr) : bool :=
  match i with Comp i => is_jump i | Memory _ => false | Sys i => sys_exits i end.

Section All.
Context `{Assembler}.

(** One instruction on the machine. The operands on which the host's divide
    instruction faults have no defined result. *)
Definition execute_rv32 (i : rv_instr) : prog machine unit :=
  match i with
  | Comp i => fun m => if host_faults i m then Failed else Ok tt (execute i m)
  | Memory i => execute_mem i
  | Sys i => execute_sys i
  end.

Definition translates_rv32 (i : Z) (ins : rv_instr) : Prop :=
  exists tr t ps, translators (Z.land i 0x7f) = Some tr /\
    (forall b h, tr i b h = translate t (ps (next_instruction_to_fetch b))
                              (if rv_exits ins then stop else advance) b h) /\
    forall m, ready m -> block_ends (rv_exits ins) t (map u32 (ps (rd_pc m))) m (execute_rv32 ins m).

Lemma comp_translates i ins : decode i = Some ins -> translates_rv32 i (Comp ins).
Proof.
  intros Hd. destruct (decode_translates machine_call i ins Hd) as (tr & t & ps & Htr & Hrun & Himp).
  exists tr, t, ps. split; [done|]. split; [done|]. intros m [HG HB].
  specialize (Himp m HG HB). unfold block_implements in Himp. cbn [rv_exits execute_rv32].
  destruct (host_faults ins m); [|by destruct (is_jump ins)].
  intros junk c HC. by rewrite (Himp junk c HC).
Qed.

Lemma decode_rv32_translates i ins :
  is_uint 32 i -> decode_rv32 i = Some ins -> translates_rv32 i ins.
Proof.
  intros Hi. unfold decode_rv32. destruct (decode i) eqn:Ed; [intros [= <-]; by apply comp_translates|].
  destruct (decode_mem i) as [im|] eqn:Em.
  - intros [= <-]. destruct (decode_mem_translates i im Em) as (tr & t & ps & Htr & Hrun & Himp).
    by exists tr, t, (fun _ => ps).
  - destruct (decode_sys i) as [si|] eqn:Es; [|done]. intros [= <-].
    destruct (decode_sys_translates i si Es) as (tr & Htr & Hrun).
    exists tr, (sys_template si), (fun p => [sys_param si p]). split; [done|]. split; [done|].
    intros m Hm. apply sys_block; [done|]. destruct si; try done. split; [|done].
    assert (word = i) as -> by (by eapply decode_sys_csr). done.
Qed.
End All.
