(* ===== verification/Run.v ===== *)
(** * Running the translation cache

    What happens between [vmresume]'s jump into the cache and the return to
    [vmm_entry_point]: blocks run one after the other, each falling into the next,
    until one leaves ([run_cache]; src/vmm/vmm_trap.S is the way back). The
    specification is the sequence of RV32 instructions of [execute_rv32].

    The ghost map [code] holds the instruction word each translated address was
    translated from. Proved here: a run through the cache ends, and it is exactly a
    sequence of instructions of the ISA from [code], the last of which leaves the
    cache or is followed by the jumper; prefetching translates the words it fetches
    from memory and keeps the others; so a round of the emulator, prefetch and run,
    executes the instructions of the guest's memory. *)

From S2P Require Import Prelude SortSearch Monad PmRegion X86 Hart Rv32 Decode BlockFacts.
From S2P Require Import BlockArith Refine TransMem TransSys Trap Clint Plic Uart Machine.
From S2P Require Import Mmu CsrHandlers Csr Interrupt Amo Debug Engine Calls BlockMem.
From S2P Require Import BlockSys.
Local Open Scope Z_scope.

(** ** The run *)

(** How a run through the cache ends: at [vmm_entry_point] from a block or the
    jumper, at [vmm_entry_point] from a trap, with the process, or without a defined
    result. *)
Inductive cache_end :=
  | to_vmm (m : machine) | by_trap (m : machine) | process_ends (m : machine) | goes_wrong.

Section Cache.
Context `{Assembler}.

(** The x86 processor from the chunk at [off] on: the code of a block that falls
    through is followed by the code of the next chunk. [None]: out of fuel.
    src/vmm/translation.c:250-260 vmresume *)
Fixpoint run_cache (fuel : nat) (junk : nat -> nat -> reg64 -> Z) (off : Z) (c : cpu) (m : machine) :
    option cache_end :=
  match fuel with
  | O => None
  | S fuel =>
      match translation_cache (m_hart m) !! off with
      | Some (Block t ps) =>
          match run_block machine_call (junk fuel) t ps c m with
          | XFall c m => run_cache fuel junk (off + translation_size (t_indicator t)) c m
          | XVmm _ m => Some (to_vmm m)
          | XTrap m => Some (by_trap m)
          | XExit m => Some (process_ends m)
          | XFault _ | XStuck => Some goes_wrong
          end
      | Some Jumper => Some (to_vmm m)
      | None => Some goes_wrong
      end
  end.

(** The register contents [vmresume] sets up. *)
Definition entry_cpu (gprs : reg64 -> val) (stk : list val) : cpu :=
  {| gpr := fun r => match r with
                     | r15 | r12 => Vhart 0 | r14 => Vhart HART_PC_OFFSET | r13 => Vcache
                     | _ => gprs r end;
     flags := None; stack := stk |}.

Lemma entry_context gprs stk : context (entry_cpu gprs stk).
Proof. done. Qed.

(** ** The specification *)

(** [n] instructions of [code] that go on to the next one. *)
Inductive isa_steps (code : gmap Z Z) : nat -> machine -> machine -> Prop :=
  | steps_none m : isa_steps code 0 m m
  | steps_more n m m1 m2 i ins :
      isa_steps code n m m1 -> code !! rd_pc m1 = Some i -> decode_rv32 i = Some ins ->
      rv_exits ins = false -> execute_rv32 ins m1 = Ok tt m2 -> isa_steps code (S n) m m2.

Definition ends_like (r : res machine unit) (e : cache_end) : Prop :=
  match r with
  | Ok _ m => e = to_vmm m
  | Trapped m => e = by_trap m
  | Exited _ m => e = process_ends m
  | Failed => e = goes_wrong
  end.

(** The instruction leaves the cache in this state. *)
Definition leaves (ins : rv_instr) (r : res machine unit) : Prop :=
  match r with Ok _ _ => rv_exits ins = true | _ => True end.

(** ** What an instruction that goes on may change *)

(** The frame: the translation cache and what the debugger hook looks at. *)
Record frame (m m' : machine) : Prop := {
  fr_cache : cache_same (m_hart m) (m_hart m');
  fr_magic : hart_magic (m_hart m') = hart_magic (m_hart m);
  fr_pc : rd_pc m' = rd_pc m
}.

Lemma frame_refl m : frame m m.
Proof. by split. Qed.
Lemma cache_same_trans h1 h2 h3 : cache_same h1 h2 -> cache_same h2 h3 -> cache_same h1 h3.
Proof. unfold cache_same. intuition congruence. Qed.
Lemma frame_trans m1 m2 m3 : frame m1 m2 -> frame m2 m3 -> frame m1 m3.
Proof. intros [] []. split; [by eapply cache_same_trans|congruence..]. Qed.

Lemma frame_dtlb m m' : dtlb_changed (m_hart m) (m_hart m') -> frame m m'.
Proof. intros Hd. split; cbn [rd_pc machine_bank hart_bank]; by destruct Hd as [->|[t ->]]. Qed.

Lemma frame_wr_reg i v m : frame m (wr_reg i v m).
Proof. by split. Qed.
Lemma frame_set_rd i v m : frame m (set_rd i v m).
Proof. unfold set_rd. case_test; [apply frame_refl|apply frame_wr_reg]. Qed.

(** A program that keeps the frame and the guest's registers well-formed, when it
    returns. *)
Definition straight {A} (q : prog machine A) : Prop :=
  forall m a m', q m = Ok a m' -> bank_wf m -> frame m m' /\ bank_wf m'.

Create HintDb straight.

Lemma straight_ret {A} (a : A) : straight (ret a).
Proof. intros m x m' [= _ <-] HW. by split; [apply frame_refl|]. Qed.
Lemma straight_gets {A} (f : machine -> A) : straight (gets f).
Proof. intros m x m' [= _ <-] HW. by split; [apply frame_refl|]. Qed.
Lemma straight_failed {A} : straight (failed (A := A)).
Proof. done. Qed.
Lemma straight_bind {A B} (q : prog machine A) (k : A -> prog machine B) :
  straight q -> (forall a, straight (k a)) -> straight (bind q k).
Proof.
  intros Hq Hk m b m'. unfold bind. destruct (q m) as [a m1| | |] eqn:E; [|done..]. intros E' HW.
  destruct (Hq _ _ _ E HW) as [HF HW1]. destruct (Hk a _ _ _ E' HW1) as [HF' HW2].
  split; [by eapply frame_trans|done].
Qed.
Lemma straight_modify f :
  (forall m, frame m (f m)) -> (forall m, bank_wf m -> bank_wf (f m)) -> straight (modify f).
Proof. intros Hf Hw m a m' [= _ <-] HW. auto. Qed.

Lemma bank_wf_dtlb m m' : dtlb_changed (m_hart m) (m_hart m') -> bank_wf m -> bank_wf m'.
Proof. cbn [bank_wf machine_bank hart_bank]. by intros [->|[t ->]]. Qed.

Lemma straight_precise {A} (q : prog machine A) : precise dtlb_changed q -> straight q.
Proof.
  intros Hq m a m' E HW. specialize (Hq m). rewrite E in Hq.
  split; [by apply frame_dtlb|by eapply bank_wf_dtlb].
Qed.

Lemma straight_write_aligned a v : straight (mmu_write32_aligned a v).
Proof. by apply straight_precise, precise_guard, vmwrite_precise. Qed.

(** After a word has been read, it is in range. *)
Lemma straight_read_aligned {B} a (k : Z -> prog machine B) :
  (forall v, is_uint 32 v -> straight (k v)) -> straight (bind (mmu_read32_aligned a) k).
Proof.
  intros Hk m b m'. unfold bind. destruct (mmu_read32_aligned a m) as [v m1| | |] eqn:E; [|done..].
  intros E' HW. apply read_aligned_ok in E as [_ E].
  destruct (straight_precise _ (vmread_precise 4 a) _ _ _ E HW) as [HF HW1].
  destruct (vmread_lands 4 a m v m1 E) as (r & pa & m0 & x & _ & _ & ->).
  destruct (Hk _ (u32_range x) _ _ _ E' HW1) as [HF' HW2]. split; [by eapply frame_trans|done].
Qed.

Lemma straight_put_reg i v : 0 <= i < 32 -> is_uint 32 v -> straight (put_reg i v).
Proof.
  intros Hi Hv. apply straight_modify; [apply (frame_wr_reg i v)|]. intros m HW.
  exact (wr_reg_wf (W := machine) m i v HW Hi Hv).
Qed.

Lemma straight_outside f :
  (forall m, m_hart (f m) = m_hart m) -> straight (modify f).
Proof.
  intros Hf. apply straight_modify.
  - intros m. split; cbn [rd_pc machine_bank]; by rewrite Hf.
  - intros m HW. cbn [bank_wf machine_bank] in *. by rewrite Hf.
Qed.

#[local] Hint Resolve straight_ret straight_gets straight_failed straight_bind straight_write_aligned
  straight_read_aligned straight_put_reg : straight.
#[local] Hint Extern 1 (straight (reg _)) => (apply straight_gets) : straight.
#[local] Hint Extern 2 (is_uint 32 _) => (unfold is_uint; lia) : straight.

Lemma straight_amo rs1 rs2 rd funct5 :
  0 <= rd < 32 -> straight (amo_instruction_slowpath rs1 rs2 rd funct5).
Proof.
  intros Hrd. unfold amo_instruction_slowpath, amoadd_slowpath, amoswap_slowpath, amoxor_slowpath,
    amoor_slowpath, amoand_slowpath, lr_slowpath, sc_slowpath.
  repeat case_match; try apply straight_failed;
    (apply straight_bind; [auto with straight|]; intros a);
    first [ apply straight_read_aligned; intros v Hv
          | apply straight_bind; [auto with straight|]; intros b;
            try (apply straight_read_aligned; intros v Hv) ]; auto 8 with straight.
  - apply straight_bind; [auto with straight|]. intros [idx|]; [|auto with straight].
    apply straight_bind; [auto with straight|]. intros _.
    apply straight_bind; [auto with straight|]. intros _. by apply straight_outside.
  - apply straight_bind; [auto with straight|]. intros _. by apply straight_outside.
Qed.

(** ** An instruction that goes on *)

(** The destination register of a memory instruction. *)
Definition mem_rd (ins : mem_instr) : Z :=
  match ins with I_LOAD _ rd _ _ | I_AMO _ rd _ _ => rd | I_STORE _ _ _ _ => 0 end.

Lemma decode_mem_rd i ins : decode_mem i = Some ins -> 0 <= mem_rd ins < 32.
Proof.
  unfold decode_mem. intros Hd. repeat case_match; simplify_eq;
    try (apply bind_Some in Hd as (op & Hop & Hd); simplify_eq); cbn [mem_rd]; auto with words; lia.
Qed.

(** What it leaves: the next pc, the same cache, and a state fit to run blocks. *)
Definition goes_on (m m' : machine) : Prop :=
  cache_same (m_hart m) (m_hart m') /\ hart_magic (m_hart m') = hart_magic (m_hart m) /\
  rd_pc m' = u32 (rd_pc m + 4) /\ guest_ok m'.

Lemma next_pc_goes_on m m1 m' :
  frame m m1 -> guest_ok m1 -> next_pc m1 = Ok tt m' -> goes_on m m'.
Proof.
  intros [HC HM HP] HG [= <-]. split; [done|]. split; [done|]. split.
  - change (u32 (rd_pc m1 + 4) = u32 (rd_pc m + 4)). by rewrite HP.
  - exact (wr_pc_ok (W := machine) _ m1 (u32_range _) HG).
Qed.

Lemma comp_goes_on i ins m m' :
  decode i = Some ins -> is_jump ins = false -> guest_ok m -> execute_rv32 (Comp ins) m = Ok tt m' ->
  goes_on m m'.
Proof.
  intros Hd Hj HG. cbn [execute_rv32]. case_test; [done|]. intros [= <-].
  pose proof (execute_ok i ins m Hd HG) as HE.
  assert (Hset : exists rd v, execute ins m = wr_pc (u32 (rd_pc m + 4)) (set_rd rd v m)).
  { destruct ins; try done; cbn [execute]; by eexists _, _. }
  destruct Hset as (rd & v & Ex). rewrite Ex in *.
  destruct (frame_set_rd rd v m) as [HC HM HP].
  split; [done|]. split; [done|]. split; [|done]. by rewrite rd_wr_pc.
Qed.

Lemma load_value_uint op v : is_uint 32 v -> is_uint 32 (load_value op v).
Proof. intros Hv. destruct op; cbn [load_value]; auto with words. Qed.

Lemma truncated_word op v : v mod 2 ^ (8 * load_size op) = v -> is_uint 32 v.
Proof.
  intros <-. apply (is_uint_weaken (8 * load_size op)); [by destruct op|].
  apply Z.mod_pos_bound, Z.pow_pos_nonneg; [lia|by destruct op].
Qed.

Lemma mem_goes_on i ins m m' :
  decode_mem i = Some ins -> guest_ok m -> execute_mem ins m = Ok tt m' -> goes_on m m'.
Proof.
  intros Hd HG. destruct ins as [op rd rs1 off|op rs1 rs2 off|funct5 rd rs1 rs2]; cbn [execute_mem];
    unfold bind at 1; unfold gets.
  - unfold bind at 1. destruct (vmread _ _ m) as [v m1| | |] eqn:EV; [|done..]. unfold bind, modify.
    destruct (vmread_guest _ _ _ _ _ EV HG) as [HG1 Hv]. intros E.
    pose proof (decode_mem_rd i _ Hd) as Hrd. cbn [mem_rd] in Hrd.
    apply (next_pc_goes_on m (set_rd rd (load_value op v) m1)); [| |exact E].
    + eapply frame_trans; [|apply frame_set_rd]. apply frame_dtlb.
      pose proof (vmread_precise (load_size op) (u32 (rd_reg rs1 m + off)) m) as HP. by rewrite EV in HP.
    + apply set_rd_ok; [done| |done]. by eapply load_value_uint, truncated_word.
  - unfold bind at 1. unfold bind at 1. destruct (vmwrite _ _ _ m) as [[] m1| | |] eqn:EV; [|done..].
    apply next_pc_goes_on; [|by eapply vmwrite_guest]. apply frame_dtlb.
    pose proof (vmwrite_precise (store_size op) (u32 (rd_reg rs1 m + off))
      (rd_reg rs2 m mod 2 ^ (8 * store_size op)) m) as HP. by rewrite EV in HP.
  - destruct (amo_instruction_slowpath _ _ _ _ m) as [[] m1| | |] eqn:EA; [|done..]. unfold bind, modify.
    pose proof (decode_mem_rd i _ Hd) as Hrd. cbn [mem_rd] in Hrd.
    destruct (straight_amo rs1 rs2 rd funct5 Hrd m tt m1 EA (proj1 HG)) as [HF HW].
    apply next_pc_goes_on; [eapply frame_trans; [done|apply frame_wr_reg]|].
    split; [by apply wr_reg_wf|]. by apply rd_wr_reg.
Qed.

Lemma sys_goes_on ins m m' :
  sys_exits ins = false -> guest_ok m -> execute_sys ins m = Ok tt m' -> goes_on m m'.
Proof.
  intros Hx HG. destruct ins; try done; cbn [execute_sys].
  - by apply next_pc_goes_on; [apply frame_refl|].
  - unfold bind. destruct (ebreak_callback m) as [[] m1| | |] eqn:EB; [|done..].
    apply inspects_shell in EB as (h & p & u & b & i & l & Hh & ->).
    assert (Hd : dtlb_changed (m_hart m) (m_hart (set_last_tokens l (set_stdin_lines i
      (set_breakpoints b (set_plic p (set_uart u (set_m_hart h m)))))))) by exact Hh.
    apply next_pc_goes_on; [by apply frame_dtlb|by eapply access_guest].
Qed.

Lemma rv_goes_on i ins m m' :
  decode_rv32 i = Some ins -> rv_exits ins = false -> guest_ok m -> execute_rv32 ins m = Ok tt m' ->
  goes_on m m'.
Proof.
  unfold decode_rv32. intros Hd Hx HG. destruct (decode i) eqn:Ed; [simplify_eq; by apply (comp_goes_on i)|].
  destruct (decode_mem i) eqn:Em; [simplify_eq; by apply (mem_goes_on i)|].
  destruct (decode_sys i) eqn:Es; [|done]. cbn in Hd. simplify_eq. by apply sys_goes_on.
Qed.
End Cache.

(** ** The cache holds the translation of [code] *)

Section Simulation.
Context `{AssemblerOk}.

(** The block of a mapping is what the translator of its word made. *)
Definition built (code : gmap Z Z) (h : hart) (it : program_counter_mapping_item) : Prop :=
  exists i tr b t ps, code !! guest_pc it = Some i /\ is_uint 32 i /\
    translators (Z.land i 0x7f) = Some tr /\
    next_instruction_to_fetch b = guest_pc it /\ is_to_stop b = false /\
    (forall h0, tr i b h0 = translate t ps (epilogue_for t) b h0) /\
    block_at h (tc_offset it) t (map u32 ps).

Definition backed (code : gmap Z Z) (h : hart) : Prop := Forall (built code h) (live h).

(** An empty cache. *)
Definition blank (a : Z) : hart := flush_translation_cache (Concrete.empty_hart a).

Lemma blank_wf base a : cache_wf base (blank a).
Proof.
  split; unfold live, blank; cbn; try constructor;
    unfold MAX_INSTRUCTIONS_TOTRANSLATE, TRANSLATION_CACHE_SIZE; lia.
Qed.

(** What a translation into an empty cache leaves. *)
Lemma translate_blank b t ps ep :
  let a := next_instruction_to_fetch b in is_uint 32 a ->
  exists h', translate t ps ep b (blank a) = Some (ep (set_is_flushable false b), h') /\
    block_at h' 0 t (map u32 ps).
Proof.
  intros a Ha.
  destruct (translate_spec a t ps ep b (blank a)) as (b' & h' & E & HR).
  - apply blank_wf.
  - done.
  - unfold in_window. subst a. rewrite Z.sub_diag. by vm_compute.
  - unfold translated, live. cbn. intros Hin. by apply elem_of_nil in Hin.
  - rewrite E. destruct HR as [h0 h' Hh HA|Hf Hroom].
    + exists h'. split; [done|]. pose proof (added_block _ _ _ _ _ _ HA) as Hb.
      destruct Hh as [->|(-> & _)]; exact Hb.
    + exfalso. unfold blank in Hroom.
      pose proof (unoccupied_after_flush (t_indicator t) (Concrete.empty_hart a)). lia.
Qed.

(** The translator of a word determines its block. *)
Lemma translate_inj b t1 ps1 ep1 t2 ps2 ep2 :
  let a := next_instruction_to_fetch b in is_uint 32 a ->
  translate t1 ps1 ep1 b (blank a) = translate t2 ps2 ep2 b (blank a) ->
  t1 = t2 /\ map u32 ps1 = map u32 ps2 /\
  ep1 (set_is_flushable false b) = ep2 (set_is_flushable false b).
Proof.
  intros a Ha E.
  destruct (translate_blank b t1 ps1 ep1 Ha) as (h1 & E1 & Hb1).
  destruct (translate_blank b t2 ps2 ep2 Ha) as (h2 & E2 & Hb2).
  subst a. rewrite E1, E2 in E. injection E as Eep <-. unfold block_at in *. rewrite Hb1 in Hb2.
  by injection Hb2 as -> ->.
Qed.

Lemma built_implements code h it i ins :
  built code h it -> is_uint 32 (guest_pc it) -> code !! guest_pc it = Some i ->
  decode_rv32 i = Some ins ->
  exists t ps, block_at h (tc_offset it) t ps /\ template_falls t = negb (rv_exits ins) /\
    forall m, ready m -> rd_pc m = guest_pc it ->
      block_ends (rv_exits ins) t ps m (execute_rv32 ins m).
Proof.
  intros (i' & tr & b & t & ps & Hc & Hi & Htr & Hnext & Hgo & Hrun & Hb) Hpc Hc' Hd.
  rewrite Hc in Hc'. injection Hc' as ->.
  destruct (decode_rv32_translates i ins Hi Hd) as (tr' & t' & ps' & Htr' & Hrun' & Himp).
  rewrite Htr in Htr'. injection Htr' as <-.
  pose proof (Hrun (blank (next_instruction_to_fetch b))) as E.
  rewrite Hrun' in E. apply translate_inj in E as (-> & Eps & Eep); [|by rewrite Hnext].
  rewrite Hnext in Eps.
  exists t, (map u32 ps). split; [done|]. split.
  - unfold epilogue_for in Eep. apply (f_equal is_to_stop) in Eep. revert Eep.
    destruct (rv_exits ins), (template_falls t); cbn; congruence.
  - intros m Hm Hm'. rewrite <- Eps, <- Hm'. by apply Himp.
Qed.

(** ** Without breakpoints *)

(** No breakpoint is set, so the debugger hook of a block returns at once. *)
Definition unhooked (m : machine) : Prop :=
  hart_magic (m_hart m) = HART_MAGIC_WORD /\ breakpoints m = [].

Lemma unhooked_no_breakpoint m : unhooked m -> no_breakpoint machine_call m.
Proof.
  intros [Hm Hb] a b c. unfold machine_call. change (s32 1) with 1.
  unfold enter_vmm_dbg_shell, bind, get, ASSERT. by rewrite Hm, Hb.
Qed.

(** A program that leaves the breakpoints alone, when it returns. *)
Definition keeps_bps {A} (q : prog machine A) : Prop :=
  forall m a m', q m = Ok a m' -> breakpoints m' = breakpoints m.

Lemma keeps_bps_bind {A B} (q : prog machine A) (k : A -> prog machine B) :
  keeps_bps q -> (forall a, keeps_bps (k a)) -> keeps_bps (bind q k).
Proof.
  intros Hq Hk m b m'. unfold bind. destruct (q m) as [a m1| | |] eqn:E; [|done..]. intros E'.
  by rewrite (Hk _ _ _ _ E'), (Hq _ _ _ E).
Qed.
Lemma keeps_bps_gets {A} (f : machine -> A) : keeps_bps (gets f).
Proof. by intros m a m' [= _ <-]. Qed.
Lemma keeps_bps_modify f : (forall m, breakpoints (f m) = breakpoints m) -> keeps_bps (modify f).
Proof. by intros Hf m a m' [= _ <-]. Qed.
Lemma keeps_bps_of_opt {A} (o : option A) : keeps_bps (of_opt o).
Proof. destruct o; [by intros m x m' [= _ <-]|done]. Qed.
Lemma keeps_bps_failed {A} : keeps_bps (failed (A := A)).
Proof. done. Qed.
Lemma keeps_bps_find_region a : keeps_bps (find_region a).
Proof. intros m r m'. pose proof (looks_find_region a m) as HL. destruct (find_region a m); [|done..]. by intros [= _ <-]; subst. Qed.
Lemma keeps_bps_pmr_read r a n : keeps_bps (pmr_read r a n).
Proof. intros m x m' E. by apply pmr_read_devices in E as (p & u & ->). Qed.
Lemma keeps_bps_pmr_write r a n v : keeps_bps (pmr_write r a n v).
Proof.
  intros m [] m'. unfold pmr_write. destruct (pmr_callbacks r); cbn.
  - unfold ram_write. case_test; [done|]. destruct (mem_store _ _ _ _); [|done]. by intros [= <-].
  - unfold bootrom_write. repeat case_test; [by intros [= <-]|done|].
    destruct (mem_store _ _ _ _); [|done]. by intros [= <-].
  - by intros [= <-].
  - by intros [= <-].
  - destruct (uart_mmio_write a n v (uart m) (plic m)) as [[[]]|]; [|done]. by intros [= <-].
  - unfold syscon_write. repeat case_test; [done..|]. by intros [= <-].
Qed.
Lemma keeps_bps_translate get_tlb cap put_tlb fault va : keeps_bps (translate_va get_tlb cap put_tlb fault va).
Proof. intros m e m' E. by apply translate_va_ok in E as (h' & -> & _). Qed.

Create HintDb bps.
#[local] Hint Resolve keeps_bps_bind keeps_bps_gets keeps_bps_of_opt keeps_bps_failed
  keeps_bps_find_region keeps_bps_pmr_read keeps_bps_pmr_write keeps_bps_translate : bps.
#[local] Hint Extern 1 (keeps_bps (ret _)) => (by intros m x m' [= _ <-]) : bps.
#[local] Hint Extern 1 (keeps_bps (reg _)) => (apply keeps_bps_gets) : bps.
#[local] Hint Extern 1 (keeps_bps (put_reg _ _)) => (by apply keeps_bps_modify) : bps.
#[local] Hint Extern 1 (keeps_bps (modify _)) => (by apply keeps_bps_modify) : bps.

Lemma keeps_bps_vmread n va : keeps_bps (vmread n va).
Proof.
  unfold vmread, direct_read. apply keeps_bps_bind; [auto with bps|]. intros h. case_test; auto 6 with bps.
  apply keeps_bps_bind; [auto with bps|]. intros [r|]; auto with bps.
Qed.
Lemma keeps_bps_vmwrite n va v : keeps_bps (vmwrite n va v).
Proof.
  unfold vmwrite, direct_write. apply keeps_bps_bind; [auto with bps|]. intros h. case_test; auto 6 with bps.
  apply keeps_bps_bind; [auto with bps|]. intros [r|]; auto with bps.
Qed.
Lemma keeps_bps_guard {A} (b : bool) n va (q : prog machine A) :
  keeps_bps q -> keeps_bps ((if b then on_hart (raise_exception_with_tvalue n va) else ret tt) ;;; q).
Proof.
  intros Hq m x m'. unfold bind. destruct b; [|apply Hq].
  pose proof (on_hart_raise (A := unit) n va m). by destruct (on_hart _ _).
Qed.
Lemma keeps_bps_read_aligned a : keeps_bps (mmu_read32_aligned a).
Proof. apply keeps_bps_guard, keeps_bps_vmread. Qed.
Lemma keeps_bps_write_aligned a v : keeps_bps (mmu_write32_aligned a v).
Proof. apply keeps_bps_guard, keeps_bps_vmwrite. Qed.
#[local] Hint Resolve keeps_bps_vmread keeps_bps_vmwrite keeps_bps_read_aligned keeps_bps_write_aligned : bps.

Lemma keeps_bps_amo rs1 rs2 rd funct5 : keeps_bps (amo_instruction_slowpath rs1 rs2 rd funct5).
Proof.
  unfold amo_instruction_slowpath, amoadd_slowpath, amoswap_slowpath, amoxor_slowpath,
    amoor_slowpath, amoand_slowpath, lr_slowpath, sc_slowpath.
  repeat case_match; auto 12 with bps.
  apply keeps_bps_bind; [auto with bps|]. intros a. apply keeps_bps_bind; [auto with bps|]. intros b.
  apply keeps_bps_bind; [auto with bps|]. intros [idx|]; auto 8 with bps.
Qed.

Lemma keeps_bps_falls i ins :
  decode_rv32 i = Some ins -> rv_exits ins = false -> ins <> Sys I_EBREAK -> keeps_bps (execute_rv32 ins).
Proof.
  intros Hd Hx Hne. destruct ins as [ins|ins|ins]; cbn [execute_rv32].
  - intros m [] m'. case_test; [done|]. intros [= <-].
    destruct ins; cbn [execute]; unfold set_rd; by repeat case_test.
  - destruct ins; cbn [execute_mem]; unfold next_pc; auto 8 with bps.
    + do 2 (apply keeps_bps_bind; [auto with bps|]; intros ?).
      apply keeps_bps_bind; [|auto with bps].
      apply keeps_bps_modify. intros m. unfold set_rd. by case_test.
    + apply keeps_bps_bind; [apply keeps_bps_amo|]. auto with bps.
  - destruct ins; try done. by apply keeps_bps_modify.
Qed.

(** ** The simulation *)

(** The outcome of a run that has executed the instructions up to [m']: the jumper,
    or the end of an instruction that leaves. *)
Definition run_result (code : gmap Z Z) (fresh : bool) (m' : machine) (e : cache_end) : Prop :=
  (fresh = false /\ e = to_vmm m') \/
  exists i ins, code !! rd_pc m' = Some i /\ decode_rv32 i = Some ins /\
    leaves ins (execute_rv32 ins m') /\ ends_like (execute_rv32 ins m') e.

(** The next word is not an instruction of the ISA. *)
Definition undefined_word (code : gmap Z Z) (m' : machine) : Prop :=
  exists i, code !! rd_pc m' = Some i /\ decode_rv32 i = None.

(** The next word is not one the run is followed through: undefined, or EBREAK, which
    enters the debugger. *)
Definition odd_word (code : gmap Z Z) (m' : machine) : Prop :=
  exists i, code !! rd_pc m' = Some i /\ (decode_rv32 i = None \/ decode_rv32 i = Some (Sys I_EBREAK)).

Lemma run_block_leaves exits t ps m r junk c :
  block_ends exits t ps m r -> context c -> (match r with Ok _ _ => exits = true | _ => True end) ->
  exists e, ends_like r e /\
    match run_block machine_call junk t ps c m with
    | XFall _ _ => False
    | XVmm _ m => e = to_vmm m
    | XTrap m => e = by_trap m
    | XExit m => e = process_ends m
    | XFault _ | XStuck => e = goes_wrong
    end.
Proof.
  intros HB HC Hx. destruct r as [u m'|m'|k m'|]; cbn [block_ends ends_like] in *.
  - rewrite Hx in HB. destruct (HB junk c HC) as (c' & -> & _). by eexists.
  - rewrite (HB junk c HC). by eexists.
  - rewrite (HB junk c HC). by eexists.
  - specialize (HB junk c HC). destruct (run_block _ _ _ _ _ _); try done; by eexists.
Qed.

Lemma leaves_or_goes ins r :
  leaves ins r \/ exists m1, r = Ok tt m1 /\ rv_exits ins = false.
Proof.
  destruct r as [[] m1| | |]; cbn [leaves]; auto. destruct (rv_exits ins); [by left|right; by eexists].
Qed.

Lemma run_result_weaken code b1 b2 m' e : run_result code b1 m' e -> b2 = false -> run_result code b2 m' e.
Proof. intros [[_ ->]|HR] ->; [by left|by right]. Qed.

Lemma run_cache_spec base code h0 junk m0 :
  cache_wf base h0 -> chained h0 -> backed code h0 ->
  forall fuel it n c m,
  isa_steps code n m0 m -> it ∈ live h0 -> cache_same h0 (m_hart m) -> guest_pc it = rd_pc m ->
  guest_ok m -> unhooked m -> context c -> translation_cache_ptr h0 - tc_offset it < Z.of_nat fuel ->
  exists k m', isa_steps code k m0 m' /\ (n <= k)%nat /\
    cache_same h0 (m_hart m') /\ guest_ok m' /\ unhooked m' /\
    (odd_word code m' \/
     exists e, run_cache fuel junk (tc_offset it) c m = Some e /\
       run_result code (k =? n)%nat m' e).
Proof.
  intros HW HCh HBk. induction fuel as [|fuel IH]; intros it n c m HS Hin HCs Hpc HG HU HC Hfuel.
  { pose proof (wf_placed _ _ HW) as HP. rewrite Forall_forall in HP.
    destruct (HP it Hin) as (t & ps & _ & _ & Hhi). pose proof (translation_size_pos (t_indicator t)). lia. }
  unfold backed in HBk. rewrite Forall_forall in HBk. pose proof (HBk it Hin) as Hbuilt.
  destruct Hbuilt as (i & Hrest). pose proof Hrest as (tr0 & b0 & t0 & ps0 & Hcode & Hi & _).
  assert (Hb : built code h0 it) by (by exists i).
  assert (Hodd : (decode_rv32 i = None \/ decode_rv32 i = Some (Sys I_EBREAK)) \/
    exists ins, decode_rv32 i = Some ins /\ ins <> Sys I_EBREAK).
  { destruct (decode_rv32 i) as [[| |[]]|]; auto; right; eexists; (split; [reflexivity|discriminate]). }
  destruct Hodd as [Hodd|(ins & Hd & Hne)].
  { exists n, m. repeat (split; [done|]). left. exists i. by rewrite <- Hpc. }
  assert (Hu : is_uint 32 (guest_pc it)).
  { pose proof (wf_uint _ _ HW) as HUi. rewrite Forall_forall in HUi. by apply HUi. }
  destruct (built_implements code h0 it i ins Hb Hu Hcode Hd) as (t & ps & Hblk & Hfalls & Himp).
  assert (Hready : ready m) by (split; [done|by apply unhooked_no_breakpoint]).
  specialize (Himp m Hready (eq_sym Hpc)).
  cbn [run_cache]. pose proof (proj1 HCs) as Etc. rewrite Etc. unfold block_at in Hblk. rewrite Hblk.
  destruct (leaves_or_goes ins (execute_rv32 ins m)) as [HL|(m1 & E1 & Hx)].
  - exists n, m. repeat (split; [done|]). right.
    destruct (run_block_leaves _ _ _ _ _ (junk fuel) c Himp HC) as (e & He & Hrun).
    { by destruct (execute_rv32 ins m). }
    exists e. split; [destruct (run_block _ _ _ _ _ _); congruence || done|].
    right. exists i, ins. by rewrite <- Hpc.
  - rewrite E1, Hx in Himp. destruct (Himp (junk fuel) c HC) as (c' & -> & HC' & _).
    destruct (rv_goes_on i ins m m1 Hd Hx HG E1) as (HCs1 & Hm1 & Hpc1 & HG1).
    pose proof (cache_same_trans _ _ _ HCs HCs1) as HCs'.
    assert (HU1 : unhooked m1).
    { destruct HU as [Hm Hbp]. split; [congruence|]. rewrite <- Hbp. by apply (keeps_bps_falls i ins Hd Hx Hne _ tt). }
    assert (HS1 : isa_steps code (S n) m0 m1) by (eapply steps_more; [exact HS|by rewrite <- Hpc|done..]).
    rewrite Hx in Hfalls. pose proof (translation_size_pos (t_indicator t)) as Hpos.
    destruct (chained_linked h0 it t ps HCh Hin Hblk Hfalls) as [[HJ Hle]|(it' & Hin' & Ho & Hpc')].
    + pose proof jumper_size_pos. exists (S n), m1. split; [done|]. split; [lia|]. repeat (split; [done|]). right.
      exists (to_vmm m1). destruct fuel as [|fuel]; [lia|]. cbn [run_cache].
      rewrite (proj1 HCs'), HJ. split; [done|]. left. split; [|done]. apply Nat.eqb_neq. lia.
    + destruct (IH it' (S n) c' m1) as (k & m' & HSk & Hk & HR1 & HR2 & HR3 & HR); try done.
      * rewrite Hpc', Hpc1. by rewrite Hpc.
      * lia.
      * exists k, m'. split; [done|]. split; [lia|]. repeat (split; [done|]). rewrite Ho in HR.
        destruct HR as [HUd|(e & He & HR)]; [by left|right]. exists e. split; [done|].
        eapply run_result_weaken; [exact HR|]. apply Nat.eqb_neq. lia.
Qed.

(** ** Prefetching translates the words it fetches *)

(** The words [ws], fetched from [a] on, over those of [code]. *)
Fixpoint remember (a : Z) (ws : list Z) (code : gmap Z Z) : gmap Z Z :=
  match ws with
  | [] => code
  | i :: ws => remember (u32 (a + 4)) ws (<[a := i]> code)
  end.

Lemma backed_same code h h' : cache_same h h' -> backed code h -> backed code h'.
Proof.
  intros HS HB. unfold backed. rewrite (cache_same_live h h' HS). eapply Forall_impl; [exact HB|].
  intros it (i & tr & b & t & ps & Hrest). exists i, tr, b, t, ps. unfold block_at in *.
  by rewrite (proj1 HS).
Qed.

(** A word that is not translated. *)
Lemma backed_insert code h a i : ~ translated h a -> backed code h -> backed (<[a := i]> code) h.
Proof.
  intros Hn HB. unfold backed in *. rewrite Forall_forall in HB |- *. intros it Hin.
  destruct (HB it Hin) as (j & tr & b & t & ps & Hc & Hrest). exists j, tr, b, t, ps. rewrite lookup_insert_ne; [done|].
  intros ->. apply Hn. unfold translated. by apply list_elem_of_fmap_2.
Qed.

(** One instruction: what the round adds is built from the word fetched. *)
Lemma prefetch_one_backed base code b m b' m' :
  cache_wf base (m_hart m) -> is_uint 32 (next_instruction_to_fetch b) ->
  in_window base (next_instruction_to_fetch b) -> ~ translated (m_hart m) (next_instruction_to_fetch b) ->
  is_to_stop b = false -> backed code (m_hart m) ->
  prefetch_one_instruction b m = Ok b' m' ->
  exists i, fetch_word (next_instruction_to_fetch b) m i m' /\
    backed (<[next_instruction_to_fetch b := i]> code) (m_hart m').
Proof.
  intros HW Ha Hwin Hnew Hgo HB. unfold prefetch_one_instruction, bind.
  destruct (mmu_instruction_read32 _ m) as [i m1| | |] eqn:EF; [|done..].
  destruct (fetch_frame _ _ _ _ EF) as (Hi & Hitlb & _).
  destruct (translators _) as [tr|] eqn:ET; [|done]. intros E.
  pose proof (cache_same_itlb _ _ Hitlb) as HS. pose proof (backed_same _ _ _ HS HB) as HB1.
  rewrite <- (cache_same_translated _ _ _ HS) in Hnew.
  apply (backed_insert _ _ _ i Hnew) in HB1.
  destruct (translators_shaped _ tr i ET b) as [HN|(t & ps & ep & HT & ->)]; [by rewrite HN in E|].
  rewrite HT in E.
  destruct (translate_spec base t ps (epilogue_for t) b (m_hart m1)) as (b1 & h' & E1 & HR);
    [by eapply cache_same_wf|done..|].
  rewrite E1 in E. injection E as <- <-. exists i.
  split; [exists m1, h'; split; [done|]; split; [by eapply result_same|done]|].
  destruct HR as [h0 h' Hh0 HA|Hf _]; [|exact HB1].
  cbn [m_hart set_m_hart]. unfold backed. rewrite (added_live _ _ _ _ _ _ HA). apply Forall_cons. split.
  - exists i, tr, b, t, ps. cbn [guest_pc tc_offset]. rewrite lookup_insert_eq.
    repeat (split; [done|]). apply (added_block _ _ _ _ _ _ HA).
  - rewrite Forall_forall. intros it Hin.
    assert (Hin1 : it ∈ live (m_hart m1)).
    { destruct Hh0 as [->|(-> & _)]; [done|]. by apply elem_of_nil in Hin. }
    unfold backed in HB1. rewrite Forall_forall in HB1.
    destruct (HB1 it Hin1) as (i1 & tr1 & b1' & t1 & ps1 & Hc & Hi1 & Ht1 & Hn1 & Hg1 & Hr1 & Hb1).
    exists i1, tr1, b1', t1, ps1.
    repeat (split; [done|]). pose proof (added_kept _ _ _ _ _ _ HA) as HK. rewrite Forall_forall in HK.
    apply (HK it Hin). by destruct Hh0 as [->|(-> & _)].
Qed.

Lemma loop_backed base pc0 fuel : prefetch_window base pc0 -> forall j b m fin m' code,
  rest_inv base pc0 j b (m_hart m) -> backed code (m_hart m) -> prefetch_loop fuel b m = Ok fin m' ->
  exists ws, fetches (next_instruction_to_fetch b) m ws m' /\
    backed (remember (next_instruction_to_fetch b) ws code) (m_hart m').
Proof.
  intros Hwin. induction fuel as [|fuel IH]; intros j b m fin m' code HI HB E.
  - injection E as <- <-. exists []. split; [apply fetches_refl|done].
  - destruct (rest_search base pc0 j b m Hwin HI) as (o & Es & Ho).
    cbn [prefetch_loop] in E. unfold bind at 1 in E. rewrite Es in E. destruct o as [it|].
    { injection E as <- <-. exists []. split; [apply fetches_refl|done]. }
    unfold bind in E. destruct (prefetch_one_instruction b m) as [b1 m1| | |] eqn:E1; [|done..].
    assert (Hjmax : 0 <= Z.of_nat j <= MAX_INSTRUCTIONS_TOTRANSLATE).
    { pose proof (wf_nr _ _ (ri_wf _ _ _ _ _ HI)) as HN. rewrite <- (live_length base) in HN by apply HI.
      pose proof (ri_count _ _ _ _ _ HI). lia. }
    destruct (prefetch_one_backed base code b m b1 m1) as (i & HF1 & HB1);
      [apply HI|rewrite (ri_next _ _ _ _ _ HI); apply u32_range|
       rewrite (ri_next _ _ _ _ _ HI); by apply Hwin|done|apply HI|done|done|].
    destruct (rest_step base pc0 j b m b1 m1 Hwin HI Ho E1) as (_ & _ & HN).
    destruct (is_to_stop b1).
    + injection E as <- <-. exists [i]. split; [by apply fetches_one|done].
    + destruct (IH (S j) b1 m1 fin m' _ (HN eq_refl) HB1 E) as (ws & HF' & HB').
      assert (En : next_instruction_to_fetch b1 = u32 (next_instruction_to_fetch b + 4)).
      { rewrite (ri_next _ _ _ _ _ (HN eq_refl)), (ri_next _ _ _ _ _ HI), u32_add_l. f_equal. lia. }
      rewrite En in HF', HB'. exists (i :: ws). split; [by eapply fetches_word|done].
Qed.

Lemma backed_jumper base code h : cache_wf base h -> backed code h -> backed code (append_jumper h).
Proof.
  intros HW HB. pose proof (wf_placed _ _ HW) as HP. unfold backed in *. rewrite jumper_live.
  rewrite Forall_forall in HP, HB |- *. intros it Hin.
  destruct (HB it Hin) as (i & tr & b & t & ps & Hc & Hi & Ht & Hn & Hg & Hr & Hb).
  exists i, tr, b, t, ps. repeat (split; [done|]).
  destruct (HP it Hin) as (t' & ps' & Hb' & _ & Hhi). unfold block_at in *. rewrite Hb in Hb'. simplify_eq.
  by apply jumper_kept.
Qed.

Lemma prefetch_backed base code m fin m' :
  cache_wf base (m_hart m) -> chained (m_hart m) -> is_uint 32 (pc (m_hart m)) ->
  prefetch_window base (pc (m_hart m)) -> backed code (m_hart m) ->
  prefetch_instructions m = Ok fin m' ->
  exists ws, fetches (pc (m_hart m)) m ws m' /\ backed (remember (pc (m_hart m)) ws code) (m_hart m').
Proof.
  intros HW HC Hu Hwin HB E. unfold prefetch_instructions, bind, gets, modify in E. cbv zeta in E.
  fold (first_blob (pc (m_hart m))) in E.
  destruct (prefetch_loop _ _ m) as [fin1 m1| | |] eqn:EL; [|done..].
  assert (HL : cache_wf base (m_hart m1) /\
    exists ws, fetches (pc (m_hart m)) m ws m1 /\ backed (remember (pc (m_hart m)) ws code) (m_hart m1)).
  { split.
    - apply (prefetch_loop_spec base) in EL as (_ & _ & [[-> _]|[HP _]]); [done|apply HP|done..].
    - destruct prefetch_fuel_rounds as (n & HFe & Hn).
      rewrite HFe in EL. cbn [prefetch_loop next_instruction_to_fetch first_blob] in EL.
      pose proof (window_start _ _ Hu Hwin) as Hw. unfold bind at 1, search_hart in EL.
      destruct (search_translation_item_spec base _ _ HW Hu Hw) as (o & Es & Ho). rewrite Es in EL.
      cbn [of_opt] in EL. unfold ret at 1 in EL. destruct o as [it|].
      { injection EL as _ <-. exists []. split; [apply fetches_refl|done]. }
      unfold bind in EL. fold (first_blob (pc (m_hart m))) in EL.
      destruct (prefetch_one_instruction _ m) as [b1 m2| | |] eqn:E1; [|done..].
      destruct (prefetch_one_backed base code (first_blob (pc (m_hart m))) m b1 m2)
        as (i & HF1 & HB1); [done..|].
      destruct (first_step base m b1 m2 HW HC Hu Hw Ho E1) as (_ & _ & HN).
      destruct (is_to_stop b1); [injection EL as _ <-; exists [i]; split; [by apply fetches_one|done]|].
      destruct (loop_backed base _ n Hwin 1 b1 m2 fin1 m1 _ (HN eq_refl) HB1 EL) as (ws & HF & HB').
      rewrite (ri_next _ _ _ _ _ (HN eq_refl)) in HF, HB'.
      exists (i :: ws). split; [by eapply fetches_word|done]. }
  destruct HL as (HW1 & ws & HF & HB'). unfold ret in E. injection E as _ <-.
  exists ws. case_test; [|done]. split; [apply fetches_cache; [done|apply jumper_same_guest]|].
  by apply (backed_jumper base).
Qed.

End Simulation.

(** ** A round of the emulator *)

(** Every block takes at least one byte. *)
Definition RUN_FUEL : nat := Z.to_nat (TRANSLATION_CACHE_SIZE + 1).

(** No translated word is EBREAK, which enters the debugger. *)
Definition no_ebreak (code : gmap Z Z) : Prop :=
  forall a i, code !! a = Some i -> decode_rv32 i <> Some (Sys I_EBREAK).

Section Properties.
Context `{AssemblerOk}.

Lemma resumed base code m off m' :
  let h := m_hart m in
  cache_wf base h -> chained h -> prefetch_window base (pc h) -> backed code h -> guest_ok m ->
  vmresume m = Some (Ok off m') ->
  (translation_cache_ptr (m_hart m') <> translation_cache_ptr h \/ live (m_hart m') = live h) ->
  cache_wf base (m_hart m') /\ chained (m_hart m') /\
  (exists it, off = tc_offset it /\ it ∈ live (m_hart m') /\ guest_pc it = rd_pc m') /\
  exists ws, fetches (rd_pc m) m ws m' /\ backed (remember (rd_pc m) ws code) (m_hart m').
Proof.
  intros h HW HC Hwin HB HG ER Hlast.
  assert (Hu : is_uint 32 (pc h)) by (exact (rd_pc_uint (W := machine) m (proj1 HG))).
  destruct (prefetch_instructions m) as [fin m1|s|x s|] eqn:EP;
    [|unfold vmresume, bind in ER; rewrite EP in ER; done..].
  destruct (prefetch_spec base m fin m1 HW HC Hu Hwin EP) as (_ & HW1 & [is0 HF0] & (it & EV' & Hin & Hpc) & HC1).
  rewrite ER in EV'. injection EV' as -> ->.
  destruct (prefetch_backed base code m fin m1 HW HC Hu Hwin HB EP) as (ws & HF & HB').
  split; [done|]. split; [by apply HC1|]. split; [|by exists ws].
  exists it. split; [done|]. split; [done|]. rewrite Hpc.
  symmetry. exact (proj1 (proj2 (guest_same_fields _ _ (pf_guest _ _ (fetches_frame _ _ _ _ HF))))).
Qed.

Lemma prefetching_ready m m' : prefetching m m' -> guest_ok m -> unhooked m -> guest_ok m' /\ unhooked m'.
Proof.
  intros [(p & u & Em) Hg] HG [Hm0 Hb0]. destruct (guest_same_fields _ _ Hg) as (Hr & Hp & Hm). rewrite Em.
  unfold guest_ok, unhooked in *. cbn -[HART_REG] in *. unfold HART_REG in *. by rewrite Hr, Hp, Hm.
Qed.

Lemma enough_fuel base h it fuel :
  cache_wf base h -> it ∈ live h -> (RUN_FUEL <= fuel)%nat ->
  translation_cache_ptr h - tc_offset it < Z.of_nat fuel.
Proof.
  intros HW Hin Hf. pose proof (wf_ptr _ _ HW). pose proof (wf_placed _ _ HW) as HP. rewrite Forall_forall in HP.
  destruct (HP it Hin) as (t & ps & _ & Hlo & _). unfold RUN_FUEL, TRANSLATION_CACHE_SIZE in *. lia.
Qed.

(** ** Properties *)

(** C3. The emulator executes the guest's instructions. When [vmresume] has
    prefetched from a well-formed, chained cache (and did not refill it to exactly
    its old end), the run through the translation cache ends, and it is a run of the
    RV32 instruction set: [k] instructions in sequence, each one decoded from the
    word its pc was translated from and executed as the ISA says, and then either
    the jumper back to the vmm or one more instruction that leaves (a jump or
    branch, a system instruction, a trap, the end of the process). The words are
    those of earlier translations, overwritten by the words this round has fetched:
    the ones the fetches from the guest's pc on, pc, pc + 4 and so forth, have read one
    after the other, beginning with the machine at hand. Excepted are words the ISA does not define, and
    code with EBREAK, which enters the debugger. *)
Theorem round_executes_isa base code m off m' fuel junk gprs stk :
  let h := m_hart m in
  cache_wf base h -> chained h -> prefetch_window base (pc h) -> backed code h ->
  guest_ok m -> unhooked m -> vmresume m = Some (Ok off m') ->
  (translation_cache_ptr (m_hart m') <> translation_cache_ptr h \/ live (m_hart m') = live h) ->
  (RUN_FUEL <= fuel)%nat ->
  exists ws, fetches (rd_pc m) m ws m' /\
    let code' := remember (rd_pc m) ws code in
    backed code' (m_hart m') /\
    (no_ebreak code' -> exists k m'', isa_steps code' k m' m'' /\
       (undefined_word code' m'' \/
        exists e, run_cache fuel junk off (entry_cpu gprs stk) m' = Some e /\
          run_result code' (k =? 0)%nat m'' e)).
Proof.
  intros h HW HC Hwin HB HG HU ER Hlast Hfuel.
  destruct (resumed base code m off m' HW HC Hwin HB HG ER Hlast)
    as (HW' & HC' & (it & -> & Hin & Hpc) & ws & HF & HB').
  exists ws. split; [done|]. intros code'. split; [done|]. intros Hne.
  destruct (prefetching_ready _ _ (fetches_frame _ _ _ _ HF) HG HU) as [HG' HU'].
  destruct (run_cache_spec base code' (m_hart m') junk m' HW' HC' HB') with
    (fuel := fuel) (it := it) (n := 0%nat) (c := entry_cpu gprs stk) (m := m')
    as (k & m'' & HS & _ & _ & _ & _ & HR); try done.
  - constructor.
  - by apply (enough_fuel base).
  - exists k, m''. split; [done|]. destruct HR as [(i & Hc & [Hd|Hd])|HR]; [left; by exists i|by destruct (Hne _ _ Hc)|by right].
Qed.


(** An instruction that goes on to the next one advances the pc by 4, keeps every
    register in range and x0 zero, and leaves the translation cache as it is: so the
    blocks that follow it in the cache are still the right ones. *)
Theorem falling_keeps_cache i ins m m' :
  decode_rv32 i = Some ins -> rv_exits ins = false -> guest_ok m -> execute_rv32 ins m = Ok tt m' ->
  cache_same (m_hart m) (m_hart m') /\ rd_pc m' = u32 (rd_pc m + 4) /\ guest_ok m'.
Proof. intros Hd Hx HG E. by destruct (rv_goes_on i ins m m' Hd Hx HG E) as (? & _ & ? & ?). Qed.
End Properties.

(** *** Witnesses *)

Module Witness.
Import Concrete Board.
#[local] Existing Instance sizes.
#[local] Existing Instance sizes_ok.

(** lw a1, 8(a0); sw a1, 12(a0); jal zero, 0, with a0 at the start of memory. *)
Definition copy_loop : machine :=
  board (wr_reg 10 0x80000000 (empty_hart 0x80000000))
    [(0, 0x00852583); (4, 0x00b52623); (8, 0x0000006f)].

Definition copy_ready : machine := match vmresume copy_loop with Some (Ok _ m) => m | _ => copy_loop end.

Lemma copy_guest_ok : guest_ok copy_loop.
Proof.
  split; [|done]. split; [done|]. split; [|split; vm_compute; congruence].
  apply (bool_decide_unpack _). vm_compute. exact I.
Qed.

Lemma copy_window : prefetch_window 0x80000000 (pc (m_hart copy_loop)).
Proof. change (pc (m_hart copy_loop)) with 0x80000000. apply Engine.Witness.window_of; by vm_compute. Qed.

(** The round fetches the three words of the loop. *)
Lemma round_executes_isa_witness :
  exists ws, fetches 0x80000000 copy_loop ws copy_ready /\
    let code' := remember 0x80000000 ws ∅ in
    backed code' (m_hart copy_ready) /\
    (no_ebreak code' -> exists k m'', isa_steps code' k copy_ready m'' /\
       (undefined_word code' m'' \/
        exists e, run_cache RUN_FUEL (fun _ _ _ => 7) 0 (entry_cpu (fun _ => Vint 0) []) copy_ready = Some e /\
          run_result code' (k =? 0)%nat m'' e)).
Proof.
  apply (round_executes_isa 0x80000000 ∅ copy_loop 0 copy_ready RUN_FUEL (fun _ _ _ => 7)
    (fun _ => Vint 0) []).
  - apply (cache_same_wf _ (empty_hart 0x80000000)); [done|apply empty_cache_wf].
  - intros it t ps Hin. by apply elem_of_nil in Hin.
  - apply copy_window.
  - apply Forall_nil_2.
  - apply copy_guest_ok.
  - done.
  - vm_compute. reflexivity.
  - left. vm_compute. congruence.
  - reflexivity.
Defined.

(** The word stored by the loop in the run above: the load and the store went
    through the machine's memory. *)
Lemma copy_run :
  match run_cache RUN_FUEL (fun _ _ _ => 7) 0 (entry_cpu (fun _ => Vint 0) []) copy_ready with
  | Some (to_vmm m) => mem_load 12 4 (ram m) = Some 0x6f /\ pc (m_hart m) = 0x80000008
  | _ => False
  end.
Proof. vm_compute. split; reflexivity. Qed.


Lemma falling_keeps_cache_witness :
  exists m', execute_rv32 (Memory (I_LOAD LW 11 10 8)) copy_ready = Ok tt m' /\ guest_ok m' /\
    cache_same (m_hart copy_ready) (m_hart m').
Proof.
  set (m' := default copy_ready (final (execute_rv32 (Memory (I_LOAD LW 11 10 8)) copy_ready))).
  assert (E : execute_rv32 (Memory (I_LOAD LW 11 10 8)) copy_ready = Ok tt m') by (vm_compute; reflexivity).
  exists m'. split; [exact E|].
  destruct (falling_keeps_cache 0x00852583 (Memory (I_LOAD LW 11 10 8)) copy_ready m') as (HC & _ & HG).
  - reflexivity.
  - reflexivity.
  - split; [|reflexivity]. split; [reflexivity|]. split; [|split; vm_compute; congruence].
    apply (bool_decide_unpack _). vm_compute. exact I.
  - exact E.
  - split; [exact HG|exact HC].
Defined.
End Witness.
