(* ===== verification/Typing.v ===== *)
(** * Every field within its C type

    The model writes C integers as [Z]; this file shows that the machine's state stays
    within the types the source declares for it. [machine_typed] says so for the hart
    (registers, pc, csrs, interrupt masks, privilege level, TLBs), for its translation
    cache (nothing is written behind its 512 KiB or its 4096 mappings), for the memories
    and for every device. Every function a translation block calls, and every template,
    whatever its parameters, keeps it.

    [gives P R q]: the program [q], started in a state with [P], ends in one - whether it
    returns, traps or exits - and what it returns satisfies [R]. *)

From S2P Require Import Prelude SortSearch Monad PmRegion X86 Hart Decode TransArith BlockFacts.
From S2P Require Import TransSys Trap Clint Plic Uart Machine Mmu CsrHandlers Csr Interrupt.
From S2P Require Import Amo Engine Debug Calls Run.
Local Open Scope Z_scope.

(** ** Programs that keep an invariant *)

Definition gives {S A} (P : S -> Prop) (R : A -> Prop) (q : prog S A) : Prop :=
  forall s, P s ->
    match q s with
    | Ok a s' => P s' /\ R a
    | Trapped s' | Exited _ s' => P s'
    | Failed => True
    end.

Abbreviation keeps P q := (gives P (fun _ => True) q).

Create HintDb gives.

Section Yields.
Context {S : Type} (P : S -> Prop).

Lemma gives_ret {A} (R : A -> Prop) a : R a -> gives P R (ret a).
Proof. by intros Ha s Hs. Qed.
Lemma gives_failed {A} (R : A -> Prop) : gives P R (failed (A := A)).
Proof. by intros s Hs. Qed.
Lemma gives_gets {A} (R : A -> Prop) (f : S -> A) : (forall s, P s -> R (f s)) -> gives P R (gets f).
Proof. intros Hf s Hs. split; [done|]. by apply Hf. Qed.
Lemma gives_get : gives P P get.
Proof. by intros s Hs. Qed.
Lemma gives_modify f : (forall s, P s -> P (f s)) -> keeps P (modify f).
Proof. intros Hf s Hs. split; [by apply Hf|done]. Qed.
Lemma gives_try_modify f : (forall s s', P s -> f s = Some s' -> P s') -> keeps P (try_modify f).
Proof. intros Hf s Hs. unfold try_modify. destruct (f s) eqn:E; [|done]. split; [by eapply Hf|done]. Qed.
Lemma gives_of_opt {A} (R : A -> Prop) (o : option A) :
  (forall a, o = Some a -> R a) -> gives P R (of_opt o).
Proof. intros Ho s Hs. destruct o; [|done]. split; [done|by apply Ho]. Qed.
Lemma gives_weaken {A} (R R' : A -> Prop) q : (forall a, R a -> R' a) -> gives P R q -> gives P R' q.
Proof. intros HR Hq s Hs. specialize (Hq s Hs). destruct (q s); [destruct Hq|..]; auto. Qed.
Lemma gives_keeps {A} (R : A -> Prop) q : gives P R q -> keeps P q.
Proof. by apply gives_weaken. Qed.

Lemma gives_bind {A B} (R : A -> Prop) (R' : B -> Prop) q (k : A -> prog S B) :
  gives P R q -> (forall a, R a -> gives P R' (k a)) -> gives P R' (bind q k).
Proof.
  intros Hq Hk s Hs. specialize (Hq s Hs). unfold bind. destruct (q s) as [a s1| | |]; [|done..].
  destruct Hq as [Hs1 Ha]. by apply Hk.
Qed.

Lemma gives_seq {A B} (R' : B -> Prop) (q : prog S A) (k : prog S B) :
  keeps P q -> gives P R' k -> gives P R' (q ;;; k).
Proof. intros Hq Hk. by eapply gives_bind. Qed.

Lemma gives_assert {B} b (R' : B -> Prop) (k : prog S B) :
  (b = true -> gives P R' k) -> gives P R' (ASSERT b ;;; k).
Proof. intros Hk s Hs. destruct b; [by apply Hk|done]. Qed.

Lemma gives_ASSERT b : keeps P (ASSERT b).
Proof. intros s Hs. by destruct b. Qed.
End Yields.

Lemma gives_zoom {S T A} (P : S -> Prop) (Q : T -> Prop) (R : A -> Prop) (view : S -> T)
    (put : T -> S -> S) (q : prog T A) :
  (forall s, P s -> Q (view s)) -> (forall s t, P s -> Q t -> P (put t s)) ->
  gives Q R q -> gives P R (zoom view put q).
Proof.
  intros Hv Hp Hq s Hs. specialize (Hq (view s) (Hv s Hs)). unfold zoom.
  destruct (q (view s)); [destruct Hq|..]; auto.
Qed.

#[export] Hint Resolve gives_failed gives_get gives_ASSERT : gives.

(** Unfolds a sequence of calls, one bind or test at a time. *)
Ltac gives_step :=
  first
    [ apply gives_failed | apply gives_ASSERT
    | apply gives_assert; intros ?
    | apply gives_seq
    | match goal with |- gives _ _ (if ?b then _ else _) => destruct b eqn:? end
    | match goal with |- gives _ _ (match ?o with _ => _ end) => destruct o eqn:? end ].

Ltac gives_go :=
  repeat first
    [ solve [auto 6 with gives]
    | by apply gives_ret
    | apply gives_seq
    | eapply gives_bind; [solve [auto with gives]|intros ??]
    | match goal with
      | |- gives _ _ (if ?b then _ else _) => destruct b eqn:?
      | |- gives _ _ (match ?o with _ => _ end) => destruct o eqn:?
      end ].

(** ** Types *)

Section Typed.
Context `{AssemblerOk}.

Definition is_level (pl : Z) : Prop :=
  pl = PRIVILEGE_LEVEL_USER \/ pl = PRIVILEGE_LEVEL_SUPERVISOR \/ pl = PRIVILEGE_LEVEL_MACHINE.

(** A TLB of [cap] entries. *)
Definition tlb_typed (cap : Z) (t : tlb) : Prop :=
  map_Forall (fun slot e => 0 <= slot < cap /\ is_uint 32 (va_tag e) /\ is_uint 32 (pa_tag e) /\
    is_uint 32 (page_mask e)) t.

Definition mapping_typed (it : program_counter_mapping_item) : Prop :=
  is_uint 32 (guest_pc it) /\ 0 <= tc_offset it < TRANSLATION_CACHE_SIZE.

(** Everything written lies inside the cache memory and the mapping array. *)
Record cache_fits (h : hart) : Prop := {
  ft_nr : 0 <= nr_translated_instructions h <= Z.of_nat (length (pc_mappings h));
  ft_len : Z.of_nat (length (pc_mappings h)) <= MAX_INSTRUCTIONS_TOTRANSLATE;
  ft_ptr : 0 <= translation_cache_ptr h <= TRANSLATION_CACHE_SIZE;
  ft_chunks : map_Forall (fun off c => 0 <= off /\ off + chunk_size c <= TRANSLATION_CACHE_SIZE)
                (translation_cache h);
  ft_items : Forall mapping_typed (pc_mappings h)
}.

Record hart_typed (h : hart) : Prop := {
  ht_bank : bank_wf h;
  ht_level : is_level (privilege_level h);
  ht_mpp : 0 <= mpp (status h) < 4;
  ht_masks : is_uint 32 (idelegation h) /\ is_uint 32 (ienable h) /\ is_uint 32 (ipending h);
  ht_csrs : map_Forall (fun _ e => is_uint 32 (csr_blob e)) (csrs_base h);
  ht_tsc : is_uint 64 (tsc h);
  ht_id : 0 <= hart_id h < MAX_NR_HARTS;
  ht_caps : 1 <= itlb_cap h <= 2 ^ 32 /\ 1 <= dtlb_cap h <= 2 ^ 32;
  ht_itlb : tlb_typed (itlb_cap h) (itlb h);
  ht_dtlb : tlb_typed (dtlb_cap h) (dtlb h);
  ht_cache : cache_fits h
}.

Definition memory_typed (m : memory) : Prop :=
  map_Forall (fun off b => 0 <= off < mem_size m /\ is_uint 8 b) (mem_bytes m).

Record plic_typed (p : plic_state) : Prop := {
  pt_wf : plic_wf p;
  pt_lines : is_uint 32 (asserted p) /\ is_uint 32 (claimed p);
  pt_enable : Forall (is_uint 32) (enable p);
  pt_lengths : length (priority p) = Z.to_nat PLIC_NR_SOURCES /\
    length (enable p) = Z.to_nat PLIC_MAX_CONTEXTS /\ length (threshold p) = Z.to_nat PLIC_MAX_CONTEXTS
}.

Record uart_typed (u : uart_state) : Prop := {
  ut_wf : uart_wf u;
  ut_fifo : Forall (is_uint 8) (rx_fifo u);
  ut_regs : is_uint 8 (ier u) /\ is_uint 8 (lcr u) /\ is_uint 8 (mcr u) /\ is_uint 8 (fcr u) /\
    is_uint 8 (scr u) /\ is_uint 8 (dll u) /\ is_uint 8 (dlm u)
}.

Definition reservation_typed (it : address_reservation_item) : Prop :=
  is_uint 32 (res_addr it) /\ is_uint 8 (res_hartid it).

Record machine_typed (m : machine) : Prop := {
  mt_hart : hart_typed (m_hart m);
  mt_ram : memory_typed (ram m);
  mt_bootrom : memory_typed (bootrom m);
  mt_clint : clint_wf (clint m);
  mt_plic : plic_typed (plic m);
  mt_uart : uart_typed (uart m);
  mt_terminal : Forall (is_uint 8) (terminal m);
  mt_keyboard : Forall (Forall (is_uint 8)) (keyboard m);
  mt_reservations : length (reservations m) = Z.to_nat MAX_RESERVATION_ITEMS /\
    Forall reservation_typed (reservations m) /\ 0 <= next_pointer m < MAX_RESERVATION_ITEMS;
  mt_countdown : is_uint 32 (poll_countdown m);
  mt_breakpoints : Forall (is_uint 32) (breakpoints m) /\
    Z.of_nat (length (breakpoints m)) <= MAX_BREAKPOINTS
}.

(** ** The hart *)

Lemma cache_fits_same h h' : cache_same h h' -> cache_fits h -> cache_fits h'.
Proof.
  intros (E1 & E2 & E3 & E4) []. by split; rewrite ?E1, ?E2, ?E3, ?E4.
Qed.

Lemma csr_blob_typed h a : hart_typed h -> is_uint 32 (csr_blob (csr_at h a)).
Proof.
  intros HT. unfold csr_at. destruct (csrs_base h !! a) as [e|] eqn:E; [|done].
  exact (ht_csrs h HT _ _ E).
Qed.
Lemma blob_typed h a : hart_typed h -> is_uint 32 (blob h a).
Proof. apply csr_blob_typed. Qed.

(** Updates of one field. *)
Ltac set_field :=
  match goal with HT : hart_typed _ |- _ => destruct HT as [HB HL HM HK HC HTs HId HCp HI HD HF] end;
  split; cbn in *; try done;
  try match goal with HF : cache_fits _ |- cache_fits _ => by destruct HF end.

Lemma typed_put_csr a v h : is_uint 32 v -> hart_typed h -> hart_typed (put_csr_blob a v h).
Proof. intros Hv HT. pose proof (ht_csrs h HT). set_field. by apply map_Forall_insert_2. Qed.
Lemma typed_set_pc v h : is_uint 32 v -> hart_typed h -> hart_typed (set_pc v h).
Proof. intros Hv HT. set_field. by destruct HB as (? & ? & _). Qed.
Lemma typed_put_reg i v h : is_uint 32 v -> hart_typed h -> hart_typed (set_HART_REG i v h).
Proof.
  intros Hv HT. set_field. destruct HB as (? & ? & ?). rewrite length_insert. split; [done|].
  split; [by apply Forall_insert|done].
Qed.
Lemma typed_set_status s h : 0 <= mpp s < 4 -> hart_typed h -> hart_typed (set_status s h).
Proof. intros Hv HT. set_field. Qed.
Lemma typed_set_level pl h : is_level pl -> hart_typed h -> hart_typed (set_privilege_level pl h).
Proof. intros Hv HT. set_field. Qed.
Lemma typed_set_ienable v h : is_uint 32 v -> hart_typed h -> hart_typed (set_ienable v h).
Proof. intros Hv HT. set_field. by destruct HK as (? & ? & ?). Qed.
Lemma typed_set_ipending v h : is_uint 32 v -> hart_typed h -> hart_typed (set_ipending v h).
Proof. intros Hv HT. set_field. by destruct HK as (? & ? & ?). Qed.
Lemma typed_set_idelegation v h : is_uint 32 v -> hart_typed h -> hart_typed (set_idelegation v h).
Proof. intros Hv HT. set_field. by destruct HK as (? & ? & ?). Qed.
Lemma typed_set_tsc v h : is_uint 64 v -> hart_typed h -> hart_typed (set_tsc v h).
Proof. intros Hv HT. set_field. Qed.
Lemma typed_set_itlb t h : tlb_typed (itlb_cap h) t -> hart_typed h -> hart_typed (set_itlb t h).
Proof. intros Hv HT. set_field. Qed.
Lemma typed_set_dtlb t h : tlb_typed (dtlb_cap h) t -> hart_typed h -> hart_typed (set_dtlb t h).
Proof. intros Hv HT. set_field. Qed.

Lemma invalidate_typed cap n t : tlb_typed cap t -> tlb_typed cap (invalidate_tlb n t).
Proof.
  intros HT slot e. unfold invalidate_tlb. rewrite map_lookup_imap.
  destruct (t !! slot) as [e0|] eqn:E; [|done]. cbn. intros [= <-]. pose proof (HT _ _ E). by case_test.
Qed.

Lemma typed_flush h : hart_typed h -> hart_typed (flush_translation_cache h).
Proof.
  intros HT. set_field. destruct HF. split; cbn; try done; unfold TRANSLATION_CACHE_SIZE; lia.
Qed.

Lemma typed_reg h i : hart_typed h -> is_uint 32 (HART_REG h i).
Proof.
  intros HT. destruct (ht_bank h HT) as (_ & HF & _). unfold HART_REG.
  destruct (registers h !! _) eqn:E; [|done]. by eapply Forall_lookup_1.
Qed.
Lemma typed_pc h : hart_typed h -> is_uint 32 (pc h).
Proof. intros HT. by destruct (ht_bank h HT) as (_ & _ & ?). Qed.

#[local] Hint Resolve typed_put_csr typed_set_pc typed_put_reg typed_set_status typed_set_level typed_set_ienable
  typed_set_ipending typed_set_idelegation typed_set_tsc typed_flush typed_reg typed_pc blob_typed
  csr_blob_typed : gives.

(** ** Traps and csrs *)

#[local] Hint Resolve ldiff_range land_range_l lor_range put_bit_range flag_range u8_range u16_range u32_range
  u64_range : gives.
#[local] Hint Extern 1 (0 <= _ < _) => lia : gives.
#[local] Hint Extern 1 (0 <= _) => lia : gives.
#[local] Hint Extern 1 (is_uint _ 0) => (by vm_compute) : gives.
#[local] Hint Extern 1 (is_uint _ (Zpos _)) => (by vm_compute) : gives.

Lemma trap_vector_typed tvec cause : is_uint 32 tvec -> is_uint 32 (trap_vector tvec cause).
Proof. intros. unfold trap_vector. cbv zeta. case_test; auto with gives. Qed.
#[local] Hint Resolve trap_vector_typed : gives.

Lemma level_mpp pl : is_level pl -> 0 <= pl < 4.
Proof. unfold is_level, PRIVILEGE_LEVEL_USER, PRIVILEGE_LEVEL_SUPERVISOR, PRIVILEGE_LEVEL_MACHINE. lia. Qed.

Lemma typed_mmode_trap cause tval h :
  is_uint 32 cause -> is_uint 32 tval -> hart_typed h -> hart_typed (setup_mmode_trap cause tval h).
Proof.
  intros Hc Hv HT. unfold setup_mmode_trap. cbv zeta.
  match goal with |- hart_typed (set_pc _ ?h') => assert (hart_typed h') as HT' end.
  { apply typed_set_level; [by do 2 right|]. apply typed_set_status; [|auto with gives].
    cbn. apply level_mpp, HT. }
  auto with gives.
Qed.
Lemma typed_smode_trap cause tval h :
  is_uint 32 cause -> is_uint 32 tval -> hart_typed h -> hart_typed (setup_smode_trap cause tval h).
Proof.
  intros Hc Hv HT. unfold setup_smode_trap. cbv zeta.
  match goal with |- hart_typed (set_pc _ ?h') => assert (hart_typed h') as HT' end.
  { apply typed_set_level; [right; by left|]. apply typed_set_status; [|auto with gives].
    cbn. apply HT. }
  auto with gives.
Qed.

Lemma typed_space_change t h :
  hart_typed h -> hart_typed (flush_translation_cache_on_address_space_change t h).
Proof. intros HT. unfold flush_translation_cache_on_address_space_change. case_test; auto with gives. Qed.
#[local] Hint Resolve typed_mmode_trap typed_smode_trap typed_space_change : gives.

Lemma gives_raise_raw {A} (R : A -> Prop) pl cause tval :
  is_uint 32 cause -> is_uint 32 tval -> gives hart_typed R (raise_trap_raw pl cause tval).
Proof.
  intros Hc Hv h HT. unfold raise_trap_raw. cbv zeta.
  repeat (case_test; [by auto with gives|]). done.
Qed.

Lemma gives_raise {A} (R : A -> Prop) cause tval :
  is_uint 32 cause -> is_uint 32 tval -> gives hart_typed R (raise_exception_with_tvalue cause tval).
Proof.
  intros Hc Hv. unfold raise_exception_with_tvalue.
  eapply (gives_bind _ (fun _ => True)); [by apply gives_gets|]. intros pl _.
  apply gives_assert. intros _. by apply gives_raise_raw.
Qed.
#[local] Hint Extern 1 (gives _ _ (raise_exception_with_tvalue _ _)) => (apply gives_raise; [by vm_compute|]) : gives.
#[local] Hint Extern 1 (gives _ _ (raise_exception _)) => (apply gives_raise; by vm_compute) : gives.

Lemma gives_mret : keeps hart_typed mret_callback.
Proof.
  unfold mret_callback, assert_hart_running_in_mmode, adjust_mstatus_upon_mret, adjust_pc_upon_mret.
  apply gives_seq.
  { eapply (gives_bind _ (fun _ => True)); [by apply gives_gets|]. intros pl _. case_test; auto with gives.
    by apply gives_ret. }
  eapply (gives_bind _ (fun _ => True)); [by apply gives_gets|]. intros t _. apply gives_seq.
  { eapply gives_bind; [apply gives_get|]. intros h HT. cbv zeta. apply gives_assert. intros Hm.
    apply gives_modify. intros h' HT'. apply typed_set_status; [by vm_compute|].
    apply typed_set_level; [|done]. to_prop. unfold is_level. tauto. }
  apply gives_seq; apply gives_modify; auto with gives.
Qed.

Lemma gives_sret : keeps hart_typed sret_callback.
Proof.
  unfold sret_callback, assert_hart_running_in_smode, adjust_mstatus_upon_sret, adjust_pc_upon_sret.
  apply gives_seq.
  { eapply (gives_bind _ (fun _ => True)); [by apply gives_gets|]. intros pl _. case_test; auto with gives.
    by apply gives_ret. }
  eapply (gives_bind _ (fun _ => True)); [by apply gives_gets|]. intros t _. apply gives_seq.
  { apply gives_modify. intros h HT. apply typed_set_status; [apply HT|].
    apply typed_set_level; [|done]. destruct (spp (status h)); [right; by left|by left]. }
  apply gives_seq; apply gives_modify; auto with gives.
Qed.

Lemma gives_ecall : keeps hart_typed ecall_callback.
Proof.
  unfold ecall_callback. eapply (gives_bind _ (fun _ => True)); [by apply gives_gets|]. intros pl _.
  repeat case_test; auto with gives.
Qed.

Lemma typed_run_write f a v h : is_uint 32 v -> hart_typed h -> hart_typed (run_write f a v h).
Proof.
  intros Hv HT. destruct (ht_masks h HT) as (Hd & He & Hp).
  destruct f; cbn [run_write]; try done; try (by apply typed_put_csr).
  - by apply typed_set_ienable.
  - apply typed_set_ipending; [|done]. auto with gives.
  - by apply typed_set_idelegation.
  - apply typed_set_status; [|done]. cbn. change 3 with (Z.ones 2). rewrite Z.land_ones by lia.
    by apply Z.mod_pos_bound.
  - assert (HP : hart_typed (put_csr_blob a v h)) by auto with gives.
    apply typed_flush, typed_set_dtlb, typed_set_itlb, HP; apply invalidate_typed; cbn; apply HP.
  - unfold csr_sie_write. cbv zeta. repeat apply typed_set_ienable; cbn; auto 10 with gives.
  - apply typed_set_ipending; auto with gives.
  - apply typed_set_status; [|done]. apply HT.
Qed.

Lemma typed_run_read f now a h :
  is_uint 64 now -> hart_typed h -> is_uint 32 (run_read f now a h).1 /\ hart_typed (run_read f now a h).2.
Proof.
  intros Hn HT. destruct (ht_masks h HT) as (Hd & He & Hp).
  destruct f; cbn [run_read fst snd]; (split; [|first [exact HT|by apply typed_set_tsc]]);
    try done; try (by apply blob_typed); try apply u32_range.
  - pose proof (ht_id h HT). unfold csr_mhartid_read, is_uint, MAX_NR_HARTS in *. lia.
  - unfold csr_mstatus_read. cbv zeta. pose proof (ht_mpp h HT).
    assert (is_uint 32 (Z.shiftl (mpp (status h)) 11)).
    { unfold is_uint. rewrite Z.shiftl_mul_pow2 by lia. change (2 ^ 11) with 2048. change (2 ^ 32) with 4294967296. lia. }
    repeat apply lor_range; auto with gives.
  - unfold csr_sie_read. cbv zeta. repeat apply lor_range; auto with gives.
  - unfold csr_sip_read. cbv zeta. repeat apply lor_range; auto with gives.
  - unfold csr_sstatus_read. cbv zeta. repeat apply lor_range; auto with gives.
Qed.

Lemma gives_csr_value now a : is_uint 64 now -> gives hart_typed (is_uint 32) (csr_value now a).
Proof.
  intros Hn h HT. unfold csr_value. destruct (read (csr_at h a)) as [f|].
  - pose proof (typed_run_read f now a h Hn HT) as [Hv HT']. destruct (run_read f now a h) as [v h'].
    split; [done|]. auto with gives.
  - split; [done|]. by apply land_range_l.
Qed.
Lemma gives_csr_store a v : is_uint 32 v -> keeps hart_typed (csr_store a v).
Proof.
  intros Hv. apply gives_modify. intros h HT. destruct (write _); [by apply typed_run_write|done].
Qed.

Lemma rs1_index_range i ty dec : instruction_decoding_per_type i ty = Some dec -> is_uint 5 (rs1_index dec).
Proof.
  assert (Hf : forall lo, is_uint 5 (Z.land (Z.shiftr i lo) 0x1f)).
  { intros lo. change 0x1f with (Z.ones 5). rewrite Z.land_ones by lia. by apply Z.mod_pos_bound. }
  destruct ty; cbn; intros [= <-]; cbn; done || apply Hf.
Qed.

Lemma gives_put_reg rd v : is_uint 32 v -> keeps hart_typed (modify (set_HART_REG rd v)).
Proof. intros. apply gives_modify. auto with gives. Qed.
#[local] Hint Resolve gives_put_reg gives_csr_value gives_csr_store : gives.

Lemma gives_generic_csr now instruction :
  is_uint 64 now -> keeps hart_typed (riscv_generic_csr_callback now instruction).
Proof.
  intros Hn. unfold riscv_generic_csr_callback. eapply gives_bind; [apply gives_get|]. intros h HT.
  apply gives_assert. intros _. apply gives_assert. intros _.
  eapply (gives_bind _ (fun dec => is_uint 32 (rs1_index dec))).
  { apply gives_of_opt. intros dec E. apply (is_uint_weaken 5); [lia|by eapply rs1_index_range]. }
  intros dec Hdec. cbv zeta. case_test; [auto with gives|].
  repeat case_match; try apply gives_failed; apply gives_seq || (eapply gives_bind; [by apply gives_csr_value|]);
    intros; gives_go.
Qed.

Lemma gives_sfence : keeps hart_typed sfence_vma_callback.
Proof.
  unfold sfence_vma_callback. repeat apply gives_seq; apply gives_modify; auto with gives; intros h HT.
  - apply typed_set_itlb, HT. apply invalidate_typed, HT.
  - apply typed_set_dtlb, HT. apply invalidate_typed, HT.
Qed.

(** ** Devices *)

Lemma Forall_set_arr {w} i v l : is_uint w v -> Forall (is_uint w) l -> Forall (is_uint w) (set_arr i v l).
Proof. intros. by apply Forall_insert. Qed.

Lemma advance_time_wf ticks c : clint_wf c -> clint_wf (clint_advance_time ticks c).
Proof. intros []. split; cbn; try done. apply u64_range. Qed.

Lemma skip_wf c : clint_wf c -> clint_wf (clint_skip_to_next_deadline c).2.
Proof.
  intros HW. pose proof HW as [Hh [Hl HF] Hm Ht Hb]. unfold clint_skip_to_next_deadline. cbv zeta.
  case_test; [done|]. cbn. case_test; [|done]. split; cbn; try done.
  destruct (earliest_deadline_spec (Z.to_nat (clint_nr_harts c)) 0 NO_DEADLINE (mtimecmp c)) as (_ & _ & [->|(j & Hj & ->)]);
    [by vm_compute|by apply arr_uint].
Qed.

Lemma set_pending_typed source line p p' :
  plic_typed p -> plic_set_pending source line p = Some p' -> plic_typed p'.
Proof.
  intros [HW [Ha Hc] He Hl]. unfold plic_set_pending. case_test; [done|]. intros [= <-].
  apply negb_false_iff in E. to_prop. unfold PLIC_NR_SOURCES in E. split; cbn; try done.
  - destruct HW as [? ? HP]. split; cbn; try done. by rewrite HP.
  - split; [|done]. apply put_bit_range; [lia|done].
Qed.

Lemma claim_typed context p : plic_typed p -> plic_typed (plic_claim context p).2.
Proof.
  intros [HW [Ha Hc] He Hl]. pose proof (best_source_range p context HW) as Hb.
  unfold plic_claim. case_test; [|done]. unfold PLIC_NR_SOURCES in Hb.
  split; cbn; try done; [by destruct HW|]. split; [done|]. by apply put_bit_range.
Qed.

Lemma complete_typed context s p : 0 <= s -> plic_typed p -> plic_typed (plic_complete context s p).
Proof.
  intros Hs [HW [Ha Hc] He Hl]. pose proof (plic_complete_wf context s p Hs HW) as HW'. revert HW'.
  unfold plic_complete. case_test; [done|]. intros HW'. to_prop. unfold PLIC_NR_SOURCES in E.
  split; cbn; try done. split; [done|]. apply put_bit_range; [lia|done].
Qed.

Lemma plic_read_typed a n p : plic_typed p -> plic_typed (plic_mmio_read a n p).2.
Proof. intros HT. unfold plic_mmio_read. cbv zeta. repeat case_test; try done. by apply claim_typed. Qed.

Lemma plic_write_typed a n v p : plic_typed p -> plic_typed (plic_mmio_write a n v p).
Proof.
  intros HT. pose proof HT as [HW Ha He (Hl1 & Hl2 & Hl3)].
  assert (HW' : plic_wf (plic_mmio_write a n v p)) by (by eapply (plic_step_wf (Write a n v) p)).
  revert HW'. unfold plic_mmio_write. cbv zeta.
  repeat case_test; try done; try (intros _; by apply complete_typed; [apply u32_range|]);
    intros HW'; split; cbn; rewrite ?length_set_arr; try done.
  by apply Forall_set_arr; [apply u32_range|].
Qed.

Lemma push_typed ch u : is_uint 8 ch -> uart_typed u -> uart_typed (uart_rx_push ch u).
Proof.
  intros Hc [HW HF HR]. pose proof (proj1 (push_spec ch u HW)) as HW'. revert HW'.
  unfold uart_rx_push. cbv zeta. case_test; [done|]. intros HW'. split; try done.
  by apply Forall_set_arr.
Qed.

Lemma pop_typed u : uart_typed u -> uart_typed (uart_rx_pop u).2.
Proof.
  intros [HW HF HR]. pose proof (proj1 (pop_spec u HW)) as HW'. revert HW'.
  unfold uart_rx_pop. by case_test.
Qed.

Lemma armed_typed b u : uart_typed u -> uart_typed (set_escape_armed b u).
Proof. intros [[] HF HR]. by split. Qed.

Lemma input_byte_typed ch u : is_uint 8 ch -> uart_typed u -> uart_typed (uart_input_byte ch u).2.
Proof.
  intros Hc HT. unfold uart_input_byte. cbv zeta.
  repeat case_test; cbn; try (apply push_typed; [done|]); done || by apply armed_typed.
Qed.

Lemma input_typed buf u : Forall (is_uint 8) buf -> uart_typed u -> uart_typed (uart_poll_input buf u).2.
Proof.
  intros HF. unfold uart_poll_input. case_test; [done|]. clear E. revert u.
  induction HF as [|ch buf Hc HF IH]; intros u HT; cbn [uart_input]; [done|].
  pose proof (input_byte_typed ch u Hc HT) as HT1. destruct (uart_input_byte ch u) as [[] u1]; [done|].
  by apply IH.
Qed.

Lemma uart_read_typed a n u p v u' p' :
  uart_typed u -> plic_typed p -> uart_mmio_read a n u p = Some (v, u', p') -> uart_typed u' /\ plic_typed p'.
Proof.
  intros HT HP. unfold uart_mmio_read. cbv zeta.
  match goal with |- (let (_, _) := ?r in _) = _ -> _ => assert (HT' : uart_typed r.2); [|destruct r as [v1 u1]] end.
  { repeat case_test; try done. by apply pop_typed. }
  intros (p1 & E & [= <- <- <-])%bind_Some. split; [done|]. by eapply set_pending_typed.
Qed.

Lemma uart_write_typed a n v u p out u' p' :
  uart_typed u -> plic_typed p -> uart_mmio_write a n v u p = Some (out, u', p') ->
  uart_typed u' /\ plic_typed p' /\ Forall (is_uint 8) out.
Proof.
  intros HT HP. unfold uart_mmio_write. cbv zeta. case_test; [by intros [= <- <- <-]|]. clear E.
  match goal with |- (let (_, _) := ?r in _) = _ -> _ =>
    assert (HT' : uart_typed r.2 /\ Forall (is_uint 8) r.1); [|destruct r as [v1 u1]] end.
  { destruct HT as [[? ? ?] HF (? & ? & ? & ? & ? & ? & ?)]. pose proof (u8_range v).
    repeat case_test; cbn; (split; [|by rewrite ?Forall_singleton, ?Forall_nil]); split; cbn; try done.
    all: try (by split).
    by split_and!; try done; apply land_range_l. }
  destruct HT' as [HT' HO]. intros (p1 & E & [= <- <- <-])%bind_Some.
  split; [done|]. split; [by eapply set_pending_typed|done].
Qed.

(** ** Memories and regions *)

Lemma store_bytes_typed n off v size b :
  0 <= off -> off + Z.of_nat n <= size ->
  map_Forall (fun off b => 0 <= off < size /\ is_uint 8 b) b ->
  map_Forall (fun off b => 0 <= off < size /\ is_uint 8 b) (store_bytes n off v b).
Proof.
  revert off v. induction n as [|n IH]; intros off v Ho Hs HB; cbn [store_bytes]; [done|].
  apply map_Forall_insert_2; [|by apply IH; [lia..|]]. split; [lia|]. by apply Z.mod_pos_bound.
Qed.

Lemma mem_store_typed off n v m m' : memory_typed m -> mem_store off n v m = Some m' -> memory_typed m'.
Proof.
  intros HM. unfold mem_store, in_bounds. case_test; [|done]. intros [= <-]. to_prop.
  unfold memory_typed. cbn [mem_size mem_bytes]. destruct (Z.le_gt_cases 0 n).
  - by apply store_bytes_typed; [lia..|].
  - rewrite Z2Nat.nonpos by lia. exact HM.
Qed.

(** Updates of one component. *)
Ltac set_part :=
  match goal with HT : machine_typed _ |- _ => destruct HT end; split; cbn; done.

Lemma typed_set_hart h m : hart_typed h -> machine_typed m -> machine_typed (set_m_hart h m).
Proof. intros Hh HT. set_part. Qed.
Lemma typed_set_ram r m : memory_typed r -> machine_typed m -> machine_typed (set_ram r m).
Proof. intros Hh HT. set_part. Qed.
Lemma typed_set_bootrom r m : memory_typed r -> machine_typed m -> machine_typed (set_bootrom r m).
Proof. intros Hh HT. set_part. Qed.
Lemma typed_set_clint c m : clint_wf c -> machine_typed m -> machine_typed (set_clint c m).
Proof. intros Hh HT. set_part. Qed.
Lemma typed_set_plic p m : plic_typed p -> machine_typed m -> machine_typed (set_plic p m).
Proof. intros Hh HT. set_part. Qed.
Lemma typed_set_uart u m : uart_typed u -> machine_typed m -> machine_typed (set_uart u m).
Proof. intros Hh HT. set_part. Qed.
Lemma typed_set_terminal t m : Forall (is_uint 8) t -> machine_typed m -> machine_typed (set_terminal t m).
Proof. intros Hh HT. set_part. Qed.
Lemma typed_set_keyboard t m :
  Forall (Forall (is_uint 8)) t -> machine_typed m -> machine_typed (set_keyboard t m).
Proof. intros Hh HT. set_part. Qed.
Lemma typed_set_countdown t m : is_uint 32 t -> machine_typed m -> machine_typed (set_poll_countdown t m).
Proof. intros Hh HT. set_part. Qed.
Lemma typed_set_stdin t m : machine_typed m -> machine_typed (set_stdin_lines t m).
Proof. intros HT. set_part. Qed.
Lemma typed_set_tokens t m : machine_typed m -> machine_typed (set_last_tokens t m).
Proof. intros HT. set_part. Qed.
Lemma typed_set_breakpoints t m :
  Forall (is_uint 32) t /\ Z.of_nat (length t) <= MAX_BREAKPOINTS ->
  machine_typed m -> machine_typed (set_breakpoints t m).
Proof. intros Hh HT. set_part. Qed.

Lemma gives_on_hart {A} (R : A -> Prop) q : gives hart_typed R q -> gives machine_typed R (on_hart q).
Proof. apply gives_zoom; [apply mt_hart|]. intros. by apply typed_set_hart. Qed.

Lemma gives_pmr_read r a n : keeps machine_typed (pmr_read r a n).
Proof.
  intros m HT. unfold pmr_read. destruct (pmr_callbacks r); cbn.
  - unfold ram_read. case_test; [done|]. by destruct (mem_load _ _ _).
  - unfold bootrom_read. repeat case_test; [done..|]. by destruct (mem_load _ _ _).
  - done.
  - pose proof (plic_read_typed a n (plic m) (mt_plic _ HT)). destruct (plic_mmio_read _ _ _).
    split; [|done]. by apply typed_set_plic.
  - destruct (uart_mmio_read _ _ _ _) as [[[v u] p]|] eqn:E; [|done]. split; [|done].
    destruct (uart_read_typed _ _ _ _ _ _ _ (mt_uart _ HT) (mt_plic _ HT) E).
    by apply typed_set_plic, typed_set_uart.
  - done.
Qed.

Lemma gives_pmr_write r a n v : is_uint 64 v -> keeps machine_typed (pmr_write r a n v).
Proof.
  intros Hv m HT. unfold pmr_write. destruct (pmr_callbacks r); cbn.
  - unfold ram_write. case_test; [done|]. destruct (mem_store _ _ _ _) eqn:E1; [|done].
    split; [|done]. apply typed_set_ram; [|done]. eapply mem_store_typed; [apply (mt_ram _ HT)|done].
  - unfold bootrom_write. repeat case_test; [done..|]. destruct (mem_store _ _ _ _) eqn:E2; [|done].
    split; [|done]. apply typed_set_bootrom; [|done]. eapply mem_store_typed; [apply (mt_bootrom _ HT)|done].
  - split; [|done]. apply typed_set_clint; [|done]. apply clint_write_wf; [done|apply HT].
  - split; [|done]. apply typed_set_plic; [|done]. apply plic_write_typed, HT.
  - destruct (uart_mmio_write _ _ _ _ _) as [[[out u] p]|] eqn:E; [|done]. split; [|done].
    destruct (uart_write_typed _ _ _ _ _ _ _ _ (mt_uart _ HT) (mt_plic _ HT) E) as (Hu & Hp & Ho).
    apply typed_set_terminal; [|by apply typed_set_plic, typed_set_uart].
    apply Forall_app. split; [apply HT|done].
  - unfold syscon_write. cbv zeta. by repeat case_test.
Qed.

Lemma gives_find_region a : keeps machine_typed (find_region a).
Proof. intros m HT. unfold find_region. by destruct (search_pm_region_callback _ _). Qed.
Hint Resolve gives_pmr_read gives_pmr_write gives_find_region : gives.

Lemma truncate_range n v : 0 <= n -> is_uint (8 * n) (truncate n v).
Proof. intros. apply Z.mod_pos_bound, Z.pow_pos_nonneg; lia. Qed.

Lemma gives_direct_read n a : 0 <= n -> gives machine_typed (is_uint (8 * n)) (direct_read n a).
Proof.
  intros Hn. unfold direct_read. eapply gives_bind; [apply gives_find_region|]. intros [r|] _; [|auto with gives].
  eapply gives_bind; [apply gives_pmr_read|]. intros v _. apply gives_ret. by apply truncate_range.
Qed.
Lemma gives_direct_write n a v : is_uint 64 v -> keeps machine_typed (direct_write n a v).
Proof.
  intros Hn. unfold direct_write. eapply gives_bind; [apply gives_find_region|].
  intros [r|] _; auto with gives.
Qed.

(** ** The mmu *)

Lemma tlb_slot_range cap x : 1 <= cap <= 2 ^ 32 -> 0 <= x -> 0 <= Z.land x (u32 (cap - 1)) < cap.
Proof.
  intros Hc Hx. rewrite u32_id by (unfold is_uint; lia). split.
  - apply Z.land_nonneg. lia.
  - rewrite Z.land_comm. pose proof (Z.sub_land_same_l (cap - 1) x).
    pose proof (proj2 (Z.land_nonneg (cap - 1) (Z.lnot x))). lia.
Qed.

Lemma tlb_insert_typed cap t slot e :
  0 <= slot < cap -> is_uint 32 (va_tag e) -> is_uint 32 (pa_tag e) -> is_uint 32 (page_mask e) ->
  tlb_typed cap t -> tlb_typed cap (<[slot := e]> t).
Proof. intros. by apply map_Forall_insert_2. Qed.

Lemma gives_read_pte p : keeps machine_typed (read_pte p).
Proof. intros m HT. unfold read_pte. by destruct (mem_load _ _ _). Qed.
Lemma gives_pte_at p : keeps machine_typed (pte_at p).
Proof.
  unfold pte_at. eapply gives_bind; [apply gives_find_region|]. intros [r|] _; [|by apply gives_ret].
  case_test; by apply gives_ret.
Qed.

Lemma gives_walk va t cap :
  is_uint 32 va -> 1 <= cap <= 2 ^ 32 -> tlb_typed cap t ->
  gives machine_typed (fun r => tlb_typed cap r.2) (walk_page_table va t cap).
Proof.
  intros Hva Hc Ht. unfold walk_page_table.
  assert (Hslots : 0 <= VA_TO_4M_TLB_ENTRY cap va < cap /\ 0 <= VA_TO_4K_TLB_ENTRY cap va < cap).
  { split; (apply tlb_slot_range; [done|]; apply Z.shiftr_nonneg, u32_range). }
  destruct Hslots as [H4M H4K].
  eapply (gives_bind _ (fun _ => True)); [by apply gives_gets|]. intros satp _.
  apply gives_assert. intros _. cbv zeta.
  eapply gives_bind; [apply gives_pte_at|]. intros [p1|] _; [|by apply gives_ret].
  eapply gives_bind; [apply gives_read_pte|]. intros w1 _. case_test; [by apply gives_ret|]. case_test.
  - eapply gives_bind; [apply gives_find_region|]. intros [r|] _; apply gives_ret; [|done].
    apply tlb_insert_typed; cbn; try done; apply land_range_l; [done..|lia|apply u32_range].
  - eapply gives_bind; [apply gives_pte_at|]. intros [p2|] _; [|by apply gives_ret].
    eapply gives_bind; [apply gives_read_pte|]. intros w2 _. case_test; [by apply gives_ret|].
    eapply gives_bind; [apply gives_find_region|]. intros [r|] _; apply gives_ret; [|done].
    apply tlb_insert_typed; cbn; try done; apply land_range_l; [done..|lia|apply u32_range].
Qed.

Section Translate.
Context (get_tlb : hart -> tlb) (cap : hart -> Z) (put_tlb : tlb -> hart -> hart) (fault : Z).
Context (Hget : forall h, hart_typed h -> 1 <= cap h <= 2 ^ 32 /\ tlb_typed (cap h) (get_tlb h)).
Context (Hput : forall h t, tlb_typed (cap h) t -> hart_typed h -> hart_typed (put_tlb t h)).
Context (Hfault : is_uint 32 fault).

Lemma gives_translate va :
  is_uint 32 va -> keeps machine_typed (translate_va get_tlb cap put_tlb fault va).
Proof.
  intros Hva m HT. unfold translate_va, bind at 1, gets. destruct (VA_TO_TLB_ENTRY _ _ _); [done|].
  destruct (Hget _ (mt_hart m HT)) as [Hc Ht].
  pose proof (gives_walk va _ _ Hva Hc Ht m HT) as HW.
  pose proof (looks_walk va (get_tlb (m_hart m)) (cap (m_hart m)) m) as HL.
  unfold bind at 1. destruct (walk_page_table _ _ _ m) as [[rc t] m1| | |]; [|done..]. subst m1.
  destruct HW as [_ HW]. unfold bind, modify. cbn [snd] in *.
  assert (HT1 : machine_typed (set_m_hart (put_tlb t (m_hart m)) m)).
  { apply typed_set_hart; [|done]. apply Hput; [done|apply HT]. }
  destruct (VA_TO_TLB_ENTRY _ _ _); [done|].
  assert (HR : keeps machine_typed (on_hart (raise_exception_with_tvalue (A := tlb_entry) fault va)))
    by (by apply gives_on_hart, gives_raise).
  exact (HR _ HT1).
Qed.
End Translate.

Lemma gives_dtlb fault va : is_uint 32 fault -> is_uint 32 va ->
  keeps machine_typed (translate_va dtlb dtlb_cap set_dtlb fault va).
Proof.
  intros Hf Hva. apply gives_translate; try done.
  - intros h HT. split; apply HT.
  - intros h t Ht Hh. by apply typed_set_dtlb.
Qed.
Lemma gives_itlb fault va : is_uint 32 fault -> is_uint 32 va ->
  keeps machine_typed (translate_va itlb itlb_cap set_itlb fault va).
Proof.
  intros Hf Hva. apply gives_translate; try done.
  - intros h HT. split; apply HT.
  - intros h t Ht Hh. by apply typed_set_itlb.
Qed.

Lemma gives_hart : gives machine_typed hart_typed (gets m_hart).
Proof. apply gives_gets. apply mt_hart. Qed.

Lemma gives_vmread n va : 0 <= n -> is_uint 32 va -> gives machine_typed (is_uint (8 * n)) (vmread n va).
Proof.
  intros Hn Hva. unfold vmread. eapply gives_bind; [apply gives_hart|]. intros h Hh.
  case_test; [|by apply gives_direct_read].
  eapply gives_bind; [by apply gives_dtlb|]. intros e _.
  eapply (gives_bind _ (fun _ => True)); [by apply gives_of_opt|]. intros r _.
  eapply gives_bind; [apply gives_pmr_read|]. intros v _. apply gives_ret. by apply truncate_range.
Qed.

Lemma gives_vmwrite n va v : is_uint 32 va -> is_uint 64 v -> keeps machine_typed (vmwrite n va v).
Proof.
  intros Hva Hv. unfold vmwrite. eapply gives_bind; [apply gives_hart|]. intros h Hh.
  case_test; [|by apply gives_direct_write].
  eapply gives_bind; [by apply gives_dtlb|]. intros e _.
  eapply (gives_bind _ (fun _ => True)); [by apply gives_of_opt|]. intros r _. by apply gives_pmr_write.
Qed.

Lemma gives_fetch va : is_uint 32 va -> gives machine_typed (is_uint 32) (mmu_instruction_read32 va).
Proof.
  intros Hva. unfold mmu_instruction_read32. eapply gives_bind; [apply gives_hart|]. intros h Hh.
  case_test; [|by apply (gives_direct_read 4)].
  eapply gives_bind; [by apply gives_itlb|]. intros e _.
  eapply (gives_bind _ (fun _ => True)); [by apply gives_of_opt|]. intros r _.
  eapply gives_bind; [apply gives_pmr_read|]. intros v _. apply gives_ret, u32_range.
Qed.

Lemma gives_misaligned (b : bool) n va : is_uint 32 n -> is_uint 32 va ->
  keeps machine_typed (if b then on_hart (raise_exception_with_tvalue n va) else ret tt).
Proof. intros. case_match; [by apply gives_on_hart, gives_raise|by apply gives_ret]. Qed.

Lemma gives_read_aligned va : is_uint 32 va -> gives machine_typed (is_uint 32) (mmu_read32_aligned va).
Proof. intros. apply gives_seq; [by apply gives_misaligned|by apply (gives_vmread 4)]. Qed.
Lemma gives_write_aligned va v :
  is_uint 32 va -> is_uint 32 v -> keeps machine_typed (mmu_write32_aligned va v).
Proof.
  intros. apply gives_seq; [by apply gives_misaligned|]. apply gives_vmwrite; [done|].
  by apply (is_uint_weaken 32).
Qed.
Hint Resolve gives_read_aligned gives_write_aligned lxor_range : gives.

(** ** Atomics *)

Lemma gives_reg i : gives machine_typed (is_uint 32) (reg i).
Proof. apply gives_gets. intros m HT. apply typed_reg, HT. Qed.
Lemma gives_set_reg i v : is_uint 32 v -> keeps machine_typed (put_reg i v).
Proof.
  intros Hv. apply gives_modify. intros m HT. apply typed_set_hart; [|done]. apply typed_put_reg; [done|apply HT].
Qed.

Lemma reservation_made addr id m :
  is_uint 32 addr -> machine_typed m -> machine_typed (make_reservation addr id m).
Proof.
  intros Ha HT. destruct (mt_reservations m HT) as (Hl & HF & Hn). unfold make_reservation. cbv zeta.
  set (next := match list_find _ _ with Some _ => _ | None => _ end).
  assert (HT1 : machine_typed (set_reservations (<[Z.to_nat next :=
    {| res_addr := addr; res_valid := true; res_hartid := u8 id |}]> (reservations m)) m)).
  { destruct HT. split; cbn; try done. rewrite length_insert. split; [done|]. split; [|done].
    apply Forall_insert; [done|]. split; [done|apply u8_range]. }
  destruct HT1. split; cbn; try done. destruct mt_reservations0 as (? & ? & _).
  split; [done|]. split; [done|]. by apply Z.mod_pos_bound.
Qed.

Lemma reservation_cleared idx m : machine_typed m -> machine_typed (clear_reservation idx m).
Proof.
  intros HT. destruct HT. destruct mt_reservations0 as (Hl & HF & Hn). split; cbn; try done.
  rewrite length_alter. split; [done|]. split; [|done]. by apply Forall_alter.
Qed.
Hint Resolve gives_reg gives_set_reg : gives.

Lemma gives_amo rs1 rs2 rd funct5 : keeps machine_typed (amo_instruction_slowpath rs1 rs2 rd funct5).
Proof.
  unfold amo_instruction_slowpath, amoadd_slowpath, amoswap_slowpath, amoxor_slowpath,
    amoor_slowpath, amoand_slowpath, lr_slowpath, sc_slowpath.
  repeat case_match; try apply gives_failed; (eapply gives_bind; [apply gives_reg|]; intros a Ha);
    gives_go.
  - eapply (gives_bind _ (fun _ => True)); [by apply gives_gets|]. intros [idx|] _; gives_go.
    apply gives_modify. intros. by apply reservation_cleared.
  - apply gives_modify. intros. by apply reservation_made.
Qed.

(** ** The debugger *)

Section Insertion.
Context {A : Type} (comp : A -> A -> option Z) (P : A -> Prop).

Lemma shift_up_keeps count idx l l' :
  shift_up count idx l = Some l' -> Forall P l -> Forall P l' /\ length l' = length l.
Proof.
  revert idx l. induction count as [|count IH]; intros idx l; cbn [shift_up]; [by intros [= <-]|].
  intros (prev & Hp & E)%bind_Some HF.
  destruct (IH _ _ E) as [HF' Hl]; [apply Forall_insert; [done|by eapply Forall_lookup_1]|].
  by rewrite length_insert in Hl.
Qed.

(** Whatever the comparator, the elements are some of those there were. *)
Lemma insertion_keeps l num l' :
  INSERTION_SORT comp l num = Some l' -> Forall P l -> Forall P l' /\ length l' = length l.
Proof.
  unfold INSERTION_SORT. intros E HF. destruct (truthy num); [|by injection E as <-].
  apply bind_Some in E as (x & Hx & E). apply bind_Some in E as (k & Hk & E).
  destruct (k <? num - 1); [|by injection E as <-]. apply bind_Some in E as (l1 & Hl1 & [= <-]).
  destruct (shift_up_keeps _ _ _ _ Hl1 HF) as [HF1 HL]. rewrite length_insert. split; [|done].
  apply Forall_insert; [done|]. unfold ELEM in Hx. destruct (num - 1 <? 0); [done|].
  exact (Forall_lookup_1 _ _ _ _ HF Hx).
Qed.
End Insertion.

Lemma add_breakpoint_typed a l r :
  is_uint 32 a -> Forall (is_uint 32) l /\ Z.of_nat (length l) <= MAX_BREAKPOINTS ->
  add_breakpoint a l = Some r -> Forall (is_uint 32) r.2 /\ Z.of_nat (length r.2) <= MAX_BREAKPOINTS.
Proof.
  intros Ha [HF Hl]. unfold add_breakpoint. cbv zeta. case_test; [by intros [= <-]|].
  case_test; [by intros [= <-]|]. intros (known & _ & E')%bind_Some. destruct known; [by injection E' as <-|].
  apply bind_Some in E' as (s & E' & [= <-]). cbn.
  apply (insertion_keeps _ (is_uint 32)) in E' as [HF' Hl'].
  - split; [done|]. rewrite Hl', length_app. cbn. to_prop. lia.
  - apply Forall_app. split; [done|]. by apply Forall_singleton.
Qed.

Lemma gives_dump_words n p : keeps machine_typed (dump_words n p).
Proof.
  revert p. induction n; intros p; cbn [dump_words]; [by apply gives_ret|].
  eapply gives_bind; [apply gives_read_pte|]. auto.
Qed.
Lemma gives_dump_virtual n va : is_uint 32 va -> keeps machine_typed (dump_virtual n va).
Proof.
  revert va. induction n; intros va Hva; cbn [dump_virtual]; [by apply gives_ret|].
  eapply gives_bind; [by apply (gives_vmread 4)|]. intros. apply IHn, u32_range.
Qed.
Lemma gives_frames n first leaf fp : keeps machine_typed (backtrace_frames n first leaf fp).
Proof.
  revert first fp. induction n as [|n IH]; intros first fp; cbn [backtrace_frames]; [by apply gives_ret|].
  unfold mmu_read32. case_test.
  - eapply gives_bind; [apply (gives_vmread 4); [done|apply u32_range]|]. auto.
  - eapply gives_bind; [apply (gives_vmread 4); [done|apply u32_range]|]. intros.
    eapply gives_bind; [apply (gives_vmread 4); [done|apply u32_range]|]. auto.
Qed.

Lemma gives_command func argv : keeps machine_typed (run_command func argv).
Proof.
  destruct func; cbn [run_command]; try by apply gives_ret.
  - destruct argv as [|a0 ?]; cbn [add_breakpoint_command]; [by apply gives_ret|]. cbv zeta.
    eapply gives_bind; [apply (gives_gets _ (fun l => Forall (is_uint 32) l /\ Z.of_nat (length l) <= MAX_BREAKPOINTS)), mt_breakpoints|].
    intros bps Hb. eapply gives_bind.
    { apply gives_of_opt. intros r Er. exact (add_breakpoint_typed _ _ _ (u32_range _) Hb Er). }
    intros r Hr. apply gives_seq; [|by apply gives_ret]. apply gives_modify. intros. by apply typed_set_breakpoints.
  - unfold inspect_memory. destruct argv as [|a0 [|a1 [|]]]; try by apply gives_ret. cbv zeta.
    case_test; [by apply gives_ret|]. eapply gives_bind; [apply gives_find_region|]. intros r1 _.
    eapply gives_bind; [apply gives_find_region|]. intros r2 _. destruct r1; [|by apply gives_ret].
    repeat (case_test; [by apply gives_ret|]). apply gives_seq; [apply gives_ASSERT|].
    apply gives_seq; [apply gives_dump_words|by apply gives_ret].
  - unfold inspect_virtual_memory. destruct argv as [|a0 [|a1 [|]]]; try by apply gives_ret. cbv zeta.
    case_test; [by apply gives_ret|]. apply gives_seq; [|by apply gives_ret].
    apply gives_dump_virtual, land_range_l; [done|apply u32_range].
  - unfold backtrace_call. destruct argv as [|a0 [|a1 [|]]]; try by apply gives_ret. cbv zeta.
    eapply (gives_bind _ (fun _ => True)); [by apply gives_gets|]. intros fp _.
    apply gives_seq; [apply gives_frames|by apply gives_ret].
Qed.

Lemma gives_process argv : keeps machine_typed (process_cmds_tokens argv).
Proof.
  unfold process_cmds_tokens. destruct (find_command _ _ _ _) as [[f|] n]; [|by apply gives_ret].
  case_test; [apply gives_command|by apply gives_ret].
Qed.

Lemma gives_keep_tokens t : keeps machine_typed (keep_tokens t).
Proof.
  unfold keep_tokens. case_test; [|apply gives_failed]. apply gives_modify. intros. by apply typed_set_tokens.
Qed.

Lemma gives_turn : keeps machine_typed dbg_turn.
Proof.
  unfold dbg_turn. eapply (gives_bind _ (fun _ => True)); [by apply gives_gets|]. intros lines _.
  eapply (gives_bind _ (fun _ => True)); [by apply gives_gets|]. intros last _.
  assert (HP : forall argv b, keeps machine_typed (let* action := process_cmds_tokens argv in ret (b : bool, action))).
  { intros. eapply gives_bind; [apply gives_process|]. intros. by apply gives_ret. }
  destruct (fgets _ _) as [[cmdline rest]|]; [|apply HP]. apply gives_seq.
  { apply gives_modify. intros. by apply typed_set_stdin. }
  destruct (split_tokens cmdline); [apply HP|]. eapply gives_bind; [apply gives_process|]. intros.
  apply gives_seq; [apply gives_keep_tokens|by apply gives_ret].
Qed.

Lemma gives_shell check_bps : keeps machine_typed (enter_vmm_dbg_shell check_bps).
Proof.
  unfold enter_vmm_dbg_shell. eapply gives_bind; [apply gives_get|]. intros m HT.
  apply gives_assert. intros _. eapply (gives_bind _ (fun _ => True)).
  { case_test; [by apply gives_of_opt|by apply gives_ret]. }
  intros tracked _. case_test; [by apply gives_ret|]. generalize (S (lines_weight (stdin_lines m))).
  intros n. induction n as [|n IH]; cbn [dbg_loop]; [apply gives_failed|].
  eapply gives_bind; [apply gives_turn|]. intros [[] []] _; first [apply IH|apply gives_failed|by apply gives_ret].
Qed.

(** ** The pump *)

Lemma gives_poll : keeps machine_typed poll_console.
Proof.
  intros m HT. unfold poll_console. case_test; [done|].
  assert (HB : Forall (is_uint 8) (default [] (head (keyboard m))) /\ Forall (Forall (is_uint 8)) (tail (keyboard m))).
  { pose proof (mt_keyboard m HT) as HK. destruct (keyboard m); cbn; [done|]. by apply Forall_cons in HK. }
  destruct HB as [Hb Hk]. pose proof (input_typed _ _ Hb (mt_uart m HT)) as HU.
  destruct (uart_poll_input _ _) as [quit u]. cbn in *.
  assert (machine_typed (set_keyboard (tail (keyboard m)) (set_uart u m)))
    by (by apply typed_set_keyboard, typed_set_uart).
  by case_test.
Qed.

Lemma gives_poll_when_due : keeps machine_typed poll_when_due.
Proof.
  unfold poll_when_due. eapply (gives_bind _ (fun _ => True)); [by apply gives_gets|]. intros n _.
  apply gives_seq; [apply gives_modify; intros; apply typed_set_countdown; [apply u32_range|done]|].
  case_test; [|by apply gives_ret]. apply gives_seq; [|apply gives_poll].
  apply gives_modify. intros. by apply typed_set_countdown.
Qed.

Lemma refresh_pending_typed b1 b2 i j h :
  0 <= i < 32 -> 0 <= j < 32 -> hart_typed h -> hart_typed (set_ipending (put_bit (put_bit (ipending h) i b1) j b2) h).
Proof.
  intros Hi Hj HT. apply typed_set_ipending; [|done]. apply put_bit_range, put_bit_range; [done..|].
  by destruct (ht_masks h HT) as (_ & _ & ?).
Qed.

Lemma gives_refresh : keeps machine_typed refresh_device_interrupts.
Proof.
  unfold refresh_device_interrupts. apply gives_seq; [apply gives_poll_when_due|].
  apply gives_seq; [|apply gives_seq].
  - apply gives_try_modify. intros m m' HT. unfold uart_refresh_interrupt.
    intros (p & E & [= <-])%bind_Some. apply typed_set_plic; [|done]. eapply set_pending_typed; [apply HT|done].
  - apply gives_modify. intros m HT. apply typed_set_hart; [|done]. by apply refresh_pending_typed; [..|apply HT].
  - apply gives_modify. intros m HT. apply typed_set_hart; [|done]. by apply refresh_pending_typed; [..|apply HT].
Qed.

Lemma gives_deliver order :
  Forall (fun v => 0 <= v < 12) order -> keeps hart_typed (deliver_first order).
Proof.
  intros HF. intros h HT. rewrite deliver_first_eq by done.
  destruct (find _ _) as [v|] eqn:E; [|done]. apply gives_raise_raw; [|done..].
  apply find_some in E as [Hin _]. rewrite <- list_elem_of_In in Hin. rewrite Forall_forall in HF.
  specialize (HF v Hin). apply lor_range; [lia|done|]. unfold is_uint. lia.
Qed.

Lemma gives_pump : keeps machine_typed pump_devices_and_deliver_interrupts.
Proof.
  unfold pump_devices_and_deliver_interrupts. apply gives_seq; [|apply gives_seq].
  - apply gives_modify. intros m HT. apply typed_set_clint; [|done]. apply advance_time_wf, HT.
  - apply gives_refresh.
  - apply gives_on_hart, gives_deliver, delivery_order_ok.
Qed.

Lemma gives_idle n : keeps machine_typed (idle_rounds n).
Proof.
  induction n as [|n IH]; cbn [idle_rounds]; [by apply gives_ret|].
  apply gives_seq; [apply gives_poll|]. apply gives_seq; [apply gives_refresh|].
  eapply (gives_bind _ (fun _ => True)); [by apply gives_gets|]. intros awake _.
  case_test; [by apply gives_ret|]. apply gives_seq; [|done].
  apply gives_modify. intros m HT. apply typed_set_clint; [|done]. apply skip_wf, HT.
Qed.

(** ** Blocks *)

Lemma gives_csr_callback instruction : keeps machine_typed (csr_callback instruction).
Proof.
  unfold csr_callback. eapply (gives_bind _ (is_uint 64)).
  - apply gives_gets. intros m HT. apply HT.
  - intros now Hn. by apply gives_on_hart, gives_generic_csr.
Qed.

Definition call_typed {W} (P : W -> Prop) (r : callres W) : Prop :=
  match r with CRet _ w | CTrap w | CExit w => P w | CFail => True end.

Lemma ret_void_typed q m : keeps machine_typed q -> machine_typed m -> call_typed machine_typed (ret_void (q m)).
Proof. intros Hq HT. specialize (Hq m HT). by destruct (q m) as [? ?|?|? ?|]; [destruct Hq|..]. Qed.
Lemma ret_uint_typed {R} w q m : gives machine_typed R q -> machine_typed m -> call_typed machine_typed (ret_uint w (q m)).
Proof. intros Hq HT. specialize (Hq m HT). by destruct (q m) as [? ?|?|? ?|]; [destruct Hq|..]. Qed.

Lemma uint_64 w x : w <= 64 -> is_uint w x -> is_uint 64 x.
Proof. apply is_uint_weaken. Qed.

(** Every function a block can call, whatever is in the argument registers. *)
Lemma machine_call_typed s di si dx cx r8 m :
  machine_typed m -> call_typed machine_typed (machine_call s di si dx cx r8 m).
Proof.
  intros HT. unfold machine_call. destruct di; try done. case_match; try done.
  destruct s; try (repeat case_match; done); repeat (case_match; try done); subst;
    first [ apply (ret_void_typed _ m); [|exact HT] | eapply (ret_uint_typed _ _ m); [|exact HT] ].
  all: first
    [ apply gives_shell | apply gives_vmread; [lia|apply u32_range]
    | apply gives_vmwrite; [apply u32_range|];
      first [apply (uint_64 8), u8_range; lia|apply (uint_64 16), u16_range; lia|apply (uint_64 32), u32_range; lia]
    | apply gives_amo | apply gives_idle | apply gives_csr_callback
    | apply gives_on_hart;
      first [apply gives_mret|apply gives_sret|apply gives_sfence|apply gives_ecall|apply gives_modify, typed_flush] ].
Qed.

Section Blocks.
Context (call : symbol -> val -> val -> val -> val -> val -> machine -> callres machine).
Context (Hcall : forall s di si dx cx r8 m, machine_typed m -> call_typed machine_typed (call s di si dx cx r8 m)).
Context (junk : nat -> reg64 -> Z) (params : list Z).

Definition outcome_typed (o : outcome machine) : Prop :=
  match o with
  | XFall _ m | XVmm _ m | XTrap m | XExit m | XFault m => machine_typed m
  | XStuck => True
  end.

Definition step_typed (r : step_result (W := machine)) : Prop :=
  match r with Next _ m | Goto _ _ m => machine_typed m | Done o => outcome_typed o end.

Lemma host_load_typed a m v : machine_typed m -> host_load a m = Some v -> is_uint 32 v.
Proof.
  intros HT. unfold host_load. destruct a; try done. repeat case_test; [| |done]; intros [= <-].
  - apply typed_reg, HT.
  - apply typed_pc, HT.
Qed.

Lemma host_store_typed a v m m' :
  machine_typed m -> is_uint 32 v -> host_store a v m = Some m' -> machine_typed m'.
Proof.
  intros HT Hv. unfold host_store. destruct a; try done. repeat case_test; [| |done]; intros [= <-];
    (apply typed_set_hart; [|done]).
  - apply (typed_put_reg (off / 4) v (m_hart m) Hv), HT.
  - apply (typed_set_pc v (m_hart m) Hv), HT.
Qed.

Lemma get32_typed o c m v : machine_typed m -> get32 params o c m = Some v -> is_uint 32 v.
Proof.
  intros HT. destruct o; cbn [get32].
  - intros [= <-]. apply u32_range.
  - intros (z & _ & [= <-])%bind_Some. apply u32_range.
  - by apply host_load_typed.
  - intros (z & _ & [= <-])%bind_Some. apply u32_range.
Qed.

Lemma put32_typed o v c m c' m' :
  machine_typed m -> is_uint 32 v -> put32 o v c m = Some (c', m') -> machine_typed m'.
Proof.
  intros HT Hv. destruct o; cbn [put32]; try done; [by intros [= _ <-]|].
  intros (m1 & E & [= _ <-])%bind_Some. by eapply host_store_typed.
Qed.

Lemma alu32_typed f src dst c m c' m' :
  machine_typed m -> alu32 params f src dst c m = Some (c', m') -> machine_typed m'.
Proof.
  intros HT. unfold alu32. intros (a & _ & E)%bind_Some. apply bind_Some in E as (b & _ & E).
  apply bind_Some in E as ([c1 m1] & E & [= _ <-]). eapply put32_typed; [exact HT| |exact E]. apply u32_range.
Qed.

Lemma of_option_typed o : (forall c m, o = Some (c, m) -> machine_typed m) -> step_typed (of_option o).
Proof. intros Ho. destruct o as [[c m]|]; [by apply (Ho c)|done]. Qed.

(** An instruction that computes on host registers leaves the machine. *)
Lemma of_option_same (o : option cpu) m : machine_typed m -> step_typed (of_option (c ← o; Some (c, m))).
Proof. intros HT. apply of_option_typed. by intros c m' (c1 & _ & [= _ <-])%bind_Some. Qed.

Lemma divide_typed b src c m : machine_typed m -> step_typed (divide b src c m).
Proof. intros HT. unfold divide. repeat case_match; done. Qed.

Lemma step_keeps_types site i c m : machine_typed m -> step_typed (step call junk params site i c m).
Proof.
  intros HT. destruct i; cbn [step]; try exact HT;
    try (apply of_option_typed; intros c' m'; first [by apply alu32_typed | intros E]);
    try (by apply divide_typed).
  all: try (unfold shift32 in *; repeat (apply bind_Some in E as (? & _ & E)); by injection E as _ <-).
  - apply bind_Some in E as (a & Ea & E). eapply put32_typed; [exact HT| |exact E]. by eapply get32_typed.
  - repeat case_match; try exact HT; apply of_option_typed; intros c' m'; by apply alu32_typed.
  - by repeat case_match.
  - by case_match.
  - case_match; try done. pose proof (Hcall s (gpr c rdi) (gpr c rsi) (gpr c rdx) (gpr c rcx) (gpr c r8) m HT).
    by destruct (call _ _ _ _ _ _ _).
  - by repeat case_match.
  - by repeat case_match.
Qed.

Lemma exec_keeps_types code skip c m : machine_typed m -> outcome_typed (exec call junk params code skip c m).
Proof.
  revert skip c m. induction code as [|i code IH]; intros skip c m HT; [done|].
  destruct skip as [l|].
  - assert (Hi : (exists l', i = label l') \/ forall l', i <> label l') by (destruct i; eauto).
    destruct Hi as [[l' ->]|Hn]; [|rewrite exec_skip by done; by apply IH].
    destruct (decide (l = l')) as [->|]; [rewrite exec_land|rewrite exec_skip_other by done]; by apply IH.
  - pose proof (step_keeps_types (length code) i c m HT) as HS.
    change (outcome_typed match step call junk params (length code) i c m with
      | Next c' m' => exec call junk params code None c' m'
      | Goto l c' m' => exec call junk params code (Some l) c' m'
      | Done o => o end).
    destruct (step _ _ _ _ i c m); [by apply IH..|exact HS].
Qed.
End Blocks.

Lemma block_keeps_types junk t ps c m :
  machine_typed m -> outcome_typed (run_block machine_call junk t ps c m).
Proof. apply exec_keeps_types. intros. by apply machine_call_typed. Qed.

Definition end_typed (e : cache_end) : Prop :=
  match e with to_vmm m | by_trap m | process_ends m => machine_typed m | goes_wrong => True end.

(** A run through the cache, whatever lies in it. *)
Lemma run_cache_typed fuel junk off c m e :
  machine_typed m -> run_cache fuel junk off c m = Some e -> end_typed e.
Proof.
  revert off c m. induction fuel as [|fuel IH]; intros off c m HT; cbn [run_cache]; [done|].
  destruct (translation_cache (m_hart m) !! off) as [[t ps|]|]; [|by intros [= <-]..].
  pose proof (block_keeps_types (junk fuel) t ps c m HT) as HO.
  destruct (run_block _ _ _ _ _ _); try (by intros [= <-]). by apply IH.
Qed.

(** ** Translation stays inside the cache *)

Definition room (h : hart) : Prop := translation_cache_ptr h + jumper_size <= TRANSLATION_CACHE_SIZE.

Lemma write_chunk_fits off c cache :
  0 <= off -> off + chunk_size c <= TRANSLATION_CACHE_SIZE ->
  map_Forall (fun off c => 0 <= off /\ off + chunk_size c <= TRANSLATION_CACHE_SIZE) cache ->
  map_Forall (fun off c => 0 <= off /\ off + chunk_size c <= TRANSLATION_CACHE_SIZE) (write_chunk off c cache).
Proof.
  intros Ho Hs HC. unfold write_chunk. apply map_Forall_insert_2; [done|].
  intros o d [Hd _]%map_lookup_filter_Some. exact (HC _ _ Hd).
Qed.

Lemma add_item_fits h a t rc h' :
  hart_typed h -> is_uint 32 a ->
  add_translation_item h a (unpatched t) (translation_size (t_indicator t)) = Some (rc, h') ->
  rc <> 0 \/ (hart_typed h' /\ room h').
Proof.
  intros HT Ha. pose proof (translation_size_pos (t_indicator t)) as Hpos. pose proof jumper_size_pos as Hjmp.
  unfold add_translation_item. case_test; [by intros [= <- _]; left|].
  destruct (nr_translated_instructions h <? MAX_INSTRUCTIONS_TOTRANSLATE) eqn:En; [|by intros [= <- _]; left].
  intros (l & E1 & [= <- <-])%bind_Some. right. cbn in E1. unfold unoccupied_cache_size in E. rewrite En in E.
  pose proof HT as [HB HL HM HK HC HTs HId HCp HI HD [[Hn0 Hn] Hlen [Hp0 Hp] Hch Hit]].
  unfold MAX_INSTRUCTIONS_TOTRANSLATE in *. to_prop.
  set (n := Z.to_nat (nr_translated_instructions h)) in *.
  assert (Hm : Forall mapping_typed (take n (pc_mappings h) ++
      [{| guest_pc := a; tc_offset := translation_cache_ptr h |}] ++ drop (S n) (pc_mappings h))).
  { apply Forall_app. split; [by apply Forall_take|]. apply Forall_cons. split; [|by apply Forall_drop].
    split; cbn; [done|lia]. }
  apply (insertion_keeps _ mapping_typed) in E1 as [HF' Hl']; [|done].
  rewrite length_app, length_take in Hl'. cbn [length app] in Hl'. rewrite length_drop in Hl'.
  split; [|unfold room; cbn; lia]. split; cbn; try done. split; cbn; try done; try lia.
  - unfold MAX_INSTRUCTIONS_TOTRANSLATE. lia.
  - apply write_chunk_fits; [lia| |done]. cbn. lia.
Qed.

Lemma commit_fits t ps h a h' :
  hart_typed h -> is_uint 32 a -> COMMIT_TRANSLATION t ps h a = Some h' -> hart_typed h' /\ room h'.
Proof.
  intros HT Ha. unfold COMMIT_TRANSLATION. intros ([rc h1] & E1 & E)%bind_Some.
  destruct (add_item_fits h a t rc h1 HT Ha E1) as [Hrc|[HT1 HR1]].
  { case_match eqn:Erc; [done|]. apply negb_false_iff in Erc. to_prop. lia. }
  destruct (negb (rc =? 0)); [done|]. apply bind_Some in E as ([it|] & _ & E); [|done].
  destruct (negb (guest_pc it =? a)); [done|]. injection E as <-. split; [|exact HR1].
  destruct HT1 as [HB HL HM HK HC HTs HId HCp HI HD []]. split; cbn; try done. split; cbn; try done.
  intros o c Hc. destruct (decide (tc_offset it = o)) as [<-|Hne].
  - rewrite lookup_alter_eq in Hc. destruct (translation_cache h1 !! _) as [c0|] eqn:E0; [|done].
    cbn in Hc. injection Hc as <-. pose proof (ft_chunks0 _ _ E0). by destruct c0.
  - rewrite lookup_alter_ne in Hc by done. by apply ft_chunks0.
Qed.

Lemma translate_fits p0 t ps ep b h b' h' :
  hart_typed h -> is_uint 32 (next_instruction_to_fetch b) ->
  translation_cache_ptr h = p0 \/ room h ->
  translate t ps ep b h = Some (b', h') ->
  hart_typed h' /\ (translation_cache_ptr h' = p0 \/ room h').
Proof.
  intros HT Ha Hp. unfold translate, PRECHECK_TRANSLATION_CACHE. repeat case_test.
  - intros (h1 & E1 & [= _ <-])%bind_Some.
    apply commit_fits in E1 as [HT1 HR1]; [|by apply typed_flush|done]. by auto.
  - by intros [= _ <-].
  - intros (h1 & E1 & [= _ <-])%bind_Some. apply commit_fits in E1 as [HT1 HR1]; [|done..]. by auto.
Qed.

(** Nothing was added yet, or there is room for the jumper. *)
Definition growing (p0 : Z) (h : hart) : Prop := translation_cache_ptr h = p0 \/ room h.

Lemma prefetch_one_typed p0 b m :
  machine_typed m -> growing p0 (m_hart m) -> is_uint 32 (next_instruction_to_fetch b) ->
  match prefetch_one_instruction b m with
  | Ok b' m' => machine_typed m' /\ growing p0 (m_hart m') /\ is_uint 32 (next_instruction_to_fetch b')
  | Trapped m' | Exited _ m' => machine_typed m'
  | Failed => True
  end.
Proof.
  intros HT Hg Ha. unfold prefetch_one_instruction, bind.
  pose proof (gives_fetch _ Ha m HT) as HY. pose proof (fetch_precise (next_instruction_to_fetch b) m) as HF.
  destruct (mmu_instruction_read32 _ m) as [i m1| | |]; [|done..]. destruct HY as [HT1 Hi].
  destruct (cache_same_itlb _ _ HF) as (_ & Ep & _).
  destruct (translators _) as [tr|] eqn:ET; [|done].
  destruct (translators_shaped _ tr i ET b) as [HN|(t & ps & ep & HTr & ->)]; [by rewrite HN|].
  rewrite HTr. destruct (translate _ _ _ _ _) as [[b' h']|] eqn:E; [|done].
  assert (Hg1 : growing p0 (m_hart m1)) by (unfold growing, room in *; by rewrite Ep).
  destruct (translate_fits p0 t ps _ b _ _ _ (mt_hart _ HT1) Ha Hg1 E) as [HT' Hg'].
  split; [by apply typed_set_hart|]. split; [exact Hg'|].
  assert (Hn : next_instruction_to_fetch b' = next_instruction_to_fetch b \/
               next_instruction_to_fetch b' = u32 (next_instruction_to_fetch b + 4)).
  { revert E. unfold translate, PRECHECK_TRANSLATION_CACHE, epilogue_for.
    repeat case_test; try (intros (h1 & _ & [= <- _])%bind_Some); try intros [= <- _]; cbn; auto. }
  destruct Hn as [->| ->]; [done|apply u32_range].
Qed.

Lemma prefetch_loop_typed p0 fuel b m :
  machine_typed m -> growing p0 (m_hart m) -> is_uint 32 (next_instruction_to_fetch b) ->
  match prefetch_loop fuel b m with
  | Ok _ m' => machine_typed m' /\ growing p0 (m_hart m')
  | Trapped m' | Exited _ m' => machine_typed m'
  | Failed => True
  end.
Proof.
  revert b m. induction fuel as [|fuel IH]; intros b m HT Hg Ha; cbn [prefetch_loop]; [done|].
  unfold bind at 1, search_hart. destruct (search_translation_item _ _) as [[it|]|]; cbn; [done| |done].
  unfold bind at 1. pose proof (prefetch_one_typed p0 b m HT Hg Ha) as HP.
  destruct (prefetch_one_instruction b m) as [b1 m1| | |]; [|done..]. destruct HP as (HT1 & Hg1 & Ha1).
  destruct (is_to_stop b1); [done|by apply IH].
Qed.

Lemma jumper_typed h : hart_typed h -> room h -> hart_typed (append_jumper h).
Proof.
  intros [HB HL HM HK HC HTs HId HCp HI HD []] HR. unfold room in HR. pose proof jumper_size_pos.
  split; cbn; try done. split; cbn; try done; [lia|]. apply write_chunk_fits; [lia|done|done].
Qed.

Lemma gives_prefetch : keeps machine_typed prefetch_instructions.
Proof.
  intros m HT. unfold prefetch_instructions, bind, gets, modify. cbv zeta.
  pose proof (prefetch_loop_typed (translation_cache_ptr (m_hart m)) PREFETCH_FUEL
    (first_blob (pc (m_hart m))) m HT (or_introl eq_refl) (typed_pc _ (mt_hart _ HT))) as HP.
  unfold first_blob in HP. destruct (prefetch_loop _ _ m) as [fin m1| | |]; [|done..]. destruct HP as [HT1 Hg].
  split; [|done]. case_test; [|done]. apply typed_set_hart; [|done]. apply jumper_typed; [apply HT1|].
  destruct Hg as [Hg|Hg]; [|done]. apply negb_true_iff in E. to_prop. congruence.
Qed.

Lemma gives_vmresume : keeps machine_typed (let* _ := prefetch_instructions in enter_cache).
Proof.
  unfold enter_cache. eapply gives_bind; [apply gives_prefetch|]. intros _ _.
  eapply gives_bind; [apply gives_hart|]. intros h _.
  eapply (gives_bind _ (fun _ => True)).
  { intros m HT. unfold search_hart. by destruct (search_translation_item _ _). }
  intros o _. eapply (gives_bind _ (fun _ => True)); [by apply gives_of_opt|]. intros. by apply gives_ret.
Qed.

Lemma vmresume_typed m r : machine_typed m -> vmresume m = Some r ->
  match r with Ok _ m' | Trapped m' | Exited _ m' => machine_typed m' | Failed => True end.
Proof.
  intros HT E. pose proof (gives_vmresume m HT) as HG. unfold vmresume in E.
  destruct (prefetch_instructions m) as [[] m1|m1|k m1|] eqn:EP; try done; injection E as <-;
    destruct ((let* _ := prefetch_instructions in enter_cache) m) as [? m2|m2|k2 m2|]; try done; by destruct HG.
Qed.

(** *** The prefetch ends *)

(** A translation is committed: one more in the table, which still has room for it. *)
Lemma commit_counts t ps h a h' : COMMIT_TRANSLATION t ps h a = Some h' ->
  nr_translated_instructions h' = nr_translated_instructions h + 1 /\
  nr_translated_instructions h < MAX_INSTRUCTIONS_TOTRANSLATE.
Proof.
  unfold COMMIT_TRANSLATION, add_translation_item.
  case_test; [done|]. destruct (Z.ltb_spec (nr_translated_instructions h) MAX_INSTRUCTIONS_TOTRANSLATE) as [Hn|]; [|done].
  cbn [negb]. destruct (INSERTION_SORT _ _ _) as [l|]; [|done]. cbn [mbind option_bind].
  change (negb (0 =? 0)) with false. cbv iota. destruct (search_translation_item _ _) as [[it|]|]; [|done..].
  cbn [mbind option_bind]. case_test; [done|]. by intros [= <-].
Qed.

(** A round that goes on: the next ones may not flush the cache any more. *)
Lemma prefetch_one_counts b m b1 m1 :
  prefetch_one_instruction b m = Ok b1 m1 -> is_to_stop b1 = false ->
  is_flushable b1 = false /\ nr_translated_instructions (m_hart m1) <= MAX_INSTRUCTIONS_TOTRANSLATE /\
  (nr_translated_instructions (m_hart m1) = nr_translated_instructions (m_hart m) + 1 \/
   is_flushable b = true /\ nr_translated_instructions (m_hart m1) = 1).
Proof.
  unfold prefetch_one_instruction, bind. destruct (mmu_instruction_read32 _ m) as [i mi| | |] eqn:EF; [|done..].
  apply fetch_frame in EF as (_ & HI & _). destruct (cache_same_itlb _ _ HI) as (_ & _ & En & _). rewrite <- En.
  destruct (translators _) as [tr|] eqn:ET; [|done].
  destruct (translators_shaped _ tr i ET b) as [HN|(t & ps & ep & HT & ->)]; [by rewrite HN|]. rewrite HT.
  destruct (translate _ _ _ _ _) as [[b' h']|] eqn:E; [|done]. intros [= <- <-] Hgo. cbn [m_hart set_m_hart].
  revert E. unfold translate, PRECHECK_TRANSLATION_CACHE.
  assert (Hep : forall b0, is_flushable (epilogue_for t b0) = is_flushable b0).
  { intros b0. unfold epilogue_for. by case_match. }
  repeat case_test.
  - intros (h1 & [HC Hn]%commit_counts & [= <- <-])%bind_Some. rewrite Hep. split; [done|].
    cbn [flush_translation_cache nr_translated_instructions set_nr_translated_instructions] in *.
    change (nr_translated_instructions (flush_translation_cache (m_hart mi))) with 0 in *. split; [lia|]. right. split; [done|lia].
  - intros [= <- _]. done.
  - intros (h1 & [HC Hn]%commit_counts & [= <- <-])%bind_Some. rewrite Hep. split; [done|]. split; [lia|]. left. lia.
Qed.

(** Every round after the first one that goes on adds a translation. *)
Lemma prefetch_rounds fuel b m fin m' :
  is_flushable b = false -> nr_translated_instructions (m_hart m) <= MAX_INSTRUCTIONS_TOTRANSLATE ->
  MAX_INSTRUCTIONS_TOTRANSLATE < nr_translated_instructions (m_hart m) + Z.of_nat fuel ->
  prefetch_loop fuel b m = Ok fin m' -> fin = true.
Proof.
  revert b m. induction fuel as [|fuel IH]; intros b m Hf Hle Hlt; cbn [prefetch_loop]; [lia|].
  unfold bind at 1, search_hart. destruct (search_translation_item _ _) as [[it|]|]; cbn; [by intros [= <- _]| |done].
  unfold bind at 1. destruct (prefetch_one_instruction b m) as [b1 m1| | |] eqn:E1; [|done..].
  destruct (is_to_stop b1) eqn:Hgo; [by intros [= <- _]|].
  destruct (prefetch_one_counts b m b1 m1 E1 Hgo) as (Hf1 & Hle1 & [Hn|[Hn _]]); [|congruence].
  apply IH; [done|done|lia].
Qed.

Lemma prefetch_ends m fin m' : machine_typed m -> prefetch_instructions m = Ok fin m' -> fin = true.
Proof.
  intros HT. unfold prefetch_instructions, bind, gets, modify. cbv zeta.
  destruct (prefetch_loop _ _ m) as [fin1 m1| | |] eqn:EL; [|done..]. intros [= <- _]. revert EL.
  destruct prefetch_fuel_rounds as (n & -> & Hn). cbn [prefetch_loop].
  unfold bind at 1, search_hart. destruct (search_translation_item _ _) as [[it|]|]; cbn; [by intros [= <- _]| |done].
  unfold bind at 1. destruct (prefetch_one_instruction _ m) as [b1 m2| | |] eqn:E1; [|done..].
  destruct (is_to_stop b1) eqn:Hgo; [by intros [= <- _]|].
  destruct (prefetch_one_counts _ m b1 m2 E1 Hgo) as (Hf1 & Hle1 & Hc).
  pose proof (ft_nr _ (ht_cache _ (mt_hart _ HT))) as H0'. intros E.
  apply (prefetch_rounds n b1 m2 fin1 m1); [done|done| |exact E]. destruct Hc as [Hc|[_ Hc]]; lia.
Qed.

Lemma vmresume_ends m : machine_typed m -> exists r, vmresume m = Some r.
Proof.
  intros HT. unfold vmresume. destruct (prefetch_instructions m) as [fin m1| | |] eqn:E; try by eexists.
  rewrite (prefetch_ends m fin m1 HT E). by eexists.
Qed.
End Typed.
