(* ===== verification/Emulator.v ===== *)
(** * The emulator

    The whole loop of the vmm: [vmexit] of src/vmm/translation.c, which
    src/vmm/vmm_trap.S calls whenever control leaves the translation cache, pumps the
    devices and resumes; a trap taken anywhere ends at the same entry point. A run of
    the emulator is a path of [vmm_step].

    Proved here: a run is a run of the RV32 instruction set. As long as the guest's pcs
    stay in one half of the address space and no prefetch is cut short, every state the
    loop passes through is reached by executing the instructions of the guest's memory
    one by one and taking the interrupts the pump takes. And every state of every run
    has all its fields within their C types. *)

From S2P Require Import Prelude Monad PmRegion X86 Hart Rv32 Decode BlockFacts Refine.
From S2P Require Import Trap Clint Plic Uart Machine Mmu CsrHandlers Csr Interrupt.
From S2P Require Import Amo Engine Debug Calls BlockMem BlockSys Run Typing.
Local Open Scope Z_scope.

(** ** The loop *)

(** [vmm_entry_point], the call of [vmresume], the translation cache at an offset; the
    process has ended, or an assertion has failed or code without a meaning was run. *)
Inductive vmm_state :=
  | at_entry (m : machine)
  | resuming (m : machine)
  | in_cache (off : Z) (m : machine)
  | ended (m : machine)
  | wrong.

(** The end of a function of the vmm that goes on to [next] when it returns. A trap
    leads to the entry point.
    src/vmm/hart_trap.c:88-102 do_trap *)
Definition after {A} (next : A -> machine -> vmm_state) (r : res machine A) : vmm_state :=
  match r with
  | Ok a m => next a m
  | Trapped m => at_entry m
  | Exited _ m => ended m
  | Failed => wrong
  end.

Definition after_cache (e : cache_end) : vmm_state :=
  match e with
  | to_vmm m | by_trap m => at_entry m
  | process_ends m => ended m
  | goes_wrong => wrong
  end.

Section Loop.
Context `{Assembler}.

(** [vmexit] is what the entry point calls: the pump, then [vmresume]. [None]: it does
    not come to an end.
    src/vmm/translation.c:264-273 vmexit *)
Definition vmexit (m : machine) : option (res machine Z) :=
  match pump_devices_and_deliver_interrupts m with
  | Ok _ m => vmresume m
  | Trapped m => Some (Trapped m)
  | Exited k m => Some (Exited k m)
  | Failed => Some Failed
  end.

(** A step of the loop. There is none from a state in which the vmm does not come back:
    not when the prefetch goes on for ever, nor when the run through the cache does. The
    cache is entered with any contents of the registers
    [vmresume] does not set, and callees leave anything in theirs.
    src/vmm/vmm_trap.S:8-34 vmm_entry_point *)
Inductive vmm_step : vmm_state -> vmm_state -> Prop :=
  | step_pump m :
      vmm_step (at_entry m) (after (fun _ => resuming) (pump_devices_and_deliver_interrupts m))
  | step_resume m r : vmresume m = Some r -> vmm_step (resuming m) (after in_cache r)
  | step_cache off m junk gprs stk e :
      run_cache RUN_FUEL junk off (entry_cpu gprs stk) m = Some e ->
      vmm_step (in_cache off m) (after_cache e).

(** From the entry point the loop does what [vmexit] does. *)
Lemma vmexit_steps m r : vmexit m = Some r -> rtc vmm_step (at_entry m) (after in_cache r).
Proof.
  unfold vmexit. pose proof (step_pump m) as HP.
  destruct (pump_devices_and_deliver_interrupts m) as [[] m1| | |]; cbn [after] in HP;
    [|by intros [= <-]; apply rtc_once..].
  intros E. eapply rtc_l; [exact HP|]. by apply rtc_once, step_resume.
Qed.
End Loop.

(** ** What an instruction leaves of the cache *)

Section Settled.
Context `{AssemblerOk}.

(** The translations are those of [h0], or none; with [z], x0 is zero. *)
Record settled (z : bool) (h0 h : hart) : Prop := {
  st_cache : cache_same h0 h \/ cache_same (flush_translation_cache h0) h;
  st_magic : hart_magic h = hart_magic h0;
  st_zero : z = true -> HART_REG h 0 = 0
}.

Definition calm (z : bool) (m0 m : machine) : Prop :=
  settled z (m_hart m0) (m_hart m) /\ breakpoints m = breakpoints m0.

Context (z : bool).

(** An update of anything else. *)
Lemma settled_same h0 h h' :
  cache_same h h' -> hart_magic h' = hart_magic h -> registers h' = registers h ->
  settled z h0 h -> settled z h0 h'.
Proof.
  intros HC HM HR [H1 H2 H3]. split; [|congruence|].
  - destruct H1 as [H1|H1]; [left|right]; by eapply cache_same_trans.
  - unfold HART_REG in *. by rewrite HR.
Qed.

Lemma settled_flush h0 h : settled z h0 h -> settled z h0 (flush_translation_cache h).
Proof.
  intros [H1 H2 H3]. split; [|done..]. right.
  destruct H1 as [(E1 & _ & _ & E4)|(E1 & _ & _ & E4)]; unfold cache_same; cbn; by rewrite E1, E4.
Qed.

Ltac same := intros; by eapply settled_same; [..|eassumption].

Lemma gives_same h0 f :
  (forall h, cache_same h (f h) /\ hart_magic (f h) = hart_magic h /\ registers (f h) = registers h) ->
  keeps (settled z h0) (modify f).
Proof. intros Hf. apply gives_modify. intros h HS. destruct (Hf h) as (? & ? & ?). by eapply settled_same. Qed.

Lemma settled_raise {A} (R : A -> Prop) h0 pl cause tval :
  gives (settled z h0) R (raise_trap_raw pl cause tval).
Proof.
  intros h HS. unfold raise_trap_raw, flush_translation_cache_on_address_space_change. cbv zeta.
  repeat case_test; first [done|same|apply settled_flush; same].
Qed.

Lemma settled_exception {A} (R : A -> Prop) h0 cause tval :
  gives (settled z h0) R (raise_exception_with_tvalue cause tval).
Proof.
  unfold raise_exception_with_tvalue. eapply (gives_bind _ (fun _ => True)); [by apply gives_gets|].
  intros pl _. apply gives_assert. intros _. apply settled_raise.
Qed.

Lemma settled_space_change h0 t h :
  settled z h0 h -> settled z h0 (flush_translation_cache_on_address_space_change t h).
Proof. intros. unfold flush_translation_cache_on_address_space_change. case_test; [by apply settled_flush|done]. Qed.

Lemma settled_guard h0 (pl : Z -> bool) :
  keeps (settled z h0) (let* p := gets privilege_level in
    if pl p then raise_exception EXCEPTION_ILLEEGAL_INSTRUCTION else ret tt).
Proof.
  eapply (gives_bind _ (fun _ => True)); [by apply gives_gets|]. intros p _.
  case_test; [apply settled_exception|by apply gives_ret].
Qed.

Lemma settled_mret h0 : keeps (settled z h0) mret_callback.
Proof.
  unfold mret_callback, adjust_mstatus_upon_mret, adjust_pc_upon_mret.
  apply gives_seq; [apply (settled_guard h0 (fun p => negb (p =? PRIVILEGE_LEVEL_MACHINE)))|].
  eapply (gives_bind _ (fun _ => True)); [by apply gives_gets|]. intros t _. apply gives_seq.
  { eapply (gives_bind _ (fun _ => True)); [by intros h HS|]. intros h _. cbv zeta. apply gives_assert. intros _.
    by apply gives_same. }
  apply gives_seq; [by apply gives_same|]. apply gives_modify. intros. by apply settled_space_change.
Qed.

Lemma settled_sret h0 : keeps (settled z h0) sret_callback.
Proof.
  unfold sret_callback, adjust_mstatus_upon_sret, adjust_pc_upon_sret.
  apply gives_seq; [apply (settled_guard h0 (fun p => negb (p =? PRIVILEGE_LEVEL_SUPERVISOR)))|].
  eapply (gives_bind _ (fun _ => True)); [by apply gives_gets|]. intros t _.
  apply gives_seq; [by apply gives_same|]. apply gives_seq; [by apply gives_same|].
  apply gives_modify. intros. by apply settled_space_change.
Qed.

Lemma settled_ecall h0 : keeps (settled z h0) ecall_callback.
Proof.
  unfold ecall_callback. eapply (gives_bind _ (fun _ => True)); [by apply gives_gets|]. intros pl _.
  repeat case_test; first [apply settled_exception|apply gives_failed].
Qed.

Lemma settled_sfence h0 : keeps (settled z h0) sfence_vma_callback.
Proof.
  unfold sfence_vma_callback. apply gives_seq; [by apply gives_same|].
  apply gives_seq; [by apply gives_same|]. apply gives_modify, settled_flush.
Qed.

Lemma settled_write h0 f a v h : settled z h0 h -> settled z h0 (run_write f a v h).
Proof.
  intros HS. destruct f; cbn [run_write]; try exact HS; try same.
  apply settled_flush. same.
Qed.
Lemma settled_read h0 f now a h : settled z h0 h -> settled z h0 (run_read f now a h).2.
Proof. intros HS. destruct f; cbn [run_read snd]; try exact HS. same. Qed.

(** ** On the machine *)

Lemma calm_set_hart m0 m h : settled z (m_hart m0) h -> calm z m0 m -> calm z m0 (set_m_hart h m).
Proof. by intros ? []. Qed.

Lemma calm_on_hart {A} (R : A -> Prop) m0 q :
  gives (settled z (m_hart m0)) R q -> gives (calm z m0) R (on_hart q).
Proof. apply gives_zoom; [by intros ? []|]. by intros ??[]. Qed.

(** A program that leaves hart and breakpoints alone. *)
Lemma calm_same m0 m m' :
  m_hart m' = m_hart m -> breakpoints m' = breakpoints m -> calm z m0 m -> calm z m0 m'.
Proof. unfold calm. by intros -> ->. Qed.

Lemma calm_pmr_read m0 r a n : keeps (calm z m0) (pmr_read r a n).
Proof.
  intros m HC. destruct (pmr_read r a n m) as [v m'|m'|k m'|] eqn:E; [| | |done].
  - apply pmr_read_devices in E as (p & u & ->). done.
  - pose proof (pmr_read_no_trap r a n m) as HN. by rewrite E in HN.
  - pose proof (pmr_read_hart r a n (m_hart m) m) as HH. unfold pmr_read in E.
    destruct (pmr_callbacks r); cbn in E; try done.
    + unfold ram_read in E. case_match; [done|]. by destruct (mem_load _ _ _).
    + unfold bootrom_read in E. repeat (case_match; try done). all: by destruct (mem_load _ _ _).
    + by destruct (plic_mmio_read _ _ _).
    + by destruct (uart_mmio_read _ _ _ _) as [[[]]|].
Qed.

Lemma calm_pmr_write m0 r a n v : keeps (calm z m0) (pmr_write r a n v).
Proof.
  intros m HC. unfold pmr_write. destruct (pmr_callbacks r); cbn; try done.
  - unfold ram_write. case_test; [done|]. by destruct (mem_store _ _ _ _).
  - unfold bootrom_write. repeat case_test; [done..|]. by destruct (mem_store _ _ _ _).
  - by destruct (uart_mmio_write _ _ _ _ _) as [[[]]|].
  - unfold syscon_write. cbv zeta. by repeat case_test.
Qed.

Lemma calm_find_region m0 a : keeps (calm z m0) (find_region a).
Proof. intros m HC. unfold find_region. by destruct (search_pm_region_callback _ _). Qed.

Lemma calm_translate m0 (get_tlb : hart -> tlb) cap put_tlb fault va :
  (forall h t, cache_same h (put_tlb t h) /\ hart_magic (put_tlb t h) = hart_magic h /\
     registers (put_tlb t h) = registers h) ->
  keeps (calm z m0) (translate_va get_tlb cap put_tlb fault va).
Proof.
  intros Hput m HC. unfold translate_va, bind at 1, gets. destruct (VA_TO_TLB_ENTRY _ _ _); [done|].
  pose proof (looks_walk va (get_tlb (m_hart m)) (cap (m_hart m)) m) as HL.
  unfold bind at 1. destruct (walk_page_table _ _ _ m) as [[rc t] m1| | |]; [|done..]. subst m1.
  unfold bind, modify. cbn [snd] in *. destruct (Hput (m_hart m) t) as (H1 & H2 & H3).
  assert (HC1 : calm z m0 (set_m_hart (put_tlb t (m_hart m)) m)).
  { destruct HC as [HS HB]. split; [|done]. by eapply settled_same. }
  destruct (VA_TO_TLB_ENTRY _ _ _); [done|].
  exact (calm_on_hart (A := tlb_entry) _ m0 _ (settled_exception _ (m_hart m0) fault va) _ HC1).
Qed.

Lemma calm_vmread m0 n va : keeps (calm z m0) (vmread n va).
Proof.
  unfold vmread, direct_read. eapply (gives_bind _ (fun _ => True)); [by apply gives_gets|]. intros h _. case_test.
  - eapply gives_bind; [by apply calm_translate|]. intros e _.
    eapply (gives_bind _ (fun _ => True)); [by apply gives_of_opt|]. intros r _.
    eapply gives_bind; [apply calm_pmr_read|]. intros. by apply gives_ret.
  - eapply gives_bind; [apply calm_find_region|]. intros [r|] _; [|apply gives_failed].
    eapply gives_bind; [apply calm_pmr_read|]. intros. by apply gives_ret.
Qed.

Lemma calm_vmwrite m0 n va v : keeps (calm z m0) (vmwrite n va v).
Proof.
  unfold vmwrite, direct_write. eapply (gives_bind _ (fun _ => True)); [by apply gives_gets|]. intros h _. case_test.
  - eapply gives_bind; [by apply calm_translate|]. intros e _.
    eapply (gives_bind _ (fun _ => True)); [by apply gives_of_opt|]. intros r _. apply calm_pmr_write.
  - eapply gives_bind; [apply calm_find_region|]. intros [r|] _; [apply calm_pmr_write|apply gives_failed].
Qed.

Lemma calm_misaligned m0 (b : bool) n va :
  keeps (calm z m0) (if b then on_hart (raise_exception_with_tvalue n va) else ret tt).
Proof. case_match; [apply calm_on_hart, settled_exception|by apply gives_ret]. Qed.

Lemma calm_read_aligned m0 va : keeps (calm z m0) (mmu_read32_aligned va).
Proof. apply gives_seq; [apply calm_misaligned|apply calm_vmread]. Qed.
Lemma calm_write_aligned m0 va v : keeps (calm z m0) (mmu_write32_aligned va v).
Proof. apply gives_seq; [apply calm_misaligned|apply calm_vmwrite]. Qed.

(** *** The pump *)

Lemma calm_poll m0 : keeps (calm z m0) poll_console.
Proof.
  intros m HC. unfold poll_console. case_test; [done|]. destruct (uart_poll_input _ _) as [quit u]. cbv zeta.
  by case_test.
Qed.

Lemma calm_refresh m0 : keeps (calm z m0) refresh_device_interrupts.
Proof.
  unfold refresh_device_interrupts. apply gives_seq; [|apply gives_seq; [|apply gives_seq]].
  - unfold poll_when_due. eapply (gives_bind _ (fun _ => True)); [by apply gives_gets|]. intros n _.
    apply gives_seq; [by apply gives_modify|]. case_test; [|by apply gives_ret].
    apply gives_seq; [by apply gives_modify|apply calm_poll].
  - apply gives_try_modify. intros m m' HC (p & _ & [= <-])%bind_Some. done.
  - apply gives_modify. intros m [HS HB]. split; [|done]. by eapply settled_same; [..|exact HS].
  - apply gives_modify. intros m [HS HB]. split; [|done]. by eapply settled_same; [..|exact HS].
Qed.

Lemma settled_deliver h0 order :
  Forall (fun v => 0 <= v < 12) order -> keeps (settled z h0) (deliver_first order).
Proof.
  intros HF h HS. rewrite deliver_first_eq by done. destruct (find _ _) as [v|]; [|done].
  by apply settled_raise.
Qed.

Lemma calm_pump m0 : keeps (calm z m0) pump_devices_and_deliver_interrupts.
Proof.
  unfold pump_devices_and_deliver_interrupts. apply gives_seq; [by apply gives_modify|].
  apply gives_seq; [apply calm_refresh|]. apply calm_on_hart, settled_deliver, delivery_order_ok.
Qed.

Lemma calm_idle m0 n : keeps (calm z m0) (idle_rounds n).
Proof.
  induction n as [|n IH]; cbn [idle_rounds]; [by apply gives_ret|].
  apply gives_seq; [apply calm_poll|]. apply gives_seq; [apply calm_refresh|].
  eapply (gives_bind _ (fun _ => True)); [by apply gives_gets|]. intros awake _.
  case_test; [by apply gives_ret|]. apply gives_seq; [by apply gives_modify|done].
Qed.
End Settled.

(** ** An instruction *)

Section Instruction.
Context `{AssemblerOk}.

Lemma calm_refl m : guest_ok m -> calm true m m.
Proof. intros [_ H0']. split; [|done]. split; [by left|done|done]. Qed.

Lemma calm_weaken m0 m : calm true m0 m -> calm false m0 m.
Proof. intros [[H1 H2 _] HB]. by split. Qed.

(** A write to a register, and to x0 when it is 0. *)
Lemma calm_put_reg m0 rd v : keeps (calm false m0) (put_reg rd v).
Proof. apply gives_modify. by intros m [[H1 H2 _] HB]. Qed.
Lemma calm_clear_reg z m0 rd m : calm z m0 m -> calm z m0 (with_reg rd 0 m).
Proof.
  intros [[H1 H2 H3] HB]. split; [|done]. split; [done..|]. intros Hz. specialize (H3 Hz).
  unfold HART_REG in *. cbn. destruct (decide (Z.to_nat rd = 0%nat)) as [->|Hne].
  - by destruct (registers (m_hart m)).
  - by rewrite list_lookup_insert_ne.
Qed.
Lemma zero_x0 m0 m : calm false m0 m -> calm true m0 (wr_reg 0 0 m).
Proof.
  intros [[H1 H2 _] HB]. split; [|done]. split; [done..|]. intros _.
  unfold HART_REG. cbn. by destruct (registers (m_hart m)).
Qed.
Lemma calm_next_pc z m0 : keeps (calm z m0) next_pc.
Proof. apply gives_modify. intros m [[H1 H2 H3] HB]. by split. Qed.

Lemma calm_set_rd m0 rd v m : 0 <= rd -> calm true m0 m -> calm true m0 (set_rd rd v m).
Proof.
  intros Hrd HC. unfold set_rd. case_test; [done|]. to_prop.
  destruct HC as [[H1 H2 H3] HB]. split; [|done]. split; [done..|]. intros Hz. specialize (H3 Hz).
  unfold HART_REG in *. cbn. by rewrite list_lookup_insert_ne by lia.
Qed.

Lemma calm_amo m0 rs1 rs2 rd f : keeps (calm false m0) (amo_instruction_slowpath rs1 rs2 rd f).
Proof.
  unfold amo_instruction_slowpath, amoadd_slowpath, amoswap_slowpath, amoxor_slowpath,
    amoor_slowpath, amoand_slowpath, lr_slowpath, sc_slowpath.
  assert (Hreg : forall i, keeps (calm false m0) (reg i)) by (intros; by apply gives_gets).
  pose proof (calm_read_aligned false m0) as HR. pose proof (calm_write_aligned false m0) as HW.
  pose proof (calm_put_reg m0) as HP.
  repeat case_match; try apply gives_failed; (eapply gives_bind; [apply Hreg|]; intros a _).
  all: try (eapply gives_bind; [apply Hreg|]; intros b _).
  all: try (eapply gives_bind; [apply HR|]; intros v _; apply gives_seq; [apply HP|]).
  all: try (eapply gives_bind; [apply Hreg|]; intros d _; apply HW).
  all: try apply HW.
  - eapply (gives_bind _ (fun _ => True)); [by apply gives_gets|]. intros [idx|] _; [|apply HP].
    apply gives_seq; [apply HP|]. apply gives_seq; [apply HW|]. apply gives_modify. by intros m [].
  - apply gives_modify. intros m [HS HB]. unfold make_reservation. cbv zeta. by destruct (list_find _ _) as [[]|].
Qed.

(** A trap in an atomic leaves x0 alone. *)
Lemma amo_trap_x0 m0 rs1 rs2 rd f m s :
  calm true m0 m -> amo_instruction_slowpath rs1 rs2 rd f m = Trapped s -> calm true m0 s.
Proof.
  intros HC E. destruct (decide (f = 0x3)) as [->|Hf].
  - unfold amo_instruction_slowpath, sc_slowpath, bind at 1 2 3, reg, gets in E.
    destruct (find_reservation _ _ _) as [idx|]; [|done].
    unfold bind in E. cbn -[mmu_write32_aligned] in E.
    pose proof (calm_write_aligned true m0 (HART_REG (m_hart m) rs1) (HART_REG (m_hart m) rs2) (with_reg rd 0 m)) as HW.
    unfold with_reg in HW.
    destruct (mmu_write32_aligned _ _ _) as [| s' | |]; try done. injection E as <-.
    apply HW. by apply calm_clear_reg.
  - pose proof (calm_amo m0 rs1 rs2 rd f m (calm_weaken _ _ HC)) as HA. rewrite E in HA.
    apply amo_traps_precise in E as (h' & -> & Hr); [|done]. destruct HA as [[H1 H2 _] HB].
    split; [|done]. split; [done..|]. intros Hz. destruct HC as [[_ _ H3] _]. specialize (H3 Hz).
    unfold HART_REG in *. cbn [m_hart set_m_hart]. by rewrite Hr.
Qed.

Lemma calm_csr_value z h0 now a : keeps (settled z h0) (csr_value now a).
Proof.
  intros h HS. unfold csr_value. destruct (read _) as [f|]; [|done].
  pose proof (settled_read z h0 f now a h HS). by destruct (run_read f now a h).
Qed.

Lemma settled_csr h0 now instruction : keeps (settled false h0) (riscv_generic_csr_callback now instruction).
Proof.
  assert (HV : forall a, keeps (settled false h0) (csr_value now a)) by (intros; apply calm_csr_value).
  assert (HP : forall rd v, keeps (settled false h0) (modify (set_HART_REG rd v))).
  { intros. apply gives_modify. by intros h [H1 H2 _]. }
  assert (HW : forall a v, keeps (settled false h0) (csr_store a v)).
  { intros. apply gives_modify. intros h HS. destruct (write _); [by apply settled_write|done]. }
  unfold riscv_generic_csr_callback. eapply (gives_bind _ (fun _ => True)); [by intros h HS|]. intros h _.
  apply gives_assert. intros _. apply gives_assert. intros _.
  eapply (gives_bind _ (fun _ => True)); [by apply gives_of_opt|]. intros dec _. cbv zeta.
  case_test; [apply gives_failed|].
  repeat case_match; try apply gives_failed;
    first [ apply gives_seq; [first [apply gives_ret; exact I|eapply gives_bind; [apply HV|]; intros; apply HP]|apply HW]
          | eapply gives_bind; [apply HV|]; intros; apply gives_seq; [apply HP|];
            first [apply HW|by apply gives_ret] ].
Qed.

(** A csr instruction takes no trap. *)
Definition plain {S A} (q : prog S A) : Prop := forall s, match q s with Trapped _ => False | _ => True end.
Lemma plain_bind {S A B} (q : prog S A) (k : A -> prog S B) : plain q -> (forall a, plain (k a)) -> plain (bind q k).
Proof. intros Hq Hk s. specialize (Hq s). unfold bind. destruct (q s); try done. apply Hk. Qed.

Lemma plain_csr now instruction : plain (riscv_generic_csr_callback now instruction).
Proof.
  assert (HV : forall a, plain (csr_value now a)).
  { intros a h. unfold csr_value. destruct (read _) as [f|]; [|done]. by destruct (run_read f now a h). }
  unfold riscv_generic_csr_callback. apply plain_bind; [done|]. intros h.
  apply plain_bind; [intros s; by destruct (hart_magic h =? HART_MAGIC_WORD)|]. intros _.
  apply plain_bind; [intros s; by destruct (Z.land instruction 0x7f =? RISCV_OPCODE_SUPERVISOR_LEVEL)|]. intros _.
  apply plain_bind; [intros s; by destruct (instruction_decoding_per_type _ _)|]. intros dec. cbv zeta.
  case_test; [done|].
  repeat case_match; try done;
    first [ apply plain_bind; [first [done|apply plain_bind; [apply HV|done]]|done]
          | apply plain_bind; [apply HV|]; intros; apply plain_bind; done ].
Qed.
End Instruction.

(** ** The specification: RV32 with interrupts *)

Section Simulation.
Context `{AssemblerOk}.

(** An instruction that flushes the translations - fence.i, sfence.vma, a change of
    address space - makes the hart forget the words it has fetched. *)
Definition remembered (code : gmap Z Z) (m : machine) : gmap Z Z :=
  if nr_translated_instructions (m_hart m) =? 0 then ∅ else code.

(** [code] are the words fetched and not forgotten. An instruction is one of those
    words, at the pc, and has the effect of [execute_rv32], a trap included. Between
    instructions the hart may fetch words from the pc on, each the one the memory, or the
    device, of the moment gives for its address, and let time pass and take an
    interrupt. *)
Inductive arch_step : gmap Z Z * machine -> gmap Z Z * machine -> Prop :=
  | arch_instruction code m i ins m' :
      code !! rd_pc m = Some i -> decode_rv32 i = Some ins ->
      (execute_rv32 ins m = Ok tt m' \/ execute_rv32 ins m = Trapped m') ->
      arch_step (code, m) (remembered code m', m')
  | arch_fetch code m ws m' :
      fetches (rd_pc m) m ws m' -> arch_step (code, m) (remember (rd_pc m) ws code, m')
  | arch_fetch_fault code m m' :
      mmu_instruction_read32 (rd_pc m) m = Trapped m' -> arch_step (code, m) (remembered code m', m')
  | arch_devices code m m' :
      (pump_devices_and_deliver_interrupts m = Ok tt m' \/
       pump_devices_and_deliver_interrupts m = Trapped m') ->
      arch_step (code, m) (remembered code m', m').

(** ** The invariant of the loop *)

Record engine_ok (base : Z) (code : gmap Z Z) (m : machine) : Prop := {
  eo_typed : machine_typed m;
  eo_zero : HART_REG (m_hart m) 0 = 0;
  eo_unhooked : unhooked m;
  eo_wf : cache_wf base (m_hart m);
  eo_chained : chained (m_hart m);
  eo_backed : backed code (m_hart m)
}.

Lemma engine_guest base code m : engine_ok base code m -> guest_ok m.
Proof. intros []. split; [apply eo_typed0|done]. Qed.

Lemma flushed_backed code h : nr_translated_instructions h = 0 -> backed code h.
Proof. intros E. unfold backed, live. rewrite E. constructor. Qed.

(** Whatever leaves the translations alone or flushes them keeps the invariant. *)
Lemma engine_settled base code m0 m1 m :
  engine_ok base code m0 -> cache_same (m_hart m0) (m_hart m1) -> unhooked m1 ->
  calm true m1 m -> machine_typed m -> engine_ok base (remembered code m) m.
Proof.
  intros [HT HZ HU HW HC HB] HS HU1 [[Hc Hm Hz] Hb] HT'.
  assert (Hcode : forall c, backed c (m_hart m) -> backed (remembered c m) (m_hart m)).
  { intros c Hbk. unfold remembered. destruct (Z.eqb_spec (nr_translated_instructions (m_hart m)) 0); [|done].
    by apply flushed_backed. }
  assert (Hun : unhooked m) by (destruct HU1; split; congruence).
  pose proof (cache_same_wf _ _ _ HS HW) as HW1. pose proof (cache_same_chain _ _ None HS HC) as HC1.
  split; [done|by apply Hz|done| | |]; destruct Hc as [Hc|Hc].
  - by eapply cache_same_wf.
  - eapply cache_same_wf; [exact Hc|]. by apply flush_cache_wf.
  - by eapply cache_same_chain.
  - eapply cache_same_chain; [exact Hc|]. apply flushed_chain.
  - apply Hcode. eapply backed_same; [exact Hc|]. by eapply backed_same.
  - apply Hcode, flushed_backed. by destruct Hc as (_ & _ & -> & _).
Qed.

(** An instruction keeps the hart calm. *)
Lemma execute_calm i ins m :
  decode_rv32 i = Some ins -> ins <> Sys I_EBREAK -> guest_ok m ->
  match execute_rv32 ins m with Ok _ m' | Trapped m' => calm true m m' | _ => True end.
Proof.
  intros Hd Hne HG. pose proof (calm_refl m HG) as HC.
  assert (Hk : forall q : prog machine unit, keeps (calm true m) q ->
    match q m with Ok _ m' | Trapped m' => calm true m m' | _ => True end).
  { intros q Hq. specialize (Hq m HC). by destruct (q m) as [? ?| | |]; [destruct Hq|..]. }
  unfold decode_rv32 in Hd. destruct (decode i) as [ci|] eqn:Ed; [injection Hd as <-|].
  { cbn [execute_rv32]. case_test; [done|]. pose proof (execute_ok i ci m Ed HG) as [_ HZ].
    split; [|destruct ci; cbn [execute]; unfold set_rd; by repeat case_test].
    split; [|destruct ci; cbn [execute]; unfold set_rd; by repeat case_test|done].
    left. destruct ci; cbn [execute]; unfold set_rd; by repeat case_test. }
  destruct (decode_mem i) as [mi|] eqn:Em; [injection Hd as <-|].
  - pose proof (decode_mem_rd i mi Em) as Hrd.
    destruct mi as [op rd rs1 off|op rs1 rs2 off|f rd rs1 rs2]; cbn [execute_rv32 execute_mem mem_rd] in *.
    + apply Hk. eapply (gives_bind _ (fun _ => True)); [by apply gives_gets|]. intros a _.
      eapply gives_bind; [apply calm_vmread|]. intros v _.
      apply gives_seq; [|apply calm_next_pc]. apply gives_modify. intros. apply calm_set_rd; [lia|done].
    + apply Hk. eapply (gives_bind _ (fun _ => True)); [by apply gives_gets|]. intros a _.
      eapply (gives_bind _ (fun _ => True)); [by apply gives_gets|]. intros v _.
      apply gives_seq; [apply calm_vmwrite|apply calm_next_pc].
    + unfold bind at 1. pose proof (calm_amo m rs1 rs2 rd f m (calm_weaken _ _ HC)) as HA.
      destruct (amo_instruction_slowpath _ _ _ _ m) as [[] m1|m1| |] eqn:EA; [|by eapply amo_trap_x0|done..].
      destruct HA as [HA _]. unfold bind, modify.
      pose proof (calm_next_pc true m _ (zero_x0 _ _ HA)) as HN. by destruct (next_pc _); [destruct HN|..].
  - destruct (decode_sys i) as [si|] eqn:Es; [|done]. cbn in Hd. injection Hd as <-. cbn [execute_rv32].
    destruct si; cbn [execute_sys]; try done.
    + apply Hk, calm_next_pc.
    + apply Hk, gives_seq; [apply calm_on_hart, gives_modify, settled_flush|apply calm_next_pc].
    + apply Hk, gives_seq; [apply calm_on_hart, settled_ecall|apply calm_next_pc].
    + apply Hk, gives_seq; [apply calm_on_hart, settled_mret|by apply gives_ret].
    + apply Hk, gives_seq; [apply calm_on_hart, settled_sret|by apply gives_ret].
    + apply Hk, gives_seq; [apply calm_idle|apply calm_next_pc].
    + apply Hk, gives_seq; [apply calm_on_hart, settled_sfence|apply calm_next_pc].
    + unfold bind at 1, csr_callback. unfold bind at 1, gets, on_hart, zoom.
      pose proof (settled_csr (m_hart m) (clint_get_time (clint m)) word (m_hart m) (proj1 (calm_weaken _ _ HC))) as HS.
      pose proof (plain_csr (clint_get_time (clint m)) word (m_hart m)) as HP.
      destruct (riscv_generic_csr_callback _ _ _) as [[] h| | |]; [|done..]. destruct HS as [HS _]. unfold bind, modify.
        assert (HC0 : calm false m (set_m_hart h m)) by (split; [exact HS|apply HC]).
      pose proof (calm_next_pc true m _ (zero_x0 _ _ HC0)) as HN. by destruct (next_pc _); [destruct HN|..].
Qed.
(** *** Running the cache *)

Lemma isa_arch code n m m' :
  isa_steps code n m m' -> guest_ok m -> nr_translated_instructions (m_hart m) <> 0 ->
  rtc arch_step (code, m) (code, m') /\ guest_ok m' /\ cache_same (m_hart m) (m_hart m').
Proof.
  intros HS HG Hn. induction HS as [m|n m m1 m2 i ins HS IH Hc Hd Hx E]; [by repeat split; try apply HG|].
  destruct (IH HG Hn) as (HR & HG1 & HC1).
  destruct (rv_goes_on i ins m1 m2 Hd Hx HG1 E) as (HC2 & _ & _ & HG2).
  pose proof (cache_same_trans _ _ _ HC1 HC2) as HC. split; [|done].
  eapply rtc_r; [exact HR|]. replace (code, m2) with (remembered code m2, m2); [by eapply arch_instruction; eauto|].
  unfold remembered. destruct HC as (_ & _ & -> & _). by rewrite (proj2 (Z.eqb_neq _ _) Hn).
Qed.

Lemma live_nonempty base h it : cache_wf base h -> it ∈ live h -> nr_translated_instructions h <> 0.
Proof. intros HW Hin E. unfold live in Hin. rewrite E in Hin. by apply elem_of_nil in Hin. Qed.

(** *** Resuming *)

(** The pc is not translated, and fetching from it traps. *)
Definition fetch_faults (m m' : machine) : Prop :=
  search_translation_item (m_hart m) (pc (m_hart m)) = Some None /\
  mmu_instruction_read32 (pc (m_hart m)) m = Trapped m'.

(** The pc and what a prefetch may reach from it are in one half of the address space,
    a prefetch traps at its first instruction or not at all, and one that refills the
    cache does not end where the old translations ended. *)
Definition resumes_well (base : Z) (m : machine) : Prop :=
  prefetch_window base (pc (m_hart m)) /\
  match vmresume m with
  | Some (Ok _ m') => translation_cache_ptr (m_hart m') <> translation_cache_ptr (m_hart m) \/
                      live (m_hart m') = live (m_hart m)
  | Some (Trapped m') => fetch_faults m m'
  | _ => True
  end.

Definition smooth_step (base : Z) (s s' : vmm_state) : Prop :=
  vmm_step s s' /\ match s with resuming m => resumes_well base m | _ => True end.

Lemma calm_fetch z m0 va : keeps (calm z m0) (mmu_instruction_read32 va).
Proof.
  unfold mmu_instruction_read32, direct_read. eapply (gives_bind _ (fun _ => True)); [by apply gives_gets|].
  intros h _. case_test.
  - eapply gives_bind; [by apply calm_translate|]. intros e _.
    eapply (gives_bind _ (fun _ => True)); [by apply gives_of_opt|]. intros r _.
    eapply gives_bind; [apply calm_pmr_read|]. intros. by apply gives_ret.
  - eapply gives_bind; [apply calm_find_region|]. intros [r|] _; [|apply gives_failed].
    eapply gives_bind; [apply calm_pmr_read|]. intros. by apply gives_ret.
Qed.
(** *** The loop *)

(** The process ends, or something without a meaning is met, in the machine [m]: in the
    next instruction, in the pump or in resuming. *)
Definition stops (code : gmap Z Z) (m : machine) (s : vmm_state) : Prop :=
  (exists i ins, code !! rd_pc m = Some i /\ decode_rv32 i = Some ins /\
     s = after (fun _ => at_entry) (execute_rv32 ins m)) \/
  s = after (fun _ => resuming) (pump_devices_and_deliver_interrupts m) \/
  (exists r, vmresume m = Some r /\ s = after in_cache r).

(** The emulator's state stands for the hart [m] that remembers [code]. *)
Definition stands_for (base : Z) (code : gmap Z Z) (m : machine) (s : vmm_state) : Prop :=
  match s with
  | at_entry m' | resuming m' => m' = m /\ engine_ok base code m
  | in_cache off m' => m' = m /\ engine_ok base code m /\
      exists it, off = tc_offset it /\ it ∈ live (m_hart m) /\ guest_pc it = rd_pc m
  | ended _ | wrong => stops code m s
  end.

(** What the emulator has done since [c0]. *)
Definition explained (base : Z) (c0 : gmap Z Z * machine) (s : vmm_state) : Prop :=
  exists code m, rtc arch_step c0 (code, m) /\ (odd_word code m \/ stands_for base code m s).

Lemma explained_more base code m code1 m1 s :
  arch_step (code, m) (code1, m1) -> stands_for base code1 m1 s -> explained base (code, m) s.
Proof. intros HS HX. exists code1, m1. split; [by apply rtc_once|by right]. Qed.

Lemma pump_explained base code m : engine_ok base code m ->
  explained base (code, m) (after (fun _ => resuming) (pump_devices_and_deliver_interrupts m)).
Proof.
  intros HE. pose proof (engine_guest _ _ _ HE) as HG.
  pose proof (calm_pump true m m (calm_refl m HG)) as HC. pose proof (gives_pump m (eo_typed _ _ _ HE)) as HT.
  pose proof (engine_settled base code m m) as HS.
  destruct (pump_devices_and_deliver_interrupts m) as [[] m'|m'|k m'|] eqn:E.
  - eapply explained_more; [by eapply arch_devices; left|]. split; [done|]. apply HS; try done; [apply HE|apply HC|apply HT].
  - eapply explained_more; [by eapply arch_devices; right|]. split; [done|]. apply HS; try done; apply HE.
  - exists code, m. split; [done|]. right. right. left. by rewrite E.
  - exists code, m. split; [done|]. right. right. left. by rewrite E.
Qed.

Lemma resume_explained base code m r : engine_ok base code m -> resumes_well base m -> vmresume m = Some r ->
  explained base (code, m) (after in_cache r).
Proof.
  intros HE [Hwin HR] E. pose proof (engine_guest _ _ _ HE) as HG. pose proof HE as [HT HZ HU HW HC HB].
  pose proof (vmresume_typed m r HT E) as HT'. rewrite E in HR.
  destruct r as [off m'|m'|k m'|].
  - destruct (resumed base code m off m' HW HC Hwin HB HG E HR) as (HW' & HC' & Hit & ws & HF & HB').
    destruct (prefetching_ready _ _ (fetches_frame _ _ _ _ HF) HG HU) as [[_ HZ'] HU'].
    eapply explained_more; [by eapply arch_fetch|]. split; [done|]. split; [|done]. by split.
  - destruct HR as [_ HF]. eapply explained_more; [by eapply arch_fetch_fault|]. split; [done|].
    pose proof (calm_fetch true m (pc (m_hart m)) m (calm_refl m HG)) as HCf. rewrite HF in HCf.
    by eapply engine_settled.
  - exists code, m. split; [done|]. right. right. right. by eexists.
  - exists code, m. split; [done|]. right. right. right. by eexists.
Qed.

Lemma cache_explained base code m it junk gprs stk e :
  engine_ok base code m -> it ∈ live (m_hart m) -> guest_pc it = rd_pc m ->
  run_cache RUN_FUEL junk (tc_offset it) (entry_cpu gprs stk) m = Some e ->
  explained base (code, m) (after_cache e).
Proof.
  intros HE Hin Hpc HRun. pose proof (engine_guest _ _ _ HE) as HG. pose proof HE as [HT HZ HU HW HC HB].
  pose proof (run_cache_typed _ _ _ _ _ _ HT HRun) as HTe.
  destruct (run_cache_spec base code (m_hart m) junk m HW HC HB RUN_FUEL it 0 (entry_cpu gprs stk) m)
    as (k & m1 & HS & _ & HCs & HG1 & HU1 & HR); try done.
  { constructor. } { by apply (enough_fuel base). }
  destruct (isa_arch code k m m1 HS HG) as (HA & _ & _); [by eapply live_nonempty|].
  assert (Hin1 : forall s, stands_for base code m1 s -> explained base (code, m) s).
  { intros s Hs. exists code, m1. split; [done|by right]. }
  destruct HR as [HO|(e' & He & HR)]; [exists code, m1; split; [done|by left]|].
  rewrite HRun in He. injection He as <-.
  destruct HR as [[_ ->]|(i & ins & Hc & Hd & _ & HL)].
  { apply Hin1. split; [done|]. pose proof (engine_settled base code m m1 m1 HE HCs HU1 (calm_refl _ HG1) HTe) as HX.
    unfold remembered in HX. destruct HCs as (_ & _ & En & _). rewrite En in HX.
    by rewrite (proj2 (Z.eqb_neq _ _) (live_nonempty _ _ _ HW Hin)) in HX. }
  assert (Hne : ins = Sys I_EBREAK \/ ins <> Sys I_EBREAK) by (destruct ins as [| |[]]; auto).
  destruct Hne as [->|Hne].
  { exists code, m1. split; [done|]. left. exists i. auto. }
  pose proof (execute_calm i ins m1 Hd Hne HG1) as HX.
  assert (Hstep : forall m2, execute_rv32 ins m1 = Ok tt m2 \/ execute_rv32 ins m1 = Trapped m2 ->
    calm true m1 m2 -> machine_typed m2 -> explained base (code, m) (at_entry m2)).
  { intros m2 H2 Hcalm HT2. exists (remembered code m2), m2. split; [eapply rtc_r; [exact HA|by eapply arch_instruction]|].
    right. split; [done|]. by eapply engine_settled. }
  destruct (execute_rv32 ins m1) as [[] m2|m2|x m2|] eqn:E1; cbn [ends_like] in HL; subst e; cbn [after_cache end_typed] in *.
  - apply Hstep; auto.
  - apply Hstep; auto.
  - apply Hin1. left. exists i, ins. by rewrite E1.
  - apply Hin1. left. exists i, ins. by rewrite E1.
Qed.

Lemma explained_trans base c0 code m s' :
  rtc arch_step c0 (code, m) -> explained base (code, m) s' -> explained base c0 s'.
Proof. intros H1 (code' & m' & H2 & HX). exists code', m'. split; [by etrans|done]. Qed.

Lemma step_explained base c0 s s' : explained base c0 s -> smooth_step base s s' -> explained base c0 s'.
Proof.
  intros (code & m & HA & [HO|HX]) [HS HW]; [exists code, m; auto|].
  apply (explained_trans base c0 code m s' HA).
  destruct HS; cbn [stands_for] in HX.
  - destruct HX as [-> HE]. by apply pump_explained.
  - destruct HX as [-> HE]. by apply resume_explained.
  - destruct HX as (-> & HE & it & -> & Hin & Hpc). by eapply cache_explained.
Qed.
End Simulation.

(** ** Properties *)

Section Properties.
Context `{AssemblerOk}.

(** The machine of the state is within its types. *)
Definition state_typed (s : vmm_state) : Prop :=
  match s with at_entry m | resuming m | in_cache _ m | ended m => machine_typed m | wrong => True end.

Lemma run_explained base code m s :
  engine_ok base code m -> rtc (smooth_step base) (resuming m) s -> explained base (code, m) s.
Proof.
  intros HE HR. revert s HR. apply rtc_ind_r.
  - exists code, m. split; [done|by right].
  - intros s s' _ HS HX. by eapply step_explained.
Qed.

Lemma run_typed s0 s : state_typed s0 -> rtc vmm_step s0 s -> state_typed s.
Proof.
  intros HT HR. revert s HR. apply (rtc_ind_r state_typed); [done|]. intros s s' _ HS HX.
  destruct HS as [m1|m1 r E|off m1 junk gprs stk e E]; cbn [state_typed] in HX.
  - pose proof (gives_pump m1 HX) as HY. by destruct (pump_devices_and_deliver_interrupts m1); [destruct HY|..].
  - pose proof (vmresume_typed m1 r HX E) as HY. by destruct r.
  - pose proof (run_cache_typed _ _ _ _ _ _ HX E) as HY. by destruct e.
Qed.

(** A block that falls through is shorter than what is left of the cache. *)
Lemma run_cache_ends fuel junk off c m :
  machine_typed m -> (0 < fuel)%nat -> TRANSLATION_CACHE_SIZE - off < Z.of_nat fuel \/ off < 0 ->
  exists e, run_cache fuel junk off c m = Some e.
Proof.
  revert off c m. induction fuel as [|fuel IH]; intros off c m HT Hf Hoff; [lia|]. cbn [run_cache].
  destruct (translation_cache (m_hart m) !! off) as [[t ps|]|] eqn:E; [|by eexists..].
  apply (ft_chunks _ (ht_cache _ (mt_hart _ HT))) in E as [H0' H1']. cbn [chunk_size] in H1'.
  pose proof (translation_size_pos (t_indicator t)) as Hpos.
  pose proof (block_keeps_types (junk fuel) t ps c m HT) as HO.
  destruct (run_block _ _ _ _ _ _); try by eexists. apply IH; [exact HO|lia|left; lia].
Qed.

(** From a state within its types there is a step. *)
Lemma typed_goes_on s :
  state_typed s -> match s with ended _ | wrong => True | _ => exists s', vmm_step s s' end.
Proof.
  destruct s as [m'|m'|off m'|m'|]; intros HS; [by eexists; constructor| | |done|done].
  - destruct (vmresume_ends m' HS) as [r E]. eexists. by apply step_resume.
  - destruct (run_cache_ends RUN_FUEL (fun _ _ _ => 0) off (entry_cpu (fun _ => Vint 0) []) m' HS) as [e E];
      unfold RUN_FUEL, TRANSLATION_CACHE_SIZE; [lia..|]. exists (after_cache e). by eapply step_cache.
Qed.

(** C2. The emulator refines the instruction set. Start resuming on a machine whose
    cache is sound, with x0 zero and no breakpoint set, and run the loop - resume, blocks, traps,
    pump, and so on, for any number of steps and with anything in the scratch
    registers - through states that resume well. Then the guest has made a run of the
    specification, which executes no translated code: instructions decoded from the
    words at their pcs and executed as the ISA says; fetches, from the pc on, of the words
    the machine of the moment holds at those addresses, kept until the guest flushes
    them; and interrupts between instructions. The emulator's state is the
    one this run arrives at, cache sound again, unless the run has met a word the ISA
    does not define or EBREAK; and where the process ends or something undefined
    happens, it is the next instruction, the pump or the resumption that does it. *)
Theorem emulator_refines_isa base code m s :
  engine_ok base code m -> rtc (smooth_step base) (resuming m) s ->
  exists code' m', rtc arch_step (code, m) (code', m') /\
    (odd_word code' m' \/ stands_for base code' m' s).
Proof. apply run_explained. Qed.

(** C7. Every field of every state of a run stays within its C type: from a machine
    whose registers, pc, csrs, TLBs, translation cache, memories, devices and debugger
    tables are within the types the source gives them, whatever the guest does, so is
    every machine the loop passes through. In particular nothing is ever written past
    the translation cache or its table of mappings. *)
Theorem runs_stay_typed m s : machine_typed m -> rtc vmm_step (at_entry m) s -> state_typed s.
Proof. intros HT. by apply run_typed. Qed.

End Properties.

(** ** Witnesses *)

Module Witness.
Import Concrete Board.
#[local] Existing Instance sizes.
#[local] Existing Instance sizes_ok.

(** The copy loop of Run.v, with its table of reservations. *)
Definition start : machine :=
  set_reservations (replicate (Z.to_nat MAX_RESERVATION_ITEMS) no_reservation) Run.Witness.copy_loop.

Ltac decided := apply (bool_decide_unpack _); vm_compute; exact I.

Lemma start_typed : machine_typed start.
Proof.
  split; try decided.
  - split; try decided. split; decided.
  - split; decided.
  - split; [split|..]; decided.
  - split; [split|..]; decided.
Qed.

Lemma start_ok base : engine_ok base ∅ start.
Proof.
  split; [exact start_typed|done|done| | |].
  - apply (cache_same_wf _ (empty_hart 0x80000000)); [done|apply empty_cache_wf].
  - intros it t ps Hin. by apply elem_of_nil in Hin.
  - apply Forall_nil_2.
Qed.

(** A round: the words are fetched and translated, and the blocks are run. *)
Definition translated_state : vmm_state :=
  match vmresume start with Some r => after in_cache r | None => wrong end.
Definition next_state : vmm_state :=
  match translated_state with
  | in_cache off m =>
      match run_cache RUN_FUEL (fun _ _ _ => 7) off (entry_cpu (fun _ => Vint 0) []) m with
      | Some e => after_cache e
      | None => wrong
      end
  | s => s
  end.

Lemma emulator_refines_isa_witness :
  exists code' m', rtc arch_step (∅, start) (code', m') /\ (odd_word code' m' \/ stands_for 0x80000000 code' m' next_state).
Proof.
  apply (emulator_refines_isa 0x80000000 ∅ start next_state (start_ok _)).
  assert (HS : vmm_step (resuming start) translated_state).
  { unfold translated_state. destruct (vmresume start) as [r|] eqn:E; [by apply step_resume|].
    pose proof (vmresume_ends start start_typed) as [r E']. by rewrite E in E'. }
  apply (rtc_l _ _ translated_state); [split; [exact HS|split]|].
  - exact Run.Witness.copy_window.
  - vm_compute. left. discriminate.
  - apply rtc_once. split; [|vm_compute; exact I].
    assert (Hs : match translated_state with
                 | in_cache off m => bool_decide (is_Some (run_cache RUN_FUEL (fun _ _ _ => 7) off (entry_cpu (fun _ => Vint 0) []) m))
                 | _ => false end = true) by (vm_compute; reflexivity).
    unfold next_state. destruct translated_state as [|m|off m| |]; try done.
    destruct (run_cache _ _ _ _ _) as [e|] eqn:E; [|done]. by eapply step_cache.
Defined.

Lemma runs_stay_typed_witness : state_typed (after (fun _ => resuming) (pump_devices_and_deliver_interrupts start)).
Proof. apply (runs_stay_typed start); [exact start_typed|apply rtc_once, step_pump]. Defined.

End Witness.
