(* ===== verification/Fault.v ===== *)
(** * A trap during a prefetch

    What [prefetch_instructions] of src/vmm/translation.c leaves when the fetch of a word
    traps after others have been translated: [do_trap] does not come back to the code that
    appends the jumper. The definitions are those of Engine.v and Run.v.

    Proved here: in general, and for a page fault at the end of a page, the block
    translated last then runs on into the block of the trap handler. *)

From S2P Require Import Prelude SortSearch Monad PmRegion X86 Hart Decode TransArith TransControl TransMem TransSys.
From S2P Require Import Trap Clint Plic Uart Machine Mmu CsrHandlers Engine.
From S2P Require Import BlockFacts Refine Calls BlockSys Run Typing Emulator.
Local Open Scope Z_scope.

Section Facts.
Context `{AssemblerOk}.

(** The last block of the cache falls through, into nothing yet: the instruction after it
    is at [a]. *)
Definition open_last (h : hart) (a : Z) : Prop :=
  exists it t ps, it ∈ live h /\ block_at h (tc_offset it) t ps /\ template_falls t = true /\
    tc_offset it + translation_size (t_indicator t) = translation_cache_ptr h /\ u32 (guest_pc it + 4) = a.

(** Every translation of [h] is still in place in [h']. *)
Definition kept_blocks (h h' : hart) : Prop :=
  forall it t ps, it ∈ live h -> block_at h (tc_offset it) t ps -> it ∈ live h' /\ block_at h' (tc_offset it) t ps.

Lemma kept_blocks_refl h : kept_blocks h h.
Proof. by intros it t ps. Qed.
Lemma kept_blocks_trans h1 h2 h3 : kept_blocks h1 h2 -> kept_blocks h2 h3 -> kept_blocks h1 h3.
Proof. intros H1 H2 it t ps Hin Hb. destruct (H1 it t ps Hin Hb). by apply H2. Qed.
Lemma kept_blocks_same h h' : cache_same h h' -> kept_blocks h h'.
Proof. intros HS it t ps. unfold block_at. by rewrite (cache_same_live _ _ HS), (proj1 HS). Qed.
Lemma kept_blocks_added base h a t ps h' : cache_wf base h -> added base h a t ps h' -> kept_blocks h h'.
Proof.
  intros HW HA it t0 ps0 Hin Hb. rewrite (added_live _ _ _ _ _ _ HA). split; [by right|].
  pose proof (added_kept _ _ _ _ _ _ HA) as HK. rewrite Forall_forall in HK. by apply (HK it Hin).
Qed.
Lemma kept_blocks_jumper base h : cache_wf base h -> kept_blocks h (append_jumper h).
Proof.
  intros HW it t ps Hin Hb. split; [done|]. pose proof (wf_placed _ _ HW) as HP. rewrite Forall_forall in HP.
  destruct (HP it Hin) as (t0 & ps0 & Hb0 & _ & Hhi). unfold block_at in *. rewrite Hb in Hb0. simplify_eq.
  by apply jumper_kept.
Qed.

(** Room for one more block, whichever it is. *)
Definition has_room (h : hart) : Prop := forall i, translation_size i <= unoccupied_cache_size h.

(** *** One word *)

Lemma one_word base b m b1 m1 :
  let a := next_instruction_to_fetch b in
  cache_wf base (m_hart m) -> is_uint 32 a -> in_window base a -> ~ translated (m_hart m) a ->
  prefetch_one_instruction b m = Ok b1 m1 ->
  cache_wf base (m_hart m1) /\
  (is_to_stop b1 = false ->
     is_flushable b1 = false /\ next_instruction_to_fetch b1 = u32 (a + 4) /\ open_last (m_hart m1) (u32 (a + 4)) /\
     (1 <= length (live (m_hart m1)))%nat /\
     (is_flushable b = false -> (S (length (live (m_hart m))) <= length (live (m_hart m1)))%nat)) /\
  (is_flushable b = false \/ has_room (m_hart m) -> kept_blocks (m_hart m) (m_hart m1)) /\
  (has_room (m_hart m) -> {| guest_pc := a; tc_offset := translation_cache_ptr (m_hart m) |} ∈ live (m_hart m1)).
Proof.
  intros a HW Hu Hw Hnew E.
  destruct (prefetch_one_spec base b m b1 m1 HW Hu Hw Hnew E) as (i & mi & t & ps & Ei & _ & HR).
  pose proof (cache_same_itlb _ _ (proj1 (proj2 (fetch_frame _ _ _ _ Ei)))) as HS.
  pose proof (cache_same_wf _ _ _ HS HW) as HWi. pose proof (cache_same_live _ _ HS) as HL.
  destruct HS as (S1 & S2 & S3 & S4).
  assert (HS : cache_same (m_hart m) (m_hart mi)) by done.
  assert (Eroom : unoccupied_cache_size (m_hart mi) = unoccupied_cache_size (m_hart m))
    by (unfold unoccupied_cache_size; by rewrite S2, S3).
  inversion HR as [h0 h' Hh0 HA Eb Eh|Hf Hfull Eb Eh]; subst.
  - assert (HW0 : cache_wf base h0) by (destruct Hh0 as [->|(-> & _)]; [done|by apply flush_cache_wf]).
    split; [apply (added_wf _ _ _ _ _ _ HA)|]. split; [|split].
    + unfold epilogue_for. destruct (template_falls t) eqn:Ef; [|done]. intros _. do 2 (split; [done|]).
      split; [|split].
      * exists {| guest_pc := a; tc_offset := translation_cache_ptr h0 |}, t, (map u32 ps).
        rewrite (added_live _ _ _ _ _ _ HA). split; [by left|]. split; [apply (added_block _ _ _ _ _ _ HA)|].
        split; [done|]. by rewrite (added_ptr _ _ _ _ _ _ HA).
      * rewrite (Permutation_length (added_live _ _ _ _ _ _ HA)). cbn. lia.
      * intros Hfl. destruct Hh0 as [->|(_ & Hfl' & _)]; [|congruence].
        rewrite (Permutation_length (added_live _ _ _ _ _ _ HA)). cbn. by rewrite HL.
    + intros Hor. destruct Hh0 as [->|(_ & Hfl & Hno)].
      * eapply kept_blocks_trans; [by apply kept_blocks_same|]. by eapply kept_blocks_added.
      * exfalso. destruct Hor as [Hfl'|Hr]; [congruence|]. specialize (Hr (t_indicator t)). lia.
    + intros Hr. destruct Hh0 as [->|(_ & _ & Hno)].
      * rewrite (added_live _ _ _ _ _ _ HA), <- S2. by left.
      * exfalso. specialize (Hr (t_indicator t)). lia.
  - split; [done|]. split; [done|]. split; [intros _; by apply kept_blocks_same|].
    intros Hr. exfalso. specialize (Hr (t_indicator t)). lia.
Qed.

(** *** The rounds after the first *)

Record further (base pc0 : Z) (j : nat) (b : prefetch_blob) (h : hart) : Prop := {
  fu_wf : cache_wf base h;
  fu_next : next_instruction_to_fetch b = u32 (pc0 + 4 * Z.of_nat j);
  fu_flush : is_flushable b = false;
  fu_open : open_last h (next_instruction_to_fetch b);
  fu_count : (j <= length (live h))%nat
}.

Lemma further_word base pc0 j b h :
  prefetch_window base pc0 -> further base pc0 j b h ->
  is_uint 32 (next_instruction_to_fetch b) /\ in_window base (next_instruction_to_fetch b) /\
  exists o, search_translation_item h (next_instruction_to_fetch b) = Some o /\
    match o with Some _ => True | None => ~ translated h (next_instruction_to_fetch b) end.
Proof.
  intros Hwin [HW Hn _ _ Hj].
  assert (Hjmax : 0 <= Z.of_nat j <= MAX_INSTRUCTIONS_TOTRANSLATE).
  { pose proof (wf_nr _ _ HW). rewrite <- (live_length base) in * by done. lia. }
  assert (Hu : is_uint 32 (next_instruction_to_fetch b)) by (rewrite Hn; apply u32_range).
  assert (Hw : in_window base (next_instruction_to_fetch b)) by (rewrite Hn; by apply Hwin).
  split; [done|]. split; [done|].
  destruct (search_translation_item_spec base h _ HW Hu Hw) as (o & Es & Ho). exists o. split; [done|]. by destruct o.
Qed.

Lemma further_step base pc0 j b m b1 m1 :
  prefetch_window base pc0 -> further base pc0 j b (m_hart m) -> ~ translated (m_hart m) (next_instruction_to_fetch b) ->
  prefetch_one_instruction b m = Ok b1 m1 ->
  kept_blocks (m_hart m) (m_hart m1) /\ cache_wf base (m_hart m1) /\
  (is_to_stop b1 = false -> further base pc0 (S j) b1 (m_hart m1)).
Proof.
  intros Hwin HF Hnew E. destruct (further_word base pc0 j b (m_hart m) Hwin HF) as (Hu & Hw & _).
  destruct HF as [HW Hn Hfl _ Hj]. destruct (one_word base b m b1 m1 HW Hu Hw Hnew E) as (HW1 & Hgo & HK & _).
  split; [apply HK; by left|]. split; [done|]. intros Hstop. destruct (Hgo Hstop) as (G1 & G2 & G3 & _ & G5).
  specialize (G5 Hfl). split; [done| |done|by rewrite G2|lia].
  rewrite G2, Hn, u32_add_l. f_equal. lia.
Qed.

(** A trap in the middle: the fetch of the word after the last block. *)
Lemma loop_trapped base pc0 fuel : prefetch_window base pc0 -> forall j b m m',
  further base pc0 j b (m_hart m) -> prefetch_loop fuel b m = Trapped m' ->
  exists mk a, cache_wf base (m_hart mk) /\ open_last (m_hart mk) a /\ mmu_instruction_read32 a mk = Trapped m'.
Proof.
  intros Hwin. induction fuel as [|fuel IH]; intros j b m m' HF E; [done|].
  destruct (further_word base pc0 j b (m_hart m) Hwin HF) as (_ & _ & o & Es & Ho).
  cbn [prefetch_loop] in E. unfold bind at 1, search_hart in E. rewrite Es in E. destruct o; [done|]. cbn [of_opt] in E.
  unfold ret at 1, bind in E. destruct (prefetch_one_instruction b m) as [b1 m1|m1| |] eqn:E1; [| |done..].
  - destruct (further_step base pc0 j b m b1 m1 Hwin HF Ho E1) as (_ & _ & HN).
    destruct (is_to_stop b1); [done|]. by apply (IH (S j) b1 m1 m' (HN eq_refl)).
  - injection E as <-. exists m, (next_instruction_to_fetch b). split; [apply HF|]. split; [apply HF|].
    revert E1. unfold prefetch_one_instruction, bind. destruct (mmu_instruction_read32 _ m) as [i mi|mi| |]; [|by intros [= <-]|done..].
    destruct (translators _) as [tr|]; [|done]. by destruct (tr i b (m_hart mi)) as [[]|].
Qed.

Lemma loop_keeps base pc0 fuel : prefetch_window base pc0 -> forall j b m fin m',
  further base pc0 j b (m_hart m) -> prefetch_loop fuel b m = Ok fin m' ->
  kept_blocks (m_hart m) (m_hart m') /\ cache_wf base (m_hart m').
Proof.
  intros Hwin. induction fuel as [|fuel IH]; intros j b m fin m' HF E.
  { injection E as _ <-. split; [apply kept_blocks_refl|apply HF]. }
  destruct (further_word base pc0 j b (m_hart m) Hwin HF) as (_ & _ & o & Es & Ho).
  cbn [prefetch_loop] in E. unfold bind at 1, search_hart in E. rewrite Es in E. cbn [of_opt] in E. unfold ret at 1 in E.
  destruct o; [injection E as _ <-; split; [apply kept_blocks_refl|apply HF]|].
  unfold bind in E. destruct (prefetch_one_instruction b m) as [b1 m1| | |] eqn:E1; [|done..].
  destruct (further_step base pc0 j b m b1 m1 Hwin HF Ho E1) as (HK & HW1 & HN).
  destruct (is_to_stop b1); [injection E as _ <-; done|].
  destruct (IH (S j) b1 m1 fin m' (HN eq_refl) E) as [HK' HW']. split; [by eapply kept_blocks_trans|done].
Qed.

(** The first round of a prefetch, from a pc that is not translated. *)
Lemma first_word base m :
  let pc0 := pc (m_hart m) in
  cache_wf base (m_hart m) -> is_uint 32 pc0 -> prefetch_window base pc0 -> ~ translated (m_hart m) pc0 ->
  exists n, prefetch_loop PREFETCH_FUEL (first_blob pc0) m =
    (let* b := prefetch_one_instruction (first_blob pc0) in if is_to_stop b then ret true else prefetch_loop n b) m.
Proof.
  intros pc0 HW Hu Hwin Hnew. destruct prefetch_fuel_rounds as (n & -> & _). exists n.
  cbn [prefetch_loop next_instruction_to_fetch first_blob]. unfold bind at 1, search_hart.
  destruct (search_translation_item_spec base _ _ HW Hu (window_start _ _ Hu Hwin)) as (o & Es & Ho). fold pc0 in Es. rewrite Es.
  destruct o as [it|]; [|done]. destruct Hnew. destruct Ho as [Hin <-]. by apply list_elem_of_fmap_2.
Qed.

(** The fetch has left the cache alone, or the trap has flushed it. *)
Lemma fetch_trap_cache a m m' : mmu_instruction_read32 a m = Trapped m' ->
  cache_same (m_hart m) (m_hart m') \/ live (m_hart m') = [].
Proof.
  intros E. assert (HC : calm false m m) by (split; [split; [by left|done|done]|done]).
  pose proof (calm_fetch false m a m HC) as HF. rewrite E in HF. destruct HF as [[[HF|HF] _ _] _]; [by left|right].
  by rewrite (cache_same_live _ _ HF).
Qed.

(** A prefetch that traps after it has translated the guest's pc. *)
Lemma prefetch_trapped base m m1 :
  cache_wf base (m_hart m) -> is_uint 32 (pc (m_hart m)) -> prefetch_window base (pc (m_hart m)) ->
  ~ translated (m_hart m) (pc (m_hart m)) -> prefetch_instructions m = Trapped m1 ->
  translated (m_hart m1) (pc (m_hart m)) ->
  exists mk a, cache_wf base (m_hart m1) /\ open_last (m_hart m1) a /\ mmu_instruction_read32 a mk = Trapped m1.
Proof.
  intros HW Hu Hwin Hnew E Htr. unfold prefetch_instructions, bind, gets in E. cbv zeta in E. fold (first_blob (pc (m_hart m))) in E.
  destruct (first_word base m HW Hu Hwin Hnew) as (n & EL). rewrite EL in E. unfold bind in E.
  assert (HT : exists mk a, cache_wf base (m_hart mk) /\ (open_last (m_hart mk) a \/ mk = m) /\
    mmu_instruction_read32 a mk = Trapped m1).
  { destruct (prefetch_one_instruction _ m) as [b1 mi|mi| |] eqn:E1; [| |done..].
    - destruct (one_word base (first_blob (pc (m_hart m))) m b1 mi HW Hu (window_start _ _ Hu Hwin) Hnew E1) as (HW1 & Hgo & _).
      destruct (is_to_stop b1); [done|]. destruct (Hgo eq_refl) as (G1 & G2 & G3 & G4 & _).
      destruct (loop_trapped base (pc (m_hart m)) n Hwin 1 b1 mi m1) as (mk & a & ? & ? & ?).
      + split; [done| |done|by rewrite G2|done]. by rewrite G2.
      + destruct (prefetch_loop n b1 mi); [done|by injection E as <-|done..].
      + exists mk, a. auto.
    - injection E as <-. exists m, (pc (m_hart m)). split; [done|]. split; [by right|].
      revert E1. unfold prefetch_one_instruction, bind. cbn [first_blob next_instruction_to_fetch].
      destruct (mmu_instruction_read32 _ m) as [i m2|m2| |]; [|by intros [= <-]|done..].
      destruct (translators _) as [tr|]; [|done]. by destruct (tr i _ (m_hart m2)) as [[]|]. }
  destruct HT as (mk & a & HWk & Ho & Ef). destruct (fetch_trap_cache a mk m1 Ef) as [HS|HL].
  2: { unfold translated in Htr. rewrite HL in Htr. by apply elem_of_nil in Htr. }
  exists mk, a. split; [by eapply cache_same_wf|]. split; [|done].
  destruct Ho as [(it & t & ps & Hin & Hb & Hf & Hend & Ha)|Em].
  - exists it, t, ps. rewrite (cache_same_live _ _ HS). unfold block_at in *. destruct HS as (-> & -> & _). done.
  - subst mk. by rewrite (cache_same_translated _ _ _ HS) in Htr.
Qed.

(** A prefetch that goes through with room to spare keeps every block and puts the first
    one of its own where the cache ended. *)
Lemma prefetch_behind base m fin m' :
  cache_wf base (m_hart m) -> is_uint 32 (pc (m_hart m)) -> prefetch_window base (pc (m_hart m)) ->
  ~ translated (m_hart m) (pc (m_hart m)) -> has_room (m_hart m) -> prefetch_instructions m = Ok fin m' ->
  kept_blocks (m_hart m) (m_hart m') /\ NoDup (tc_offset <$> live (m_hart m')) /\
  (forall it, it ∈ live (m_hart m') -> exists t ps, block_at (m_hart m') (tc_offset it) t ps) /\
  {| guest_pc := pc (m_hart m); tc_offset := translation_cache_ptr (m_hart m) |} ∈ live (m_hart m').
Proof.
  intros HW Hu Hwin Hnew Hroom E. unfold prefetch_instructions, bind, gets in E. cbv zeta in E. fold (first_blob (pc (m_hart m))) in E.
  set (it0 := {| guest_pc := pc (m_hart m); tc_offset := translation_cache_ptr (m_hart m) |}).
  destruct (first_word base m HW Hu Hwin Hnew) as (n & EL). rewrite EL in E. unfold bind in E.
  destruct (prefetch_one_instruction _ m) as [b1 m1| | |] eqn:E1; [|done..].
  destruct (one_word base (first_blob (pc (m_hart m))) m b1 m1 HW Hu (window_start _ _ Hu Hwin) Hnew E1)
    as (HW1 & Hgo & HK1 & Hin1).
  specialize (HK1 (or_intror Hroom)). specialize (Hin1 Hroom). cbn [first_blob next_instruction_to_fetch] in Hin1. fold it0 in Hin1.
  assert (HL : exists m2, kept_blocks (m_hart m1) (m_hart m2) /\ cache_wf base (m_hart m2) /\
    (m' = m2 \/ m' = set_m_hart (append_jumper (m_hart m2)) m2)).
  { unfold modify, ret in E. destruct (is_to_stop b1).
    - exists m1. split; [apply kept_blocks_refl|]. split; [done|]. injection E as _ <-. case_test; auto.
    - destruct (Hgo eq_refl) as (G1 & G2 & G3 & G4 & _). destruct (prefetch_loop n b1 m1) as [f2 m2| | |] eqn:E2; [|done..].
      destruct (loop_keeps base (pc (m_hart m)) n Hwin 1 b1 m1 f2 m2) as [HK2 HW2]; [|done|].
      + split; [done| |done|by rewrite G2|done]. by rewrite G2.
      + exists m2. split; [done|]. split; [done|]. injection E as _ <-. case_test; auto. }
  destruct HL as (m2 & HK2 & HW2 & Em). pose proof (wf_placed _ _ HW1) as HP1. rewrite Forall_forall in HP1.
  pose proof (wf_placed _ _ HW2) as HP2. rewrite Forall_forall in HP2.
  assert (HK3 : kept_blocks (m_hart m2) (m_hart m')).
  { destruct Em as [->| ->]; [apply kept_blocks_refl|by apply (kept_blocks_jumper base)]. }
  assert (HL3 : live (m_hart m') = live (m_hart m2)) by by destruct Em as [->| ->].
  split; [by eapply kept_blocks_trans, kept_blocks_trans|]. rewrite HL3. split; [apply (wf_nodup_off _ _ HW2)|]. split.
  - intros it Hin. destruct (HP2 it Hin) as (t & ps & Hb & _). exists t, ps. by apply HK3.
  - destruct (HP1 it0 Hin1) as (t & ps & Hb & _). by destruct (HK2 it0 t ps Hin1 Hb).
Qed.

(** Two items at one offset are the same. *)
Lemma same_offset (l : list program_counter_mapping_item) it it' :
  NoDup (tc_offset <$> l) -> it ∈ l -> it' ∈ l -> tc_offset it = tc_offset it' -> it = it'.
Proof.
  intros HN [i Hi]%list_elem_of_lookup [j Hj]%list_elem_of_lookup E.
  assert (i = j) as ->; [|congruence]. rewrite NoDup_alt in HN. apply (HN i j (tc_offset it)); rewrite list_lookup_fmap.
  - by rewrite Hi.
  - by rewrite Hj, E.
Qed.

(** ** Property *)

(** C38. A trap cuts a prefetch short. Let a prefetch have translated the guest's pc and
    more, when the fetch of the next word traps without a change of address space. The
    jumper that should close the cache is then missing behind the last block. Let the
    prefetch that follows, of the trap handler, find room and go through: it puts the
    handler's block right there. From then on the last block runs on into the trap
    handler's: whenever it is executed and falls through, what is executed next is the
    handler's block, although the guest's pc is the word whose fetch trapped; and the
    cache is no longer chained. *)
Theorem prefetch_fault_unchains base m m1 fin m2 :
  let h := m_hart m in let h1 := m_hart m1 in let h2 := m_hart m2 in
  cache_wf base h -> is_uint 32 (pc h) -> prefetch_window base (pc h) ->
  ~ translated h (pc h) -> prefetch_instructions m = Trapped m1 -> translated h1 (pc h) ->
  is_uint 32 (pc h1) -> prefetch_window base (pc h1) ->
  ~ translated h1 (pc h1) -> has_room h1 -> prefetch_instructions m1 = Ok fin m2 ->
  exists last handler t ps,
    (exists mk, mmu_instruction_read32 (u32 (guest_pc last + 4)) mk = Trapped m1) /\
    last ∈ live h2 /\ block_at h2 (tc_offset last) t ps /\ template_falls t = true /\
    handler ∈ live h2 /\ guest_pc handler = pc h1 /\
    (forall fuel junk c m3 c' m4, cache_same h2 (m_hart m3) ->
       run_block machine_call (junk fuel) t ps c m3 = XFall c' m4 ->
       run_cache (S fuel) junk (tc_offset last) c m3 = run_cache fuel junk (tc_offset handler) c' m4) /\
    (pc h1 <> u32 (guest_pc last + 4) -> ~ chained h2).
Proof.
  intros h h1 h2 HW Hu Hwin Hnew E1 Htr Hu1 Hwin1 Hnew1 Hroom E2.
  destruct (prefetch_trapped base m m1 HW Hu Hwin Hnew E1 Htr) as (mk & a & HW1 & (last & t & ps & Hin & Hb & Hf & Hend & Ha) & Ek).
  destruct (prefetch_behind base m1 fin m2 HW1 Hu1 Hwin1 Hnew1 Hroom E2) as (HK & HN & HP & Hin2).
  destruct (HK last t ps Hin Hb) as [Hin' Hb']. fold h1 in Hend, Hin2. fold h2 in HN, HP, Hin2, Hin', Hb'.
  set (handler := {| guest_pc := pc h1; tc_offset := translation_cache_ptr h1 |}) in *.
  exists last, handler, t, ps. split; [exists mk; by rewrite Ha|]. do 5 (split; [done|]). split.
  - intros fuel junk c m3 c' m4 [HS _] HR. cbn [run_cache]. rewrite HS. unfold block_at in Hb'. rewrite Hb', HR.
    by rewrite Hend.
  - intros Hpc HC. destruct (chained_linked h2 last t ps HC Hin' Hb' Hf) as [[HJ _]|(it & Hit & Ho & Hp)]; rewrite Hend in *.
    + destruct (HP handler Hin2) as (t' & ps' & Hb2). unfold block_at in Hb2. cbn [tc_offset handler] in Hb2. congruence.
    + rewrite (same_offset _ it handler HN Hit Hin2 Ho) in Hp. by apply Hpc.
Qed.
End Facts.

(** ** Witness: a page fault at the end of a page *)

Module Witness.
Import Concrete Board.
#[local] Existing Instance sizes.
#[local] Existing Instance sizes_ok.

(** Supervisor level with paging on; the page at 0x400000 is mapped, the next one is
    not. Instruction page faults are delegated and their handler, an ecall here, is
    at 0x400000. The pc is at the last word of the page, addi zero, zero, 0. *)
Definition page_end_hart : hart :=
  put_csr_blob CSR_ADDRESS_SATP 0x80080000 (put_csr_blob CSR_ADDRESS_MEDELEG 0x1000
    (put_csr_blob CSR_ADDRESS_STVEC 0x400000
      (set_privilege_level PRIVILEGE_LEVEL_SUPERVISOR (empty_hart 0x400ffc)))).
Definition page_end : machine :=
  board page_end_hart [(4, 0x20000401); (0x1000, 0x2000080f); (0x2000, 0x73); (0x2ffc, 0x13)].

Definition page_end_trapped : machine := default page_end (final (prefetch_instructions page_end)).
Definition page_end_resumed : machine :=
  default page_end (final (prefetch_instructions page_end_trapped)).

Definition last_word : program_counter_mapping_item := {| guest_pc := 0x400ffc; tc_offset := 0 |}.
Definition handler : program_counter_mapping_item := {| guest_pc := 0x400000; tc_offset := 64 |}.

Lemma resumed_live : live (m_hart page_end_resumed) = [handler; last_word].
Proof. by vm_compute. Qed.

Lemma resumed_window pc0 : u32 (pc0 - 0x400000) < 0x1000 -> prefetch_window 0x400000 pc0.
Proof. intros Hb. apply Engine.Witness.window_of. unfold MAX_INSTRUCTIONS_TOTRANSLATE. lia. Qed.

Lemma prefetch_fault_unchains_witness :
  exists last handler t ps,
    (exists mk, mmu_instruction_read32 (u32 (guest_pc last + 4)) mk = Trapped page_end_trapped) /\
    last ∈ live (m_hart page_end_resumed) /\ block_at (m_hart page_end_resumed) (tc_offset last) t ps /\
    template_falls t = true /\ handler ∈ live (m_hart page_end_resumed) /\ guest_pc handler = 0x400000 /\
    (forall fuel junk c m3 c' m4, cache_same (m_hart page_end_resumed) (m_hart m3) ->
       run_block machine_call (junk fuel) t ps c m3 = XFall c' m4 ->
       run_cache (S fuel) junk (tc_offset last) c m3 = run_cache fuel junk (tc_offset handler) c' m4) /\
    (0x400000 <> u32 (guest_pc last + 4) -> ~ chained (m_hart page_end_resumed)).
Proof.
  apply (prefetch_fault_unchains 0x400000 page_end page_end_trapped true page_end_resumed).
  - by apply (cache_same_wf _ (empty_hart 0x400ffc)), empty_cache_wf.
  - by vm_compute.
  - apply resumed_window. by vm_compute.
  - intros Hin. by apply elem_of_nil in Hin.
  - by vm_compute.
  - unfold translated. apply (bool_decide_unpack _). vm_compute. exact I.
  - by vm_compute.
  - apply resumed_window. by vm_compute.
  - unfold translated. apply (bool_decide_unpack _). vm_compute. exact I.
  - intros i. transitivity 64; [by destruct i|by vm_compute].
  - by vm_compute.
Defined.

(** The wrong execution itself: from the last word of the page, the run comes to the
    handler's ecall with the guest's pc on the page that is not mapped. *)
Example last_word_runs_handler :
  match run_cache RUN_FUEL (fun _ _ _ => 0) 0 (entry_cpu (fun _ => Vint 0) []) (set_m_hart (set_pc 0x400ffc (m_hart page_end_resumed)) page_end_resumed) with
  | Some (by_trap m) => blob (m_hart m) CSR_ADDRESS_MEPC = 0x401000
  | _ => False
  end.
Proof. by vm_compute. Qed.
End Witness.
