(* ===== verification/Bytes.v ===== *)
(** * Buffers of bytes

    A C array of bytes is a list of integers below 256, an offset in it an integer; an
    access outside the array has no result. Words in a buffer are little-endian, as the
    host stores them, or byte-swapped by the macro the device tree and the hash code
    share ([BIG_ENDIAN32], [ALIGN32] of src/vmm/util.h and src/bootrom/fdt.h).

    Proved here: stores and loads in a buffer given by its parts, the bytes of words,
    and that storing a swapped word lays it down big-endian and reading it back
    through the macro gives the word. *)

From S2P Require Import Prelude.
Local Open Scope Z_scope.

Abbreviation is_byte := (is_uint 8).
Abbreviation bytes_ok := (Forall (is_uint 8)).

Definition len {A} (l : list A) : Z := Z.of_nat (length l).

Lemma len_nonneg {A} (l : list A) : 0 <= len l.
Proof. unfold len. lia. Qed.
Lemma len_app {A} (l k : list A) : len (l ++ k) = len l + len k.
Proof. unfold len. rewrite length_app. lia. Qed.
Lemma len_nil {A} : len (@nil A) = 0.
Proof. done. Qed.
Lemma len_cons {A} (x : A) l : len (x :: l) = 1 + len l.
Proof. unfold len. cbn [length]. lia. Qed.
Lemma len_replicate {A} n (x : A) : len (replicate n x) = Z.of_nat n.
Proof. unfold len. by rewrite length_replicate. Qed.

Create Rewrite HintDb len.
#[export] Hint Rewrite @len_app @len_nil @len_cons @len_replicate : len.

(** ** Accesses *)

Definition in_buffer (off n : Z) (buf : list Z) : bool := (0 <=? off) && (off + n <=? len buf).

Definition store_at (off : Z) (bytes buf : list Z) : option (list Z) :=
  if in_buffer off (len bytes) buf
  then Some (take (Z.to_nat off) buf ++ bytes ++ drop (Z.to_nat off + length bytes) buf)
  else None.

Definition load_at (off n : Z) (buf : list Z) : option (list Z) :=
  if (0 <=? n) && in_buffer off n buf then Some (take (Z.to_nat n) (drop (Z.to_nat off) buf)) else None.

Lemma store_at_app off pre mid post bytes :
  off = len pre -> len bytes = len mid ->
  store_at off bytes (pre ++ mid ++ post) = Some (pre ++ bytes ++ post).
Proof.
  intros -> Hb. unfold store_at, in_buffer. autorewrite with len.
  pose proof (len_nonneg pre). pose proof (len_nonneg post).
  rewrite (proj2 (Z.leb_le _ _)), (proj2 (Z.leb_le _ _)) by lia. cbn [andb]. unfold len in *.
  rewrite Nat2Z.id, take_app_length. do 3 f_equal. rewrite <- drop_drop, drop_app_length.
  apply drop_app_length'. lia.
Qed.

Lemma load_at_app off n pre mid post :
  off = len pre -> n = len mid -> load_at off n (pre ++ mid ++ post) = Some mid.
Proof.
  intros -> ->. unfold load_at, in_buffer. autorewrite with len.
  pose proof (len_nonneg pre). pose proof (len_nonneg mid). pose proof (len_nonneg post).
  rewrite !(proj2 (Z.leb_le _ _)) by lia. cbn [andb]. unfold len.
  by rewrite !Nat2Z.id, drop_app_length, take_app_length.
Qed.

Lemma len_store off bytes buf buf' : store_at off bytes buf = Some buf' -> len buf' = len buf.
Proof.
  unfold store_at, in_buffer. case_test; [|done]. to_prop. intros [= <-]. unfold len in *.
  rewrite !length_app, length_take, length_drop. lia.
Qed.

(** The C string at an offset: the bytes before the first zero. *)
Fixpoint until_zero (buf : list Z) : option (list Z) :=
  match buf with
  | [] => None
  | c :: buf => if c =? 0 then Some [] else s ← until_zero buf; Some (c :: s)
  end.

Definition string_at (off : Z) (buf : list Z) : option (list Z) :=
  if (0 <=? off) && (off <=? len buf) then until_zero (drop (Z.to_nat off) buf) else None.

(** A C string has no zero inside. *)
Definition c_string (s : list Z) : Prop := Forall (fun c => c <> 0) s.

Lemma until_zero_app s rest : c_string s -> until_zero (s ++ 0 :: rest) = Some s.
Proof.
  induction 1 as [|c s Hc HF IH]; [done|]. cbn [app until_zero].
  destruct (Z.eqb_spec c 0); [done|]. by rewrite IH.
Qed.

Lemma string_at_app off pre s rest :
  off = len pre -> c_string s -> string_at off (pre ++ s ++ 0 :: rest) = Some s.
Proof.
  intros -> Hs. unfold string_at. autorewrite with len. pose proof (len_nonneg pre).
  pose proof (len_nonneg s). pose proof (len_nonneg rest).
  rewrite !(proj2 (Z.leb_le _ _)) by lia. cbn [andb]. unfold len.
  by rewrite Nat2Z.id, drop_app_length, until_zero_app.
Qed.

(** ** Words *)

Fixpoint le_bytes (n : nat) (v : Z) : list Z :=
  match n with
  | O => []
  | S n => v mod 256 :: le_bytes n (v / 256)
  end.

Definition le_value (l : list Z) : Z := foldr (fun b v => b + 256 * v) 0 l.

Definition le32 (v : Z) : list Z := le_bytes 4 v.
(** Most significant byte first. *)
Definition be32 (v : Z) : list Z := rev (le32 v).
Definition be_value (l : list Z) : Z := le_value (rev l).

Definition load32_at (off : Z) (buf : list Z) : option Z := b ← load_at off 4 buf; Some (le_value b).

Lemma len_le_bytes n v : len (le_bytes n v) = Z.of_nat n.
Proof. revert v. induction n as [|n IH]; intros v; [done|]. cbn [le_bytes]. rewrite len_cons, IH. lia. Qed.
Lemma len_le32 v : len (le32 v) = 4.
Proof. done. Qed.
Lemma len_be32 v : len (be32 v) = 4.
Proof. done. Qed.
#[export] Hint Rewrite len_le32 len_be32 : len.

Lemma le_bytes_ok n v : bytes_ok (le_bytes n v).
Proof.
  revert v. induction n as [|n IH]; intros v; cbn [le_bytes]; constructor; [|apply IH].
  apply Z.mod_pos_bound. lia.
Qed.
Lemma be32_ok v : bytes_ok (be32 v).
Proof. apply Forall_rev, le_bytes_ok. Qed.

Lemma le_value_bytes n v : le_value (le_bytes n v) = v mod 2 ^ (8 * Z.of_nat n).
Proof.
  revert v. induction n as [|n IH]; intros v; cbn [le_bytes le_value foldr]; [by rewrite Z.mod_1_r|].
  fold (le_value (le_bytes n (v / 256))). rewrite IH.
  replace (8 * Z.of_nat (S n)) with (8 + 8 * Z.of_nat n) by lia.
  rewrite Z.pow_add_r, Z.rem_mul_r by (try apply Z.pow_pos_nonneg; lia). done.
Qed.

Lemma le_value32 v : le_value (le32 v) = u32 v.
Proof. apply le_value_bytes. Qed.

Lemma be_value32 v : be_value (be32 v) = u32 v.
Proof. unfold be_value, be32. rewrite rev_involutive. apply le_value32. Qed.

(** The macro [LITTLE_ENDIAN32], and [BIG_ENDIAN32], which is the same.
    src/vmm/util.h:20-25 LITTLE_ENDIAN32 *)
Definition swap32 (v : Z) : Z :=
  Z.lor (Z.lor (Z.lor (u32 (Z.shiftl (Z.land v 0xff) 24)) (u32 (Z.shiftl (Z.land v 0xff00) 8)))
    (Z.shiftr (Z.land v 0xff0000) 8)) (Z.shiftr (Z.land v 0xff000000) 24).

Lemma land_byte k v : 0 <= k -> Z.land v (Z.shiftl 0xff k) = v / 2 ^ k mod 256 * 2 ^ k.
Proof.
  intros Hk. rewrite <- (Z.shiftr_div_pow2 v k), <- (Z.shiftl_mul_pow2 _ k) by done.
  change 256 with (2 ^ 8). rewrite <- Z.land_ones by done. change (Z.ones 8) with 0xff.
  apply Z.bits_inj'. intros i Hi. rewrite Z.land_spec, !Z.shiftl_spec by done.
  destruct (Z.lt_ge_cases i k).
  - rewrite !(Z.testbit_neg_r _ (i - k)) by lia. apply andb_false_r.
  - rewrite Z.land_spec, Z.shiftr_spec by lia. by replace (i - k + k) with i by lia.
Qed.

(** The macro reverses the bytes. *)
Lemma swap32_bytes v : is_uint 32 v -> swap32 v = le_value (be32 v).
Proof.
  intros Hv. unfold swap32. change 0xff with (Z.shiftl 0xff 0) at 1.
  change 0xff00 with (Z.shiftl 0xff 8). change 0xff0000 with (Z.shiftl 0xff 16).
  change 0xff000000 with (Z.shiftl 0xff 24). rewrite !land_byte by done.
  unfold be32, le32. cbn [le_bytes rev app le_value foldr].
  rewrite !Z.shiftl_mul_pow2, !Z.shiftr_div_pow2 by done.
  set (b0 := v / 2 ^ 0 mod 256). set (b1 := v / 2 ^ 8 mod 256). set (b2 := v / 2 ^ 16 mod 256).
  set (b3 := v / 2 ^ 24 mod 256).
  assert (0 <= b0 < 256 /\ 0 <= b1 < 256 /\ 0 <= b2 < 256 /\ 0 <= b3 < 256) as (H0 & H1 & H2 & H3).
  { repeat split; apply Z.mod_pos_bound; lia. }
  replace (v mod 256) with b0 by (unfold b0; by rewrite Z.div_1_r).
  replace (v / 256 mod 256) with b1 by done.
  replace (v / 256 / 256 mod 256) with b2 by (unfold b2; by rewrite Z.div_div by lia).
  replace (v / 256 / 256 / 256 mod 256) with b3 by (unfold b3; by rewrite !Z.div_div by lia).
  clearbody b0 b1 b2 b3.
  change (2 ^ 0) with 1. change (2 ^ 8) with 256. change (2 ^ 16) with 65536. change (2 ^ 24) with 16777216.
  rewrite !u32_id by (unfold is_uint; change (2 ^ 32) with 4294967296; lia).
  replace (b2 * 65536 / 256) with (b2 * 256) by dlia.
  rewrite Z.div_mul by lia.
  replace (b0 * 1 * 16777216) with (Z.shiftl b0 24) by (rewrite Z.shiftl_mul_pow2 by lia; lia).
  replace (b1 * 256 * 256) with (Z.shiftl b1 16) by (rewrite Z.shiftl_mul_pow2 by lia; lia).
  replace (b2 * 256) with (Z.shiftl b2 8) by (rewrite Z.shiftl_mul_pow2 by lia; lia).
  rewrite (Z.lor_comm _ b3), (Z.lor_comm _ (Z.shiftl b2 8)), Z.lor_assoc.
  rewrite (Z.lor_comm (Z.shiftl b0 24)), Z.lor_assoc.
  rewrite (lor_shiftl_add b3) by (change (2 ^ 8) with 256; lia).
  rewrite (lor_shiftl_add _ b1 16) by (change (2 ^ 8) with 256; change (2 ^ 16) with 65536; lia).
  rewrite (lor_shiftl_add _ b0 24)
    by (change (2 ^ 8) with 256; change (2 ^ 16) with 65536; change (2 ^ 24) with 16777216; lia).
  change (2 ^ 24) with 16777216. change (2 ^ 16) with 65536. change (2 ^ 8) with 256. lia.
Qed.

Lemma rev4_bytes v : le32 (le_value (be32 v)) = be32 v.
Proof.
  assert (HB : bytes_ok (be32 v)) by apply be32_ok. assert (HL : length (be32 v) = 4%nat) by done.
  revert HB HL. generalize (be32 v). intros l HB HL.
  destruct l as [|a [|b [|c [|d [|]]]]]; try done.
  apply Forall_cons in HB as [Ha HB]. apply Forall_cons in HB as [Hb HB].
  apply Forall_cons in HB as [Hc HB]. apply Forall_cons in HB as [Hd _].
  unfold le32. cbn [le_value foldr le_bytes]. unfold is_uint in *. change (2 ^ 8) with 256 in *.
  repeat f_equal; dlia.
Qed.

(** A word stored through the macro lies big-endian, and comes back through it. *)
Lemma le32_swap32 v : is_uint 32 v -> le32 (swap32 v) = be32 v.
Proof. intros Hv. rewrite swap32_bytes by done. apply rev4_bytes. Qed.

Lemma swap32_be32 v : is_uint 32 v -> swap32 (le_value (be32 v)) = v.
Proof.
  intros Hv. assert (Hw : is_uint 32 (le_value (be32 v))).
  { rewrite <- (rev4_bytes v), le_value32. apply u32_range. }
  rewrite swap32_bytes by done. unfold be32 at 1. rewrite rev4_bytes. unfold be32.
  rewrite rev_involutive, le_value32. by apply u32_id.
Qed.

(** ** Alignment *)

(** src/vmm/util.h:31-34 ALIGN32 *)
Definition ALIGN4 (v : Z) : Z :=
  if truthy (Z.land (u32 v) 3) then u32 (Z.ldiff (u32 v) 3 + 4) else u32 v.

Definition padding (n : Z) : Z := (- n) mod 4.

Lemma ALIGN4_spec v : 0 <= v < 2 ^ 32 - 4 -> ALIGN4 v = v + padding v.
Proof.
  intros Hv. unfold ALIGN4, padding. rewrite !(u32_id v) by (unfold is_uint; lia).
  change 3 with (Z.ones 2). rewrite Z.land_ones, Z.ldiff_ones_r, Z.shiftr_div_pow2, Z.shiftl_mul_pow2 by lia.
  change (2 ^ 2) with 4. change (2 ^ 32) with 4294967296 in *. unfold truthy.
  destruct (Z.eqb_spec (v mod 4) 0); cbn [negb]; [dlia|].
  rewrite u32_id; [dlia|]. unfold is_uint. change (2 ^ 32) with 4294967296. dlia.
Qed.

Lemma padding_range n : 0 <= padding n < 4.
Proof. apply Z.mod_pos_bound. lia. Qed.

Lemma padding_aligned n : (n + padding n) mod 4 = 0.
Proof. unfold padding. dlia. Qed.

Definition pad (l : list Z) : list Z := l ++ replicate (Z.to_nat (padding (len l))) 0.

Lemma len_pad l : len (pad l) = len l + padding (len l).
Proof.
  unfold pad. autorewrite with len. pose proof (padding_range (len l)). lia.
Qed.
#[export] Hint Rewrite len_pad : len.
