(* ===== verification/Ini.v ===== *)
(** * The configuration file

    Models src/vmm/ini.c: the file is loaded whole into a buffer with a zero behind it,
    split in place into strings - section headers, keys and values with zeros between
    them - and searched by section and key. A pointer into the buffer is an offset; a
    read or write outside the buffer has no result.

    Proved here: for any file whatever, splitting and looking up terminate and never
    leave the buffer; in a file made of well-formed lines, in whatever layout, a lookup
    finds exactly the first entry with the key in the section, and NULL when there is
    none. *)

From S2P Require Import Prelude Bytes.
Local Open Scope nat_scope.

(** The characters the code names. *)
Definition c_tab : Z := 9.
Definition c_newline : Z := 10.
Definition c_return : Z := 13.
Definition c_space : Z := 32.
Definition c_quote : Z := 34.
Definition c_semicolon : Z := 59.
Definition c_equals : Z := 61.
Definition c_open : Z := 91.
Definition c_backslash : Z := 92.
Definition c_close : Z := 93.

Definition one_of (cs : list Z) (c : Z) : bool := existsb (Z.eqb c) cs.

(** [tolower] in the C locale. *)
Definition tolower (c : Z) : Z := if ((65 <=? c) && (c <=? 90))%Z then (c + 32)%Z else c.

(** Of two strings without their terminators; the sign of the result is not used.
    src/vmm/ini.c:37-46 strcmpci *)
Fixpoint strcmpci (a b : list Z) : Z :=
  match a, b with
  | [], [] => 0
  | [], y :: _ => 0 - tolower y
  | x :: _, [] => tolower x
  | x :: a, y :: b =>
      let d := (tolower x - tolower y)%Z in
      if (d =? 0)%Z then strcmpci a b else d
  end.

(** The library's [strlen] and [strcspn] at the start of a buffer. *)
Fixpoint strcspn (reject : list Z) (l : list Z) : option nat :=
  match l with
  | [] => None
  | c :: l => if (c =? 0)%Z || one_of reject c then Some 0 else n ← strcspn reject l; Some (S n)
  end.
Definition strlen : list Z -> option nat := strcspn [].

Definition put_char (p : nat) (c : Z) (buf : list Z) : option (list Z) :=
  if decide (p < length buf) then Some (<[p := c]> buf) else None.

(** [ini->end]: the terminator. *)
Definition end_of (buf : list Z) : nat := length buf - 1.

(** The second loop of [next], [n] characters before the end. *)
Fixpoint skip_zeros (n p : nat) (buf : list Z) : option nat :=
  match n with
  | O => Some p
  | S n => c ← buf !! p; if (c =? 0)%Z then skip_zeros n (S p) buf else Some p
  end.

(** src/vmm/ini.c:48-55 next *)
Definition next (p : nat) (buf : list Z) : option nat :=
  n ← strlen (drop p buf);
  skip_zeros (end_of buf - (p + n)) (p + n) buf.

(** The pointer is the argument's predecessor, which may lie before the buffer.
    src/vmm/ini.c:57-61 trim_back *)
Fixpoint trim_back (p : nat) (buf : list Z) : option (list Z) :=
  match p with
  | O => Some buf
  | S p =>
      c ← buf !! p;
      if one_of [c_space; c_tab; c_return] c
      then buf ← put_char p 0 buf; trim_back p buf
      else Some buf
  end.

(** The loop, [n] characters before the end.
    src/vmm/ini.c:63-68 discard_line *)
Fixpoint discard_chars (n p : nat) (buf : list Z) : option (list Z * nat) :=
  match n with
  | O => Some (buf, p)
  | S n =>
      c ← buf !! p;
      if (c =? c_newline)%Z then Some (buf, p)
      else buf ← put_char p 0 buf; discard_chars n (S p) buf
  end.
Definition discard_line (p : nat) (buf : list Z) : option (list Z * nat) :=
  discard_chars (end_of buf - p) p buf.

Definition escaped (c : Z) : Z :=
  if (c =? 114)%Z then c_return else if (c =? 110)%Z then c_newline else if (c =? 116)%Z then c_tab else c.

(** The loop; each round moves the read head.
    src/vmm/ini.c:76-98 unescape_quoted_value *)
Fixpoint unescape (fuel p q : nat) (buf : list Z) : option (list Z * nat) :=
  match fuel with
  | O => None
  | S fuel =>
      if decide (p < end_of buf) then
        c ← buf !! p;
        if one_of [c_quote; c_return; c_newline] c then Some (buf, q)
        else if (c =? c_backslash)%Z then
          c ← buf !! S p;
          if one_of [c_return; c_newline; 0%Z] c then Some (buf, q)
          else buf ← put_char q (escaped c) buf; unescape fuel (S (S p)) (S q) buf
        else buf ← put_char q c buf; unescape fuel (S p) (S q) buf
      else Some (buf, q)
  end.

(** src/vmm/ini.c:71-98 unescape_quoted_value *)
Definition unescape_quoted_value (p : nat) (buf : list Z) : option (list Z * nat) :=
  unescape (length buf) (S p) p buf.

(** The loop that writes zeros over the equals sign and the blanks behind it.
    src/vmm/ini.c:140-143 split_data *)
Fixpoint blank_equals (fuel p : nat) (buf : list Z) : option (list Z * nat) :=
  match fuel with
  | O => None
  | S fuel =>
      buf ← put_char p 0 buf;
      c ← buf !! S p;
      if one_of [c_space; c_return; c_tab] c then blank_equals fuel (S p) buf else Some (buf, S p)
  end.

(** A line that is neither blank nor a header nor a comment.
    src/vmm/ini.c:129-170 split_data *)
Definition split_entry (line_start : nat) (buf : list Z) : option (list Z * nat) :=
  n ← strcspn [c_equals; c_newline] (drop line_start buf);
  let p := line_start + n in
  c ← buf !! p;
  if negb (c =? c_equals)%Z then discard_line line_start buf
  else
    buf ← trim_back p buf;
    '(buf, p) ← blank_equals (length buf) p buf;
    c ← buf !! p;
    if one_of [c_newline; 0%Z] c then discard_line line_start buf
    else if (c =? c_quote)%Z then
      '(buf, q) ← unescape_quoted_value p buf;
      if decide (q = p) then discard_line line_start buf else discard_line q buf
    else
      n ← strcspn [c_newline] (drop p buf);
      buf ← trim_back (p + n) buf;
      Some (buf, p + n).

(** The loop; each round moves the pointer.
    src/vmm/ini.c:107-172 split_data *)
Fixpoint split_lines (fuel p : nat) (buf : list Z) : option (list Z) :=
  match fuel with
  | O => None
  | S fuel =>
      if decide (p < end_of buf) then
        c ← buf !! p;
        if one_of [c_return; c_newline; c_tab; c_space] c then
          buf ← put_char p 0 buf; split_lines fuel (S p) buf
        else if (c =? 0)%Z then split_lines fuel (S p) buf
        else if (c =? c_open)%Z then
          n ← strcspn [c_close; c_newline] (drop p buf);
          buf ← put_char (p + n) 0 buf; split_lines fuel (p + n) buf
        else if (c =? c_semicolon)%Z then
          '(buf, p) ← discard_line p buf; split_lines fuel p buf
        else '(buf, p) ← split_entry p buf; split_lines fuel p buf
      else Some buf
  end.

(** src/vmm/ini.c:101-173 split_data *)
Definition split_data (buf : list Z) : option (list Z) := split_lines (length buf) 0 buf.

(** From the contents of the file.
    src/vmm/ini.c:177-220 ini_load *)
Definition ini_load (file : list Z) : option (list Z) := split_data (file ++ [0%Z]).

(** The loop, with the name of the section it is in; each round moves the pointer.
    The result is NULL or a pointer.
    src/vmm/ini.c:238-257 ini_get *)
Fixpoint get_loop (fuel p : nat) (current_section section key : list Z) (buf : list Z) : option (option nat) :=
  match fuel with
  | O => None
  | S fuel =>
      if decide (p < end_of buf) then
        c ← buf !! p;
        if (c =? c_open)%Z then
          current ← string_at (Z.of_nat (S p)) buf;
          p ← next p buf;
          get_loop fuel p current section key buf
        else
          val ← next p buf;
          here ← string_at (Z.of_nat p) buf;
          if (strcmpci section current_section =? 0)%Z && (strcmpci here key =? 0)%Z then Some (Some val)
          else p ← next val buf; get_loop fuel p current_section section key buf
      else Some None
  end.

(** src/vmm/ini.c:229-258 ini_get *)
Definition ini_find (buf : list Z) (section key : list Z) : option (option nat) :=
  c ← buf !! 0;
  p ← (if (c =? 0)%Z then next 0 buf else Some 0);
  get_loop (length buf) p [] section key buf.

(** The string a lookup points to. *)
Definition ini_get (buf : list Z) (section key : list Z) : option (list Z) :=
  match ini_find buf section key with
  | Some (Some p) => string_at (Z.of_nat p) buf
  | _ => None
  end.

(** With the names the callers write. *)
Definition ini_string (buf : list Z) (section key : string) : option (list Z) :=
  ini_get buf (text section) (text key).

(** ** Staying in the buffer *)

(** A buffer that ends with its terminator. *)
Definition good (buf : list Z) : Prop := buf !! end_of buf = Some 0%Z.

Lemma good_length buf : good buf -> length buf = S (end_of buf).
Proof. unfold good, end_of. intros H. apply lookup_lt_Some in H. lia. Qed.

(** Only zeros were written. *)
Definition zeroed (buf buf' : list Z) : Prop :=
  length buf' = length buf /\ forall i, buf' !! i = buf !! i \/ buf' !! i = Some 0%Z.

#[export] Instance zeroed_preorder : PreOrder zeroed.
Proof.
  split; [by split; [|left]|]. intros a b c [L1 H1] [L2 H2]. split; [congruence|].
  intros i. destruct (H2 i) as [->|]; [apply H1|by right].
Qed.

Lemma zeroed_end buf buf' : zeroed buf buf' -> end_of buf' = end_of buf.
Proof. unfold end_of. by intros [-> _]. Qed.

Lemma zeroed_good buf buf' : zeroed buf buf' -> good buf -> good buf'.
Proof. intros HZ HG. unfold good in *. rewrite (zeroed_end _ _ HZ). destruct HZ as [_ HZ]. destruct (HZ (end_of buf)); congruence. Qed.

Lemma put_zero p buf : p < length buf -> exists buf', put_char p 0 buf = Some buf' /\ zeroed buf buf' /\ buf' !! p = Some 0%Z.
Proof.
  intros Hp. unfold put_char. rewrite decide_True by done. eexists. split; [done|]. split; [|by apply list_lookup_insert_eq].
  split; [apply length_insert|]. intros i. destruct (decide (i = p)) as [->|].
  - right. by apply list_lookup_insert_eq.
  - left. by apply list_lookup_insert_ne.
Qed.

Lemma put_good p c buf : good buf -> p < end_of buf ->
  exists buf', put_char p c buf = Some buf' /\ good buf' /\ length buf' = length buf.
Proof.
  intros HG Hp. pose proof (good_length buf HG). unfold put_char. rewrite decide_True by lia.
  eexists. split; [done|]. unfold good, end_of in *. rewrite length_insert. split; [|done].
  rewrite list_lookup_insert_ne by lia. done.
Qed.

Lemma get_char p buf : good buf -> p <= end_of buf -> exists c, buf !! p = Some c.
Proof. intros HG Hp. apply lookup_lt_is_Some. pose proof (good_length buf HG). lia. Qed.

(** A character that is not zero is before the end. *)
Lemma before_end p c buf : good buf -> buf !! p = Some c -> c <> 0%Z -> p < end_of buf.
Proof.
  intros HG E Hc. pose proof (good_length buf HG). pose proof (lookup_lt_Some _ _ _ E).
  destruct (decide (p = end_of buf)) as [->|]; [unfold good in HG; congruence|lia].
Qed.

Lemma strcspn_stops reject p buf : good buf -> p <= end_of buf ->
  exists n c, strcspn reject (drop p buf) = Some n /\ p + n <= end_of buf /\ buf !! (p + n) = Some c /\
    (c = 0%Z \/ one_of reject c = true) /\
    (forall i d, p <= i < p + n -> buf !! i = Some d -> d <> 0%Z /\ one_of reject d = false).
Proof.
  intros HG Hp. remember (end_of buf - p) as k eqn:Hk. revert p Hp Hk. induction k as [|k IH]; intros p Hp Hk.
  - replace p with (end_of buf) by lia. rewrite (drop_S _ 0%Z) by exact HG. cbn [strcspn].
    exists 0, 0%Z. rewrite Nat.add_0_r. repeat split; try done; [by left|..]; lia.
  - destruct (get_char p buf HG Hp) as [c E]. rewrite (drop_S _ c) by done. cbn [strcspn].
    destruct ((c =? 0)%Z || one_of reject c) eqn:Ec.
    + exists 0, c. rewrite Nat.add_0_r. split; [done|]. split; [lia|]. split; [done|]. split; [|lia].
      apply orb_true_iff in Ec as [?%Z.eqb_eq|]; [by left|by right].
    + destruct (IH (S p)) as (n & d & En & Hn & Ed & Hd & HA); [lia..|]. rewrite En. cbn [mbind option_bind].
      exists (S n), d. replace (p + S n) with (S p + n) by lia. split; [done|]. split; [done|].
      split; [done|]. split; [done|]. intros i e Hi He. destruct (decide (i = p)) as [->|]; [|apply (HA i); [lia|done]].
      rewrite E in He. injection He as <-. apply orb_false_iff in Ec as [?%Z.eqb_neq ?]. done.
Qed.

Lemma trim_back_runs p : forall buf, p <= length buf -> exists buf', trim_back p buf = Some buf' /\ zeroed buf buf'.
Proof.
  induction p as [|p IH]; intros buf Hp; cbn [trim_back]; [by exists buf|].
  destruct (lookup_lt_is_Some_2 buf p) as [c ->]; [lia|]. cbn [mbind option_bind]. case_test; [|by exists buf].
  destruct (put_zero p buf) as (b1 & -> & HZ & _); [lia|]. cbn [mbind option_bind].
  destruct (IH b1) as (b2 & -> & HZ2); [rewrite (proj1 HZ); lia|]. exists b2. split; [done|]. by transitivity b1.
Qed.

Lemma discard_chars_runs n : forall p buf, p + n <= length buf ->
  exists buf' q, discard_chars n p buf = Some (buf', q) /\ zeroed buf buf' /\ p <= q <= p + n /\
    (0 < n -> buf !! p <> Some c_newline -> p < q).
Proof.
  induction n as [|n IH]; intros p buf Hp; cbn [discard_chars]; [exists buf, p; repeat split; try done; lia || by left|].
  destruct (lookup_lt_is_Some_2 buf p) as [c E]; [lia|]. rewrite E. cbn [mbind option_bind].
  destruct (Z.eqb_spec c c_newline) as [->|Hc].
  - exists buf, p. repeat split; try done; try lia. by left.
  - destruct (put_zero p buf) as (b1 & -> & HZ & _); [lia|]. cbn [mbind option_bind].
    destruct (IH (S p) b1) as (b2 & q & -> & HZ2 & Hq & _); [rewrite (proj1 HZ); lia|].
    exists b2, q. split; [done|]. split; [by transitivity b1|]. lia.
Qed.

Lemma discard_line_runs p buf : good buf -> p <= end_of buf ->
  exists buf' q, discard_line p buf = Some (buf', q) /\ zeroed buf buf' /\ p <= q <= end_of buf /\
    (p < end_of buf -> buf !! p <> Some c_newline -> p < q).
Proof.
  intros HG Hp. pose proof (good_length buf HG).
  destruct (discard_chars_runs (end_of buf - p) p buf) as (b & q & E & HZ & Hq & Hlt); [lia|].
  exists b, q. split; [done|]. split; [done|]. split; [lia|]. intros Hp2. apply Hlt. lia.
Qed.

Lemma blank_equals_runs fuel : forall p buf, good buf -> p < end_of buf -> end_of buf - p <= fuel ->
  exists buf' q, blank_equals fuel p buf = Some (buf', q) /\ zeroed buf buf' /\ p < q <= end_of buf.
Proof.
  induction fuel as [|fuel IH]; intros p buf HG Hp Hf; [lia|]. cbn [blank_equals].
  pose proof (good_length buf HG).
  destruct (put_zero p buf) as (b1 & -> & HZ & _); [lia|]. cbn [mbind option_bind].
  pose proof (zeroed_good _ _ HZ HG) as HG1. pose proof (zeroed_end _ _ HZ) as HE.
  destruct (get_char (S p) b1 HG1) as [c E]; [lia|]. rewrite E. cbn [mbind option_bind].
  destruct (one_of _ c) eqn:Ec; [|exists b1, (S p); repeat split; try apply HZ; lia].
  assert (S p < end_of b1) by (apply (before_end _ c); [done|done|]; by intros ->).
  destruct (IH (S p) b1 HG1) as (b2 & q & -> & HZ2 & Hq); [lia..|].
  exists b2, q. split; [done|]. split; [by transitivity b1|]. lia.
Qed.

Lemma unescape_runs fuel : forall p q buf, good buf -> q < p -> p <= S (end_of buf) -> S (end_of buf) - p < fuel ->
  exists buf' q', unescape fuel p q buf = Some (buf', q') /\ good buf' /\ length buf' = length buf /\
    q <= q' /\ (q < end_of buf -> q' < end_of buf) /\ (q' = q -> buf' = buf).
Proof.
  induction fuel as [|fuel IH]; intros p q buf HG Hq Hp Hf; [lia|]. cbn [unescape].
  case_decide as Hpe; [|exists buf, q; repeat split; done || lia].
  destruct (get_char p buf HG) as [c E]; [lia|]. rewrite E. cbn [mbind option_bind].
  destruct (one_of _ c); [exists buf, q; repeat split; done || lia|].
  destruct (Z.eqb_spec c c_backslash).
  - destruct (get_char (S p) buf HG) as [d Ed]; [lia|]. rewrite Ed. cbn [mbind option_bind].
    destruct (one_of _ d); [exists buf, q; repeat split; done || lia|].
    destruct (put_good q (escaped d) buf HG) as (b1 & -> & HG1 & HL); [lia|]. cbn [mbind option_bind].
    assert (HE : end_of b1 = end_of buf) by (unfold end_of; by rewrite HL).
    destruct (IH (S (S p)) (S q) b1 HG1) as (b2 & q' & -> & HG2 & HL2 & Hq' & He & _); [lia..|].
    exists b2, q'. repeat split; try done; try congruence; lia.
  - destruct (put_good q c buf HG) as (b1 & -> & HG1 & HL); [lia|]. cbn [mbind option_bind].
    assert (HE : end_of b1 = end_of buf) by (unfold end_of; by rewrite HL).
    destruct (IH (S p) (S q) b1 HG1) as (b2 & q' & -> & HG2 & HL2 & Hq' & He & _); [lia..|].
    exists b2, q'. repeat split; try done; try congruence; lia.
Qed.

Definition kept (buf buf' : list Z) : Prop := good buf' /\ length buf' = length buf.

Lemma zeroed_kept buf buf' : good buf -> zeroed buf buf' -> kept buf buf'.
Proof. intros HG HZ. split; [by eapply zeroed_good|apply HZ]. Qed.

(** Discarding an entry from its first character, over which only zeros were written. *)
Lemma discard_entry line_start buf buf' :
  good buf -> zeroed buf buf' -> line_start < end_of buf -> buf !! line_start <> Some c_newline ->
  exists b q, discard_line line_start buf' = Some (b, q) /\ kept buf b /\ line_start < q <= end_of buf.
Proof.
  intros HG HZ Hs Hc. pose proof (zeroed_end _ _ HZ) as HE. pose proof (zeroed_good _ _ HZ HG) as HG'.
  destruct (discard_line_runs line_start buf' HG') as (b & q & -> & HZ2 & Hq & Hlt); [lia|].
  exists b, q. split; [done|]. split; [apply zeroed_kept; [done|by transitivity buf']|].
  enough (line_start < q) by lia. apply Hlt; [lia|]. destruct (proj2 HZ line_start) as [->| ->]; done.
Qed.

Lemma split_entry_runs p buf :
  good buf -> p < end_of buf -> buf !! p <> Some c_newline ->
  exists buf' q, split_entry p buf = Some (buf', q) /\ kept buf buf' /\ p < q <= end_of buf.
Proof.
  intros HG Hp Hc. unfold split_entry. pose proof (good_length buf HG) as HL.
  destruct (strcspn_stops [c_equals; c_newline] p buf HG) as (n & c & -> & Hn & E & _); [lia|].
  cbn [mbind option_bind]. rewrite E. cbn [mbind option_bind].
  destruct (Z.eqb_spec c c_equals) as [->|]; cbn [negb]; [|by apply discard_entry].
  pose proof (before_end _ _ _ HG E ltac:(done)) as He.
  destruct (trim_back_runs (p + n) buf) as (b1 & -> & Z1); [lia|]. cbn [mbind option_bind].
  pose proof (zeroed_good _ _ Z1 HG) as HG1. pose proof (zeroed_end _ _ Z1) as HE1.
  destruct (blank_equals_runs (length b1) (p + n) b1 HG1) as (b2 & q & -> & Z2 & Hq);
    [lia|rewrite (good_length _ HG1); lia|]. cbn [mbind option_bind].
  assert (Z3 : zeroed buf b2) by by transitivity b1. clear Z2.
  pose proof (zeroed_good _ _ Z3 HG) as HG2. pose proof (zeroed_end _ _ Z3) as HE2.
  destruct (get_char q b2 HG2) as [d Ed]; [lia|]. rewrite Ed. cbn [mbind option_bind].
  destruct (one_of _ d) eqn:Eo; [by apply discard_entry|].
  assert (Hqe : q < end_of b2) by (apply (before_end _ d); [done|done|]; by intros ->).
  case_test.
  - unfold unescape_quoted_value.
    destruct (unescape_runs (length b2) (S q) q b2 HG2) as (b3 & q' & -> & HG3 & HL3 & Hq' & Hlt & Hsame);
      [lia|lia|rewrite (good_length _ HG2); lia|]. cbn [mbind option_bind].
    case_decide as Hd; [rewrite (Hsame Hd); by apply discard_entry|].
    assert (HE3 : end_of b3 = end_of b2) by (unfold end_of; by rewrite HL3).
    destruct (discard_line_runs q' b3 HG3) as (b4 & q2 & -> & Z4 & Hq2 & _); [lia|].
    exists b4, q2. split; [done|]. split; [|lia]. destruct (zeroed_kept _ _ HG3 Z4) as [HG4 HL4].
    split; [done|]. by rewrite HL4, HL3, (proj1 Z3).
  - destruct (strcspn_stops [c_newline] q b2 HG2) as (k & e & -> & Hk & _); [lia|]. cbn [mbind option_bind].
    destruct (trim_back_runs (q + k) b2) as (b3 & -> & Z4); [rewrite (good_length _ HG2); lia|]. cbn [mbind option_bind].
    exists b3, (q + k). split; [done|]. split; [apply zeroed_kept; [done|by transitivity b2]|lia].
Qed.

Lemma kept_end buf buf' : kept buf buf' -> end_of buf' = end_of buf.
Proof. unfold end_of. by intros [_ ->]. Qed.

Lemma kept_trans a b c : kept a b -> kept b c -> kept a c.
Proof. intros [_ H1] [H2 H3]. split; [done|congruence]. Qed.

Lemma split_lines_runs fuel : forall p buf, good buf -> p <= end_of buf -> end_of buf - p < fuel ->
  exists buf', split_lines fuel p buf = Some buf' /\ kept buf buf'.
Proof.
  induction fuel as [|fuel IH]; intros p buf HG Hp Hf; [lia|]. cbn [split_lines].
  case_decide as Hpe; [|by exists buf].
  assert (HN : forall b q, kept buf b -> p < q <= end_of buf ->
    exists buf', split_lines fuel q b = Some buf' /\ kept buf buf').
  { intros b q HK Hq. pose proof (kept_end _ _ HK).
    destruct (IH q b (proj1 HK)) as (b2 & -> & HK2); [lia..|]. exists b2. split; [done|by eapply kept_trans]. }
  destruct (get_char p buf HG) as [c E]; [lia|]. rewrite E. cbn [mbind option_bind].
  pose proof (good_length buf HG) as HL. destruct (one_of _ c) eqn:E1.
  { destruct (put_zero p buf) as (b1 & -> & Z1 & _); [lia|]. cbn [mbind option_bind].
    apply HN; [by apply zeroed_kept|lia]. }
  case_test; [apply HN; [done|lia]|]. destruct (Z.eqb_spec c c_open) as [->|].
  { destruct (strcspn_stops [c_close; c_newline] p buf HG) as (n & d & -> & Hn & Ed & Hd & _); [lia|].
    cbn [mbind option_bind]. destruct (put_zero (p + n) buf) as (b1 & -> & Z1 & _); [lia|]. cbn [mbind option_bind].
    apply HN; [by apply zeroed_kept|]. destruct n; [|lia]. rewrite Nat.add_0_r in Ed. rewrite E in Ed.
    injection Ed as <-. by destruct Hd. }
  assert (Hc : buf !! p <> Some c_newline) by (rewrite E; intros [= ->]; done).
  destruct (Z.eqb_spec c c_semicolon) as [->|].
  { destruct (discard_line_runs p buf HG) as (b1 & q & -> & Z1 & Hq & Hlt); [lia|]. cbn [mbind option_bind].
    apply HN; [by apply zeroed_kept|]. specialize (Hlt Hpe Hc). lia. }
  destruct (split_entry_runs p buf HG Hpe Hc) as (b1 & q & -> & HK & Hq). cbn [mbind option_bind]. by apply HN.
Qed.

Lemma skip_zeros_runs n : forall p buf, p + n <= end_of buf -> good buf ->
  exists q, skip_zeros n p buf = Some q /\ p <= q <= p + n /\
    (q < p + n -> exists c, buf !! q = Some c /\ c <> 0%Z) /\ (forall i, p <= i < q -> buf !! i = Some 0%Z).
Proof.
  induction n as [|n IH]; intros p buf Hp HG; cbn [skip_zeros]; [exists p; repeat split; lia|].
  destruct (get_char p buf HG) as [c E]; [lia|]. rewrite E. cbn [mbind option_bind]. destruct (Z.eqb_spec c 0) as [->|].
  - destruct (IH (S p) buf) as (q & -> & Hq & Hn & Hz); [lia|done|]. exists q. split; [done|]. split; [lia|].
    split; [intros; apply Hn; lia|]. intros i Hi. destruct (decide (i = p)) as [->|]; [done|apply Hz; lia].
  - exists p. split; [done|]. split; [lia|]. split; [by exists c|lia].
Qed.

(** The start of a string, or the end of the data. *)
Definition at_string (p : nat) (buf : list Z) : Prop :=
  p <= end_of buf /\ (p < end_of buf -> exists c, buf !! p = Some c /\ c <> 0%Z).

Lemma next_runs p buf : good buf -> p <= end_of buf ->
  exists q, next p buf = Some q /\ at_string q buf /\ p <= q /\
    (forall c, buf !! p = Some c -> c <> 0%Z -> p < q).
Proof.
  intros HG Hp. unfold next, strlen.
  destruct (strcspn_stops [] p buf HG Hp) as (n & c & -> & Hn & E & Hc & _). cbn [mbind option_bind].
  destruct Hc as [->|]; [|done].
  destruct (skip_zeros_runs (end_of buf - (p + n)) (p + n) buf) as (q & -> & Hq & Hnz & Hz); [lia|done|].
  exists q. split; [done|]. split; [split; [lia|intros; apply Hnz; lia]|]. split; [lia|].
  intros d Ed Hd. destruct n; [|lia]. rewrite Nat.add_0_r in E. congruence.
Qed.

Lemma string_at_runs p buf : good buf -> p <= end_of buf -> exists s, string_at (Z.of_nat p) buf = Some s.
Proof.
  intros HG Hp. pose proof (good_length buf HG). unfold string_at, len.
  rewrite !(proj2 (Z.leb_le _ _)) by lia. cbn [andb]. rewrite Nat2Z.id.
  destruct (strcspn_stops [] p buf HG Hp) as (n & c & E & _). clear -E. revert n E.
  generalize (drop p buf). intros l. induction l as [|d l IH]; intros n E; [done|]. cbn [strcspn until_zero] in *.
  destruct (Z.eqb_spec d 0); [by eexists|]. cbn [orb one_of existsb] in E.
  destruct (strcspn [] l) as [m|]; [|done]. destruct (IH m eq_refl) as [s ->]. by eexists.
Qed.

Lemma get_loop_runs fuel : forall p cur section key buf,
  good buf -> at_string p buf -> end_of buf - p < fuel ->
  exists r, get_loop fuel p cur section key buf = Some r /\ (forall v, r = Some v -> v <= end_of buf).
Proof.
  induction fuel as [|fuel IH]; intros p cur section key buf HG [Hp Hs] Hf; [lia|]. cbn [get_loop].
  case_decide as Hpe; [|by exists None]. destruct (Hs Hpe) as (c & E & Hc). rewrite E. cbn [mbind option_bind].
  destruct (next_runs p buf HG Hp) as (q & Eq & Hq & Hpq & Hlt). specialize (Hlt c E Hc). pose proof (proj1 Hq).
  case_test.
  - destruct (string_at_runs (S p) buf HG) as [s ->]; [lia|]. cbn [mbind option_bind]. rewrite Eq. cbn [mbind option_bind].
    apply IH; [done|done|lia].
  - rewrite Eq. cbn [mbind option_bind]. destruct (string_at_runs p buf HG) as [s ->]; [lia|]. cbn [mbind option_bind].
    case_test; [exists (Some q); split; [done|intros v [= <-]; lia]|].
    destruct (next_runs q buf HG) as (r & -> & Hr & Hqr & _); [lia|]. cbn [mbind option_bind].
    apply IH; [done|done|lia].
Qed.

Lemma good_file file : good (file ++ [0%Z]).
Proof. unfold good, end_of. rewrite length_app. cbn [length]. rewrite Nat.add_sub. by rewrite list_lookup_middle. Qed.

Lemma ini_find_runs buf section key : good buf ->
  exists r, ini_find buf section key = Some r /\ (forall v, r = Some v -> v <= end_of buf).
Proof.
  intros HG. unfold ini_find. pose proof (good_length buf HG) as HL.
  destruct (get_char 0 buf HG) as [c E]; [lia|]. rewrite E. cbn [mbind option_bind].
  destruct (Z.eqb_spec c 0).
  - destruct (next_runs 0 buf HG) as (q & -> & Hq & _); [lia|]. cbn [mbind option_bind].
    apply get_loop_runs; [done|done|lia].
  - cbn [mbind option_bind]. apply get_loop_runs; [done| |lia]. split; [lia|]. by exists c.
Qed.

Lemma ini_load_runs file : exists buf, ini_load file = Some buf /\ kept (file ++ [0%Z]) buf.
Proof.
  unfold ini_load, split_data. apply split_lines_runs; [apply good_file|lia|].
  rewrite (good_length _ (good_file file)). lia.
Qed.

(** ** The lines of a file *)

Definition blank (c : Z) : bool := one_of [c_space; c_tab; c_return] c.

Inductive line :=
  | LBlank (spaces : list Z)
  | LComment (remark : list Z)
  | LSection (name : list Z)
  | LEntry (key gap1 gap2 value gap3 : list Z).

(** As written, without the newline. *)
Definition render (l : line) : list Z :=
  match l with
  | LBlank s => s
  | LComment t => c_semicolon :: t
  | LSection n => c_open :: n ++ [c_close]
  | LEntry k g1 g2 v g3 => k ++ g1 ++ c_equals :: g2 ++ v ++ g3
  end.

Definition file_of (lines : list line) : list Z := concat (map (fun l => render l ++ [c_newline]) lines).

Definition zeros (l : list Z) : list Z := replicate (length l) 0%Z.

(** As split. *)
Definition split_of (l : line) : list Z :=
  match l with
  | LBlank s => zeros s
  | LComment t => 0%Z :: zeros t
  | LSection n => c_open :: n ++ [0%Z]
  | LEntry k g1 g2 v g3 => k ++ zeros g1 ++ 0%Z :: zeros g2 ++ v ++ zeros g3
  end.

Definition data_of (lines : list line) : list Z := concat (map (fun l => split_of l ++ [0%Z]) lines) ++ [0%Z].

(** No character of [cs], and no zero. *)
Definition free_of (cs l : list Z) : Prop := Forall (fun c => c <> 0%Z /\ one_of cs c = false) l.

(** What begins and ends with a character that is not blank. *)
Definition trimmed (l : list Z) : Prop :=
  exists first mid last, (l = first :: mid \/ l = [first]) /\ (exists l', l = l' ++ [last]) /\
    blank first = false /\ blank last = false.

Definition line_ok (l : line) : Prop :=
  match l with
  | LBlank s => Forall (fun c => blank c = true) s
  | LComment t => Forall (fun c => c <> c_newline) t
  | LSection n => free_of [c_close; c_newline] n
  | LEntry k g1 g2 v g3 =>
      free_of [c_equals; c_newline] k /\ trimmed k /\
      (exists c k', k = c :: k' /\ one_of [c_open; c_semicolon] c = false) /\
      free_of [c_newline] v /\ trimmed v /\ (exists c v', v = c :: v' /\ c <> c_quote) /\
      Forall (fun c => blank c = true) g1 /\ Forall (fun c => blank c = true) g2 /\ Forall (fun c => blank c = true) g3
  end.

(** The first value of the key in the section, [cur] being the section so far. Names are
    compared without regard to case. *)
Definition same_name (a b : list Z) : bool := bool_decide (map tolower a = map tolower b).

Fixpoint entry_of (cur : list Z) (lines : list line) (section key : list Z) : option (list Z) :=
  match lines with
  | [] => None
  | LSection n :: lines => entry_of n lines section key
  | LEntry k _ _ v _ :: lines =>
      if same_name section cur && same_name k key then Some v else entry_of cur lines section key
  | _ :: lines => entry_of cur lines section key
  end.

(** ** Splitting the lines *)

Lemma lookup_mid p (pre : list Z) c post : p = length pre -> (pre ++ c :: post) !! p = Some c.
Proof. intros ->. by apply list_lookup_middle. Qed.

Lemma put_mid p v pre c post : p = length pre -> put_char p v (pre ++ c :: post) = Some (pre ++ v :: post).
Proof.
  intros ->. unfold put_char. rewrite decide_True by (rewrite length_app; cbn; lia).
  pose proof (insert_app_r pre (c :: post) 0 v) as E. rewrite Nat.add_0_r in E. by rewrite E.
Qed.

Lemma end_mid (pre : list Z) c d post : length pre < end_of (pre ++ c :: d :: post).
Proof. unfold end_of. rewrite length_app. cbn [length]. lia. Qed.

Lemma strcspn_app cs a c post : free_of cs a -> c = 0%Z \/ one_of cs c = true -> strcspn cs (a ++ c :: post) = Some (length a).
Proof.
  intros HF Hc. induction HF as [|x a [Hx Ho] HF IH]; cbn [app strcspn length].
  - destruct Hc as [->|Hc]; [done|]. by rewrite Hc, orb_true_r.
  - rewrite Ho, orb_false_r. destruct (Z.eqb_spec x 0); [done|]. by rewrite IH.
Qed.

Lemma drop_mid p (pre post : list Z) : p = length pre -> drop p (pre ++ post) = post.
Proof. intros ->. apply drop_app_length. Qed.

Lemma snoc_case {A} (P : list A -> Prop) : P [] -> (forall l x, P l -> P (l ++ [x])) -> forall l, P l.
Proof. intros H0 HS l. induction l using rev_ind; auto. Qed.

Lemma zeros_snoc g c : zeros (g ++ [c]) = zeros g ++ [0%Z].
Proof. unfold zeros. rewrite length_app. cbn [length]. by rewrite replicate_add. Qed.

Lemma length_zeros g : length (zeros g) = length g.
Proof. apply length_replicate. Qed.

Lemma trim_back_app pre last g : forall post,
  blank last = false -> Forall (fun c => blank c = true) g ->
  trim_back (length (pre ++ last :: g)) (pre ++ last :: g ++ post) = Some (pre ++ last :: zeros g ++ post).
Proof.
  induction g as [|c g IH] using rev_ind; intros post Hl HF.
  - rewrite length_app. cbn [length app zeros replicate]. rewrite Nat.add_comm. cbn [trim_back Nat.add].
    rewrite lookup_mid by done. cbn [mbind option_bind]. unfold blank in Hl. by rewrite Hl.
  - apply Forall_app in HF as [HF [Hc _]%Forall_cons]. rewrite zeros_snoc, <- !(assoc_L app). cbn [app].
    replace (length (pre ++ last :: g ++ [c])) with (S (length (pre ++ last :: g)))
      by (rewrite !length_app; cbn [length]; rewrite length_app; cbn; lia).
    cbn [trim_back].
    replace (pre ++ last :: g ++ c :: post) with ((pre ++ last :: g) ++ c :: post) by by rewrite <- (assoc_L app).
    rewrite lookup_mid by done. cbn [mbind option_bind]. unfold blank in Hc. rewrite Hc, put_mid by done.
    cbn [mbind option_bind]. rewrite <- (assoc_L app). cbn [app]. by apply IH.
Qed.

Lemma blank_equals_app fuel g : forall p pre c d post,
  p = length pre -> length g < fuel -> Forall (fun c => blank c = true) g -> blank d = false ->
  blank_equals fuel p (pre ++ c :: g ++ d :: post) = Some (pre ++ 0%Z :: zeros g ++ d :: post, p + S (length g)).
Proof.
  revert fuel. induction g as [|x g IH]; intros fuel p pre c d post Hp Hf HF Hd; (destruct fuel as [|fuel]; [cbn in Hf; lia|]);
    cbn [blank_equals app length]; rewrite put_mid by done; cbn [mbind option_bind].
  - change (pre ++ 0%Z :: d :: post) with (pre ++ [0%Z] ++ d :: post). rewrite (assoc_L app), lookup_mid
      by (subst; rewrite length_app; cbn; lia). cbn [mbind option_bind].
    assert (one_of [c_space; c_return; c_tab] d = false) as ->.
    { unfold blank, one_of in *. cbn [existsb] in *. destruct (d =? _)%Z, (d =? _)%Z, (d =? _)%Z; done. }
    rewrite <- (assoc_L app). cbn [app zeros length replicate]. by rewrite Nat.add_1_r.
  - apply Forall_cons in HF as [Hx HF]. change (pre ++ 0%Z :: x :: ?r) with (pre ++ [0%Z] ++ x :: r).
    rewrite (assoc_L app), lookup_mid by (subst; rewrite length_app; cbn; lia). cbn [mbind option_bind].
    assert (one_of [c_space; c_return; c_tab] x = true) as ->.
    { unfold blank, one_of in *. cbn [existsb] in *. destruct (x =? _)%Z, (x =? _)%Z, (x =? _)%Z; done. }
    rewrite IH; [|subst; rewrite length_app; cbn; lia|cbn in Hf; lia|done|done].
    rewrite <- (assoc_L app). cbn [app zeros length replicate]. do 2 f_equal. lia.
Qed.

Lemma discard_chars_app remark : forall n p pre post,
  p = length pre -> length remark <= n -> Forall (fun c => c <> c_newline) remark ->
  discard_chars n p (pre ++ remark ++ c_newline :: post) =
  Some (pre ++ zeros remark ++ c_newline :: post, p + length remark).
Proof.
  induction remark as [|c remark IH]; intros n p pre post Hp Hn HF; cbn [app zeros length replicate].
  - rewrite Nat.add_0_r. destruct n as [|n]; cbn [discard_chars]; [done|]. by rewrite lookup_mid.
  - apply Forall_cons in HF as [Hc HF]. destruct n as [|n]; cbn in Hn; [lia|]. cbn [discard_chars].
    rewrite lookup_mid by done. cbn [mbind option_bind]. destruct (Z.eqb_spec c c_newline); [done|].
    rewrite put_mid by done. cbn [mbind option_bind].
    change (pre ++ 0%Z :: remark ++ ?r) with (pre ++ [0%Z] ++ remark ++ r). rewrite (assoc_L app), IH;
      [|subst; rewrite length_app; cbn; lia|lia|done].
    rewrite <- (assoc_L app). cbn [app]. do 2 f_equal. lia.
Qed.

(** ** The whole file *)

(** Splitting from a place yields [r], with enough fuel. *)
Definition splits (p : nat) (buf r : list Z) : Prop := exists fuel, split_lines fuel p buf = Some r.

Lemma split_lines_mono fuel : forall p buf r fuel',
  split_lines fuel p buf = Some r -> fuel <= fuel' -> split_lines fuel' p buf = Some r.
Proof.
  induction fuel as [|fuel IH]; intros p buf r [|fuel'] E Hf; try done; [lia|]. cbn [split_lines] in *.
  case_decide; [|done]. destruct (buf !! p) as [c|]; [|done]. cbn [mbind option_bind] in *.
  assert (HI : forall q b, split_lines fuel q b = Some r -> split_lines fuel' q b = Some r) by (intros; apply IH; [done|lia]).
  destruct (one_of _ c).
  { destruct (put_char p 0 buf); [|done]. by apply HI. }
  case_test; [by apply HI|]. case_test.
  { destruct (strcspn _ _); [|done]. cbn [mbind option_bind] in *. destruct (put_char _ _ _); [|done]. by apply HI. }
  case_test; [destruct (discard_line p buf) as [[b q]|]|destruct (split_entry p buf) as [[b q]|]]; try done; by apply HI.
Qed.

Lemma splits_load file r : splits 0 (file ++ [0%Z]) r -> ini_load file = Some r.
Proof.
  intros [fuel E]. destruct (ini_load_runs file) as (r' & E' & _). rewrite E'. unfold ini_load, split_data in E'.
  apply (split_lines_mono _ _ _ _ (fuel `max` length (file ++ [0%Z]))) in E; [|lia].
  apply (split_lines_mono _ _ _ _ (fuel `max` length (file ++ [0%Z]))) in E'; [|lia]. congruence.
Qed.

(** One step, at a character with another one behind it. *)
Lemma splits_zero p pre c post d r :
  p = length pre -> c = c_newline \/ blank c = true \/ c = 0%Z ->
  splits (S p) (pre ++ 0%Z :: d :: post) r -> splits p (pre ++ c :: d :: post) r.
Proof.
  intros Hp Hc [fuel E]. exists (S fuel). cbn [split_lines]. pose proof (end_mid pre c d post).
  rewrite decide_True by lia. rewrite lookup_mid by done. cbn [mbind option_bind].
  destruct (one_of [c_return; c_newline; c_tab; c_space] c) eqn:Eo; [by rewrite put_mid|].
  destruct Hc as [->|[Hc| ->]]; [done| |exact E]. unfold blank, one_of in *. cbn [existsb] in *.
  destruct (c =? c_return)%Z, (c =? c_newline)%Z, (c =? c_tab)%Z, (c =? c_space)%Z; done.
Qed.

Lemma splits_zeros g : forall p pre d post r,
  p = length pre -> Forall (fun c => c = c_newline \/ blank c = true \/ c = 0%Z) g ->
  splits (p + length g) (pre ++ zeros g ++ d :: post) r -> splits p (pre ++ g ++ d :: post) r.
Proof.
  induction g as [|c g IH]; intros p pre d post r Hp HF HS.
  - by rewrite Nat.add_0_r in HS.
  - apply Forall_cons in HF as [Hc HF]. cbn [app].
    assert (HX : splits (S p) (pre ++ 0%Z :: g ++ d :: post) r).
    { change (pre ++ 0%Z :: ?l) with (pre ++ [0%Z] ++ l). rewrite (assoc_L app).
      apply IH; [subst; rewrite length_app; cbn; lia|done|]. rewrite <- (assoc_L app).
      cbn [length] in HS. by replace (S p + length g) with (p + S (length g)) by lia. }
    destruct g as [|x g]; cbn [app] in *; apply splits_zero; tauto.
Qed.

(** The characters of a trimmed string. *)
Lemma trimmed_last l : trimmed l -> exists l' c, l = l' ++ [c] /\ blank c = false.
Proof. intros (f & m & c & _ & (l' & ->) & _ & Hc). by exists l', c. Qed.

Lemma trimmed_first l : trimmed l -> exists c l', l = c :: l' /\ blank c = false.
Proof. intros (f & m & c & [-> | ->] & _ & Hf & _); by eexists _, _. Qed.

Lemma trim_string l pre g post :
  trimmed l -> Forall (fun c => blank c = true) g ->
  trim_back (length (pre ++ l ++ g)) (pre ++ l ++ g ++ post) = Some (pre ++ l ++ zeros g ++ post).
Proof.
  intros HT HF. destruct (trimmed_last l HT) as (l' & c & -> & Hc). rewrite <- !(assoc_L app), !(assoc_L app pre l').
  cbn [app]. by apply trim_back_app.
Qed.

Lemma blanks_free cs g : Forall (fun c => blank c = true) g -> forallb (fun c => negb (blank c)) cs = true -> free_of cs g.
Proof.
  intros HF HC. eapply Forall_impl; [exact HF|]. intros c Hc. cbn beta in Hc. split; [by intros ->|].
  unfold one_of. induction cs as [|x cs IH]; [done|]. cbn [existsb forallb] in *. apply andb_true_iff in HC as [Hx HC].
  rewrite (IH HC), orb_false_r. destruct (Z.eqb_spec c x) as [->|]; [by rewrite Hc in Hx|done].
Qed.

Lemma free_one_of cs l c l' : free_of cs l -> l = c :: l' -> c <> 0%Z /\ one_of cs c = false.
Proof. intros HF ->. by apply Forall_cons in HF as [? _]. Qed.

Lemma split_entry_app k g1 g2 v g3 pre post :
  line_ok (LEntry k g1 g2 v g3) ->
  split_entry (length pre) (pre ++ render (LEntry k g1 g2 v g3) ++ c_newline :: post) =
  Some (pre ++ split_of (LEntry k g1 g2 v g3) ++ c_newline :: post, length (pre ++ split_of (LEntry k g1 g2 v g3))).
Proof.
  intros (Hk & Tk & _ & Hv & Tv & (cv & v' & Ev & Hq) & H1 & H2 & H3). cbn [render split_of].
  destruct (trimmed_first v Tv) as (d & v2 & Ed & Hd). assert (d = cv) as -> by congruence.
  assert (HX : forall g, zeros g ++ 0%Z :: zeros g2 ++ v ++ zeros g3 = (zeros g ++ [0%Z] ++ zeros g2) ++ v ++ zeros g3)
    by (intros; by rewrite <- !(assoc_L app)).
  unfold split_entry. rewrite drop_mid by done.
  replace ((k ++ g1 ++ c_equals :: g2 ++ v ++ g3) ++ c_newline :: post)
    with ((k ++ g1) ++ c_equals :: g2 ++ v ++ g3 ++ c_newline :: post)
    by (rewrite <- !(assoc_L app); cbn [app]; by rewrite <- !(assoc_L app)).
  rewrite strcspn_app; [|apply Forall_app; split; [done|by apply blanks_free]|by right].
  cbn [mbind option_bind]. rewrite (assoc_L app pre), lookup_mid by by rewrite !length_app.
  cbn [mbind option_bind]. rewrite Z.eqb_refl. cbn [negb].
  rewrite <- !(assoc_L app). replace (length pre + length (k ++ g1)) with (length (pre ++ k ++ g1)) by by rewrite length_app.
  rewrite trim_string by done. cbn [mbind option_bind].
  replace (pre ++ k ++ zeros g1 ++ c_equals :: g2 ++ v ++ g3 ++ c_newline :: post)
    with ((pre ++ k ++ zeros g1) ++ c_equals :: g2 ++ cv :: v' ++ g3 ++ c_newline :: post)
    by by rewrite Ev, <- !(assoc_L app).
  rewrite blank_equals_app; [|rewrite !length_app, length_zeros; lia| |done|done].
  2:{ rewrite !length_app. cbn [length]. rewrite !length_app. lia. }
  cbn [mbind option_bind]. set (pre2 := pre ++ k ++ zeros g1 ++ 0%Z :: zeros g2).
  replace (length (pre ++ k ++ g1) + S (length g2)) with (length pre2)
    by (unfold pre2; rewrite !length_app; cbn [length]; rewrite !length_zeros; lia).
  replace ((pre ++ k ++ zeros g1) ++ 0%Z :: zeros g2 ++ cv :: v' ++ g3 ++ c_newline :: post)
    with (pre2 ++ cv :: v' ++ g3 ++ c_newline :: post)
    by (unfold pre2; rewrite <- !(assoc_L app); cbn [app]; by rewrite <- ?(assoc_L app)).
  rewrite lookup_mid by done. cbn [mbind option_bind].
  destruct (free_one_of _ _ _ _ Hv Ev) as [Hc0 Hcn]. unfold one_of in Hcn. cbn [existsb] in Hcn.
  unfold one_of. cbn [existsb]. rewrite orb_false_r in *. rewrite Hcn.
  destruct (Z.eqb_spec cv 0); [done|]. destruct (Z.eqb_spec cv c_quote); [done|]. cbn [orb].
  rewrite drop_mid by done. replace (cv :: v' ++ g3 ++ c_newline :: post) with ((v ++ g3) ++ c_newline :: post)
    by (rewrite Ev; by rewrite <- !(assoc_L app)).
  rewrite strcspn_app; [|apply Forall_app; split; [done|by apply blanks_free]|by right]. cbn [mbind option_bind].
  replace (length pre2 + length (v ++ g3)) with (length (pre2 ++ v ++ g3)) by by rewrite length_app.
  rewrite <- (assoc_L app v g3), trim_string by done. cbn [mbind option_bind].
  unfold pre2. do 2 f_equal.
  - rewrite <- !(assoc_L app). cbn [app]. by rewrite <- ?(assoc_L app).
  - rewrite !length_app. cbn [length]. rewrite !length_app, !length_zeros. lia.
Qed.

(** A section line: the closing bracket becomes a zero, and the zero is stepped over. *)
Lemma splits_section n pre d post r :
  free_of [c_close; c_newline] n ->
  splits (length (pre ++ (c_open :: n ++ [0%Z]))) (pre ++ (c_open :: n ++ [0%Z]) ++ c_newline :: d :: post) r ->
  splits (length pre) (pre ++ (c_open :: n ++ [c_close]) ++ c_newline :: d :: post) r.
Proof.
  intros Hl HN.
  rewrite length_app in HN. cbn [length] in HN. rewrite length_app in HN. cbn [length] in HN.
  destruct HN as [fuel E]. exists (S (S fuel)). remember (S fuel) as f1 eqn:Hf.
  cbn [split_lines app]. rewrite <- (assoc_L app n). cbn [app].
  rewrite decide_True by (destruct n; apply end_mid).
  rewrite lookup_mid by done. cbn [mbind option_bind].
  change (one_of [c_return; c_newline; c_tab; c_space] c_open) with false. cbn match.
  change (c_open =? 0)%Z with false. rewrite Z.eqb_refl. rewrite drop_mid by done.
  pose proof (strcspn_app [c_close; c_newline] (c_open :: n) c_close (c_newline :: d :: post)) as EC. cbn [app] in EC.
  rewrite EC; [|by constructor|by right]. cbn [mbind option_bind].
  change (pre ++ c_open :: n ++ ?x) with (pre ++ (c_open :: n) ++ x). rewrite (assoc_L app), put_mid
    by by rewrite length_app. cbn [mbind option_bind]. subst f1. cbn [split_lines].
  rewrite decide_True by (unfold end_of; rewrite !length_app; cbn [length]; lia).
  rewrite lookup_mid by by rewrite length_app. cbn [mbind option_bind].
  change (one_of [c_return; c_newline; c_tab; c_space] 0%Z) with false. rewrite Z.eqb_refl.
  etrans; [|exact E]. f_equal; [cbn [length]; lia|]. rewrite <- !(assoc_L app). cbn [app]. by rewrite <- ?(assoc_L app).
Qed.

Lemma splits_line l pre d post r :
  line_ok l ->
  splits (length (pre ++ split_of l ++ [0%Z])) (pre ++ split_of l ++ 0%Z :: d :: post) r ->
  splits (length pre) (pre ++ render l ++ c_newline :: d :: post) r.
Proof.
  intros Hl HS.
  assert (HN : splits (length (pre ++ split_of l)) (pre ++ split_of l ++ c_newline :: d :: post) r).
  { rewrite (assoc_L app). apply splits_zero; [done|by left|]. rewrite <- (assoc_L app).
    rewrite (assoc_L app), length_app, Nat.add_comm in HS. exact HS. }
  destruct l as [s|t|n|k g1 g2 v g3]; cbn [render split_of] in *.
  - apply splits_zeros; [done|eapply Forall_impl; [exact Hl|]; intros c Hc; cbn beta in Hc; tauto|].
    by rewrite length_app, length_zeros in HN.
  - destruct HN as [fuel E]. exists (S fuel). cbn [split_lines app]. rewrite decide_True by (destruct t; apply end_mid).
    rewrite lookup_mid by done. cbn [mbind option_bind].
    change (one_of [c_return; c_newline; c_tab; c_space] c_semicolon) with false. cbn match.
    change (c_semicolon =? 0)%Z with false. change (c_semicolon =? c_open)%Z with false.
    rewrite Z.eqb_refl. unfold discard_line.
    pose proof (discard_chars_app (c_semicolon :: t) (end_of (pre ++ c_semicolon :: t ++ c_newline :: d :: post) - length pre)
      (length pre) pre (d :: post) eq_refl) as ED. cbn [app] in ED. rewrite ED; [|unfold end_of|by constructor].
    + cbn [mbind option_bind]. rewrite length_app in E. cbn [length zeros replicate] in *. by rewrite length_zeros in E.
    + rewrite length_app. cbn [length]. rewrite length_app. cbn [length]. lia.
  - by apply splits_section.
  - destruct Hl as (Hk & Tk & Hs & HR). destruct (trimmed_first k Tk) as (c & k' & Ek & Hb).
    destruct Hs as (c' & k2 & Ek2 & Ho). assert (c' = c) as -> by congruence. clear Ek2 k2.
    destruct (free_one_of _ _ _ _ Hk Ek) as [Hc0 Hcn].
    pose proof (split_entry_app k g1 g2 v g3 pre (d :: post) (conj Hk (conj Tk (conj (ex_intro _ c (ex_intro _ k' (conj Ek Ho))) HR)))) as ES.
    destruct HN as [fuel E]. exists (S fuel). cbn [split_lines].
    assert (HD : exists rest, render (LEntry k g1 g2 v g3) ++ c_newline :: d :: post = c :: rest /\ rest <> []).
    { cbn [render]. rewrite Ek. cbn [app]. eexists. split; [done|]. by destruct k', g1. }
    destruct HD as (rest & ER & Hr). cbn [render split_of] in *. rewrite ER in *. destruct rest as [|x rest]; [done|].
    rewrite decide_True by apply end_mid. rewrite lookup_mid by done. cbn [mbind option_bind].
    unfold one_of, blank in Ho, Hcn, Hb. cbn [existsb] in Ho, Hcn, Hb. unfold one_of in Hb. cbn [existsb] in Hb.
    unfold one_of. cbn [existsb].
    apply orb_false_iff in Ho as [-> [-> _]%orb_false_iff]. apply orb_false_iff in Hcn as [_ [-> _]%orb_false_iff].
    apply orb_false_iff in Hb as [-> [-> [-> _]%orb_false_iff]%orb_false_iff].
    destruct (Z.eqb_spec c 0); [done|]. cbn [orb]. rewrite ES. exact E.
Qed.

Lemma splits_file lines : forall pre, Forall line_ok lines ->
  splits (length pre) (pre ++ file_of lines ++ [0%Z]) (pre ++ data_of lines).
Proof.
  induction lines as [|l lines IH]; intros pre HF.
  - exists 1. cbn. rewrite decide_False; [done|]. unfold end_of. rewrite length_app. cbn. lia.
  - apply Forall_cons in HF as [Hl HF]. unfold file_of, data_of. cbn [map concat]. rewrite <- !(assoc_L app).
    fold (file_of lines). fold (data_of lines). cbn [app].
    assert (exists d post, file_of lines ++ [0%Z] = d :: post) as (d & post & ED).
    { destruct (file_of lines) as [|d post]; [by exists 0%Z, []|by exists d, (post ++ [0%Z])]. }
    specialize (IH (pre ++ split_of l ++ [0%Z]) HF). rewrite ED in *. apply splits_line; [done|].
    rewrite <- !(assoc_L app) in IH. exact IH.
Qed.

Lemma load_file lines : Forall line_ok lines -> ini_load (file_of lines) = Some (data_of lines).
Proof. intros HF. apply splits_load. exact (splits_file lines [] HF). Qed.

(** ** Looking up *)

(** The first string in [l], which starts at [n]; the end of the data when there is none. *)
Fixpoint start (n : nat) (l : list Z) : nat :=
  match l with
  | [] => n - 1
  | c :: l => if (c =? 0)%Z then start (S n) l else n
  end.

Lemma start_zeros g n l : start n (zeros g ++ l) = start (n + length g) l.
Proof.
  revert n. induction g as [|c g IH]; intros n; cbn [zeros length replicate app start]; [by rewrite Nat.add_0_r|].
  fold (zeros g). rewrite IH. f_equal. lia.
Qed.

Lemma skip_zeros_app l : forall n p pre,
  p = length pre -> n = length l - 1 -> l <> [] -> last l = Some 0%Z -> skip_zeros n p (pre ++ l) = Some (start p l).
Proof.
  induction l as [|c l IH]; intros n p pre Hp Hn Hl HL; [done|]. cbn [length] in Hn. assert (n = length l) as -> by lia. clear Hn.
  destruct l as [|d l].
  - injection HL as ->. cbn. f_equal. lia.
  - change (length (d :: l)) with (S (length l)). cbn [skip_zeros]. rewrite lookup_mid by done. cbn [mbind option_bind].
    remember (d :: l) as l' eqn:El. cbn [start]. case_test; [|done].
    change (pre ++ c :: l') with (pre ++ [c] ++ l'). rewrite (assoc_L app). apply IH.
    + subst p. rewrite length_app. cbn. lia.
    + subst l'. cbn. lia.
    + by subst l'.
    + subst l'. exact HL.
Qed.

Lemma next_app t : forall p pre l,
  p = length pre -> Forall (fun c => c <> 0%Z) t -> last (0%Z :: l) = Some 0%Z ->
  next p (pre ++ t ++ 0%Z :: l) = Some (start (p + length t) (0%Z :: l)).
Proof.
  intros p pre l Hp HF HL. unfold next, strlen. rewrite drop_mid by done.
  rewrite strcspn_app; [|by eapply Forall_impl; [exact HF|]; split|by left]. cbn [mbind option_bind].
  rewrite (assoc_L app). apply skip_zeros_app; [by rewrite length_app; subst| |done|done].
  unfold end_of. rewrite length_app. cbn [length]. rewrite length_app. subst p. lia.
Qed.

Lemma string_app p pre s post :
  p = length pre -> Forall (fun c => c <> 0%Z) s -> string_at (Z.of_nat p) (pre ++ s ++ 0%Z :: post) = Some s.
Proof. intros -> HF. by apply string_at_app. Qed.

Lemma free_string cs l : free_of cs l -> Forall (fun c => c <> 0%Z) l.
Proof. intros HF. eapply Forall_impl; [exact HF|]. by intros c [Hc _]. Qed.

Lemma strcmpci_spec a : forall b, Forall (fun c => c <> 0%Z) a -> Forall (fun c => c <> 0%Z) b ->
  (strcmpci a b =? 0)%Z = same_name a b.
Proof.
  assert (HT : forall c, c <> 0%Z -> tolower c <> 0%Z).
  { intros c Hc. unfold tolower. case_test; to_prop; lia. }
  unfold same_name. induction a as [|x a IH]; intros [|y b] Ha Hb; cbn [strcmpci map].
  - by rewrite bool_decide_eq_true_2.
  - apply Forall_cons in Hb as [Hy _]. rewrite bool_decide_eq_false_2 by done. apply Z.eqb_neq. specialize (HT y Hy). lia.
  - apply Forall_cons in Ha as [Hx _]. rewrite bool_decide_eq_false_2 by done. apply Z.eqb_neq. by apply HT.
  - apply Forall_cons in Ha as [Hx Ha]. apply Forall_cons in Hb as [Hy Hb].
    destruct (Z.eqb_spec (tolower x - tolower y) 0) as [E|E].
    + rewrite IH by done. apply bool_decide_ext. replace (tolower y) with (tolower x) by lia. split; congruence.
    + rewrite (proj2 (Z.eqb_neq _ _) E). symmetry. apply bool_decide_eq_false_2. intros [= E2 _]. lia.
Qed.

(** The loop's result, with enough fuel, and the string it points to. *)
Definition yields (p : nat) (cur section key buf : list Z) (v : option (list Z)) : Prop :=
  exists fuel r, get_loop fuel p cur section key buf = Some r /\
    match v with
    | Some s => exists q, r = Some q /\ string_at (Z.of_nat q) buf = Some s
    | None => r = None
    end.

Lemma data_last lines : last (data_of lines) = Some 0%Z.
Proof. unfold data_of. apply last_snoc. Qed.

Lemma last_cons_data c lines : last (c :: data_of lines) = Some 0%Z.
Proof. unfold data_of. change (c :: ?l ++ [0%Z]) with ((c :: l) ++ [0%Z]). apply last_snoc. Qed.

Lemma data_suffix l lines : last (l ++ data_of lines) = Some 0%Z.
Proof. unfold data_of. rewrite (assoc_L app). apply last_snoc. Qed.

Lemma zeros_app g h : zeros (g ++ h) = zeros g ++ zeros h.
Proof. unfold zeros. by rewrite length_app, replicate_add. Qed.

Lemma zeros_cons g l : zeros g ++ 0%Z :: l = 0%Z :: zeros g ++ l.
Proof. unfold zeros. induction g as [|c g IH]; [done|]. cbn [length replicate app]. by rewrite IH. Qed.

Lemma data_cons l lines : data_of (l :: lines) = split_of l ++ 0%Z :: data_of lines.
Proof. unfold data_of. cbn [map concat]. by rewrite <- !(assoc_L app). Qed.

(** A section line: the loop continues after it with the section's name. *)
Lemma yields_section n lines section key pre cur :
  Forall (fun c => c <> 0%Z) n ->
  yields (start (length (pre ++ (c_open :: n ++ [0%Z]) ++ [0%Z])) (data_of lines)) n section key
    (pre ++ (c_open :: n ++ [0%Z]) ++ 0%Z :: data_of lines) (entry_of n lines section key) ->
  yields (length pre) cur section key (pre ++ (c_open :: n ++ [0%Z]) ++ 0%Z :: data_of lines)
    (entry_of n lines section key).
Proof.
  intros Hn (fuel & r & E & HR). exists (S fuel), r. split; [|exact HR].
  cbn [get_loop]. cbn [app] in *. rewrite <- ?(assoc_L app) in *. cbn [app] in *.
  rewrite decide_True by (destruct n; apply end_mid). rewrite lookup_mid by done. cbn [mbind option_bind].
  rewrite Z.eqb_refl.
  pose proof (string_app (S (length pre)) (pre ++ [c_open]) n (0%Z :: data_of lines)
    ltac:(rewrite length_app; cbn; lia) Hn) as ES. rewrite <- (assoc_L app) in ES. cbn [app] in ES. rewrite ES.
  cbn [mbind option_bind].
  pose proof (next_app (c_open :: n) (length pre) pre (0%Z :: data_of lines) eq_refl
    ltac:(by constructor) (last_cons_data 0%Z lines)) as EN. cbn [app start Z.eqb] in EN. rewrite EN.
  cbn [mbind option_bind]. rewrite !length_app in E. cbn [length] in E. rewrite length_app in E. cbn [length] in E.
  rewrite <- E. f_equal. cbn [length]. do 2 f_equal. lia.
Qed.

(** An entry, as a key, zeros, a value and zeros: the value when the names are those asked for,
    what the rest yields otherwise. *)
Lemma yields_entry c k g v g3 lines section key pre cur :
  Forall (fun c => c <> 0%Z) (c :: k) -> Forall (fun c => c <> 0%Z) v -> v <> [] -> c <> c_open ->
  Forall (fun c => c <> 0%Z) section -> Forall (fun c => c <> 0%Z) key -> Forall (fun c => c <> 0%Z) cur ->
  let buf := pre ++ (c :: k) ++ 0%Z :: zeros g ++ v ++ 0%Z :: zeros g3 ++ data_of lines in
  let q := length (pre ++ (c :: k) ++ 0%Z :: zeros g) in
  yields (start (q + length v + 1 + length g3) (data_of lines)) cur section key buf (entry_of cur lines section key) ->
  yields (length pre) cur section key buf
    (if same_name section cur && same_name (c :: k) key then Some v else entry_of cur lines section key).
Proof.
  intros HK HV Hne Ho Hsec Hkey Hcur buf q (fuel & r & E & HR).
  assert (EB : buf = (pre ++ (c :: k) ++ 0%Z :: zeros g) ++ v ++ 0%Z :: zeros g3 ++ data_of lines)
    by (unfold buf; by rewrite <- !(assoc_L app)).
  assert (N1 : next (length pre) buf = Some q).
  { unfold buf. rewrite next_app; [|done|done|rewrite !app_comm_cons, !(assoc_L app); apply data_suffix].
    f_equal. cbn [start Z.eqb]. rewrite start_zeros. destruct v as [|d v]; [done|]. apply Forall_cons in HV as [Hd _].
    cbn [app start]. destruct (Z.eqb_spec d 0); [done|].
    unfold q. rewrite !length_app. cbn [length]. rewrite length_zeros. lia. }
  assert (S1 : string_at (Z.of_nat (length pre)) buf = Some (c :: k)) by by apply string_app.
  assert (S2 : string_at (Z.of_nat q) buf = Some v) by (rewrite EB; by apply string_app).
  assert (N2 : next q buf = Some (start (q + length v + 1 + length g3) (data_of lines))).
  { rewrite EB, next_app; [|done|done|rewrite app_comm_cons; apply data_suffix].
    f_equal. cbn [start Z.eqb]. rewrite start_zeros. f_equal. lia. }
  exists (S fuel). cbn [get_loop]. rewrite decide_True by (unfold buf; cbn [app]; destruct k; apply end_mid).
  replace (buf !! length pre) with (Some c) by (unfold buf; symmetry; by apply lookup_mid).
  cbn [mbind option_bind]. rewrite (proj2 (Z.eqb_neq c c_open) Ho), N1. cbn [mbind option_bind]. rewrite S1.
  cbn [mbind option_bind]. rewrite !strcmpci_spec by done. case_test; [by exists (Some q); split; [|exists q]|].
  rewrite N2. cbn [mbind option_bind]. exists r. done.
Qed.

Lemma split_entry_data k g1 g2 v g3 lines :
  split_of (LEntry k g1 g2 v g3) ++ 0%Z :: data_of lines =
  k ++ 0%Z :: zeros (g1 ++ g2) ++ v ++ 0%Z :: zeros g3 ++ data_of lines.
Proof.
  cbn [split_of]. rewrite zeros_app, <- !(assoc_L app). cbn [app]. rewrite <- !(assoc_L app), !zeros_cons.
  by rewrite <- ?(assoc_L app).
Qed.

Lemma yields_lines lines section key : Forall (fun c => c <> 0%Z) section -> Forall (fun c => c <> 0%Z) key ->
  forall pre cur, Forall line_ok lines -> Forall (fun c => c <> 0%Z) cur ->
  yields (start (length pre) (data_of lines)) cur section key (pre ++ data_of lines) (entry_of cur lines section key).
Proof.
  intros Hsec Hkey. induction lines as [|l lines IH]; intros pre cur HF Hcur.
  { exists 1, None. split; [|done]. cbn. rewrite decide_False; [done|]. unfold end_of. rewrite length_app. cbn. lia. }
  apply Forall_cons in HF as [Hl HF]. rewrite data_cons.
  assert (HZ : forall cur z, Forall (fun c => c <> 0%Z) cur ->
      yields (start (length (pre ++ z ++ [0%Z])) (data_of lines)) cur section key
      (pre ++ z ++ 0%Z :: data_of lines) (entry_of cur lines section key)).
  { intros cur' z Hcur'. specialize (IH (pre ++ z ++ [0%Z]) cur' HF Hcur'). by rewrite <- !(assoc_L app) in IH. }
  destruct l as [s|t|n|k g1 g2 v g3].
  - specialize (HZ cur (zeros s) Hcur). cbn [split_of entry_of]. rewrite start_zeros. cbn [start Z.eqb].
    rewrite !length_app, length_zeros in HZ. cbn [length] in HZ.
    by replace (S (length pre + length s)) with (length pre + (length s + 1)) by lia.
  - specialize (HZ cur (0%Z :: zeros t) Hcur). cbn [split_of entry_of app start Z.eqb]. rewrite start_zeros.
    cbn [start Z.eqb]. rewrite !length_app in HZ. cbn [length] in HZ. rewrite length_zeros in HZ.
    by replace (S (S (length pre) + length t)) with (length pre + (S (length t) + 1)) by lia.
  - pose proof (free_string _ _ Hl) as Hn. apply (yields_section n lines section key pre cur Hn). by apply HZ.
  - specialize (HZ cur (split_of (LEntry k g1 g2 v g3)) Hcur). rewrite split_entry_data in *. cbn [entry_of].
    destruct Hl as (Hk & _ & (c & k' & -> & Ho) & Hv & Tv & _ & _).
    pose proof (free_string _ _ Hk) as HK. pose proof (free_string _ _ Hv) as HV.
    destruct (trimmed_first v Tv) as (d & v' & Ed & _).
    assert (start (length pre) ((c :: k') ++ 0%Z :: zeros (g1 ++ g2) ++ v ++ 0%Z :: zeros g3 ++ data_of lines) = length pre) as ->.
    { apply Forall_cons in HK as [Hc _]. cbn [app start]. by destruct (Z.eqb_spec c 0). }
    apply yields_entry; try done; [by rewrite Ed| |].
    { unfold one_of in Ho. cbn [existsb] in Ho. apply orb_false_iff in Ho as [Ho _]. by apply Z.eqb_neq. }
    match type of HZ with yields (start ?a _) _ _ _ _ _ => match goal with |- yields (start ?b _) _ _ _ _ _ =>
      replace b with a; [exact HZ|] end end.
    cbn [split_of]. rewrite !length_app. cbn [length]. rewrite ?length_app. cbn [length].
    rewrite ?length_app, ?length_zeros. cbn [length]. rewrite ?length_app, ?length_zeros. lia.
Qed.

Lemma get_loop_mono fuel : forall p cur section key buf r fuel',
  get_loop fuel p cur section key buf = Some r -> fuel <= fuel' -> get_loop fuel' p cur section key buf = Some r.
Proof.
  induction fuel as [|fuel IH]; intros p cur section key buf r [|fuel'] E Hf; try done; [lia|]. cbn [get_loop] in *.
  case_decide; [|done]. destruct (buf !! p) as [c|]; [|done]. cbn [mbind option_bind] in *. case_test.
  - destruct (string_at _ buf); [|done]. cbn [mbind option_bind] in *. destruct (next p buf); [|done].
    cbn [mbind option_bind] in *. apply IH; [done|lia].
  - destruct (next p buf) as [q|]; [|done]. cbn [mbind option_bind] in *. destruct (string_at _ buf); [|done].
    cbn [mbind option_bind] in *. case_test; [done|]. destruct (next q buf); [|done].
    cbn [mbind option_bind] in *. apply IH; [done|lia].
Qed.

Lemma good_data lines : good (data_of lines).
Proof. unfold data_of. apply good_file. Qed.

Lemma get_lines lines section key :
  Forall line_ok lines -> Forall (fun c => c <> 0%Z) section -> Forall (fun c => c <> 0%Z) key ->
  ini_get (data_of lines) section key = entry_of [] lines section key.
Proof.
  intros HF Hs Hk. destruct (yields_lines lines section key Hs Hk [] [] HF (Forall_nil_2 _)) as (fuel & r & E & HR).
  cbn [app length] in E, HR. destruct (ini_find_runs (data_of lines) section key (good_data lines)) as (r' & E' & _).
  unfold ini_get. rewrite E'. assert (r' = r) as ->.
  { unfold ini_find in E'. destruct (data_of lines) as [|c l] eqn:ED; [done|]. cbn [lookup list_lookup mbind option_bind] in E'.
    assert (HN : (if (c =? 0)%Z then next 0 (c :: l) else Some 0) = Some (start 0 (c :: l))).
    { cbn [start]. destruct (Z.eqb_spec c 0) as [->|]; [|done].
      apply (next_app [] 0 [] l); [done..|]. rewrite <- ED. apply data_last. }
    rewrite HN in E'. cbn [mbind option_bind] in E'.
    apply (get_loop_mono _ _ _ _ _ _ _ (fuel `max` length (c :: l))) in E; [|lia].
    apply (get_loop_mono _ _ _ _ _ _ _ (fuel `max` length (c :: l))) in E'; [|lia]. congruence. }
  destruct (entry_of [] lines section key); [by destruct HR as (q & -> & ->)|by rewrite HR].
Qed.

(** ** Properties *)

(** C31. Any file can be read. Whatever bytes a configuration file holds, splitting it
    ends and never reads or writes outside the buffer; the same goes for every lookup
    in the result, whose pointer, if it is not NULL, points to a string inside. *)
Theorem ini_total file :
  exists buf, ini_load file = Some buf /\ length buf = S (length file) /\
    forall section key, exists r, ini_find buf section key = Some r /\
      forall p, r = Some p -> exists s, string_at (Z.of_nat p) buf = Some s.
Proof.
  destruct (ini_load_runs file) as (buf & E & HG & HL). exists buf. split; [done|].
  split; [rewrite HL, length_app; cbn; lia|]. intros section key.
  destruct (ini_find_runs buf section key HG) as (r & Er & Hr). exists r. split; [done|].
  intros p ->. by apply string_at_runs, Hr.
Qed.

(** C32. A configuration is read as it is written. In a file made of blank lines,
    comments, section headers and entries, with any blanks around keys and values and
    any line ends, the value looked up for a key of a section is the value of the
    first such entry, case ignored in both names, and NULL when there is none. *)
Theorem ini_get_correct lines section key :
  Forall line_ok lines -> Forall (fun c => c <> 0%Z) section -> Forall (fun c => c <> 0%Z) key ->
  exists buf, ini_load (file_of lines) = Some buf /\
    ini_get buf section key = entry_of [] lines section key.
Proof. intros HF Hs Hk. exists (data_of lines). split; [by apply load_file|by apply get_lines]. Qed.

(** ** Witnesses *)

Module Witness.

(** [; vm], an empty line, [[Cpu]] and [ nr_cpus = 2], the names as characters. *)
Definition sample : list line :=
  [LComment [118; 109]%Z; LBlank []; LSection [67; 112; 117]%Z;
   LEntry [110; 114]%Z [32]%Z [32; 9]%Z [50]%Z [13]%Z].

Lemma sample_ok : Forall line_ok sample.
Proof.
  assert (HT : forall c, blank c = false -> trimmed [c]).
  { intros c Hc. exists c, [], c. split; [by right|]. split; [by exists []|]. done. }
  assert (HK : trimmed [110; 114]%Z).
  { exists 110%Z, [114]%Z, 114%Z. split; [by left|]. split; [by exists [110]%Z|]. done. }
  repeat constructor; try done; try apply HT; try apply HK; try done; by eexists _, _.
Qed.

(** Looking up [NR] in [cpu]. *)
Lemma ini_get_correct_witness :
  exists buf, ini_load (file_of sample) = Some buf /\ ini_get buf [99; 112; 117]%Z [78; 82]%Z = Some [50]%Z.
Proof.
  exact (ini_get_correct sample [99; 112; 117]%Z [78; 82]%Z sample_ok
    ltac:(by repeat constructor) ltac:(by repeat constructor)).
Defined.

End Witness.
