(* ===== verification/Fdt.v ===== *)
(** * The flattened device tree

    Models src/vmm/fdt.c: the builder that lays the tokens and the property names of a
    device tree down in two buffers and merges them, and the scanner that walks the
    finished blob. The strings of the C code are lists of bytes without a zero. A failed
    [ASSERT] is [Failed]; an access outside a buffer, which C leaves undefined, ends the
    builder's run with an outcome of its own ([wild]). The scanner's output is the list
    of what it logs, an access outside the blob has no result.

    Proved here: the builder succeeds exactly when both buffers are large enough, and
    then lays down the header, the tokens and the names byte for byte as the device
    tree format prescribes; the scanner finds in such a blob exactly the properties
    that were put in, each with its node, its name, its length and the place of its
    value. *)

From S2P Require Import Prelude Monad Bytes.
Local Open Scope Z_scope.

Definition FDT_MAGIC : Z := 0xd00dfeed.
Definition FDT_BEGIN_NODE : Z := 1.
Definition FDT_END_NODE : Z := 2.
Definition FDT_PROP : Z := 3.
Definition FDT_NOP : Z := 4.
Definition FDT_END : Z := 9.

(** The fields of [struct fdt_header], by offset.
    src/vmm/fdt.h:11-22 fdt_header *)
Definition fh_magic : Z := 0.
Definition fh_totalsize : Z := 4.
Definition fh_off_dt_struct : Z := 8.
Definition fh_off_dt_strings : Z := 12.
Definition fh_off_mem_rsvmap : Z := 16.
Definition fh_version : Z := 20.
Definition fh_last_comp_version : Z := 24.
Definition fh_size_dt_strings : Z := 32.
Definition fh_size_dt_struct : Z := 36.
Definition sizeof_fdt_header : Z := 40.
Definition sizeof_fdt_property : Z := 8.

(** src/vmm/fdt.h:37-50 fdt_build_blob *)
Record fdt_build_blob := {
  buffer : list Z; buffer_size : Z; buffer_iptr : Z;
  string_buffer : list Z; string_buffer_size : Z; string_buffer_iptr : Z;
  harts_phandles : list Z;
  hart_interrupt_controllers_phandles : list Z;
  phandle_generator : Z
}.

Definition set_buffer v (b : fdt_build_blob) : fdt_build_blob :=
  {| buffer := v; buffer_size := buffer_size b; buffer_iptr := buffer_iptr b;
     string_buffer := string_buffer b; string_buffer_size := string_buffer_size b;
     string_buffer_iptr := string_buffer_iptr b; harts_phandles := harts_phandles b;
     hart_interrupt_controllers_phandles := hart_interrupt_controllers_phandles b;
     phandle_generator := phandle_generator b |}.
Definition set_buffer_iptr v (b : fdt_build_blob) : fdt_build_blob :=
  {| buffer := buffer b; buffer_size := buffer_size b; buffer_iptr := v;
     string_buffer := string_buffer b; string_buffer_size := string_buffer_size b;
     string_buffer_iptr := string_buffer_iptr b; harts_phandles := harts_phandles b;
     hart_interrupt_controllers_phandles := hart_interrupt_controllers_phandles b;
     phandle_generator := phandle_generator b |}.
Definition set_string_buffer v (b : fdt_build_blob) : fdt_build_blob :=
  {| buffer := buffer b; buffer_size := buffer_size b; buffer_iptr := buffer_iptr b;
     string_buffer := v; string_buffer_size := string_buffer_size b;
     string_buffer_iptr := string_buffer_iptr b; harts_phandles := harts_phandles b;
     hart_interrupt_controllers_phandles := hart_interrupt_controllers_phandles b;
     phandle_generator := phandle_generator b |}.
Definition set_string_buffer_iptr v (b : fdt_build_blob) : fdt_build_blob :=
  {| buffer := buffer b; buffer_size := buffer_size b; buffer_iptr := buffer_iptr b;
     string_buffer := string_buffer b; string_buffer_size := string_buffer_size b;
     string_buffer_iptr := v; harts_phandles := harts_phandles b;
     hart_interrupt_controllers_phandles := hart_interrupt_controllers_phandles b;
     phandle_generator := phandle_generator b |}.
Definition set_harts_phandles v (b : fdt_build_blob) : fdt_build_blob :=
  {| buffer := buffer b; buffer_size := buffer_size b; buffer_iptr := buffer_iptr b;
     string_buffer := string_buffer b; string_buffer_size := string_buffer_size b;
     string_buffer_iptr := string_buffer_iptr b; harts_phandles := v;
     hart_interrupt_controllers_phandles := hart_interrupt_controllers_phandles b;
     phandle_generator := phandle_generator b |}.
Definition set_hart_interrupt_controllers_phandles v (b : fdt_build_blob) : fdt_build_blob :=
  {| buffer := buffer b; buffer_size := buffer_size b; buffer_iptr := buffer_iptr b;
     string_buffer := string_buffer b; string_buffer_size := string_buffer_size b;
     string_buffer_iptr := string_buffer_iptr b; harts_phandles := harts_phandles b;
     hart_interrupt_controllers_phandles := v; phandle_generator := phandle_generator b |}.
Definition set_phandle_generator v (b : fdt_build_blob) : fdt_build_blob :=
  {| buffer := buffer b; buffer_size := buffer_size b; buffer_iptr := buffer_iptr b;
     string_buffer := string_buffer b; string_buffer_size := string_buffer_size b;
     string_buffer_iptr := string_buffer_iptr b; harts_phandles := harts_phandles b;
     hart_interrupt_controllers_phandles := hart_interrupt_controllers_phandles b;
     phandle_generator := v |}.

Abbreviation build := (prog fdt_build_blob).

(** src/vmm/fdt.h:52-58 generate_phandle *)
Definition generate_phandle : build Z := fun b =>
  Ok (phandle_generator b) (set_phandle_generator (phandle_generator b + 1) b).

(** ** The builder *)

(** An access outside a buffer. C leaves open what it does; here it ends the run the way
    a signal ends a process, and is told apart from a failed [ASSERT]. *)
Definition SIGSEGV_STATUS : Z := 139.
Definition wild {A} : build A := fun b => Exited SIGSEGV_STATUS b.
Definition in_the_buffer {A} (o : option A) : build A :=
  match o with Some a => ret a | None => wild end.

(** A copy into the buffer, and the store of a word through [BIG_ENDIAN32]. *)
Definition put (off : Z) (bytes : list Z) : build unit :=
  let* b := get in
  let* buf := in_the_buffer (store_at off bytes (buffer b)) in
  modify (set_buffer buf).
Definition put_be (off v : Z) : build unit := put off (le32 (swap32 v)).
Definition put_string (off : Z) (bytes : list Z) : build unit :=
  let* b := get in
  let* buf := in_the_buffer (store_at off bytes (string_buffer b)) in
  modify (set_string_buffer buf).
Definition advance_iptr (n : Z) : build unit :=
  modify (fun b => set_buffer_iptr (u32 (buffer_iptr b + n)) b).

(** The blob after [memset] and the allocations. *)
Definition empty_blob (size string_size : Z) : fdt_build_blob :=
  {| buffer := replicate (Z.to_nat size) 0; buffer_size := size; buffer_iptr := 0;
     string_buffer := replicate (Z.to_nat string_size) 0; string_buffer_size := string_size;
     string_buffer_iptr := 0; harts_phandles := replicate 64 0;
     hart_interrupt_controllers_phandles := replicate 64 0; phandle_generator := 1 |}.

(** src/vmm/fdt.c:18-48 fdt_build_init *)
Definition fdt_build_init (size string_size : Z) : build unit :=
  modify (fun _ => empty_blob size string_size) ;;;
  put_be fh_magic FDT_MAGIC ;;;
  put_be fh_version 17 ;;;
  put_be fh_last_comp_version 2 ;;;
  modify (set_buffer_iptr sizeof_fdt_header) ;;;
  modify (fun b => set_buffer_iptr (ALIGN4 (buffer_iptr b)) b) ;;;
  let* b := get in
  put_be fh_off_mem_rsvmap (buffer_iptr b) ;;;
  advance_iptr 16 ;;;
  modify (fun b => set_buffer_iptr (ALIGN4 (buffer_iptr b)) b) ;;;
  let* b := get in
  put_be fh_off_dt_struct (buffer_iptr b).

(** src/vmm/fdt.c:51-61 fdt_begin_node *)
Definition fdt_begin_node (node_name : list Z) : build unit :=
  let* b := get in
  let room_available := u32 (buffer_size b - buffer_iptr b) in
  let room_needed := ALIGN4 (u32 (4 + len node_name + 1)) in
  ASSERT (room_needed <=? room_available) ;;;
  put_be (buffer_iptr b) FDT_BEGIN_NODE ;;;
  put (buffer_iptr b + 4) node_name ;;;
  advance_iptr room_needed.

(** The value is read from an array that holds at least [prop_len] bytes.
    src/vmm/fdt.c:63-85 fdt_prop *)
Definition fdt_prop (prop_name : list Z) (prop_len : Z) (prop_value : list Z) : build unit :=
  let* b := get in
  let room_available := u32 (buffer_size b - buffer_iptr b) in
  let room_needed := ALIGN4 (u32 (4 + sizeof_fdt_property + prop_len)) in
  ASSERT (room_needed <=? room_available) ;;;
  put_be (buffer_iptr b) FDT_PROP ;;;
  put_be (buffer_iptr b + 4) prop_len ;;;
  put_be (buffer_iptr b + 8) (string_buffer_iptr b) ;;;
  let* value := in_the_buffer (load_at 0 prop_len prop_value) in
  put (buffer_iptr b + 4 + sizeof_fdt_property) value ;;;
  advance_iptr room_needed ;;;
  let name_size := u32 (len prop_name + 1) in
  ASSERT (name_size <? u32 (string_buffer_size b - string_buffer_iptr b)) ;;;
  put_string (string_buffer_iptr b) (prop_name ++ [0]) ;;;
  modify (fun b => set_string_buffer_iptr (u32 (string_buffer_iptr b + name_size)) b).

(** src/vmm/fdt.c:87-95 fdt_end_node *)
Definition fdt_end_node : build unit :=
  let* b := get in
  ASSERT (4 <=? u32 (buffer_size b - buffer_iptr b)) ;;;
  put_be (buffer_iptr b) FDT_END_NODE ;;;
  advance_iptr 4.

(** src/vmm/fdt.c:97-105 fdt_nop *)
Definition fdt_nop : build unit :=
  let* b := get in
  ASSERT (4 <=? u32 (buffer_size b - buffer_iptr b)) ;;;
  put_be (buffer_iptr b) FDT_NOP ;;;
  advance_iptr 4.

(** src/vmm/fdt.c:108-132 fdt_end *)
Definition fdt_end : build unit :=
  let* b := get in
  ASSERT (4 <=? u32 (buffer_size b - buffer_iptr b)) ;;;
  put_be (buffer_iptr b) FDT_END ;;;
  advance_iptr 4 ;;;
  let* b := get in
  put_be fh_off_dt_strings (buffer_iptr b) ;;;
  put_be fh_size_dt_strings (string_buffer_iptr b) ;;;
  let* b := get in
  let* off_dt_struct := in_the_buffer (load32_at fh_off_dt_struct (buffer b)) in
  put_be fh_size_dt_struct (u32 (buffer_iptr b - swap32 off_dt_struct)) ;;;
  put_be fh_totalsize (u32 (buffer_iptr b + string_buffer_iptr b)) ;;;
  let* b := get in
  ASSERT (string_buffer_iptr b <=? u32 (buffer_size b - buffer_iptr b)) ;;;
  let* strings := in_the_buffer (load_at 0 (string_buffer_iptr b) (string_buffer b)) in
  put (buffer_iptr b) strings ;;;
  advance_iptr (string_buffer_iptr b).

(** ** The scanner *)

(** A line of the log: the node begun last, the property's name and length, and the
    offset of its value in the blob. *)
Record property_log := {
  log_node : option (list Z);
  log_prop : list Z;
  log_length : Z;
  log_value : Z
}.

(** The loop; each round consumes at least the four bytes of a token. The blob is
    aligned, so aligning a pointer into it is aligning the offset.
    src/vmm/fdt.c:373-408 scan_fdt_tokens *)
Fixpoint scan_tokens (fuel : nat) (dtb : list Z) (ptr : Z) (node_name : option (list Z)) :
    option (list property_log) :=
  match fuel with
  | O => None
  | S fuel =>
      token ← load32_at ptr dtb;
      let token := swap32 token in
      let ptr := ptr + 4 in
      if token =? FDT_BEGIN_NODE then
        name ← string_at ptr dtb;
        scan_tokens fuel dtb (ALIGN4 (ptr + len name + 1)) (Some name)
      else if token =? FDT_PROP then
        l ← load32_at ptr dtb;
        nameoff ← load32_at (ptr + 4) dtb;
        off_dt_strings ← load32_at fh_off_dt_strings dtb;
        name ← string_at (swap32 off_dt_strings + swap32 nameoff) dtb;
        let node_prop_length := s32 (swap32 l) in
        let node_prop_value := ptr + sizeof_fdt_property in
        rest ← scan_tokens fuel dtb (ALIGN4 (node_prop_value + node_prop_length)) node_name;
        Some ({| log_node := node_name; log_prop := name; log_length := node_prop_length;
                 log_value := node_prop_value |} :: rest)
      else if token =? FDT_NOP then scan_tokens fuel dtb ptr node_name
      else if token =? FDT_END_NODE then scan_tokens fuel dtb ptr node_name
      else if token =? FDT_END then Some []
      else None
  end.

(** src/vmm/fdt.c:361-409 scan_fdt_tokens *)
Definition scan_fdt_tokens (dtb : list Z) : option (list property_log) :=
  off_dt_struct ← load32_at fh_off_dt_struct dtb;
  scan_tokens (length dtb) dtb (swap32 off_dt_struct) None.

(** ** The format *)

(** The tokens of a structure block. *)
Inductive item :=
  | IBegin (name : list Z)
  | IProp (name value : list Z)
  | INop
  | IEnd.

Definition emit (i : item) : build unit :=
  match i with
  | IBegin name => fdt_begin_node name
  | IProp name value => fdt_prop name (len value) value
  | INop => fdt_nop
  | IEnd => fdt_end_node
  end.

Fixpoint emit_all (its : list item) : build unit :=
  match its with [] => ret tt | i :: its => emit i ;;; emit_all its end.

(** The strings block holds the name of every property, in order. *)
Definition item_name (i : item) : list Z :=
  match i with IProp name _ => name ++ [0] | _ => [] end.
Fixpoint names_of (its : list item) : list Z :=
  match its with [] => [] | i :: its => item_name i ++ names_of its end.

(** The bytes of a token whose name, if it is a property, is at [nameoff]. *)
Definition item_bytes (nameoff : Z) (i : item) : list Z :=
  match i with
  | IBegin name => be32 FDT_BEGIN_NODE ++ pad (name ++ [0])
  | IProp _ value => be32 FDT_PROP ++ be32 (len value) ++ be32 nameoff ++ pad value
  | INop => be32 FDT_NOP
  | IEnd => be32 FDT_END_NODE
  end.
Fixpoint struct_bytes (nameoff : Z) (its : list item) : list Z :=
  match its with
  | [] => []
  | i :: its => item_bytes nameoff i ++ struct_bytes (nameoff + len (item_name i)) its
  end.

(** The header, with an empty reservation block behind it. *)
Definition header (totalsize off_strings size_strings size_struct : Z) : list Z :=
  be32 FDT_MAGIC ++ be32 totalsize ++ be32 56 ++ be32 off_strings ++ be32 40 ++ be32 17 ++ be32 2 ++
  be32 0 ++ be32 size_strings ++ be32 size_struct ++ replicate 16 0.

(** The device tree blob of a structure. *)
Definition blob_of (its : list item) : list Z :=
  let tokens := struct_bytes 0 its ++ be32 FDT_END in
  let names := names_of its in
  header (56 + len tokens + len names) (56 + len tokens) (len names) (len tokens) ++ tokens ++ names.

(** Names are C strings. *)
Definition item_ok (i : item) : Prop :=
  match i with IBegin name | IProp name _ => c_string name | _ => True end.

(** The buffers have room: the names need a byte to spare. *)
Definition fits (its : list item) (size string_size : Z) : bool :=
  (len (blob_of its) <=? size) && ((len (names_of its) =? 0) || (len (names_of its) <? string_size)).

(** ** What the builder has built *)

Lemma struct_bytes_app off a c :
  struct_bytes off (a ++ c) = struct_bytes off a ++ struct_bytes (off + len (names_of a)) c.
Proof.
  revert off. induction a as [|i a IH]; intros off; cbn [app struct_bytes names_of].
  - by rewrite len_nil, Z.add_0_r.
  - rewrite IH, len_app, <- (assoc_L app). do 3 f_equal. lia.
Qed.

Lemma names_of_app a c : names_of (a ++ c) = names_of a ++ names_of c.
Proof. induction a as [|i a IH]; cbn [app names_of]; [done|]. by rewrite IH, (assoc_L app). Qed.

(** A buffer of [size] bytes that holds [l] and zeros behind it. *)
Definition holds (size : Z) (l buf : list Z) : Prop :=
  exists k, buf = l ++ replicate k 0 /\ len l + Z.of_nat k = size.

Lemma holds_store size off l bytes buf :
  holds size l buf -> off = len l -> len l + len bytes <= size ->
  exists buf', store_at off bytes buf = Some buf' /\ holds size (l ++ bytes) buf'.
Proof.
  intros (k & -> & Hk) -> Hr. pose proof (len_nonneg bytes).
  replace k with (length bytes + (k - length bytes))%nat by (unfold len in *; lia).
  rewrite replicate_add. rewrite store_at_app by (autorewrite with len; done).
  eexists. split; [done|]. exists (k - length bytes)%nat. rewrite (assoc_L app). split; [done|].
  autorewrite with len. unfold len in *. lia.
Qed.

Lemma holds_zeros size l n buf :
  holds size l buf -> 0 <= n -> len l + n <= size -> holds size (l ++ replicate (Z.to_nat n) 0) buf.
Proof.
  intros (k & -> & Hk) Hn Hr. exists (k - Z.to_nat n)%nat. split.
  - rewrite <- (assoc_L app), <- replicate_add. do 2 f_equal. lia.
  - autorewrite with len. lia.
Qed.

Lemma holds_load size l buf : holds size l buf -> load_at 0 (len l) buf = Some l.
Proof. intros (k & -> & _). by apply (load_at_app 0 (len l) [] l). Qed.

(** The tokens [its] have been emitted. *)
Record building (size string_size : Z) (its : list item) (b : fdt_build_blob) : Prop := {
  bl_buffer : holds size (header 0 0 0 0 ++ struct_bytes 0 its) (buffer b);
  bl_size : buffer_size b = size;
  bl_iptr : buffer_iptr b = 56 + len (struct_bytes 0 its);
  bl_strings : holds string_size (names_of its) (string_buffer b);
  bl_string_size : string_buffer_size b = string_size;
  bl_string_iptr : string_buffer_iptr b = len (names_of its)
}.

Definition small (n : Z) : Prop := 0 <= n < 2 ^ 30.

Lemma len_header a b c d : len (header a b c d) = 56.
Proof. done. Qed.
#[export] Hint Rewrite len_header : len.

Lemma store_at_prefix off bytes l l' rest :
  store_at off bytes l = Some l' -> store_at off bytes (l ++ rest) = Some (l' ++ rest).
Proof.
  unfold store_at. case_test; [|done]. intros [= <-]. unfold in_buffer in *. to_prop. unfold len in *.
  rewrite (proj2 (Z.leb_le _ _)), (proj2 (Z.leb_le _ _)) by (rewrite ?length_app; lia). cbn [andb].
  rewrite take_app_le, drop_app_le by lia. by rewrite <- !(assoc_L app).
Qed.

Lemma load_at_prefix off n l x rest :
  load_at off n l = Some x -> load_at off n (l ++ rest) = Some x.
Proof.
  unfold load_at. case_test; [|done]. intros [= <-]. unfold in_buffer in *. to_prop. unfold len in *.
  rewrite !(proj2 (Z.leb_le _ _)) by (rewrite ?length_app; lia). cbn [andb].
  rewrite drop_app_le by lia. rewrite take_app_le; [done|]. rewrite length_drop. lia.
Qed.

Lemma bind_get {S A} (k : S -> prog S A) s : (let* x := get in k x) s = k s s.
Proof. done. Qed.

Lemma put_eq off bytes b buf :
  store_at off bytes (buffer b) = Some buf -> put off bytes b = Ok tt (set_buffer buf b).
Proof. intros E. unfold put, bind, get. by rewrite E. Qed.

Lemma put_prefix off bytes b l l' rest :
  buffer b = l ++ rest -> store_at off bytes l = Some l' ->
  put off bytes b = Ok tt (set_buffer (l' ++ rest) b).
Proof. intros Hb Hs. apply put_eq. rewrite Hb. by apply store_at_prefix. Qed.

Lemma build_init_eq size string_size b :
  small size -> 56 <= size ->
  fdt_build_init size string_size b =
  Ok tt (set_buffer_iptr 56
    (set_buffer (header 0 0 0 0 ++ replicate (Z.to_nat (size - 56)) 0) (empty_blob size string_size))).
Proof.
  intros Hs H56. unfold fdt_build_init, bind at 1, modify at 1, put_be.
  assert (E : buffer (empty_blob size string_size) = replicate 56 0 ++ replicate (Z.to_nat (size - 56)) 0).
  { unfold empty_blob. cbn [buffer]. rewrite <- replicate_add. f_equal. lia. }
  do 3 (unfold bind at 1; erewrite put_prefix; [|exact E || reflexivity|vm_compute; reflexivity]).
  unfold bind, modify, get, advance_iptr. cbn [buffer_iptr set_buffer_iptr].
  change (ALIGN4 sizeof_fdt_header) with 40.
  erewrite put_prefix; [|reflexivity|vm_compute; reflexivity].
  cbn [buffer_iptr set_buffer_iptr set_buffer modify].
  change (ALIGN4 (u32 (40 + 16))) with 56.
  erewrite put_prefix; [|reflexivity|vm_compute; reflexivity]. reflexivity.
Qed.

Lemma build_init_building size string_size b :
  small size -> 56 <= size -> 0 <= string_size ->
  exists b', fdt_build_init size string_size b = Ok tt b' /\ building size string_size [] b' /\
    phandle_generator b' = 1.
Proof.
  intros Hs H56 Hss. rewrite build_init_eq by done. eexists. split; [done|]. split; [|done].
  split; cbn [struct_bytes names_of]; try done.
  - exists (Z.to_nat (size - 56)). rewrite app_nil_r. split; [done|]. autorewrite with len. lia.
  - exists (Z.to_nat string_size). split; [done|]. autorewrite with len. lia.
Qed.

(** ** One token *)

(** Writing at the end of what the buffer holds. *)
Lemma put_holds size off l bytes b :
  holds size l (buffer b) -> off = len l -> len l + len bytes <= size ->
  exists buf, put off bytes b = Ok tt (set_buffer buf b) /\ holds size (l ++ bytes) buf.
Proof.
  intros Hh Ho Hr. destruct (holds_store size off l bytes (buffer b) Hh Ho Hr) as (buf & E & Hb).
  exists buf. split; [by apply put_eq|done].
Qed.

Lemma put_be_holds size off l v b :
  holds size l (buffer b) -> off = len l -> len l + 4 <= size -> is_uint 32 v ->
  exists buf, put_be off v b = Ok tt (set_buffer buf b) /\ holds size (l ++ be32 v) buf.
Proof.
  intros Hh Ho Hr Hv. unfold put_be. rewrite le32_swap32 by done. by apply put_holds.
Qed.

Lemma holds_len size l buf : holds size l buf -> len l <= size.
Proof. intros (k & _ & Hk). lia. Qed.

Section Token.
Context (size string_size : Z) (its : list item) (b : fdt_build_blob).
Context (HB : building size string_size its b) (Hsize : small size) (Hstring : small string_size).

#[local] Abbreviation used := (56 + len (struct_bytes 0 its)).
#[local] Abbreviation names := (names_of its).

Lemma used_range : 56 <= used <= size.
Proof.
  pose proof (holds_len _ _ _ (bl_buffer _ _ _ _ HB)) as Hl. autorewrite with len in Hl.
  pose proof (len_nonneg (struct_bytes 0 its)). lia.
Qed.

Lemma room_available : u32 (buffer_size b - buffer_iptr b) = size - used.
Proof.
  pose proof used_range. rewrite (bl_size _ _ _ _ HB), (bl_iptr _ _ _ _ HB).
  unfold small in *. apply u32_id. unfold is_uint. change (2 ^ 32) with 4294967296. change (2 ^ 30) with 1073741824 in *. lia.
Qed.

(** The state once a token and its name are in. *)
Lemma building_snoc i buf sbuf iptr siptr :
  holds size (header 0 0 0 0 ++ struct_bytes 0 its ++ item_bytes (len names) i) buf ->
  holds string_size (names ++ item_name i) sbuf ->
  iptr = used + len (item_bytes (len names) i) -> siptr = len names + len (item_name i) ->
  building size string_size (its ++ [i])
    {| buffer := buf; buffer_size := buffer_size b; buffer_iptr := iptr; string_buffer := sbuf;
       string_buffer_size := string_buffer_size b; string_buffer_iptr := siptr;
       harts_phandles := harts_phandles b;
       hart_interrupt_controllers_phandles := hart_interrupt_controllers_phandles b;
       phandle_generator := phandle_generator b |}.
Proof.
  intros Hb Hs -> ->. destruct HB as [_ Hsz _ _ Hss _].
  split; cbn [buffer buffer_size buffer_iptr string_buffer string_buffer_size string_buffer_iptr];
    rewrite ?struct_bytes_app, ?names_of_app; cbn [struct_bytes names_of]; rewrite ?app_nil_r, ?Z.add_0_l;
    autorewrite with len; try done || lia.
Qed.

(** The token and, for a property, its name with a byte to spare find room. *)
Definition room_for (i : item) : bool :=
  (used + len (item_bytes (len names) i) <=? size) &&
  ((len (item_name i) =? 0) || (len names + len (item_name i) <? string_size)).

(** The phandles are not the builder's concern. *)
Definition same_phandles (b1 b2 : fdt_build_blob) : Prop :=
  harts_phandles b2 = harts_phandles b1 /\
  hart_interrupt_controllers_phandles b2 = hart_interrupt_controllers_phandles b1 /\
  phandle_generator b2 = phandle_generator b1.

Definition emits (i : item) : Prop :=
  if room_for i
  then exists b', emit i b = Ok tt b' /\ building size string_size (its ++ [i]) b' /\ same_phandles b b'
  else emit i b = Failed.

Lemma ALIGN4_small n : small n -> ALIGN4 (u32 (4 + n)) = 4 + (n + padding n).
Proof.
  intros Hn. unfold small in Hn. change (2 ^ 30) with 1073741824 in Hn.
  rewrite u32_id by (unfold is_uint; change (2 ^ 32) with 4294967296; lia).
  rewrite ALIGN4_spec by (change (2 ^ 32) with 4294967296; lia). unfold padding. dlia.
Qed.

Lemma advance_eq n s : advance_iptr n s = Ok tt (set_buffer_iptr (u32 (buffer_iptr s + n)) s).
Proof. done. Qed.

Lemma iptr_id n : 0 <= n -> used + n <= size -> u32 (used + n) = used + n.
Proof.
  intros Hn Hr. pose proof used_range. unfold small in *. change (2 ^ 30) with 1073741824 in *.
  apply u32_id. unfold is_uint. change (2 ^ 32) with 4294967296. lia.
Qed.

(** A token of one word. *)
Lemma word_emits i v :
  item_bytes (len names) i = be32 v -> item_name i = [] -> is_uint 32 v ->
  emit i = (let* b := get in ASSERT (4 <=? u32 (buffer_size b - buffer_iptr b)) ;;;
            put_be (buffer_iptr b) v ;;; advance_iptr 4) -> emits i.
Proof.
  intros Hi Hn Hv He. unfold emits, room_for. rewrite Hi, Hn, He. unfold bind, get. rewrite room_available.
  autorewrite with len. cbn [Z.eqb orb]. rewrite andb_true_r.
  replace (4 <=? size - used) with (used + 4 <=? size) by (apply eq_true_iff_eq; rewrite !Z.leb_le; lia).
  destruct (Z.leb_spec (used + 4) size) as [Hr|]; [|done]. unfold ASSERT, ret.
  destruct (put_be_holds size (buffer_iptr b) _ v b (bl_buffer _ _ _ _ HB)) as (buf & -> & Hb);
    [rewrite (bl_iptr _ _ _ _ HB); autorewrite with len; lia|autorewrite with len; lia|done|].
  rewrite advance_eq. eexists. split; [done|]. split; [|done].
  cbn [buffer_iptr set_buffer]. rewrite (bl_iptr _ _ _ _ HB), iptr_id by (done || lia).
  apply building_snoc; rewrite ?Hi, ?Hn, ?app_nil_r; autorewrite with len.
  - by rewrite (assoc_L app).
  - exact (bl_strings _ _ _ _ HB).
  - lia.
  - cbn [string_buffer_iptr set_buffer]. rewrite (bl_string_iptr _ _ _ _ HB). lia.
Qed.

Lemma begin_emits name :
  small (len name + 1) -> emits (IBegin name).
Proof.
  intros Hn. unfold emits, room_for. cbn [emit item_name item_bytes]. unfold fdt_begin_node, bind, get.
  rewrite room_available. replace (4 + len name + 1) with (4 + (len name + 1)) by lia. rewrite ALIGN4_small by done.
  autorewrite with len. cbn [Z.eqb orb]. rewrite andb_true_r, ?Z.add_0_r.
  set (n := len name + 1) in *. pose proof (padding_range n). unfold small in Hn.
  replace (4 + (n + padding n) <=? size - used) with (used + (4 + (n + padding n)) <=? size)
    by (apply eq_true_iff_eq; rewrite !Z.leb_le; lia).
  destruct (Z.leb_spec (used + (4 + (n + padding n))) size) as [Hr|]; [|done]. unfold ASSERT, ret.
  destruct (put_be_holds size (buffer_iptr b) _ FDT_BEGIN_NODE b (bl_buffer _ _ _ _ HB)) as (buf & -> & Hb);
    [rewrite (bl_iptr _ _ _ _ HB); autorewrite with len; lia|autorewrite with len; lia|done|].
  destruct (put_holds size (buffer_iptr b + 4) _ name (set_buffer buf b) Hb) as (buf2 & -> & Hb2);
    [rewrite (bl_iptr _ _ _ _ HB); autorewrite with len; lia|autorewrite with len; lia|].
  rewrite advance_eq. eexists. split; [done|]. split; [|done].
  cbn [buffer_iptr set_buffer]. rewrite (bl_iptr _ _ _ _ HB), iptr_id by (done || lia).
  apply building_snoc; cbn [item_name item_bytes]; rewrite ?app_nil_r; autorewrite with len.
  - apply (holds_zeros _ _ (1 + padding n)) in Hb2; [|lia|autorewrite with len; lia].
    unfold pad. autorewrite with len. replace (Z.to_nat (padding (len name + (1 + 0)))) with (Z.to_nat (padding n))
      by (unfold n; do 2 f_equal; lia).
    rewrite Z2Nat.inj_add, replicate_add in Hb2 by lia. by rewrite <- !(assoc_L app) in *.
  - exact (bl_strings _ _ _ _ HB).
  - subst n. replace (len name + (1 + 0)) with (len name + 1) by lia. lia.
  - cbn [string_buffer_iptr set_buffer]. rewrite (bl_string_iptr _ _ _ _ HB). lia.
Qed.

Lemma load_all (l : list Z) : load_at 0 (len l) l = Some l.
Proof. pose proof (load_at_app 0 (len l) [] l [] eq_refl eq_refl) as E. by rewrite app_nil_r in E. Qed.

Lemma five_steps {S A} (a c d f : prog S unit) (m : prog S A) (e : A -> prog S unit) (k : prog S unit) x s s' :
  m = ret x -> (a ;;; c ;;; d ;;; e x ;;; f) s = Ok tt s' ->
  (a ;;; c ;;; d ;;; let* v := m in e v ;;; f ;;; k) s = k s'.
Proof.
  intros ->. unfold bind, ret. repeat match goal with |- context [match ?x with Ok _ _ => _ | _ => _ end] => destruct x end;
    try done; by intros [= -> ->].
Qed.

(** The token of a property goes in before its name is looked at. *)
Lemma prop_token value :
  small (len value) ->
  let n := 4 + (8 + len value + padding (8 + len value)) in
  used + n <= size ->
  exists buf b2,
    (put_be (buffer_iptr b) FDT_PROP ;;; put_be (buffer_iptr b + 4) (len value) ;;;
     put_be (buffer_iptr b + 8) (string_buffer_iptr b) ;;;
     put (buffer_iptr b + 4 + sizeof_fdt_property) value ;;; advance_iptr n) b = Ok tt b2 /\
    b2 = set_buffer_iptr (used + n) (set_buffer buf b) /\
    holds size (header 0 0 0 0 ++ struct_bytes 0 its ++
      (be32 FDT_PROP ++ be32 (len value) ++ be32 (len names) ++ pad value)) buf.
Proof.
  intros Hv n Hr. pose proof (padding_range (8 + len value)) as Hp. pose proof (len_nonneg value).
  pose proof (holds_len _ _ _ (bl_strings _ _ _ _ HB)) as Hs. pose proof (len_nonneg names).
  unfold bind. subst n. unfold small in *. change (2 ^ 30) with 1073741824 in *.
  assert (Hi : buffer_iptr b = len (header 0 0 0 0 ++ struct_bytes 0 its))
    by (rewrite (bl_iptr _ _ _ _ HB); by autorewrite with len).
  assert (Hu : len (header 0 0 0 0 ++ struct_bytes 0 its) = used) by by autorewrite with len.
  destruct (put_be_holds size (buffer_iptr b) _ FDT_PROP b (bl_buffer _ _ _ _ HB)) as (u1 & -> & H1);
    [done|lia|done|].
  destruct (put_be_holds size (buffer_iptr b + 4) _ (len value) (set_buffer u1 b) H1) as (u2 & -> & H2);
    [autorewrite with len; lia|autorewrite with len; lia|unfold is_uint; change (2 ^ 32) with 4294967296; lia|].
  destruct (put_be_holds size (buffer_iptr b + 8) _ (string_buffer_iptr b) (set_buffer u2 (set_buffer u1 b)) H2)
    as (u3 & -> & H3); [autorewrite with len; lia|autorewrite with len; lia|
      rewrite (bl_string_iptr _ _ _ _ HB); unfold is_uint; change (2 ^ 32) with 4294967296; lia|].
  destruct (put_holds size (buffer_iptr b + 4 + sizeof_fdt_property) _ value
    (set_buffer u3 (set_buffer u2 (set_buffer u1 b))) H3) as (u4 & -> & H4);
    [unfold sizeof_fdt_property; autorewrite with len; lia|autorewrite with len; lia|].
  rewrite advance_eq. cbn [buffer_iptr set_buffer]. rewrite (bl_iptr _ _ _ _ HB), iptr_id by lia.
  exists u4. eexists. split; [done|]. split; [done|].
  apply (holds_zeros _ _ (padding (8 + len value))) in H4; [|lia|autorewrite with len; lia].
  rewrite (bl_string_iptr _ _ _ _ HB) in H4. unfold pad.
  replace (padding (len value)) with (padding (8 + len value)) by (unfold padding; dlia).
  by rewrite <- !(assoc_L app) in *.
Qed.

Lemma prop_needs (value : list Z) :
  small (len value) ->
  ALIGN4 (u32 (4 + sizeof_fdt_property + len value)) = 4 + (8 + len value + padding (8 + len value)).
Proof.
  intros Hv. pose proof (len_nonneg value). change (4 + sizeof_fdt_property + len value) with (4 + 8 + len value).
  unfold small in *. change (2 ^ 30) with 1073741824 in *.
  rewrite u32_id by (unfold is_uint; change (2 ^ 32) with 4294967296; lia).
  rewrite ALIGN4_spec by (change (2 ^ 32) with 4294967296; lia). unfold padding. dlia.
Qed.

(** The property's name, once the token is in. *)
Definition name_part (name : list Z) : build unit :=
  ASSERT (u32 (len name + 1) <? u32 (string_buffer_size b - string_buffer_iptr b)) ;;;
  put_string (string_buffer_iptr b) (name ++ [0]) ;;;
  modify (fun b => set_string_buffer_iptr (u32 (string_buffer_iptr b + u32 (len name + 1))) b).

Lemma prop_first name value :
  small (len value) ->
  let n := 4 + (8 + len value + padding (8 + len value)) in
  if used + n <=? size
  then exists buf, fdt_prop name (len value) value b = name_part name (set_buffer_iptr (used + n) (set_buffer buf b)) /\
    holds size (header 0 0 0 0 ++ struct_bytes 0 its ++
      (be32 FDT_PROP ++ be32 (len value) ++ be32 (len names) ++ pad value)) buf
  else fdt_prop name (len value) value b = Failed.
Proof.
  intros Hv n. unfold fdt_prop. rewrite bind_get, room_available, prop_needs, load_all by done. fold n.
  replace (n <=? size - used) with (used + n <=? size) by (apply eq_true_iff_eq; rewrite !Z.leb_le; lia).
  destruct (Z.leb_spec (used + n) size) as [Hr|]; [|done].
  destruct (prop_token value Hv Hr) as (buf & b2 & E & -> & Hb). exists buf. split; [|done].
  exact (five_steps _ _ _ _ (in_the_buffer (Some value)) (put (buffer_iptr b + 4 + sizeof_fdt_property)) _ value _ _ eq_refl E).
Qed.

Lemma prop_emits name value :
  small (len value) -> small (len name) -> emits (IProp name value).
Proof.
  intros Hv Hn. pose proof (holds_len _ _ _ (bl_strings _ _ _ _ HB)) as Hs. pose proof (len_nonneg names).
  pose proof (len_nonneg name). pose proof (prop_first name value Hv) as HF. cbv zeta in HF.
  unfold emits, room_for. cbn [emit item_name item_bytes].
  assert (HL : len (be32 FDT_PROP ++ be32 (len value) ++ be32 (len names) ++ pad value) =
    4 + (8 + len value + padding (8 + len value))).
  { autorewrite with len. unfold padding. dlia. }
  rewrite HL. revert HF. case_test; cbn [andb]; [|done]. intros (buf & -> & Hb).
  unfold small in *. change (2 ^ 30) with 1073741824 in *. unfold name_part.
  rewrite (bl_string_size _ _ _ _ HB), (bl_string_iptr _ _ _ _ HB).
  rewrite !u32_id by (unfold is_uint; change (2 ^ 32) with 4294967296; lia). autorewrite with len.
  destruct (Z.eqb_spec (len name + (1 + 0)) 0); [lia|]. cbn [orb].
  replace (len name + 1 <? string_size - len names) with (len names + (len name + (1 + 0)) <? string_size)
    by (apply eq_true_iff_eq; rewrite !Z.ltb_lt; lia).
  destruct (Z.ltb_spec (len names + (len name + (1 + 0))) string_size) as [Hr2|]; [|done].
  destruct (holds_store string_size (len names) names (name ++ [0]) (string_buffer b) (bl_strings _ _ _ _ HB))
    as (sbuf & Es & Hsb); [done|autorewrite with len; lia|].
  unfold bind, ASSERT, ret, put_string, bind, get. cbn [string_buffer set_buffer set_buffer_iptr]. rewrite Es.
  unfold in_the_buffer, ret, modify. eexists. split; [reflexivity|]. split; [|done].
  apply building_snoc; cbn [item_name item_bytes]; try done.
  - by rewrite HL.
  - cbn. rewrite (bl_string_iptr _ _ _ _ HB), u32_id; autorewrite with len; [lia|].
    unfold is_uint. change (2 ^ 32) with 4294967296. lia.
Qed.

Lemma emit_emits i :
  match i with IBegin name => small (len name + 1) | IProp name value => small (len name) /\ small (len value)
             | _ => True end -> emits i.
Proof.
  destruct i as [name|name value| |]; intros Hs.
  - by apply begin_emits.
  - destruct Hs. by apply prop_emits.
  - by apply (word_emits INop FDT_NOP).
  - by apply (word_emits IEnd FDT_END_NODE).
Qed.
End Token.

(** ** A whole tree *)

Definition item_small (i : item) : Prop :=
  match i with
  | IBegin name => small (len name + 1)
  | IProp name value => small (len name) /\ small (len value)
  | _ => True
  end.

Lemma same_phandles_trans b1 b2 b3 : same_phandles b1 b2 -> same_phandles b2 b3 -> same_phandles b1 b3.
Proof. unfold same_phandles. intros (-> & -> & ->). done. Qed.

Definition all_fit (size string_size : Z) (before its : list item) : bool :=
  (56 + len (struct_bytes 0 (before ++ its)) <=? size) &&
  ((len (names_of its) =? 0) || (len (names_of (before ++ its)) <? string_size)).

(** Room for the first token and then for the others. *)
Lemma all_fit_cons size string_size before i its :
  all_fit size string_size before (i :: its) =
  room_for size string_size before i && all_fit size string_size (before ++ [i]) its.
Proof.
  unfold all_fit, room_for. replace (before ++ i :: its) with ((before ++ [i]) ++ its) by by rewrite <- (assoc_L app).
  rewrite !struct_bytes_app, !names_of_app, !len_app. cbn [struct_bytes names_of]. rewrite !Z.add_0_l.
  autorewrite with len.
  match goal with |- context [len (struct_bytes ?o its)] => pose proof (len_nonneg (struct_bytes o its)) end.
  pose proof (len_nonneg (names_of its)). pose proof (len_nonneg (item_name i)). pose proof (len_nonneg (names_of before)).
  apply eq_true_iff_eq. to_prop. lia.
Qed.

Section Tree.
Context (size string_size : Z) (Hsize : small size) (Hstring : small string_size).

Lemma emit_all_spec its : forall before b,
  building size string_size before b -> Forall item_small its ->
  if all_fit size string_size before its
  then exists b', emit_all its b = Ok tt b' /\ building size string_size (before ++ its) b' /\ same_phandles b b'
  else emit_all its b = Failed.
Proof.
  induction its as [|i its IH]; intros before b HB HF; cbn [emit_all].
  - assert (all_fit size string_size before [] = true) as ->.
    { unfold all_fit. rewrite app_nil_r. pose proof (used_range size string_size before b HB).
      rewrite (proj2 (Z.leb_le _ _)) by lia. done. }
    exists b. rewrite app_nil_r. by repeat split; try apply HB.
  - apply Forall_cons in HF as [Hi HF]. rewrite all_fit_cons.
    pose proof (emit_emits size string_size before b HB Hsize Hstring i Hi) as HE. unfold emits in HE.
    destruct (room_for size string_size before i); cbn [andb].
    + destruct HE as (b1 & E1 & HB1 & HS1). specialize (IH (before ++ [i]) b1 HB1 HF).
      unfold bind. rewrite E1. destruct (all_fit size string_size (before ++ [i]) its); [|done].
      destruct IH as (b2 & E2 & HB2 & HS2). exists b2. split; [done|].
      rewrite <- (assoc_L app) in HB2. split; [done|]. by eapply same_phandles_trans.
    + unfold bind. by rewrite HE.
Qed.

(** The four fields of the header that are known at the end. *)
Lemma header_writes a b c d v :
  is_uint 32 v ->
  store_at fh_off_dt_strings (le32 (swap32 v)) (header a b c d) = Some (header a v c d) /\
  store_at fh_size_dt_strings (le32 (swap32 v)) (header a b c d) = Some (header a b v d) /\
  store_at fh_size_dt_struct (le32 (swap32 v)) (header a b c d) = Some (header a b c v) /\
  store_at fh_totalsize (le32 (swap32 v)) (header a b c d) = Some (header v b c d).
Proof. intros Hv. rewrite le32_swap32 by done. repeat split; reflexivity. Qed.

Lemma header_struct a b c d rest :
  load32_at fh_off_dt_struct (header a b c d ++ rest) = Some (le_value (be32 56)).
Proof. unfold load32_at. by rewrite (load_at_prefix _ _ (header a b c d) (be32 56)). Qed.

Lemma header_strings a b c d rest :
  load32_at fh_off_dt_strings (header a b c d ++ rest) = Some (le_value (be32 b)).
Proof. unfold load32_at. by rewrite (load_at_prefix _ _ (header a b c d) (be32 b)). Qed.

Lemma put_header off v a b c d a' b' c' d' rest s :
  buffer s = header a b c d ++ rest ->
  store_at off (le32 (swap32 v)) (header a b c d) = Some (header a' b' c' d') ->
  put_be off v s = Ok tt (set_buffer (header a' b' c' d' ++ rest) s).
Proof. intros Hb Hs. unfold put_be. by eapply put_prefix. Qed.

(** The second half of [fdt_end]: the strings follow the tokens. *)
Definition append_strings : build unit :=
  let* b := get in
  ASSERT (string_buffer_iptr b <=? u32 (buffer_size b - buffer_iptr b)) ;;;
  let* strings := in_the_buffer (load_at 0 (string_buffer_iptr b) (string_buffer b)) in
  put (buffer_iptr b) strings ;;;
  advance_iptr (string_buffer_iptr b).

(** Its first half: the last token and the header. *)
Lemma fdt_end_header its b :
  building size string_size its b ->
  let tokens := struct_bytes 0 its ++ be32 FDT_END in
  let names := names_of its in
  if 56 + len tokens <=? size
  then exists b', fdt_end b = append_strings b' /\
    holds size (header (56 + len tokens + len names) (56 + len tokens) (len names) (len tokens) ++ tokens) (buffer b') /\
    buffer_iptr b' = 56 + len tokens /\ buffer_size b' = size /\ string_buffer b' = string_buffer b /\
    string_buffer_iptr b' = string_buffer_iptr b /\ same_phandles b b'
  else fdt_end b = Failed.
Proof.
  intros HB tokens names. pose proof (used_range size string_size its b HB) as Hu.
  pose proof (holds_len _ _ _ (bl_strings _ _ _ _ HB)) as Hs. pose proof (len_nonneg names).
  assert (HT : len tokens = len (struct_bytes 0 its) + 4) by (unfold tokens; by autorewrite with len).
  pose proof (len_nonneg (struct_bytes 0 its)). set (S := len (struct_bytes 0 its)) in *.
  fold names in Hs. set (N := len names) in *.
  unfold small in *. change (2 ^ 30) with 1073741824 in *.
  assert (HU : forall x, 0 <= x < 4294967296 -> u32 x = x) by (intros; by apply u32_id).
  assert (HI : forall x, 0 <= x < 4294967296 -> is_uint 32 x) by done.
  unfold fdt_end. rewrite bind_get, (room_available size string_size its b HB) by done. fold S.
  replace (4 <=? size - (56 + S)) with (56 + len tokens <=? size) by (apply eq_true_iff_eq; rewrite !Z.leb_le; lia).
  destruct (Z.leb_spec (56 + len tokens) size) as [Hr|]; [|done].
  destruct (put_be_holds size (buffer_iptr b) _ FDT_END b (bl_buffer _ _ _ _ HB)) as (buf & E1 & Hb);
    [rewrite (bl_iptr _ _ _ _ HB); by autorewrite with len|autorewrite with len; fold S; lia|done|].
  rewrite <- (assoc_L app) in Hb. fold tokens in Hb. destruct Hb as (k & -> & Hk). rewrite <- (assoc_L app) in E1.
  autorewrite with len in Hk.
  unfold ASSERT, bind, ret, get. rewrite E1, advance_eq. cbn [buffer_iptr string_buffer_iptr set_buffer set_buffer_iptr].
  rewrite (bl_iptr _ _ _ _ HB), (bl_string_iptr _ _ _ _ HB), HU by (fold S; lia). fold S.
  replace (56 + S + 4) with (56 + len tokens) by lia. fold names N.
  destruct (header_writes 0 0 0 0 (56 + len tokens)) as (W1 & _); [apply HI; lia|].
  destruct (header_writes 0 (56 + len tokens) 0 0 N) as (_ & W2 & _); [apply HI; lia|].
  destruct (header_writes 0 (56 + len tokens) N 0 (len tokens)) as (_ & _ & W3 & _); [apply HI; lia|].
  destruct (header_writes 0 (56 + len tokens) N (len tokens) (56 + len tokens + N)) as (_ & _ & _ & W4); [apply HI; lia|].
  erewrite put_header; [|reflexivity|exact W1]. erewrite put_header; [|reflexivity|exact W2].
  cbn [buffer set_buffer]. rewrite header_struct. cbn [in_the_buffer buffer_iptr set_buffer set_buffer_iptr string_buffer_iptr].
  unfold ret. rewrite swap32_be32 by done. rewrite !HU by lia.
  replace (56 + len tokens - 56) with (len tokens) by lia.
  erewrite put_header; [|reflexivity|exact W3]. rewrite (bl_string_iptr _ _ _ _ HB). fold names N. rewrite HU by lia.
  erewrite put_header; [|reflexivity|exact W4].
  eexists. split; [reflexivity|]. cbn [buffer buffer_iptr buffer_size string_buffer string_buffer_iptr set_buffer set_buffer_iptr].
  split; [|by rewrite (bl_size _ _ _ _ HB), (bl_string_iptr _ _ _ _ HB)].
  exists k. rewrite <- (assoc_L app). split; [done|]. autorewrite with len. lia.
Qed.

(** Finishing a blob. *)
Lemma fdt_end_spec its b :
  building size string_size its b ->
  if len (blob_of its) <=? size
  then exists b', fdt_end b = Ok tt b' /\ holds size (blob_of its) (buffer b') /\
    buffer_iptr b' = len (blob_of its) /\ same_phandles b b'
  else fdt_end b = Failed.
Proof.
  intros HB. pose proof (fdt_end_header its b HB) as HH. cbv zeta in HH. unfold blob_of. cbv zeta.
  pose proof (holds_len _ _ _ (bl_strings _ _ _ _ HB)) as Hs. pose proof (len_nonneg (names_of its)).
  revert HH. set (tokens := struct_bytes 0 its ++ be32 FDT_END). set (names := names_of its) in *. intros HH.
  pose proof (len_nonneg tokens). rewrite (assoc_L app), len_app. autorewrite with len.
  unfold small in *. change (2 ^ 30) with 1073741824 in *.
  destruct (Z.leb_spec (56 + len tokens) size).
  2: { destruct (Z.leb_spec (56 + len tokens + len names) size); [lia|done]. }
  destruct HH as (b' & -> & Hb & Hi & Hz & Hsb & Hsi & Hph). unfold append_strings. rewrite bind_get.
  rewrite Hz, Hi, Hsi, Hsb, (bl_string_iptr _ _ _ _ HB). fold names.
  rewrite (u32_id (size - _)) by (unfold is_uint; change (2 ^ 32) with 4294967296; lia).
  replace (len names <=? size - (56 + len tokens)) with (56 + len tokens + len names <=? size)
    by (apply eq_true_iff_eq; rewrite !Z.leb_le; lia).
  destruct (Z.leb_spec (56 + len tokens + len names) size) as [Hr|]; [|done].
  pose proof (holds_load _ _ _ (bl_strings _ _ _ _ HB)) as HL. fold names in HL. rewrite HL.
  destruct (put_holds size (56 + len tokens) _ names b' Hb) as (buf & E & Hb2);
    [by autorewrite with len|autorewrite with len; lia|].
  unfold bind, ASSERT, ret, in_the_buffer, ret. rewrite E, advance_eq. eexists. split; [done|].
  split; [exact Hb2|]. split; [|done]. cbn [buffer_iptr set_buffer_iptr set_buffer]. rewrite Hi.
  apply u32_id. unfold is_uint. change (2 ^ 32) with 4294967296. lia.
Qed.
End Tree.

Lemma fits_split its size string_size :
  fits its size string_size = all_fit size string_size [] its && (len (blob_of its) <=? size).
Proof.
  unfold fits, all_fit. cbn [app]. unfold blob_of. cbv zeta. autorewrite with len.
  pose proof (len_nonneg (names_of its)). apply eq_true_iff_eq. to_prop. lia.
Qed.

(** ** Scanning *)

(** The properties of a structure, each under the node begun last. *)
Fixpoint properties_of (node : option (list Z)) (its : list item) : list (option (list Z) * list Z * list Z) :=
  match its with
  | [] => []
  | IBegin name :: its => properties_of (Some name) its
  | IProp name value :: its => (node, name, value) :: properties_of node its
  | _ :: its => properties_of node its
  end.

(** A logged line names the property and points at its value. *)
Definition logs (dtb : list Z) (l : property_log) (p : option (list Z) * list Z * list Z) : Prop :=
  log_node l = p.1.1 /\ log_prop l = p.1.2 /\ log_length l = len p.2 /\
  load_at (log_value l) (log_length l) dtb = Some p.2.

Lemma padding_shift a n : a mod 4 = 0 -> padding (a + n) = padding n.
Proof. unfold padding. intros. dlia. Qed.

Lemma item_aligned off i : len (item_bytes off i) mod 4 = 0.
Proof.
  destruct i; cbn [item_bytes]; try done.
  - rewrite len_app, len_be32, len_pad. pose proof (padding_aligned (len (name ++ [0]))). dlia.
  - rewrite !len_app, !len_be32, len_pad. pose proof (padding_aligned (len value)). dlia.
Qed.

Lemma struct_aligned off its : len (struct_bytes off its) mod 4 = 0.
Proof.
  revert off. induction its as [|i its IH]; intros off; cbn [struct_bytes]; [done|].
  rewrite len_app. pose proof (item_aligned off i). pose proof (IH (off + len (item_name i))). dlia.
Qed.

Lemma load32_app off pre v post : off = len pre -> load32_at off (pre ++ be32 v ++ post) = Some (le_value (be32 v)).
Proof. intros Ho. unfold load32_at. by rewrite (load_at_app off 4 pre (be32 v) post Ho eq_refl). Qed.

(** A token takes at least a word. *)
Lemma items_shorter off its : (length its <= length (struct_bytes off its))%nat.
Proof.
  revert off. induction its as [|i its IH]; intros off; cbn [struct_bytes length]; [lia|].
  rewrite length_app. specialize (IH (off + len (item_name i))).
  assert (1 <= length (item_bytes off i))%nat by (destruct i; cbn; lia). lia.
Qed.

Section Scan.
Context (total off_strings size_names size_tokens : Z) (its0 : list item) (rest : list Z).
#[local] Abbreviation dtb :=
  (header total off_strings size_names size_tokens ++
   struct_bytes 0 its0 ++ be32 FDT_END ++ names_of its0 ++ rest).
Context (Hoff : off_strings = 56 + len (struct_bytes 0 its0) + 4) (Hsmall : small (len dtb)).

Lemma off_strings_word : is_uint 32 off_strings.
Proof.
  unfold small, is_uint in *. revert Hsmall. autorewrite with len. pose proof (len_nonneg (struct_bytes 0 its0)).
  pose proof (len_nonneg (names_of its0)). pose proof (len_nonneg rest).
  change (2 ^ 30) with 1073741824. change (2 ^ 32) with 4294967296. lia.
Qed.

(** What lies before a token and after it. *)
Lemma dtb_token before i its :
  its0 = before ++ i :: its ->
  exists pre post, dtb = pre ++ item_bytes (len (names_of before)) i ++ post /\
    len pre = 56 + len (struct_bytes 0 before).
Proof.
  intros ->. rewrite struct_bytes_app. cbn [struct_bytes]. rewrite Z.add_0_l.
  eexists (header _ _ _ _ ++ struct_bytes 0 before), _. rewrite <- !(assoc_L app). split; [reflexivity|].
  by autorewrite with len.
Qed.

(** The name of a property is found in the strings block. *)
Lemma dtb_name before name value its :
  its0 = before ++ IProp name value :: its -> c_string name ->
  string_at (off_strings + len (names_of before)) dtb = Some name.
Proof.
  intros E Hs. rewrite Hoff, E, !names_of_app. cbn [names_of item_name].
  rewrite <- !(assoc_L app). cbn [app].
  match goal with |- string_at ?o (?h ++ ?t ++ ?e ++ ?n ++ name ++ 0 :: ?r) = _ =>
    replace (h ++ t ++ e ++ n ++ name ++ 0 :: r) with ((h ++ t ++ e ++ n) ++ name ++ 0 :: r)
      by by rewrite <- !(assoc_L app) end.
  apply string_at_app; [|done]. autorewrite with len. lia.
Qed.

Lemma next_token before i :
  56 + len (struct_bytes 0 (before ++ [i])) =
  56 + len (struct_bytes 0 before) + len (item_bytes (len (names_of before)) i).
Proof. rewrite struct_bytes_app. cbn [struct_bytes]. rewrite app_nil_r, Z.add_0_l, len_app. lia. Qed.

Lemma align_from ptr n :
  ptr mod 4 = 0 -> 0 <= ptr -> 0 <= n -> ptr + n < 2 ^ 30 -> ALIGN4 (ptr + n) = ptr + (n + padding n).
Proof.
  intros Hp H0 Hn Hb. change (2 ^ 30) with 1073741824 in Hb.
  rewrite ALIGN4_spec by (change (2 ^ 32) with 4294967296; lia). rewrite padding_shift by done. lia.
Qed.

(** The scan of one token, from the offset where it lies. *)
Section Step.
Context (before its : list item) (i : item) (pre post : list Z) (fuel : nat) (node : option (list Z)).
Context (E : its0 = before ++ i :: its).
Context (Ed : dtb = pre ++ item_bytes (len (names_of before)) i ++ post).
Context (Hpre : len pre = 56 + len (struct_bytes 0 before)).
#[local] Abbreviation next := (len pre + len (item_bytes (len (names_of before)) i)).

Lemma pre_aligned : len pre mod 4 = 0 /\ 0 <= len pre.
Proof.
  rewrite Hpre. pose proof (struct_aligned 0 before). pose proof (len_nonneg (struct_bytes 0 before)). split; [dlia|lia].
Qed.

Lemma next_fits : next <= len dtb /\ len dtb < 2 ^ 30.
Proof.
  split; [|apply Hsmall]. rewrite Ed, !len_app. pose proof (len_nonneg post). lia.
Qed.

Lemma read_token v more :
  item_bytes (len (names_of before)) i = be32 v ++ more -> load32_at (len pre) dtb = Some (le_value (be32 v)).
Proof. intros Hi. rewrite Ed, Hi, <- (assoc_L app). by apply load32_app. Qed.

Lemma scan_begin name :
  i = IBegin name -> c_string name ->
  scan_tokens (S fuel) dtb (len pre) node = scan_tokens fuel dtb next (Some name).
Proof.
  intros Hi Hs. cbn [scan_tokens]. rewrite (read_token FDT_BEGIN_NODE (pad (name ++ [0]))) by by rewrite Hi.
  cbn [mbind option_bind]. rewrite swap32_be32 by done. cbn [Z.eqb Pos.eqb FDT_BEGIN_NODE].
  assert (string_at (len pre + 4) dtb = Some name) as ->.
  { rewrite Ed, Hi. cbn [item_bytes]. unfold pad. rewrite <- !(assoc_L app). cbn [app].
    match goal with |- string_at _ (pre ++ ?x ++ ?y) = _ =>
      replace (pre ++ x ++ y) with ((pre ++ x) ++ y) by by rewrite <- (assoc_L app) end.
    apply string_at_app; [by autorewrite with len|done]. }
  cbn [mbind option_bind]. f_equal. destruct pre_aligned as [Hp H0]. destruct next_fits as [Hn Hb].
  assert (HL : len (item_bytes (len (names_of before)) i) = 4 + (len name + 1) + padding (4 + (len name + 1))).
  { rewrite Hi. cbn [item_bytes]. autorewrite with len. replace (len name + (1 + 0)) with (len name + 1) by lia.
    rewrite (padding_shift 4) by done. lia. }
  rewrite HL in *. pose proof (len_nonneg name). pose proof (padding_range (4 + (len name + 1))).
  replace (len pre + 4 + len name + 1) with (len pre + (4 + (len name + 1))) by lia.
  rewrite align_from by (done || lia). lia.
Qed.

Lemma scan_skip v :
  item_bytes (len (names_of before)) i = be32 v -> v = FDT_NOP \/ v = FDT_END_NODE ->
  scan_tokens (S fuel) dtb (len pre) node = scan_tokens fuel dtb next node.
Proof.
  intros Hi Hv. cbn [scan_tokens]. rewrite (read_token v []) by by rewrite app_nil_r.
  cbn [mbind option_bind]. rewrite Hi. destruct Hv as [-> | ->]; by rewrite swap32_be32 by done.
Qed.

Lemma scan_prop name value :
  i = IProp name value -> c_string name ->
  scan_tokens (S fuel) dtb (len pre) node =
  (rest ← scan_tokens fuel dtb next node;
   Some ({| log_node := node; log_prop := name; log_length := len value; log_value := len pre + 12 |} :: rest)) /\
  load_at (len pre + 12) (len value) dtb = Some value.
Proof.
  intros Hi Hs. destruct pre_aligned as [Hp H0]. destruct next_fits as [Hn Hb].
  pose proof (len_nonneg value). pose proof (padding_range (12 + len value)).
  assert (HN : string_at (off_strings + len (names_of before)) dtb = Some name).
  { apply (dtb_name before name value its); [by rewrite <- Hi|done]. }
  assert (HL : len (item_bytes (len (names_of before)) i) = 12 + len value + padding (12 + len value)).
  { rewrite Hi. cbn [item_bytes]. autorewrite with len. rewrite (padding_shift 12) by done. lia. }
  assert (HW : is_uint 32 (len (names_of before))).
  { unfold small in Hsmall. revert Hsmall. rewrite E, names_of_app. autorewrite with len.
    pose proof (len_nonneg (names_of before)). pose proof (len_nonneg (names_of (i :: its))). pose proof (len_nonneg rest).
    pose proof (len_nonneg (struct_bytes 0 (before ++ i :: its))).
    unfold is_uint. change (2 ^ 32) with 4294967296. change (2 ^ 30) with 1073741824. lia. }
  rewrite HL in *. change (2 ^ 30) with 1073741824 in Hb.
  assert (Hv : is_uint 32 (len value)) by (unfold is_uint; change (2 ^ 32) with 4294967296; lia).
  assert (Eb : dtb = pre ++ be32 FDT_PROP ++ be32 (len value) ++ be32 (len (names_of before)) ++ value ++
    replicate (Z.to_nat (padding (len value))) 0 ++ post).
  { rewrite Ed, Hi. cbn [item_bytes]. unfold pad. by rewrite <- !(assoc_L app). }
  assert (L1 : load32_at (len pre + 4) dtb = Some (le_value (be32 (len value)))).
  { rewrite Eb, (assoc_L app). apply load32_app. by autorewrite with len. }
  assert (L2 : load32_at (len pre + 4 + 4) dtb = Some (le_value (be32 (len (names_of before))))).
  { rewrite Eb, 2!(assoc_L app). apply load32_app. autorewrite with len. lia. }
  assert (L3 : load_at (len pre + 12) (len value) dtb = Some value).
  { rewrite Eb, 3!(assoc_L app). apply load_at_app; [autorewrite with len; lia|done]. }
  split; [|exact L3]. cbn [scan_tokens].
  rewrite (read_token FDT_PROP (be32 (len value) ++ be32 (len (names_of before)) ++ pad value)) by by rewrite Hi.
  cbn [mbind option_bind]. rewrite swap32_be32 by done. cbn [Z.eqb Pos.eqb FDT_PROP FDT_BEGIN_NODE].
  rewrite L1, L2. cbn [mbind option_bind]. rewrite header_strings. cbn [mbind option_bind].
  rewrite !swap32_be32 by (done || apply off_strings_word). rewrite HN. cbn [mbind option_bind].
  rewrite s32_id by (change (2 ^ 31) with 2147483648; lia). unfold sizeof_fdt_property.
  replace (len pre + 4 + 8) with (len pre + 12) by lia.
  replace (len pre + 12 + len value) with (len pre + (12 + len value)) by lia.
  by rewrite align_from by (done || lia).
Qed.
End Step.

Lemma scan_tokens_spec its : forall before node fuel,
  its0 = before ++ its -> Forall item_ok its -> (length its < fuel)%nat ->
  exists ls, scan_tokens fuel dtb (56 + len (struct_bytes 0 before)) node = Some ls /\
    Forall2 (logs dtb) ls (properties_of node its).
Proof.
  induction its as [|i its IH]; intros before node fuel E HF Hf; (destruct fuel as [|fuel]; [cbn in Hf; lia|]).
  - rewrite app_nil_r in E. exists []. split; [|constructor]. cbn [scan_tokens].
    assert (load32_at (56 + len (struct_bytes 0 before)) dtb = Some (le_value (be32 FDT_END))) as ->.
    { rewrite <- E, (assoc_L app). apply load32_app. by autorewrite with len. }
    cbn [mbind option_bind]. by rewrite swap32_be32 by done.
  - apply Forall_cons in HF as [Hi HF]. destruct (dtb_token before i its E) as (pre & post & Ed & Hpre).
    assert (E' : its0 = (before ++ [i]) ++ its) by by rewrite <- (assoc_L app).
    cbn [length] in Hf. pose proof (next_token before i) as HX. rewrite <- Hpre in *.
    destruct i as [name|name value| |]; cbn [properties_of].
    + rewrite (scan_begin before _ pre post fuel node Ed Hpre name eq_refl Hi), <- HX. apply IH; [done|done|lia].
    + destruct (scan_prop before its _ pre post fuel node E Ed Hpre name value eq_refl Hi) as [-> HV].
      rewrite <- HX. destruct (IH (before ++ [IProp name value]) node fuel E' HF ltac:(lia)) as (ls & -> & HL).
      eexists. split; [done|]. by constructor.
    + rewrite (scan_skip before _ pre post fuel node Ed FDT_NOP eq_refl) by by left. rewrite <- HX. apply IH; [done|done|lia].
    + rewrite (scan_skip before _ pre post fuel node Ed FDT_END_NODE eq_refl) by by right. rewrite <- HX. apply IH; [done|done|lia].
Qed.
End Scan.

(** ** Properties *)


(** C34. Scanning a device tree. In the blob of any sequence of tokens whose names are
    C strings, whatever lies behind it in the buffer, the scanner ends, and logs
    exactly the properties of the structure in order, each with the node begun last,
    its name, its length and a pointer to its value. *)
Theorem fdt_scan_roundtrip its rest :
  small (len (blob_of its ++ rest)) -> Forall item_ok its ->
  exists ls, scan_fdt_tokens (blob_of its ++ rest) = Some ls /\
    Forall2 (logs (blob_of its ++ rest)) ls (properties_of None its).
Proof.
  intros Hs HF. unfold scan_fdt_tokens, blob_of in *. cbv zeta in *. rewrite <- !(assoc_L app) in *.
  rewrite header_struct. cbn [mbind option_bind]. rewrite swap32_be32 by done.
  match goal with |- context [header ?t ?o ?n ?k ++ _] =>
    pose proof (scan_tokens_spec t o n k its rest) as HX end.
  destruct (HX ltac:(autorewrite with len; lia) Hs its [] None
    (length (header (56 + len (struct_bytes 0 its ++ be32 FDT_END) + len (names_of its))
       (56 + len (struct_bytes 0 its ++ be32 FDT_END)) (len (names_of its))
       (len (struct_bytes 0 its ++ be32 FDT_END)) ++ struct_bytes 0 its ++ be32 FDT_END ++ names_of its ++ rest))
    eq_refl HF) as (ls & E & HL).
  - pose proof (items_shorter 0 its) as HI. rewrite length_app.
    match goal with |- context [length (header ?t ?o ?n ?k)] => change (length (header t o n k)) with 56%nat end.
    rewrite length_app. lia.
  - by exists ls.
Qed.

(** ** Witnesses *)

Module Witness.

(** [/ { b = [01 02]; c { }; }] with a word skipped, the names as characters. *)
Definition its : list item := [IBegin []; IProp [98] [1; 2]; INop; IBegin [99]; IEnd; IEnd].

Lemma its_small : Forall item_small its.
Proof. by repeat constructor. Qed.
Lemma its_ok : Forall item_ok its.
Proof. by repeat constructor. Qed.


Lemma fdt_scan_roundtrip_witness :
  exists ls, scan_fdt_tokens (blob_of its ++ [0; 7]) = Some ls /\
    Forall2 (logs (blob_of its ++ [0; 7])) ls [(Some [], [98], [1; 2])].
Proof. exact (fdt_scan_roundtrip its [0; 7] ltac:(by vm_compute) its_ok). Defined.

End Witness.
