(* ===== verification/DeviceTree.v ===== *)
(** * The machine's device tree

    Models the nodes of the device tree the vmm hands the guest: the build routines of
    src/vmm/fdt.c and of the device files (src/vmm/emulate_clint.c,
    src/vmm/emulate_plic.c, src/vmm/emulate_uart.c, src/vmm/emulate_syscon.c), and
    [fdt_init], which writes them all. The configuration is the lookup function of
    src/vmm/ini.c (Ini.v); the size of an image file is a parameter.

    Specification: the tree itself, as an inductive value ([device_tree]). Proved here:
    [fdt_init] writes exactly that tree, or stops when it does not fit the fixed
    buffers; in the tree no two nodes have the same phandle and every reference to a
    phandle is to a node of the tree. *)

From S2P Require Import Prelude Ini Monad Bytes SortSearch PmRegion X86 Hart Trap Clint Plic.
From S2P Require Import Uart Machine Mmu Console CsrHandlers Csr Debug Fdt.
Local Open Scope Z_scope.

Definition CLINT_TIMEBASE_FREQUENCY : Z := 10000000.
Definition ZELDA_ROM_BASE : Z := 0x0000.
Definition ZELDA_ROM_MIN_SIZE : Z := 0x400000.
Definition ZELDA_DTB_ADDRESS : Z := 0x1000.
Definition ZELDA_DTB_MAX_SIZE : Z := 0x2000.

(** What the routines read of [struct virtual_machine] and of the devices' state. *)
Record platform_config := {
  nr_harts : Z;
  main_mem_base : Z; main_mem_size : Z;
  bootrom_base : Z; bootrom_size : Z;
  pc_clint_base : Z; pc_clint_size : Z;
  pc_plic_base : Z; pc_plic_size : Z;
  syscon_base : Z; syscon_size : Z
}.

(** [sprintf] of ["%x"] and of ["%d"] for a number that is not negative. *)
Definition sprintf_x (n : Z) : list Z := or_zero (map (hex_char true) (rev (digits 16 16 n))).
Definition sprintf_d (n : Z) : list Z := or_zero (map dec_char (rev (digits 16 10 n))).

(** A string with its terminator, a big-endian cell, and the [reg] of a 64-bit bus. *)
Definition str0 (s : string) : list Z := text s ++ [0].
Definition cell (v : Z) : list Z := le32 (swap32 v).
Definition regs (base size : Z) : list Z := le32 0 ++ cell base ++ le32 0 ++ cell size.

Definition prop_string (name value : string) : build unit :=
  fdt_prop (text name) (len (str0 value)) (str0 value).
Definition prop_cell (name : string) (v : Z) : build unit := fdt_prop (text name) 4 (cell v).
Definition prop_regs (base size : Z) : build unit := fdt_prop (text "reg") 16 (regs base size).
Definition prop_empty (name : string) : build unit := fdt_prop (text name) 0 [].

Definition set_nth (i v : Z) (l : list Z) : list Z := <[Z.to_nat i := v]> l.
Definition nth_of (l : list Z) (i : Z) : Z := default 0 (l !! Z.to_nat i).

Section Nodes.
Context (cfg : platform_config).
Context (ini : list Z).
#[local] Abbreviation ini_get := (ini_string ini).
Context (image_file_size : list Z -> Z).

(** src/vmm/fdt.c:170-185 build_memory_fdt_node *)
Definition build_memory_fdt_node : build unit :=
  fdt_begin_node (text "memory@" ++ sprintf_x (u32 (main_mem_base cfg))) ;;;
  prop_string "device_type" "memory" ;;;
  prop_regs (u32 (main_mem_base cfg)) (u32 (main_mem_size cfg)) ;;;
  fdt_end_node.

(** src/vmm/fdt.c:187-210 build_bootrom_fdt_node *)
Definition build_bootrom_fdt_node : build unit :=
  let* rom_start_string := of_opt (ini_get "rom" "rom_start") in
  let* rom_size_string := of_opt (ini_get "rom" "rom_size") in
  let rom_start := u32 (strtol 16 rom_start_string) in
  let rom_size := u32 (strtol 16 rom_size_string) in
  fdt_begin_node (text "bootrom@" ++ sprintf_x rom_start) ;;;
  prop_string "device_type" "bootrom" ;;;
  prop_string "compatible" "zelda 16MB flash" ;;;
  prop_regs rom_start rom_size ;;;
  fdt_end_node.

(** The first loop over the harts, [rest] of them left.
    src/vmm/fdt.c:231-239 build_cpu_fdt_node *)
Fixpoint build_cores (rest : nat) (idx : Z) : build unit :=
  match rest with
  | O => ret tt
  | S rest =>
      fdt_begin_node (text "core" ++ sprintf_d idx) ;;;
      let* phandle := generate_phandle in
      modify (fun b => set_harts_phandles (set_nth idx phandle (harts_phandles b)) b) ;;;
      let* phandles := gets harts_phandles in
      prop_cell "cpu" (nth_of phandles idx) ;;;
      fdt_end_node ;;;
      build_cores rest (idx + 1)
  end.

(** One round of the second loop.
    src/vmm/fdt.c:243-268 build_cpu_fdt_node *)
Definition build_cpu (idx : Z) : build unit :=
  fdt_begin_node (text "cpu@" ++ sprintf_d idx) ;;;
  let* phandles := gets harts_phandles in
  prop_cell "phandle" (nth_of phandles idx) ;;;
  prop_string "device_type" "cpu" ;;;
  prop_string "status" "okay" ;;;
  prop_string "compatible" "riscv" ;;;
  prop_string "riscv,isa" "rv32ima" ;;;
  prop_string "mmu-type" "riscv,sv32" ;;;
  prop_cell "reg" idx ;;;
  fdt_begin_node (text "interrupt-controller") ;;;
  prop_cell "#interrupt-cells" 1 ;;;
  prop_empty "interrupt-controller" ;;;
  let* phandle := generate_phandle in
  modify (fun b => set_hart_interrupt_controllers_phandles
    (set_nth idx phandle (hart_interrupt_controllers_phandles b)) b) ;;;
  let* phandles := gets hart_interrupt_controllers_phandles in
  prop_cell "phandle" (nth_of phandles idx) ;;;
  prop_string "compatible" "riscv,cpu-intc" ;;;
  fdt_end_node ;;;
  fdt_end_node.

Fixpoint build_cpus (rest : nat) (idx : Z) : build unit :=
  match rest with
  | O => ret tt
  | S rest => build_cpu idx ;;; build_cpus rest (idx + 1)
  end.

(** src/vmm/fdt.c:212-270 build_cpu_fdt_node *)
Definition build_cpu_fdt_node : build unit :=
  fdt_begin_node (text "cpus") ;;;
  prop_cell "#address-cells" 1 ;;;
  fdt_prop (text "#size-cells") 4 (le32 0) ;;;
  prop_cell "timebase-frequency" CLINT_TIMEBASE_FREQUENCY ;;;
  fdt_begin_node (text "cpu-map") ;;;
  fdt_begin_node (text "cluster0") ;;;
  build_cores (Z.to_nat (nr_harts cfg)) 0 ;;;
  fdt_end_node ;;;
  fdt_end_node ;;;
  build_cpus (Z.to_nat (nr_harts cfg)) 0 ;;;
  fdt_end_node.

(** Two interrupts of each hart's controller; the array has room for every hart.
    src/vmm/emulate_clint.c:145-153 build_clint_fdt_node *)
Fixpoint interrupt_extended (rest : nat) (idx first second : Z) (phandles : list Z) : list Z :=
  match rest with
  | O => []
  | S rest =>
      let phandle := cell (nth_of phandles idx) in
      phandle ++ cell first ++ phandle ++ cell second ++
      interrupt_extended rest (idx + 1) first second phandles
  end.

(** src/vmm/emulate_clint.c:126-156 build_clint_fdt_node *)
Definition build_clint_fdt_node : build unit :=
  fdt_begin_node (text "clint@" ++ sprintf_x (pc_clint_base cfg)) ;;;
  prop_regs (pc_clint_base cfg) (pc_clint_size cfg) ;;;
  prop_string "compatible" "riscv,clint0" ;;;
  let* phandles := gets hart_interrupt_controllers_phandles in
  fdt_prop (text "interrupts-extended") (16 * nr_harts cfg)
    (interrupt_extended (Z.to_nat (nr_harts cfg)) 0 0x3 0x7 phandles) ;;;
  fdt_end_node.

(** src/vmm/emulate_plic.c:179-219 build_plic_fdt_node *)
Definition build_plic_fdt_node (plic_phandle : Z) : build unit :=
  fdt_begin_node (text "plic@" ++ sprintf_x (pc_plic_base cfg)) ;;;
  prop_cell "phandle" plic_phandle ;;;
  prop_string "compatible" "riscv,plic0" ;;;
  prop_empty "interrupt-controller" ;;;
  prop_cell "#interrupt-cells" 1 ;;;
  prop_cell "#address-cells" 0 ;;;
  prop_cell "riscv,ndev" (PLIC_NR_SOURCES - 1) ;;;
  prop_regs (pc_plic_base cfg) (pc_plic_size cfg) ;;;
  let* phandles := gets hart_interrupt_controllers_phandles in
  fdt_prop (text "interrupts-extended") (16 * nr_harts cfg)
    (interrupt_extended (Z.to_nat (nr_harts cfg)) 0 0xb 0x9 phandles) ;;;
  fdt_end_node.

(** src/vmm/emulate_syscon.c:62-75 build_syscon_fdt_node *)
Definition build_syscon_fdt_node : build unit :=
  fdt_begin_node (text "test@" ++ sprintf_x (syscon_base cfg)) ;;;
  prop_string "compatible" "sifive,test0" ;;;
  prop_regs (syscon_base cfg) (syscon_size cfg) ;;;
  fdt_end_node.

(** src/vmm/emulate_uart.c:334-355 build_uart_fdt_node *)
Definition build_uart_fdt_node (plic_phandle : Z) : build unit :=
  fdt_begin_node (text "uart@" ++ sprintf_x UART_16550_BASE) ;;;
  prop_cell "interrupts" PLIC_IRQ_UART0 ;;;
  prop_cell "interrupt-parent" plic_phandle ;;;
  prop_cell "clock-frequency" 0x00384000 ;;;
  prop_cell "reg-shift" 0 ;;;
  prop_cell "reg-io-width" 1 ;;;
  prop_string "compatible" "ns16550a" ;;;
  fdt_prop (text "reg") 16 (cell 0 ++ cell UART_16550_BASE ++ cell 0 ++ cell 0x100) ;;;
  fdt_end_node.

(** src/vmm/fdt.c:272-291 build_soc_fdt_node *)
Definition build_soc_fdt_node (plic_phandle : Z) : build unit :=
  fdt_begin_node (text "soc") ;;;
  prop_cell "#address-cells" 2 ;;;
  prop_cell "#size-cells" 2 ;;;
  prop_string "compatible" "simple-bus" ;;;
  prop_empty "ranges" ;;;
  build_clint_fdt_node ;;;
  build_plic_fdt_node plic_phandle ;;;
  build_syscon_fdt_node ;;;
  fdt_end_node.

(** The ramdisk's ends, when one is configured.
    src/vmm/fdt.c:302-313 build_chosen_fdt_node *)
Definition initrd_range : option (Z * Z) :=
  initrd_path ← ini_get "image" "initrd";
  initrd_load_base_string ← ini_get "image" "initrd_load_base";
  let initrd_start := u32 (strtol 16 initrd_load_base_string) in
  Some (initrd_start, u32 (initrd_start + image_file_size initrd_path)).

(** src/vmm/fdt.c:293-319 build_chosen_fdt_node *)
Definition build_chosen_fdt_node : build unit :=
  let* bootarg := of_opt (ini_get "image" "bootarg") in
  fdt_begin_node (text "chosen") ;;;
  match initrd_range with
  | Some (initrd_start, initrd_end) =>
      prop_cell "linux,initrd-end" initrd_end ;;;
      prop_cell "linux,initrd-start" initrd_start
  | None => ret tt
  end ;;;
  fdt_prop (text "bootargs") (len bootarg + 1) (bootarg ++ [0]) ;;;
  (let stdout_path := text "/uart@" ++ sprintf_x 0x10000000 ++ [0] in
   fdt_prop (text "stdout-path") (len stdout_path) stdout_path) ;;;
  fdt_end_node.

(** The root node.
    src/vmm/fdt.c:328-343 fdt_init *)
Definition build_root_fdt_node (plic_phandle : Z) : build unit :=
  fdt_begin_node [] ;;;
  prop_cell "#address-cells" 2 ;;;
  prop_cell "#size-cells" 2 ;;;
  prop_string "compatible" "riscv-virtio" ;;;
  prop_string "model" "riscv-virtio,qemu" ;;;
  build_bootrom_fdt_node ;;;
  build_chosen_fdt_node ;;;
  build_uart_fdt_node plic_phandle ;;;
  build_memory_fdt_node ;;;
  build_cpu_fdt_node ;;;
  build_soc_fdt_node plic_phandle ;;;
  fdt_end_node.

(** The bytes copied into the boot rom at [ZELDA_DTB_ADDRESS]. Dumping them to a file
    is left out.
    src/vmm/fdt.c:321-359 fdt_init *)
Definition fdt_init : build (list Z) :=
  fdt_build_init 8192 1024 ;;;
  let* plic_phandle := generate_phandle in
  build_root_fdt_node plic_phandle ;;;
  fdt_end ;;;
  let* b := get in
  ASSERT (buffer_iptr b <=? ZELDA_DTB_MAX_SIZE) ;;;
  ASSERT ((bootrom_base cfg =? ZELDA_ROM_BASE) && (ZELDA_ROM_MIN_SIZE <=? bootrom_size cfg)) ;;;
  in_the_buffer (load_at 0 (buffer_iptr b) (buffer b)).
End Nodes.

(** ** The tree *)

#[warnings="-register-all"]
Inductive node := Node (name : list Z) (properties : list (list Z * list Z)) (children : list node).

(** A node's tokens: its properties, then its children. *)
Fixpoint flatten (n : node) : list item :=
  let 'Node name properties children := n in
  IBegin name :: map (fun p => IProp p.1 p.2) properties ++
  foldr (fun c its => flatten c ++ its) [] children ++ [IEnd].

Definition P (name : string) (value : list Z) : list Z * list Z := (text name, value).
Definition bus_regs (base size : Z) : list Z := be32 0 ++ be32 base ++ be32 0 ++ be32 size.

Section DeviceTree.
Context (cfg : platform_config).
#[local] Abbreviation n := (Z.to_nat (nr_harts cfg)).

(** Phandles: the interrupt controller, the harts, the harts' interrupt controllers. *)
Definition plic_phandle : Z := 1.
Definition hart_phandle (i : Z) : Z := 2 + i.
Definition intc_phandle (i : Z) : Z := 2 + nr_harts cfg + i.

Definition core_node (i : Z) : node :=
  Node (text "core" ++ sprintf_d i) [P "cpu" (be32 (hart_phandle i))] [].

Definition cpu_node (i : Z) : node :=
  Node (text "cpu@" ++ sprintf_d i)
    [P "phandle" (be32 (hart_phandle i)); P "device_type" (str0 "cpu"); P "status" (str0 "okay");
     P "compatible" (str0 "riscv"); P "riscv,isa" (str0 "rv32ima"); P "mmu-type" (str0 "riscv,sv32");
     P "reg" (be32 i)]
    [Node (text "interrupt-controller")
       [P "#interrupt-cells" (be32 1); P "interrupt-controller" [];
        P "phandle" (be32 (intc_phandle i)); P "compatible" (str0 "riscv,cpu-intc")] []].

Definition cpus_node : node :=
  Node (text "cpus")
    [P "#address-cells" (be32 1); P "#size-cells" (be32 0);
     P "timebase-frequency" (be32 CLINT_TIMEBASE_FREQUENCY)]
    (Node (text "cpu-map") [] [Node (text "cluster0") [] (map core_node (seqZ 0 (nr_harts cfg)))] ::
     map cpu_node (seqZ 0 (nr_harts cfg))).

(** Each hart's controller with the two interrupts. *)
Definition interrupts (first second : Z) : list Z :=
  foldr (fun i l => be32 (intc_phandle i) ++ be32 first ++ be32 (intc_phandle i) ++ be32 second ++ l) []
    (seqZ 0 (nr_harts cfg)).

Definition clint_node : node :=
  Node (text "clint@" ++ sprintf_x (pc_clint_base cfg))
    [P "reg" (bus_regs (pc_clint_base cfg) (pc_clint_size cfg)); P "compatible" (str0 "riscv,clint0");
     P "interrupts-extended" (interrupts 0x3 0x7)] [].

Definition plic_node : node :=
  Node (text "plic@" ++ sprintf_x (pc_plic_base cfg))
    [P "phandle" (be32 plic_phandle); P "compatible" (str0 "riscv,plic0"); P "interrupt-controller" [];
     P "#interrupt-cells" (be32 1); P "#address-cells" (be32 0); P "riscv,ndev" (be32 31);
     P "reg" (bus_regs (pc_plic_base cfg) (pc_plic_size cfg));
     P "interrupts-extended" (interrupts 0xb 0x9)] [].

Definition syscon_node : node :=
  Node (text "test@" ++ sprintf_x (syscon_base cfg))
    [P "compatible" (str0 "sifive,test0"); P "reg" (bus_regs (syscon_base cfg) (syscon_size cfg))] [].

Definition soc_node : node :=
  Node (text "soc")
    [P "#address-cells" (be32 2); P "#size-cells" (be32 2); P "compatible" (str0 "simple-bus"); P "ranges" []]
    [clint_node; plic_node; syscon_node].

Definition uart_node : node :=
  Node (text "uart@10000000")
    [P "interrupts" (be32 10); P "interrupt-parent" (be32 plic_phandle); P "clock-frequency" (be32 3686400);
     P "reg-shift" (be32 0); P "reg-io-width" (be32 1); P "compatible" (str0 "ns16550a");
     P "reg" (bus_regs 0x10000000 0x100)] [].

Definition memory_node : node :=
  Node (text "memory@" ++ sprintf_x (u32 (main_mem_base cfg)))
    [P "device_type" (str0 "memory"); P "reg" (bus_regs (u32 (main_mem_base cfg)) (u32 (main_mem_size cfg)))] [].

Definition bootrom_node (start size : Z) : node :=
  Node (text "bootrom@" ++ sprintf_x start)
    [P "device_type" (str0 "bootrom"); P "compatible" (str0 "zelda 16MB flash"); P "reg" (bus_regs start size)] [].

Definition chosen_node (initrd : option (Z * Z)) (bootarg : list Z) : node :=
  Node (text "chosen")
    (match initrd with
     | Some (s, e) => [P "linux,initrd-end" (be32 e); P "linux,initrd-start" (be32 s)]
     | None => [] end ++
     [P "bootargs" (bootarg ++ [0]); P "stdout-path" (str0 "/uart@10000000")]) [].

(** The tree for a boot rom at [start], a ramdisk and the kernel's arguments. *)
Definition device_tree (start size : Z) (initrd : option (Z * Z)) (bootarg : list Z) : node :=
  Node []
    [P "#address-cells" (be32 2); P "#size-cells" (be32 2); P "compatible" (str0 "riscv-virtio");
     P "model" (str0 "riscv-virtio,qemu")]
    [bootrom_node start size; chosen_node initrd bootarg; uart_node; memory_node; cpus_node; soc_node].
End DeviceTree.

(** ** What a routine writes *)

(** The phandle state of a blob. *)
Definition phandles (b : fdt_build_blob) : list Z * list Z * Z :=
  (harts_phandles b, hart_interrupt_controllers_phandles b, phandle_generator b).

(** From phandle state [h], the routine appends [its], or stops for want of room, and
    leaves phandle state [h']. *)
Definition writes (h : list Z * list Z * Z) (p : build unit) (its : list item) (h' : list Z * list Z * Z) : Prop :=
  forall before b, building 8192 1024 before b -> phandles b = h ->
  if all_fit 8192 1024 before its
  then exists b', p b = Ok tt b' /\ building 8192 1024 (before ++ its) b' /\ phandles b' = h'
  else p b = Failed.

Lemma sizes_small : small 8192 /\ small 1024.
Proof. done. Qed.

Lemma all_fit_app before a c :
  all_fit 8192 1024 before (a ++ c) = all_fit 8192 1024 before a && all_fit 8192 1024 (before ++ a) c.
Proof.
  unfold all_fit. rewrite <- (assoc_L app), (assoc_L app before a c), !struct_bytes_app, !names_of_app, !len_app.
  rewrite !Z.add_0_l.
  match goal with |- context [len (struct_bytes ?o c)] => pose proof (len_nonneg (struct_bytes o c)) end.
  pose proof (len_nonneg (names_of c)). pose proof (len_nonneg (names_of a)). pose proof (len_nonneg (names_of before)).
  apply eq_true_iff_eq. to_prop. lia.
Qed.

Lemma writes_ret h : writes h (ret tt) [] h.
Proof.
  intros before b HB Hh. pose proof (emit_all_spec 8192 1024 (proj1 sizes_small) (proj2 sizes_small) [] before b HB) as HE.
  revert HE. case_test; intros HE; [|by specialize (HE (Forall_nil_2 _))].
  exists b. by rewrite app_nil_r.
Qed.

Lemma same_phandles_eq b b' : same_phandles b b' -> phandles b' = phandles b.
Proof. unfold same_phandles, phandles. by intros (-> & -> & ->). Qed.

Lemma writes_emit h i : item_small i -> writes h (emit i) [i] h.
Proof.
  intros Hi before b HB Hh.
  pose proof (emit_all_spec 8192 1024 (proj1 sizes_small) (proj2 sizes_small) [i] before b HB) as HE.
  specialize (HE ltac:(by repeat constructor)). cbn [emit_all] in HE. unfold bind, ret in HE.
  assert (HX : forall r, match emit i b with Ok _ s => Ok tt s | Trapped s => Trapped s | Exited c s => Exited c s | Failed => Failed end = r
    -> emit i b = r) by (intros r <-; by destruct (emit i b) as [[] ?| | |]).
  revert HE. case_test; [|apply HX]. intros (b' & E' & HB' & HS).
  exists b'. split; [by apply HX|]. split; [done|]. rewrite <- Hh. by apply same_phandles_eq.
Qed.

Lemma writes_seq h p a h1 q c h2 :
  writes h p a h1 -> writes h1 q c h2 -> writes h (p ;;; q) (a ++ c) h2.
Proof.
  intros Hp Hq before b HB Hh. specialize (Hp before b HB Hh). rewrite all_fit_app.
  unfold bind. destruct (all_fit 8192 1024 before a); cbn [andb]; [|by rewrite Hp].
  destruct Hp as (b1 & -> & HB1 & H1). specialize (Hq (before ++ a) b1 HB1 H1).
  destruct (all_fit 8192 1024 (before ++ a) c); [|done]. by rewrite (assoc_L app).
Qed.

Lemma writes_cons h p i q its h' :
  writes h p [i] h -> writes h q its h' -> writes h (p ;;; q) (i :: its) h'.
Proof. intros Hp Hq. exact (writes_seq h p [i] h q its h' Hp Hq). Qed.

Lemma writes_harts a i g k its h' :
  writes (a, i, g) (k a) its h' -> writes (a, i, g) (let* x := gets harts_phandles in k x) its h'.
Proof. intros Hk before b HB Hh. injection Hh as Ha Hi Hg. unfold bind, gets. rewrite Ha. apply Hk; [done|]. unfold phandles. congruence. Qed.

Lemma writes_intcs a i g k its h' :
  writes (a, i, g) (k i) its h' ->
  writes (a, i, g) (let* x := gets hart_interrupt_controllers_phandles in k x) its h'.
Proof. intros Hk before b HB Hh. injection Hh as Ha Hi Hg. unfold bind, gets. rewrite Hi. apply Hk; [done|]. unfold phandles. congruence. Qed.

Lemma building_phandles size string_size its b hp hi g :
  building size string_size its b ->
  building size string_size its (set_phandle_generator g (set_hart_interrupt_controllers_phandles hi (set_harts_phandles hp b))).
Proof. intros []. by split. Qed.

Lemma writes_generate a i g k its h' :
  writes (a, i, g + 1) (k g) its h' -> writes (a, i, g) (let* x := generate_phandle in k x) its h'.
Proof.
  intros Hk before b HB Hh. injection Hh as Ha Hi Hg. unfold bind, generate_phandle. rewrite Hg.
  apply Hk; [|unfold phandles; cbn; congruence]. apply (building_phandles _ _ _ b (harts_phandles b) (hart_interrupt_controllers_phandles b)) with (g := g + 1) in HB.
  by destruct b.
Qed.

Lemma writes_set_harts a i g f q its h' :
  writes (f a, i, g) q its h' ->
  writes (a, i, g) (modify (fun b => set_harts_phandles (f (harts_phandles b)) b) ;;; q) its h'.
Proof.
  intros Hk before b HB Hh. injection Hh as Ha Hi Hg. unfold bind, modify. rewrite Ha.
  apply Hk; [|unfold phandles; cbn; congruence].
  apply (building_phandles _ _ _ b (f a) (hart_interrupt_controllers_phandles b) (phandle_generator b)) in HB. by destruct b.
Qed.

Lemma writes_set_intcs a i g f q its h' :
  writes (a, f i, g) q its h' ->
  writes (a, i, g) (modify (fun b => set_hart_interrupt_controllers_phandles (f (hart_interrupt_controllers_phandles b)) b) ;;; q) its h'.
Proof.
  intros Hk before b HB Hh. injection Hh as Ha Hi Hg. unfold bind, modify. rewrite Hi.
  apply Hk; [|unfold phandles; cbn; congruence].
  apply (building_phandles _ _ _ b (harts_phandles b) (f i) (phandle_generator b)) in HB. by destruct b.
Qed.

Lemma len_digits fuel base m : (length (digits fuel base m) <= fuel)%nat.
Proof. revert m. induction fuel as [|fuel IH]; intros m; cbn [digits]; [done|]. case_test; cbn [length]; [|lia]. specialize (IH (m / base)). lia. Qed.

Lemma len_numeral (f : Z -> Z) base m : len (or_zero (map f (rev (digits 16 base m)))) <= 17.
Proof.
  pose proof (len_digits 16 base m). unfold len. rewrite <- (length_rev (digits _ _ _)) in *.
  destruct (rev (digits 16 base m)) as [|d l]; [done|]. cbn [map or_zero]. cbn [length] in *. rewrite length_map. lia.
Qed.

Lemma small_numbered s (f : Z -> Z) base m :
  len (text s) <= 1000 -> small (len (text s ++ or_zero (map f (rev (digits 16 base m)))) + 1).
Proof.
  intros Hs. rewrite len_app. pose proof (len_numeral f base m). pose proof (len_nonneg (text s)).
  pose proof (len_nonneg (or_zero (map f (rev (digits 16 base m))))). unfold small. change (2 ^ 30) with 1073741824. lia.
Qed.

Lemma cell_be32 v : is_uint 32 v -> cell v = be32 v.
Proof. apply le32_swap32. Qed.

Lemma regs_bus base size : is_uint 32 base -> is_uint 32 size -> regs base size = bus_regs base size.
Proof. intros Hb Hs. unfold regs, bus_regs. by rewrite !cell_be32. Qed.

Lemma writes_string h name v :
  small (len (text name)) -> small (len (str0 v)) ->
  writes h (prop_string name v) [IProp (text name) (str0 v)] h.
Proof. intros. apply (writes_emit h (IProp (text name) (str0 v))). by split. Qed.

Lemma writes_cell h name v :
  small (len (text name)) -> is_uint 32 v -> writes h (prop_cell name v) [IProp (text name) (be32 v)] h.
Proof. intros Hn Hv. unfold prop_cell. rewrite cell_be32 by done. apply (writes_emit h (IProp (text name) (be32 v))). split; [done|by vm_compute]. Qed.

Lemma writes_regs h base size :
  is_uint 32 base -> is_uint 32 size -> writes h (prop_regs base size) [IProp (text "reg") (bus_regs base size)] h.
Proof.
  intros Hb Hs. unfold prop_regs. rewrite regs_bus by done.
  apply (writes_emit h (IProp (text "reg") (bus_regs base size))). split; by vm_compute.
Qed.

Lemma writes_empty h name : small (len (text name)) -> writes h (prop_empty name) [IProp (text name) []] h.
Proof. intros Hn. apply (writes_emit h (IProp (text name) [])). split; [done|by vm_compute]. Qed.

Lemma writes_begin h name : small (len name + 1) -> writes h (fdt_begin_node name) [IBegin name] h.
Proof. intros Hn. by apply (writes_emit h (IBegin name)). Qed.

Lemma writes_end h : writes h fdt_end_node [IEnd] h.
Proof. by apply (writes_emit h IEnd). Qed.

(** One token of a straight-line routine. *)
Ltac token :=
  lazymatch goal with
  | |- writes _ (prop_string _ _) _ _ => apply writes_string; by vm_compute
  | |- writes _ (prop_cell _ _) _ _ => apply writes_cell; [by vm_compute|]
  | |- writes _ (prop_regs _ _) _ _ => apply writes_regs
  | |- writes _ (prop_empty _) _ _ => apply writes_empty; by vm_compute
  | |- writes _ (fdt_begin_node (_ ++ _)) _ _ => apply writes_begin, small_numbered; by vm_compute
  | |- writes _ (fdt_begin_node _) _ _ => apply writes_begin; by vm_compute
  | |- writes _ fdt_end_node _ _ => apply writes_end
  end.
Ltac tokens :=
  repeat lazymatch goal with
    | |- writes _ (bind _ _) (_ :: _) _ => eapply writes_cons; [token|]
    | |- writes _ fdt_end_node _ _ => token
    end.

(** What the configuration must be for addresses to fit the cells. *)
Record config_ok (cfg : platform_config) : Prop := {
  co_harts : 0 <= nr_harts cfg <= 64;
  co_clint : is_uint 32 (pc_clint_base cfg) /\ is_uint 32 (pc_clint_size cfg);
  co_plic : is_uint 32 (pc_plic_base cfg) /\ is_uint 32 (pc_plic_size cfg);
  co_syscon : is_uint 32 (syscon_base cfg) /\ is_uint 32 (syscon_size cfg)
}.

Section Nodes_spec.
Context (cfg : platform_config) (HC : config_ok cfg).

Lemma memory_writes h : writes h (build_memory_fdt_node cfg) (flatten (memory_node cfg)) h.
Proof.
  unfold build_memory_fdt_node, memory_node. cbn [flatten map foldr app fst snd P]. tokens; apply u32_range.
Qed.

Lemma syscon_writes h : writes h (build_syscon_fdt_node cfg) (flatten (syscon_node cfg)) h.
Proof.
  unfold build_syscon_fdt_node, syscon_node. cbn [flatten map foldr app fst snd P]. tokens; apply (co_syscon _ HC).
Qed.

Lemma uart_writes h : writes h (build_uart_fdt_node plic_phandle) (flatten uart_node) h.
Proof.
  unfold build_uart_fdt_node, uart_node.
  change (text "uart@" ++ sprintf_x UART_16550_BASE) with (text "uart@10000000").
  cbn [flatten map foldr app fst snd P]. tokens; try done.
  eapply writes_cons; [|token]. rewrite !cell_be32 by done.
  apply (writes_emit h (IProp (text "reg") (bus_regs 0x10000000 0x100))). split; by vm_compute.
Qed.

(** The entries of an array of phandles that a loop over the harts sets. *)
Fixpoint fill (rest : nat) (idx base : Z) (l : list Z) : list Z :=
  match rest with
  | O => l
  | S rest => fill rest (idx + 1) base (set_nth idx (base + idx) l)
  end.

Lemma nth_set l i v : 0 <= i < len l -> nth_of (set_nth i v l) i = v.
Proof. intros Hi. unfold nth_of, set_nth, len in *. by rewrite list_lookup_insert_eq by lia. Qed.

Lemma len_set i v l : len (set_nth i v l) = len l.
Proof. unfold len, set_nth. by rewrite length_insert. Qed.

Lemma nth_fill rest : forall idx base l i,
  0 <= idx -> idx + Z.of_nat rest <= len l -> 0 <= i ->
  nth_of (fill rest idx base l) i =
  if (idx <=? i) && (i <? idx + Z.of_nat rest) then base + i else nth_of l i.
Proof.
  induction rest as [|rest IH]; intros idx base l i Hidx Hl Hi; cbn [fill].
  - case_test; to_prop; lia || done.
  - rewrite IH by (rewrite ?len_set; lia). destruct (Z.eq_dec i idx) as [->|Hne].
    + rewrite nth_set by lia. repeat case_test; to_prop; lia || done.
    + assert (nth_of (set_nth idx (base + idx) l) i = nth_of l i) as ->.
      { unfold nth_of, set_nth. by rewrite list_lookup_insert_ne by lia. }
      repeat case_test; to_prop; lia || done.
Qed.

Lemma len_fill rest : forall idx base l, len (fill rest idx base l) = len l.
Proof. induction rest as [|rest IH]; intros idx base l; cbn [fill]; [done|]. by rewrite IH, len_set. Qed.

Lemma seqZ_S idx rest : seqZ idx (Z.of_nat (S rest)) = idx :: seqZ (idx + 1) (Z.of_nat rest).
Proof. rewrite seqZ_cons by lia. do 2 f_equal; lia. Qed.

Definition all_nodes (l : list node) : list item := foldr (fun c its => flatten c ++ its) [] l.

Lemma cores_write rest : forall idx a i,
  0 <= idx -> idx + Z.of_nat rest <= 64 -> len a = 64 ->
  writes (a, i, 2 + idx) (build_cores rest idx) (all_nodes (map core_node (seqZ idx (Z.of_nat rest))))
    (fill rest idx 2 a, i, 2 + idx + Z.of_nat rest).
Proof.
  induction rest as [|rest IH]; intros idx a i H0 Hr Ha.
  - cbn. rewrite Z.add_0_r. apply writes_ret.
  - rewrite seqZ_S. cbn [build_cores map all_nodes foldr]. unfold core_node at 1.
    cbn [flatten map foldr app fst snd P]. tokens.
    apply writes_generate, writes_set_harts, writes_harts. rewrite nth_set by lia. tokens.
    { unfold is_uint, hart_phandle. change (2 ^ 32) with 4294967296. lia. }
    replace (2 + idx + Z.of_nat (S rest)) with (2 + (idx + 1) + Z.of_nat rest) by lia.
    cbn [fill]. replace (2 + idx + 1) with (2 + (idx + 1)) by lia. apply IH; rewrite ?len_set; lia.
Qed.

Lemma cpus_write rest : forall idx a i,
  0 <= idx -> idx + Z.of_nat rest <= nr_harts cfg -> len i = 64 ->
  (forall k, 0 <= k < nr_harts cfg -> nth_of a k = 2 + k) ->
  writes (a, i, 2 + nr_harts cfg + idx) (build_cpus rest idx)
    (all_nodes (map (cpu_node cfg) (seqZ idx (Z.of_nat rest))))
    (a, fill rest idx (2 + nr_harts cfg) i, 2 + nr_harts cfg + idx + Z.of_nat rest).
Proof.
  pose proof (co_harts _ HC) as Hn.
  assert (HU : forall x, 0 <= x < 1000 -> is_uint 32 x).
  { intros x Hx. unfold is_uint. change (2 ^ 32) with 4294967296. lia. }
  induction rest as [|rest IH]; intros idx a i H0 Hr Hi Ha.
  - cbn. rewrite Z.add_0_r. apply writes_ret.
  - rewrite seqZ_S. cbn [build_cpus map all_nodes foldr]. eapply writes_seq.
    + unfold build_cpu, cpu_node. cbn [flatten map foldr app fst snd P]. tokens.
      apply writes_harts. rewrite Ha by lia. tokens; try (apply HU; unfold hart_phandle; lia); try done.
      apply writes_generate, writes_set_intcs, writes_intcs. rewrite nth_set by lia.
      unfold intc_phandle. tokens. apply HU. lia.
    + replace (2 + nr_harts cfg + idx + Z.of_nat (S rest)) with (2 + nr_harts cfg + (idx + 1) + Z.of_nat rest) by lia.
      cbn [fill]. replace (2 + nr_harts cfg + idx + 1) with (2 + nr_harts cfg + (idx + 1)) by lia.
      apply IH; rewrite ?len_set; lia || done.
Qed.

Lemma cpus_node_writes a i :
  len a = 64 -> len i = 64 ->
  writes (a, i, 2) (build_cpu_fdt_node cfg) (flatten (cpus_node cfg))
    (fill (Z.to_nat (nr_harts cfg)) 0 2 a, fill (Z.to_nat (nr_harts cfg)) 0 (2 + nr_harts cfg) i, 2 + 2 * nr_harts cfg).
Proof.
  intros Ha Hi. pose proof (co_harts _ HC) as Hn. unfold build_cpu_fdt_node, cpus_node.
  cbn [flatten map foldr app fst snd P]. tokens; try done.
  eapply writes_cons; [exact (writes_emit _ (IProp (text "#size-cells") (be32 0)) ltac:(split; by vm_compute))|].
  tokens; try done. fold (all_nodes (map core_node (seqZ 0 (nr_harts cfg)))).
  fold (all_nodes (map (cpu_node cfg) (seqZ 0 (nr_harts cfg)))). cbn [app].
  rewrite app_nil_r. cbn [app]. rewrite <- !(assoc_L app).
  pose proof (cores_write (Z.to_nat (nr_harts cfg)) 0 a i) as HA.
  pose proof (cpus_write (Z.to_nat (nr_harts cfg)) 0 (fill (Z.to_nat (nr_harts cfg)) 0 2 a) i) as HB.
  rewrite Z2Nat.id, ?Z.add_0_r in HA, HB by lia. specialize (HA ltac:(lia) ltac:(lia) Ha).
  specialize (HB ltac:(lia) ltac:(lia) Hi).
  eapply writes_seq; [exact HA|]. cbn [app]. tokens.
  eapply writes_seq; [|token].
  replace (2 + 2 * nr_harts cfg) with (2 + nr_harts cfg + nr_harts cfg) by lia. apply HB.
  intros k Hk. rewrite nth_fill by lia. case_test; to_prop; lia.
Qed.

(** The phandle arrays once the harts are described. *)
Definition described (h : list Z * list Z * Z) : Prop :=
  let '(_, i, _) := h in forall k, 0 <= k < nr_harts cfg -> nth_of i k = intc_phandle cfg k.

Lemma interrupts_spec i first second :
  (forall k, 0 <= k < nr_harts cfg -> nth_of i k = intc_phandle cfg k) ->
  is_uint 32 first -> is_uint 32 second ->
  interrupt_extended (Z.to_nat (nr_harts cfg)) 0 first second i = interrupts cfg first second.
Proof.
  intros Hi Hf Hs. pose proof (co_harts _ HC) as Hn. unfold interrupts.
  rewrite <- (Z2Nat.id (nr_harts cfg)) at 2 by lia.
  assert (HG : forall rest idx, 0 <= idx -> idx + Z.of_nat rest <= nr_harts cfg ->
    interrupt_extended rest idx first second i =
    foldr (fun i l => be32 (intc_phandle cfg i) ++ be32 first ++ be32 (intc_phandle cfg i) ++ be32 second ++ l) []
      (seqZ idx (Z.of_nat rest))); [|apply HG; lia].
  induction rest as [|rest IH]; intros idx H0 Hr; [done|].
  rewrite seqZ_S. cbn [interrupt_extended foldr]. rewrite Hi, IH, !cell_be32 by lia || done ||
    (unfold is_uint, intc_phandle; change (2 ^ 32) with 4294967296; lia). done.
Qed.

Lemma len_interrupts first second : len (interrupts cfg first second) = 16 * nr_harts cfg.
Proof.
  pose proof (co_harts _ HC) as Hn. unfold interrupts. rewrite <- (Z2Nat.id (nr_harts cfg)) by lia.
  generalize (Z.to_nat (nr_harts cfg)) as k, 0 as idx. induction k as [|k IH]; intros idx; [done|].
  rewrite seqZ_S. cbn [foldr]. autorewrite with len. rewrite IH. lia.
Qed.

Lemma writes_interrupts h first second :
  described h -> is_uint 32 first -> is_uint 32 second ->
  writes h (let* phandles := gets hart_interrupt_controllers_phandles in
      fdt_prop (text "interrupts-extended") (16 * nr_harts cfg)
        (interrupt_extended (Z.to_nat (nr_harts cfg)) 0 first second phandles) ;;;
      fdt_end_node)
    [IProp (text "interrupts-extended") (interrupts cfg first second); IEnd] h.
Proof.
  destruct h as [[a i] g]. intros Hi Hf Hs. pose proof (co_harts _ HC) as Hn.
  apply writes_intcs. rewrite interrupts_spec by done. rewrite <- (len_interrupts first second).
  eapply writes_cons; [|token]. apply (writes_emit _ (IProp _ _)). split; [by vm_compute|].
  rewrite len_interrupts. unfold small. change (2 ^ 30) with 1073741824. lia.
Qed.

Lemma clint_writes h : described h -> writes h (build_clint_fdt_node cfg) (flatten (clint_node cfg)) h.
Proof.
  intros Hh. unfold build_clint_fdt_node, clint_node. cbn [flatten map foldr app fst snd P].
  tokens; [apply (co_clint _ HC)..|]. by apply writes_interrupts.
Qed.

Lemma plic_writes h : described h -> writes h (build_plic_fdt_node cfg plic_phandle) (flatten (plic_node cfg)) h.
Proof.
  intros Hh. unfold build_plic_fdt_node, plic_node. cbn [flatten map foldr app fst snd P].
  tokens; try done; [apply (co_plic _ HC)..|]. by apply writes_interrupts.
Qed.

Lemma soc_writes h : described h -> writes h (build_soc_fdt_node cfg plic_phandle) (flatten (soc_node cfg)) h.
Proof.
  intros Hh. unfold build_soc_fdt_node, soc_node. cbn [flatten map foldr app fst snd P]. tokens; try done.
  rewrite <- !(assoc_L app). cbn [app].
  eapply writes_seq; [by apply clint_writes|]. eapply writes_seq; [by apply plic_writes|].
  eapply writes_seq; [apply syscon_writes|]. token.
Qed.

Lemma bootrom_writes h start size :
  is_uint 32 start -> is_uint 32 size ->
  writes h (fdt_begin_node (text "bootrom@" ++ sprintf_x start) ;;;
      prop_string "device_type" "bootrom" ;;;
      prop_string "compatible" "zelda 16MB flash" ;;;
      prop_regs start size ;;;
      fdt_end_node) (flatten (bootrom_node start size)) h.
Proof. intros Hs Hz. unfold bootrom_node. cbn [flatten map foldr app fst snd P]. by tokens. Qed.

Lemma chosen_writes h initrd bootarg :
  small (len bootarg + 1) ->
  match initrd with Some (s, e) => is_uint 32 s /\ is_uint 32 e | None => True end ->
  writes h (fdt_begin_node (text "chosen") ;;;
      match initrd with
      | Some (initrd_start, initrd_end) =>
          prop_cell "linux,initrd-end" initrd_end ;;;
          prop_cell "linux,initrd-start" initrd_start
      | None => ret tt
      end ;;;
      fdt_prop (text "bootargs") (len bootarg + 1) (bootarg ++ [0]) ;;;
      (let stdout_path := text "/uart@" ++ sprintf_x 0x10000000 ++ [0] in
       fdt_prop (text "stdout-path") (len stdout_path) stdout_path) ;;;
      fdt_end_node) (flatten (chosen_node initrd bootarg)) h.
Proof.
  intros Hb Hi. unfold chosen_node. cbn [flatten]. rewrite map_app, <- (assoc_L app). eapply writes_cons; [token|].
  eapply writes_seq.
  - destruct initrd as [[s e]|]; [|apply writes_ret]. destruct Hi as [Hs He]. cbn [map P fst snd].
    eapply writes_cons; [by token|]. by token.
  - cbn [map P fst snd app foldr]. replace (len bootarg + 1) with (len (bootarg ++ [0])) in * by by autorewrite with len.
    eapply writes_cons; [apply (writes_emit _ (IProp _ _)); split; [by vm_compute|done]|].
    eapply writes_cons; [|token].
    apply (writes_emit _ (IProp (text "stdout-path") (str0 "/uart@10000000"))). split; by vm_compute.
Qed.

(** What the root node needs of the configuration file. *)
Record ini_ok (ini : list Z) (rom_start rom_size bootarg : list Z) : Prop := {
  io_start : ini_string ini "rom" "rom_start" = Some rom_start;
  io_size : ini_string ini "rom" "rom_size" = Some rom_size;
  io_bootarg : ini_string ini "image" "bootarg" = Some bootarg;
  io_small : small (len bootarg + 1)
}.

Lemma initrd_range_ok ini image_file_size :
  match initrd_range ini image_file_size with
  | Some (s, e) => is_uint 32 s /\ is_uint 32 e
  | None => True
  end.
Proof.
  unfold initrd_range. destruct (ini_string ini "image" "initrd"); [|done]. cbn [mbind option_bind].
  destruct (ini_string ini "image" "initrd_load_base"); [|done]. split; apply u32_range.
Qed.

Lemma root_writes ini image_file_size rom_start rom_size bootarg a i :
  ini_ok ini rom_start rom_size bootarg -> len a = 64 -> len i = 64 ->
  exists h, writes (a, i, 2) (build_root_fdt_node cfg ini image_file_size plic_phandle)
    (flatten (device_tree cfg (u32 (strtol 16 rom_start)) (u32 (strtol 16 rom_size))
       (initrd_range ini image_file_size) bootarg)) h.
Proof.
  intros [Hs Hz Hb Hsm] Ha Hi. eexists.
  unfold build_root_fdt_node, device_tree. cbn [flatten map foldr app fst snd P]. tokens; try done.
  rewrite <- !(assoc_L app). cbn [app].
  eapply writes_seq; [unfold build_bootrom_fdt_node; rewrite Hs, Hz; apply bootrom_writes; apply u32_range|].
  eapply writes_seq; [unfold build_chosen_fdt_node; rewrite Hb; apply chosen_writes; [done|apply initrd_range_ok]|].
  eapply writes_seq; [apply uart_writes|]. eapply writes_seq; [apply memory_writes|].
  eapply writes_seq; [by apply cpus_node_writes|].
  eapply writes_seq; [|token]. apply soc_writes. pose proof (co_harts _ HC).
  intros k Hk. rewrite nth_fill by lia. unfold intc_phandle. case_test; to_prop; lia.
Qed.
End Nodes_spec.

Lemma init_phandles b :
  exists b1 b2, fdt_build_init 8192 1024 b = Ok tt b1 /\ generate_phandle b1 = Ok plic_phandle b2 /\
    building 8192 1024 [] b2 /\ phandles b2 = (replicate 64 0, replicate 64 0, 2).
Proof.
  destruct (build_init_building 8192 1024 b) as (b1 & E1 & HB & _); [done..|].
  rewrite build_init_eq in E1 by done. injection E1 as <-. rewrite build_init_eq by done.
  do 2 eexists. split; [reflexivity|]. split; [reflexivity|]. split; [|reflexivity].
  exact (building_phandles _ _ _ _ (replicate 64 0) (replicate 64 0) 2 HB).
Qed.

(** The tree is in the buffer: finishing it. *)
Lemma finish_spec cfg its b :
  building 8192 1024 its b ->
  bootrom_base cfg = ZELDA_ROM_BASE -> ZELDA_ROM_MIN_SIZE <= bootrom_size cfg ->
  let finish := (fdt_end ;;;
    let* b := get in
    ASSERT (buffer_iptr b <=? ZELDA_DTB_MAX_SIZE) ;;;
    ASSERT ((bootrom_base cfg =? ZELDA_ROM_BASE) && (ZELDA_ROM_MIN_SIZE <=? bootrom_size cfg)) ;;;
    in_the_buffer (load_at 0 (buffer_iptr b) (buffer b))) b in
  if len (blob_of its) <=? 8192 then exists b', finish = Ok (blob_of its) b' else finish = Failed.
Proof.
  intros HB Hbase Hsize finish.
  pose proof (fdt_end_spec 8192 1024 (proj1 sizes_small) (proj2 sizes_small) its b HB) as HD.
  unfold finish. destruct (Z.leb_spec (len (blob_of its)) 8192) as [Hl|]; [|unfold bind at 1; by rewrite HD].
  unfold bind at 1. destruct HD as (b3 & -> & Hb & Hi & _). rewrite bind_get, Hi, Hbase.
  rewrite (proj2 (Z.leb_le _ ZELDA_DTB_MAX_SIZE)) by exact Hl.
  rewrite (proj2 (Z.leb_le ZELDA_ROM_MIN_SIZE _)) by exact Hsize.
  rewrite (holds_load 8192) by done. by exists b3.
Qed.

(** The whole routine, on any configuration. *)
Lemma fdt_init_spec cfg ini image_file_size rom_start rom_size bootarg b0 :
  config_ok cfg -> ini_ok ini rom_start rom_size bootarg ->
  bootrom_base cfg = ZELDA_ROM_BASE -> ZELDA_ROM_MIN_SIZE <= bootrom_size cfg ->
  let its := flatten (device_tree cfg (u32 (strtol 16 rom_start)) (u32 (strtol 16 rom_size))
    (initrd_range ini image_file_size) bootarg) in
  if fits its 8192 1024
  then exists b, fdt_init cfg ini image_file_size b0 = Ok (blob_of its) b
  else fdt_init cfg ini image_file_size b0 = Failed.
Proof.
  intros HC HI Hbase Hsize its. destruct (init_phandles b0) as (b1 & b2 & E1 & E2 & HB & HP).
  destruct (root_writes cfg HC ini image_file_size rom_start rom_size bootarg (replicate 64 0)
    (replicate 64 0) HI eq_refl eq_refl) as (h & HW). specialize (HW [] b2 HB HP). fold its in HW.
  set (p := build_root_fdt_node _ _ _ _) in HW.
  assert (E : fdt_init cfg ini image_file_size b0 = (p ;;; fdt_end ;;;
    let* b := get in
    ASSERT (buffer_iptr b <=? ZELDA_DTB_MAX_SIZE) ;;;
    ASSERT ((bootrom_base cfg =? ZELDA_ROM_BASE) && (ZELDA_ROM_MIN_SIZE <=? bootrom_size cfg)) ;;;
    in_the_buffer (load_at 0 (buffer_iptr b) (buffer b))) b2).
  { unfold fdt_init, bind at 1. rewrite E1. unfold bind at 1. by rewrite E2. }
  rewrite E, fits_split. destruct (all_fit 8192 1024 [] its); cbn [andb]; [|unfold bind at 1; by rewrite HW].
  destruct HW as (b3 & E3 & HB3 & _). pose proof (finish_spec cfg its b3 HB3 Hbase Hsize) as HF. cbv zeta in HF.
  destruct (len (blob_of its) <=? 8192); unfold bind at 1; rewrite E3; exact HF.
Qed.

(** ** Phandles *)

(** The values of a property, over the whole tree. *)
Fixpoint values (name : string) (n : node) : list (list Z) :=
  let 'Node _ properties children := n in
  map snd (filter (fun p => p.1 = text name) properties) ++ foldr (fun c vs => values name c ++ vs) [] children.

(** The phandles of an [interrupts-extended]: the first cell of each pair. *)
Fixpoint extended_phandles (v : list Z) : list (list Z) :=
  match v with
  | a :: b :: c :: d :: _ :: _ :: _ :: _ :: v => [a; b; c; d] :: extended_phandles v
  | _ => []
  end.

(** Every value that stands for another node. *)
Definition references (n : node) : list (list Z) :=
  values "cpu" n ++ values "interrupt-parent" n ++ (values "interrupts-extended" n ≫= extended_phandles).

Lemma values_all name f (g : Z -> list (list Z)) l :
  (forall i, values name (f i) = g i) ->
  foldr (fun c vs => values name c ++ vs) [] (map f l) = l ≫= g.
Proof. intros Hf. induction l as [|i l IH]; [done|]. cbn [map foldr]. by rewrite Hf, IH. Qed.

Section Phandles.
Context (cfg : platform_config) (start size : Z) (initrd : option (Z * Z)) (bootarg : list Z).
#[local] Abbreviation tree := (device_tree cfg start size initrd bootarg).
#[local] Abbreviation harts := (seqZ 0 (nr_harts cfg)).

(** The nodes of the harts, without the properties around them. *)
#[local] Abbreviation cpus := (Node (text "cpus") []
  (Node (text "cpu-map") [] [Node (text "cluster0") [] (map core_node harts)] :: map (cpu_node cfg) harts)).

Lemma values_cpus name (g h : Z -> list (list Z)) :
  (forall i, values name (core_node i) = g i) -> (forall i, values name (cpu_node cfg i) = h i) ->
  values name cpus = (harts ≫= g) ++ (harts ≫= h).
Proof.
  intros Hg Hh. cbn [values map filter foldr list_filter app]. rewrite (values_all _ _ g _ Hg), (values_all _ _ h _ Hh).
  by rewrite app_nil_r.
Qed.

Lemma bind_nothing {A B} (l : list A) : (l ≫= fun _ => @nil B) = [].
Proof. by induction l. Qed.

Lemma phandles_eq :
  values "phandle" tree = (harts ≫= fun i => [be32 (hart_phandle i); be32 (intc_phandle cfg i)]) ++ [be32 plic_phandle].
Proof.
  pose proof (values_cpus "phandle" (fun _ => [])
    (fun i => [be32 (hart_phandle i); be32 (intc_phandle cfg i)]) (fun _ => eq_refl) (fun _ => eq_refl)) as E.
  rewrite bind_nothing in E. cbn [app] in E. rewrite <- E. clear E. by destruct initrd as [[]|].
Qed.

Lemma extended_interrupts first second :
  extended_phandles (interrupts cfg first second) =
  harts ≫= fun i => [be32 (intc_phandle cfg i); be32 (intc_phandle cfg i)].
Proof.
  unfold interrupts. generalize harts. intros l. induction l as [|i l IH]; [done|].
  cbn [foldr]. rewrite bind_cons, <- IH. done.
Qed.

Lemma references_eq :
  references tree = (harts ≫= fun i => [be32 (hart_phandle i)]) ++ [be32 plic_phandle] ++
    (harts ≫= fun i => [be32 (intc_phandle cfg i); be32 (intc_phandle cfg i)]) ++
    (harts ≫= fun i => [be32 (intc_phandle cfg i); be32 (intc_phandle cfg i)]).
Proof.
  pose proof (values_cpus "cpu" (fun i => [be32 (hart_phandle i)]) (fun _ => []) (fun _ => eq_refl) (fun _ => eq_refl)) as E.
  pose proof (values_cpus "interrupt-parent" (fun _ => []) (fun _ => []) (fun _ => eq_refl) (fun _ => eq_refl)) as E2.
  pose proof (values_cpus "interrupts-extended" (fun _ => []) (fun _ => []) (fun _ => eq_refl) (fun _ => eq_refl)) as E3.
  rewrite bind_nothing, ?app_nil_r in E, E2, E3.
  assert (values "cpu" tree = values "cpu" cpus ++ []) as HA by by destruct initrd as [[]|].
  assert (values "interrupt-parent" tree = [be32 plic_phandle] ++ values "interrupt-parent" cpus ++ []) as HB
    by by destruct initrd as [[]|].
  assert (values "interrupts-extended" tree =
    values "interrupts-extended" cpus ++ [interrupts cfg 3 7; interrupts cfg 11 9]) as HD by by destruct initrd as [[]|].
  unfold references. rewrite HA, HB, HD, E, E2, E3. cbn [mbind list_bind app].
  by rewrite !extended_interrupts, !app_nil_r.
Qed.
End Phandles.

Lemma be32_inj a b : is_uint 32 a -> is_uint 32 b -> be32 a = be32 b -> a = b.
Proof. intros Ha Hb E. apply (f_equal be_value) in E. by rewrite !be_value32, !u32_id in E. Qed.

(** No two nodes have the same phandle, and every reference has a node. *)
Lemma phandles_sound cfg start size initrd bootarg :
  0 <= nr_harts cfg <= 64 ->
  let T := device_tree cfg start size initrd bootarg in
  NoDup (values "phandle" T) /\ Forall (fun r => r ∈ values "phandle" T) (references T).
Proof.
  intros Hn T. unfold T. rewrite phandles_eq, references_eq. split.
  - assert (HI : forall a b, 0 <= a < 1000 -> 0 <= b < 1000 -> be32 a = be32 b -> a = b).
    { intros a b Ha Hb. apply be32_inj; unfold is_uint; change (2 ^ 32) with 4294967296; lia. }
    apply NoDup_app. split; [|split; [|apply NoDup_singleton]].
    + apply NoDup_bind; [| |apply NoDup_seqZ].
      * intros x y b Hx Hy. rewrite elem_of_seqZ in Hx, Hy. unfold hart_phandle, intc_phandle.
        rewrite !elem_of_cons, !elem_of_nil.
        intros [->|[->|[]]] [E|[E|[]]]; apply HI in E; lia.
      * intros x Hx. rewrite elem_of_seqZ in Hx. repeat constructor; rewrite ?elem_of_cons, elem_of_nil; [|tauto].
        intros [E|[]]. unfold hart_phandle, intc_phandle in E. apply HI in E; lia.
    + intros b Hb. apply list_elem_of_bind in Hb as (x & Hx & Hb). rewrite elem_of_seqZ in Hb.
      rewrite list_elem_of_singleton. intros ->. unfold hart_phandle, intc_phandle, plic_phandle in Hx.
      rewrite !elem_of_cons, elem_of_nil in Hx. destruct Hx as [E|[E|[]]]; apply HI in E; lia.
  - apply Forall_forall. intros r. rewrite !elem_of_app, !list_elem_of_bind.
    assert (HX : forall i, i ∈ seqZ 0 (nr_harts cfg) -> r = be32 (hart_phandle i) \/ r = be32 (intc_phandle cfg i) ->
      exists x, r ∈ [be32 (hart_phandle x); be32 (intc_phandle cfg x)] /\ x ∈ seqZ 0 (nr_harts cfg)).
    { intros i Hi Hr. exists i. rewrite !elem_of_cons. tauto. }
    intros [(i & Hr & Hi)|[Hr|[(i & Hr & Hi)|(i & Hr & Hi)]]]; [| by right | |];
      left; apply (HX i Hi); rewrite !elem_of_cons, elem_of_nil in Hr; tauto.
Qed.

(** ** Room *)

(** What a token takes at most, and what its name takes. *)
Definition weight (i : item) : Z :=
  match i with
  | IBegin name => len name + 8
  | IProp _ value => len value + 15
  | _ => 4
  end.
Definition total (f : item -> Z) (its : list item) : Z := foldr (fun i n => f i + n) 0 its.

Lemma total_app f a c : total f (a ++ c) = total f a + total f c.
Proof. induction a as [|i a IH]; [done|]. cbn [app total foldr]. fold (total f (a ++ c)). fold (total f a). lia. Qed.

Lemma struct_total its : forall off, len (struct_bytes off its) <= total weight its.
Proof.
  induction its as [|i its IH]; intros off; [done|]. cbn [struct_bytes total foldr]. fold (total weight its).
  rewrite len_app. specialize (IH (off + len (item_name i))).
  assert (len (item_bytes off i) <= weight i); [|lia].
  destruct i; cbn [item_bytes weight]; autorewrite with len;
    repeat match goal with |- context [padding ?n] => pose proof (padding_range n); generalize dependent (padding n); intros end; lia.
Qed.

Lemma names_total its : len (names_of its) = total (fun i => len (item_name i)) its.
Proof. induction its as [|i its IH]; [done|]. cbn [names_of total foldr]. rewrite len_app, IH. done. Qed.

Lemma total_nodes f (g : Z -> node) k l :
  (forall i, total f (flatten (g i)) <= k) -> total f (all_nodes (map g l)) <= k * len l.
Proof.
  intros Hg. induction l as [|i l IH]; [change (0 <= k * 0); lia|]. cbn [map all_nodes foldr]. fold (all_nodes (map g l)).
  rewrite total_app, len_cons. specialize (Hg i). lia.
Qed.

Lemma total_nodes_eq f (g : Z -> node) k l :
  (forall i, total f (flatten (g i)) = k) -> total f (all_nodes (map g l)) = k * len l.
Proof.
  intros Hg. induction l as [|i l IH]; [change (0 = k * 0); lia|]. cbn [map all_nodes foldr]. fold (all_nodes (map g l)).
  rewrite total_app, len_cons, Hg, IH. lia.
Qed.

Section Room.
Context (cfg : platform_config) (start size : Z) (initrd : option (Z * Z)) (bootarg : list Z).
Context (Hn : 0 <= nr_harts cfg).
#[local] Abbreviation tree := (device_tree cfg start size initrd bootarg).
#[local] Abbreviation harts := (seqZ 0 (nr_harts cfg)).

Lemma len_harts : len harts = nr_harts cfg.
Proof. unfold len. rewrite length_seqZ. lia. Qed.

(** The tokens around the nodes of the harts. *)
Definition before_harts : list item :=
  IBegin [] :: map (fun p => IProp p.1 p.2)
    [P "#address-cells" (be32 2); P "#size-cells" (be32 2); P "compatible" (str0 "riscv-virtio");
     P "model" (str0 "riscv-virtio,qemu")] ++
  flatten (bootrom_node start size) ++ flatten (chosen_node initrd bootarg) ++ flatten uart_node ++
  flatten (memory_node cfg) ++
  IBegin (text "cpus") :: map (fun p => IProp p.1 p.2)
    [P "#address-cells" (be32 1); P "#size-cells" (be32 0);
     P "timebase-frequency" (be32 CLINT_TIMEBASE_FREQUENCY)] ++
  [IBegin (text "cpu-map"); IBegin (text "cluster0")].

Lemma tree_split :
  flatten tree = before_harts ++ all_nodes (map core_node harts) ++ [IEnd; IEnd] ++
    all_nodes (map (cpu_node cfg) harts) ++ [IEnd] ++ flatten (soc_node cfg) ++ [IEnd].
Proof.
  unfold device_tree, before_harts, cpus_node. cbn [flatten map foldr P fst snd].
  fold (all_nodes (map core_node harts)). fold (all_nodes (map (cpu_node cfg) harts)).
  rewrite ?app_nil_r. rewrite <- ?(assoc_L app). cbn [app]. rewrite <- ?(assoc_L app). cbn [app].
  rewrite <- ?(assoc_L app). cbn [app]. done.
Qed.

Lemma names_tree :
  len (names_of (flatten tree)) = 438 + (if initrd is Some _ then 36 else 0) + 122 * nr_harts cfg.
Proof.
  rewrite names_total, tree_split, !total_app.
  rewrite (total_nodes_eq _ _ 4), (total_nodes_eq _ _ 118), len_harts by done.
  set (f := fun i => len (item_name i)).
  replace (total f before_harts) with (236 + (if initrd is Some _ then 36 else 0))
    by (unfold before_harts; destruct initrd as [[]|]; lazy; reflexivity).
  change (total f (flatten (soc_node cfg))) with 202. cbn [total foldr]. change (f IEnd) with 0. lia.
Qed.

(** Lengths of names with a number in them and of closed strings. *)
Ltac weigh :=
  cbn [flatten map foldr app fst snd P total weight]; unfold str0, bus_regs, sprintf_x, sprintf_d;
  autorewrite with len;
  repeat match goal with
    | |- context [len (text ?s)] => let v := eval vm_compute in (len (text s)) in change (len (text s)) with v
    | |- context [len (or_zero (map ?f (rev (digits 16 ?base ?m))))] =>
        pose proof (len_numeral f base m);
        generalize dependent (len (or_zero (map f (rev (digits 16 base m))))); intros
    end.

Lemma total_tree : config_ok cfg -> len bootarg <= 3000 -> nr_harts cfg <= 4 -> total weight (flatten tree) <= 7000.
Proof.
  intros HK Hb Hh. rewrite tree_split, !total_app.
  assert (HC : forall i, total weight (flatten (core_node i)) <= 60) by (intros i; unfold core_node; weigh; lia).
  assert (HU : forall i, total weight (flatten (cpu_node cfg i)) <= 400) by (intros i; unfold cpu_node; weigh; lia).
  pose proof (total_nodes weight core_node 60 harts HC) as H1.
  pose proof (total_nodes weight (cpu_node cfg) 400 harts HU) as H2. rewrite len_harts in H1, H2.
  assert (total weight before_harts <= 4300).
  { unfold before_harts, bootrom_node, chosen_node, uart_node, memory_node. destruct initrd as [[]|]; weigh; lia. }
  assert (total weight (flatten (soc_node cfg)) <= 660).
  { unfold soc_node, clint_node, plic_node, syscon_node. weigh. rewrite !(len_interrupts cfg HK). lia. }
  change (total weight [IEnd; IEnd]) with 8. change (total weight [IEnd]) with 4. lia.
Qed.

(** Four harts fit, five do not. *)
Lemma tree_fits :
  config_ok cfg -> len bootarg <= 3000 -> fits (flatten tree) 8192 1024 = (nr_harts cfg <=? 4).
Proof.
  intros HK Hb. unfold fits, blob_of. cbv zeta. autorewrite with len. rewrite names_tree.
  pose proof (struct_total (flatten tree) 0) as HS. pose proof (total_tree HK Hb).
  apply eq_true_iff_eq. to_prop. destruct initrd; lia.
Qed.
End Room.

Lemma Ok_inj {S A} (a c : A) (s t : S) : Ok a s = Ok c t -> a = c.
Proof. congruence. Qed.

(** ** Properties *)

(** C14. The machine's device tree. For a machine of up to 64 harts, with the boot rom
    and the kernel's arguments configured and the arguments at most 3000 bytes long,
    [fdt_init] copies into the boot rom the blob of exactly the tree the configuration
    describes: rom, chosen, uart, memory, one node per hart and the controllers wired
    to all of them. It does so for up to four harts; with more, the property names do
    not fit the builder's string buffer and an assertion stops the vmm. *)
Theorem device_tree_built cfg ini image_file_size rom_start rom_size bootarg b0 :
  config_ok cfg -> ini_ok ini rom_start rom_size bootarg -> len bootarg <= 3000 ->
  bootrom_base cfg = ZELDA_ROM_BASE -> ZELDA_ROM_MIN_SIZE <= bootrom_size cfg ->
  let T := device_tree cfg (u32 (strtol 16 rom_start)) (u32 (strtol 16 rom_size))
    (initrd_range ini image_file_size) bootarg in
  if nr_harts cfg <=? 4
  then exists b, fdt_init cfg ini image_file_size b0 = Ok (blob_of (flatten T)) b
  else fdt_init cfg ini image_file_size b0 = Failed.
Proof.
  intros HC HI Hl Hb Hs T. rewrite <- (tree_fits cfg (u32 (strtol 16 rom_start)) (u32 (strtol 16 rom_size))
    (initrd_range ini image_file_size) bootarg (proj1 (co_harts _ HC)) HC Hl).
  by apply (fdt_init_spec cfg ini image_file_size rom_start rom_size bootarg b0).
Qed.

(** Phandles of the device tree. Whatever blob [fdt_init] hands the guest, it is the
    blob of a tree in which no two nodes share a phandle, and in which every reference -
    a core's hart, a device's interrupt parent, each interrupt of the two controllers -
    is the phandle of a node of the tree. *)
Theorem device_tree_phandles cfg ini image_file_size rom_start rom_size bootarg b0 dtb b :
  config_ok cfg -> ini_ok ini rom_start rom_size bootarg ->
  bootrom_base cfg = ZELDA_ROM_BASE -> ZELDA_ROM_MIN_SIZE <= bootrom_size cfg ->
  fdt_init cfg ini image_file_size b0 = Ok dtb b ->
  exists T, dtb = blob_of (flatten T) /\ NoDup (values "phandle" T) /\
    Forall (fun r => r ∈ values "phandle" T) (references T).
Proof.
  intros HC HI Hb Hs E.
  pose proof (fdt_init_spec cfg ini image_file_size rom_start rom_size bootarg b0 HC HI Hb Hs) as HF.
  cbv zeta in HF. rewrite E in HF. eexists. split; [|apply phandles_sound, (co_harts _ HC)].
  destruct (fits _ 8192 1024); [|discriminate]. destruct HF as (b' & HF). exact (Ok_inj _ _ _ _ HF).
Qed.

(** ** Witnesses *)

Module Witness.

Definition cfg : platform_config :=
  {| nr_harts := 2; main_mem_base := 0x80000000; main_mem_size := 0x10000000;
     bootrom_base := 0; bootrom_size := 0x400000;
     pc_clint_base := 0x2000000; pc_clint_size := 0x10000;
     pc_plic_base := 0xc000000; pc_plic_size := 0x4000000;
     syscon_base := 0x400000; syscon_size := 0x1000 |}.

Definition ini : list Z := Eval vm_compute in default [] (ini_load (text "[rom]
rom_start = 0x0
rom_size = 0x400000
[image]
bootarg = console=ttyS0
")).

Definition no_file (_ : list Z) : Z := 0.
Definition b0 : fdt_build_blob := empty_blob 0 0.

Lemma cfg_ok : config_ok cfg.
Proof. split; [split; vm_compute; discriminate|..]; repeat split; by vm_compute. Qed.

Lemma ini_read : ini_ok ini (text "0x0") (text "0x400000") (text "console=ttyS0").
Proof. split; by vm_compute. Qed.

Lemma device_tree_built_witness :
  exists b, fdt_init cfg ini no_file b0 =
    Ok (blob_of (flatten (device_tree cfg 0 0x400000 None (text "console=ttyS0")))) b.
Proof.
  exact (device_tree_built cfg ini no_file (text "0x0") (text "0x400000") (text "console=ttyS0") b0
    cfg_ok ini_read ltac:(vm_compute; discriminate) eq_refl ltac:(vm_compute; discriminate)).
Defined.

Definition dtb : list Z := blob_of (flatten (device_tree cfg 0 0x400000 None (text "console=ttyS0"))).

Lemma built : exists b, fdt_init cfg ini no_file b0 = Ok dtb b.
Proof.
  pose proof (fdt_init_spec cfg ini no_file (text "0x0") (text "0x400000") (text "console=ttyS0") b0
    cfg_ok ini_read eq_refl ltac:(vm_compute; discriminate)) as H.
  cbv zeta in H. rewrite tree_fits in H; [exact H|done|apply cfg_ok|vm_compute; discriminate].
Qed.

Lemma device_tree_phandles_witness :
  exists b T, fdt_init cfg ini no_file b0 = Ok dtb b /\ dtb = blob_of (flatten T) /\
    NoDup (values "phandle" T) /\ Forall (fun r => r ∈ values "phandle" T) (references T).
Proof.
  destruct built as [b E].
  destruct (device_tree_phandles cfg ini no_file (text "0x0") (text "0x400000") (text "console=ttyS0") b0 dtb b
    cfg_ok ini_read eq_refl ltac:(vm_compute; discriminate) E) as (T & HT).
  exists b, T. split; [exact E|exact HT].
Defined.

End Witness.
