(* ===== verification/Sbi.v ===== *)
(** * The firmware's supervisor binary interface

    Models src/bootrom/sbi.c with the csr accesses of src/bootrom/csr.h: the machine
    mode trap handler and the SBI calls it serves, as programs of the machine. An
    access to a csr is the read-modify-write of the csr instruction it is compiled to
    (Csr.v), a store to a device register the store of Mmu.v, a fence the callback the
    vmm runs for it (Calls.v), a message [printk] of Console.v. [struct trap_frame] is
    the value the handler is given and gives back; the firmware's stack it lies on is
    not part of the model. A loop on wfi never ends: a function that enters one has
    the outcome [Waits].

    Proved here: programming a timer never makes it due before its time, not even
    between the two halves; a call that is not offered is refused and changes
    nothing, and the probe tells exactly which are offered; a timer interrupt is
    handed to the supervisor once; an SBI call returns behind its ecall with every
    register but the results unchanged. *)

From S2P Require Import Prelude Monad PmRegion X86 Hart Decode Trap Clint Plic Uart Machine Mmu.
From S2P Require Import Rv32 Console CsrHandlers Csr Interrupt Calls.
Local Open Scope Z_scope.

Definition CLINT_BASE : Z := 0x02000000.
Definition CLINT_MSIP_OFFSET : Z := 0x0000.
Definition CLINT_MTIMECMP_OFFSET : Z := 0x4000.
Definition SYSCON_BASE : Z := 0x00400000.
Definition SYSCON_POWEROFF : Z := 0x00005555.

Definition MIP_SSIP : Z := Z.shiftl 1 1.
Definition MIP_STIP : Z := Z.shiftl 1 5.
Definition MIE_MSIE : Z := Z.shiftl 1 3.
Definition MIE_MTIE : Z := Z.shiftl 1 7.

Definition CSR_ADDRESS_MHARTID : Z := 0xf14.
Definition CSR_ADDRESS_MVENDORID : Z := 0xf11.

Definition REG_A0 : Z := 10.
Definition REG_A1 : Z := 11.
Definition REG_A6 : Z := 16.
Definition REG_A7 : Z := 17.

Definition SBI_EXT_LEGACY_SET_TIMER : Z := 0x00.
Definition SBI_EXT_LEGACY_CONSOLE_PUTCHAR : Z := 0x01.
Definition SBI_EXT_LEGACY_CONSOLE_GETCHAR : Z := 0x02.
Definition SBI_EXT_LEGACY_CLEAR_IPI : Z := 0x03.
Definition SBI_EXT_LEGACY_SEND_IPI : Z := 0x04.
Definition SBI_EXT_LEGACY_REMOTE_FENCE_I : Z := 0x05.
Definition SBI_EXT_LEGACY_REMOTE_SFENCE_VMA : Z := 0x06.
Definition SBI_EXT_LEGACY_REMOTE_SFENCE_VMA_ASID : Z := 0x07.
Definition SBI_EXT_LEGACY_SHUTDOWN : Z := 0x08.
Definition SBI_EXT_BASE : Z := 0x10.
Definition SBI_EXT_TIME : Z := 0x54494d45.
Definition SBI_EXT_IPI : Z := 0x00735049.
Definition SBI_EXT_RFENCE : Z := 0x52464e43.
Definition SBI_EXT_SRST : Z := 0x53525354.
Definition SBI_BASE_GET_SPEC_VERSION : Z := 0x0.
Definition SBI_BASE_GET_IMPL_ID : Z := 0x1.
Definition SBI_BASE_GET_IMPL_VERSION : Z := 0x2.
Definition SBI_BASE_PROBE_EXTENSION : Z := 0x3.
Definition SBI_BASE_GET_MVENDORID : Z := 0x4.
Definition SBI_BASE_GET_MARCHID : Z := 0x5.
Definition SBI_BASE_GET_MIMPID : Z := 0x6.
Definition SBI_SUCCESS : Z := 0.
Definition SBI_ERR_NOT_SUPPORTED : Z := -2.
Definition SBI_SPEC_VERSION : Z := Z.lor (Z.shiftl 0 24) 3.
Definition SBI_IMPL_ID : Z := 8.
Definition SBI_IMPL_VERSION : Z := 1.

Definition CAUSE_SUPERVISOR_ECALL : Z := 0x9.
Definition IRQ_MACHINE_SOFTWARE : Z := 3.
Definition IRQ_MACHINE_TIMER : Z := 7.

(** ** Functions that may stop the hart *)

(** A function returns, or sits in its wfi loop for ever. *)
Inductive control (A : Type) : Type :=
  | Returns (a : A)
  | Waits.
Arguments Returns {A}.
Arguments Waits {A}.

Definition fw (A : Type) : Type := prog machine (control A).

Definition fw_ret {A} (a : A) : fw A := ret (Returns a).
Definition fw_bind {A B} (m : fw A) (k : A -> fw B) : fw B :=
  let* c := m in match c with Returns a => k a | Waits => ret Waits end.
(** A function that always returns. *)
Definition plain {A} (m : prog machine A) : fw A := let* a := m in ret (Returns a).
Definition wait_forever {A} : fw A := ret Waits.

Notation "'let+' x ':=' m 'in' k" := (fw_bind m (fun x => k))
  (at level 10, x pattern, m at level 100, k at level 200) : vmm_scope.

(** [struct trap_frame], slot 0 unused.
    src/bootrom/sbi.h:15-17 trap_frame *)
Record trap_frame := { regs : list Z }.

Definition frame_reg (f : trap_frame) (i : Z) : Z := arr (regs f) i.
Definition set_frame_reg (i v : Z) (f : trap_frame) : trap_frame := {| regs := set_arr i v (regs f) |}.

(** [a + ((uint64_t)b << 32)] of two words. *)
Definition word64 (hi lo : Z) : Z := Z.lor (u64 (Z.shiftl hi 32)) lo.

Section Firmware.
Context `{Assembler}.

(** ** Csr accesses *)

(** An access to an unregistered csr stops the vmm. *)
Definition csr_access {A} (a : Z) (k : Z -> prog hart A) : prog machine A :=
  let* now := gets (fun m => clint_get_time (clint m)) in
  on_hart (let* h := get in if is_valid (csr_at h a) then k now else failed).

(** src/bootrom/csr.h:10-14 read_csr *)
Definition read_csr (a : Z) : prog machine Z := csr_access a (fun now => csr_value now a).

(** src/bootrom/csr.h:16-17 write_csr *)
Definition write_csr (a val : Z) : prog machine unit :=
  csr_access a (fun _ => let* h := get in csr_store a (Z.land val (wpri_mask (csr_at h a)))).

(** src/bootrom/csr.h:19-20 set_csr *)
Definition set_csr (a bits : Z) : prog machine unit :=
  csr_access a (fun now =>
    let* h := get in let* v := csr_value now a in
    csr_store a (Z.land (Z.lor v bits) (wpri_mask (csr_at h a)))).

(** src/bootrom/csr.h:22-23 clear_csr *)
Definition clear_csr (a bits : Z) : prog machine unit :=
  csr_access a (fun now =>
    let* h := get in let* v := csr_value now a in
    csr_store a (Z.land (Z.ldiff v bits) (wpri_mask (csr_at h a)))).

(** [__asm__ volatile("fence.i")] and [("sfence.vma")]. *)
Definition fence_i : prog machine unit := on_hart (modify flush_translation_cache).
Definition sfence_vma : prog machine unit := on_hart sfence_vma_callback.

(** ** The calls *)

(** src/bootrom/sbi.c:13-17 current_hartid *)
Definition current_hartid : prog machine Z := read_csr CSR_ADDRESS_MHARTID.

(** Statements one after the other; the machine changes between any two of them only
    by what they do, but its timer is compared all the time. *)
Fixpoint in_order (l : list (prog machine unit)) : prog machine unit :=
  match l with
  | [] => ret tt
  | p :: l => p ;;; in_order l
  end.

(** The statements, once the address is known.
    src/bootrom/sbi.c:39-45 sbi_set_timer *)
Definition set_timer_statements (mtimecmp next : Z) : list (prog machine unit) :=
  [mmu_write32 (u32 (mtimecmp + 4)) 0xffffffff;
   mmu_write32 mtimecmp (u32 next);
   mmu_write32 (u32 (mtimecmp + 4)) (u32 (Z.shiftr next 32));
   clear_csr CSR_ADDRESS_MIP MIP_STIP;
   set_csr CSR_ADDRESS_MIE MIE_MTIE].

(** src/bootrom/sbi.c:29-31 sbi_set_timer *)
Definition mtimecmp_of (hartid : Z) : Z := u32 (CLINT_BASE + CLINT_MTIMECMP_OFFSET + 8 * hartid).

(** src/bootrom/sbi.c:27-46 sbi_set_timer *)
Definition sbi_set_timer (next : Z) : prog machine unit :=
  let* hartid := current_hartid in
  in_order (set_timer_statements (mtimecmp_of hartid) next).

(** src/bootrom/sbi.c:48-54 sbi_send_ipi *)
Definition sbi_send_ipi (hart : Z) : prog machine unit :=
  mmu_write32 (u32 (CLINT_BASE + CLINT_MSIP_OFFSET + 4 * hart)) 1.

Definition crlf : list Z := [0x0d; 0x0a].

(** src/bootrom/sbi.c:56-66 sbi_shutdown *)
Definition sbi_shutdown {A} : fw A :=
  printk (crlf ++ text "zelda: system halted" ++ crlf) [] ;;;
  mmu_write32 SYSCON_BASE SYSCON_POWEROFF ;;;
  wait_forever.

(** src/bootrom/sbi.c:68-91 sbi_probe_extension *)
Definition sbi_probe_extension (extension_id : Z) : Z :=
  if existsb (Z.eqb extension_id)
       [SBI_EXT_BASE; SBI_EXT_TIME; SBI_EXT_IPI; SBI_EXT_RFENCE; SBI_EXT_SRST;
        SBI_EXT_LEGACY_SET_TIMER; SBI_EXT_LEGACY_CONSOLE_PUTCHAR; SBI_EXT_LEGACY_CONSOLE_GETCHAR;
        SBI_EXT_LEGACY_CLEAR_IPI; SBI_EXT_LEGACY_SEND_IPI; SBI_EXT_LEGACY_REMOTE_FENCE_I;
        SBI_EXT_LEGACY_REMOTE_SFENCE_VMA; SBI_EXT_LEGACY_REMOTE_SFENCE_VMA_ASID;
        SBI_EXT_LEGACY_SHUTDOWN]
  then 1 else 0.

(** A case of a call's switch: the value assigned, once the case's calls returned. *)
Definition then_value {A} (v : A) (m : prog machine unit) : fw A := m ;;; fw_ret v.

(** src/bootrom/sbi.c:96-136 sbi_legacy_call *)
Definition sbi_legacy_call (frame : trap_frame) (extension_id : Z) : fw trap_frame :=
  let+ ret :=
    if extension_id =? SBI_EXT_LEGACY_SET_TIMER then
      then_value 0 (sbi_set_timer (word64 (frame_reg frame REG_A1) (frame_reg frame REG_A0)))
    else if extension_id =? SBI_EXT_LEGACY_CONSOLE_PUTCHAR then
      then_value 0 (uart16550_putchar (u8 (frame_reg frame REG_A0)))
    else if extension_id =? SBI_EXT_LEGACY_CONSOLE_GETCHAR then plain uart16550_getchar
    else if extension_id =? SBI_EXT_LEGACY_CLEAR_IPI then
      then_value 0 (clear_csr CSR_ADDRESS_MIP MIP_SSIP)
    else if extension_id =? SBI_EXT_LEGACY_SEND_IPI then
      then_value 0 (let* hartid := current_hartid in sbi_send_ipi hartid)
    else if extension_id =? SBI_EXT_LEGACY_REMOTE_FENCE_I then then_value 0 fence_i
    else if (extension_id =? SBI_EXT_LEGACY_REMOTE_SFENCE_VMA) ||
            (extension_id =? SBI_EXT_LEGACY_REMOTE_SFENCE_VMA_ASID) then then_value 0 sfence_vma
    else if extension_id =? SBI_EXT_LEGACY_SHUTDOWN then sbi_shutdown
    else fw_ret SBI_ERR_NOT_SUPPORTED in
  fw_ret (set_frame_reg REG_A0 (u32 ret) frame).

(** The values of the base extension; [None] for a function it does not have.
    src/bootrom/sbi.c:151-178 sbi_modern_call *)
Definition sbi_base_call (frame : trap_frame) (function_id : Z) : option (prog machine Z) :=
  if function_id =? SBI_BASE_GET_SPEC_VERSION then Some (ret SBI_SPEC_VERSION)
  else if function_id =? SBI_BASE_GET_IMPL_ID then Some (ret SBI_IMPL_ID)
  else if function_id =? SBI_BASE_GET_IMPL_VERSION then Some (ret SBI_IMPL_VERSION)
  else if function_id =? SBI_BASE_PROBE_EXTENSION then
    Some (ret (sbi_probe_extension (frame_reg frame REG_A0)))
  else if function_id =? SBI_BASE_GET_MVENDORID then Some (read_csr CSR_ADDRESS_MVENDORID)
  else if function_id =? SBI_BASE_GET_MARCHID then Some (read_csr CSR_ADDRESS_MARCHID)
  else if function_id =? SBI_BASE_GET_MIMPID then Some (read_csr CSR_ADDRESS_MIMPID)
  else None.

(** The loop over the bits of the mask, [rest] of them left.
    src/bootrom/sbi.c:194-198 sbi_modern_call *)
Fixpoint send_ipis (rest : nat) (bit mask base : Z) : prog machine unit :=
  match rest with
  | O => ret tt
  | S rest =>
      (if truthy (Z.land mask (u32 (Z.shiftl 1 bit))) then sbi_send_ipi (u32 (base + bit)) else ret tt) ;;;
      send_ipis rest (bit + 1) mask base
  end.

(** src/bootrom/sbi.c:141-240 sbi_modern_call *)
Definition sbi_modern_call (frame : trap_frame) (extension_id function_id : Z) : fw trap_frame :=
  let done := (SBI_SUCCESS, 0) in
  let refused := fw_ret (SBI_ERR_NOT_SUPPORTED, 0) in
  let+ (error, value) :=
    if extension_id =? SBI_EXT_BASE then
      match sbi_base_call frame function_id with
      | Some m => let* v := m in fw_ret (SBI_SUCCESS, v)
      | None => refused
      end
    else if extension_id =? SBI_EXT_TIME then
      if function_id =? 0
      then then_value done (sbi_set_timer (word64 (frame_reg frame REG_A1) (frame_reg frame REG_A0)))
      else refused
    else if extension_id =? SBI_EXT_IPI then
      if function_id =? 0
      then then_value done (send_ipis 32 0 (frame_reg frame REG_A0) (frame_reg frame REG_A1))
      else refused
    else if extension_id =? SBI_EXT_RFENCE then
      if function_id =? 0 then then_value done fence_i
      else if (function_id =? 1) || (function_id =? 2) then then_value done sfence_vma
      else refused
    else if extension_id =? SBI_EXT_SRST then
      if function_id =? 0 then sbi_shutdown else refused
    else refused in
  fw_ret (set_frame_reg REG_A1 (u32 value) (set_frame_reg REG_A0 (u32 error) frame)).

(** src/bootrom/sbi.c:242-253 sbi_dispatch *)
Definition sbi_dispatch (frame : trap_frame) : fw trap_frame :=
  let extension_id := frame_reg frame REG_A7 in
  let function_id := frame_reg frame REG_A6 in
  if extension_id <=? SBI_EXT_LEGACY_SHUTDOWN then sbi_legacy_call frame extension_id
  else sbi_modern_call frame extension_id function_id.

(** ** The trap handler *)

(** src/bootrom/sbi.c:255-265 fw_fatal *)
Definition fw_fatal {A} (what : string) (mcause mepc mtval : Z) : fw A :=
  printk (crlf ++ text "[firmware] unhandled %s" ++ crlf) [va_string (text what)] ;;;
  printk (text "[firmware]   mcause 0x%x mepc 0x%x mtval 0x%x" ++ crlf)
    [va_word mcause; va_word mepc; va_word mtval] ;;;
  printk (text "[firmware] halting." ++ crlf) [] ;;;
  wait_forever.

(** src/bootrom/sbi.c:267-294 fw_handle_interrupt *)
Definition fw_handle_interrupt (cause : Z) : fw unit :=
  if cause =? IRQ_MACHINE_TIMER then
    plain (clear_csr CSR_ADDRESS_MIE MIE_MTIE ;;; set_csr CSR_ADDRESS_MIP MIP_STIP)
  else if cause =? IRQ_MACHINE_SOFTWARE then
    plain (let* hartid := current_hartid in
           mmu_write32 (u32 (CLINT_BASE + CLINT_MSIP_OFFSET + 4 * hartid)) 0 ;;;
           set_csr CSR_ADDRESS_MIP MIP_SSIP)
  else
    let* mepc := read_csr CSR_ADDRESS_MEPC in
    fw_fatal "machine interrupt" cause mepc 0.

(** src/bootrom/sbi.c:296-318 fw_trap_handler *)
Definition fw_trap_handler (frame : trap_frame) : fw trap_frame :=
  let* mcause := read_csr CSR_ADDRESS_MCAUSE in
  if truthy (Z.land mcause 0x80000000) then
    let+ _ := fw_handle_interrupt (Z.land mcause 0xff) in fw_ret frame
  else if mcause =? CAUSE_SUPERVISOR_ECALL then
    let+ frame := sbi_dispatch frame in
    plain (let* mepc := read_csr CSR_ADDRESS_MEPC in
           write_csr CSR_ADDRESS_MEPC (u32 (mepc + 4)) ;;; ret frame)
  else
    let* mepc := read_csr CSR_ADDRESS_MEPC in
    let* mtval := read_csr CSR_ADDRESS_MTVAL in
    fw_fatal "machine exception" mcause mepc mtval.

(** [fw_trap_vector] is the address the linker gave the vector of entry.S.
    src/bootrom/sbi.c:320-328 sbi_init *)
Definition sbi_init (fw_trap_vector : Z) : prog machine unit :=
  write_csr CSR_ADDRESS_MTVEC fw_trap_vector ;;;
  write_csr CSR_ADDRESS_MIE MIE_MSIE ;;;
  write_csr CSR_ADDRESS_MIP 0.
End Firmware.

(** ** The platform *)

(** The csrs of a hart are the registered ones, whatever their values. *)
Definition csrs_known (h : hart) : Prop :=
  forall e, e ∈ csr_registery_head -> shape (csr_at h (reg_addr e)) = registered e.

Definition mapped (m : machine) (a : Z) (c : region_kind) : Prop :=
  exists r, search_pm_region_callback (pmr_ops m) a = Some (Some r) /\ pmr_callbacks r = c.

(** The devices are where platform.h says, and the csrs are registered. *)
Record wired (m : machine) : Prop := {
  wi_clint : forall off, 0 <= off < 0x10000 -> mapped m (CLINT_BASE + off) clint_region;
  wi_queue : mapped m (UART16550_BASE + UART_REG_QUEUE) uart_region;
  wi_lsr : mapped m (UART16550_BASE + UART_REG_LSR) uart_region;
  wi_syscon : mapped m SYSCON_BASE syscon_region;
  wi_base : clint_base (clint m) = CLINT_BASE;
  wi_wf : clint_wf (clint m);
  wi_id : 0 <= hart_id (m_hart m) < clint_nr_harts (clint m);
  wi_csrs : csrs_known (m_hart m);
  wi_dlab : dlab (uart m) = false
}.

(** The firmware runs: a wired machine at machine level. *)
Definition platform (m : machine) : Prop :=
  privilege_level (m_hart m) = PRIVILEGE_LEVEL_MACHINE /\ wired m.

(** Membership in the table of csrs. *)
Ltac registered_csr :=
  let l := eval vm_compute in csr_registery_head in change csr_registery_head with l; repeat constructor.

Section Facts.
Context `{AssemblerOk}.

Lemma machine_resolves m a c :
  privilege_level (m_hart m) = PRIVILEGE_LEVEL_MACHINE -> mapped m a c ->
  exists r, resolve m a = Some (r, a) /\ pmr_callbacks r = c.
Proof.
  intros Hp (r & Hr & Hc). exists r. split; [|done]. unfold resolve, paging. rewrite Hp, Hr. done.
Qed.

Lemma platform_console m : platform m -> console_ready m.
Proof.
  intros [Hp HW]. split.
  - exact (machine_resolves m _ _ Hp (wi_queue _ HW)).
  - exact (machine_resolves m _ _ Hp (wi_lsr _ HW)).
  - exact (wi_dlab _ HW).
Qed.

Lemma clint_store m off v :
  platform m -> 0 <= off < 0x10000 ->
  mmu_write32 (CLINT_BASE + off) v m =
  Ok tt (set_clint (clint_write (CLINT_BASE + off) 4 v (clint m)) m).
Proof.
  intros [Hp HW] Ho. destruct (machine_resolves m _ _ Hp (wi_clint _ HW off Ho)) as (r & Hr & Hc).
  unfold mmu_write32. rewrite (vmwrite_hits 4 _ _ _ _ _ Hr). unfold pmr_write. by rewrite Hc.
Qed.

Lemma shape_fields x e : shape x = registered e ->
  is_valid x = true /\ wpri_mask x = reg_wpri_mask e /\ write x = reg_write e /\ read x = reg_read e.
Proof. destruct x. unfold shape, registered, set_csr_blob. cbn. by intros [= -> _ -> -> ->]. Qed.

(** An access to a registered csr. *)
Lemma known_access {A} e (k : Z -> prog hart A) m :
  csrs_known (m_hart m) -> e ∈ csr_registery_head ->
  csr_access (reg_addr e) k m = on_hart (k (clint_get_time (clint m))) m.
Proof.
  intros HK He. destruct (shape_fields _ _ (HK e He)) as (Hv & _).
  unfold csr_access, bind, gets, on_hart, zoom, get. by rewrite Hv.
Qed.

Lemma known_value e now h :
  csrs_known h -> e ∈ csr_registery_head ->
  csr_value now (reg_addr e) h =
  let (v, h) := match reg_read e with Some f => run_read f now (reg_addr e) h | None => (0, h) end in
  Ok (Z.land v (wpri_mask (csr_at h (reg_addr e)))) h.
Proof.
  intros HK He. destruct (shape_fields _ _ (HK e He)) as (_ & _ & _ & Hr).
  unfold csr_value. by rewrite Hr.
Qed.

Lemma known_store e v h :
  csrs_known h -> e ∈ csr_registery_head ->
  csr_store (reg_addr e) v h =
  Ok tt (match reg_write e with Some f => run_write f (reg_addr e) v h | None => h end).
Proof.
  intros HK He. destruct (shape_fields _ _ (HK e He)) as (_ & _ & Hw & _).
  unfold csr_store, modify. by rewrite Hw.
Qed.

Lemma known_mask e h :
  csrs_known h -> e ∈ csr_registery_head -> wpri_mask (csr_at h (reg_addr e)) = reg_wpri_mask e.
Proof. intros HK He. by destruct (shape_fields _ _ (HK e He)) as (_ & Hm & _). Qed.

Lemma read_known e f m v :
  csrs_known (m_hart m) -> e ∈ csr_registery_head -> reg_read e = Some f ->
  run_read f (clint_get_time (clint m)) (reg_addr e) (m_hart m) = (v, m_hart m) ->
  read_csr (reg_addr e) m = Ok (Z.land v (reg_wpri_mask e)) m.
Proof.
  intros HK He Hf Hr. unfold read_csr. rewrite known_access by assumption.
  unfold on_hart, zoom. rewrite known_value by assumption. rewrite Hf, Hr. rewrite known_mask by assumption.
  by rewrite set_m_hart_same.
Qed.

Lemma mip_known : mip_csr_entry ∈ csr_registery_head.
Proof. registered_csr. Qed.
Lemma mie_known : mie_csr_entry ∈ csr_registery_head.
Proof. registered_csr. Qed.
Lemma mhartid_known : mhartid_csr_entry ∈ csr_registery_head.
Proof. registered_csr. Qed.
Lemma mvendorid_known : mvendorid_csr_entry ∈ csr_registery_head.
Proof. registered_csr. Qed.
Lemma mcause_known : mcause_csr_entry ∈ csr_registery_head.
Proof. registered_csr. Qed.
Lemma mepc_known : mepc_csr_entry ∈ csr_registery_head.
Proof. registered_csr. Qed.

(** The bits mip and mie implement. *)
Definition irq_bits : Z := 0xaaa.

Definition on_pending (f : Z -> Z) (m : machine) : machine :=
  set_m_hart (set_ipending (f (Z.land (ipending (m_hart m)) irq_bits)) (m_hart m)) m.
Definition on_enable (f : Z -> Z) (m : machine) : machine :=
  set_m_hart (set_ienable (f (Z.land (ienable (m_hart m)) irq_bits)) (m_hart m)) m.

Lemma read_hartid m :
  csrs_known (m_hart m) -> read_csr CSR_ADDRESS_MHARTID m = Ok (u32 (hart_id (m_hart m))) m.
Proof.
  intros HK. change CSR_ADDRESS_MHARTID with (reg_addr mhartid_csr_entry).
  rewrite (read_known mhartid_csr_entry Fn.csr_mhartid_read m (hart_id (m_hart m)) HK mhartid_known eq_refl eq_refl).
  change (reg_wpri_mask mhartid_csr_entry) with 0xffffffff. by rewrite land_low.
Qed.

Lemma read_stored e f m :
  csrs_known (m_hart m) -> e ∈ csr_registery_head -> reg_read e = Some f ->
  run_read f (clint_get_time (clint m)) (reg_addr e) (m_hart m) = (blob (m_hart m) (reg_addr e), m_hart m) ->
  reg_wpri_mask e = WPRI_MASK_ALL ->
  read_csr (reg_addr e) m = Ok (u32 (blob (m_hart m) (reg_addr e))) m.
Proof.
  intros HK He Hf Hr Hm. rewrite (read_known e f m _ HK He Hf Hr), Hm. unfold WPRI_MASK_ALL. by rewrite land_low.
Qed.

(** Equality of two masked words whose constants have sixteen bits. *)
Ltac by_irq_bits :=
  apply eq_bits;
  [ let j := fresh "j" in let Hj := fresh "Hj" in intros j Hj
  | let l := eval vm_compute in low_bits in change low_bits with l; repeat apply Forall_cons_2;
    try apply Forall_nil_2 ];
  repeat first [rewrite Z.lor_spec | rewrite Z.land_spec | rewrite Z.ldiff_spec by lia];
  repeat match goal with
    | H : 16 <= ?j |- context [Z.testbit (Z.pos ?p) ?j] =>
        rewrite (testbit_high 16 (Z.pos p) j) by (done || lia)
    end; known_bits; btauto.

(** A set or clear of bits on an interrupt register. *)
Lemma mip_update (op : Z -> Z -> Z) bits m :
  csrs_known (m_hart m) ->
  csr_access CSR_ADDRESS_MIP (fun now =>
    let* h := get in let* v := csr_value now CSR_ADDRESS_MIP in
    csr_store CSR_ADDRESS_MIP (Z.land (op v bits) (wpri_mask (csr_at h CSR_ADDRESS_MIP)))) m =
  Ok tt (set_m_hart (csr_mip_write CSR_ADDRESS_MIP
    (Z.land (op (Z.land (ipending (m_hart m)) irq_bits) bits) irq_bits) (m_hart m)) m).
Proof.
  intros HK. change CSR_ADDRESS_MIP with (reg_addr mip_csr_entry).
  rewrite known_access by (assumption || exact mip_known). unfold on_hart, zoom, bind, get.
  rewrite known_value by (assumption || exact mip_known). cbn [reg_read mip_csr_entry run_read].
  rewrite !known_mask by (assumption || exact mip_known).
  rewrite known_store by (assumption || exact mip_known). reflexivity.
Qed.

Lemma mie_update (op : Z -> Z -> Z) bits m :
  csrs_known (m_hart m) ->
  csr_access CSR_ADDRESS_MIE (fun now =>
    let* h := get in let* v := csr_value now CSR_ADDRESS_MIE in
    csr_store CSR_ADDRESS_MIE (Z.land (op v bits) (wpri_mask (csr_at h CSR_ADDRESS_MIE)))) m =
  Ok tt (on_enable (fun v => Z.land (op v bits) irq_bits) m).
Proof.
  intros HK. change CSR_ADDRESS_MIE with (reg_addr mie_csr_entry).
  rewrite known_access by (assumption || exact mie_known). unfold on_hart, zoom, bind, get.
  rewrite known_value by (assumption || exact mie_known). cbn [reg_read mie_csr_entry run_read].
  rewrite !known_mask by (assumption || exact mie_known).
  rewrite known_store by (assumption || exact mie_known). reflexivity.
Qed.

Lemma mip_clear bit m :
  csrs_known (m_hart m) -> bit = 1 \/ bit = 5 ->
  clear_csr CSR_ADDRESS_MIP (Z.shiftl 1 bit) m = Ok tt (on_pending (fun v => Z.ldiff v (Z.shiftl 1 bit)) m).
Proof.
  intros HK Hb. unfold clear_csr. rewrite mip_update by done. f_equal. unfold csr_mip_write, on_pending, irq_bits.
  destruct Hb as [-> | ->]; [change (Z.shiftl 1 1) with 0x2|change (Z.shiftl 1 5) with 0x20];
    do 2 f_equal; by_irq_bits.
Qed.

Lemma mip_set bit m :
  csrs_known (m_hart m) -> bit = 1 \/ bit = 5 ->
  set_csr CSR_ADDRESS_MIP (Z.shiftl 1 bit) m = Ok tt (on_pending (fun v => Z.lor v (Z.shiftl 1 bit)) m).
Proof.
  intros HK Hb. unfold set_csr. rewrite mip_update by done. f_equal. unfold csr_mip_write, on_pending, irq_bits.
  destruct Hb as [-> | ->]; [change (Z.shiftl 1 1) with 0x2|change (Z.shiftl 1 5) with 0x20];
    do 2 f_equal; by_irq_bits.
Qed.

Lemma mie_clear_mtie m :
  csrs_known (m_hart m) ->
  clear_csr CSR_ADDRESS_MIE MIE_MTIE m = Ok tt (on_enable (fun v => Z.ldiff v MIE_MTIE) m).
Proof.
  intros HK. unfold clear_csr. rewrite mie_update by done. unfold on_enable, irq_bits.
  change MIE_MTIE with 0x80. do 3 f_equal. by_irq_bits.
Qed.

Lemma mie_set_mtie m :
  csrs_known (m_hart m) ->
  set_csr CSR_ADDRESS_MIE MIE_MTIE m = Ok tt (on_enable (fun v => Z.lor v MIE_MTIE) m).
Proof.
  intros HK. unfold set_csr. rewrite mie_update by done. unfold on_enable, irq_bits.
  change MIE_MTIE with 0x80. do 3 f_equal. by_irq_bits.
Qed.

(** The doorbell of a hart. *)
Lemma clint_write_msip c id v :
  clint_wf c -> 0 <= id < clint_nr_harts c -> clint_base c = CLINT_BASE ->
  clint_write (CLINT_BASE + 4 * id) 4 v c = set_msip (set_arr id (Z.land v 1) (msip c)) c.
Proof.
  intros HW Hid Hb. pose proof (clint_harts _ HW). unfold clint_write. rewrite Hb.
  replace (CLINT_BASE + 4 * id - CLINT_BASE) with (4 * id) by lia. unfold MAX_NR_HARTS in *.
  rewrite u32_id by (unfold is_uint; lia). cbv zeta. unfold CLINT_REG_MSIP. rewrite Z.sub_0_r.
  replace (4 * id / 4) with id by dlia. repeat case_test; to_prop; done || lia.
Qed.

(** ** The timer *)

Definition this_hart (m : machine) : Z := hart_id (m_hart m).
Definition deadline (m : machine) : Z := arr (mtimecmp (clint m)) (this_hart m).
Definition timer_set (v : Z) (m : machine) : machine :=
  set_clint (set_mtimecmp (set_arr (this_hart m) v (mtimecmp (clint m))) (clint m)) m.

Lemma hart_fits m : platform m -> 0 <= this_hart m < 64.
Proof. intros [_ HW]. pose proof (wi_id _ HW). pose proof (clint_harts _ (wi_wf _ HW)). unfold this_hart, MAX_NR_HARTS in *. lia. Qed.

Lemma deadline_uint m : platform m -> is_uint 64 (deadline m).
Proof. intros [_ HW]. apply arr_uint; [done|]. apply (clint_cmps _ (wi_wf _ HW)). Qed.

Lemma timer_set_platform v m : platform m -> is_uint 64 v -> platform (timer_set v m).
Proof.
  intros [Hp HW] Hv. split; [done|]. destruct HW as [Hc Hq Hl Hs Hb [Hh [Hn HF] Hm Ht Hf] Hi Hk Hd].
  split; try done. split; cbn [clint timer_set set_clint set_mtimecmp mtimecmp clint_nr_harts msip mtime clint_base];
    try done. rewrite length_set_arr. split; [done|]. by apply Forall_insert.
Qed.

Lemma timer_set_deadline v m : platform m -> deadline (timer_set v m) = v.
Proof.
  intros HP. pose proof (hart_fits m HP). unfold deadline, timer_set. cbn [clint set_clint mtimecmp set_mtimecmp].
  apply arr_set_same. destruct HP as [_ HW]. destruct (clint_cmps _ (wi_wf _ HW)) as [-> _].
  unfold this_hart, MAX_NR_HARTS in *. cbn [m_hart set_clint]. lia.
Qed.

Lemma timer_set_twice v v' m : timer_set v (timer_set v' m) = timer_set v m.
Proof.
  unfold timer_set. cbn. unfold set_clint, set_mtimecmp, set_arr. cbn. by rewrite list_insert_insert_eq.
Qed.

Lemma timecmp_store m half v :
  platform m -> 0 <= half <= 1 ->
  mmu_write32 (CLINT_BASE + (CLINT_MTIMECMP_OFFSET + 8 * this_hart m + 4 * half)) v m =
  Ok tt (timer_set (if half =? 1 then with_high_half (deadline m) v else with_low_half (deadline m) v) m).
Proof.
  intros HP Hh. pose proof (hart_fits m HP). rewrite clint_store by (try done; unfold CLINT_MTIMECMP_OFFSET; lia).
  destruct HP as [Hp HW].
  replace (CLINT_BASE + (CLINT_MTIMECMP_OFFSET + 8 * this_hart m + 4 * half))
    with (timecmp_address (clint m) (this_hart m) half)
    by (unfold timecmp_address; rewrite (wi_base _ HW); unfold CLINT_MTIMECMP_OFFSET, CLINT_REG_MTIMECMP; lia).
  rewrite clint_write_timecmp; [done|apply (wi_wf _ HW)|apply (wi_id _ HW)|done].
Qed.

Definition parked (m : machine) : Z := with_high_half (deadline m) 0xffffffff.

(** The three stores, and what the timer compares with after each. *)
Lemma timer_stores next m :
  platform m -> is_uint 64 next ->
  let cmp half := u32 (u32 (CLINT_BASE + CLINT_MTIMECMP_OFFSET + 8 * this_hart m) + 4 * half) in
  let m1 := timer_set (parked m) m in
  let m2 := timer_set (with_low_half (parked m) (u32 next)) m in
  mmu_write32 (cmp 1) 0xffffffff m = Ok tt m1 /\
  mmu_write32 (cmp 0) (u32 next) m1 = Ok tt m2 /\
  mmu_write32 (cmp 1) (u32 (Z.shiftr next 32)) m2 = Ok tt (timer_set next m).
Proof.
  intros HP Hn cmp m1 m2. pose proof (hart_fits m HP) as Hid. pose proof (deadline_uint m HP) as Hd.
  assert (Hcmp : forall half, 0 <= half <= 1 ->
    cmp half = CLINT_BASE + (CLINT_MTIMECMP_OFFSET + 8 * this_hart m + 4 * half)).
  { intros half Hh. unfold cmp, CLINT_BASE, CLINT_MTIMECMP_OFFSET. rewrite !u32_id; unfold is_uint;
      rewrite ?u32_id; unfold is_uint; lia. }
  destruct (halves_uint (deadline m) 0xffffffff Hd) as [_ Hpk]. fold (parked m) in Hpk.
  destruct (halves_uint (parked m) (u32 next) Hpk) as [Hlow _].
  pose proof (timer_set_platform _ m HP Hpk) as HP1. pose proof (timer_set_platform _ m HP Hlow) as HP2.
  rewrite !Hcmp by lia. split; [by rewrite timecmp_store by (done || lia)|]. split.
  - change (this_hart m) with (this_hart m1). rewrite timecmp_store by (done || lia).
    unfold m1. by rewrite timer_set_deadline, timer_set_twice.
  - change (this_hart m) with (this_hart m2). rewrite timecmp_store by (done || lia).
    unfold m2. rewrite timer_set_deadline, timer_set_twice by done. do 2 f_equal. cbn [Z.eqb Pos.eqb].
    rewrite with_high_half_eq, with_low_half_eq by done. rewrite Z.shiftr_div_pow2 by done.
    unfold is_uint, u32 in *. change (2 ^ 64) with (2 ^ 32 * 2 ^ 32) in *. change (2 ^ 32) with 4294967296 in *. dlia.
Qed.

Definition timer_armed (next : Z) (m : machine) : machine :=
  on_enable (fun v => Z.lor v MIE_MTIE) (on_pending (fun v => Z.ldiff v MIP_STIP) (timer_set next m)).

Lemma address_of_hart m : platform m -> u32 (hart_id (m_hart m)) = this_hart m.
Proof. intros HP. pose proof (hart_fits m HP). apply u32_id. unfold is_uint, this_hart in *. lia. Qed.

(** The machine after each of the statements. *)
Lemma set_timer_prefix next m before after :
  platform m -> is_uint 64 next ->
  set_timer_statements (mtimecmp_of (this_hart m)) next = before ++ after ->
  exists m', in_order before m = Ok tt m' /\
    ((before = [] /\ m' = m) \/ deadline m' = parked m \/
     deadline m' = with_low_half (parked m) (u32 next) \/ deadline m' = next) /\
    (after = [] -> m' = timer_armed next m).
Proof.
  intros HP Hn. destruct (timer_stores next m HP Hn) as (E1 & E2 & E3).
  pose proof (wi_csrs _ (proj2 HP)) as HK. pose proof (deadline_uint m HP) as Hd.
  destruct (halves_uint (deadline m) 0xffffffff Hd) as [_ Hpk]. fold (parked m) in Hpk.
  destruct (halves_uint (parked m) (u32 next) Hpk) as [Hlow _].
  cbv zeta in E1, E2, E3. fold (mtimecmp_of (this_hart m)) in E1, E2, E3.
  change (4 * 1) with 4 in *. change (4 * 0) with 0 in *.
  assert (u32 (mtimecmp_of (this_hart m) + 0) = mtimecmp_of (this_hart m)) as E0
    by (unfold mtimecmp_of; by rewrite Z.add_0_r, u32_u32).
  rewrite E0 in E2. unfold set_timer_statements.
  assert (E4 : clear_csr CSR_ADDRESS_MIP MIP_STIP (timer_set next m) =
    Ok tt (on_pending (fun v => Z.ldiff v MIP_STIP) (timer_set next m))) by (apply (mip_clear 5); [done|by right]).
  assert (E5 : set_csr CSR_ADDRESS_MIE MIE_MTIE (on_pending (fun v => Z.ldiff v MIP_STIP) (timer_set next m)) =
    Ok tt (timer_armed next m)) by by rewrite mie_set_mtie.
  intros E. do 5 try (destruct before as [|? before]; [|injection E as <- E]).
  - exists m. split; [done|]. split; [by left|]. intros ->. done.
  - exists (timer_set (parked m) m). cbn [in_order]; unfold bind; rewrite E1. split; [done|].
    split; [|by intros ->]. right. left. by rewrite timer_set_deadline.
  - eexists. cbn [in_order]; unfold bind; rewrite E1, E2. split; [reflexivity|].
    split; [|by intros ->]. do 2 right. left. by rewrite timer_set_deadline.
  - eexists. cbn [in_order]; unfold bind; rewrite E1, E2, E3. split; [reflexivity|].
    split; [|by intros ->]. do 3 right. by rewrite timer_set_deadline.
  - eexists. cbn [in_order]; unfold bind; rewrite E1, E2, E3, E4. split; [reflexivity|].
    split; [|by intros ->]. do 3 right. exact (timer_set_deadline next m HP).
  - destruct before as [|? before]; [|done]. eexists. cbn [in_order]; unfold bind; rewrite E1, E2, E3, E4, E5. split; [reflexivity|].
    split; [|done]. do 3 right. exact (timer_set_deadline next m HP).
Qed.

Lemma set_timer_eq next m :
  platform m -> is_uint 64 next -> sbi_set_timer next m = Ok tt (timer_armed next m).
Proof.
  intros HP Hn. unfold sbi_set_timer, current_hartid, bind at 1. rewrite read_hartid by apply (wi_csrs _ (proj2 HP)).
  rewrite address_of_hart by done.
  destruct (set_timer_prefix next m (set_timer_statements (mtimecmp_of (this_hart m)) next) [])
    as (m' & E & _ & Em); [done|done|by rewrite app_nil_r|]. by rewrite E, Em.
Qed.

(** ** What a call leaves alone *)

(** The parts of the machine no SBI call changes. *)
Record served (m m' : machine) : Prop := {
  se_csrs : csrs_base (m_hart m') = csrs_base (m_hart m);
  se_status : status (m_hart m') = status (m_hart m);
  se_level : privilege_level (m_hart m') = privilege_level (m_hart m);
  se_registers : registers (m_hart m') = registers (m_hart m);
  se_pc : pc (m_hart m') = pc (m_hart m);
  se_magic : hart_magic (m_hart m') = hart_magic (m_hart m);
  se_id : hart_id (m_hart m') = hart_id (m_hart m);
  se_rom : bootrom m' = bootrom m;
  se_ops : pmr_ops m' = pmr_ops m;
  se_base : clint_base (clint m') = clint_base (clint m);
  se_harts : clint_nr_harts (clint m') = clint_nr_harts (clint m);
  se_wf : clint_wf (clint m) -> clint_wf (clint m');
  se_dlab : dlab (uart m') = dlab (uart m)
}.

#[export] Instance served_preorder : PreOrder served.
Proof.
  split; [by split|]. intros m1 m2 m3 [] []. split; try congruence. by auto.
Qed.

Lemma served_platform m m' : served m m' -> platform m -> platform m'.
Proof.
  intros [Ec Es El Er _ _ Ei _ Eo Eb Eh Ew Ed] [Hp [Hc Hq Hl Hs Hb Hw Hi Hk Hd]].
  assert (HM : forall a c, mapped m a c -> mapped m' a c) by (unfold mapped; by rewrite Eo).
  split; [by rewrite El|]. split; eauto.
  - by rewrite Eb.
  - by rewrite Ei, Eh.
  - unfold csrs_known, csr_at. by rewrite Ec.
Qed.

(** The call returns a value that satisfies [P]. *)
Definition serves {A} (c : fw A) (m : machine) (P : A -> Prop) : Prop :=
  exists a m', c m = Ok (Returns a) m' /\ served m m' /\ P a.

Lemma serves_ret {A} (a : A) m (P : A -> Prop) : P a -> serves (fw_ret a) m P.
Proof. intros HP. exists a, m. split; [done|]. by split. Qed.

Lemma serves_then {A} (v : A) (c : prog machine unit) m m' (P : A -> Prop) :
  c m = Ok tt m' -> served m m' -> P v -> serves (then_value v c) m P.
Proof. intros E HS HP. exists v, m'. unfold then_value, bind. by rewrite E. Qed.

Lemma serves_bind {A B} (c : fw A) (k : A -> fw B) m (P : A -> Prop) (Q : B -> Prop) :
  serves c m P -> (forall a m', P a -> served m m' -> serves (k a) m' Q) -> serves (fw_bind c k) m Q.
Proof.
  intros (a & m' & E & HS & Ha) Hk. destruct (Hk a m' Ha HS) as (b & m2 & E2 & HS2 & Hb).
  exists b, m2. unfold fw_bind, bind. rewrite E. split; [done|]. split; [|done]. by transitivity m'.
Qed.

Lemma served_pending f m : served m (on_pending f m).
Proof. by split. Qed.
Lemma served_enable f m : served m (on_enable f m).
Proof. by split. Qed.
Lemma served_prints out m m' : prints out m m' -> served m m'.
Proof. intros (p & _ & ->). by split. Qed.
Lemma served_hart (f : hart -> hart) m :
  (forall h, csrs_base (f h) = csrs_base h /\ status (f h) = status h /\
     privilege_level (f h) = privilege_level h /\ registers (f h) = registers h /\ hart_id (f h) = hart_id h /\
     pc (f h) = pc h /\ hart_magic (f h) = hart_magic h) ->
  served m (set_m_hart (f (m_hart m)) m).
Proof. intros Hf. destruct (Hf (m_hart m)) as (? & ? & ? & ? & ? & ? & ?). by split. Qed.

Lemma clint_write_frame addr size v c :
  clint_base (clint_write addr size v c) = clint_base c /\
  clint_nr_harts (clint_write addr size v c) = clint_nr_harts c.
Proof. unfold clint_write. cbv zeta. by repeat case_test. Qed.

Lemma served_clint_write addr size v m :
  is_uint 64 v -> served m (set_clint (clint_write addr size v (clint m)) m).
Proof.
  intros Hv. destruct (clint_write_frame addr size v (clint m)). split; try done. by apply clint_write_wf.
Qed.

Lemma served_timer_armed next m : platform m -> is_uint 64 next -> served m (timer_armed next m).
Proof.
  intros HP Hn. unfold timer_armed. transitivity (timer_set next m).
  - split; try done. intros _. exact (wi_wf _ (proj2 (timer_set_platform _ _ HP Hn))).
  - transitivity (on_pending (fun v => Z.ldiff v MIP_STIP) (timer_set next m));
      [apply served_pending|apply served_enable].
Qed.

(** ** The calls *)

(** A hart whose doorbell lies in the clint. *)
Definition rings (hart : Z) : Prop := 0 <= hart < 0x4000.

Lemma send_ipi_eq hart m :
  platform m -> rings hart ->
  sbi_send_ipi hart m = Ok tt (set_clint (clint_write (CLINT_BASE + 4 * hart) 4 1 (clint m)) m).
Proof.
  intros HP Hh. unfold rings in Hh. unfold sbi_send_ipi, CLINT_MSIP_OFFSET. rewrite Z.add_0_r.
  rewrite u32_id by (unfold is_uint, CLINT_BASE; lia). apply clint_store; [done|lia].
Qed.

Lemma send_ipi_served hart m :
  platform m -> rings hart -> exists m', sbi_send_ipi hart m = Ok tt m' /\ served m m'.
Proof.
  intros HP Hh. rewrite send_ipi_eq by done. eexists. split; [done|].
  apply served_clint_write. by unfold is_uint.
Qed.

Lemma send_ipis_served rest : forall bit mask base m,
  platform m ->
  (forall i, truthy (Z.land mask (u32 (Z.shiftl 1 i))) = true -> bit <= i < bit + Z.of_nat rest -> rings (u32 (base + i))) ->
  exists m', send_ipis rest bit mask base m = Ok tt m' /\ served m m'.
Proof.
  induction rest as [|rest IH]; intros bit mask base m HP HR; cbn [send_ipis].
  - by exists m.
  - assert (exists m1, (if truthy (Z.land mask (u32 (Z.shiftl 1 bit))) then sbi_send_ipi (u32 (base + bit)) else ret tt) m = Ok tt m1
      /\ served m m1) as (m1 & E1 & H1).
    { case_test; [apply send_ipi_served; [done|]; apply HR; [done|lia]|by exists m]. }
    destruct (IH (bit + 1) mask base m1) as (m2 & E2 & H2).
    + by eapply served_platform.
    + intros i Hi Hr. apply HR; [done|lia].
    + exists m2. unfold bind. rewrite E1. split; [done|]. by transitivity m1.
Qed.

Lemma getchar_served m :
  platform m -> exists v m', uart16550_getchar m = Ok v m' /\ served m m'.
Proof.
  intros HP. pose proof (platform_console m HP) as HR. unfold uart16550_getchar, bind.
  rewrite uart_load_at by apply (cr_lsr _ HR). rewrite mmio_read_lsr. case_test.
  - rewrite uart_load_at by apply (cr_queue _ HR).
    unfold uart_mmio_read at 1. change (u32 _) with 0. cbn [Z.eqb UART_REG_QUEUE].
    cbn [uart set_plic set_uart]. rewrite (cr_dlab _ HR).
    destruct (uart_rx_pop (uart m)) as [v u] eqn:EP. rewrite refresh_line.
    eexists _, _. split; [reflexivity|]. split; try done. cbn.
    unfold uart_rx_pop in EP. revert EP. case_test; by intros [= <- <-].
  - by eexists _, _.
Qed.

Lemma word64_uint hi lo : is_uint 32 hi -> is_uint 32 lo -> is_uint 64 (word64 hi lo).
Proof.
  intros Hh Hl. unfold word64. apply lor_range; [lia|apply u64_range|]. by eapply is_uint_weaken; [|exact Hl].
Qed.

(** A frame as the trap vector lays it down. *)
Definition frame_ok (f : trap_frame) : Prop := length (regs f) = 32%nat /\ Forall (is_uint 32) (regs f).

Lemma frame_reg_uint f i : frame_ok f -> is_uint 32 (frame_reg f i).
Proof. intros [_ HF]. by apply arr_uint. Qed.

(** Only the results of the call differ. *)
Definition answers (f f' : trap_frame) : Prop :=
  forall i, 0 <= i -> i <> REG_A0 -> i <> REG_A1 -> frame_reg f' i = frame_reg f i.

Lemma answers_set i v f f' :
  i = REG_A0 \/ i = REG_A1 -> answers f f' -> answers f (set_frame_reg i v f').
Proof.
  intros Hi HA j Hj Hj0 Hj1. unfold frame_reg, set_frame_reg. cbn [regs].
  rewrite arr_set_other; [by apply HA|..]; destruct Hi as [-> | ->]; unfold REG_A0, REG_A1 in *; lia.
Qed.

Lemma answers_refl f : answers f f.
Proof. by intros i. Qed.

(** The calls the firmware offers, and those that do not come back. *)
Definition offers (e f : Z) : bool :=
  (e <=? SBI_EXT_LEGACY_SHUTDOWN) || (e =? SBI_EXT_BASE) && (f <=? SBI_BASE_GET_MIMPID) ||
  (e =? SBI_EXT_TIME) && (f =? 0) || (e =? SBI_EXT_IPI) && (f =? 0) ||
  (e =? SBI_EXT_RFENCE) && (f <=? 2) || (e =? SBI_EXT_SRST) && (f =? 0).
Definition shuts_down (e f : Z) : bool :=
  (e =? SBI_EXT_LEGACY_SHUTDOWN) || (e =? SBI_EXT_SRST) && (f =? 0).

(** The harts an IPI call names. *)
Definition ipi_in_reach (frame : trap_frame) : Prop :=
  forall i, truthy (Z.land (frame_reg frame REG_A0) (u32 (Z.shiftl 1 i))) = true -> 0 <= i < 32 ->
    rings (u32 (frame_reg frame REG_A1 + i)).

Lemma fence_i_served m : exists m', fence_i m = Ok tt m' /\ served m m'.
Proof. eexists. split; [reflexivity|]. by apply served_hart. Qed.
Lemma sfence_vma_served m : exists m', sfence_vma m = Ok tt m' /\ served m m'.
Proof.
  eexists. split; [reflexivity|].
  apply (served_hart (fun h => flush_translation_cache
    (set_dtlb (invalidate_tlb (dtlb_cap h) (dtlb h)) (set_itlb (invalidate_tlb (itlb_cap h) (itlb h)) h)))).
  done.
Qed.

Lemma serves_quiet {A} (v : A) (c : prog machine unit) m (P : A -> Prop) :
  (exists m', c m = Ok tt m' /\ served m m') -> P v -> serves (then_value v c) m P.
Proof. intros (m' & E & HS) HP. by eapply serves_then. Qed.

Lemma timer_served next m :
  platform m -> is_uint 64 next -> exists m', sbi_set_timer next m = Ok tt m' /\ served m m'.
Proof. intros. rewrite set_timer_eq by done. eexists. split; [done|]. by apply served_timer_armed. Qed.

Lemma legacy_serves frame e m :
  platform m -> frame_ok frame -> 0 <= e < SBI_EXT_LEGACY_SHUTDOWN ->
  serves (sbi_legacy_call frame e) m (answers frame).
Proof.
  intros HP HF He. pose proof (wi_csrs _ (proj2 HP)) as HK. unfold sbi_legacy_call.
  apply serves_bind with (P := fun _ => True).
  - unfold SBI_EXT_LEGACY_SHUTDOWN in He.
    assert (e = 0 \/ e = 1 \/ e = 2 \/ e = 3 \/ e = 4 \/ e = 5 \/ e = 6 \/ e = 7) as HC by lia.
    destruct HC as [->|[->|[->|[->|[->|[->|[->| ->]]]]]]]; cbn -[then_value plain].
    + apply serves_quiet; [|done]. apply timer_served; [done|]. apply word64_uint; by apply frame_reg_uint.
    + apply serves_quiet; [|done]. destruct (putchar_prints (u8 (frame_reg frame REG_A0)) m (platform_console m HP)) as (m' & E & HO).
      exists m'. split; [exact E|]. by eapply served_prints.
    + destruct (getchar_served m HP) as (v & m' & E & HS). exists v, m'. unfold plain, bind. by rewrite E.
    + apply serves_quiet; [|done]. unfold MIP_SSIP. rewrite mip_clear by (done || by left). eexists. split; [done|apply served_pending].
    + apply serves_quiet; [|done]. unfold current_hartid, bind. rewrite read_hartid by done.
      pose proof (hart_fits m HP). unfold this_hart in *. rewrite u32_id by (unfold is_uint; lia).
      apply send_ipi_served; [done|unfold rings; lia].
    + apply serves_quiet; [apply fence_i_served|done].
    + apply serves_quiet; [apply sfence_vma_served|done].
    + apply serves_quiet; [apply sfence_vma_served|done].
  - intros v m' _ _. apply serves_ret. apply answers_set; [by left|apply answers_refl].
Qed.

(** [sbi_base_call] within the base extension reads at most a csr. *)
Definition no_csr_write addr r : csr_registery_entry :=
  {| reg_addr := addr; reg_wpri_mask := WPRI_MASK_ALL; reg_write := None; reg_read := Some r; reg_reset := None |}.
Lemma marchid_known : no_csr_write CSR_ADDRESS_MARCHID Fn.csr_scratch_read ∈ csr_registery_head.
Proof. registered_csr. Qed.
Lemma mimpid_known : no_csr_write CSR_ADDRESS_MIMPID Fn.csr_scratch_read ∈ csr_registery_head.
Proof. registered_csr. Qed.

Lemma base_serves frame f m :
  platform m -> 0 <= f <= SBI_BASE_GET_MIMPID ->
  exists c v, sbi_base_call frame f = Some c /\ c m = Ok v m.
Proof.
  intros HP Hf. pose proof (wi_csrs _ (proj2 HP)) as HK. unfold SBI_BASE_GET_MIMPID in Hf.
  assert (f = 0 \/ f = 1 \/ f = 2 \/ f = 3 \/ f = 4 \/ f = 5 \/ f = 6) as HC by lia.
  destruct HC as [->|[->|[->|[->|[->|[->| ->]]]]]]; eexists _, _; (split; [reflexivity|]); try reflexivity.
  - exact (read_known mvendorid_csr_entry Fn.csr_mvendorid_read m _ HK mvendorid_known eq_refl eq_refl).
  - exact (read_known _ Fn.csr_scratch_read m _ HK marchid_known eq_refl eq_refl).
  - exact (read_known _ Fn.csr_scratch_read m _ HK mimpid_known eq_refl eq_refl).
Qed.

Definition results (error value : Z) (frame : trap_frame) : trap_frame :=
  set_frame_reg REG_A1 (u32 value) (set_frame_reg REG_A0 (u32 error) frame).

Lemma modern_serves frame e f m :
  platform m -> frame_ok frame -> SBI_EXT_LEGACY_SHUTDOWN < e -> 0 <= f ->
  offers e f = true -> shuts_down e f = false -> (e = SBI_EXT_IPI -> ipi_in_reach frame) ->
  serves (sbi_modern_call frame e f) m (fun f' => exists v, f' = results SBI_SUCCESS v frame).
Proof.
  intros HP HF He Hf HO HS HI. unfold sbi_modern_call.
  apply serves_bind with (P := fun r => r.1 = SBI_SUCCESS).
  - unfold offers, shuts_down in *. destruct (Z.leb_spec e SBI_EXT_LEGACY_SHUTDOWN); [lia|].
    destruct (Z.eqb_spec e SBI_EXT_BASE) as [->|]; [|destruct (Z.eqb_spec e SBI_EXT_TIME) as [->|];
      [|destruct (Z.eqb_spec e SBI_EXT_IPI) as [->|]; [|destruct (Z.eqb_spec e SBI_EXT_RFENCE) as [->|];
      [|destruct (Z.eqb_spec e SBI_EXT_SRST) as [->|]]]]]; cbn [andb orb] in HO; rewrite ?orb_false_r in HO; to_prop.
    + destruct (base_serves frame f m HP) as (c & v & Ec & E); [cbn in HO; to_prop; lia|]. rewrite Ec.
      exists (SBI_SUCCESS, v), m. unfold bind. by rewrite E.
    + rewrite HO. cbn [Z.eqb]. apply serves_quiet; [|done].
      apply timer_served; [done|]. apply word64_uint; by apply frame_reg_uint.
    + rewrite HO. cbn [Z.eqb]. apply serves_quiet; [|done].
      apply send_ipis_served; [done|]. intros i Hi Hr. by apply HI.
    + case_test; [apply serves_quiet; [apply fence_i_served|done]|].
      assert ((f =? 1) || (f =? 2) = true) as -> by (to_prop; lia).
      apply serves_quiet; [apply sfence_vma_served|done].
    + cbn [Z.eqb Pos.eqb SBI_EXT_SRST SBI_EXT_LEGACY_SHUTDOWN orb andb] in HS. to_prop. lia.
    + done.
  - intros [error value] m' Hr _. cbn in Hr. subst error. apply serves_ret. by exists value.
Qed.

(** A call that is not offered. *)
Lemma dispatch_refuses frame m :
  frame_ok frame -> offers (frame_reg frame REG_A7) (frame_reg frame REG_A6) = false ->
  sbi_dispatch frame m = Ok (Returns (results SBI_ERR_NOT_SUPPORTED 0 frame)) m.
Proof.
  intros HF HO. pose proof (frame_reg_uint frame REG_A6 HF) as [Hf _].
  pose proof (frame_reg_uint frame REG_A7 HF) as [He _].
  unfold sbi_dispatch. set (e := frame_reg frame REG_A7) in *. set (f := frame_reg frame REG_A6) in *.
  clearbody e f. unfold offers in HO. to_prop. to_prop. destruct HO as [[[[[HL HB] HT] HI] HR] HS].
  destruct (Z.leb_spec e SBI_EXT_LEGACY_SHUTDOWN); [lia|]. unfold sbi_modern_call.
  destruct (Z.eqb_spec e SBI_EXT_BASE) as [->|].
  { destruct HB as [|HB]; [lia|]. assert (sbi_base_call frame f = None) as ->; [|reflexivity].
    unfold SBI_BASE_GET_MIMPID in HB. unfold sbi_base_call.
    repeat match goal with |- context [f =? ?k] => destruct (Z.eqb_spec f k) as [E|_]; [vm_compute in E; lia|] end. done. }
  destruct (Z.eqb_spec e SBI_EXT_TIME) as [->|].
  { destruct HT as [|HT]; [lia|]. destruct (Z.eqb_spec f 0); [lia|reflexivity]. }
  destruct (Z.eqb_spec e SBI_EXT_IPI) as [->|].
  { destruct HI as [|HI]; [lia|]. destruct (Z.eqb_spec f 0); [lia|reflexivity]. }
  destruct (Z.eqb_spec e SBI_EXT_RFENCE) as [->|].
  { destruct HR as [|HR]; [lia|]. destruct (Z.eqb_spec f 0); [lia|].
    destruct (Z.eqb_spec f 1); [lia|]. destruct (Z.eqb_spec f 2); [lia|reflexivity]. }
  destruct (Z.eqb_spec e SBI_EXT_SRST) as [->|]; [|reflexivity].
  destruct HS as [|HS]; [lia|]. destruct (Z.eqb_spec f 0); [lia|reflexivity].
Qed.

(** The error code of a call from 0.2 onwards. *)
Definition error_of (e f : Z) : Z := if offers e f then SBI_SUCCESS else SBI_ERR_NOT_SUPPORTED.

Lemma results_answer error value frame : answers frame (results error value frame).
Proof. apply answers_set; [by right|]. apply answers_set; [by left|]. apply answers_refl. Qed.

Lemma results_error error value frame : frame_ok frame -> frame_reg (results error value frame) REG_A0 = u32 error.
Proof.
  intros [Hlen _]. unfold results, frame_reg, set_frame_reg, REG_A0, REG_A1. cbn [regs].
  rewrite arr_set_other by lia. apply arr_set_same. lia.
Qed.

Lemma dispatch_serves frame m :
  let e := frame_reg frame REG_A7 in let f := frame_reg frame REG_A6 in
  platform m -> frame_ok frame -> shuts_down e f = false -> (e = SBI_EXT_IPI -> ipi_in_reach frame) ->
  serves (sbi_dispatch frame) m (fun f' => answers frame f' /\
    (SBI_EXT_LEGACY_SHUTDOWN < e -> frame_reg f' REG_A0 = u32 (error_of e f))).
Proof.
  intros e f HP HF HS HI. destruct (frame_reg_uint frame REG_A6 HF) as [Hf _].
  destruct (frame_reg_uint frame REG_A7 HF) as [He _]. fold e in He. fold f in Hf.
  unfold error_of. destruct (offers e f) eqn:EO.
  - unfold sbi_dispatch. fold e f. destruct (Z.leb_spec e SBI_EXT_LEGACY_SHUTDOWN).
    + unfold shuts_down in HS. to_prop. destruct (legacy_serves frame e m HP HF) as (f' & m' & E & Hs & Ha); [lia|].
      exists f', m'. split; [done|]. split; [done|]. split; [done|lia].
    + destruct (modern_serves frame e f m HP HF) as (f' & m' & E & Hs & v & ->); [done..|].
      eexists _, m'. split; [exact E|]. split; [done|]. split; [apply results_answer|]. intros _. by apply results_error.
  - eexists _, m. split; [by apply dispatch_refuses|]. split; [done|].
    split; [apply results_answer|]. intros _. by apply results_error.
Qed.

Lemma read_mepc m :
  csrs_known (m_hart m) -> read_csr CSR_ADDRESS_MEPC m = Ok (u32 (blob (m_hart m) CSR_ADDRESS_MEPC)) m.
Proof. intros HK. exact (read_stored mepc_csr_entry Fn.csr_mepc_read m HK mepc_known eq_refl eq_refl eq_refl). Qed.

Lemma read_mcause m :
  csrs_known (m_hart m) -> read_csr CSR_ADDRESS_MCAUSE m = Ok (u32 (blob (m_hart m) CSR_ADDRESS_MCAUSE)) m.
Proof. intros HK. exact (read_stored mcause_csr_entry Fn.csr_mcause_read m HK mcause_known eq_refl eq_refl eq_refl). Qed.

Lemma write_mepc v m :
  csrs_known (m_hart m) ->
  write_csr CSR_ADDRESS_MEPC v m = Ok tt (set_m_hart (put_csr_blob CSR_ADDRESS_MEPC (u32 v) (m_hart m)) m).
Proof.
  intros HK. unfold write_csr. change CSR_ADDRESS_MEPC with (reg_addr mepc_csr_entry).
  rewrite known_access by (assumption || exact mepc_known). unfold on_hart, zoom, bind, get.
  rewrite known_mask by (assumption || exact mepc_known).
  change (Z.land v (reg_wpri_mask mepc_csr_entry)) with (Z.land v 0xffffffff). rewrite land_low.
  rewrite known_store by (assumption || exact mepc_known). reflexivity.
Qed.

(** The handler on an ecall. *)
Lemma handler_ecall frame m :
  let e := frame_reg frame REG_A7 in let f := frame_reg frame REG_A6 in
  platform m -> frame_ok frame -> shuts_down e f = false -> (e = SBI_EXT_IPI -> ipi_in_reach frame) ->
  blob (m_hart m) CSR_ADDRESS_MCAUSE = CAUSE_SUPERVISOR_ECALL ->
  exists f' m2, served m m2 /\ answers frame f' /\
    (SBI_EXT_LEGACY_SHUTDOWN < e -> frame_reg f' REG_A0 = u32 (error_of e f)) /\
    fw_trap_handler frame m = Ok (Returns f')
      (set_m_hart (put_csr_blob CSR_ADDRESS_MEPC (u32 (blob (m_hart m) CSR_ADDRESS_MEPC + 4)) (m_hart m2)) m2).
Proof.
  intros e f HP HF HS HI Hc. destruct (dispatch_serves frame m HP HF HS HI) as (f' & m2 & E & Hs & Ha & He).
  exists f', m2. do 3 (split; [done|]). unfold fw_trap_handler, bind at 1.
  rewrite read_mcause by apply (wi_csrs _ (proj2 HP)). rewrite Hc.
  change (u32 CAUSE_SUPERVISOR_ECALL) with CAUSE_SUPERVISOR_ECALL.
  change (truthy (Z.land CAUSE_SUPERVISOR_ECALL 0x80000000)) with false. cbn [Z.eqb Pos.eqb CAUSE_SUPERVISOR_ECALL].
  pose proof (wi_csrs _ (proj2 (served_platform _ _ Hs HP))) as HK.
  unfold fw_bind, plain, bind. rewrite E, read_mepc, write_mepc by done. unfold ret.
  unfold blob at 1, csr_at. rewrite (se_csrs _ _ Hs). fold (csr_at (m_hart m) CSR_ADDRESS_MEPC).
  fold (blob (m_hart m) CSR_ADDRESS_MEPC). rewrite u32_u32. by rewrite u32_add_l.
Qed.
End Facts.

(** ** Properties *)

Section Properties.
Context `{AssemblerOk}.

(** An ecall of the supervisor that is not delegated enters machine level. *)
Lemma ecall_enters h :
  privilege_level h = PRIVILEGE_LEVEL_SUPERVISOR -> Z.testbit (blob h CSR_ADDRESS_MEDELEG) 9 = false ->
  ecall_callback h = Trapped (flush_translation_cache_on_address_space_change (address_space_tag h)
    (setup_mmode_trap CAUSE_SUPERVISOR_ECALL 0 h)).
Proof.
  intros Hp Hd. unfold ecall_callback, bind, gets. rewrite Hp.
  cbn [Z.eqb Pos.eqb PRIVILEGE_LEVEL_SUPERVISOR PRIVILEGE_LEVEL_MACHINE]. unfold raise_exception.
  rewrite raise_exception_eq by done. unfold exception_target_privilege_level.
  change (truthy (Z.land (blob h CSR_ADDRESS_MEDELEG) (Z.shiftl 1 EXCEPTION_ECALL_FROM_SMODE)))
    with (bit_set (blob h CSR_ADDRESS_MEDELEG) 9).
  rewrite bit_set_testbit, Hd, andb_false_r by lia. by rewrite raise_trap_raw_eq by by right.
Qed.

Lemma entry_shape tag cause tval h b :
  shape (csr_at (flush_translation_cache_on_address_space_change tag (setup_mmode_trap cause tval h)) b) =
  shape (csr_at h b).
Proof.
  unfold csr_at. destruct (flush_keeps tag (setup_mmode_trap cause tval h)) as (_ & _ & _ & _ & -> & _).
  change (shape (csr_at (put_csr_blob CSR_ADDRESS_MEPC (pc h) (put_csr_blob CSR_ADDRESS_MTVAL tval
    (put_csr_blob CSR_ADDRESS_MCAUSE cause h))) b) = shape (csr_at h b)).
  by rewrite !shape_put.
Qed.

Lemma wired_hart h m :
  wired m -> (forall b, shape (csr_at h b) = shape (csr_at (m_hart m) b)) -> hart_id h = hart_id (m_hart m) ->
  wired (set_m_hart h m).
Proof.
  intros [Hc Hq Hl Hs Hb Hw Hi Hk Hd] Hsh Hid. split; try done.
  - cbn [m_hart set_m_hart]. by rewrite Hid.
  - intros e He. cbn [m_hart set_m_hart]. by rewrite Hsh, Hk.
Qed.

(** An SBI call returns. On a wired machine at supervisor level whose ecalls are
    not delegated, an ecall enters the firmware; unless the call asks for a shutdown,
    the trap handler returns, and the mret behind it resumes the supervisor at the
    instruction after the ecall, with its interrupt enables as they were. The registers
    other than a0 and a1 come back as they were saved; a call from SBI 0.2 on has in
    a0 zero if it is offered and the code for an unsupported call otherwise. *)
Theorem sbi_call_returns m frame :
  let h := m_hart m in
  let e := frame_reg frame REG_A7 in let f := frame_reg frame REG_A6 in
  wired m -> privilege_level h = PRIVILEGE_LEVEL_SUPERVISOR ->
  Z.testbit (blob h CSR_ADDRESS_MEDELEG) 9 = false -> frame_ok frame ->
  shuts_down e f = false -> (e = SBI_EXT_IPI -> ipi_in_reach frame) ->
  exists h1 frame' m' h3,
    ecall_callback h = Trapped h1 /\ privilege_level h1 = PRIVILEGE_LEVEL_MACHINE /\
    fw_trap_handler frame (set_m_hart h1 m) = Ok (Returns frame') m' /\
    mret_callback (m_hart m') = Ok tt h3 /\
    pc h3 = u32 (pc h + 4) /\ privilege_level h3 = PRIVILEGE_LEVEL_SUPERVISOR /\
    mie (status h3) = mie (status h) /\ registers h3 = registers h /\ answers frame frame' /\
    (SBI_EXT_LEGACY_SHUTDOWN < e -> frame_reg frame' REG_A0 = u32 (error_of e f)).
Proof.
  intros h e f HW Hp Hd HF HS HI. rewrite ecall_enters by done.
  match goal with |- context [Trapped ?x] => set (h1 := x) end.
  destruct (flush_keeps (address_space_tag h) (setup_mmode_trap CAUSE_SUPERVISOR_ECALL 0 h))
    as (_ & F2 & F3 & F4 & _ & _). fold h1 in F2, F3, F4.
  assert (HP : platform (set_m_hart h1 m)).
  { split; [exact F2|]. apply wired_hart; [done|intros b; apply entry_shape|].
    unfold h1, flush_translation_cache_on_address_space_change. by case_test. }
  assert (HC : blob h1 CSR_ADDRESS_MCAUSE = CAUSE_SUPERVISOR_ECALL /\ blob h1 CSR_ADDRESS_MEPC = pc h).
  { unfold h1. rewrite !flush_blob. unfold setup_mmode_trap. cbv zeta. by csr_reads. }
  destruct (handler_ecall frame _ HP HF HS HI (proj1 HC)) as (f' & m2 & Hs & Ha & He & E).
  cbn [m_hart set_m_hart] in E. rewrite (proj2 HC) in E.
  pose proof (se_status _ _ Hs) as Est. pose proof (se_registers _ _ Hs) as Erg. pose proof (se_level _ _ Hs) as Elv.
  cbn [m_hart set_m_hart] in Est, Erg, Elv. rewrite F3 in Est. rewrite F4 in Erg. rewrite F2 in Elv.
  match type of E with _ = Ok _ ?x => set (m' := x) in E end.
  destruct (mret_callback_eq (m_hart m')) as (h3 & E3 & G1 & G2 & G3 & G4).
  { exact Elv. }
  { change (status (m_hart m')) with (status (m_hart m2)). rewrite Est. right. left. exact Hp. }
  change (status (m_hart m')) with (status (m_hart m2)) in G2, G4. rewrite Est in G2, G4.
  change (registers (m_hart m')) with (registers (m_hart m2)) in G3. rewrite Erg in G3.
  exists h1, f', m', h3. do 4 (split; [done|]). split.
  { rewrite G1. unfold m'. cbn [m_hart set_m_hart]. by rewrite blob_put. }
  split; [rewrite G2; exact Hp|]. done.
Qed.

(** C19. Programming the timer. [sbi_set_timer] is a sequence of statements on the hart's
    compare register; stop it after any of them: the register is at least the deadline
    asked for, or beyond every time before the clock's last 2^32 ticks. So no interrupt
    fires early, whatever the register held before and however the time passes between
    the stores. At the end the register is the deadline asked for, the supervisor's
    pending timer interrupt is taken back and the machine's enabled, and nothing else has
    changed. *)
Theorem set_timer_never_early next m :
  platform m -> is_uint 64 next ->
  (forall m0, sbi_set_timer next m0 =
     (let* hartid := current_hartid in in_order (set_timer_statements (mtimecmp_of hartid) next)) m0) /\
  (exists hartid, current_hartid m = Ok hartid m /\
     forall before after, set_timer_statements (mtimecmp_of hartid) next = before ++ after -> before <> [] ->
       exists m', in_order before m = Ok tt m' /\ Z.min next (2 ^ 64 - 2 ^ 32) <= deadline m') /\
  sbi_set_timer next m =
    Ok tt (on_enable (fun v => Z.lor v MIE_MTIE) (on_pending (fun v => Z.ldiff v MIP_STIP) (timer_set next m))) /\
  deadline (timer_set next m) = next.
Proof.
  intros HP Hn. split; [done|]. split; [|split; [by apply set_timer_eq|by apply timer_set_deadline]].
  exists (this_hart m). split.
  { unfold current_hartid. rewrite read_hartid by apply (wi_csrs _ (proj2 HP)). by rewrite address_of_hart. }
  intros before after E Hne. destruct (set_timer_prefix next m before after HP Hn E) as (m' & Er & Hd & _).
  exists m'. split; [done|]. unfold parked in Hd.
  rewrite with_low_half_eq, with_high_half_eq in Hd by (apply halves_uint, deadline_uint; done).
  change (0xffffffff mod 2 ^ 32) with (2 ^ 32 - 1) in Hd.
  pose proof (Z.mod_pos_bound (deadline m) (2 ^ 32) ltac:(done)).
  pose proof (Z.mod_pos_bound (u32 next) (2 ^ 32) ltac:(done)).
  change (2 ^ 64) with (2 ^ 32 * 2 ^ 32) in *. change (2 ^ 32) with 4294967296 in *.
  destruct Hd as [[-> _]|[->|[->| ->]]]; [done|lia|dlia|lia].
Qed.

(** C36. Machine interrupts are handed over. A machine timer interrupt disables the
    machine timer and makes the supervisor's timer interrupt pending, a machine
    software interrupt clears the hart's doorbell and makes the supervisor's software
    interrupt pending; the frame comes back as it was, and no other interrupt bit that
    the registers implement, nor anything else of the machine, changes. *)
Theorem machine_irq_handed_over frame m :
  platform m ->
  let at_cause c := blob (m_hart m) CSR_ADDRESS_MCAUSE = 0x80000000 + c in
  (at_cause IRQ_MACHINE_TIMER ->
     fw_trap_handler frame m = Ok (Returns frame)
       (on_pending (fun v => Z.lor v MIP_STIP) (on_enable (fun v => Z.ldiff v MIE_MTIE) m))) /\
  (at_cause IRQ_MACHINE_SOFTWARE ->
     fw_trap_handler frame m = Ok (Returns frame)
       (on_pending (fun v => Z.lor v MIP_SSIP)
          (set_clint (set_msip (set_arr (this_hart m) 0 (msip (clint m))) (clint m)) m))).
Proof.
  intros HP at_cause. pose proof (wi_csrs _ (proj2 HP)) as HK. pose proof (hart_fits m HP) as Hid.
  split; intros Hc; unfold fw_trap_handler, bind at 1; rewrite read_mcause by done;
    unfold at_cause in Hc; rewrite Hc.
  - change (u32 (0x80000000 + IRQ_MACHINE_TIMER)) with 0x80000007. cbn [Z.eqb].
    change (truthy (Z.land 0x80000007 0x80000000)) with true.
    change (Z.land 0x80000007 0xff) with IRQ_MACHINE_TIMER. unfold fw_bind, fw_handle_interrupt, plain.
    rewrite Z.eqb_refl. unfold bind. rewrite mie_clear_mtie by done.
    unfold MIP_STIP. by rewrite mip_set by (done || by right).
  - change (u32 (0x80000000 + IRQ_MACHINE_SOFTWARE)) with 0x80000003.
    change (truthy (Z.land 0x80000003 0x80000000)) with true.
    change (Z.land 0x80000003 0xff) with IRQ_MACHINE_SOFTWARE. unfold fw_bind, fw_handle_interrupt, plain.
    cbn [Z.eqb Pos.eqb IRQ_MACHINE_SOFTWARE IRQ_MACHINE_TIMER]. unfold current_hartid, bind.
    rewrite read_hartid by done. unfold this_hart in *.
    rewrite (u32_id (hart_id _)) by (unfold is_uint; lia). unfold CLINT_MSIP_OFFSET. rewrite Z.add_0_r.
    rewrite u32_id by (unfold is_uint, CLINT_BASE; lia).
    rewrite clint_store by (done || lia). unfold MIP_SSIP. rewrite mip_set by (done || by left).
    rewrite clint_write_msip; [done|exact (wi_wf _ (proj2 HP))|exact (wi_id _ (proj2 HP))|exact (wi_base _ (proj2 HP))].
Qed.

(** What is not offered is refused. A call whose extension and function the
    firmware does not have answers with the code for an unsupported call, whatever
    else is in the registers, and changes nothing of the machine; the probe function
    says 1 for exactly the extensions with a function that is offered. *)
Theorem sbi_refuses_unoffered frame m :
  frame_ok frame ->
  (offers (frame_reg frame REG_A7) (frame_reg frame REG_A6) = false ->
     sbi_dispatch frame m = Ok (Returns (results SBI_ERR_NOT_SUPPORTED 0 frame)) m) /\
  forall e, is_uint 32 e ->
    sbi_probe_extension e = if offers e 0 then 1 else 0.
Proof.
  intros HF. split; [by apply dispatch_refuses|]. intros e [He _]. unfold sbi_probe_extension, offers.
  cbn [existsb]. rewrite !andb_true_r, orb_false_r.
  destruct (Z.leb_spec e SBI_EXT_LEGACY_SHUTDOWN) as [Hl|Hl]; unfold SBI_EXT_LEGACY_SHUTDOWN in *.
  - assert (e = 0 \/ e = 1 \/ e = 2 \/ e = 3 \/ e = 4 \/ e = 5 \/ e = 6 \/ e = 7 \/ e = 8) as HC by lia.
    by destruct HC as [->|[->|[->|[->|[->|[->|[->|[->| ->]]]]]]]].
  - assert (forall k, k <= 8 -> (e =? k) = false) as Hk by (intros; apply Z.eqb_neq; lia).
    rewrite (Hk SBI_EXT_LEGACY_SET_TIMER), (Hk SBI_EXT_LEGACY_CONSOLE_PUTCHAR), (Hk SBI_EXT_LEGACY_CONSOLE_GETCHAR),
      (Hk SBI_EXT_LEGACY_CLEAR_IPI), (Hk SBI_EXT_LEGACY_SEND_IPI), (Hk SBI_EXT_LEGACY_REMOTE_FENCE_I),
      (Hk SBI_EXT_LEGACY_REMOTE_SFENCE_VMA), (Hk SBI_EXT_LEGACY_REMOTE_SFENCE_VMA_ASID), (Hk 8) by done.
    by destruct (e =? SBI_EXT_BASE), (e =? SBI_EXT_TIME), (e =? SBI_EXT_IPI), (e =? SBI_EXT_RFENCE), (e =? SBI_EXT_SRST).
Qed.

(** The hart an IPI names is not checked: a hart index of 0x1000 puts the doorbell on
    the low half of the first hart's timer compare register. *)
Lemma ipi_hits_timer m :
  platform m -> sbi_send_ipi 0x1000 m =
    Ok tt (set_clint (set_mtimecmp (set_arr 0 (with_low_half (arr (mtimecmp (clint m)) 0) 1) (mtimecmp (clint m))) (clint m)) m).
Proof.
  intros HP. rewrite send_ipi_eq by (done || (unfold rings; lia)). destruct HP as [_ HW].
  pose proof (wi_id _ HW) as Hid.
  change (CLINT_BASE + 4 * 0x1000) with (CLINT_BASE + CLINT_REG_MTIMECMP + 8 * 0 + 4 * 0).
  rewrite <- (wi_base _ HW). fold (timecmp_address (clint m) 0 0).
  rewrite clint_write_timecmp; [done|apply (wi_wf _ HW)|lia|lia].
Qed.
End Properties.

(** A shutdown leaves the vmm. *)
Lemma shutdown_exits `{AssemblerOk} {A} m :
  platform m -> exists out m', renders (text "BOOTROM: " ++ crlf ++ text "zelda: system halted" ++ crlf) [] out /\
    prints out m m' /\ sbi_shutdown (A := A) m = Exited 0 m'.
Proof.
  intros HP. pose proof (platform_console m HP) as HR.
  destruct (printk_mp_raw_prints _ (text "BOOTROM: " ++ crlf ++ text "zelda: system halted" ++ crlf) [] m (le_n _) eq_refl HR)
    as (out & m' & Ho & E & Hpr).
  exists out, m'. split; [exact Ho|]. split; [exact Hpr|].
  unfold sbi_shutdown, printk, bind. rewrite E.
  destruct (served_platform m m' (served_prints _ _ _ Hpr) HP) as [Hp HW].
  destruct (machine_resolves m' _ _ Hp (wi_syscon _ HW)) as (r & Hr & Hc).
  unfold mmu_write32. rewrite (vmwrite_hits 4 _ _ _ _ _ Hr). unfold pmr_write. by rewrite Hc.
Qed.

Lemma hart_init_known `{Assembler} id h : hart_init id = Some h -> csrs_known h.
Proof.
  destruct (csr_registery_init_spec csr_registery_head (flush_translation_cache (fresh_hart id)))
    as (h' & E & Hin & _); [exact registry_legal|exact registry_nodup|].
  unfold hart_init. change (set_csrs_base ∅ (flush_translation_cache (fresh_hart id)))
    with (flush_translation_cache (fresh_hart id)). rewrite E. cbn. intros [= <-]. exact Hin.
Qed.

Module Witness.
Import Concrete Board.
#[local] Existing Instance sizes.

Definition syscon_pmr : pm_region_operation :=
  {| addr_low := 0x00400000; addr_high := 0x00401000; pmr_callbacks := syscon_region |}.
Definition boot_hart : hart := default (empty_hart 0) (hart_init 0).
(** The hart after reset, in the firmware or (level 1) in the supervisor. *)
Definition booted (level mcause : Z) : machine :=
  set_pmr_ops [syscon_pmr; clint_pmr; plic_pmr; uart_pmr; ram_pmr]
    (board (put_csr_blob CSR_ADDRESS_MCAUSE mcause (set_privilege_level level boot_hart)) []).


Definition table : list pm_region_operation := [syscon_pmr; clint_pmr; plic_pmr; uart_pmr; ram_pmr].

Lemma search_covers rs r pa :
  0 <= pa < 2 ^ 32 - 1 -> table_ok rs -> r ∈ rs -> covers r pa ->
  search_pm_region_callback rs pa = Some (Some r).
Proof.
  intros Hpa HT Hr Hc. destruct (search_pm_region_spec rs pa Hpa HT) as ([r'|] & -> & Ho).
  - destruct Ho as [Hr' Hc']. by rewrite (table_ok_unique rs pa r r' HT).
  - rewrite Forall_forall in Ho. by destruct (Ho r Hr).
Qed.

Lemma table_mapped r level mcause pa :
  0 <= pa < 2 ^ 32 - 1 -> r ∈ table -> covers r pa -> mapped (booted level mcause) pa (pmr_callbacks r).
Proof. intros Hpa Hr Hc. exists r. split; [|done]. apply search_covers; try done. split; repeat constructor; done. Qed.

Lemma boot_hart_init : hart_init 0 = Some boot_hart.
Proof. by vm_compute. Qed.

Lemma boot_hart_id : hart_id boot_hart = 0.
Proof. by vm_compute. Qed.

#[local] Opaque boot_hart.

Lemma boot_hart_known : csrs_known boot_hart.
Proof. exact (hart_init_known 0 boot_hart boot_hart_init). Qed.

Lemma known_at_level h level a v :
  csrs_known h -> csrs_known (put_csr_blob a v (set_privilege_level level h)).
Proof. intros HK e He. rewrite shape_put. exact (HK e He). Qed.

Lemma id_at_level h level a v t :
  hart_id (m_hart (set_pmr_ops t (board (put_csr_blob a v (set_privilege_level level h)) []))) = hart_id h.
Proof. done. Qed.

Lemma booted_wired level mcause : wired (booted level mcause).
Proof.
  split.
  - intros off Ho. apply (table_mapped clint_pmr).
    + unfold CLINT_BASE. lia.
    + right. left.
    + unfold covers, CLINT_BASE. cbn [addr_low addr_high clint_pmr]. lia.
  - apply (table_mapped uart_pmr); [by vm_compute|do 3 right; left|by vm_compute].
  - apply (table_mapped uart_pmr); [by vm_compute|do 3 right; left|by vm_compute].
  - apply (table_mapped syscon_pmr); [by vm_compute|left|by vm_compute].
  - reflexivity.
  - exact Clint.Witness.clint_start_wf.
  - unfold booted. rewrite id_at_level, boot_hart_id. by vm_compute.
  - exact (known_at_level _ _ _ _ boot_hart_known).
  - reflexivity.
Qed.

Lemma booted_platform mcause : platform (booted PRIVILEGE_LEVEL_MACHINE mcause).
Proof. split; [reflexivity|apply booted_wired]. Qed.

(** a0 = 5, a7 = the timer extension. *)
Definition frame : trap_frame :=
  {| regs := set_arr REG_A7 SBI_EXT_TIME (set_arr REG_A0 5 (replicate 32 0)) |}.

Lemma frame_is_ok : frame_ok frame.
Proof. split; [reflexivity|]. by repeat constructor. Qed.

Lemma sbi_call_returns_witness :
  let m := booted PRIVILEGE_LEVEL_SUPERVISOR 0 in
  exists h1 frame' m' h3,
    ecall_callback (m_hart m) = Trapped h1 /\ privilege_level h1 = PRIVILEGE_LEVEL_MACHINE /\
    fw_trap_handler frame (set_m_hart h1 m) = Ok (Returns frame') m' /\
    mret_callback (m_hart m') = Ok tt h3 /\
    pc h3 = u32 (pc (m_hart m) + 4) /\ privilege_level h3 = PRIVILEGE_LEVEL_SUPERVISOR /\
    mie (status h3) = mie (status (m_hart m)) /\ registers h3 = registers (m_hart m) /\
    answers frame frame' /\
    (SBI_EXT_LEGACY_SHUTDOWN < frame_reg frame REG_A7 ->
       frame_reg frame' REG_A0 = u32 (error_of (frame_reg frame REG_A7) (frame_reg frame REG_A6))).
Proof.
  intros m. apply (sbi_call_returns m frame).
  - apply booted_wired.
  - by vm_compute.
  - by vm_compute.
  - exact frame_is_ok.
  - by vm_compute.
  - intros E. vm_compute in E. discriminate E.
Defined.

Lemma set_timer_never_early_witness :
  (forall m0, sbi_set_timer 5 m0 =
     (let* hartid := current_hartid in in_order (set_timer_statements (mtimecmp_of hartid) 5)) m0) /\
  (exists hartid, current_hartid (booted 3 0) = Ok hartid (booted 3 0) /\
     forall before after, set_timer_statements (mtimecmp_of hartid) 5 = before ++ after -> before <> [] ->
       exists m', in_order before (booted 3 0) = Ok tt m' /\ Z.min 5 (2 ^ 64 - 2 ^ 32) <= deadline m') /\
  sbi_set_timer 5 (booted 3 0) =
    Ok tt (on_enable (fun v => Z.lor v MIE_MTIE) (on_pending (fun v => Z.ldiff v MIP_STIP) (timer_set 5 (booted 3 0)))) /\
  deadline (timer_set 5 (booted 3 0)) = 5.
Proof.
  apply (set_timer_never_early 5 (booted 3 0)).
  - apply booted_platform.
  - by vm_compute.
Defined.

Lemma machine_irq_handed_over_witness :
  fw_trap_handler frame (booted 3 0x80000007) = Ok (Returns frame)
    (on_pending (fun v => Z.lor v MIP_STIP) (on_enable (fun v => Z.ldiff v MIE_MTIE) (booted 3 0x80000007))).
Proof.
  assert (E : blob (m_hart (booted 3 0x80000007)) CSR_ADDRESS_MCAUSE = 0x80000000 + IRQ_MACHINE_TIMER)
    by by vm_compute.
  exact (proj1 (machine_irq_handed_over frame (booted 3 0x80000007) (booted_platform 0x80000007)) E).
Defined.

Lemma sbi_refuses_unoffered_witness :
  sbi_dispatch {| regs := set_arr REG_A7 0x48534d (replicate 32 0) |} (booted 3 0) =
  Ok (Returns (results SBI_ERR_NOT_SUPPORTED 0 {| regs := set_arr REG_A7 0x48534d (replicate 32 0) |})) (booted 3 0).
Proof.
  apply (sbi_refuses_unoffered {| regs := set_arr REG_A7 0x48534d (replicate 32 0) |} (booted 3 0)).
  - split; [reflexivity|]. by repeat constructor.
  - by vm_compute.
Defined.
End Witness.
