(* ===== verification/Entry.v ===== *)
(** * The firmware's trap vector

    Models the trap vector of src/bootrom/entry.S, instruction by instruction, each
    executed as the emulator does (BlockSys.v). The vector swaps the stack pointer with
    mscratch, saves the registers in a frame of 128 bytes below the stack's top, calls
    [fw_trap_handler] (Sbi.v) on the frame, restores the registers from it and returns.
    The compiled handler reads and writes the frame in memory, leaves the bytes of its
    own stack frames below it, and may overwrite the caller-saved registers; what it
    leaves in both is a parameter.

    Proved here: an SBI call as the supervisor sees it, from its ecall to the
    instruction after it. *)

From S2P Require Import Prelude Bytes Monad PmRegion X86 Hart Trap Rv32 Decode Refine Clint Plic Uart Machine Mmu Console.
From S2P Require Import CsrHandlers Csr Calls BlockMem BlockSys Sbi.
Local Open Scope Z_scope.

(** ** The instructions *)

Definition RA : Z := 1.
Definition SP : Z := 2.
Definition T0 : Z := 5.

(** The stack of a hart in machine mode.
    src/bootrom/entry.S:7-8 FW_STACK_SIZE *)
Definition FW_STACK_SHIFT : Z := 13.
Definition FW_STACK_SIZE : Z := Z.shiftl 1 FW_STACK_SHIFT.

Definition csr_word (funct3 csr rd rs1 : Z) : Z :=
  csr * 2 ^ 20 + rs1 * 2 ^ 15 + funct3 * 2 ^ 12 + rd * 2 ^ 7 + 0x73.

Definition csrrw (rd csr rs1 : Z) : rv_instr := Sys (I_CSR (csr_word 1 csr rd rs1)).
Definition csrr (rd csr : Z) : rv_instr := Sys (I_CSR (csr_word 2 csr rd 0)).
Definition csrw (csr rs1 : Z) : rv_instr := csrrw 0 csr rs1.
Definition addi (rd rs1 imm : Z) : rv_instr := Comp (I_OP_IMM ADD rd rs1 imm).
Definition mv (rd rs1 : Z) : rv_instr := addi rd rs1 0.
Definition sw (rs2 off rs1 : Z) : rv_instr := Memory (I_STORE SW rs1 rs2 off).
Definition lw (rd off rs1 : Z) : rv_instr := Memory (I_LOAD LW rd rs1 off).

(** x1 and x3 to x31. *)
Definition saved : list Z := RA :: seqZ 3 29.

(** Up to the arguments of the call.
    src/bootrom/entry.S:54-97 fw_trap_vector *)
Definition save_registers : list rv_instr :=
  [csrrw SP CSR_ADDRESS_MSCRATCH SP; addi SP SP (-32 * 4)] ++
  map (fun i => sw i (i * 4) SP) saved ++
  [csrr T0 CSR_ADDRESS_MSCRATCH; sw T0 (2 * 4) SP; addi T0 SP (32 * 4); csrw CSR_ADDRESS_MSCRATCH T0; mv REG_A0 SP].

(** From the call's return to the mret.
    src/bootrom/entry.S:100-136 fw_trap_vector *)
Definition restore_registers : list rv_instr :=
  [lw T0 (2 * 4) SP; csrw CSR_ADDRESS_MSCRATCH T0] ++
  map (fun i => lw i (i * 4) SP) saved ++
  [addi SP SP (32 * 4); csrrw SP CSR_ADDRESS_MSCRATCH SP].

Section Vector.
Context `{Assembler}.

Fixpoint run (code : list rv_instr) : prog machine unit :=
  match code with
  | [] => ret tt
  | i :: code => execute_rv32 i ;;; run code
  end.

(** The words of a [struct trap_frame]. *)
Fixpoint load_words (n : nat) (a : Z) : prog machine (list Z) :=
  match n with
  | O => ret []
  | S n => let* v := mmu_read32 a in let* vs := load_words n (a + 4) in ret (v :: vs)
  end.

(** What the handler assigns of the frame: the results of a call, if it is one. *)
Definition store_results (f : trap_frame) (a : Z) : prog machine unit :=
  mmu_write32 (a + 4 * REG_A0) (frame_reg f REG_A0) ;;; mmu_write32 (a + 4 * REG_A1) (frame_reg f REG_A1).

(** The registers a function need not keep, with what it leaves in them. *)
Context (clobber : Z -> Z).
Definition caller_saved : list Z := [1; 5; 6; 7; 10; 11; 12; 13; 14; 15; 16; 17; 28; 29; 30; 31].
Definition overwritten (l : list Z) (m : machine) : machine := foldl (fun m i => wr_reg i (clobber i) m) m l.

(** What the handler's code and the functions it calls leave on the stack, up to the
    stack pointer at the call. *)
Context (locals : list Z).
Fixpoint store_bytes (l : list Z) (a : Z) : prog machine unit :=
  match l with
  | [] => ret tt
  | b :: l => mmu_write8 a b ;;; store_bytes l (a + 1)
  end.

(** The call of the handler, on the frame in memory that a0 points to.
    src/bootrom/entry.S:96-97 fw_trap_vector *)
Definition call_handler : fw unit :=
  let* frame := gets (rd_reg REG_A0) in
  let* sp := gets (rd_reg SP) in
  let* words := load_words 32 frame in
  store_bytes locals (sp - len locals) ;;;
  let+ f := fw_trap_handler {| regs := words |} in
  plain (store_results f frame ;;; modify (overwritten caller_saved) ;;; next_pc).

(** src/bootrom/entry.S:54-137 fw_trap_vector *)
Definition fw_trap_vector : fw unit :=
  let+ _ := plain (run save_registers) in
  let+ _ := call_handler in
  plain (run restore_registers ;;; execute_rv32 (Sys I_MRET)).
End Vector.

(** ** A hart on the firmware's stack *)

(** What the vector's instructions work on: the registers, mscratch and the words of
    the frame. *)
Record cpu := { x : Z -> Z; scratch : Z; slot : Z -> Z }.

Definition upd (i v : Z) (f : Z -> Z) : Z -> Z := fun j => if j =? i then v else f j.
Definition upds (l : list Z) (g f : Z -> Z) : Z -> Z := fun j => if existsb (Z.eqb j) l then g j else f j.

Definition set_x (i v : Z) (c : cpu) : cpu := {| x := upd i v (x c); scratch := scratch c; slot := slot c |}.
Definition set_scratch (v : Z) (c : cpu) : cpu := {| x := x c; scratch := v; slot := slot c |}.
Definition set_slot (j v : Z) (c : cpu) : cpu := {| x := x c; scratch := scratch c; slot := upd j v (slot c) |}.

Section Facts.
Context `{AssemblerOk}.
Context (rom : pm_region_operation) (top : Z) (locals : list Z).

(** The stack lies in the firmware's rom, and the frame and what the handler puts below
    it fit a hart's stack. *)
Record stack_in_rom : Prop := {
  sr_rom : pmr_callbacks rom = bootrom_region;
  sr_low : 0 <= addr_low rom /\ addr_low rom <= top - FW_STACK_SIZE;
  sr_high : top <= addr_high rom /\ addr_high rom < 2 ^ 32;
  sr_fits : 128 + len locals <= FW_STACK_SIZE
}.
Context (HR : stack_in_rom).

Definition frame : Z := top - 128.
(** The end of what the trap uses of the stack. *)
Definition floor : Z := frame - len locals.

Lemma floor_range : addr_low rom <= floor <= frame.
Proof. destruct HR as [_ [Hz Hl] _ Hf]. pose proof (len_nonneg locals). unfold floor, frame. lia. Qed.
Definition word (j : Z) (m : machine) : Z := load_bytes 4 (frame - addr_low rom + 4 * j) (bootrom m) mod 2 ^ 32.

(** The machine runs the vector, and [c] is what its hart works on. *)
Record holds (c : cpu) (m : machine) : Prop := {
  ho_level : privilege_level (m_hart m) = PRIVILEGE_LEVEL_MACHINE;
  ho_bank : bank_wf m;
  ho_magic : hart_magic (m_hart m) = HART_MAGIC_WORD;
  ho_known : csrs_known (m_hart m);
  ho_region : forall a, floor <= a < top -> search_pm_region_callback (pmr_ops m) a = Some (Some rom);
  ho_size : addr_high rom - addr_low rom <= mem_size (bootrom m);
  ho_x : forall i, 0 <= i < 32 -> rd_reg i m = x c i;
  ho_zero : x c 0 = 0;
  ho_scratch : blob (m_hart m) CSR_ADDRESS_MSCRATCH = scratch c /\ is_uint 32 (scratch c);
  ho_slot : forall j, 0 <= j < 32 -> word j m = slot c j
}.

(** What the vector leaves alone. *)
Record kept (m m' : machine) : Prop := {
  kp_shape : forall b, shape (csr_at (m_hart m') b) = shape (csr_at (m_hart m) b);
  kp_blob : forall b, b <> CSR_ADDRESS_MSCRATCH -> blob (m_hart m') b = blob (m_hart m) b;
  kp_status : status (m_hart m') = status (m_hart m);
  kp_level : privilege_level (m_hart m') = privilege_level (m_hart m);
  kp_id : hart_id (m_hart m') = hart_id (m_hart m);
  kp_ops : pmr_ops m' = pmr_ops m;
  kp_clint : clint m' = clint m;
  kp_uart : uart m' = uart m;
  kp_outside : forall a, a < floor - addr_low rom \/ top - addr_low rom <= a -> mem_byte (bootrom m') a = mem_byte (bootrom m) a
}.

#[local] Instance kept_preorder : PreOrder kept.
Proof.
  split; [by split|]. intros m1 m2 m3 [A1 A2 A3 A4 A5 A6 A7 A8 A9] [B1 B2 B3 B4 B5 B6 B7 B8 B9]. split; first [congruence|intros b Hb].
  - by rewrite B2, A2.
  - by rewrite B9, A9.
Qed.

Lemma kept_platform m m' : kept m m' -> platform m -> platform m'.
Proof.
  intros [A1 A2 A3 A4 A5 A6 A7 A8 A9] [Hp [Hc Hq Hl Hs Hb Hw Hi Hk Hd]].
  assert (HM : forall a c, mapped m a c -> mapped m' a c) by (unfold mapped; by rewrite A6).
  split; [by rewrite A4|]. split; eauto.
  - by rewrite A7.
  - by rewrite A7.
  - by rewrite A5, A7.
  - intros e He. by rewrite A1, Hk.
  - by rewrite A8.
Qed.

(** The program runs to its end and the hart then works on [c]. *)
Definition reaches (p : prog machine unit) (m : machine) (c : cpu) : Prop :=
  exists m', p m = Ok tt m' /\ kept m m' /\ holds c m'.

Lemma reaches_ret c m : holds c m -> reaches (ret tt) m c.
Proof. intros HC. exists m. by split; [|split]. Qed.

Lemma reaches_seq p q m c c' :
  reaches p m c -> (forall m', holds c m' -> reaches q m' c') -> reaches (p ;;; q) m c'.
Proof.
  intros (m1 & E1 & K1 & H1) Hq. destruct (Hq m1 H1) as (m2 & E2 & K2 & H2). exists m2. unfold bind. rewrite E1.
  split; [done|]. split; [by transitivity m1|done].
Qed.

Lemma run_app code1 code2 m : run (code1 ++ code2) m = (run code1 ;;; run code2) m.
Proof.
  revert m. induction code1 as [|i code1 IH]; intros m; [done|]. cbn [app run]. unfold bind at 1.
  unfold bind at 2, bind at 1. by destruct (execute_rv32 i m).
Qed.

Lemma reaches_app code1 code2 m c c' :
  reaches (run code1) m c -> (forall m', holds c m' -> reaches (run code2) m' c') -> reaches (run (code1 ++ code2)) m c'.
Proof.
  intros H1 H2. destruct (reaches_seq _ _ _ _ _ H1 H2) as (m' & E & R). exists m'. by rewrite run_app.
Qed.

Lemma reaches_cons i code m c c' :
  reaches (execute_rv32 i) m c -> (forall m', holds c m' -> reaches (run code) m' c') -> reaches (run (i :: code)) m c'.
Proof. apply reaches_seq. Qed.

(** For each register. *)
Lemma each (P : Z -> Prop) : Forall P (seqZ 0 32) -> forall i, 0 <= i < 32 -> P i.
Proof. rewrite Forall_forall. intros HP i Hi. apply HP, elem_of_seqZ. lia. Qed.

Lemma holds_ext c c' m :
  (forall i, 0 <= i < 32 -> x c i = x c' i) -> scratch c = scratch c' ->
  (forall j, 0 <= j < 32 -> slot c j = slot c' j) -> holds c m -> holds c' m.
Proof.
  intros Hx Hs Hj [A1 A2 A3 A4 A5 A6 A7 A8 A9 A10]. split; try done.
  - intros i Hi. by rewrite A7, Hx.
  - by rewrite <- Hx.
  - by rewrite <- Hs.
  - intros j Hj'. by rewrite A10, Hj.
Qed.

Lemma reaches_ext p m c c' :
  (forall i, 0 <= i < 32 -> x c i = x c' i) -> scratch c = scratch c' ->
  (forall j, 0 <= j < 32 -> slot c j = slot c' j) -> reaches p m c -> reaches p m c'.
Proof. intros Hx Hs Hj (m' & E & K & HH). exists m'. do 2 (split; [done|]). by apply (holds_ext c). Qed.

(** *** Changes of the state *)

Lemma changed_pc c v m : holds c m -> is_uint 32 v -> kept m (wr_pc v m) /\ holds c (wr_pc v m).
Proof.
  intros [A1 A2 A3 A4 A5 A6 A7 A8 A9 A10] Hv. split; [by split|]. split; try done.
  - by apply (wr_pc_wf (W := machine)).
Qed.

Lemma changed_reg c i v m : holds c m -> 0 < i < 32 -> is_uint 32 v ->
  kept m (wr_reg i v m) /\ holds (set_x i v c) (wr_reg i v m).
Proof.
  intros [A1 A2 A3 A4 A5 A6 A7 A8 A9 A10] Hi Hv. split; [by split|]. split; try done.
  - apply (wr_reg_wf (W := machine)); [done|lia|done].
  - intros j Hj. cbn [x set_x]. unfold upd. destruct (Z.eqb_spec j i) as [->|Hn].
    + apply (rd_wr_reg (W := machine)); [done|lia].
    + rewrite rd_wr_reg_ne by lia. by apply A7.
  - cbn [x set_x]. unfold upd. by rewrite (proj2 (Z.eqb_neq 0 i)) by lia.
Qed.

Lemma changed_scratch c v m : holds c m -> is_uint 32 v ->
  let m' := set_m_hart (put_csr_blob CSR_ADDRESS_MSCRATCH v (m_hart m)) m in kept m m' /\ holds (set_scratch v c) m'.
Proof.
  intros [A1 A2 A3 A4 A5 A6 A7 A8 A9 A10] Hv m'. split.
  - split; try done; unfold m'; cbn [m_hart set_m_hart].
    + intros b. by rewrite shape_put.
    + intros b Hb. rewrite blob_put. by rewrite (proj2 (Z.eqb_neq _ _)).
  - split; try done; unfold m'; cbn [m_hart set_m_hart].
    + intros e He. by rewrite shape_put, A4.
    + rewrite blob_put. by rewrite Z.eqb_refl.
Qed.

Lemma changed_slot c j v r m : holds c m -> 0 <= j < 32 ->
  mem_store (frame - addr_low rom + 4 * j) 4 v (bootrom m) = Some r ->
  kept m (set_bootrom r m) /\ holds (set_slot j (u32 v) c) (set_bootrom r m).
Proof.
  intros [A1 A2 A3 A4 A5 A6 A7 A8 A9 A10] Hj Hs.
  destruct (mem_store_load _ 4 _ _ _ ltac:(lia) Hs) as (Hl & Hz & Ho). split.
  - split; try done. intros a Ha. cbn [bootrom set_bootrom]. apply Ho. pose proof floor_range. unfold frame in *. lia.
  - split; try done; cbn [bootrom set_bootrom]; [by rewrite Hz|].
    intros k Hk. cbn [slot set_slot]. unfold upd, word. cbn [bootrom set_bootrom]. destruct (Z.eqb_spec k j) as [->|Hn].
    + unfold mem_load in Hl. destruct (in_bounds _ _ _); [|done]. change (Z.to_nat 4) with 4%nat in Hl.
      assert (load_bytes 4 (frame - addr_low rom + 4 * j) r = v mod 2 ^ (8 * 4)) as -> by congruence. change (8 * 4) with 32. by rewrite Z.mod_mod.
    + rewrite <- A10 by done. unfold word. f_equal. apply load_bytes_ext. intros i Hi. apply Ho. lia.
Qed.

(** *** Accesses to the frame *)

Lemma frame_resolves c m a : holds c m -> floor <= a < top -> resolve m a = Some (rom, a).
Proof.
  intros HC Ha. unfold resolve, paging. rewrite (ho_level _ _ HC). cbn [andb Z.ltb Z.compare Pos.compare Pos.compare_cont PRIVILEGE_LEVEL_MACHINE].
  by rewrite (ho_region _ _ HC a Ha).
Qed.

Lemma frame_load c m j : holds c m -> 0 <= j < 32 -> vmread 4 (frame + 4 * j) m = Ok (slot c j) m.
Proof.
  intros HC Hj. destruct HR as [Hrom [Hz Hl] [Hh H32] _]. pose proof floor_range as Hfl. pose proof (ho_size _ _ HC).
  rewrite (vmread_resolved _ _ _ _ _ (frame_resolves c m (frame + 4 * j) HC ltac:(unfold frame in *; lia))). unfold bind, pmr_read.
  rewrite Hrom. unfold bootrom_read. rewrite (proj2 (Z.ltb_ge _ _)) by (unfold frame in *; lia). cbn [negb legal_size Z.eqb Pos.eqb orb].
  unfold mem_load, in_bounds. rewrite !(proj2 (Z.leb_le _ _)) by (unfold frame in *; lia). cbn [andb of_opt]. unfold ret.
  replace (frame + 4 * j - addr_low rom) with (frame - addr_low rom + 4 * j) by lia. change (Z.to_nat 4) with 4%nat.
  fold (word j m). rewrite <- (ho_slot _ _ HC j Hj). done.
Qed.

Lemma slot_uint c m j : holds c m -> 0 <= j < 32 -> is_uint 32 (slot c j).
Proof. intros HC Hj. rewrite <- (ho_slot _ _ HC j Hj). by apply Z.mod_pos_bound. Qed.
Lemma x_uint c m i : holds c m -> 0 <= i < 32 -> is_uint 32 (x c i).
Proof. intros HC Hi. rewrite <- (ho_x _ _ HC i Hi). by apply (rd_reg_uint (W := machine)); [apply HC|]. Qed.

Lemma frame_store c m j v : holds c m -> 0 <= j < 32 ->
  reaches (vmwrite 4 (frame + 4 * j) v) m (set_slot j (u32 v) c).
Proof.
  intros HC Hj. destruct HR as [Hrom [Hz Hl] [Hh H32] _]. pose proof floor_range as Hfl. pose proof (ho_size _ _ HC).
  assert (exists r, mem_store (frame - addr_low rom + 4 * j) 4 v (bootrom m) = Some r) as [r Hr].
  { unfold mem_store, in_bounds. rewrite !(proj2 (Z.leb_le _ _)) by (unfold frame in *; lia). by eexists. }
  exists (set_bootrom r m). split; [|by apply (changed_slot c j v)].
  rewrite (vmwrite_hits _ _ _ _ _ _ (frame_resolves c m (frame + 4 * j) HC ltac:(unfold frame in *; lia))). unfold pmr_write.
  rewrite Hrom. unfold bootrom_write. rewrite (proj2 (Z.ltb_ge _ _)) by (unfold frame in *; lia).
  cbn [negb legal_size Z.eqb Pos.eqb orb]. replace (frame + 4 * j - addr_low rom) with (frame - addr_low rom + 4 * j) by lia.
  by rewrite Hr.
Qed.

(** A byte below the frame. *)
Lemma local_store c m a b : holds c m -> floor <= a < frame -> reaches (mmu_write8 a b) m c.
Proof.
  intros HC Ha. destruct HR as [Hrom [Hz Hl] [Hh H32] _]. pose proof floor_range. pose proof (ho_size _ _ HC).
  assert (Hat : floor <= a < top) by (unfold frame in *; lia).
  assert (exists r, mem_store (a - addr_low rom) 1 b (bootrom m) = Some r) as [r Hr].
  { unfold mem_store, in_bounds. rewrite !(proj2 (Z.leb_le _ _)) by lia. by eexists. }
  destruct (mem_store_load _ 1 _ _ _ ltac:(lia) Hr) as (_ & Hs & Ho).
  exists (set_bootrom r m). split; [|split].
  - unfold mmu_write8. rewrite (vmwrite_hits _ _ _ _ _ _ (frame_resolves c m a HC Hat)). unfold pmr_write.
    rewrite Hrom. unfold bootrom_write. rewrite (proj2 (Z.ltb_ge _ _)) by lia.
    cbn [negb legal_size Z.eqb Pos.eqb orb]. by rewrite Hr.
  - split; try done. intros k Hk. cbn [bootrom set_bootrom]. apply Ho. unfold frame in *. lia.
  - destruct HC as [A1 A2 A3 A4 A5 A6 A7 A8 A9 A10]. split; try done; cbn [bootrom set_bootrom]; [by rewrite Hs|].
    intros j Hj. rewrite <- A10 by done. unfold word. cbn [bootrom set_bootrom]. f_equal. apply load_bytes_ext.
    intros i Hi. apply Ho. lia.
Qed.

Lemma locals_store l : forall c m a, holds c m -> floor <= a -> a + len l <= frame -> reaches (store_bytes l a) m c.
Proof.
  induction l as [|b l IH]; intros c m a HC Ha Hl; cbn [store_bytes]; [by apply reaches_ret|].
  autorewrite with len in Hl. pose proof (len_nonneg l) as Hn.
  apply (reaches_seq _ _ _ c); [apply local_store; [done|lia]|]. intros m2 H2. apply IH; [done|lia..].
Qed.

(** *** The instructions *)

Lemma next_reaches c m : holds c m -> reaches next_pc m c.
Proof. intros HC. eexists. split; [reflexivity|]. apply changed_pc; [done|apply u32_range]. Qed.

Lemma step_addi rd rs imm c m : holds c m -> 0 < rd < 32 -> 0 <= rs < 32 ->
  reaches (execute_rv32 (addi rd rs imm)) m (set_x rd (u32 (x c rs + imm)) c).
Proof.
  intros HC Hd Hs. destruct (changed_reg c rd (u32 (x c rs + imm)) m HC Hd (u32_range _)) as [K1 H1].
  destruct (changed_pc _ (u32 (rd_pc m + 4)) _ H1 (u32_range _)) as [K2 H2].
  eexists. split; [|split; [by transitivity (wr_reg rd (u32 (x c rs + imm)) m)|exact H2]].
  unfold addi, execute_rv32. cbn [host_faults execute alu]. unfold set_rd. rewrite (proj2 (Z.eqb_neq rd 0)) by lia.
  by rewrite (ho_x _ _ HC rs Hs).
Qed.

Lemma step_sw i j c m : holds c m -> 0 <= i < 32 -> 0 <= j < 32 -> x c SP = frame ->
  reaches (execute_rv32 (sw i (j * 4) SP)) m (set_slot j (x c i) c).
Proof.
  intros HC Hi Hj Hsp. destruct (frame_store c m j (x c i) HC Hj) as (m1 & E1 & K1 & H1).
  rewrite (u32_id (x c i)) in H1 by by apply (x_uint c m).
  destruct (next_reaches _ _ H1) as (m2 & E2 & K2 & H2). exists m2. split; [|split; [by transitivity m1|done]].
  unfold sw. cbn [execute_rv32 execute_mem store_size]. unfold bind at 1, gets at 1. unfold bind at 1, gets at 1.
  rewrite (ho_x _ _ HC SP ltac:(done)), (ho_x _ _ HC i Hi), Hsp. destruct HR as [_ [Hz Hl] [Hh H32] _]. pose proof floor_range as Hfl.
  rewrite u32_id by (unfold is_uint, frame in *; lia). rewrite (Z.mul_comm j 4), Z.mod_small by apply (x_uint c m i HC Hi).
  unfold bind. by rewrite E1.
Qed.

Lemma step_lw rd j c m : holds c m -> 0 < rd < 32 -> 0 <= j < 32 -> x c SP = frame ->
  reaches (execute_rv32 (lw rd (j * 4) SP)) m (set_x rd (slot c j) c).
Proof.
  intros HC Hd Hj Hsp. destruct (changed_reg c rd (slot c j) m HC Hd (slot_uint c m j HC Hj)) as [K1 H1].
  destruct (next_reaches _ _ H1) as (m2 & E2 & K2 & H2). exists m2. split; [|split; [by transitivity (wr_reg rd (slot c j) m)|done]].
  unfold lw. cbn [execute_rv32 execute_mem load_size load_value]. unfold bind at 1, gets at 1.
  rewrite (ho_x _ _ HC SP ltac:(done)), Hsp. destruct HR as [_ [Hz Hl] [Hh H32] _]. pose proof floor_range as Hfl.
  rewrite u32_id by (unfold is_uint, frame in *; lia). rewrite (Z.mul_comm j 4).
  unfold bind at 1. rewrite (frame_load c m j HC Hj). unfold bind, modify, set_rd. rewrite (proj2 (Z.eqb_neq rd 0)) by lia. exact E2.
Qed.

(** *** mscratch *)

Lemma mscratch_known : mscratch_csr_entry ∈ csr_registery_head.
Proof. registered_csr. Qed.

Lemma mscratch_value now h :
  csrs_known h -> is_uint 32 (blob h CSR_ADDRESS_MSCRATCH) ->
  csr_value now CSR_ADDRESS_MSCRATCH h = Ok (blob h CSR_ADDRESS_MSCRATCH) h.
Proof.
  intros HK Hv. pose proof (known_value _ now h HK mscratch_known) as E. pose proof (known_mask _ _ HK mscratch_known) as Em.
  cbn [mscratch_csr_entry reg_addr reg_read reg_wpri_mask run_read] in E, Em. rewrite E, Em. unfold csr_mscratch_read. change WPRI_MASK_ALL with 0xffffffff. by rewrite land_low, Z.mod_small.
Qed.

Lemma mscratch_store v h :
  csrs_known h -> is_uint 32 v ->
  csr_store CSR_ADDRESS_MSCRATCH (Z.land v (wpri_mask (csr_at h CSR_ADDRESS_MSCRATCH))) h =
  Ok tt (put_csr_blob CSR_ADDRESS_MSCRATCH v h).
Proof.
  intros HK Hv. pose proof (known_mask _ _ HK mscratch_known) as Em. cbn [mscratch_csr_entry reg_addr reg_wpri_mask] in Em.
  rewrite Em. change (Z.land v WPRI_MASK_ALL) with (Z.land v 0xffffffff). rewrite land_low, Z.mod_small by exact Hv.
  exact (known_store _ v h HK mscratch_known).
Qed.

(** A csr instruction on mscratch, by its decoding. *)
Definition decodes (w : Z) (d : decoding) : Prop :=
  (Z.land w 0x7f =? RISCV_OPCODE_SUPERVISOR_LEVEL) = true /\
  instruction_decoding_per_type (u32 w) ENCODING_TYPE_I = Some d /\ Z.land (imm d) 0xfff = CSR_ADDRESS_MSCRATCH.

Lemma mscratch_valid h : csrs_known h -> is_valid (csr_at h CSR_ADDRESS_MSCRATCH) = true.
Proof. intros HK. by destruct (shape_fields _ _ (HK _ mscratch_known)). Qed.

Lemma csrrw_callback now w d h :
  decodes w d -> funct3 d = 1 -> hart_magic h = HART_MAGIC_WORD -> csrs_known h ->
  is_uint 32 (blob h CSR_ADDRESS_MSCRATCH) -> is_uint 32 (HART_REG h (rs1_index d)) ->
  riscv_generic_csr_callback now w h =
  Ok tt (put_csr_blob CSR_ADDRESS_MSCRATCH (HART_REG h (rs1_index d))
    (if truthy (rd_index d) then set_HART_REG (rd_index d) (blob h CSR_ADDRESS_MSCRATCH) h else h)).
Proof.
  intros (Ho & Hd & Ha) Hf HM HK Hb Hs. unfold riscv_generic_csr_callback, bind at 1, get. rewrite HM, Ho, Hd.
  unfold ASSERT, bind at 1 2 3, ret at 1 2. cbn [of_opt Z.eqb Pos.eqb HART_MAGIC_WORD]. cbv zeta.
  unfold ret at 1. rewrite Ha, (mscratch_valid h HK), Hf. cbn [negb Z.eqb Pos.eqb]. unfold bind at 1. case_test.
  - unfold bind. rewrite mscratch_value by done. unfold modify. by apply (mscratch_store _ (set_HART_REG _ _ h)).
  - unfold ret. by apply mscratch_store.
Qed.

Lemma csrr_callback now w d h :
  decodes w d -> funct3 d = 2 -> rs1_index d = 0 -> hart_magic h = HART_MAGIC_WORD -> csrs_known h ->
  is_uint 32 (blob h CSR_ADDRESS_MSCRATCH) ->
  riscv_generic_csr_callback now w h = Ok tt (set_HART_REG (rd_index d) (blob h CSR_ADDRESS_MSCRATCH) h).
Proof.
  intros (Ho & Hd & Ha) Hf Hs HM HK Hb. unfold riscv_generic_csr_callback, bind at 1, get. rewrite HM, Ho, Hd.
  unfold ASSERT, bind at 1 2 3, ret at 1 2. cbn [of_opt Z.eqb Pos.eqb HART_MAGIC_WORD]. cbv zeta.
  unfold ret at 1. rewrite Ha, (mscratch_valid h HK), Hf, Hs. cbn [negb Z.eqb Pos.eqb].
  unfold bind. by rewrite mscratch_value.
Qed.

Lemma csr_reaches w c c' m h :
  holds c m -> riscv_generic_csr_callback (clint_get_time (clint m)) w (m_hart m) = Ok tt h ->
  (kept m (set_m_hart h m) /\ holds c' (set_m_hart h m)) -> reaches (execute_rv32 (Sys (I_CSR w))) m c'.
Proof.
  intros HC E [K1 H1]. assert (HZ : kept (set_m_hart h m) (wr_reg 0 0 (set_m_hart h m)) /\ holds c' (wr_reg 0 0 (set_m_hart h m))).
  { assert (wr_reg 0 (rd_reg 0 (set_m_hart h m)) (set_m_hart h m) = set_m_hart h m) as E0
      by (apply (wr_rd_reg (W := machine)); [apply H1|done]).
    rewrite (ho_x _ _ H1 0), (ho_zero _ _ H1) in E0 by done. by rewrite E0. }
  destruct HZ as [K2 H2]. destruct (next_reaches _ _ H2) as (m' & E3 & K3 & H3). exists m'. split.
  - cbn [execute_rv32 execute_sys]. unfold csr_callback, on_hart, zoom, bind at 1. unfold bind at 1, gets. rewrite E. exact E3.
  - split; [|done]. transitivity (set_m_hart h m); [done|]. by transitivity (wr_reg 0 0 (set_m_hart h m)).
Qed.

Lemma scratch_uint c m : holds c m -> is_uint 32 (blob (m_hart m) CSR_ADDRESS_MSCRATCH).
Proof. intros HC. destruct (ho_scratch _ _ HC) as [-> Hu]. done. Qed.

Lemma hart_reg c m i : holds c m -> 0 <= i < 32 -> HART_REG (m_hart m) i = x c i.
Proof. intros HC. apply (ho_x _ _ HC). Qed.

Ltac decoding w :=
  let d := eval vm_compute in (instruction_decoding_per_type (u32 w) ENCODING_TYPE_I) in
  match d with Some ?d => exact d end.

Lemma step_swap c m : holds c m ->
  reaches (execute_rv32 (csrrw SP CSR_ADDRESS_MSCRATCH SP)) m (set_scratch (x c SP) (set_x SP (scratch c) c)).
Proof.
  intros HC. pose proof (hart_reg c m SP HC ltac:(done)) as HS. pose proof (x_uint c m SP HC ltac:(done)) as Hu.
  destruct (ho_scratch _ _ HC) as [Hb Hbu]. eapply csr_reaches; [exact HC| |].
  - eapply (csrrw_callback _ _ ltac:(decoding (csr_word 1 CSR_ADDRESS_MSCRATCH SP SP))); [by repeat split|done|apply HC|apply HC|by apply (scratch_uint c)|].
    change (is_uint 32 (HART_REG (m_hart m) SP)). by rewrite HS.
  - cbn [rs1_index rd_index]. change (HART_REG (m_hart m) 2) with (HART_REG (m_hart m) SP). rewrite HS, Hb.
    destruct (changed_reg c SP (scratch c) m HC ltac:(done) Hbu) as [K1 H1].
    destruct (changed_scratch _ (x c SP) _ H1 Hu) as [K2 H2]. split; [by transitivity (wr_reg SP (scratch c) m)|exact H2].
Qed.

Lemma step_csrr c m : holds c m -> reaches (execute_rv32 (csrr T0 CSR_ADDRESS_MSCRATCH)) m (set_x T0 (scratch c) c).
Proof.
  intros HC. destruct (ho_scratch _ _ HC) as [Hb Hbu]. eapply csr_reaches; [exact HC| |].
  - eapply (csrr_callback _ _ ltac:(decoding (csr_word 2 CSR_ADDRESS_MSCRATCH T0 0))); [by repeat split|done|done|apply HC|apply HC|by apply (scratch_uint c)].
  - cbn [rd_index]. rewrite Hb. by apply (changed_reg c T0 (scratch c)).
Qed.

Lemma step_csrw c m : holds c m -> reaches (execute_rv32 (csrw CSR_ADDRESS_MSCRATCH T0)) m (set_scratch (x c T0) c).
Proof.
  intros HC. pose proof (hart_reg c m T0 HC ltac:(done)) as HS. pose proof (x_uint c m T0 HC ltac:(done)) as Hu.
  eapply csr_reaches; [exact HC| |].
  - eapply (csrrw_callback _ _ ltac:(decoding (csr_word 1 CSR_ADDRESS_MSCRATCH 0 T0))); [by repeat split|done|apply HC|apply HC|by apply (scratch_uint c)|].
    change (is_uint 32 (HART_REG (m_hart m) T0)). by rewrite HS.
  - cbn [rs1_index rd_index truthy Z.eqb negb]. change (HART_REG (m_hart m) 5) with (HART_REG (m_hart m) T0). rewrite HS.
    by apply changed_scratch.
Qed.

(** *** The sequences *)

Lemma run_sw l : forall c m, Forall (fun i => 0 <= i < 32) l -> holds c m -> x c SP = frame ->
  reaches (run (map (fun i => sw i (i * 4) SP) l)) m {| x := x c; scratch := scratch c; slot := upds l (x c) (slot c) |}.
Proof.
  induction l as [|i l IH]; intros c m Hl HC Hsp.
  - apply reaches_ret. by apply (holds_ext c).
  - apply Forall_cons in Hl as [Hi Hl]. cbn [map]. eapply reaches_cons; [by apply step_sw|]. intros m1 H1.
    eapply reaches_ext; [..|by apply (IH _ m1 Hl H1)]; try done. intros j Hj. cbn [slot set_slot x]. unfold upds, upd.
    cbn [existsb]. destruct (existsb (Z.eqb j) l); [by rewrite orb_true_r|]. rewrite orb_false_r.
    by destruct (Z.eqb_spec j i) as [->|].
Qed.

Lemma run_lw l : forall c m, Forall (fun i => 0 < i < 32 /\ i <> SP) l -> holds c m -> x c SP = frame ->
  reaches (run (map (fun i => lw i (i * 4) SP) l)) m {| x := upds l (slot c) (x c); scratch := scratch c; slot := slot c |}.
Proof.
  induction l as [|i l IH]; intros c m Hl HC Hsp.
  - apply reaches_ret. by apply (holds_ext c).
  - apply Forall_cons in Hl as [[Hi Hn] Hl]. cbn [map]. eapply reaches_cons; [apply step_lw; [done|done|lia|done]|].
    intros m1 H1. eapply reaches_ext; [..|apply (IH _ m1 Hl H1)]; try done.
    + intros j Hj. cbn [x set_x slot]. unfold upds, upd. cbn [existsb]. destruct (existsb (Z.eqb j) l); [by rewrite orb_true_r|].
      rewrite orb_false_r. by destruct (Z.eqb_spec j i) as [->|].
    + cbn [x set_x]. unfold upd. by rewrite (proj2 (Z.eqb_neq SP i)) by congruence.
Qed.

(** The registers are saved: the frame holds them and a0 points to it. *)
Definition saved_state (c : cpu) : cpu :=
  {| x := upd REG_A0 frame (upd T0 top (upd SP frame (x c))); scratch := top;
     slot := fun j => if j =? 0 then slot c 0 else x c j |}.

Lemma saving c m : holds c m -> scratch c = top -> reaches (run save_registers) m (saved_state c).
Proof.
  intros HC Hs. destruct HR as [_ [Hz Hl] [Hh H32] _]. pose proof floor_range as Hfl. assert (Hf : u32 (top + -32 * 4) = frame).
  { unfold frame. apply u32_id. unfold is_uint, frame in *. lia. }
  assert (Ht : u32 (frame + 32 * 4) = top) by (unfold frame in *; rewrite u32_id; unfold is_uint; lia).
  assert (Hf0 : u32 (frame + 0) = frame) by (unfold frame in *; rewrite u32_id; unfold is_uint; lia).
  set (c1 := {| x := upd SP frame (x c); scratch := x c SP; slot := slot c |}).
  unfold save_registers. eapply (reaches_app _ _ _ c1).
  { eapply reaches_cons; [by apply step_swap|]. intros m1 H1. eapply reaches_cons; [by apply step_addi|].
    intros m2 H2. apply reaches_ret. eapply holds_ext; [..|exact H2]; try done. intros i Hi.
    cbn [x set_x set_scratch c1]. unfold upd. change (SP =? SP) with true. cbv iota. rewrite Hs, Hf. by destruct (i =? SP). }
  intros m2 H2. eapply reaches_app; [by apply run_sw; [repeat constructor| |]|]. intros m3 H3.
  eapply reaches_cons; [by apply step_csrr|]. intros m4 H4. eapply reaches_cons; [by apply (step_sw T0 2)|]. intros m5 H5.
  eapply reaches_cons; [by apply step_addi|]. intros m6 H6. eapply reaches_cons; [by apply step_csrw|]. intros m7 H7.
  eapply reaches_cons; [by apply step_addi|]. intros m8 H8. apply reaches_ret. eapply holds_ext; [..|exact H8].
  - intros i Hi. cbn [x set_x set_scratch set_slot saved_state c1]. unfold upd. cbn [Z.eqb Pos.eqb SP T0 REG_A0]. rewrite Ht, Hf0.
    by destruct (i =? REG_A0), (i =? T0), (i =? SP).
  - cbn [x set_x set_scratch set_slot scratch saved_state c1]. unfold upd. cbn [Z.eqb Pos.eqb SP T0]. exact Ht.
  - apply each. cbn [x set_x set_scratch set_slot scratch slot saved_state c1]. unfold upds, upd. by repeat constructor.
Qed.

(** The frame is restored, but for x0. *)
Definition restored_state (c : cpu) : cpu :=
  {| x := fun i => if i =? 0 then x c 0 else slot c i; scratch := top; slot := slot c |}.

Lemma restoring c m : holds c m -> x c SP = frame -> reaches (run restore_registers) m (restored_state c).
Proof.
  intros HC Hsp. destruct HR as [_ [Hz Hl] [Hh H32] _]. pose proof floor_range as Hfl.
  assert (Ht : u32 (frame + 32 * 4) = top) by (unfold frame in *; rewrite u32_id; unfold is_uint; lia).
  unfold restore_registers. eapply reaches_app.
  { eapply reaches_cons; [by apply (step_lw T0 2)|]. intros m1 H1. eapply reaches_cons; [by apply step_csrw|].
    intros m2 H2. apply reaches_ret. exact H2. }
  intros m2 H2. eapply reaches_app; [apply run_lw; [by repeat constructor|exact H2|exact Hsp]|]. intros m3 H3.
  eapply reaches_cons; [by apply step_addi|]. intros m4 H4. eapply reaches_cons; [by apply step_swap|]. intros m5 H5.
  apply reaches_ret. eapply holds_ext; [..|exact H5]; try done.
  - apply each. cbn [x set_x set_scratch scratch slot restored_state]. unfold upds, upd. by repeat constructor.
  - cbn [x set_x set_scratch scratch slot restored_state]. unfold upds, upd. cbn -[u32 Z.mul frame]. rewrite Hsp. exact Ht.
Qed.

(** *** The call of the handler *)

Lemma load_words_are c m n : forall j, holds c m -> 0 <= j -> j + Z.of_nat n <= 32 ->
  load_words n (frame + 4 * j) m = Ok (map (slot c) (seqZ j (Z.of_nat n))) m.
Proof.
  induction n as [|n IH]; intros j HC Hj Hn; [done|]. cbn [load_words]. unfold bind at 1, mmu_read32.
  rewrite (frame_load c m j HC) by lia. unfold bind. replace (frame + 4 * j + 4) with (frame + 4 * (j + 1)) by lia.
  rewrite IH by (done || lia). rewrite (seqZ_cons j (Z.of_nat (S n))) by lia. unfold ret. cbn [map].
  do 4 f_equal; lia.
Qed.

Context (clobber : Z -> Z) (Hclobber : forall i, is_uint 32 (clobber i)).

Lemma overwriting l : forall c m, Forall (fun i => 0 < i < 32) l -> holds c m ->
  reaches (modify (overwritten clobber l)) m {| x := upds l clobber (x c); scratch := scratch c; slot := slot c |}.
Proof.
  induction l as [|i l IH]; intros c m Hl HC.
  - exists m. split; [done|]. split; [done|]. by apply (holds_ext c).
  - apply Forall_cons in Hl as [Hi Hl]. destruct (changed_reg c i (clobber i) m HC Hi (Hclobber i)) as [K1 H1].
    destruct (IH _ _ Hl H1) as (m2 & E2 & K2 & H2). exists m2. split; [exact E2|]. split; [by transitivity (wr_reg i (clobber i) m)|].
    eapply holds_ext; [..|exact H2]; try done. intros j Hj. cbn [x set_x]. unfold upds, upd. cbn [existsb].
    destruct (existsb (Z.eqb j) l); [by rewrite orb_true_r|]. rewrite orb_false_r. by destruct (Z.eqb_spec j i) as [->|].
Qed.

Definition frame_of (c : cpu) : trap_frame := {| regs := map (slot c) (seqZ 0 32) |}.

Lemma frame_of_reg c i : 0 <= i < 32 -> frame_reg (frame_of c) i = slot c i.
Proof.
  intros Hi. unfold frame_reg, frame_of, arr. cbn [regs]. rewrite list_lookup_fmap.
  rewrite (proj2 (lookup_seqZ 0 32 (Z.to_nat i) i)) by lia. done.
Qed.

Lemma frame_of_ok c m : holds c m -> frame_ok (frame_of c).
Proof.
  intros HC. split; [done|]. cbn [frame_of regs]. apply Forall_map, Forall_forall. intros j Hj%elem_of_seqZ.
  apply (slot_uint c m); [done|lia].
Qed.

(** The frame after the handler has answered. *)
Definition answered (f : trap_frame) (c : cpu) : cpu :=
  {| x := upds caller_saved clobber (x c); scratch := scratch c;
     slot := upd REG_A1 (u32 (frame_reg f REG_A1)) (upd REG_A0 (u32 (frame_reg f REG_A0)) (slot c)) |}.

Lemma calling c m0 m f m1 :
  holds c m0 -> x c REG_A0 = frame -> x c SP = frame -> store_bytes locals floor m0 = Ok tt m ->
  fw_trap_handler (frame_of c) m = Ok (Returns f) m1 -> holds c m1 ->
  exists m2, call_handler clobber locals m0 = Ok (Returns tt) m2 /\ kept m1 m2 /\ holds (answered f c) m2.
Proof.
  intros HC Ha Hsp EL0 E H1. destruct (frame_store c m1 REG_A0 (frame_reg f REG_A0) H1) as (m2 & E2 & K2 & H2); [done|].
  destruct (frame_store _ m2 REG_A1 (frame_reg f REG_A1) H2) as (m3 & E3 & K3 & H3); [done|].
  destruct (overwriting caller_saved _ m3 ltac:(by repeat constructor) H3) as (m4 & E4 & K4 & H4).
  destruct (next_reaches _ _ H4) as (m5 & E5 & K5 & H5). exists m5. split; [|split].
  - unfold call_handler, bind at 1, gets. rewrite (ho_x _ _ HC REG_A0), Ha by done. unfold bind at 1, gets.
    rewrite (ho_x _ _ HC SP), Hsp by done. unfold bind at 1.
    pose proof (load_words_are c m0 32 0 HC ltac:(lia) ltac:(lia)) as EL. rewrite Z.mul_0_r, Z.add_0_r in EL. rewrite EL.
    unfold bind at 1. fold floor. rewrite EL0. unfold fw_bind, bind at 1. change (map (slot c) (seqZ 0 (Z.of_nat 32))) with (regs (frame_of c)).
    change {| regs := regs (frame_of c) |} with (frame_of c). rewrite E. unfold plain, store_results, mmu_write32, bind.
    by rewrite E2, E3, E4, E5.
  - transitivity m2; [done|]. transitivity m3; [done|]. by transitivity m4.
  - exact H5.
Qed.

(** What the handler of an ecall keeps. *)
Lemma served_holds c m m1 v :
  served m m1 -> holds c m -> holds c (set_m_hart (put_csr_blob CSR_ADDRESS_MEPC v (m_hart m1)) m1).
Proof.
  intros [Ec Es El Er Ep Em Ei Erom Eo Eb Eh Ew Ed] [A1 A2 A3 A4 A5 A6 A7 A8 A9 A10].
  split; cbn [m_hart set_m_hart pmr_ops bootrom]; try done.
  - exact (eq_trans El A1).
  - cbn [bank_wf machine_bank hart_bank m_hart set_m_hart] in *.
    change (registers (put_csr_blob _ _ (m_hart m1))) with (registers (m_hart m1)).
    change (pc (put_csr_blob _ _ (m_hart m1))) with (pc (m_hart m1)). by rewrite Er, Ep.
  - exact (eq_trans Em A3).
  - intros e He. rewrite shape_put. unfold csr_at. rewrite Ec. by apply A4.
  - by rewrite Eo.
  - by rewrite Erom.
  - intros i Hi. rewrite <- A7 by done. change (HART_REG (m_hart m1) i = HART_REG (m_hart m) i). unfold HART_REG. by rewrite Er.
  - rewrite blob_put. cbn [Z.eqb Pos.eqb CSR_ADDRESS_MSCRATCH CSR_ADDRESS_MEPC]. unfold blob, csr_at. by rewrite Ec.
  - intros j Hj. rewrite <- A10 by done. unfold word. cbn [bootrom set_m_hart]. by rewrite Erom.
Qed.

(** ** A call of the supervisor *)

Lemma mret_csrs h h' : privilege_level h = PRIVILEGE_LEVEL_MACHINE -> mret_callback h = Ok tt h' -> csrs_base h' = csrs_base h.
Proof.
  intros Hp. unfold mret_callback, assert_hart_running_in_mmode, adjust_mstatus_upon_mret, bind, gets, get, ASSERT.
  rewrite Hp. cbn [negb Z.eqb Pos.eqb PRIVILEGE_LEVEL_MACHINE]. unfold ret at 1. case_test; [|done]. unfold ret, modify, adjust_pc_upon_mret.
  intros E'. injection E' as <-. unfold flush_translation_cache_on_address_space_change. by case_test.
Qed.

(** The stack of the hart the machine runs on. *)
Record on_stack (m : machine) : Prop := {
  os_scratch : blob (m_hart m) CSR_ADDRESS_MSCRATCH = top;
  os_region : forall a, top - FW_STACK_SIZE <= a < top -> search_pm_region_callback (pmr_ops m) a = Some (Some rom);
  os_size : addr_high rom - addr_low rom <= mem_size (bootrom m);
  os_vector : is_uint 32 (blob (m_hart m) CSR_ADDRESS_MTVEC)
}.

(** The registers as the vector saves them. *)
Definition registers_frame (m : machine) : trap_frame := {| regs := map (fun i => rd_reg i m) (seqZ 0 32) |}.

Definition cpu_of (m : machine) : cpu := {| x := fun i => rd_reg i m; scratch := top; slot := fun j => word j m |}.

Lemma registers_frame_reg m i : 0 <= i < 32 -> frame_reg (registers_frame m) i = rd_reg i m.
Proof. exact (frame_of_reg {| x := fun _ => 0; scratch := 0; slot := fun i => rd_reg i m |} i). Qed.

(** The vector from a trap to its mret. *)
Lemma vector_runs m (P : trap_frame -> Prop) v :
  let c := saved_state (cpu_of m) in
  holds (cpu_of m) m ->
  (forall m1, kept m m1 -> holds c m1 -> exists f m3, served m1 m3 /\ P f /\
     fw_trap_handler (frame_of c) m1 = Ok (Returns f) (set_m_hart (put_csr_blob CSR_ADDRESS_MEPC v (m_hart m3)) m3)) ->
  mpp (status (m_hart m)) = PRIVILEGE_LEVEL_SUPERVISOR ->
  exists f m' m4, P f /\ fw_trap_vector clobber locals m = Ok (Returns tt) m' /\
    holds (restored_state (answered f c)) m4 /\ bootrom m' = bootrom m4 /\
    pc (m_hart m') = v /\ privilege_level (m_hart m') = PRIVILEGE_LEVEL_SUPERVISOR /\
    mie (status (m_hart m')) = mpie (status (m_hart m)) /\ registers (m_hart m') = registers (m_hart m4) /\
    csrs_base (m_hart m') = csrs_base (m_hart m4) /\
    (forall a, a < floor - addr_low rom \/ top - addr_low rom <= a -> mem_byte (bootrom m') a = mem_byte (bootrom m) a).
Proof.
  intros c HC Hh Hm. destruct (saving _ m HC eq_refl) as (m01 & E1 & K01 & H01). fold c in H01.
  destruct (locals_store locals c m01 floor H01 ltac:(lia) ltac:(unfold floor; lia)) as (m1 & EL & K11 & H1).
  assert (kept m m1) as K1 by by transitivity m01.
  destruct (Hh m1 K1 H1) as (f & m3 & S3 & HPf & E3). pose proof (served_holds c m1 m3 v S3 H1) as H3.
  set (m3' := set_m_hart _ m3) in *.
  destruct (calling c m01 m1 f m3' H01 eq_refl eq_refl EL E3 H3) as (m5 & E5 & K5 & H5).
  destruct (restoring _ m5 H5) as (m4 & E4 & K4 & H4); [done|].
  assert (K34 : kept m3' m4) by by transitivity m5. destruct K34 as [_ Kb Ks _ _ _ _ _ Ko].
  assert (status (m_hart m4) = status (m_hart m)) as Hst.
  { rewrite Ks. change (status (m_hart m3') ) with (status (m_hart m3)). by rewrite (se_status _ _ S3), (kp_status _ _ K1). }
  destruct (mret_callback_eq (m_hart m4)) as (h & Er & G1 & G2 & G3 & G4).
  { apply (ho_level _ _ H4). }
  { rewrite Hst, Hm. right. by left. }
  exists f, (set_m_hart h m4), m4. split; [done|]. split.
  - unfold fw_trap_vector, fw_bind, plain, bind at 1 2. rewrite E1. unfold ret at 1. unfold bind at 1. rewrite E5.
    unfold bind. rewrite E4. cbn [execute_rv32 execute_sys]. unfold bind, on_hart, zoom. by rewrite Er.
  - split; [exact H4|]. split; [done|]. cbn [m_hart set_m_hart bootrom]. rewrite G1, G2, G3, G4, Hst, Hm.
    rewrite Kb by done. split; [unfold m3'; cbn [m_hart set_m_hart]; by rewrite blob_put|]. do 3 (split; [done|]).
    split; [by apply mret_csrs; [apply H4|]|]. intros a Ha. rewrite Ko by done. unfold m3'. cbn [bootrom set_m_hart].
    by rewrite (se_rom _ _ S3), (kp_outside _ _ K1).
Qed.

Lemma ecall_trap h :
  privilege_level h = PRIVILEGE_LEVEL_SUPERVISOR -> Z.testbit (blob h CSR_ADDRESS_MEDELEG) 9 = false ->
  is_uint 32 (blob h CSR_ADDRESS_MTVEC) ->
  exists h1, ecall_callback h = Trapped h1 /\ pc h1 = trap_vector (blob h CSR_ADDRESS_MTVEC) CAUSE_SUPERVISOR_ECALL /\
    is_uint 32 (pc h1) /\ privilege_level h1 = PRIVILEGE_LEVEL_MACHINE /\ registers h1 = registers h /\
    hart_magic h1 = hart_magic h /\ hart_id h1 = hart_id h /\
    mpp (status h1) = PRIVILEGE_LEVEL_SUPERVISOR /\ mpie (status h1) = mie (status h) /\
    blob h1 CSR_ADDRESS_MCAUSE = CAUSE_SUPERVISOR_ECALL /\ blob h1 CSR_ADDRESS_MEPC = pc h /\
    blob h1 CSR_ADDRESS_MSCRATCH = blob h CSR_ADDRESS_MSCRATCH /\
    (forall b, shape (csr_at h1 b) = shape (csr_at h b)).
Proof.
  intros Hp Hd Hv. rewrite ecall_enters by done. eexists. split; [done|].
  destruct (flush_keeps (address_space_tag h) (setup_mmode_trap CAUSE_SUPERVISOR_ECALL 0 h)) as (-> & -> & -> & -> & _ & _).
  rewrite !flush_blob. unfold setup_mmode_trap. cbv zeta.
  assert (Hpc : blob (put_csr_blob CSR_ADDRESS_MEPC (pc h) (put_csr_blob CSR_ADDRESS_MTVAL 0
    (put_csr_blob CSR_ADDRESS_MCAUSE CAUSE_SUPERVISOR_ECALL h))) CSR_ADDRESS_MTVEC = blob h CSR_ADDRESS_MTVEC) by by csr_reads.
  split; [by cbn [pc set_pc]; csr_reads|]. split.
  { change (is_uint 32 (trap_vector (blob (put_csr_blob CSR_ADDRESS_MEPC (pc h) (put_csr_blob CSR_ADDRESS_MTVAL 0
    (put_csr_blob CSR_ADDRESS_MCAUSE CAUSE_SUPERVISOR_ECALL h))) CSR_ADDRESS_MTVEC) CAUSE_SUPERVISOR_ECALL)).
    rewrite Hpc. unfold trap_vector. rewrite orb_true_r. by apply ldiff_range. }
  do 2 (split; [done|]). unfold flush_translation_cache_on_address_space_change.
  split; [by case_test|]. split; [by case_test|]. split; [exact Hp|]. split; [done|].
  do 3 (split; [by csr_reads|]). intros b. exact (entry_shape (address_space_tag h) CAUSE_SUPERVISOR_ECALL 0 h b).
Qed.

(** The hart that takes the trap, on the stack mscratch points to. *)
Lemma trapped_holds m h1 :
  guest_ok m -> hart_magic (m_hart m) = HART_MAGIC_WORD -> on_stack m -> csrs_known (m_hart m) ->
  is_uint 32 (pc h1) -> privilege_level h1 = PRIVILEGE_LEVEL_MACHINE -> registers h1 = registers (m_hart m) ->
  hart_magic h1 = hart_magic (m_hart m) ->
  blob h1 CSR_ADDRESS_MSCRATCH = blob (m_hart m) CSR_ADDRESS_MSCRATCH ->
  (forall b, shape (csr_at h1 b) = shape (csr_at (m_hart m) b)) ->
  holds (cpu_of (set_m_hart h1 m)) (set_m_hart h1 m).
Proof.
  intros [HB HZ] HM [Hs Hr Hsz _] HK Hpc Hl Hreg Hmg Hsc Hsh. destruct HR as [_ [Hz Hlo] [Hh H32] Hf]. pose proof floor_range as Hfl.
  split; cbn [m_hart set_m_hart pmr_ops bootrom x scratch slot cpu_of]; try done.
  - cbn [bank_wf machine_bank hart_bank m_hart set_m_hart] in *. rewrite Hreg. tauto.
  - by rewrite Hmg.
  - intros e He. by rewrite Hsh, HK.
  - intros a Ha. apply Hr. unfold floor, frame in *. lia.
  - change (HART_REG h1 0 = 0). unfold HART_REG. rewrite Hreg. exact HZ.
  - split; [by rewrite Hsc|]. unfold is_uint, frame in *. lia.
Qed.

End Facts.

Module Witness.
Import Concrete Board Sbi.Witness.
#[local] Existing Instance sizes.
#[local] Opaque boot_hart.

Definition rom_pmr : pm_region_operation := {| addr_low := 0; addr_high := 0x400000; pmr_callbacks := bootrom_region |}.
Definition map_of_kernel : list pm_region_operation := rom_pmr :: table.

(** The machine in the supervisor, a7 the base extension, a6 the version of SBI. *)
Definition kernel_hart (h : hart) : hart :=
  put_csr_blob CSR_ADDRESS_MTVEC 0x5000 (put_csr_blob CSR_ADDRESS_MSCRATCH 0x10000 (set_HART_REG REG_A7 SBI_EXT_BASE h)).
Definition with_rom (m : machine) : machine :=
  set_bootrom {| mem_size := 0x400000; mem_bytes := ∅ |} (set_pmr_ops map_of_kernel m).
Definition kernel_machine : machine :=
  let m := booted PRIVILEGE_LEVEL_SUPERVISOR 0 in set_m_hart (kernel_hart (m_hart m)) (with_rom m).

Lemma kernel_mapped r pa m :
  0 <= pa < 2 ^ 32 - 1 -> r ∈ map_of_kernel -> covers r pa -> pmr_ops m = map_of_kernel ->
  search_pm_region_callback (pmr_ops m) pa = Some (Some r).
Proof. intros Hpa Hr Hc ->. apply search_covers; try done. split; repeat constructor; done. Qed.

Lemma with_rom_wired m : wired m -> wired (with_rom m).
Proof.
  intros [_ _ _ _ Hb Hw Hi Hk Hd]. split; try done.
  - intros off Ho. exists clint_pmr. split; [|done]. apply kernel_mapped; [unfold CLINT_BASE; lia|do 2 right; left| |done].
    unfold covers, CLINT_BASE. cbn [addr_low addr_high clint_pmr]. lia.
  - exists uart_pmr. split; [|done]. by apply kernel_mapped; [by vm_compute|do 4 right; left|by vm_compute|].
  - exists uart_pmr. split; [|done]. by apply kernel_mapped; [by vm_compute|do 4 right; left|by vm_compute|].
  - exists syscon_pmr. split; [|done]. by apply kernel_mapped; [by vm_compute|right; left|by vm_compute|].
Qed.

Lemma kernel_hart_wired m : wired m -> wired (set_m_hart (kernel_hart (m_hart m)) m).
Proof.
  intros HW. apply wired_hart; [done| |done]. intros b. unfold kernel_hart. by do 2 (etransitivity; [apply shape_put|]).
Qed.

Lemma kernel_wired : wired kernel_machine.
Proof. exact (kernel_hart_wired _ (with_rom_wired _ (booted_wired PRIVILEGE_LEVEL_SUPERVISOR 0))). Qed.

Lemma kernel_stack : on_stack rom_pmr 0x10000 kernel_machine.
Proof.
  split; [by vm_compute| |done|by vm_compute]. intros a Ha. change (0x10000 - 8192 <= a < 0x10000) in Ha.
  apply kernel_mapped; [change (2 ^ 32) with 4294967296; lia|left|change (0 <= a < 0x400000); lia|done].
Qed.

Lemma kernel_registers : registers (m_hart kernel_machine) = set_arr REG_A7 SBI_EXT_BASE (replicate 32 0).
Proof. vm_compute. reflexivity. Qed.

Lemma kernel_guest : guest_ok kernel_machine.
Proof.
  unfold guest_ok. cbn [bank_wf rd_reg machine_bank hart_bank]. unfold HART_REG. rewrite kernel_registers.
  split; [|reflexivity]. split; [reflexivity|]. split; [by repeat constructor|]. split; vm_compute; [discriminate|reflexivity].
Qed.


(** The registers the supervisor finds: the version in a1. *)
Example version_call :
  match ecall_callback (m_hart kernel_machine) with
  | Trapped h1 =>
      match fw_trap_vector (fun _ => 0xdeadbeef) (replicate 64 0xaa) (set_m_hart h1 kernel_machine) with
      | Ok (Returns tt) m' => Some (registers (m_hart m'))
      | _ => None
      end
  | _ => None
  end = Some (set_arr REG_A7 SBI_EXT_BASE (set_arr REG_A1 SBI_SPEC_VERSION (replicate 32 0))).
Proof. vm_compute. reflexivity. Qed.
End Witness.
