(* ===== verification/Vm.v ===== *)
(** * Setting the virtual machine up

    Models src/vmm/vm.c and the init functions it calls (src/vmm/emulate_rom.c,
    src/vmm/emulate_ram.c, src/vmm/emulate_clint.c, src/vmm/emulate_plic.c,
    src/vmm/emulate_uart.c, src/vmm/emulate_syscon.c), src/vmm/util.c and
    src/vmm/main.c, as programs over the state they fill in. The configuration is a
    split file of Ini.v; the host's files are a function from a path to the contents,
    if the file can be opened. Host allocations succeed for sizes above zero.

    Proved here: what a configuration sets up. For every configuration of this
    platform, the machine [main] resumes is wired as the firmware expects, its hart is
    ready to run, and its memories hold the images, the device tree and the boot info
    the configuration describes. *)

From S2P Require Import Amo Prelude Ini Monad Bytes SortSearch PmRegion X86 Hart Trap Clint Plic.
From S2P Require Import Uart Machine Mmu Console CsrHandlers Csr Interrupt Debug Fdt DeviceTree.
From S2P Require Import Rv32 Decode Refine Engine Calls Run Sbi.
Local Open Scope Z_scope.

Definition SYSCON_BASE_DEFAULT : Z := 0x00400000.
Definition ZELDA_BOOT_INFO_ADDRESS : Z := 0x3000.
Definition ZELDA_BOOT_INFO_MAGIC : Z := 0x5a424f49.

(** [struct virtual_machine] with the static state of the devices, which is in the
    machine but for the sizes kept here. [vm_machine] is the machine as the boot hart
    sees it.
    src/vmm/vm.h:14-35 virtual_machine *)
Record virtual_machine := {
  vm_nr_harts : Z;
  vm_boot_hart : Z;
  vm_harts : list hart;
  vm_mem_base : Z;
  vm_mem_size : Z;
  vm_rom_base : Z;
  vm_rom_size : Z;
  plic_size : Z;
  vm_syscon_base : Z;
  vm_syscon_size : Z;
  vm_fdt : fdt_build_blob;
  vm_machine : machine
}.

Definition set_vm_nr_harts v (v0 : virtual_machine) : virtual_machine :=
  {| vm_nr_harts := v; vm_boot_hart := vm_boot_hart v0; vm_harts := vm_harts v0; vm_mem_base :=
     vm_mem_base v0; vm_mem_size := vm_mem_size v0; vm_rom_base := vm_rom_base v0; vm_rom_size :=
     vm_rom_size v0; plic_size := plic_size v0; vm_syscon_base := vm_syscon_base v0; vm_syscon_size
     := vm_syscon_size v0; vm_fdt := vm_fdt v0; vm_machine := vm_machine v0 |}.
Definition set_vm_boot_hart v (v0 : virtual_machine) : virtual_machine :=
  {| vm_nr_harts := vm_nr_harts v0; vm_boot_hart := v; vm_harts := vm_harts v0; vm_mem_base :=
     vm_mem_base v0; vm_mem_size := vm_mem_size v0; vm_rom_base := vm_rom_base v0; vm_rom_size :=
     vm_rom_size v0; plic_size := plic_size v0; vm_syscon_base := vm_syscon_base v0; vm_syscon_size
     := vm_syscon_size v0; vm_fdt := vm_fdt v0; vm_machine := vm_machine v0 |}.
Definition set_vm_harts v (v0 : virtual_machine) : virtual_machine :=
  {| vm_nr_harts := vm_nr_harts v0; vm_boot_hart := vm_boot_hart v0; vm_harts := v; vm_mem_base
     := vm_mem_base v0; vm_mem_size := vm_mem_size v0; vm_rom_base := vm_rom_base v0; vm_rom_size
     := vm_rom_size v0; plic_size := plic_size v0; vm_syscon_base := vm_syscon_base v0;
     vm_syscon_size := vm_syscon_size v0; vm_fdt := vm_fdt v0; vm_machine := vm_machine v0 |}.
Definition set_vm_mem_base v (v0 : virtual_machine) : virtual_machine :=
  {| vm_nr_harts := vm_nr_harts v0; vm_boot_hart := vm_boot_hart v0; vm_harts := vm_harts v0;
     vm_mem_base := v; vm_mem_size := vm_mem_size v0; vm_rom_base := vm_rom_base v0; vm_rom_size :=
     vm_rom_size v0; plic_size := plic_size v0; vm_syscon_base := vm_syscon_base v0; vm_syscon_size
     := vm_syscon_size v0; vm_fdt := vm_fdt v0; vm_machine := vm_machine v0 |}.
Definition set_vm_mem_size v (v0 : virtual_machine) : virtual_machine :=
  {| vm_nr_harts := vm_nr_harts v0; vm_boot_hart := vm_boot_hart v0; vm_harts := vm_harts v0;
     vm_mem_base := vm_mem_base v0; vm_mem_size := v; vm_rom_base := vm_rom_base v0; vm_rom_size :=
     vm_rom_size v0; plic_size := plic_size v0; vm_syscon_base := vm_syscon_base v0; vm_syscon_size
     := vm_syscon_size v0; vm_fdt := vm_fdt v0; vm_machine := vm_machine v0 |}.
Definition set_vm_rom_base v (v0 : virtual_machine) : virtual_machine :=
  {| vm_nr_harts := vm_nr_harts v0; vm_boot_hart := vm_boot_hart v0; vm_harts := vm_harts v0;
     vm_mem_base := vm_mem_base v0; vm_mem_size := vm_mem_size v0; vm_rom_base := v; vm_rom_size :=
     vm_rom_size v0; plic_size := plic_size v0; vm_syscon_base := vm_syscon_base v0; vm_syscon_size
     := vm_syscon_size v0; vm_fdt := vm_fdt v0; vm_machine := vm_machine v0 |}.
Definition set_vm_rom_size v (v0 : virtual_machine) : virtual_machine :=
  {| vm_nr_harts := vm_nr_harts v0; vm_boot_hart := vm_boot_hart v0; vm_harts := vm_harts v0;
     vm_mem_base := vm_mem_base v0; vm_mem_size := vm_mem_size v0; vm_rom_base := vm_rom_base v0;
     vm_rom_size := v; plic_size := plic_size v0; vm_syscon_base := vm_syscon_base v0;
     vm_syscon_size := vm_syscon_size v0; vm_fdt := vm_fdt v0; vm_machine := vm_machine v0 |}.
Definition set_plic_size v (v0 : virtual_machine) : virtual_machine :=
  {| vm_nr_harts := vm_nr_harts v0; vm_boot_hart := vm_boot_hart v0; vm_harts := vm_harts v0;
     vm_mem_base := vm_mem_base v0; vm_mem_size := vm_mem_size v0; vm_rom_base := vm_rom_base v0;
     vm_rom_size := vm_rom_size v0; plic_size := v; vm_syscon_base := vm_syscon_base v0;
     vm_syscon_size := vm_syscon_size v0; vm_fdt := vm_fdt v0; vm_machine := vm_machine v0 |}.
Definition set_vm_syscon_base v (v0 : virtual_machine) : virtual_machine :=
  {| vm_nr_harts := vm_nr_harts v0; vm_boot_hart := vm_boot_hart v0; vm_harts := vm_harts v0;
     vm_mem_base := vm_mem_base v0; vm_mem_size := vm_mem_size v0; vm_rom_base := vm_rom_base v0;
     vm_rom_size := vm_rom_size v0; plic_size := plic_size v0; vm_syscon_base := v; vm_syscon_size
     := vm_syscon_size v0; vm_fdt := vm_fdt v0; vm_machine := vm_machine v0 |}.
Definition set_vm_syscon_size v (v0 : virtual_machine) : virtual_machine :=
  {| vm_nr_harts := vm_nr_harts v0; vm_boot_hart := vm_boot_hart v0; vm_harts := vm_harts v0;
     vm_mem_base := vm_mem_base v0; vm_mem_size := vm_mem_size v0; vm_rom_base := vm_rom_base v0;
     vm_rom_size := vm_rom_size v0; plic_size := plic_size v0; vm_syscon_base := vm_syscon_base v0;
     vm_syscon_size := v; vm_fdt := vm_fdt v0; vm_machine := vm_machine v0 |}.
Definition set_vm_fdt v (v0 : virtual_machine) : virtual_machine :=
  {| vm_nr_harts := vm_nr_harts v0; vm_boot_hart := vm_boot_hart v0; vm_harts := vm_harts v0;
     vm_mem_base := vm_mem_base v0; vm_mem_size := vm_mem_size v0; vm_rom_base := vm_rom_base v0;
     vm_rom_size := vm_rom_size v0; plic_size := plic_size v0; vm_syscon_base := vm_syscon_base v0;
     vm_syscon_size := vm_syscon_size v0; vm_fdt := v; vm_machine := vm_machine v0 |}.
Definition set_vm_machine v (v0 : virtual_machine) : virtual_machine :=
  {| vm_nr_harts := vm_nr_harts v0; vm_boot_hart := vm_boot_hart v0; vm_harts := vm_harts v0;
     vm_mem_base := vm_mem_base v0; vm_mem_size := vm_mem_size v0; vm_rom_base := vm_rom_base v0;
     vm_rom_size := vm_rom_size v0; plic_size := plic_size v0; vm_syscon_base := vm_syscon_base v0;
     vm_syscon_size := vm_syscon_size v0; vm_fdt := vm_fdt v0; vm_machine := v |}.

Definition config_of (v : virtual_machine) : platform_config :=
  {| nr_harts := vm_nr_harts v; main_mem_base := vm_mem_base v; main_mem_size := vm_mem_size v;
     bootrom_base := vm_rom_base v; bootrom_size := vm_rom_size v;
     pc_clint_base := clint_base (clint (vm_machine v)); pc_clint_size := clint_size (clint (vm_machine v));
     pc_plic_base := plic_base (plic (vm_machine v)); pc_plic_size := plic_size v;
     syscon_base := vm_syscon_base v; syscon_size := vm_syscon_size v |}.

Abbreviation setup := (prog virtual_machine).

Definition on_machine {A} (m : prog machine A) : setup A := zoom vm_machine set_vm_machine m.
Definition on_fdt {A} (m : build A) : setup A := zoom vm_fdt set_vm_fdt m.

(** Bytes laid down in a memory. *)
Fixpoint store_list (off : Z) (l : list Z) (b : gmap Z Z) : gmap Z Z :=
  match l with
  | [] => b
  | c :: l => <[off := c]> (store_list (off + 1) l b)
  end.

Definition lay (off : Z) (l : list Z) (m : memory) : option memory :=
  if in_bounds off (len l) m
  then Some {| mem_size := mem_size m; mem_bytes := store_list off l (mem_bytes m) |}
  else None.

Section Setup.
Context (file : list Z -> option (list Z)).

Section Configured.
Context (ini : list Z).

Definition conf (section key : string) : setup (list Z) := of_opt (ini_string ini section key).

(** src/vmm/util.c:8-19 image_file_size *)
Definition image_file_size (image_path : list Z) : Z :=
  match file image_path with Some c => len c | None => 0 end.

(** Whether the whole file was read, and the memory with what was; [addr] is an offset
    in the allocation.
    src/vmm/util.c:21-46 preload_binary_image *)
Definition preload_binary_image (addr length : Z) (image_path : list Z) (m : memory) : option (bool * memory) :=
  match file image_path with
  | None => Some (false, m)
  | Some image =>
      if length <? 0 then None
      else m' ← lay addr (take (Z.to_nat (Z.min length (len image))) image) m; Some (len image <=? length, m')
  end.

(** The zeroed pages of an allocation, which fails for no bytes at all. *)
Definition preallocate_physical_memory (nr_bytes : Z) : option memory :=
  if 0 <? nr_bytes then Some {| mem_size := nr_bytes; mem_bytes := ∅ |} else None.

Definition register_region (low size : Z) (kind : region_kind) : setup unit :=
  on_machine (try_modify (fun m =>
    ops ← register_pm_region_operation (pmr_ops m)
      {| addr_low := u32 low; addr_high := u32 (low + size); pmr_callbacks := kind |};
    Some (set_pmr_ops ops m))).

Definition number (base : Z) (section key : string) : setup Z :=
  let* s := conf section key in ret (strtol base s).

(** src/vmm/emulate_rom.c:73-105 bootrom_init *)
Definition bootrom_init : setup unit :=
  let* rom_start := number 16 "rom" "rom_start" in
  let* rom_size := number 16 "rom" "rom_size" in
  modify (fun v => set_vm_rom_size rom_size (set_vm_rom_base rom_start v)) ;;;
  let* rom := of_opt (preallocate_physical_memory rom_size) in
  on_machine (modify (set_bootrom rom)) ;;;
  register_region rom_start rom_size bootrom_region ;;;
  let* rom_image := conf "rom" "rom_image" in
  let* pc_string := number 16 "cpu" "pc_on_reset" in
  let pc_on_reset := u32 pc_string in
  let* loaded := of_opt (preload_binary_image (pc_on_reset - rom_start)
    (rom_size - pc_on_reset + rom_start) rom_image rom) in
  ASSERT loaded.1 ;;;
  on_machine (modify (set_bootrom loaded.2)).

(** src/vmm/emulate_ram.c:65-120 ram_init *)
Definition ram_init : setup unit :=
  let* ram_start := number 16 "mem" "main_memory_start" in
  let* ram_size := number 10 "mem" "main_memory_size_in_mega" in
  let base := u32 ram_start in
  let size := u32 (1024 * 1024 * u32 ram_size) in
  modify (fun v => set_vm_mem_size size (set_vm_mem_base base v)) ;;;
  let* ram := of_opt (preallocate_physical_memory size) in
  on_machine (modify (set_ram ram)) ;;;
  register_region base size ram_region ;;;
  let* image_path := conf "image" "kernel" in
  let* load_base := number 16 "image" "kernel_load_base" in
  let load_base := u32 load_base in
  ASSERT ((base <=? load_base) && (load_base <? base + size)) ;;;
  let* loaded := of_opt (preload_binary_image (load_base - base) (size - (load_base - base)) image_path ram) in
  on_machine (modify (set_ram loaded.2)) ;;;
  (if loaded.1 then ret tt else fun v => Exited 1 v) ;;;
  match ini_string ini "image" "initrd", ini_string ini "image" "initrd_load_base" with
  | Some initrd_path, Some initrd_load_base_string =>
      let initrd_load_base := u32 (strtol 16 initrd_load_base_string) in
      let* initrd := of_opt (preload_binary_image (initrd_load_base - base)
        (size - initrd_load_base + base) initrd_path loaded.2) in
      ASSERT initrd.1 ;;;
      on_machine (modify (set_ram initrd.2))
  | _, _ => ret tt
  end.

(** The fresh allocations hold anything; every entry is made invalid.
    src/vmm/vm.c:30-38 hart_tlb_init *)
Definition hart_tlb_init (h : hart) : hart :=
  set_dtlb (invalidate_tlb (dtlb_cap h) ∅) (set_itlb (invalidate_tlb (itlb_cap h) ∅) h).

(** The two loops over the harts, one hart at a time: the second reads and writes
    nothing the first sets.
    src/vmm/vm.c:58-76 cpu_init *)
Fixpoint init_harts (rest : nat) (idx pc_on_reset itlb_size dtlb_size : Z) : option (list hart) :=
  match rest with
  | O => Some []
  | S rest =>
      h ← hart_init idx;
      hs ← init_harts rest (idx + 1) pc_on_reset itlb_size dtlb_size;
      Some (hart_tlb_init (set_dtlb_cap dtlb_size (set_itlb_cap itlb_size (set_pc pc_on_reset h))) :: hs)
  end.

(** src/vmm/vm.c:40-77 cpu_init *)
Definition cpu_init : setup unit :=
  let* nr := number 10 "cpu" "nr_cpus" in
  let nr := s32 nr in
  let boot := match ini_string ini "cpu" "boot_cpu" with Some s => s32 (strtol 10 s) | None => 0 end in
  modify (fun v => set_vm_boot_hart boot (set_vm_nr_harts nr v)) ;;;
  ASSERT (0 <=? nr) ;;;
  let* pc_on_reset := number 16 "cpu" "pc_on_reset" in
  let* itlb_size := number 16 "cpu" "itlb_size" in
  let* dtlb_size := number 16 "cpu" "dtlb_size" in
  let* harts := of_opt (init_harts (Z.to_nat nr) 0 (u32 pc_on_reset) (u32 itlb_size) (u32 dtlb_size)) in
  modify (set_vm_harts harts).

(** src/vmm/emulate_clint.c:158-186 clint_init *)
Definition clint_set_up : setup unit :=
  let* base := number 16 "cpu" "clint_base" in
  let* size := number 16 "cpu" "clint_size" in
  let* nr := gets vm_nr_harts in
  ASSERT (nr <=? MAX_NR_HARTS) ;;;
  on_machine (modify (set_clint (clint_init (u32 base) (u32 size) nr))) ;;;
  register_region (u32 base) (u32 size) clint_region.

Definition number_or (default_value : Z) (section key : string) : Z :=
  match ini_string ini section key with Some s => u32 (strtol 16 s) | None => default_value end.

(** src/vmm/emulate_plic.c:233-254 plic_init *)
Definition plic_set_up : setup unit :=
  let base := number_or 0x0c000000 "cpu" "plic_base" in
  let size := number_or 0x04000000 "cpu" "plic_size" in
  let* nr := gets vm_nr_harts in
  ASSERT (nr * PLIC_CONTEXTS_PER_HART <=? MAX_NR_HARTS * PLIC_CONTEXTS_PER_HART) ;;;
  modify (set_plic_size size) ;;;
  on_machine (modify (set_plic (plic_init base nr))) ;;;
  register_region base size plic_region.

(** [attached] is whether the terminal could be set up.
    src/vmm/emulate_uart.c:357-372 uart_init *)
Definition uart_set_up (attached : bool) : setup unit :=
  on_machine (modify (set_uart (uart_init attached))) ;;;
  register_region UART_16550_BASE 0x100 uart_region.

(** src/vmm/emulate_syscon.c:77-91 syscon_init *)
Definition syscon_init : setup unit :=
  modify (fun v => set_vm_syscon_size 0x1000 (set_vm_syscon_base SYSCON_BASE_DEFAULT v)) ;;;
  register_region SYSCON_BASE_DEFAULT 0x1000 syscon_region.

(** src/vmm/vm.c:21-28 device_init *)
Definition device_init (attached : bool) : setup unit :=
  clint_set_up ;;;
  plic_set_up ;;;
  uart_set_up attached ;;;
  syscon_init.

(** [strtok] with a space, [cur] being the token under way, reversed. *)
Fixpoint words (s cur : list Z) : list (list Z) :=
  let flush := match cur with [] => [] | _ => [rev cur] end in
  match s with
  | [] => flush
  | c :: s => if c =? 32 then flush ++ words s [] else words s (c :: cur)
  end.

(** What [strtok] does to the string: the space behind a token becomes a zero. *)
Fixpoint strtok_cuts (s : list Z) (in_token : bool) : list Z :=
  match s with
  | [] => []
  | c :: s =>
      if c =? 32 then (if in_token then 0 else c) :: strtok_cuts s false else c :: strtok_cuts s true
  end.

(** The configuration with the value that a lookup found cut in place. *)
Definition cut_value (section key : string) (value : list Z) : list Z :=
  match ini_find ini (text section) (text key) with
  | Some (Some p) => list_inserts p (strtok_cuts value false) ini
  | _ => ini
  end.

(** src/vmm/vm.c:93-99 misc_init *)
Fixpoint add_breakpoints (bps : list (list Z)) : prog machine unit :=
  match bps with
  | [] => ret tt
  | bp :: bps =>
      let* known := gets breakpoints in
      let* r := of_opt (add_breakpoint (u32 (strtol 16 bp)) known) in
      modify (set_breakpoints r.2) ;;;
      add_breakpoints bps
  end.

(** With the configuration it leaves: the tokens are cut off in its own buffer.
    src/vmm/vm.c:79-100 misc_init *)
Definition misc_init : setup (list Z) :=
  (match ini_string ini "cpu" "ticks_per_translation_unit" with
   | Some s => on_machine (set_ticks (u64 (strtol 10 s)))
   | None => ret tt
   end) ;;;
  match ini_string ini "debug" "breakpoints" with
  | Some s => on_machine (add_breakpoints (words s [])) ;;; ret (cut_value "debug" "breakpoints" s)
  | None => ret ini
  end.

(** The device tree, and its copy in the boot rom.
    src/vmm/fdt.c:353-358 fdt_init *)
Definition fdt_set_up : setup unit :=
  let* v := get in
  let* dtb := on_fdt (fdt_init (config_of v) ini image_file_size) in
  on_machine (try_modify (fun m =>
    rom ← lay (ZELDA_DTB_ADDRESS - vm_rom_base v) dtb (bootrom m); Some (set_bootrom rom m))).

(** [struct zelda_boot_info], a word per field.
    src/bootrom/zelda_boot_info.h:38-47 zelda_boot_info *)
Record zelda_boot_info := {
  bi_magic : Z; bi_kernel_entry : Z; bi_dtb_address : Z; bi_initrd_start : Z;
  bi_initrd_end : Z; bi_memory_start : Z; bi_memory_size : Z; bi_nr_harts : Z
}.

Definition boot_info_bytes (i : zelda_boot_info) : list Z :=
  le32 (bi_magic i) ++ le32 (bi_kernel_entry i) ++ le32 (bi_dtb_address i) ++ le32 (bi_initrd_start i) ++
  le32 (bi_initrd_end i) ++ le32 (bi_memory_start i) ++ le32 (bi_memory_size i) ++ le32 (bi_nr_harts i).

(** src/vmm/vm.c:108-137 boot_info_init *)
Definition boot_info_init : setup unit :=
  let* kernel_entry := number 16 "image" "kernel_load_base" in
  let* v := get in
  ASSERT ((vm_rom_base v <=? ZELDA_BOOT_INFO_ADDRESS) &&
          (ZELDA_BOOT_INFO_ADDRESS + 32 <? vm_rom_base v + vm_rom_size v)) ;;;
  let '(initrd_start, initrd_end) := default (0, 0) (initrd_range ini image_file_size) in
  let info := {| bi_magic := ZELDA_BOOT_INFO_MAGIC; bi_kernel_entry := u32 kernel_entry;
                 bi_dtb_address := ZELDA_DTB_ADDRESS; bi_initrd_start := initrd_start;
                 bi_initrd_end := initrd_end; bi_memory_start := u32 (vm_mem_base v);
                 bi_memory_size := u32 (vm_mem_size v); bi_nr_harts := u32 (vm_nr_harts v) |} in
  on_machine (try_modify (fun m =>
    rom ← lay (ZELDA_BOOT_INFO_ADDRESS - vm_rom_base v) (boot_info_bytes info) (bootrom m);
    Some (set_bootrom rom m))).

End Configured.

(** src/vmm/vm.c:139-155 virtual_machine_init *)
Definition virtual_machine_init (ini : list Z) (attached : bool) : setup unit :=
  bootrom_init ini ;;;
  ram_init ini ;;;
  cpu_init ini ;;;
  device_init ini attached ;;;
  let* ini := misc_init ini in
  fdt_set_up ini ;;;
  boot_info_init ini.

(** [vm] after [memset], and the static state before [main]; no hart runs yet. *)
Definition memory_none : memory := {| mem_size := 0; mem_bytes := ∅ |}.

Definition machine_off (keys : list (list Z)) (lines : list string) : machine :=
  {| m_hart := fresh_hart 0; pmr_ops := []; ram := memory_none; bootrom := memory_none;
     clint := {| clint_base := 0; clint_size := 0; clint_nr_harts := 0; mtime := 0;
                 mtimecmp := replicate (Z.to_nat MAX_NR_HARTS) 0;
                 msip := replicate (Z.to_nat MAX_NR_HARTS) 0 |};
     plic := plic_init 0 0; uart := uart_init false; terminal := []; keyboard := keys;
     reservations := replicate (Z.to_nat MAX_RESERVATION_ITEMS) no_reservation;
     next_pointer := 0; poll_countdown := 0; ticks_per_translation_unit := 2;
     breakpoints := []; stdin_lines := lines; last_tokens := [] |}.

Definition vm_off (m : machine) : virtual_machine :=
  {| vm_nr_harts := 0; vm_boot_hart := 0; vm_harts := []; vm_mem_base := 0; vm_mem_size := 0;
     vm_rom_base := 0; vm_rom_size := 0; plic_size := 0; vm_syscon_base := 0; vm_syscon_size := 0;
     vm_fdt := empty_blob 0 0; vm_machine := m |}.

(** src/vmm/vm.h:37-43 hart_by_id *)
Definition hart_by_id (v : virtual_machine) (id : Z) : setup hart :=
  ASSERT ((0 <=? id) && (id <? vm_nr_harts v)) ;;; of_opt (vm_harts v !! Z.to_nat id).

(** Up to [vmresume], with the machine it is called for.
    src/vmm/main.c:25-42 main *)
Definition main_until_resume (config : list Z) (attached : bool) : setup machine :=
  match file config with
  | None => fun v => Exited 2 v
  | Some contents =>
      let* ini := of_opt (ini_load contents) in
      virtual_machine_init ini attached ;;;
      let* v := get in
      let* h := hart_by_id v (vm_boot_hart v) in
      ret (set_m_hart h (vm_machine v))
  end.
End Setup.

(** ** Harts *)

(** What the resets leave alone. *)
Record framed (h h' : hart) : Prop := {
  fr_registers : registers h' = registers h;
  fr_pc : pc h' = pc h;
  fr_id : hart_id h' = hart_id h;
  fr_nr : nr_translated_instructions h' = nr_translated_instructions h;
  fr_mappings : pc_mappings h' = pc_mappings h;
  fr_ptr : translation_cache_ptr h' = translation_cache_ptr h;
  fr_magic : hart_magic h' = hart_magic h
}.

#[export] Instance framed_preorder : PreOrder framed.
Proof. split; [by split|]. intros a b c [] []. split; congruence. Qed.

Lemma reset_framed f a h : framed h (run_reset f a h).
Proof. by destruct f. Qed.

Lemma registery_framed ptr : forall h h', csr_registery_init ptr h = Some h' -> framed h h'.
Proof.
  induction ptr as [|e ptr IH]; intros h h' E; cbn [csr_registery_init] in E; [by injection E as <-|].
  destruct (truthy _); [done|]. apply IH in E. etrans; [|exact E]. destruct (reg_reset e); [|by split].
  etrans; [|apply reset_framed]. by split.
Qed.

Lemma hart_init_ok id : exists h, hart_init id = Some h /\ csrs_known h /\ framed (fresh_hart id) h /\
  privilege_level h = PRIVILEGE_LEVEL_MACHINE.
Proof.
  destruct (csr_registery_init_spec csr_registery_head (flush_translation_cache (fresh_hart id)))
    as (h & E & Hin & _); [exact registry_legal|exact registry_nodup|].
  exists (set_privilege_level PRIVILEGE_LEVEL_MACHINE h).
  unfold hart_init. change (set_csrs_base ∅ (flush_translation_cache (fresh_hart id)))
    with (flush_translation_cache (fresh_hart id)). rewrite E. split; [done|]. split; [exact Hin|]. split; [|done].
  apply registery_framed in E. transitivity h; [|by split].
  transitivity (flush_translation_cache (fresh_hart id)); [by split|exact E].
Qed.

(** A hart as [cpu_init] leaves it. *)
Record hart_ready (id at_pc : Z) (h : hart) : Prop := {
  hr_known : csrs_known h;
  hr_level : privilege_level h = PRIVILEGE_LEVEL_MACHINE;
  hr_id : hart_id h = id;
  hr_pc : pc h = at_pc;
  hr_registers : registers h = replicate 32 0;
  hr_nr : nr_translated_instructions h = 0;
  hr_ptr : translation_cache_ptr h = 0;
  hr_magic : hart_magic h = HART_MAGIC_WORD
}.

Lemma init_harts_ok rest : forall idx at_pc itlb_size dtlb_size,
  exists hs, init_harts rest idx at_pc itlb_size dtlb_size = Some hs /\ length hs = rest /\
    forall i h, hs !! i = Some h -> hart_ready (idx + Z.of_nat i) at_pc h.
Proof.
  induction rest as [|rest IH]; intros idx at_pc isz dsz; [by exists []|]. cbn [init_harts].
  destruct (hart_init_ok idx) as (h & -> & HK & [] & HL). cbn [mbind option_bind].
  destruct (IH (idx + 1) at_pc isz dsz) as (hs & -> & Hlen & HF). cbn [mbind option_bind].
  eexists. split; [done|]. split; [by cbn; f_equal|]. intros [|i] h' Hi.
  - injection Hi as <-. rewrite Z.add_0_r. by split.
  - replace (idx + Z.of_nat (S i)) with (idx + 1 + Z.of_nat i) by lia. by apply HF.
Qed.

(** ** Memories *)

Definition holds_bytes (off : Z) (l : list Z) (m : memory) : Prop :=
  0 <= off /\ off + len l <= mem_size m /\
  forall i c, l !! i = Some c -> mem_byte m (off + Z.of_nat i) = c.

Lemma store_list_outside l : forall off b i, i < off \/ off + len l <= i -> store_list off l b !! i = b !! i.
Proof.
  induction l as [|c l IH]; intros off b i Hi; [done|]. rewrite len_cons in Hi. pose proof (len_nonneg l).
  cbn [store_list]. rewrite lookup_insert_ne by lia. apply IH. lia.
Qed.

Lemma store_list_inside l : forall off b i c, l !! i = Some c -> store_list off l b !! (off + Z.of_nat i) = Some c.
Proof.
  induction l as [|x l IH]; intros off b [|i] c Hi; [done|done| |]; cbn [store_list].
  - injection Hi as <-. rewrite Z.add_0_r. by rewrite lookup_insert_eq.
  - rewrite lookup_insert_ne by lia. replace (off + Z.of_nat (S i)) with (off + 1 + Z.of_nat i) by lia. by apply IH.
Qed.

(** What is laid down is there; what was elsewhere stays. *)
Lemma lay_ok off l m :
  0 <= off -> off + len l <= mem_size m ->
  exists m', lay off l m = Some m' /\ mem_size m' = mem_size m /\ holds_bytes off l m' /\
    forall off2 l2, holds_bytes off2 l2 m -> off2 + len l2 <= off \/ off + len l <= off2 -> holds_bytes off2 l2 m'.
Proof.
  intros H0 H1. unfold lay, in_bounds. rewrite !(proj2 (Z.leb_le _ _)) by done. cbn [andb].
  eexists. split; [done|]. split; [done|]. split.
  - split; [done|]. split; [done|]. intros i c Hi. unfold mem_byte. cbn [mem_bytes]. by rewrite (store_list_inside _ _ _ _ c).
  - intros off2 l2 (Hp & Hs & Hb) Hd. split; [done|]. split; [done|]. intros i c Hi.
    pose proof (lookup_lt_Some _ _ _ Hi) as Hl. unfold mem_byte, len in *. cbn [mem_bytes].
    rewrite store_list_outside by (unfold len; lia). by apply Hb.
Qed.

(** ** A configuration of this platform *)

Record setting := {
  s_pc : Z;
  s_image : list Z;
  s_base : Z;
  s_mega : Z;
  s_load : Z;
  s_kernel : list Z;
  s_initrd : option (Z * list Z);
  s_nr : Z;
  s_boot : Z;
  s_bootarg : list Z
}.

Definition s_size (s : setting) : Z := 1024 * 1024 * s_mega s.

Section Platform.
Context (file : list Z -> option (list Z)) (ini : list Z) (s : setting).

Definition has_number (base : Z) (section key : string) (n : Z) : Prop :=
  exists str, ini_string ini section key = Some str /\ strtol base str = n.

Definition has_file (section key : string) (contents : list Z) : Prop :=
  exists path, ini_string ini section key = Some path /\ file path = Some contents.

(** The rom ends where the system controller begins and holds the firmware behind the
    boot info; the ram lies above the devices; the images fit and do not overlap. *)
Record configured : Prop := {
  cf_rom_start : has_number 16 "rom" "rom_start" 0;
  cf_rom_size : has_number 16 "rom" "rom_size" 0x400000;
  cf_rom_image : has_file "rom" "rom_image" (s_image s);
  cf_pc : has_number 16 "cpu" "pc_on_reset" (s_pc s);
  cf_pc_range : ZELDA_BOOT_INFO_ADDRESS + 32 <= s_pc s /\ s_pc s + len (s_image s) <= 0x400000;
  cf_base : has_number 16 "mem" "main_memory_start" (s_base s);
  cf_mega : has_number 10 "mem" "main_memory_size_in_mega" (s_mega s);
  cf_ram_range : UART_16550_BASE + 0x100 <= s_base s /\ 0 < s_mega s /\ s_base s + s_size s < 2 ^ 32;
  cf_kernel : has_file "image" "kernel" (s_kernel s);
  cf_load : has_number 16 "image" "kernel_load_base" (s_load s);
  cf_load_range : s_base s <= s_load s < s_base s + s_size s /\ s_load s + len (s_kernel s) <= s_base s + s_size s;
  cf_initrd :
    match s_initrd s with
    | None => ini_string ini "image" "initrd" = None
    | Some (start, contents) =>
        has_file "image" "initrd" contents /\ has_number 16 "image" "initrd_load_base" start /\
        s_load s + len (s_kernel s) <= start /\ start + len contents <= s_base s + s_size s
    end;
  cf_nr : has_number 10 "cpu" "nr_cpus" (s_nr s);
  cf_nr_range : 1 <= s_nr s <= 4;
  cf_boot : has_number 10 "cpu" "boot_cpu" (s_boot s) \/ ini_string ini "cpu" "boot_cpu" = None /\ s_boot s = 0;
  cf_boot_range : 0 <= s_boot s < s_nr s;
  cf_tlbs : (exists n, has_number 16 "cpu" "itlb_size" n /\ 0 < n < 2 ^ 32) /\
            (exists n, has_number 16 "cpu" "dtlb_size" n /\ 0 < n < 2 ^ 32);
  cf_clint : has_number 16 "cpu" "clint_base" CLINT_BASE /\ has_number 16 "cpu" "clint_size" 0x10000;
  cf_plic : number_or ini 0x0c000000 "cpu" "plic_base" = 0x0c000000 /\
            number_or ini 0x04000000 "cpu" "plic_size" = 0x04000000;
  cf_ticks : ini_string ini "cpu" "ticks_per_translation_unit" = None \/
             exists n, has_number 10 "cpu" "ticks_per_translation_unit" n /\ 0 < n < 2 ^ 63;
  cf_breakpoints : ini_string ini "debug" "breakpoints" = None;
  cf_bootarg : ini_string ini "image" "bootarg" = Some (s_bootarg s) /\ len (s_bootarg s) <= 3000
}.

Context (HC : configured).

Lemma number_step {A} base section key n (k : Z -> setup A) v :
  has_number base section key n -> (let* x := number ini base section key in k x) v = k n v.
Proof. intros (str & E & <-). unfold number, conf, bind. by rewrite E. Qed.

Lemma conf_step {A} section key contents (k : list Z -> setup A) v :
  has_file section key contents ->
  exists path, file path = Some contents /\ (let* x := conf ini section key in k x) v = k path v.
Proof. intros (path & E & Hf). exists path. split; [done|]. unfold conf, bind. by rewrite E. Qed.

Lemma then_step {S A B} (p : prog S A) (k : A -> prog S B) v a v' : p v = Ok a v' -> (let* x := p in k x) v = k a v'.
Proof. intros E. unfold bind. by rewrite E. Qed.

(** Registering a region next to those present. *)
Lemma register_step v low size kind rs :
  let r := {| addr_low := low; addr_high := low + size; pmr_callbacks := kind |} in
  0 <= low -> 0 < size -> low + size < 2 ^ 32 ->
  table_ok (pmr_ops (vm_machine v)) -> pmr_ops (vm_machine v) ≡ₚ rs ->
  Forall (disjoint_regions r) rs -> Z.of_nat (length rs) < MAX_NR_PM_REGIONS ->
  exists ops, register_region low size kind v = Ok tt (set_vm_machine (set_pmr_ops ops (vm_machine v)) v) /\
    table_ok ops /\ ops ≡ₚ r :: rs.
Proof.
  intros r H0 H1 H2 HT HP HF HL.
  destruct (register_spec (pmr_ops (vm_machine v)) r HT) as (ops & E & Hp & HT').
  - split; cbn [addr_low addr_high r]; lia.
  - by rewrite HP.
  - by rewrite HP.
  - exists ops. split; [|split; [done|by rewrite Hp, HP]]. unfold register_region, on_machine, zoom, try_modify.
    rewrite !u32_id by (unfold is_uint; lia). fold r. by rewrite E.
Qed.

Lemma preload_ok off length path contents m :
  file path = Some contents -> 0 <= off -> len contents <= length -> off + length = mem_size m ->
  exists m', preload_binary_image file off length path m = Some (true, m') /\ mem_size m' = mem_size m /\
    holds_bytes off contents m' /\
    forall off2 l2, holds_bytes off2 l2 m -> off2 + len l2 <= off -> holds_bytes off2 l2 m'.
Proof.
  intros Hf H0 Hl Hs. pose proof (len_nonneg contents). unfold preload_binary_image. rewrite Hf.
  rewrite (proj2 (Z.ltb_ge _ _)) by lia. rewrite take_ge by (unfold len in *; lia).
  destruct (lay_ok off contents m H0) as (m' & -> & Hm & Hh & Ho); [lia|]. cbn [mbind option_bind].
  rewrite (proj2 (Z.leb_le _ _)) by lia. exists m'. repeat (split; [done|]). intros off2 l2 H2 Hd. apply Ho; [done|lia].
Qed.

Definition rom_region : pm_region_operation :=
  {| addr_low := 0; addr_high := 0 + 0x400000; pmr_callbacks := bootrom_region |}.
Definition ram_pm_region : pm_region_operation :=
  {| addr_low := s_base s; addr_high := s_base s + s_size s; pmr_callbacks := ram_region |}.
Definition clint_pm_region : pm_region_operation :=
  {| addr_low := CLINT_BASE; addr_high := CLINT_BASE + 0x10000; pmr_callbacks := clint_region |}.
Definition plic_pm_region : pm_region_operation :=
  {| addr_low := 0x0c000000; addr_high := 0x0c000000 + 0x04000000; pmr_callbacks := plic_region |}.
Definition uart_pm_region : pm_region_operation :=
  {| addr_low := UART_16550_BASE; addr_high := UART_16550_BASE + 0x100; pmr_callbacks := uart_region |}.
Definition syscon_pm_region : pm_region_operation :=
  {| addr_low := SYSCON_BASE_DEFAULT; addr_high := SYSCON_BASE_DEFAULT + 0x1000; pmr_callbacks := syscon_region |}.

Lemma bootrom_init_ok v :
  pmr_ops (vm_machine v) = [] ->
  exists ops rom, bootrom_init file ini v =
      Ok tt (set_vm_machine (set_bootrom rom (set_pmr_ops ops (vm_machine v)))
        (set_vm_rom_size 0x400000 (set_vm_rom_base 0 v))) /\
    table_ok ops /\ ops ≡ₚ [rom_region] /\ mem_size rom = 0x400000 /\ holds_bytes (s_pc s) (s_image s) rom.
Proof.
  intros Hops. pose proof (cf_pc_range HC) as Hpc. unfold ZELDA_BOOT_INFO_ADDRESS in Hpc.
  unfold bootrom_init. rewrite (number_step _ _ _ _ _ _ (cf_rom_start HC)), (number_step _ _ _ _ _ _ (cf_rom_size HC)).
  erewrite then_step by reflexivity. set (rom0 := {| mem_size := 0x400000; mem_bytes := ∅ |}).
  change (preallocate_physical_memory 0x400000) with (Some rom0). do 2 erewrite then_step by reflexivity.
  match goal with |- context [bind (register_region _ _ _) _ ?w] =>
    destruct (register_step w 0 0x400000 bootrom_region []) as (ops & E & HT & HP) end; try done.
  { cbn. rewrite Hops. split; constructor. }
  { cbn. by rewrite Hops. }
  rewrite (then_step _ _ _ _ _ E).
  match goal with |- context [bind (conf _ _ _) ?k ?w] =>
    destruct (conf_step _ _ _ k w (cf_rom_image HC)) as (path & Hf & ->) end.
  rewrite (number_step _ _ _ _ _ _ (cf_pc HC)). pose proof (len_nonneg (s_image s)). cbv zeta.
  rewrite u32_id by (unfold is_uint; lia).
  destruct (preload_ok (s_pc s - 0) (0x400000 - s_pc s + 0) path (s_image s) rom0 Hf) as (rom & EP & Hm & Hh & _);
    [lia|lia|cbn; lia|]. rewrite EP. erewrite then_step by reflexivity.
  rewrite Z.sub_0_r in Hh. exists ops, rom. split; [reflexivity|]. done.
Qed.

Lemma table_step v ops rs kind low size :
  pmr_ops (vm_machine v) = ops -> table_ok ops -> ops ≡ₚ rs ->
  let r := {| addr_low := low; addr_high := low + size; pmr_callbacks := kind |} in
  0 <= low -> 0 < size -> low + size < 2 ^ 32 -> Forall (disjoint_regions r) rs -> Z.of_nat (length rs) < 256 ->
  exists ops', register_region low size kind v = Ok tt (set_vm_machine (set_pmr_ops ops' (vm_machine v)) v) /\
    table_ok ops' /\ ops' ≡ₚ r :: rs.
Proof. intros <- HT HP r. intros. by apply register_step. Qed.

Definition initrd_at (m : memory) : Prop :=
  match s_initrd s with Some (start, contents) => holds_bytes (start - s_base s) contents m | None => True end.

Lemma ram_init_ok v ops :
  pmr_ops (vm_machine v) = ops -> table_ok ops -> ops ≡ₚ [rom_region] ->
  exists ops' r, ram_init file ini v =
      Ok tt (set_vm_machine (set_ram r (set_pmr_ops ops' (vm_machine v)))
        (set_vm_mem_size (s_size s) (set_vm_mem_base (s_base s) v))) /\
    table_ok ops' /\ ops' ≡ₚ [ram_pm_region; rom_region] /\ mem_size r = s_size s /\
    holds_bytes (s_load s - s_base s) (s_kernel s) r /\ initrd_at r.
Proof.
  intros Hops HT HP. pose proof (cf_ram_range HC) as (Hb & Hm & Ht). pose proof (cf_load_range HC) as [Hl Hk].
  pose proof (len_nonneg (s_kernel s)) as Hk0. unfold UART_16550_BASE in Hb. unfold s_size in *.
  change (2 ^ 32) with 4294967296 in *.
  assert (HU : forall x, 0 <= x < 4294967296 -> u32 x = x) by (intros; by apply u32_id).
  unfold ram_init. rewrite (number_step _ _ _ _ _ _ (cf_base HC)), (number_step _ _ _ _ _ _ (cf_mega HC)). cbv zeta.
  rewrite (HU (s_base s)), (HU (s_mega s)), (HU (1024 * 1024 * s_mega s)) by lia.
  erewrite then_step by reflexivity. set (size := 1024 * 1024 * s_mega s) in *.
  set (ram0 := {| mem_size := size; mem_bytes := ∅ |}).
  assert (preallocate_physical_memory size = Some ram0) as ->.
  { unfold preallocate_physical_memory. by rewrite (proj2 (Z.ltb_lt _ _)) by lia. }
  do 2 erewrite then_step by reflexivity.
  match goal with |- context [bind (register_region _ _ _) _ ?w] =>
    destruct (table_step w ops [rom_region] ram_region (s_base s) size) as (ops' & E & HT' & HP') end;
    try done; try lia.
  { apply Forall_singleton. right. unfold below, rom_region. cbn [addr_low addr_high]. lia. }
  rewrite (then_step _ _ _ _ _ E). clear E.
  match goal with |- context [bind (conf _ _ _) ?k ?w] =>
    destruct (conf_step _ _ _ k w (cf_kernel HC)) as (path & Hf & ->) end.
  rewrite (number_step _ _ _ _ _ _ (cf_load HC)). cbv zeta. rewrite (HU (s_load s)) by lia.
  rewrite (proj2 (Z.leb_le _ _)), (proj2 (Z.ltb_lt _ _)) by lia. cbn [andb]. erewrite then_step by reflexivity.
  destruct (preload_ok (s_load s - s_base s) (size - (s_load s - s_base s)) path (s_kernel s) ram0 Hf)
    as (ram1 & EP & Hm1 & Hh1 & _); [lia|lia|cbn; lia|]. rewrite EP. do 3 erewrite then_step by reflexivity.
  pose proof (cf_initrd HC) as Hi. unfold initrd_at. destruct (s_initrd s) as [[start contents]|].
  - destruct Hi as ((ipath & -> & Hif) & (str & -> & Hn) & Hs1 & Hs2). rewrite Hn. cbv zeta.
    change (s_size s) with size in Hs2.
    pose proof (len_nonneg contents). rewrite (HU start) by lia. cbn [fst snd].
    destruct (preload_ok (start - s_base s) (size - start + s_base s) ipath contents ram1 Hif)
      as (ram2 & EP2 & Hm2 & Hh2 & Ho2); [lia|lia|rewrite Hm1; cbn; lia|]. rewrite EP2.
    do 2 erewrite then_step by reflexivity. exists ops', ram2. split; [reflexivity|].
    split; [done|]. split; [done|]. split; [by rewrite Hm2, Hm1|]. split; [|done]. apply Ho2; [done|lia].
  - rewrite Hi. exists ops', ram1. split; [reflexivity|]. done.
Qed.

(** Every region lies apart from the new one. *)
Ltac apart :=
  repeat (apply Forall_cons; split); try apply Forall_nil_2;
  unfold disjoint_regions, below, rom_region, ram_pm_region, clint_pm_region, plic_pm_region,
    uart_pm_region, CLINT_BASE, UART_16550_BASE, SYSCON_BASE_DEFAULT in *;
  cbn [addr_low addr_high]; lia.

Definition fresh_harts (hs : list hart) : Prop :=
  Z.of_nat (length hs) = s_nr s /\ forall i h, hs !! i = Some h -> hart_ready (Z.of_nat i) (s_pc s) h.

Lemma cpu_init_ok v :
  exists hs, cpu_init ini v = Ok tt (set_vm_harts hs (set_vm_boot_hart (s_boot s) (set_vm_nr_harts (s_nr s) v))) /\
    fresh_harts hs.
Proof.
  pose proof (cf_nr_range HC) as Hn. pose proof (cf_boot_range HC) as Hb. pose proof (cf_pc_range HC) as Hpc.
  pose proof (len_nonneg (s_image s)). unfold ZELDA_BOOT_INFO_ADDRESS in Hpc.
  destruct (cf_tlbs HC) as [(isz & Hi & _) (dsz & Hd & _)].
  unfold cpu_init. rewrite (number_step _ _ _ _ _ _ (cf_nr HC)). cbv zeta. rewrite (s32_id (s_nr s)) by lia.
  assert (match ini_string ini "cpu" "boot_cpu" with Some x => s32 (strtol 10 x) | None => 0 end = s_boot s) as ->.
  { destruct (cf_boot HC) as [(str & -> & ->)|[-> ->]]; [|done]. rewrite s32_id; lia. }
  erewrite then_step by reflexivity. rewrite (proj2 (Z.leb_le _ _)) by lia. erewrite then_step by reflexivity.
  rewrite (number_step _ _ _ _ _ _ (cf_pc HC)), (number_step _ _ _ _ _ _ Hi), (number_step _ _ _ _ _ _ Hd).
  rewrite (u32_id (s_pc s)) by (unfold is_uint; lia).
  destruct (init_harts_ok (Z.to_nat (s_nr s)) 0 (s_pc s) (u32 isz) (u32 dsz)) as (hs & -> & Hl & HF).
  erewrite then_step by reflexivity. exists hs. split; [reflexivity|]. split; [lia|]. exact HF.
Qed.

Definition devices_on (attached : bool) (ops : list pm_region_operation) (m : machine) : machine :=
  set_pmr_ops ops (set_uart (uart_init attached) (set_plic (plic_init 0x0c000000 (s_nr s))
    (set_clint (clint_init CLINT_BASE 0x10000 (s_nr s)) m))).

Definition memory_map : list pm_region_operation :=
  [syscon_pm_region; uart_pm_region; plic_pm_region; clint_pm_region; ram_pm_region; rom_region].

(** The regions registered so far. *)
Definition regions (rs : list pm_region_operation) (v : virtual_machine) : Prop :=
  table_ok (pmr_ops (vm_machine v)) /\ pmr_ops (vm_machine v) ≡ₚ rs.

Lemma regions_step v rs kind low size :
  regions rs v ->
  let r := {| addr_low := low; addr_high := low + size; pmr_callbacks := kind |} in
  0 <= low -> 0 < size -> low + size < 2 ^ 32 -> Forall (disjoint_regions r) rs -> Z.of_nat (length rs) < 256 ->
  exists ops, register_region low size kind v = Ok tt (set_vm_machine (set_pmr_ops ops (vm_machine v)) v) /\
    regions (r :: rs) (set_vm_machine (set_pmr_ops ops (vm_machine v)) v).
Proof. intros [HT HP] r. intros. by apply register_step. Qed.

Lemma clint_ok v :
  regions [ram_pm_region; rom_region] v -> vm_nr_harts v = s_nr s ->
  exists ops, let v' := set_vm_machine (set_pmr_ops ops (set_clint (clint_init CLINT_BASE 0x10000 (s_nr s)) (vm_machine v))) v in
    clint_set_up ini v = Ok tt v' /\ regions [clint_pm_region; ram_pm_region; rom_region] v'.
Proof.
  intros HR Hnr. pose proof (cf_nr_range HC). pose proof (cf_ram_range HC) as (Hb & _).
  destruct (regions_step (set_vm_machine (set_clint (clint_init CLINT_BASE 0x10000 (s_nr s)) (vm_machine v)) v)
    _ clint_region CLINT_BASE 0x10000 HR) as (ops & E & HR'); try done; [apart|].
  exists ops. split; [|exact HR']. unfold clint_set_up. destruct (cf_clint HC) as [Hcb Hcs].
  rewrite (number_step _ _ _ _ _ _ Hcb), (number_step _ _ _ _ _ _ Hcs).
  erewrite then_step by reflexivity. rewrite Hnr, (proj2 (Z.leb_le _ _)) by (unfold MAX_NR_HARTS; lia).
  do 2 erewrite then_step by reflexivity. exact E.
Qed.

Lemma plic_ok v :
  regions [clint_pm_region; ram_pm_region; rom_region] v -> vm_nr_harts v = s_nr s ->
  exists ops, let v' := set_vm_machine (set_pmr_ops ops (set_plic (plic_init 0x0c000000 (s_nr s)) (vm_machine v)))
      (set_plic_size 0x04000000 v) in
    plic_set_up ini v = Ok tt v' /\ regions [plic_pm_region; clint_pm_region; ram_pm_region; rom_region] v'.
Proof.
  intros HR Hnr. pose proof (cf_nr_range HC). pose proof (cf_ram_range HC) as (Hb & _).
  destruct (regions_step (set_vm_machine (set_plic (plic_init 0x0c000000 (s_nr s)) (vm_machine v)) (set_plic_size 0x04000000 v))
    _ plic_region 0x0c000000 0x04000000 HR) as (ops & E & HR'); try done; [apart|].
  exists ops. split; [|exact HR']. unfold plic_set_up. destruct (cf_plic HC) as [-> ->]. cbv zeta.
  erewrite then_step by reflexivity.
  rewrite Hnr, (proj2 (Z.leb_le _ _)) by (unfold MAX_NR_HARTS, PLIC_CONTEXTS_PER_HART; lia).
  do 3 erewrite then_step by reflexivity. exact E.
Qed.

Lemma uart_ok attached v :
  regions [plic_pm_region; clint_pm_region; ram_pm_region; rom_region] v ->
  exists ops, let v' := set_vm_machine (set_pmr_ops ops (set_uart (uart_init attached) (vm_machine v))) v in
    uart_set_up attached v = Ok tt v' /\
    regions [uart_pm_region; plic_pm_region; clint_pm_region; ram_pm_region; rom_region] v'.
Proof.
  intros HR. pose proof (cf_ram_range HC) as (Hb & _).
  destruct (regions_step (set_vm_machine (set_uart (uart_init attached) (vm_machine v)) v)
    _ uart_region UART_16550_BASE 0x100 HR) as (ops & E & HR'); try done; [apart|]. exists ops. by split.
Qed.

Lemma syscon_ok v :
  regions [uart_pm_region; plic_pm_region; clint_pm_region; ram_pm_region; rom_region] v ->
  exists ops, let v' := set_vm_machine (set_pmr_ops ops (vm_machine v))
      (set_vm_syscon_size 0x1000 (set_vm_syscon_base SYSCON_BASE_DEFAULT v)) in
    syscon_init v = Ok tt v' /\ regions memory_map v'.
Proof.
  intros HR. pose proof (cf_ram_range HC) as (Hb & _).
  destruct (regions_step (set_vm_syscon_size 0x1000 (set_vm_syscon_base SYSCON_BASE_DEFAULT v))
    _ syscon_region SYSCON_BASE_DEFAULT 0x1000 HR) as (ops & E & HR'); try done; [apart|]. exists ops. by split.
Qed.

Lemma device_init_ok attached v :
  regions [ram_pm_region; rom_region] v -> vm_nr_harts v = s_nr s ->
  exists ops, let v' := set_vm_syscon_size 0x1000 (set_vm_syscon_base SYSCON_BASE_DEFAULT (set_plic_size 0x04000000
      (set_vm_machine (devices_on attached ops (vm_machine v)) v))) in
    device_init ini attached v = Ok tt v' /\ regions memory_map v'.
Proof.
  intros HR Hnr. destruct (clint_ok v HR Hnr) as (ops1 & E1 & HR1). destruct (plic_ok _ HR1 Hnr) as (ops2 & E2 & HR2).
  destruct (uart_ok attached _ HR2) as (ops3 & E3 & HR3). destruct (syscon_ok _ HR3) as (ops4 & E4 & HR4).
  exists ops4. split; [|exact HR4]. unfold device_init.
  rewrite (then_step _ _ _ _ _ E1), (then_step _ _ _ _ _ E2), (then_step _ _ _ _ _ E3). exact E4.
Qed.

Lemma misc_init_ok v :
  exists t, misc_init ini v = Ok ini (set_vm_machine (set_ticks_per_translation_unit t (vm_machine v)) v).
Proof.
  unfold misc_init. rewrite (cf_breakpoints HC). destruct (cf_ticks HC) as [->|(n & (str & -> & <-) & Hn)].
  - exists (ticks_per_translation_unit (vm_machine v)). by destruct v as [? ? ? ? ? ? ? ? ? ? ? []].
  - exists (strtol 10 str). unfold set_ticks. rewrite u64_id by (unfold is_uint; lia).
    rewrite (proj2 (Z.ltb_lt _ _)) by lia. reflexivity.
Qed.
(** ** What the firmware is left *)

Definition s_config : platform_config :=
  {| nr_harts := s_nr s; main_mem_base := s_base s; main_mem_size := s_size s;
     bootrom_base := 0; bootrom_size := 0x400000; pc_clint_base := CLINT_BASE; pc_clint_size := 0x10000;
     pc_plic_base := 0x0c000000; pc_plic_size := 0x04000000;
     syscon_base := SYSCON_BASE_DEFAULT; syscon_size := 0x1000 |}.

Definition s_range : option (Z * Z) :=
  match s_initrd s with Some (start, contents) => Some (start, start + len contents) | None => None end.

Definition s_dtb : list Z := blob_of (flatten (device_tree s_config 0 0x400000 s_range (s_bootarg s))).

Definition s_info : zelda_boot_info :=
  {| bi_magic := ZELDA_BOOT_INFO_MAGIC; bi_kernel_entry := s_load s; bi_dtb_address := ZELDA_DTB_ADDRESS;
     bi_initrd_start := (default (0, 0) s_range).1; bi_initrd_end := (default (0, 0) s_range).2;
     bi_memory_start := s_base s; bi_memory_size := s_size s; bi_nr_harts := s_nr s |}.

Lemma s_range_ok : initrd_range ini (image_file_size file) = s_range.
Proof.
  pose proof (cf_initrd HC) as Hi. pose proof (cf_ram_range HC) as (Hb & Hm & Ht). pose proof (cf_load_range HC) as [Hl _].
  unfold initrd_range, s_range, UART_16550_BASE in *. destruct (s_initrd s) as [[start contents]|]; [|by rewrite Hi].
  destruct Hi as ((path & -> & Hf) & (str & -> & Hn) & H1 & H2). cbn [mbind option_bind]. rewrite Hn.
  pose proof (len_nonneg (s_kernel s)). pose proof (len_nonneg contents).
  unfold image_file_size. rewrite Hf, (u32_id start), u32_id by (unfold is_uint; lia). done.
Qed.

Lemma s_config_ok : config_ok s_config.
Proof. pose proof (cf_nr_range HC). split; cbn; [lia| | |]; by split. Qed.

Lemma s_dtb_built b0 :
  exists b, fdt_init s_config ini (image_file_size file) b0 = Ok s_dtb b /\ len s_dtb <= 8192.
Proof.
  pose proof (cf_nr_range HC) as Hn. destruct (cf_bootarg HC) as [Ha Hl].
  destruct (cf_rom_start HC) as (start & Es & En), (cf_rom_size HC) as (size & Ez & Em).
  assert (ini_ok ini start size (s_bootarg s)) as HI.
  { split; [done|done|done|]. unfold small. pose proof (len_nonneg (s_bootarg s)). lia. }
  pose proof (fdt_init_spec s_config ini (image_file_size file) start size (s_bootarg s) b0 s_config_ok HI eq_refl ltac:(done)) as H.
  cbv zeta in H. rewrite s_range_ok, En, Em in H. change (u32 0) with 0 in H. change (u32 0x400000) with 0x400000 in H.
  pose proof (tree_fits s_config 0 0x400000 s_range (s_bootarg s) (proj1 (co_harts _ s_config_ok)) s_config_ok Hl) as HF.
  change (nr_harts s_config) with (s_nr s) in HF. rewrite (proj2 (Z.leb_le _ _)) in HF by lia.
  rewrite HF in H. destruct H as [b E]. exists b. split; [exact E|]. revert HF. unfold fits. to_prop. unfold s_dtb. tauto.
Qed.
(** What the rom holds once it is filled. *)
Definition rom_image (rom : memory) : Prop :=
  mem_size rom = 0x400000 /\ holds_bytes (s_pc s) (s_image s) rom.

Lemma fdt_set_up_ok v :
  config_of v = s_config -> rom_image (bootrom (vm_machine v)) ->
  exists b rom, fdt_set_up file ini v = Ok tt (set_vm_machine (set_bootrom rom (vm_machine v)) (set_vm_fdt b v)) /\
    rom_image rom /\ holds_bytes ZELDA_DTB_ADDRESS s_dtb rom.
Proof.
  intros Hcfg [Hm Hh]. pose proof (cf_pc_range HC) as Hpc. unfold ZELDA_BOOT_INFO_ADDRESS in Hpc.
  destruct (s_dtb_built (vm_fdt v)) as (b & E & Hl).
  destruct (lay_ok ZELDA_DTB_ADDRESS s_dtb (bootrom (vm_machine v))) as (rom & EL & Hm' & Hd & Ho); [done| |].
  { rewrite Hm. unfold ZELDA_DTB_ADDRESS. lia. }
  exists b, rom. split; [|split; [split; [by rewrite Hm'|]|done]].
  - unfold fdt_set_up. erewrite then_step by reflexivity. rewrite Hcfg.
    erewrite then_step by (unfold on_fdt, zoom; by rewrite E).
    assert (vm_rom_base v = 0) as -> by exact (f_equal bootrom_base Hcfg).
    unfold on_machine, zoom, try_modify. cbn [vm_machine set_vm_fdt]. change (ZELDA_DTB_ADDRESS - 0) with ZELDA_DTB_ADDRESS.
    by rewrite EL.
  - apply Ho; [done|]. right. unfold ZELDA_DTB_ADDRESS. lia.
Qed.

Lemma boot_info_init_ok v :
  config_of v = s_config -> rom_image (bootrom (vm_machine v)) ->
  holds_bytes ZELDA_DTB_ADDRESS s_dtb (bootrom (vm_machine v)) -> len s_dtb <= 8192 ->
  exists rom, boot_info_init file ini v = Ok tt (set_vm_machine (set_bootrom rom (vm_machine v)) v) /\
    rom_image rom /\ holds_bytes ZELDA_DTB_ADDRESS s_dtb rom /\
    holds_bytes ZELDA_BOOT_INFO_ADDRESS (boot_info_bytes s_info) rom.
Proof.
  intros Hcfg [Hm Hh] Hd Hl. pose proof (cf_pc_range HC) as Hpc. pose proof (cf_nr_range HC) as Hn.
  pose proof (cf_ram_range HC) as (Hb & Hmg & Ht). pose proof (cf_load_range HC) as [Hld _].
  assert (len (boot_info_bytes s_info) = 32) as Hi by reflexivity.
  destruct (lay_ok ZELDA_BOOT_INFO_ADDRESS (boot_info_bytes s_info) (bootrom (vm_machine v))) as (rom & EL & Hm' & Hb' & Ho);
    [done|rewrite Hm, Hi; done|]. rewrite Hi in Ho.
  exists rom. split; [|split; [split; [by rewrite Hm'|apply Ho; [done|right; lia]]|split; [apply Ho|done]]];
    [|done|left; unfold ZELDA_DTB_ADDRESS, ZELDA_BOOT_INFO_ADDRESS; lia].
  unfold boot_info_init. rewrite (number_step _ _ _ _ _ _ (cf_load HC)). erewrite then_step by reflexivity.
  assert (vm_rom_base v = 0) as -> by exact (f_equal bootrom_base Hcfg).
  assert (vm_rom_size v = 0x400000) as -> by exact (f_equal bootrom_size Hcfg).
  assert (vm_mem_base v = s_base s) as -> by exact (f_equal main_mem_base Hcfg).
  assert (vm_mem_size v = s_size s) as -> by exact (f_equal main_mem_size Hcfg).
  assert (vm_nr_harts v = s_nr s) as -> by exact (f_equal nr_harts Hcfg).
  erewrite then_step by reflexivity. rewrite s_range_ok. unfold UART_16550_BASE, s_size in *.
  change (2 ^ 32) with 4294967296 in Ht. rewrite !u32_id by (unfold is_uint; lia).
  rewrite (surjective_pairing (default (0, 0) s_range)). fold (s_size s). fold s_info.
  unfold on_machine, zoom, try_modify. change (ZELDA_BOOT_INFO_ADDRESS - 0) with ZELDA_BOOT_INFO_ADDRESS.
  by rewrite EL.
Qed.
(** ** The whole set-up *)

Record set_up (v : virtual_machine) : Prop := {
  su_config : config_of v = s_config;
  su_harts : fresh_harts (vm_harts v);
  su_boot : vm_boot_hart v = s_boot s;
  su_clint : clint (vm_machine v) = clint_init CLINT_BASE 0x10000 (s_nr s);
  su_uart : dlab (uart (vm_machine v)) = false;
  su_breakpoints : breakpoints (vm_machine v) = [];
  su_regions : regions memory_map v;
  su_rom : rom_image (bootrom (vm_machine v)) /\ holds_bytes ZELDA_DTB_ADDRESS s_dtb (bootrom (vm_machine v)) /\
           holds_bytes ZELDA_BOOT_INFO_ADDRESS (boot_info_bytes s_info) (bootrom (vm_machine v));
  su_ram : mem_size (ram (vm_machine v)) = s_size s /\
           holds_bytes (s_load s - s_base s) (s_kernel s) (ram (vm_machine v)) /\ initrd_at (ram (vm_machine v))
}.

Lemma virtual_machine_init_ok attached m :
  pmr_ops m = [] -> breakpoints m = [] ->
  exists v, virtual_machine_init file ini attached (vm_off m) = Ok tt v /\ set_up v.
Proof.
  intros Hr0 Hb0. unfold virtual_machine_init.
  destruct (bootrom_init_ok (vm_off m) Hr0) as (ops1 & rom1 & E1 & HT1 & HP1 & Hm1 & Hh1).
  rewrite (then_step _ _ _ _ _ E1). clear E1.
  match goal with |- context [bind _ _ ?w] => destruct (ram_init_ok w ops1 eq_refl HT1 HP1) as (ops2 & ram2 & E2 & HT2 & HP2 & HR2) end.
  rewrite (then_step _ _ _ _ _ E2). clear E2.
  match goal with |- context [bind _ _ ?w] => destruct (cpu_init_ok w) as (hs & E3 & Hhs) end. rewrite (then_step _ _ _ _ _ E3). clear E3.
  match goal with |- context [bind _ _ ?w] => destruct (device_init_ok attached w (conj HT2 HP2) eq_refl) as (ops4 & E4 & HR4) end.
  rewrite (then_step _ _ _ _ _ E4). clear E4.
  match goal with |- context [bind _ _ ?w] => destruct (misc_init_ok w) as (t & E5) end. rewrite (then_step _ _ _ _ _ E5). clear E5.
  match goal with |- context [bind _ _ ?w] => destruct (fdt_set_up_ok w eq_refl (conj Hm1 Hh1)) as (b & rom6 & E6 & HR6 & HD6) end.
  rewrite (then_step _ _ _ _ _ E6). clear E6. destruct (s_dtb_built b) as (_ & _ & Hl).
  match goal with |- exists v, boot_info_init _ _ ?w = _ /\ _ =>
    destruct (boot_info_init_ok w eq_refl HR6 HD6 Hl) as (rom7 & E7 & HR7 & HD7) end.
  rewrite E7. eexists. split; [reflexivity|]. split; try done.
Qed.

(** ** The machine that is resumed *)

Section Resumed.
Context `{Assembler}.

Record booted (m : machine) : Prop := {
  bo_platform : platform m;
  bo_hart : pc (m_hart m) = s_pc s /\ hart_id (m_hart m) = s_boot s;
  bo_guest : guest_ok m /\ unhooked m;
  bo_cache : forall base, cache_wf base (m_hart m) /\ chained (m_hart m) /\ backed ∅ (m_hart m);
  bo_map : table_ok (pmr_ops m) /\ pmr_ops m ≡ₚ memory_map;
  bo_rom : rom_image (bootrom m) /\ holds_bytes ZELDA_DTB_ADDRESS s_dtb (bootrom m) /\
           holds_bytes ZELDA_BOOT_INFO_ADDRESS (boot_info_bytes s_info) (bootrom m);
  bo_ram : mem_size (ram m) = s_size s /\ holds_bytes (s_load s - s_base s) (s_kernel s) (ram m) /\
           initrd_at (ram m)
}.

Lemma region_found m r a :
  table_ok (pmr_ops m) -> pmr_ops m ≡ₚ memory_map -> r ∈ memory_map -> covers r a -> 0 <= a < 2 ^ 32 - 1 ->
  search_pm_region_callback (pmr_ops m) a = Some (Some r).
Proof.
  intros HT HP Hin Hc Ha. rewrite <- HP in Hin. destruct (search_pm_region_spec (pmr_ops m) a Ha HT) as ([r'|] & -> & Ho).
  - destruct Ho as [Hin' Hc'].
    destruct (table_ok_pairwise _ _ _ HT Hin' Hin) as [->|[Hd|Hd]]; [done| |]; unfold covers, below in *; lia.
  - exfalso. rewrite Forall_forall in Ho. by apply (Ho r).
Qed.

Lemma ready_cache id a h base :
  hart_ready id a h -> cache_wf base h /\ chained h /\ backed ∅ h.
Proof.
  intros [_ _ _ _ _ Hn Hp _]. assert (live h = []) as HL by (unfold live; by rewrite Hn).
  split; [|split].
  - split; rewrite ?HL, ?Hn, ?Hp; try constructor; unfold MAX_INSTRUCTIONS_TOTRANSLATE, TRANSLATION_CACHE_SIZE; lia.
  - intros it t ps Hin. rewrite HL in Hin. by apply elem_of_nil in Hin.
  - unfold backed. rewrite HL. constructor.
Qed.
Lemma set_up_booted v h :
  set_up v -> vm_harts v !! Z.to_nat (s_boot s) = Some h -> booted (set_m_hart h (vm_machine v)).
Proof.
  intros [Hcfg [_ Hh] Hboot Hc Hu Hb [HT HP] Hrom Hram] Hi. pose proof (cf_boot_range HC) as Hbr.
  pose proof (cf_pc_range HC) as Hpc. pose proof (cf_nr_range HC) as Hn. pose proof (len_nonneg (s_image s)).
  specialize (Hh _ _ Hi). rewrite Z2Nat.id in Hh by lia. pose proof Hh as [HK HL Hid Hp Hregs Hnr Hptr Hmag].
  assert (HM : forall r a, r ∈ memory_map -> covers r a -> 0 <= a < 2 ^ 32 - 1 ->
    mapped (set_m_hart h (vm_machine v)) a (pmr_callbacks r)).
  { intros r a Hin Hcv Ha. exists r. split; [|done]. by apply region_found. }
  split; try done.
  - split; [done|]. split; cbn [m_hart clint uart set_m_hart]; rewrite ?Hc; try done.
    + intros off Hoff. apply (HM clint_pm_region); [by repeat constructor| |unfold CLINT_BASE; lia].
      unfold covers, clint_pm_region. cbn [addr_low addr_high]. lia.
    + by apply (HM uart_pm_region); [repeat constructor| |].
    + by apply (HM uart_pm_region); [repeat constructor| |].
    + by apply (HM syscon_pm_region); [repeat constructor| |].
    + apply clint_init_wf; [done|unfold MAX_NR_HARTS; lia].
    + rewrite Hid. cbn. lia.
  - split; [|by split]. split; cbn [bank_wf machine_bank hart_bank m_hart set_m_hart rd_reg].
    + rewrite Hregs, Hp. split; [done|]. split; [by repeat constructor|]. unfold is_uint, ZELDA_BOOT_INFO_ADDRESS in *. lia.
    + unfold HART_REG. by rewrite Hregs.
  - intros base. by eapply ready_cache.
Qed.
End Resumed.
End Platform.

Section Boots.
Context `{Assembler}.

Lemma boots file config contents ini s attached keys lines :
  file config = Some contents -> ini_load contents = Some ini -> configured file ini s ->
  exists m v, main_until_resume file config attached (vm_off (machine_off keys lines)) = Ok m v /\ booted s m.
Proof.
  intros Hf Hl HC. destruct (virtual_machine_init_ok file ini s HC attached (machine_off keys lines))
    as (v & E & HS); [done|done|].
  pose proof (cf_boot_range _ _ _ HC) as Hb. destruct (su_harts _ _ HS) as [Hlen _].
  destruct (lookup_lt_is_Some_2 (vm_harts v) (Z.to_nat (s_boot s))) as [h Hh]; [lia|].
  exists (set_m_hart h (vm_machine v)), v. split; [|by apply (set_up_booted file ini)].
  unfold main_until_resume. rewrite Hf, Hl. erewrite then_step by reflexivity. rewrite (then_step _ _ _ _ _ E).
  erewrite then_step by reflexivity. unfold hart_by_id. rewrite (su_boot _ _ HS).
  assert (vm_nr_harts v = s_nr s) as -> by exact (f_equal nr_harts (su_config _ _ HS)).
  rewrite (proj2 (Z.leb_le _ _)), (proj2 (Z.ltb_lt _ _)), Hh by lia. reflexivity.
Qed.

(** C16. The machine boots. From a configuration of this platform - a rom with its
    firmware, memory above the devices, images that fit it, one to four harts - [main]
    sets a machine up and gets to resume its boot hart, and in the machine it resumes:
    the platform's devices are where the firmware expects them and no two regions
    overlap; the hart is at machine level, at the reset pc, with its csrs registered and
    an empty translation cache, so that the theorems of Run.v and Sbi.v hold from
    there; the rom holds the firmware, the device tree of the configuration and the
    boot info; the memory holds the kernel and the ramdisk. *)
Theorem machine_boots file config contents ini s attached keys lines :
  file config = Some contents -> ini_load contents = Some ini -> configured file ini s ->
  exists m v, main_until_resume file config attached (vm_off (machine_off keys lines)) = Ok m v /\ booted s m.
Proof. apply boots. Qed.
End Boots.

(** ** Witness: the repository's configuration, with a ramdisk *)

Module Witness.

Definition contents : list Z := text "; This is the config to boot a vm.
[image]
kernel = guest/Image
kernel_load_base = 0x80400000
bootarg = console=ttyS0 earlycon=uart8250,mmio,0x10000000
initrd = initrd.cpio
initrd_load_base = 0x88000000
[rom]
rom_image = bootrom.img
rom_start = 0x0
rom_size = 0x400000
[cpu]
nr_cpus = 2
boot_cpu = 1
pc_on_reset = 0x4000
clint_base = 0x02000000
clint_size = 0x00010000
plic_base = 0x0c000000
plic_size = 0x04000000
ticks_per_translation_unit = 2
itlb_size = 0x4000
dtlb_size = 0x4000
[mem]
main_memory_start = 0x80000000
main_memory_size_in_mega = 1024
".

Definition ini : list Z := Eval vm_compute in default [] (ini_load contents).

Definition file (path : list Z) : option (list Z) :=
  if decide (path = text "vm.ini") then Some contents
  else if decide (path = text "guest/Image") then Some [0x13; 0; 0; 0; 0x6f; 0; 0; 0]
  else if decide (path = text "bootrom.img") then Some [0x13; 5; 0; 0]
  else if decide (path = text "initrd.cpio") then Some (text "070701")
  else None.

Definition s : setting :=
  {| s_pc := 0x4000; s_image := [0x13; 5; 0; 0]; s_base := 0x80000000; s_mega := 1024; s_load := 0x80400000;
     s_kernel := [0x13; 0; 0; 0; 0x6f; 0; 0; 0]; s_initrd := Some (0x88000000, text "070701"); s_nr := 2;
     s_boot := 1; s_bootarg := text "console=ttyS0 earlycon=uart8250,mmio,0x10000000" |}.

Ltac read := eexists; split; [vm_compute; reflexivity|vm_compute; reflexivity].
Ltac bounded := vm_compute; repeat split; discriminate.

Lemma s_configured : configured file ini s.
Proof.
  split; [read|read|read|read|bounded|read|read|bounded|read|read|bounded|..].
  - split; [read|]. split; [read|bounded].
  - read.
  - bounded.
  - left. read.
  - bounded.
  - split; eexists; (split; [read|bounded]).
  - split; read.
  - split; vm_compute; reflexivity.
  - right. exists 2. split; [read|bounded].
  - vm_compute. reflexivity.
  - split; [vm_compute; reflexivity|bounded].
Qed.

(** Two breakpoints in front of the other sections: the second, cut off by [strtok],
    then reads as a key with the next section as its value, and the rom is not found. *)
Definition debug_first : list Z := text "[debug]
breakpoints = 0x80400000 0x80400004
" ++ contents.
Definition file_debug_first (path : list Z) : option (list Z) :=
  if decide (path = text "vm.ini") then Some debug_first else file path.

Example breakpoints_hide_a_section :
  let ini := default [] (ini_load debug_first) in
  let cut := cut_value ini "debug" "breakpoints" (text "0x80400000 0x80400004") in
  ini_string ini "image" "bootarg" = Some (s_bootarg s) /\ ini_string cut "image" "bootarg" = None /\
  main_until_resume file_debug_first (text "vm.ini") true (vm_off (machine_off [] [])) = Failed.
Proof. vm_compute. done. Qed.

Lemma machine_boots_witness :
  exists m v, main_until_resume file (text "vm.ini") true (vm_off (machine_off [] [])) = Ok m v /\
    booted (H := Hart.Concrete.sizes) s m.
Proof.
  apply (machine_boots (H := Hart.Concrete.sizes) file (text "vm.ini") contents ini s true [] []).
  - vm_compute. reflexivity.
  - vm_compute. reflexivity.
  - exact s_configured.
Defined.
End Witness.
