(* ===== verification/Startup.v ===== *)
(** * From the command line to the guest

    What [main] of src/vmm/main.c leaves behind is within its types and sound: the
    theorems of Emulator.v hold from there on. The set-up itself is in Vm.v, the device
    tree it builds in DeviceTree.v and Fdt.v, its configuration in Ini.v.

    Proved here: when the files are bytes, every byte of the machine's memories is one -
    those of the device tree included -, the harts' csrs, TLBs and caches are within
    bounds, and the whole emulator, from the configuration file on, runs the guest as
    the instruction set says. *)

From S2P Require Import Amo Prelude Ini Monad Bytes SortSearch PmRegion X86 Hart Trap Clint Plic.
From S2P Require Import Uart Machine Mmu Console CsrHandlers Csr Interrupt Debug Fdt DeviceTree.
From S2P Require Import Rv32 Decode Refine Engine Calls Run Sbi Vm Typing Emulator.
Local Open Scope Z_scope.

(** ** The configuration's text *)

Section Text.

Lemma byte_at buf p c : bytes_ok buf -> buf !! p = Some c -> is_uint 8 c.
Proof. intros HB. by apply Forall_lookup_1. Qed.

Lemma put_char_bytes p c buf buf' : is_uint 8 c -> bytes_ok buf -> put_char p c buf = Some buf' -> bytes_ok buf'.
Proof. intros Hc HB. unfold put_char. case_match; [|done]. intros [= <-]. by apply Forall_insert. Qed.

Lemma zero_byte : is_uint 8 0.
Proof. by vm_compute. Qed.

Lemma escaped_byte c : is_uint 8 c -> is_uint 8 (escaped c).
Proof. intros Hc. unfold escaped. by repeat case_match. Qed.

#[local] Hint Resolve zero_byte escaped_byte byte_at put_char_bytes : core.


Lemma trim_back_bytes p : forall buf buf', bytes_ok buf -> trim_back p buf = Some buf' -> bytes_ok buf'.
Proof.
  induction p as [|p IH]; intros buf buf' HB; cbn [trim_back]; [by intros [= <-]|].
  intros (c & _ & E)%bind_Some. case_match; [|by injection E as <-].
  apply bind_Some in E as (b & Eb & E). apply (IH b); [|done]. by eapply put_char_bytes; [..|exact Eb].
Qed.

Lemma discard_chars_bytes n : forall p buf r, bytes_ok buf -> discard_chars n p buf = Some r -> bytes_ok r.1.
Proof.
  induction n as [|n IH]; intros p buf r HB; cbn [discard_chars]; [by intros [= <-]|].
  intros (c & _ & E)%bind_Some. case_match; [by injection E as <-|].
  apply bind_Some in E as (b & Eb & E). apply (IH (S p) b); [|done]. by eapply put_char_bytes; [..|exact Eb].
Qed.

Lemma unescape_bytes fuel : forall p q buf r, bytes_ok buf -> Ini.unescape fuel p q buf = Some r -> bytes_ok r.1.
Proof.
  induction fuel as [|fuel IH]; intros p q buf r HB; cbn [Ini.unescape]; [done|].
  case_match; [|by intros [= <-]]. intros (c & Ec & E)%bind_Some. case_match; [by injection E as <-|].
  case_match.
  - apply bind_Some in E as (d & Ed & E). case_match; [by injection E as <-|].
    apply bind_Some in E as (b & Eb & E). eapply IH; [|exact E]. eapply put_char_bytes; [..|exact Eb]; eauto.
  - apply bind_Some in E as (b & Eb & E). eapply IH; [|exact E]. eapply put_char_bytes; [..|exact Eb]; eauto.
Qed.

Lemma blank_equals_bytes fuel : forall p buf r, bytes_ok buf -> blank_equals fuel p buf = Some r -> bytes_ok r.1.
Proof.
  induction fuel as [|fuel IH]; intros p buf r HB; cbn [blank_equals]; [done|].
  intros (b & Eb & E)%bind_Some. apply bind_Some in E as (c & _ & E).
  assert (bytes_ok b) by (by eapply put_char_bytes; [..|exact Eb]).
  case_match; [by eapply IH|by injection E as <-].
Qed.

Lemma split_entry_bytes p buf r : bytes_ok buf -> split_entry p buf = Some r -> bytes_ok r.1.
Proof.
  intros HB. unfold split_entry, discard_line, unescape_quoted_value.
  intros (n & _ & E)%bind_Some. cbv zeta in E. apply bind_Some in E as (c & _ & E).
  case_match; [by eapply discard_chars_bytes|].
  apply bind_Some in E as (b1 & E1 & E). apply trim_back_bytes in E1; [|done].
  apply bind_Some in E as ([b2 p2] & E2 & E). apply blank_equals_bytes in E2; [|done]. cbn [fst] in E2.
  apply bind_Some in E as (c2 & _ & E).
  case_match; [by eapply discard_chars_bytes|]. case_match.
  - apply bind_Some in E as ([b3 q] & E3 & E). apply unescape_bytes in E3; [|done]. cbn [fst] in E3.
    case_match; by eapply discard_chars_bytes.
  - apply bind_Some in E as (k & _ & E). apply bind_Some in E as (b4 & E4 & [= <-]). by eapply trim_back_bytes.
Qed.

Lemma split_lines_bytes fuel : forall p buf buf', bytes_ok buf -> split_lines fuel p buf = Some buf' -> bytes_ok buf'.
Proof.
  induction fuel as [|fuel IH]; intros p buf buf' HB; cbn [split_lines]; [done|].
  case_match; [|by intros [= <-]]. intros (c & _ & E)%bind_Some.
  case_match.
  { apply bind_Some in E as (b & Eb & E). eapply IH; [|exact E]. by eapply put_char_bytes; [..|exact Eb]. }
  case_match; [by eapply IH|]. case_match.
  { apply bind_Some in E as (n & _ & E). apply bind_Some in E as (b & Eb & E).
    eapply IH; [|exact E]. by eapply put_char_bytes; [..|exact Eb]. }
  case_match.
  - apply bind_Some in E as ([b q] & Eb & E). apply discard_chars_bytes in Eb; [|done]. by eapply IH.
  - apply bind_Some in E as ([b q] & Eb & E). apply split_entry_bytes in Eb; [|done]. by eapply IH.
Qed.

Lemma load_bytes contents ini : bytes_ok contents -> ini_load contents = Some ini -> bytes_ok ini.
Proof. intros HB. apply split_lines_bytes, Forall_app. split; [done|by repeat constructor]. Qed.

Lemma until_zero_bytes buf s : bytes_ok buf -> until_zero buf = Some s -> bytes_ok s.
Proof.
  intros HB. revert s. induction HB as [|c buf Hc HB IH]; intros s; cbn [until_zero]; [done|].
  case_match; [by intros [= <-]|]. intros (t & Et & [= <-])%bind_Some. constructor; auto.
Qed.

Lemma ini_string_bytes ini section key s : bytes_ok ini -> ini_string ini section key = Some s -> bytes_ok s.
Proof.
  intros HB. unfold ini_string, ini_get, string_at. repeat (case_match; [|done]).
  apply until_zero_bytes. by apply Forall_drop.
Qed.

Lemma text_bytes s : bytes_ok (text s).
Proof.
  unfold text. apply Forall_map, Forall_forall. intros c _. pose proof (Ascii.N_ascii_bounded c).
  unfold is_uint. change (2 ^ 8) with 256. lia.
Qed.
End Text.

(** ** The device tree's bytes *)

Section Blob.

Record blob_bytes (b : fdt_build_blob) : Prop := {
  bt_buffer : bytes_ok (buffer b);
  bt_strings : bytes_ok (string_buffer b)
}.

Lemma store_at_bytes off l buf buf' : bytes_ok l -> bytes_ok buf -> store_at off l buf = Some buf' -> bytes_ok buf'.
Proof.
  intros Hl HB. unfold store_at. case_match; [|done]. intros [= <-].
  rewrite !Forall_app. split; [by apply Forall_take|]. split; [done|by apply Forall_drop].
Qed.
Lemma load_at_bytes off n buf l : bytes_ok buf -> load_at off n buf = Some l -> bytes_ok l.
Proof. intros HB. unfold load_at. case_match; [|done]. intros [= <-]. by apply Forall_take, Forall_drop. Qed.
Lemma zeros_bytes n : bytes_ok (replicate n 0).
Proof. apply Forall_replicate. by vm_compute. Qed.
Lemma snoc_bytes l : bytes_ok l -> bytes_ok (l ++ [0]).
Proof. intros Hl. apply Forall_app. split; [done|]. by repeat constructor. Qed.
Lemma le32_bytes v : bytes_ok (le32 v).
Proof. apply le_bytes_ok. Qed.

Lemma gives_put off l : bytes_ok l -> keeps blob_bytes (put off l).
Proof.
  intros Hl b [HB HS]. unfold put, bind, get. destruct (store_at off l (buffer b)) as [buf|] eqn:E; [|done].
  split; [|done]. split; [by eapply store_at_bytes; [..|exact E]|done].
Qed.
Lemma gives_put_string off l : bytes_ok l -> keeps blob_bytes (put_string off l).
Proof.
  intros Hl b [HB HS]. unfold put_string, bind, get.
  destruct (store_at off l (string_buffer b)) as [buf|] eqn:E; [|done].
  split; [|done]. split; [done|by eapply store_at_bytes; [..|exact E]].
Qed.
Lemma gives_put_be off v : keeps blob_bytes (put_be off v).
Proof. apply gives_put, le32_bytes. Qed.

(** An update that leaves the two buffers alone. *)
Lemma gives_pointers f :
  (forall b, buffer (f b) = buffer b /\ string_buffer (f b) = string_buffer b) -> keeps blob_bytes (modify f).
Proof. intros Hf. apply gives_modify. intros b [HB HS]. destruct (Hf b) as [E1 E2]. split; congruence. Qed.
Lemma gives_advance n : keeps blob_bytes (advance_iptr n).
Proof. by apply gives_pointers. Qed.
Lemma gives_blob {A} (f : fdt_build_blob -> A) : keeps blob_bytes (gets f).
Proof. by apply gives_gets. Qed.
Lemma gives_phandle : keeps blob_bytes generate_phandle.
Proof. by intros b [HB HS]. Qed.

#[local] Hint Resolve gives_put_be gives_advance gives_blob gives_phandle zeros_bytes snoc_bytes le32_bytes
  text_bytes : gives.
#[local] Hint Resolve gives_put gives_put_string : gives.
#[local] Hint Extern 2 (gives blob_bytes _ (modify _)) => (by apply gives_pointers) : gives.

(** A routine that reads the blob before each of its writes. *)
Ltac writes_bytes :=
  repeat first
    [ apply gives_seq; [by auto with gives|]
    | solve [auto with gives]
    | apply gives_assert; intros _
    | eapply (gives_bind blob_bytes blob_bytes); [apply gives_get|intros ? ?]
    | eapply (gives_bind _ (fun _ => True)); [by auto with gives|intros ? _] ].

Lemma gives_build_init n k : keeps blob_bytes (fdt_build_init n k).
Proof.
  unfold fdt_build_init. apply gives_seq; [|writes_bytes].
  apply gives_modify. intros _ _. split; cbn; apply zeros_bytes.
Qed.

Lemma gives_begin name : bytes_ok name -> keeps blob_bytes (fdt_begin_node name).
Proof. intros Hn. unfold fdt_begin_node. writes_bytes. Qed.

Lemma gives_in_the_buffer {A} (Q : A -> Prop) o :
  (forall a, o = Some a -> Q a) -> gives blob_bytes Q (in_the_buffer o).
Proof. intros HQ b HB. destruct o; [|done]. split; [done|by apply HQ]. Qed.

Lemma gives_load off n buf : bytes_ok buf -> gives blob_bytes bytes_ok (in_the_buffer (load_at off n buf)).
Proof. intros HB. apply gives_in_the_buffer. intros l. by apply load_at_bytes. Qed.

Lemma gives_prop name n value : bytes_ok name -> bytes_ok value -> keeps blob_bytes (fdt_prop name n value).
Proof.
  intros Hn Hv. unfold fdt_prop. writes_bytes.
  eapply gives_bind; [by apply gives_load|]. intros l Hl. cbv zeta. writes_bytes.
Qed.

Lemma gives_end_node : keeps blob_bytes fdt_end_node.
Proof. unfold fdt_end_node. writes_bytes. Qed.

Lemma gives_end : keeps blob_bytes fdt_end.
Proof.
  unfold fdt_end. writes_bytes.
  eapply (gives_bind _ (fun _ => True)); [by apply gives_in_the_buffer|]. intros off _. writes_bytes.
  eapply gives_bind; [by apply gives_load, bt_strings|]. intros l Hl. writes_bytes.
Qed.
End Blob.

Section Nodes.
Context (cfg : platform_config) (ini : list Z) (image_file_size : list Z -> Z) (Hini : bytes_ok ini).

Lemma or_zero_bytes l : bytes_ok l -> bytes_ok (or_zero l).
Proof. intros Hl. unfold or_zero. case_match; [by repeat constructor|done]. Qed.

Lemma digits_range fuel base n : 0 < base -> Forall (fun d => 0 <= d < base) (digits fuel base n).
Proof.
  intros Hb. revert n. induction fuel as [|fuel IH]; intros n; cbn [digits]; [constructor|].
  case_match; [|constructor]. constructor; [by apply Z.mod_pos_bound|apply IH].
Qed.

Lemma sprintf_x_bytes n : bytes_ok (sprintf_x n).
Proof.
  apply or_zero_bytes, Forall_map, Forall_rev. eapply Forall_impl; [by apply digits_range|].
  intros d Hd. cbn in Hd. unfold hex_char, is_uint. change (2 ^ 8) with 256. case_test; to_prop; lia.
Qed.
Lemma sprintf_d_bytes n : bytes_ok (sprintf_d n).
Proof.
  apply or_zero_bytes, Forall_map, Forall_rev. eapply Forall_impl; [by apply digits_range|].
  intros d Hd. cbn in Hd. unfold dec_char, is_uint. change (2 ^ 8) with 256. lia.
Qed.
Lemma app_bytes l k : bytes_ok l -> bytes_ok k -> bytes_ok (l ++ k).
Proof. intros. by apply Forall_app. Qed.
Lemma str0_bytes s : bytes_ok (str0 s).
Proof. apply snoc_bytes, text_bytes. Qed.
Lemma cell_bytes v : bytes_ok (cell v).
Proof. apply le32_bytes. Qed.

#[local] Hint Resolve gives_begin gives_prop gives_end_node gives_blob gives_phandle gives_pointers : gives.
#[local] Hint Resolve app_bytes str0_bytes cell_bytes le32_bytes text_bytes sprintf_x_bytes sprintf_d_bytes
  snoc_bytes : gives.
#[local] Hint Resolve Forall_nil_2 : gives.

Lemma regs_bytes base size : bytes_ok (DeviceTree.regs base size).
Proof. unfold DeviceTree.regs. auto 10 with gives. Qed.

Lemma gives_prop_string name value : keeps blob_bytes (prop_string name value).
Proof. unfold prop_string. auto with gives. Qed.
Lemma gives_prop_cell name v : keeps blob_bytes (prop_cell name v).
Proof. unfold prop_cell. auto with gives. Qed.
Lemma gives_prop_regs base size : keeps blob_bytes (prop_regs base size).
Proof. apply gives_prop; [apply text_bytes|apply regs_bytes]. Qed.
Lemma gives_prop_empty name : keeps blob_bytes (prop_empty name).
Proof. unfold prop_empty. auto with gives. Qed.
#[local] Hint Resolve gives_prop_string gives_prop_cell gives_prop_regs gives_prop_empty : gives.

Ltac builds :=
  repeat first
    [ apply gives_seq; [by auto 8 with gives|]
    | solve [auto 8 with gives]
    | eapply (gives_bind _ (fun _ => True)); [by auto with gives|intros ? _]
    | eapply (gives_bind _ (fun _ => True)); [by apply gives_of_opt|intros ? _] ].

Lemma gives_memory : keeps blob_bytes (build_memory_fdt_node cfg).
Proof. unfold build_memory_fdt_node. builds. Qed.
Lemma gives_bootrom : keeps blob_bytes (build_bootrom_fdt_node ini).
Proof. unfold build_bootrom_fdt_node. builds. Qed.

Lemma gives_cores rest : forall idx, keeps blob_bytes (build_cores rest idx).
Proof.
  induction rest as [|rest IH]; intros idx; cbn [build_cores]; [by apply gives_ret|]. builds.
Qed.
Lemma gives_cpus rest : forall idx, keeps blob_bytes (build_cpus rest idx).
Proof.
  induction rest as [|rest IH]; intros idx; cbn [build_cpus]; [by apply gives_ret|].
  apply gives_seq; [|done]. unfold build_cpu. builds.
Qed.
Lemma gives_cpu_node : keeps blob_bytes (build_cpu_fdt_node cfg).
Proof. pose proof gives_cores. pose proof gives_cpus. unfold build_cpu_fdt_node. builds. Qed.

Lemma interrupt_bytes rest : forall idx a b l, bytes_ok (interrupt_extended rest idx a b l).
Proof.
  induction rest as [|rest IH]; intros idx a b l; cbn [interrupt_extended]; [constructor|]. cbv zeta.
  auto 10 with gives.
Qed.
#[local] Hint Resolve interrupt_bytes : gives.

Lemma gives_clint_node : keeps blob_bytes (build_clint_fdt_node cfg).
Proof. unfold build_clint_fdt_node. builds. Qed.
Lemma gives_plic_node p : keeps blob_bytes (build_plic_fdt_node cfg p).
Proof. unfold build_plic_fdt_node. builds. Qed.
Lemma gives_syscon_node : keeps blob_bytes (build_syscon_fdt_node cfg).
Proof. unfold build_syscon_fdt_node. builds. Qed.
Lemma gives_uart_node p : keeps blob_bytes (build_uart_fdt_node p).
Proof. unfold build_uart_fdt_node. builds. Qed.
#[local] Hint Resolve gives_clint_node gives_plic_node gives_syscon_node gives_uart_node gives_memory gives_bootrom
  gives_cpu_node : gives.
Lemma gives_soc p : keeps blob_bytes (build_soc_fdt_node cfg p).
Proof. unfold build_soc_fdt_node. builds. Qed.

Lemma gives_chosen : keeps blob_bytes (build_chosen_fdt_node ini image_file_size).
Proof.
  unfold build_chosen_fdt_node. eapply (gives_bind _ bytes_ok).
  { apply gives_of_opt. intros s. by apply ini_string_bytes. }
  intros bootarg Hb. apply gives_seq; [auto with gives|].
  apply gives_seq; [|builds].
  case_match; [|by apply gives_ret]. case_match. builds.
Qed.
#[local] Hint Resolve gives_soc gives_chosen : gives.

(** The device tree blob is made of bytes. *)
Lemma gives_fdt_init : gives blob_bytes bytes_ok (fdt_init cfg ini image_file_size).
Proof.
  unfold fdt_init. apply gives_seq; [apply gives_build_init|].
  eapply (gives_bind _ (fun _ => True)); [apply gives_phandle|]. intros p _.
  apply gives_seq; [unfold build_root_fdt_node; builds|].
  apply gives_seq; [apply gives_end|].
  eapply (gives_bind blob_bytes blob_bytes); [apply gives_get|]. intros b HB.
  do 2 (apply gives_assert; intros _). by apply gives_load, bt_buffer.
Qed.
End Nodes.

(** ** The harts *)

Section Harts.
Context `{AssemblerOk}.
Context (isz dsz : Z) (Hi : 1 <= isz <= 2 ^ 32) (Hd : 1 <= dsz <= 2 ^ 32).

(** The hart with the TLBs it is given at the end. *)
Definition sized (h : hart) : hart := set_dtlb_cap dsz (set_itlb_cap isz h).

Lemma reset_sized f a h : sized (run_reset f a h) = run_reset f a (sized h).
Proof. by destruct f. Qed.

Lemma extension_typed a bit h : 0 <= bit < 32 -> hart_typed h ->
  hart_typed (put_csr_blob a (Z.lor (blob h a) (Z.shiftl 1 bit)) h).
Proof.
  intros Hb HT. apply typed_put_csr; [|done]. apply lor_range; [done|by apply blob_typed|].
  exact (flag_range 32 true bit ltac:(lia) Hb).
Qed.

Lemma reset_typed f a h : hart_typed h -> hart_typed (run_reset f a h).
Proof.
  intros HT. destruct f; cbn [run_reset]; try (by apply typed_put_csr); try (by apply typed_set_ienable);
    try (by apply typed_set_ipending); try (by apply typed_set_idelegation).
  unfold csr_misa_reset. cbv zeta. repeat (apply extension_typed; [lia|]). by apply typed_put_csr.
Qed.

Lemma set_csrs_typed a e h : is_uint 32 (csr_blob e) -> hart_typed h ->
  hart_typed (set_csrs_base (<[a := e]> (csrs_base h)) h).
Proof. intros He [HB HL HM HK HC HTs HId HCp HI HD []]. split; cbn; try done. by apply map_Forall_insert_2. Qed.

Lemma registery_typed ptr : forall h h', hart_typed (sized h) -> csr_registery_init ptr h = Some h' -> hart_typed (sized h').
Proof.
  induction ptr as [|e ptr IH]; intros h h' HT; cbn [csr_registery_init]; [by intros [= <-]|].
  cbv zeta. case_match; [done|]. apply IH. set (a := Z.land (reg_addr e) 0xfff).
  assert (HT1 : hart_typed (sized (set_csrs_base (<[a := {| is_valid := true; csr_addr := a; csr_blob := 0;
    wpri_mask := reg_wpri_mask e; write := reg_write e; read := reg_read e |}]> (csrs_base h)) h))).
  { by apply (set_csrs_typed a _ (sized h)). }
  case_match; [rewrite reset_sized; by apply reset_typed|exact HT1].
Qed.

Lemma fresh_typed id : 0 <= id < MAX_NR_HARTS -> hart_typed (sized (fresh_hart id)).
Proof.
  intros Hid. split; cbn; try done.
  - split; [done|]. split; [|done]. by repeat constructor.
  - by left.
Qed.

Lemma sized_flush id :
  sized (set_csrs_base ∅ (flush_translation_cache (fresh_hart id))) = flush_translation_cache (sized (fresh_hart id)).
Proof. reflexivity. Qed.

Lemma hart_init_typed id h : 0 <= id < MAX_NR_HARTS -> hart_init id = Some h -> hart_typed (sized h).
Proof.
  intros Hid. unfold hart_init. cbv zeta. intros (h1 & E1 & [= <-])%bind_Some. apply registery_typed in E1.
  - assert (sized (set_privilege_level PRIVILEGE_LEVEL_MACHINE h1)
      = set_privilege_level PRIVILEGE_LEVEL_MACHINE (sized h1)) as -> by reflexivity.
    apply typed_set_level; [by do 2 right|exact E1].
  - rewrite sized_flush. by apply typed_flush, fresh_typed.
Qed.

Lemma tlb_init_typed at_pc h : is_uint 32 at_pc -> hart_typed (sized h) ->
  hart_typed (hart_tlb_init (set_dtlb_cap dsz (set_itlb_cap isz (set_pc at_pc h)))).
Proof.
  intros Hpc HT.
  assert (set_dtlb_cap dsz (set_itlb_cap isz (set_pc at_pc h)) = set_pc at_pc (sized h)) as -> by reflexivity.
  unfold hart_tlb_init. apply typed_set_dtlb; [by apply invalidate_typed|].
  apply typed_set_itlb; [by apply invalidate_typed|]. by apply typed_set_pc.
Qed.

Lemma init_harts_typed rest : forall idx at_pc hs,
  0 <= idx -> idx + Z.of_nat rest <= MAX_NR_HARTS -> is_uint 32 at_pc ->
  init_harts rest idx at_pc isz dsz = Some hs -> Forall hart_typed hs.
Proof.
  induction rest as [|rest IH]; intros idx at_pc hs H1 H2 Hpc; cbn [init_harts]; [by intros [= <-]|].
  intros (h & Eh & E)%bind_Some. apply bind_Some in E as (hs' & Ehs & [= <-]).
  constructor; [|apply (IH (idx + 1) at_pc); [lia..|done|exact Ehs]].
  apply tlb_init_typed; [done|]. apply (hart_init_typed idx); [lia|done].
Qed.
End Harts.

(** ** The set-up *)

Lemma store_list_typed size l : forall off b,
  0 <= off -> off + len l <= size -> bytes_ok l ->
  map_Forall (fun i c => 0 <= i < size /\ is_uint 8 c) b ->
  map_Forall (fun i c => 0 <= i < size /\ is_uint 8 c) (store_list off l b).
Proof.
  induction l as [|c l IH]; intros off b H1 H2 HB HM; [done|]. rewrite len_cons in H2. pose proof (len_nonneg l).
  apply Forall_cons in HB as [Hc HB]. cbn [store_list]. apply map_Forall_insert_2; [split; [lia|done]|].
  apply IH; [lia..|done|done].
Qed.

Lemma lay_typed off l m m' : bytes_ok l -> memory_typed m -> lay off l m = Some m' -> memory_typed m'.
Proof.
  intros Hl HM. unfold lay, in_bounds. case_test; [|done]. intros [= <-]. to_prop.
  unfold memory_typed. cbn [mem_size mem_bytes]. apply store_list_typed; [tauto..|done|done].
Qed.

Section Setup.
Context `{AssemblerOk}.
Context (file : list Z -> option (list Z)) (ini : list Z) (s : setting).
Context (Hfile : forall path c, file path = Some c -> bytes_ok c).
Context (Hini : bytes_ok ini) (HC : configured file ini s).

(** The machine but for its hart. *)
Definition rest_typed (m : machine) : Prop := forall h, hart_typed h -> machine_typed (set_m_hart h m).

Record vm_typed (v : virtual_machine) : Prop := {
  vt_machine : rest_typed (vm_machine v);
  vt_harts : Forall hart_typed (vm_harts v);
  vt_nr : 0 <= vm_nr_harts v <= MAX_NR_HARTS;
  vt_fdt : blob_bytes (vm_fdt v)
}.

Lemma rest_update m m' :
  (forall h, machine_typed (set_m_hart h m) -> machine_typed (set_m_hart h m')) -> rest_typed m -> rest_typed m'.
Proof. intros Hf HT h Hh. by apply Hf, HT. Qed.

Lemma rest_set_bootrom r m : memory_typed r -> rest_typed m -> rest_typed (set_bootrom r m).
Proof. intros Hr. apply rest_update. intros h HT. exact (typed_set_bootrom r _ Hr HT). Qed.
Lemma rest_set_ram r m : memory_typed r -> rest_typed m -> rest_typed (set_ram r m).
Proof. intros Hr. apply rest_update. intros h HT. exact (typed_set_ram r _ Hr HT). Qed.
Lemma rest_set_clint c m : clint_wf c -> rest_typed m -> rest_typed (set_clint c m).
Proof. intros Hr. apply rest_update. intros h HT. exact (typed_set_clint c _ Hr HT). Qed.
Lemma rest_set_plic p m : plic_typed p -> rest_typed m -> rest_typed (set_plic p m).
Proof. intros Hr. apply rest_update. intros h HT. exact (typed_set_plic p _ Hr HT). Qed.
Lemma rest_set_uart u m : uart_typed u -> rest_typed m -> rest_typed (set_uart u m).
Proof. intros Hr. apply rest_update. intros h HT. exact (typed_set_uart u _ Hr HT). Qed.
Lemma rest_set_pmr_ops l m : rest_typed m -> rest_typed (set_pmr_ops l m).
Proof. apply rest_update. by intros h []. Qed.
Lemma rest_set_ticks n m : rest_typed m -> rest_typed (set_ticks_per_translation_unit n m).
Proof. apply rest_update. by intros h []. Qed.

Lemma gives_machine {A} (R : A -> Prop) q : gives rest_typed R q -> gives vm_typed R (on_machine q).
Proof. apply gives_zoom; [by intros v []|]. by intros v m [] Hm. Qed.
Lemma gives_fdt {A} (R : A -> Prop) q : gives blob_bytes R q -> gives vm_typed R (on_fdt q).
Proof. apply gives_zoom; [by intros v []|]. by intros v m [] Hm. Qed.

Lemma gives_set f : (forall m, rest_typed m -> rest_typed (f m)) -> keeps vm_typed (on_machine (modify f)).
Proof. intros Hf. by apply gives_machine, gives_modify. Qed.

(** An update of the figures of the configuration. *)
Lemma gives_figure f :
  (forall v, vm_machine (f v) = vm_machine v /\ vm_harts (f v) = vm_harts v /\ vm_nr_harts (f v) = vm_nr_harts v /\
     vm_fdt (f v) = vm_fdt v) -> keeps vm_typed (modify f).
Proof. intros Hf. apply gives_modify. intros v []. destruct (Hf v) as (E1 & E2 & E3 & E4). by split; rewrite ?E1, ?E2, ?E3, ?E4. Qed.

Lemma gives_register low size kind : keeps vm_typed (register_region low size kind).
Proof.
  apply gives_machine, gives_try_modify. intros m m' HT (ops & _ & [= <-])%bind_Some. by apply rest_set_pmr_ops.
Qed.

Lemma gives_number base section key : keeps vm_typed (number ini base section key).
Proof.
  eapply (gives_bind _ (fun _ => True)); [by apply gives_of_opt|]. intros x _. by apply gives_ret.
Qed.
Lemma gives_the_number base section key n :
  has_number ini base section key n -> gives vm_typed (fun x => x = n) (number ini base section key).
Proof. intros HN v HT. destruct HN as (str & E & En). unfold number, conf, bind. rewrite E. by split. Qed.
Lemma gives_conf section key : keeps vm_typed (conf ini section key).
Proof. by apply gives_of_opt. Qed.

Lemma gives_allocate n : gives vm_typed memory_typed (of_opt (preallocate_physical_memory n)).
Proof. apply gives_of_opt. unfold preallocate_physical_memory. intros m. case_match; [|done]. by intros [= <-]. Qed.
Lemma gives_preload a l path m : memory_typed m ->
  gives vm_typed (fun r => memory_typed r.2) (of_opt (preload_binary_image file a l path m)).
Proof.
  intros HM. apply gives_of_opt. unfold preload_binary_image. intros r.
  destruct (file path) as [image|] eqn:E; [|by intros [= <-]]. case_match; [done|].
  intros (m' & El & [= <-])%bind_Some. eapply lay_typed; [..|exact El]; [|done]. eapply Forall_take, Hfile, E.
Qed.

Lemma gives_bootrom_init : keeps vm_typed (bootrom_init file ini).
Proof.
  unfold bootrom_init. eapply gives_bind; [apply gives_number|]. intros start _.
  eapply gives_bind; [apply gives_number|]. intros size _. apply gives_seq; [by apply gives_figure|].
  eapply gives_bind; [apply gives_allocate|]. intros rom Hrom.
  apply gives_seq; [by apply gives_set; intros; apply rest_set_bootrom|].
  apply gives_seq; [apply gives_register|].
  eapply gives_bind; [apply gives_conf|]. intros path _. eapply gives_bind; [apply gives_number|]. intros pc _. cbv zeta.
  eapply gives_bind; [by apply gives_preload|]. intros loaded Hl. apply gives_assert. intros _.
  by apply gives_set; intros; apply rest_set_bootrom.
Qed.

Lemma gives_ram_init : keeps vm_typed (ram_init file ini).
Proof.
  unfold ram_init. eapply gives_bind; [apply gives_number|]. intros start _.
  eapply gives_bind; [apply gives_number|]. intros size _. cbv zeta. apply gives_seq; [by apply gives_figure|].
  eapply gives_bind; [apply gives_allocate|]. intros r Hr.
  apply gives_seq; [by apply gives_set; intros; apply rest_set_ram|].
  apply gives_seq; [apply gives_register|].
  eapply gives_bind; [apply gives_conf|]. intros path _. eapply gives_bind; [apply gives_number|]. intros base _.
  apply gives_assert. intros _.
  eapply gives_bind; [by apply gives_preload|]. intros loaded Hl.
  apply gives_seq; [by apply gives_set; intros; apply rest_set_ram|].
  apply gives_seq; [case_match; [by apply gives_ret|by intros v HT]|].
  repeat (case_match; [|by apply gives_ret]).
  eapply gives_bind; [by apply gives_preload|]. intros initrd Hi. apply gives_assert. intros _.
  by apply gives_set; intros; apply rest_set_ram.
Qed.

Lemma gives_cpu_init : keeps vm_typed (cpu_init ini).
Proof.
  destruct (cf_tlbs _ _ _ HC) as [(isz & Hi & Hir) (dsz & Hd & Hdr)]. pose proof (cf_nr_range _ _ _ HC) as Hn.
  assert (HU : forall n, 0 < n < 2 ^ 32 -> 1 <= u32 n <= 2 ^ 32) by (intros n ?; rewrite u32_id by (unfold is_uint; lia); lia).
  unfold cpu_init. eapply gives_bind; [apply (gives_the_number _ _ _ _ (Vm.cf_nr _ _ _ HC))|]. intros nr ->. cbv zeta.
  rewrite s32_id by lia.
  apply gives_seq; [apply gives_modify; intros v []; split; cbn; try done; unfold MAX_NR_HARTS; lia|].
  apply gives_assert. intros _. eapply gives_bind; [apply gives_number|]. intros at_pc _.
  eapply gives_bind; [apply (gives_the_number _ _ _ _ Hi)|]. intros ? ->.
  eapply gives_bind; [apply (gives_the_number _ _ _ _ Hd)|]. intros ? ->.
  eapply (gives_bind _ (Forall hart_typed)).
  - apply gives_of_opt. intros hs. apply init_harts_typed; [by apply HU..|lia| |apply u32_range].
    unfold MAX_NR_HARTS. lia.
  - intros hs Hhs. apply gives_modify. by intros v [].
Qed.

Lemma plic_init_typed base n : plic_typed (plic_init base n).
Proof.
  split; [split|..]; cbn [plic_init priority asserted claimed enable threshold pending]; try done;
    try (by apply Forall_replicate).
Qed.
Lemma uart_init_typed b : uart_typed (uart_init b).
Proof.
  split; [split|..]; cbn [uart_init rx_fifo rx_head rx_tail ier lcr mcr fcr scr dll dlm]; try done.
  by apply Forall_replicate.
Qed.

Lemma gives_device_init attached : keeps vm_typed (device_init ini attached).
Proof.
  unfold device_init. apply gives_seq; [|apply gives_seq; [|apply gives_seq]].
  - unfold clint_set_up. eapply gives_bind; [apply gives_number|]. intros base _.
    eapply gives_bind; [apply gives_number|]. intros size _.
    eapply (gives_bind _ (fun n => 0 <= n <= MAX_NR_HARTS)); [apply gives_gets; by intros v []|]. intros nr Hnr.
    apply gives_assert. intros _. apply gives_seq; [|apply gives_register].
    apply gives_set. intros m. apply rest_set_clint, clint_init_wf; [apply u32_range|done].
  - unfold plic_set_up. cbv zeta. eapply (gives_bind _ (fun _ => True)); [by apply gives_gets|]. intros nr _.
    apply gives_assert. intros _. apply gives_seq; [by apply gives_figure|]. apply gives_seq; [|apply gives_register].
    apply gives_set. intros m. apply rest_set_plic, plic_init_typed.
  - apply gives_seq; [|apply gives_register]. apply gives_set. intros m. apply rest_set_uart, uart_init_typed.
  - apply gives_seq; [by apply gives_figure|apply gives_register].
Qed.

Lemma gives_misc_init : gives vm_typed (fun i => i = ini) (misc_init ini).
Proof.
  unfold misc_init. rewrite (cf_breakpoints _ _ _ HC). apply gives_seq; [|by apply gives_ret].
  case_match; [|by apply gives_ret]. apply gives_machine. unfold set_ticks.
  apply gives_assert. intros _. apply gives_modify. intros m. apply rest_set_ticks.
Qed.

Lemma rest_lay off l m m' : bytes_ok l -> rest_typed m ->
  (rom ← lay off l (bootrom m); Some (set_bootrom rom m)) = Some m' -> rest_typed m'.
Proof.
  intros Hl HT (rom & E & [= <-])%bind_Some. intros h Hh. pose proof (HT h Hh) as HM.
  apply (typed_set_bootrom rom (set_m_hart h m)); [|done]. by eapply lay_typed; [..|exact E]; [|apply (mt_bootrom _ HM)].
Qed.

Lemma gives_fdt_set_up : keeps vm_typed (fdt_set_up file ini).
Proof.
  unfold fdt_set_up. eapply gives_bind; [apply gives_get|]. intros v _.
  eapply gives_bind; [by apply gives_fdt, gives_fdt_init|]. intros dtb Hdtb.
  apply gives_machine, gives_try_modify. intros m m'. by apply rest_lay.
Qed.

Lemma gives_boot_info : keeps vm_typed (boot_info_init file ini).
Proof.
  unfold boot_info_init. eapply gives_bind; [apply gives_number|]. intros entry _.
  eapply gives_bind; [apply gives_get|]. intros v _. apply gives_assert. intros _. case_match. cbv zeta.
  apply gives_machine, gives_try_modify. intros m m'. apply rest_lay.
  unfold boot_info_bytes. rewrite !Forall_app. repeat split; apply le32_bytes.
Qed.

Lemma gives_virtual_machine_init attached : keeps vm_typed (virtual_machine_init file ini attached).
Proof.
  unfold virtual_machine_init. apply gives_seq; [apply gives_bootrom_init|].
  apply gives_seq; [apply gives_ram_init|]. apply gives_seq; [apply gives_cpu_init|].
  apply gives_seq; [apply gives_device_init|]. eapply gives_bind; [apply gives_misc_init|]. intros i ->.
  apply gives_seq; [apply gives_fdt_set_up|apply gives_boot_info].
Qed.

Lemma gives_main config contents attached :
  file config = Some contents -> ini_load contents = Some ini ->
  gives vm_typed machine_typed (main_until_resume file config attached).
Proof.
  intros Hf Hl. unfold main_until_resume. rewrite Hf, Hl. eapply (gives_bind _ (fun i => i = ini)).
  { apply gives_of_opt. by intros i [= <-]. }
  intros i ->. apply gives_seq; [apply gives_virtual_machine_init|].
  eapply gives_bind; [apply gives_get|]. intros v HV.
  eapply (gives_bind _ hart_typed); [|intros h Hh; apply gives_ret; by apply HV].
  unfold hart_by_id. apply gives_assert. intros _. apply gives_of_opt. intros h Hh.
  eapply Forall_lookup_1; [apply HV|exact Hh].
Qed.

End Setup.

(** ** The whole program *)

Section Program.
Context `{AssemblerOk}.

Lemma off_typed keys lines : Forall bytes_ok keys -> vm_typed (vm_off (machine_off keys lines)).
Proof.
  intros HK. split; cbn [vm_off vm_machine vm_harts vm_nr_harts vm_fdt]; [|done|done|by split; apply zeros_bytes].
  intros h Hh. split; cbn [machine_off set_m_hart m_hart ram bootrom clint plic uart terminal keyboard reservations
    next_pointer poll_countdown breakpoints]; try done.
  - split; cbn [clint_nr_harts mtimecmp msip mtime clint_base]; try done; (split; [done|by apply Forall_replicate]).
  - apply plic_init_typed.
  - apply uart_init_typed.
  - split; [done|]. split; [by apply Forall_replicate|done].
Qed.

(** What [main] resumes satisfies the invariant of the loop. *)
Lemma booted_engine s m base : booted s m -> machine_typed m -> engine_ok base ∅ m.
Proof.
  intros [_ _ [[_ HZ] HU] HCa _ _ _] HT. destruct (HCa base) as (HW & HCh & HB). by split.
Qed.

Lemma starts file config contents ini s attached keys lines :
  (forall path c, file path = Some c -> bytes_ok c) -> Forall bytes_ok keys ->
  file config = Some contents -> ini_load contents = Some ini -> configured file ini s ->
  exists m v, main_until_resume file config attached (vm_off (machine_off keys lines)) = Ok m v /\
    booted s m /\ machine_typed m.
Proof.
  intros HF HK Hf Hl HC. destruct (boots file config contents ini s attached keys lines Hf Hl HC) as (m & v & E & HB).
  exists m, v. split; [done|]. split; [done|].
  assert (Hini : bytes_ok ini) by (by eapply load_bytes; [|exact Hl]; eapply HF).
  pose proof (gives_main file ini s HF Hini HC config contents attached Hf Hl _ (off_typed keys lines HK)) as HG.
  rewrite E in HG. apply HG.
Qed.

(** The files of the host hold bytes. *)
Definition files_of_bytes (file : list Z -> option (list Z)) : Prop := forall path c, file path = Some c -> bytes_ok c.

End Program.

(** ** Witness: the repository's configuration *)

Module Witness.
#[local] Existing Instance Hart.Concrete.sizes.
#[local] Existing Instance Hart.Concrete.sizes_ok.

Lemma files_bytes path c : Vm.Witness.file path = Some c -> bytes_ok c.
Proof.
  unfold Vm.Witness.file. repeat case_match; try done; intros [= <-].
  all: apply (bool_decide_unpack _); vm_compute; exact I.
Qed.

End Witness.
