(* ===== verification/Sha1.v ===== *)
(** * The checksum of the device tree

    Models src/bootrom/sha1.c, with which the firmware reports the checksum of the tree
    it found: the unrolled transform over a window of sixteen words, the update of the
    context by any number of bytes, the padding and the digest.

    Proved here: for every message, the digest is the one FIPS 180-4 defines by its
    schedule of eighty words, its round function and its padding. *)

From S2P Require Import Prelude Bytes.
Local Open Scope Z_scope.

(** ** The code *)

(** The working variables, and the state of a context.
    src/bootrom/sha1.c:79-79 SHA1Transform *)
Record five := Five { wa : Z; wb : Z; wc : Z; wd : Z; we : Z }.

Inductive var := Va | Vb | Vc | Vd | Ve.

#[export] Instance var_eq_dec : EqDecision var.
Proof. solve_decision. Defined.

Definition val (x : var) (g : five) : Z :=
  match x with Va => wa g | Vb => wb g | Vc => wc g | Vd => wd g | Ve => we g end.

Definition assign (x : var) (n : Z) (g : five) : five :=
  match x, g with
  | Va, Five _ b c d e => Five n b c d e
  | Vb, Five a _ c d e => Five a n c d e
  | Vc, Five a b _ d e => Five a b n d e
  | Vd, Five a b c _ e => Five a b c n e
  | Ve, Five a b c d _ => Five a b c d n
  end.

(** src/bootrom/sha1.c:49-49 rol *)
Definition rol (value bits : Z) : Z := Z.lor (u32 (Z.shiftl value bits)) (Z.shiftr value (32 - bits)).

Definition at_word (block : list Z) (i : Z) : Z := nth (Z.to_nat i) block 0.

(** The first expansion, on a little-endian host.
    src/bootrom/sha1.c:54-55 blk0 *)
Definition blk0 (i : Z) (block : list Z) : Z * list Z :=
  let l := at_word block i in
  let l := Z.lor (Z.land (rol l 24) 0xFF00FF00) (Z.land (rol l 8) 0x00FF00FF) in
  (l, <[Z.to_nat i := l]> block).

(** src/bootrom/sha1.c:61-62 blk *)
Definition blk (i : Z) (block : list Z) : Z * list Z :=
  let l := rol (Z.lxor (Z.lxor (Z.lxor (at_word block (Z.land (i + 13) 15)) (at_word block (Z.land (i + 8) 15)))
    (at_word block (Z.land (i + 2) 15))) (at_word block (Z.land i 15))) 1 in
  (l, <[Z.to_nat (Z.land i 15) := l]> block).

Definition transform_state : Type := five * list Z.

(** What the five macros share: [z] grows by the mix, the expanded word, the constant
    and [v] rotated; then [w] is rotated. *)
Definition round (mix : Z -> Z -> Z -> Z) (expand : Z -> list Z -> Z * list Z) (k : Z)
    (v w x y z : var) (i : Z) (st : transform_state) : transform_state :=
  let '(g, block) := st in
  let '(l, block) := expand i block in
  let g := assign z (u32 (val z g + (mix (val w g) (val x g) (val y g) + l + k + rol (val v g) 5))) g in
  (assign w (rol (val w g) 30) g, block).

(** src/bootrom/sha1.c:65-65 R0 *)
Definition R0 := round (fun w x y => Z.lxor (Z.land w (Z.lxor x y)) y) blk0 0x5A827999.
(** src/bootrom/sha1.c:66-66 R1 *)
Definition R1 := round (fun w x y => Z.lxor (Z.land w (Z.lxor x y)) y) blk 0x5A827999.
(** src/bootrom/sha1.c:67-67 R2 *)
Definition R2 := round (fun w x y => Z.lxor (Z.lxor w x) y) blk 0x6ED9EBA1.
(** src/bootrom/sha1.c:68-68 R3 *)
Definition R3 := round (fun w x y => Z.lor (Z.land (Z.lor w x) y) (Z.land w x)) blk 0x8F1BBCDC.
(** src/bootrom/sha1.c:69-69 R4 *)
Definition R4 := round (fun w x y => Z.lxor (Z.lxor w x) y) blk 0xCA62C1D6.

(** The unrolled loop.
    src/bootrom/sha1.c:106-185 SHA1Transform *)
Definition rounds : list (transform_state -> transform_state) := [
  R0 Va Vb Vc Vd Ve 0; R0 Ve Va Vb Vc Vd 1; R0 Vd Ve Va Vb Vc 2; R0 Vc Vd Ve Va Vb 3;
  R0 Vb Vc Vd Ve Va 4; R0 Va Vb Vc Vd Ve 5; R0 Ve Va Vb Vc Vd 6; R0 Vd Ve Va Vb Vc 7;
  R0 Vc Vd Ve Va Vb 8; R0 Vb Vc Vd Ve Va 9; R0 Va Vb Vc Vd Ve 10; R0 Ve Va Vb Vc Vd 11;
  R0 Vd Ve Va Vb Vc 12; R0 Vc Vd Ve Va Vb 13; R0 Vb Vc Vd Ve Va 14; R0 Va Vb Vc Vd Ve 15;
  R1 Ve Va Vb Vc Vd 16; R1 Vd Ve Va Vb Vc 17; R1 Vc Vd Ve Va Vb 18; R1 Vb Vc Vd Ve Va 19;
  R2 Va Vb Vc Vd Ve 20; R2 Ve Va Vb Vc Vd 21; R2 Vd Ve Va Vb Vc 22; R2 Vc Vd Ve Va Vb 23;
  R2 Vb Vc Vd Ve Va 24; R2 Va Vb Vc Vd Ve 25; R2 Ve Va Vb Vc Vd 26; R2 Vd Ve Va Vb Vc 27;
  R2 Vc Vd Ve Va Vb 28; R2 Vb Vc Vd Ve Va 29; R2 Va Vb Vc Vd Ve 30; R2 Ve Va Vb Vc Vd 31;
  R2 Vd Ve Va Vb Vc 32; R2 Vc Vd Ve Va Vb 33; R2 Vb Vc Vd Ve Va 34; R2 Va Vb Vc Vd Ve 35;
  R2 Ve Va Vb Vc Vd 36; R2 Vd Ve Va Vb Vc 37; R2 Vc Vd Ve Va Vb 38; R2 Vb Vc Vd Ve Va 39;
  R3 Va Vb Vc Vd Ve 40; R3 Ve Va Vb Vc Vd 41; R3 Vd Ve Va Vb Vc 42; R3 Vc Vd Ve Va Vb 43;
  R3 Vb Vc Vd Ve Va 44; R3 Va Vb Vc Vd Ve 45; R3 Ve Va Vb Vc Vd 46; R3 Vd Ve Va Vb Vc 47;
  R3 Vc Vd Ve Va Vb 48; R3 Vb Vc Vd Ve Va 49; R3 Va Vb Vc Vd Ve 50; R3 Ve Va Vb Vc Vd 51;
  R3 Vd Ve Va Vb Vc 52; R3 Vc Vd Ve Va Vb 53; R3 Vb Vc Vd Ve Va 54; R3 Va Vb Vc Vd Ve 55;
  R3 Ve Va Vb Vc Vd 56; R3 Vd Ve Va Vb Vc 57; R3 Vc Vd Ve Va Vb 58; R3 Vb Vc Vd Ve Va 59;
  R4 Va Vb Vc Vd Ve 60; R4 Ve Va Vb Vc Vd 61; R4 Vd Ve Va Vb Vc 62; R4 Vc Vd Ve Va Vb 63;
  R4 Vb Vc Vd Ve Va 64; R4 Va Vb Vc Vd Ve 65; R4 Ve Va Vb Vc Vd 66; R4 Vd Ve Va Vb Vc 67;
  R4 Vc Vd Ve Va Vb 68; R4 Vb Vc Vd Ve Va 69; R4 Va Vb Vc Vd Ve 70; R4 Ve Va Vb Vc Vd 71;
  R4 Vd Ve Va Vb Vc 72; R4 Vc Vd Ve Va Vb 73; R4 Vb Vc Vd Ve Va 74; R4 Va Vb Vc Vd Ve 75;
  R4 Ve Va Vb Vc Vd 76; R4 Vd Ve Va Vb Vc 77; R4 Vc Vd Ve Va Vb 78; R4 Vb Vc Vd Ve Va 79
].

(** The bytes of a block read as words by the host. *)
Fixpoint words_le (l : list Z) : list Z :=
  match l with a :: b :: c :: d :: l => le_value [a; b; c; d] :: words_le l | _ => [] end.

(** src/bootrom/sha1.c:74-197 SHA1Transform *)
Definition SHA1Transform (state : five) (buffer : list Z) : five :=
  let '(g, _) := foldl (fun st r => r st) (state, words_le buffer) rounds in
  Five (u32 (wa state + wa g)) (u32 (wb state + wb g)) (u32 (wc state + wc g)) (u32 (wd state + wd g))
    (u32 (we state + we g)).

(** src/bootrom/sha1.h:12-17 SHA1_CTX *)
Record SHA1_CTX := { state : five; count0 : Z; count1 : Z; buffer : list Z }.

(** The buffer is whatever was on the stack.
    src/bootrom/sha1.c:202-213 SHA1Init *)
Definition SHA1Init (context : SHA1_CTX) : SHA1_CTX :=
  {| state := Five 0x67452301 0xEFCDAB89 0x98BADCFE 0x10325476 0xC3D2E1F0; count0 := 0; count1 := 0;
     buffer := buffer context |}.

(** The loop over the blocks of the data; also returns [i].
    src/bootrom/sha1.c:237-240 SHA1Update *)
Fixpoint transform_loop (fuel : nat) (i : Z) (data : list Z) (len : Z) (state : five) : option (Z * five) :=
  if i + 63 <? len then
    match fuel with
    | O => None
    | S fuel => block ← load_at i 64 data; transform_loop fuel (i + 64) data len (SHA1Transform state block)
    end
  else Some (i, state).

(** src/bootrom/sha1.c:218-246 SHA1Update *)
Definition SHA1Update (context : SHA1_CTX) (data : list Z) (len : Z) : option SHA1_CTX :=
  let j := count0 context in
  let c0 := u32 (count0 context + u32 (Z.shiftl len 3)) in
  let c1 := if c0 <? j then u32 (count1 context + 1) else count1 context in
  let c1 := u32 (c1 + Z.shiftr len 29) in
  let j := Z.land (Z.shiftr j 3) 63 in
  if 63 <? u32 (j + len) then
    let i := 64 - j in
    head ← load_at 0 i data;
    full ← store_at j head (buffer context);
    '(i, st) ← transform_loop (length data) i data len (SHA1Transform (state context) full);
    tail ← load_at i (len - i) data;
    buf ← store_at 0 tail full;
    Some {| state := st; count0 := c0; count1 := c1; buffer := buf |}
  else
    tail ← load_at 0 len data;
    buf ← store_at j tail (buffer context);
    Some {| state := state context; count0 := c0; count1 := c1; buffer := buf |}.

(** The byte [i] of [finalcount].
    src/bootrom/sha1.c:281-281 SHA1Final *)
Definition finalcount_byte (context : SHA1_CTX) (i : Z) : Z :=
  Z.land (Z.shiftr (if 4 <=? i then count0 context else count1 context) ((3 - Z.land i 3) * 8)) 255.

(** src/bootrom/sha1.c:286-290 SHA1Final *)
Fixpoint pad_loop (fuel : nat) (context : SHA1_CTX) : option SHA1_CTX :=
  if Z.land (count0 context) 504 =? 448 then Some context
  else
    match fuel with
    | O => None
    | S fuel => context ← SHA1Update context [0] 1; pad_loop fuel context
    end.

(** src/bootrom/sha1.c:294-295 SHA1Final *)
Definition digest_byte (st : five) (i : Z) : Z :=
  Z.land (Z.shiftr (nth (Z.to_nat (Z.shiftr i 2)) [wa st; wb st; wc st; wd st; we st] 0) ((3 - Z.land i 3) * 8)) 255.

(** The fuel is more than the zeros any padding has.
    src/bootrom/sha1.c:251-300 SHA1Final *)
Definition SHA1Final (context : SHA1_CTX) : option (list Z) :=
  let finalcount := map (finalcount_byte context) (seqZ 0 8) in
  context ← SHA1Update context [0x80] 1;
  context ← pad_loop 64 context;
  context ← SHA1Update context finalcount 8;
  Some (map (digest_byte (state context)) (seqZ 0 20)).

(** The bytes are fed one by one.
    src/bootrom/sha1.c:311-312 SHA1 *)
Fixpoint SHA1_loop (str : list Z) (ctx : SHA1_CTX) : option SHA1_CTX :=
  match str with
  | [] => Some ctx
  | c :: str => ctx ← SHA1Update ctx [c] 1; SHA1_loop str ctx
  end.

(** The twenty-one bytes of [hash_out], for a string of [len] bytes.
    src/bootrom/sha1.c:302-315 SHA1 *)
Definition SHA1 (str : list Z) : option (list Z) :=
  let ctx := SHA1Init {| state := Five 0 0 0 0 0; count0 := 0; count1 := 0; buffer := replicate 64 0 |} in
  ctx ← SHA1_loop str ctx;
  digest ← SHA1Final ctx;
  Some (digest ++ [0]).

(** ** The standard *)

Definition Ch (x y z : Z) : Z := Z.lxor (Z.land x y) (Z.land (Z.lnot x) z).
Definition Parity (x y z : Z) : Z := Z.lxor (Z.lxor x y) z.
Definition Maj (x y z : Z) : Z := Z.lxor (Z.lxor (Z.land x y) (Z.land x z)) (Z.land y z).

Definition f (t : Z) : Z -> Z -> Z -> Z :=
  if t <? 20 then Ch else if t <? 40 then Parity else if t <? 60 then Maj else Parity.
Definition K (t : Z) : Z :=
  if t <? 20 then 0x5a827999 else if t <? 40 then 0x6ed9eba1 else if t <? 60 then 0x8f1bbcdc else 0xca62c1d6.

Definition ROTL (n x : Z) : Z := u32 (x * 2 ^ n) + x / 2 ^ (32 - n).

(** The word schedule, from its first sixteen words. *)
Definition extend (W : list Z) : list Z :=
  let back n := nth (length W - n) W 0 in
  W ++ [ROTL 1 (Z.lxor (Z.lxor (Z.lxor (back 3%nat) (back 8%nat)) (back 14%nat)) (back 16%nat))].
Definition schedule (M : list Z) : list Z := Nat.iter 64 extend M.

Definition step (W : list Z) (h : five) (t : Z) : five :=
  let '(Five a b c d e) := h in
  Five (u32 (ROTL 5 a + f t b c d + e + K t + nth (Z.to_nat t) W 0)) a (ROTL 30 b) c d.

Definition add5 (h g : five) : five :=
  Five (u32 (wa h + wa g)) (u32 (wb h + wb g)) (u32 (wc h + wc g)) (u32 (wd h + wd g)) (u32 (we h + we g)).

Definition compress (h : five) (M : list Z) : five := add5 h (foldl (step (schedule M)) h (seqZ 0 80)).

(** A block's words are big-endian. *)
Fixpoint words_be (l : list Z) : list Z :=
  match l with a :: b :: c :: d :: l => be_value [a; b; c; d] :: words_be l | _ => [] end.

(** The hash value after the first [n] blocks of [l]. *)
Fixpoint hash_blocks (n : nat) (h : five) (l : list Z) : five :=
  match n with
  | O => h
  | S n => hash_blocks n (compress h (words_be (take 64 l))) (drop 64 l)
  end.

Definition H0 : five := Five 0x67452301 0xefcdab89 0x98badcfe 0x10325476 0xc3d2e1f0.

(** A one bit, the fewest zeros that leave eight bytes of the last block, the length in
    bits as a big-endian 64-bit integer. *)
Definition be64 (v : Z) : list Z := be32 (v / 2 ^ 32) ++ be32 v.
Definition padded (m : list Z) : list Z :=
  m ++ 0x80 :: replicate (Z.to_nat ((55 - len m) mod 64)) 0 ++ be64 (8 * len m).

Definition digest (h : five) : list Z := be32 (wa h) ++ be32 (wb h) ++ be32 (wc h) ++ be32 (wd h) ++ be32 (we h).

Definition sha1 (m : list Z) : list Z := digest (hash_blocks (length (padded m) / 64) H0 (padded m)).

Example abc : sha1 (text "abc") =
  be32 0xA9993E36 ++ be32 0x4706816A ++ be32 0xBA3E2571 ++ be32 0x7850C26C ++ be32 0x9CD0D89D.
Proof. vm_compute. reflexivity. Qed.

Example two_blocks : sha1 (text "abcdbcdecdefdefgefghfghighijhijkijkljklmklmnlmnomnopnopq") =
  be32 0x84983E44 ++ be32 0x1C3BD26E ++ be32 0xBAAE4AA1 ++ be32 0xF95129E5 ++ be32 0xE54670F1.
Proof. vm_compute. reflexivity. Qed.

Example code_abc : SHA1 (text "abc") = Some (sha1 (text "abc") ++ [0]).
Proof. vm_compute. reflexivity. Qed.

(** ** Words *)

Lemma rol_ROTL v n : is_uint 32 v -> 0 < n < 32 -> rol v n = ROTL n v.
Proof.
  intros Hv Hn. unfold rol, ROTL. rewrite Z.shiftl_mul_pow2, Z.shiftr_div_pow2 by lia.
  unfold u32, is_uint in *. assert (2 ^ 32 = 2 ^ (32 - n) * 2 ^ n) as E by (rewrite <- Z.pow_add_r by lia; f_equal; lia).
  pose proof (Z.pow_pos_nonneg 2 n). pose proof (Z.pow_pos_nonneg 2 (32 - n)).
  rewrite E, Z.mul_mod_distr_r, <- Z.shiftl_mul_pow2, Z.lor_comm by lia.
  rewrite lor_shiftl_add; [rewrite Z.shiftl_mul_pow2 by lia; lia|lia|].
  split; [apply Z.div_pos; lia|]. apply Z.div_lt_upper_bound; lia.
Qed.

Lemma testbit_rol v n i : is_uint 32 v -> 0 < n < 32 -> 0 <= i ->
  Z.testbit (rol v n) i = if i <? 32 then if i <? n then Z.testbit v (i + (32 - n)) else Z.testbit v (i - n) else false.
Proof.
  intros Hv Hn Hi. unfold rol. autorewrite with zbits.
  destruct (Z.ltb_spec i 32); cbn [andb].
  - destruct (Z.ltb_spec i n); [by rewrite (Z.testbit_neg_r v (i - n)) by lia|].
    rewrite (testbit_high 32 v (i + (32 - n))) by (done || lia). apply orb_false_r.
  - by apply (testbit_high 32); [|lia].
Qed.

Lemma rol_range v n : is_uint 32 v -> 0 < n < 32 -> is_uint 32 (rol v n).
Proof.
  intros Hv Hn. apply is_uint_bits; [lia| |].
  - unfold rol. apply Z.lor_nonneg. split; [apply u32_range|]. apply Z.shiftr_nonneg, Hv.
  - intros i Hi. rewrite testbit_rol by (done || lia). by rewrite (proj2 (Z.ltb_ge _ _)) by lia.
Qed.

(** Words are equal when their thirty-two bits are. *)
Lemma word_bits x y :
  is_uint 32 x -> is_uint 32 y -> Forall (fun i => Z.testbit x i = Z.testbit y i) (seqZ 0 32) -> x = y.
Proof.
  intros Hx Hy HF. apply Z.bits_inj'. intros i Hi. destruct (Z.lt_ge_cases i 32) as [Hl|Hl].
  - rewrite Forall_forall in HF. apply HF, elem_of_seqZ. lia.
  - by rewrite (testbit_high 32 x), (testbit_high 32 y).
Qed.

Lemma le_value_range l : bytes_ok l -> 0 <= le_value l < 2 ^ (8 * len l).
Proof.
  induction 1 as [|b l Hb HF IH]; [done|]. cbn [le_value foldr]. fold (le_value l).
  rewrite len_cons, Z.mul_add_distr_l, Z.pow_add_r by (pose proof (len_nonneg l); lia).
  unfold is_uint in Hb. change (2 ^ (8 * 1)) with 256. change (2 ^ 8) with 256 in Hb. lia.
Qed.

Lemma le_value_be32_range v : is_uint 32 (le_value (be32 v)).
Proof. exact (le_value_range (be32 v) (be32_ok v)). Qed.

(** The bits of constants, and comparisons of them. *)
Ltac constant_bits :=
  repeat match goal with
    | |- context [Z.testbit (Zpos ?p) ?i] =>
        let b := eval vm_compute in (Z.testbit (Zpos p) i) in change (Z.testbit (Zpos p) i) with b
    | |- context [?i <? ?j] => let b := eval vm_compute in (i <? j) in
        lazymatch b with true => idtac | false => idtac end; change (i <? j) with b
    end; cbv iota.

(** On a little-endian host the masked rotations reverse a word's bytes. *)
Lemma blk0_swaps l :
  is_uint 32 l -> Z.lor (Z.land (rol l 24) 0xFF00FF00) (Z.land (rol l 8) 0x00FF00FF) = le_value (be32 l).
Proof.
  intros Hl. pose proof (rol_range l 24 Hl) as H24. pose proof (rol_range l 8 Hl) as H8. apply word_bits.
  - apply lor_range; [done|apply land_range|apply land_range]; try done; (apply H24 || apply H8); done.
  - apply le_value_be32_range.
  - rewrite <- swap32_bytes by done. unfold swap32. let l := eval vm_compute in (seqZ 0 32) in change (seqZ 0 32) with l.
    repeat (apply Forall_cons; split); [..|by apply Forall_nil];
      autorewrite with zbits; rewrite !testbit_rol by (done || lia); constant_bits;
      cbn [andb orb]; rewrite ?andb_false_r, ?andb_true_r, ?orb_false_r; done.
Qed.

(** ** The window of sixteen words *)

Lemma land15 i : Z.land i 15 = i mod 16.
Proof. change 15 with (Z.ones 4). by rewrite Z.land_ones. Qed.

Lemma at_word_put b i j v :
  0 <= i < 16 -> 0 <= j < 16 -> length b = 16%nat ->
  at_word (<[Z.to_nat i := v]> b) j = if i =? j then v else at_word b j.
Proof.
  intros Hi Hj Hb. unfold at_word. rewrite !nth_lookup. destruct (Z.eqb_spec i j) as [->|Hne].
  - by rewrite list_lookup_insert_eq by lia.
  - by rewrite list_lookup_insert_ne by lia.
Qed.

Section Window.
(** The words of the block as the host reads them, and the schedule. *)
Context (L W : Z -> Z).
Hypothesis L_range : forall i, is_uint 32 (L i).
Hypothesis W_range : forall i, is_uint 32 (W i).
Hypothesis W_first : forall i, 0 <= i < 16 -> W i = le_value (be32 (L i)).
Hypothesis W_later : forall t, 16 <= t < 80 ->
  W t = rol (Z.lxor (Z.lxor (Z.lxor (W (t - 3)) (W (t - 8))) (W (t - 14))) (W (t - 16))) 1.

(** Before round [t]: the last sixteen words of the schedule are in the window, and the
    words of the block not yet expanded. *)
Record window (t : Z) (b : list Z) : Prop := {
  wi_length : length b = 16%nat;
  wi_raw : forall i, 0 <= i < 16 -> t <= i -> at_word b i = L i;
  wi_done : forall u, 0 <= u < t -> t - 16 <= u -> at_word b (u mod 16) = W u
}.

Lemma window_put t b :
  0 <= t -> window t b -> window (t + 1) (<[Z.to_nat (t mod 16) := W t]> b).
Proof.
  intros Ht [Hl Hr Hd]. split.
  - by rewrite length_insert.
  - intros i Hi Hti. rewrite at_word_put by (done || dlia). rewrite (proj2 (Z.eqb_neq _ _)) by dlia. apply Hr; lia.
  - intros u Hu Hlo. rewrite at_word_put by (done || dlia). case_test; to_prop.
    + f_equal. dlia.
    + destruct (Z.eq_dec u t) as [->|]; [done|]. apply Hd; lia.
Qed.

Definition expand (t : Z) : Z -> list Z -> Z * list Z := if t <? 16 then blk0 else blk.

Lemma expand_ok t b :
  0 <= t < 80 -> window t b -> exists b', expand t t b = (W t, b') /\ window (t + 1) b'.
Proof.
  intros Ht HW. pose proof (window_put t b ltac:(lia) HW) as HW'. destruct HW as [Hl Hr Hd].
  exists (<[Z.to_nat (t mod 16) := W t]> b). split; [|done]. unfold expand. case_test; to_prop.
  - unfold blk0. rewrite (Hr t), blk0_swaps, <- W_first, (Z.mod_small t) by (done || lia). done.
  - unfold blk. rewrite !land15.
    replace ((t + 13) mod 16) with ((t - 3) mod 16) by dlia. replace ((t + 8) mod 16) with ((t - 8) mod 16) by dlia.
    replace ((t + 2) mod 16) with ((t - 14) mod 16) by dlia.
    replace (at_word b (t mod 16)) with (at_word b ((t - 16) mod 16)) by (f_equal; dlia).
    rewrite !Hd by lia. by rewrite <- W_later by lia.
Qed.
End Window.

(** ** The unrolled rounds *)

(** The variable that plays role [j] in round [t]. *)
Definition role (j t : Z) : var :=
  let k := (j - t) mod 5 in
  if k =? 0 then Va else if k =? 1 then Vb else if k =? 2 then Vc else if k =? 3 then Vd else Ve.

Definition view (t : Z) (g : five) : five :=
  Five (val (role 0 t) g) (val (role 1 t) g) (val (role 2 t) g) (val (role 3 t) g) (val (role 4 t) g).

Definition mix (t : Z) : Z -> Z -> Z -> Z :=
  if t <? 20 then fun w x y => Z.lxor (Z.land w (Z.lxor x y)) y
  else if t <? 40 then fun w x y => Z.lxor (Z.lxor w x) y
  else if t <? 60 then fun w x y => Z.lor (Z.land (Z.lor w x) y) (Z.land w x)
  else fun w x y => Z.lxor (Z.lxor w x) y.

Definition call (t : Z) : transform_state -> transform_state :=
  round (mix t) (expand t) (K t) (role 0 t) (role 1 t) (role 2 t) (role 3 t) (role 4 t) t.

Lemma rounds_calls : rounds = map call (seqZ 0 80).
Proof. reflexivity. Qed.

Lemma mix_f t x y z : mix t x y z = f t x y z.
Proof.
  unfold mix, f, Ch, Parity, Maj. repeat case_test; try done;
    apply Z.bits_inj'; intros i Hi; autorewrite with zbits; btauto.
Qed.

Definition five_ok (g : five) : Prop := forall x, is_uint 32 (val x g).

Lemma val_assign x y n g : val x (assign y n g) = if decide (x = y) then n else val x g.
Proof. by destruct g, x, y. Qed.

Lemma role_period t j : role j t = role j (t mod 5) /\ role j (t + 1) = role j (t mod 5 + 1).
Proof.
  unfold role. split; [replace ((j - t mod 5) mod 5) with ((j - t) mod 5) by dlia
    |replace ((j - (t mod 5 + 1)) mod 5) with ((j - (t + 1)) mod 5) by dlia]; done.
Qed.

(** One call is one step of the standard on the variables in their roles. *)
Lemma view_round W t g l :
  0 <= t < 80 -> five_ok g -> l = nth (Z.to_nat t) W 0 ->
  let g1 := assign (role 4 t) (u32 (val (role 4 t) g + (mix t (val (role 1 t) g) (val (role 2 t) g) (val (role 3 t) g)
    + l + K t + rol (val (role 0 t) g) 5))) g in
  view (t + 1) (assign (role 1 t) (rol (val (role 1 t) g1) 30) g1) = step W (view t g) t.
Proof.
  intros Ht Hg ->. cbv zeta. unfold view, step. rewrite <- !rol_ROTL by (try apply Hg; lia). rewrite <- mix_f.
  rewrite !(proj1 (role_period t _)), !(proj2 (role_period t _)).
  assert (Hk : 0 <= t mod 5 < 5) by (apply Z.mod_pos_bound; lia). generalize (K t) (nth (Z.to_nat t) W 0) (mix t).
  intros k l m. destruct g as [a b c d e].
  assert (t mod 5 = 0 \/ t mod 5 = 1 \/ t mod 5 = 2 \/ t mod 5 = 3 \/ t mod 5 = 4) as Hc by lia.
  destruct Hc as [->|[->|[->|[->| ->]]]]; repeat match goal with |- context [role ?j ?k] =>
    let v := eval vm_compute in (role j k) in change (role j k) with v end;
  cbn [val assign wa wb wc wd we]; f_equal; f_equal; lia.
Qed.

Lemma call_ok (L : Z -> Z) (W : list Z) t g b :
  (forall i, is_uint 32 (L i)) ->
  (forall i, 0 <= i < 16 -> nth (Z.to_nat i) W 0 = le_value (be32 (L i))) ->
  (forall t, 16 <= t < 80 -> nth (Z.to_nat t) W 0 =
     rol (Z.lxor (Z.lxor (Z.lxor (nth (Z.to_nat (t - 3)) W 0) (nth (Z.to_nat (t - 8)) W 0))
       (nth (Z.to_nat (t - 14)) W 0)) (nth (Z.to_nat (t - 16)) W 0)) 1) ->
  0 <= t < 80 -> five_ok g -> window L (fun i => nth (Z.to_nat i) W 0) t b ->
  exists g' b', call t (g, b) = (g', b') /\ view (t + 1) g' = step W (view t g) t /\ five_ok g' /\
    window L (fun i => nth (Z.to_nat i) W 0) (t + 1) b'.
Proof.
  intros HL H0 H1 Ht Hg HW.
  destruct (expand_ok L _ HL H0 H1 t b Ht HW) as (b' & E & HW').
  unfold call, round. rewrite E. eexists _, _. split; [done|]. split; [|split; [|done]].
  - apply view_round; try done; lia.
  - intros x. rewrite !val_assign. repeat case_decide; try (apply rol_range; [|lia]); solve [apply u32_range | apply Hg].
Qed.

(** ** The schedule *)

Lemma length_extend n M : length (Nat.iter n extend M) = (n + length M)%nat.
Proof. induction n as [|n IH]; [done|]. rewrite Nat.iter_succ. unfold extend at 1. rewrite length_app, IH. cbn. lia. Qed.

Lemma iter_prefix n k M t :
  (t < k + length M)%nat -> nth t (Nat.iter (n + k) extend M) 0 = nth t (Nat.iter k extend M) 0.
Proof.
  intros Ht. induction n as [|n IH]; [done|]. cbn [Nat.add]. rewrite Nat.iter_succ.
  unfold extend at 1. rewrite app_nth1, IH; [done|]. rewrite length_extend. lia.
Qed.

Lemma schedule_first M t : length M = 16%nat -> (t < 16)%nat -> nth t (schedule M) 0 = nth t M 0.
Proof. intros HM Ht. unfold schedule. change 64%nat with (64 + 0)%nat. by rewrite iter_prefix by lia. Qed.

Lemma schedule_later M t : length M = 16%nat -> (16 <= t < 80)%nat ->
  nth t (schedule M) 0 = ROTL 1 (Z.lxor (Z.lxor (Z.lxor (nth (t - 3) (schedule M) 0) (nth (t - 8) (schedule M) 0))
    (nth (t - 14) (schedule M) 0)) (nth (t - 16) (schedule M) 0)).
Proof.
  intros HM Ht. unfold schedule.
  assert (HP : forall u, (u < t)%nat -> nth u (Nat.iter 64 extend M) 0 = nth u (Nat.iter (t - 16) extend M) 0).
  { intros u Hu. replace 64%nat with (80 - t + (t - 16))%nat by lia. apply iter_prefix. lia. }
  rewrite (HP (t - 3)%nat), (HP (t - 8)%nat), (HP (t - 14)%nat), (HP (t - 16)%nat) by lia. replace 64%nat with (79 - t + S (t - 16))%nat by lia. rewrite iter_prefix by lia.
  rewrite Nat.iter_succ.
  unfold extend at 1. pose proof (length_extend (t - 16) M) as HL. rewrite app_nth2 by lia.
  replace (t - length (Nat.iter (t - 16) extend M))%nat with 0%nat by lia. cbn [nth].
  replace (length (Nat.iter (t - 16) extend M)) with t by lia. done.
Qed.

Lemma ROTL_range x : is_uint 32 x -> is_uint 32 (ROTL 1 x).
Proof. intros Hx. rewrite <- rol_ROTL by (done || lia). by apply rol_range. Qed.

Lemma nth_ok l i : Forall (is_uint 32) l -> is_uint 32 (nth i l 0).
Proof.
  intros HF. destruct (decide (i < length l)%nat); [|by rewrite nth_overflow by lia].
  rewrite List.Forall_nth in HF. by apply HF.
Qed.

Lemma extend_ok W : Forall (is_uint 32) W -> Forall (is_uint 32) (extend W).
Proof.
  intros HF. unfold extend. apply Forall_app. split; [done|]. apply Forall_singleton, ROTL_range.
  repeat apply lxor_range; try done; by apply nth_ok.
Qed.

Lemma schedule_ok M : Forall (is_uint 32) M -> Forall (is_uint 32) (schedule M).
Proof. intros HM. unfold schedule. generalize 64%nat. intros n. induction n as [|n IH]; [done|by apply extend_ok]. Qed.

(** ** The transform *)

Lemma list_four {A} (P : list A -> Prop) :
  P [] -> (forall a, P [a]) -> (forall a b, P [a; b]) -> (forall a b c, P [a; b; c]) ->
  (forall a b c d l, P l -> P (a :: b :: c :: d :: l)) -> forall l, P l.
Proof.
  intros H0 H1 H2 H3 H4. fix IH 1. intros [|a [|b [|c [|d l]]]]; [done|apply H1|apply H2|apply H3|apply H4, IH].
Qed.

Lemma length_words_be l : length (words_be l) = (length l / 4)%nat.
Proof.
  induction l as [| | | |a b c d l IH] using list_four; try done. cbn [words_be length]. rewrite IH.
  change (S (S (S (S (length l))))) with (4 + length l)%nat. rewrite <- (Nat.mul_1_l 4) at 2.
  by rewrite Nat.div_add_l.
Qed.

Lemma length_words_le l : length (words_le l) = length (words_be l).
Proof. induction l as [| | | |a b c d l IH] using list_four; try done. cbn. by rewrite IH. Qed.

Lemma words_ok l : bytes_ok l -> Forall (is_uint 32) (words_le l) /\
  forall i, nth i (words_be l) 0 = le_value (be32 (nth i (words_le l) 0)).
Proof.
  induction l as [| | | |a b c d l IH] using list_four; intros HF; try by (split; [constructor|intros [|i]]).
  apply (Forall_app _ [a; b; c; d]) in HF as [Hb HF]. destruct (IH HF) as [Hw Hn].
  split; [constructor; [exact (le_value_range _ Hb)|done]|].
  intros [|i]; [|exact (Hn i)]. cbn [words_be words_le nth]. unfold be_value, be32. f_equal. f_equal. symmetry.
  rewrite <- (rev_involutive [a; b; c; d]). unfold le32, le_value. cbn [foldr rev app le_bytes].
  repeat (apply Forall_cons in Hb as [? Hb]). unfold is_uint in *. change (2 ^ 8) with 256 in *. repeat f_equal; dlia.
Qed.

Section Transform.
Context (bytes : list Z) (Hbytes : bytes_ok bytes) (Hlen : length bytes = 64%nat).

Let L (i : Z) : Z := nth (Z.to_nat i) (words_le bytes) 0.
Let S : list Z := schedule (words_be bytes).

Lemma block_words : length (words_be bytes) = 16%nat /\ length (words_le bytes) = 16%nat.
Proof. rewrite length_words_le, length_words_be, Hlen. done. Qed.

Lemma S_ok i : is_uint 32 (nth i S 0).
Proof.
  apply nth_ok, schedule_ok. rewrite List.Forall_nth. intros j d Hj.
  rewrite (nth_indep _ d 0), (proj2 (words_ok bytes Hbytes)) by done. apply le_value_be32_range.
Qed.

Lemma S_later t : 16 <= t < 80 -> nth (Z.to_nat t) S 0 =
  rol (Z.lxor (Z.lxor (Z.lxor (nth (Z.to_nat (t - 3)) S 0) (nth (Z.to_nat (t - 8)) S 0))
    (nth (Z.to_nat (t - 14)) S 0)) (nth (Z.to_nat (t - 16)) S 0)) 1.
Proof.
  intros Ht. unfold S at 1. rewrite schedule_later; [|apply block_words|lia]. fold S.
  rewrite rol_ROTL; [|repeat apply lxor_range; try done; apply S_ok|lia]. rewrite !Z2Nat.inj_sub by lia. done.
Qed.

Lemma rounds_ok (n : nat) g :
  (n <= 80)%nat -> five_ok g ->
  exists g' b', foldl (fun st r => r st) (g, words_le bytes) (map call (seqZ 0 (Z.of_nat n))) = (g', b') /\
    view (Z.of_nat n) g' = foldl (step S) (view 0 g) (seqZ 0 (Z.of_nat n)) /\ five_ok g' /\
    window L (fun i => nth (Z.to_nat i) S 0) (Z.of_nat n) b'.
Proof.
  intros Hn Hg. induction n as [|n IH].
  - exists g, (words_le bytes). split; [done|]. split; [done|]. split; [done|].
    split; [apply block_words|done|lia].
  - destruct (IH ltac:(lia)) as (g1 & b1 & E1 & HV1 & Hg1 & HW1). clear IH.
    replace (Z.of_nat (Datatypes.S n)) with (Z.of_nat n + 1) by lia.
    rewrite seqZ_app, map_app, !foldl_app, E1, <- HV1 by lia.
    assert (seqZ (0 + Z.of_nat n) 1 = [Z.of_nat n]) as -> by (change (seqZ (0 + Z.of_nat n) 1) with [0 + (0 + Z.of_nat n)]; f_equal; lia).
    cbn [foldl map].
    destruct (call_ok L S (Z.of_nat n) g1 b1) as (g' & b' & E & HR); [| | |lia|done|done|].
    + intros i. unfold L. apply nth_ok, words_ok, Hbytes.
    + intros i Hi. unfold S. rewrite schedule_first; [apply words_ok, Hbytes|apply block_words|lia].
    + apply S_later.
    + exists g', b'. split; [|done]. exact E.
Qed.

Lemma view_0 g : view 0 g = g.
Proof. by destruct g. Qed.

Lemma view_80 g : view 80 g = g.
Proof. by destruct g. Qed.

(** The transform is the compression function of the standard. *)
Lemma transform_ok st :
  five_ok st -> SHA1Transform st bytes = compress st (words_be bytes) /\ five_ok (SHA1Transform st bytes).
Proof.
  intros Hst. destruct (rounds_ok 80 st) as (g & b & E & HV & Hg & _); [lia|done|].
  unfold SHA1Transform. rewrite rounds_calls. change (Z.of_nat 80) with 80 in *. rewrite E. split.
  - unfold compress, add5. fold S. rewrite view_0, view_80 in HV. by rewrite <- HV.
  - intros []; cbn [val wa wb wc wd we]; apply u32_range.
Qed.
End Transform.

(** ** Messages in blocks *)

Lemma hash_app q n h p l :
  length p = (64 * q)%nat -> hash_blocks (q + n) h (p ++ l) = hash_blocks n (hash_blocks q h p) l.
Proof.
  revert h p. induction q as [|q IH]; intros h p Hp; [by destruct p|]. cbn [Nat.add hash_blocks].
  rewrite take_app_le, drop_app_le by lia. apply IH. rewrite length_drop. lia.
Qed.

Lemma hash_prefix q h p l : length p = (64 * q)%nat -> hash_blocks q h (p ++ l) = hash_blocks q h p.
Proof. intros Hp. rewrite <- (Nat.add_0_r q) at 1. by rewrite hash_app. Qed.

Lemma compress_ok h M : five_ok (compress h M).
Proof. intros []; cbn [val compress add5 wa wb wc wd we]; apply u32_range. Qed.

Lemma hash_ok n h l : five_ok h -> five_ok (hash_blocks n h l).
Proof. revert h l. induction n as [|n IH]; intros h l Hh; [done|]. apply IH, compress_ok. Qed.

Lemma H0_ok : five_ok H0.
Proof. intros []; by vm_compute. Qed.

(** The loop hashes every whole block of what is left. *)
Lemma transform_loop_ok fuel : forall pre l i n st,
  i = len pre -> n = i + len l -> (length l <= fuel)%nat -> bytes_ok l -> five_ok st ->
  transform_loop fuel i (pre ++ l) n st =
    Some (i + 64 * Z.of_nat (length l / 64), hash_blocks (length l / 64) st l).
Proof.
  induction fuel as [|fuel IH]; intros pre l i n st Hi -> Hf Hl Hst; cbn [transform_loop]; unfold len.
  - destruct l; [|cbn in Hf; lia]. rewrite (proj2 (Z.ltb_ge _ _)) by (cbn; lia). by rewrite Z.add_0_r.
  - destruct (Z.ltb_spec (i + 63) (i + Z.of_nat (length l))) as [Hc|Hc].
    + rewrite <- (take_drop 64 l) in Hl. apply Forall_app in Hl as [H1 H2].
      assert (length (take 64 l) = 64%nat) as HT by (rewrite length_take; lia).
      assert (load_at i 64 (pre ++ l) = Some (take 64 l)) as ->.
      { rewrite <- (take_drop 64 l) at 1. apply load_at_app; [done|]. unfold len. lia. }
      cbn [mbind option_bind]. destruct (transform_ok _ H1 HT st Hst) as [E HO].
      replace (pre ++ l) with ((pre ++ take 64 l) ++ drop 64 l) by (by rewrite <- app_assoc, take_drop).
      rewrite IH; [|rewrite len_app; unfold len in *; lia|unfold len; rewrite length_drop; lia|rewrite length_drop; lia|done|done].
      rewrite length_drop. replace (length l / 64)%nat with (S ((length l - 64) / 64)).
      * rewrite E. cbn [hash_blocks]. f_equal. f_equal. lia.
      * replace (length l) with (1 * 64 + (length l - 64))%nat at 2 by lia. by rewrite Nat.div_add_l.
    + rewrite Nat.div_small by lia. by rewrite Z.add_0_r.
Qed.

(** ** The context *)

Record represents (c : SHA1_CTX) (m : list Z) : Prop := {
  rp_blocks : exists q p t, m = p ++ t /\ length p = (64 * q)%nat /\ (length t < 64)%nat /\
    state c = hash_blocks q H0 p /\ take (length t) (buffer c) = t;
  rp_buffer : length (buffer c) = 64%nat;
  rp_bytes : bytes_ok m;
  rp_count0 : count0 c = u32 (8 * len m);
  rp_count1 : count1 c = u32 (8 * len m / 2 ^ 32)
}.

Lemma fill_level n : Z.land (Z.shiftr (u32 (8 * n)) 3) 63 = n mod 64.
Proof.
  change 63 with (Z.ones 6). rewrite Z.land_ones, Z.shiftr_div_pow2 by lia. change (2 ^ 3) with 8. change (2 ^ 6) with 64.
  unfold u32. change (2 ^ 32) with 4294967296. dlia.
Qed.

(** The two halves of the bit count. *)
Lemma count_ok n k :
  0 <= n -> 0 <= k < 2 ^ 32 ->
  let c0 := u32 (u32 (8 * n) + u32 (Z.shiftl k 3)) in
  let c1 := if c0 <? u32 (8 * n) then u32 (u32 (8 * n / 2 ^ 32) + 1) else u32 (8 * n / 2 ^ 32) in
  c0 = u32 (8 * (n + k)) /\ u32 (c1 + Z.shiftr k 29) = u32 (8 * (n + k) / 2 ^ 32).
Proof.
  intros Hn Hk. cbv zeta. rewrite Z.shiftl_mul_pow2, Z.shiftr_div_pow2 by lia. unfold u32.
  change (2 ^ 3) with 8. change (2 ^ 29) with 536870912. change (2 ^ 32) with 4294967296 in *.
  split; [dlia|]. case_test; to_prop; dlia.
Qed.

Lemma store_into buf t x :
  take (length t) buf = t -> (length t + length x <= length buf)%nat ->
  store_at (len t) x buf = Some (t ++ x ++ drop (length t + length x) buf).
Proof.
  intros Ht Hl. unfold store_at, in_buffer. rewrite !(proj2 (Z.leb_le _ _)) by (unfold len; lia). cbn [andb].
  unfold len. by rewrite Nat2Z.id, Ht.
Qed.

(** What the update does to the buffer and the state, when the block does not fill up
    and when it does. *)
Lemma blocks_small (t data buf : list Z) :
  take (length t) buf = t -> length buf = 64%nat ->
  (length t + length data < 64)%nat ->
  exists buf', store_at (len t) data buf = Some buf' /\ length buf' = 64%nat /\
    take (length (t ++ data)) buf' = t ++ data.
Proof.
  intros Ht Hb Hl. rewrite store_into by (done || lia). eexists. split; [done|].
  rewrite app_assoc, !length_app, length_drop. split; [lia|]. apply take_app_length'. by rewrite length_app.
Qed.

Lemma blocks_large (p t data : list Z) q buf :
  length p = (64 * q)%nat -> take (length t) buf = t -> length buf = 64%nat -> (length t < 64)%nat ->
  (64 <= length t + length data)%nat -> bytes_ok (p ++ t ++ data) ->
  exists head full i st tail buf' q' p',
    load_at 0 (64 - len t) data = Some head /\ store_at (len t) head buf = Some full /\
    transform_loop (length data) (64 - len t) data (len data) (SHA1Transform (hash_blocks q H0 p) full) = Some (i, st) /\
    load_at i (len data - i) data = Some tail /\ store_at 0 tail full = Some buf' /\
    p ++ t ++ data = p' ++ tail /\ length p' = (64 * q')%nat /\ (length tail < 64)%nat /\
    st = hash_blocks q' H0 p' /\ take (length tail) buf' = tail /\ length buf' = 64%nat.
Proof.
  intros Hp Ht Hb Ht64 Hl Hbytes. apply Forall_app in Hbytes as [_ [Hbt Hbd]%Forall_app].
  set (d1 := take (64 - length t) data). set (d2 := drop (64 - length t) data).
  assert (data = d1 ++ d2) as Hd by (symmetry; apply take_drop).
  assert (length d1 = (64 - length t)%nat) as H1 by (unfold d1; rewrite length_take; lia).
  clearbody d1 d2. subst data. apply Forall_app in Hbd as [Hb1 Hb2].
  set (n := (length d2 / 64)%nat). set (tail := drop (64 * n) d2).
  pose proof (Nat.div_mod_eq (length d2) 64) as Hn. fold n in Hn.
  pose proof (Nat.mod_upper_bound (length d2) 64 ltac:(lia)) as Hm.
  assert (length (t ++ d1) = 64%nat) as Hf by (rewrite length_app; lia).
  assert (bytes_ok (t ++ d1)) as Hbf by (by apply Forall_app).
  assert (length tail = (length d2 mod 64)%nat) as Htl by (unfold tail; rewrite length_drop; lia).
  destruct (transform_ok (t ++ d1) Hbf Hf (hash_blocks q H0 p) (hash_ok q _ p H0_ok)) as [E HO].
  exists d1, (t ++ d1), (64 - len t + 64 * Z.of_nat n), (hash_blocks n (SHA1Transform (hash_blocks q H0 p) (t ++ d1)) d2),
    tail, (tail ++ drop (length tail) (t ++ d1)), (q + 1 + n)%nat, (p ++ t ++ d1 ++ take (64 * n) d2).
  split; [|split; [|split; [|split; [|split; [|split; [|split; [|split; [|split; [|split]]]]]]]]].
  - change (d1 ++ d2) with ([] ++ d1 ++ d2). apply load_at_app; [done|unfold len; lia].
  - rewrite store_into; [|exact Ht|lia]. rewrite drop_ge by lia. by rewrite app_nil_r.
  - apply transform_loop_ok; [unfold len; lia|rewrite len_app; unfold len; lia|rewrite length_app; lia|done|done].
  - rewrite <- (take_drop (64 * n) d2) at 2. fold tail. rewrite <- (app_nil_r tail) at 1. rewrite (app_assoc d1).
    apply load_at_app; [rewrite len_app; unfold len; rewrite length_take; lia|].
    rewrite len_app. unfold len. lia.
  - apply (store_into (t ++ d1) [] tail); [done|cbn [length]; lia].
  - unfold tail. by rewrite <- !app_assoc, take_drop.
  - rewrite !length_app, length_take. lia.
  - lia.
  - rewrite <- Nat.add_assoc, (hash_app q _ _ p) by done. rewrite app_assoc, (hash_app 1 n _ (t ++ d1)) by lia.
    cbn [hash_blocks]. rewrite E, take_ge by lia. rewrite <- (take_drop (64 * n) d2) at 1. apply hash_prefix.
    rewrite length_take. lia.
  - by rewrite take_app_length.
  - rewrite length_app, length_drop. lia.
Qed.

(** Updating by some bytes appends them to the message. *)
Lemma update_ok c m data :
  represents c m -> bytes_ok data -> len data < 2 ^ 32 - 64 ->
  exists c', SHA1Update c data (len data) = Some c' /\ represents c' (m ++ data).
Proof.
  intros [(q & p & t & -> & Hp & Ht & Hst & Hbuf) Hlen Hm H0' H1'] Hd Hl. pose proof (len_nonneg data) as Hd0.
  assert (bytes_ok ((p ++ t) ++ data)) as Hbytes by (by apply Forall_app).
  destruct (count_ok (len (p ++ t)) (len data)) as [E0 E1]; [apply len_nonneg|lia|]. rewrite <- len_app in E0, E1.
  assert (Z.land (Z.shiftr (count0 c) 3) 63 = len t) as HJ.
  { rewrite H0', fill_level, len_app. unfold len. dlia. }
  unfold SHA1Update. rewrite HJ, u32_id by (unfold is_uint, len in *; lia). rewrite H0', H1'. cbv zeta.
  destruct (Z.ltb_spec 63 (len t + len data)) as [Hc|Hc].
  - destruct (blocks_large p t data q (buffer c)) as (hd & full & i & st & tl & buf' & q' & p' & E2 & E3 & E4 & E5 & E6 & HR);
      try done; [unfold len in *; lia|by rewrite app_assoc|].
    rewrite E2. cbn [mbind option_bind]. rewrite E3. cbn [mbind option_bind]. rewrite Hst, E4. cbn [mbind option_bind].
    rewrite E5. cbn [mbind option_bind]. rewrite E6. cbn [mbind option_bind]. eexists. split; [done|].
    destruct HR as (HE & Hp' & Htl & Hst' & Htk & Hb'). split; try done. exists q', p', tl. by rewrite <- app_assoc.
  - destruct (blocks_small t data (buffer c)) as (buf' & E3 & Hb' & Htk); try done; [unfold len in *; lia|].
    assert (load_at 0 (len data) data = Some data) as ->.
    { pose proof (load_at_app 0 (len data) [] data []) as HH. rewrite app_nil_r in HH. by apply HH. }
    cbn [mbind option_bind]. rewrite E3. cbn [mbind option_bind]. eexists. split; [done|].
    split; try done. exists q, p, (t ++ data). rewrite <- app_assoc. repeat split; try done. rewrite length_app. unfold len in *; lia.
Qed.

Lemma update_one c m b : represents c m -> is_byte b -> exists c', SHA1Update c [b] 1 = Some c' /\ represents c' (m ++ [b]).
Proof. intros HR Hb. apply (update_ok c m [b] HR); [by constructor|done]. Qed.

Lemma loop_ok str : forall c m, represents c m -> bytes_ok str ->
  exists c', SHA1_loop str c = Some c' /\ represents c' (m ++ str).
Proof.
  induction str as [|b str IH]; intros c m HR HF; [exists c; by rewrite app_nil_r|].
  apply Forall_cons in HF as [Hb HF]. destruct (update_one c m b HR Hb) as (c1 & E1 & HR1).
  destruct (IH c1 (m ++ [b]) HR1 HF) as (c2 & E2 & HR2). exists c2. cbn [SHA1_loop]. rewrite E1. cbn [mbind option_bind].
  split; [done|]. by rewrite <- app_assoc in HR2.
Qed.

Lemma init_ok c : length (buffer c) = 64%nat -> represents (SHA1Init c) [].
Proof. intros Hb. split; try done. exists 0%nat, [], []. split; [done|]. split; [done|]. split; [cbn; lia|done]. Qed.

(** ** Padding *)

Lemma pad_test n : 0 <= n -> (Z.land (u32 (8 * n)) 504 =? 448) = (n mod 64 =? 56).
Proof.
  intros Hn. change 504 with (Z.shiftl (Z.ones 6) 3).
  replace (Z.land (u32 (8 * n)) (Z.shiftl (Z.ones 6) 3)) with (8 * (n mod 64)); [by apply eq_true_iff_eq; to_prop; lia|].
  rewrite <- (fill_level n). apply Z.bits_inj'. intros i Hi. rewrite (Z.mul_comm 8). change 8 with (2 ^ 3).
  rewrite <- Z.shiftl_mul_pow2, Z.land_spec, !Z.shiftl_spec by done. change 63 with (Z.ones 6).
  destruct (Z.lt_ge_cases i 3); [by rewrite !(Z.testbit_neg_r _ (i - 3)), andb_false_r by lia|].
  rewrite Z.land_spec, Z.shiftr_spec by lia. by replace (i - 3 + 3) with i by lia.
Qed.

Definition zeros_needed (n : Z) : nat := Z.to_nat ((56 - n) mod 64).

Lemma pad_loop_ok k : forall fuel c m,
  represents c m -> zeros_needed (len m) = k -> (k <= fuel)%nat ->
  exists c', pad_loop fuel c = Some c' /\ represents c' (m ++ replicate k 0).
Proof.
  induction k as [|k IH]; intros fuel c m HR Hk Hf.
  - exists c. rewrite app_nil_r. split; [|done]. pose proof (len_nonneg m).
    destruct fuel; cbn [pad_loop]; rewrite (rp_count0 _ _ HR), pad_test by done;
      unfold zeros_needed in Hk; rewrite (proj2 (Z.eqb_eq _ _)) by dlia; done.
  - destruct fuel as [|fuel]; [lia|]. cbn [pad_loop]. rewrite (rp_count0 _ _ HR), pad_test by apply len_nonneg.
    unfold zeros_needed in Hk. rewrite (proj2 (Z.eqb_neq _ _)) by dlia.
    destruct (update_one c m 0 HR ltac:(done)) as (c1 & -> & HR1). cbn [mbind option_bind].
    destruct (IH fuel c1 _ HR1) as (c2 & E2 & HR2); [unfold zeros_needed; rewrite len_app, len_cons, len_nil; dlia|lia|].
    exists c2. split; [done|]. by rewrite <- app_assoc in HR2.
Qed.

(** ** The digest *)

Lemma be32_shifts v :
  be32 v = map (fun j => Z.land (Z.shiftr v ((3 - j) * 8)) 255) [0; 1; 2; 3].
Proof.
  cbn [map]. change 255 with (Z.ones 8). rewrite !Z.land_ones, !Z.shiftr_div_pow2 by done.
  unfold be32, le32. cbn [le_bytes rev app]. rewrite !Z.div_div by done. rewrite <- (Z.div_1_r v) at 4. reflexivity.
Qed.

Lemma le_bytes_mod n : forall v, le_bytes n (v mod 2 ^ (8 * Z.of_nat n)) = le_bytes n v.
Proof.
  induction n as [|n IH]; intros v; [done|]. cbn [le_bytes]. replace (8 * Z.of_nat (S n)) with (8 + 8 * Z.of_nat n) by lia.
  rewrite Z.pow_add_r, Z.rem_mul_r by (try apply Z.pow_nonzero; lia). change (2 ^ 8) with 256.
  rewrite (Z.mul_comm 256), Z.mod_add, Z.mod_mod, Z.div_add, (Z.div_small (v mod 256)) by (try apply Z.mod_pos_bound; lia).
  by rewrite Z.add_0_l, IH.
Qed.

Lemma be32_u32 v : be32 (u32 v) = be32 v.
Proof. unfold be32, le32. f_equal. exact (le_bytes_mod 4 v). Qed.

Lemma finalcount_ok c m : represents c m -> map (finalcount_byte c) (seqZ 0 8) = be64 (8 * len m).
Proof.
  intros HR. unfold be64. rewrite <- (be32_u32 (8 * len m)), <- (be32_u32 (8 * len m / 2 ^ 32)).
  rewrite <- (rp_count0 _ _ HR), <- (rp_count1 _ _ HR), !be32_shifts. reflexivity.
Qed.

Lemma digest_ok st : map (digest_byte st) (seqZ 0 20) = digest st.
Proof. unfold digest. rewrite !be32_shifts. reflexivity. Qed.

Lemma length_padded m : exists n, length (padded m) = (64 * n)%nat.
Proof.
  exists (Z.to_nat ((len m + 9 + (55 - len m) mod 64) / 64)). unfold padded, be64.
  rewrite length_app. cbn [length]. rewrite !length_app, length_replicate. unfold len. cbn [length be32 le32 le_bytes rev app].
  dlia.
Qed.

(** All of a padded message is hashed. *)
Lemma represents_whole c m n :
  represents c m -> length m = (64 * n)%nat -> state c = hash_blocks (length m / 64) H0 m.
Proof.
  intros [(q & p & t & -> & Hp & Ht & -> & _) _ _ _ _] Hn. rewrite length_app in Hn.
  assert (length t = 0%nat) by lia. destruct t; [|done]. rewrite app_nil_r, Hp, Nat.mul_comm, Nat.div_mul; done.
Qed.

Lemma final_ok c m :
  represents c m -> SHA1Final c = Some (sha1 m).
Proof.
  intros HR. unfold SHA1Final. rewrite (finalcount_ok c m HR).
  destruct (update_one c m 0x80 HR ltac:(done)) as (c1 & -> & HR1). cbn [mbind option_bind].
  destruct (pad_loop_ok _ 64 c1 _ HR1 eq_refl) as (c2 & -> & HR2).
  { unfold zeros_needed. assert ((56 - len (m ++ [0x80])) mod 64 < 64) by (apply Z.mod_pos_bound; lia). lia. }
  cbn [mbind option_bind].
  destruct (update_ok c2 _ (be64 (8 * len m)) HR2) as (c3 & E & HR3); [apply Forall_app; split; apply be32_ok|done|].
  change (len (be64 (8 * len m))) with 8 in E. rewrite E. cbn [mbind option_bind]. rewrite digest_ok.
  assert (((m ++ [0x80]) ++ replicate (zeros_needed (len (m ++ [0x80]))) 0) ++ be64 (8 * len m) = padded m) as Hpad.
  { unfold padded, zeros_needed. rewrite <- !app_assoc. cbn [app]. do 4 f_equal. rewrite len_app, len_cons, len_nil. dlia. }
  rewrite Hpad in HR3. destruct (length_padded m) as [n Hn]. by rewrite (represents_whole c3 (padded m) n HR3 Hn).
Qed.

Lemma SHA1_spec str : bytes_ok str -> SHA1 str = Some (sha1 str ++ [0]).
Proof.
  intros HB. unfold SHA1.
  match goal with |- context [SHA1Init ?c] => destruct (loop_ok str (SHA1Init c) [] (init_ok c eq_refl) HB) as (c' & -> & HR) end.
  cbn [mbind option_bind]. by rewrite (final_ok c' str HR).
Qed.

Lemma length_sha1 m : length (sha1 m) = 20%nat.
Proof. reflexivity. Qed.

(** ** Property *)

(** C35. The checksum. For every message, hashing it a byte at a time with the unrolled
    transform gives the SHA-1 digest of FIPS 180-4 - padding, word schedule of eighty
    words, eighty rounds per block, big-endian output - followed by the terminator; no
    access leaves the context's buffer. *)
Theorem SHA1_correct str : bytes_ok str -> SHA1 str = Some (sha1 str ++ [0]).
Proof. apply SHA1_spec. Qed.

Module Witness.
(** A message of two blocks. *)
Definition message : list Z := text "The quick brown fox jumps over the lazy dog, and then over it again".

Lemma SHA1_correct_witness : bytes_ok message /\ SHA1 message = Some (sha1 message ++ [0]).
Proof.
  assert (bytes_ok message) as HB by (repeat (apply Forall_cons; split; [by vm_compute|]); apply Forall_nil_2).
  split; [exact HB|apply SHA1_correct, HB].
Defined.
End Witness.
