(* ===== verification/Boot.v ===== *)
(** * The firmware's way into the kernel

    Models src/bootrom/init.c, src/bootrom/fdt.c and the entry and the hand-over of
    src/bootrom/entry.S: [rom_entry], which clears .bss in the rom, and [fw_main] from
    the reset of the console to the mret that enters the supervisor, as a program of the
    machine. The words and bytes the firmware reads of the rom are loads through the
    memory map (Mmu.v), its messages [printk] (Console.v), its csr accesses those of
    Sbi.v, the checksum Sha1.v. The addresses the linker chooses - the trap vector, the
    top of the stacks, the bounds of .bss - are parameters, and so is what the compiled
    code leaves in .bss, where its variables and its stacks lie. The registers the
    compiler uses are not part of the model, but for the stack pointer and the two the
    kernel is handed.

    Proved here: on the machine the vmm sets up (Vm.v), the firmware enters the kernel at
    its entry at supervisor level, with the hart's id and the device tree in a0 and a1,
    exceptions and interrupts delegated as the kernel expects, and the images in memory
    as they were loaded, of the rom only .bss having changed; the console has shown the
    checksum of the device tree. *)

From S2P Require Import Prelude Ini Monad Bytes SortSearch PmRegion X86 Hart Trap Clint Plic.
From S2P Require Import Uart Machine Mmu Console CsrHandlers Csr Interrupt Debug Fdt DeviceTree.
From S2P Require Import Rv32 Decode Refine Engine Calls Run Sbi Entry Vm Sha1.
Local Open Scope Z_scope.

Definition CAUSES_TO_SUPERVISOR : list Z := [0x0; 0x1; 0x2; 0x3; 0x4; 0x5; 0x6; 0x7; 0x8; 0xc; 0xd; 0xf].

(** src/bootrom/init.c:23-35 MEDELEG_TO_SUPERVISOR *)
Definition MEDELEG_TO_SUPERVISOR : Z := foldr (fun c m => Z.lor (Z.shiftl 1 c) m) 0 CAUSES_TO_SUPERVISOR.

Definition MIP_SEIP : Z := Z.shiftl 1 9.

(** src/bootrom/init.c:38-38 MIDELEG_TO_SUPERVISOR *)
Definition MIDELEG_TO_SUPERVISOR : Z := Z.lor (Z.lor MIP_SSIP MIP_STIP) MIP_SEIP.

Definition MSTATUS_MPIE : Z := Z.shiftl 1 7.
Definition MSTATUS_MPP_SHIFT : Z := 11.
Definition MSTATUS_MPP_MASK : Z := Z.shiftl 3 MSTATUS_MPP_SHIFT.
Definition PRIVILEGE_SUPERVISOR : Z := 1.

Definition ansi (code s : list Z) : list Z := 0x1b :: code ++ s.

Section Boot.
Context `{Assembler}.

(** The field of [struct zelda_boot_info] at word [i].
    src/bootrom/init.c:40-44 boot_info *)
Definition info_word (i : Z) : prog machine Z := mmu_read32 (ZELDA_BOOT_INFO_ADDRESS + 4 * i).

Definition info_magic : prog machine Z := info_word 0.
Definition info_kernel_entry : prog machine Z := info_word 1.
Definition info_dtb_address : prog machine Z := info_word 2.
Definition info_initrd_start : prog machine Z := info_word 3.
Definition info_initrd_end : prog machine Z := info_word 4.
Definition info_memory_start : prog machine Z := info_word 5.
Definition info_memory_size : prog machine Z := info_word 6.
Definition info_nr_harts : prog machine Z := info_word 7.

(** src/bootrom/init.c:46-62 banner *)
Definition banner : prog machine unit :=
  printk crlf [] ;;;
  printk (text "zelda machine mode firmware" ++ crlf) [] ;;;
  let* nr_harts := info_nr_harts in
  printk (text "  platform    : rv32ima, %d hart(s)" ++ crlf) [va_word nr_harts] ;;;
  let* memory_start := info_memory_start in
  let* memory_size := info_memory_size in
  printk (text "  memory      : 0x%x + %d MiB" ++ crlf) [va_word memory_start; va_word (Z.shiftr memory_size 20)] ;;;
  let* dtb_address := info_dtb_address in
  printk (text "  device tree : 0x%x" ++ crlf) [va_word dtb_address] ;;;
  let* kernel_entry := info_kernel_entry in
  printk (text "  kernel      : 0x%x" ++ crlf) [va_word kernel_entry] ;;;
  let* initrd_end := info_initrd_end in
  let* initrd_start := info_initrd_start in
  (if initrd_start <? initrd_end
   then printk (text "  initrd      : 0x%x - 0x%x" ++ crlf) [va_word initrd_start; va_word initrd_end]
   else ret tt) ;;;
  printk (text "  sbi         : v0.3, extensions base/time/ipi/rfence/srst" ++ crlf) [] ;;;
  printk crlf [].

(** The bytes the hash reads. *)
Fixpoint read_bytes (n : nat) (addr : Z) : prog machine (list Z) :=
  match n with
  | O => ret []
  | S n =>
      let* b := vmread 1 addr in
      let* l := read_bytes n (addr + 1) in
      ret (b :: l)
  end.

(** The table [index_tbl] and the loop over the result.
    src/bootrom/fdt.c:22-25 validate_dtb *)
Definition hex_result (result : list Z) : list Z :=
  flat_map (fun b => [hex_char true (Z.land (Z.shiftr b 4) 0xf); hex_char true (Z.land b 0xf)]) (take 20 result).

(** src/bootrom/fdt.c:8-31 validate_dtb *)
Definition validate_dtb (dtb_address : Z) : prog machine unit :=
  let* magic := mmu_read32 dtb_address in
  if magic =? swap32 0xd00dfeed then
    printk (text "device tree detected at 0x%x" ++ [0x0a]) [va_word dtb_address] ;;;
    let* totalsize := mmu_read32 (dtb_address + 4) in
    printk (text "device tree blob size: %d bytes" ++ [0x0a]) [va_word (swap32 totalsize)] ;;;
    let* totalsize := mmu_read32 (dtb_address + 4) in
    let* bytes := read_bytes (Z.to_nat (swap32 totalsize)) dtb_address in
    let* result := of_opt (SHA1 bytes) in
    printk (text "device tree blob sha1 checksum: %s" ++ [0x0a]) [va_string (hex_result result)]
  else
    printk (ansi (text "[31m") (text "device tree not detected" ++ [0x0a] ++ ansi (text "[0m") [])) [].

Section Linked.
(** Where the linker put the trap vector, the top of the stacks and .bss. *)
Context (fw_trap_vector fw_stack_top bss_start bss_end : Z).

(** The arguments are in the registers the calling convention puts them in.
    src/bootrom/entry.S:145-155 enter_supervisor *)
Definition enter_supervisor (hartid dtb entry : Z) : prog machine unit :=
  on_hart (modify (fun h => set_HART_REG 11 dtb (set_HART_REG 10 hartid h))) ;;;
  write_csr CSR_ADDRESS_MEPC entry ;;;
  let* t1 := read_csr CSR_ADDRESS_MHARTID in
  write_csr CSR_ADDRESS_MSCRATCH (u32 (fw_stack_top - u32 (Z.shiftl t1 FW_STACK_SHIFT))) ;;;
  on_hart mret_callback.

(** [FW_SELFTEST] is not defined.
    src/bootrom/init.c:64-110 fw_main *)
Definition fw_main : fw unit :=
  uart16550_init ;;;
  let* magic := info_magic in
  if negb (magic =? ZELDA_BOOT_INFO_MAGIC) then
    printk (text "[firmware] no boot info at 0x%x, cannot continue" ++ crlf) [va_word ZELDA_BOOT_INFO_ADDRESS] ;;;
    wait_forever
  else
    banner ;;;
    let* dtb_address := info_dtb_address in
    validate_dtb dtb_address ;;;
    sbi_init fw_trap_vector ;;;
    write_csr CSR_ADDRESS_MEDELEG MEDELEG_TO_SUPERVISOR ;;;
    write_csr CSR_ADDRESS_MIDELEG MIDELEG_TO_SUPERVISOR ;;;
    let* mstatus := read_csr CSR_ADDRESS_MSTATUS in
    let mstatus := Z.ldiff mstatus MSTATUS_MPP_MASK in
    let mstatus := Z.lor mstatus (Z.shiftl PRIVILEGE_SUPERVISOR MSTATUS_MPP_SHIFT) in
    let mstatus := Z.lor mstatus MSTATUS_MPIE in
    write_csr CSR_ADDRESS_MSTATUS mstatus ;;;
    let* kernel_entry := info_kernel_entry in
    printk (text "[firmware] entering supervisor at 0x%x" ++ crlf ++ crlf) [va_word kernel_entry] ;;;
    let* hartid := read_csr CSR_ADDRESS_MHARTID in
    let* dtb_address := info_dtb_address in
    let* kernel_entry := info_kernel_entry in
    plain (enter_supervisor hartid dtb_address kernel_entry).

(** Each round goes a word further.
    src/bootrom/entry.S:33-37 rom_entry *)
Fixpoint clear_bss (fuel : nat) (t0 t1 : Z) : prog machine unit :=
  match fuel with
  | O => failed
  | S fuel =>
      if t1 <=? t0 then ret tt
      else mmu_write32 t0 0 ;;; clear_bss fuel (u32 (t0 + 4)) t1
  end.

(** Up to the call of [fw_main].
    src/bootrom/entry.S:24-38 rom_entry *)
Definition rom_reset : prog machine unit :=
  let* a0 := read_csr CSR_ADDRESS_MHARTID in
  on_hart (modify (set_HART_REG SP (u32 (fw_stack_top - u32 (Z.shiftl a0 FW_STACK_SHIFT))))) ;;;
  clear_bss (S (Z.to_nat (bss_end - bss_start))) bss_start bss_end.

(** What the compiled code leaves in its variables and on its stack: addresses with
    their bytes. *)
Context (own : list (Z * Z)).
Fixpoint leave (l : list (Z * Z)) : prog machine unit :=
  match l with
  | [] => ret tt
  | (a, b) :: l => mmu_write8 a b ;;; leave l
  end.

(** [fw_main] does not return but by the mret, and reads nothing back here that it has
    left in memory, so its own bytes are there from the start.
    src/bootrom/entry.S:24-44 rom_entry *)
Definition rom_entry : fw unit :=
  rom_reset ;;;
  leave own ;;;
  fw_main.
End Linked.
End Boot.

(** ** Programs that only read and print *)

(** The program returns [a], has printed what [P] says and changed nothing else. *)
Definition shows {A} (p : prog machine A) (m : machine) (a : A) (P : list Z -> Prop) : Prop :=
  exists o m', p m = Ok a m' /\ prints o m m' /\ P o.

Lemma shows_ret {A} (a : A) m (P : list Z -> Prop) : P [] -> shows (ret a) m a P.
Proof. intros HP. exists [], m. split; [done|]. split; [apply prints_nil|done]. Qed.

Lemma shows_load {A B} (q : prog machine A) (k : A -> prog machine B) m v b P :
  q m = Ok v m -> shows (k v) m b P -> shows (let* x := q in k x) m b P.
Proof. intros E (o & m' & Ek & H). exists o, m'. unfold bind. by rewrite E. Qed.

Lemma shows_then {A B} (p : prog machine A) (k : A -> prog machine B) m a b P Q :
  shows p m a P ->
  (forall o m', prints o m m' -> P o -> shows (k a) m' b (fun o2 => Q (o ++ o2))) ->
  shows (let* x := p in k x) m b Q.
Proof.
  intros (o & m' & E & Ho & HP) Hk. destruct (Hk o m' Ho HP) as (o2 & m2 & E2 & Ho2 & HQ).
  exists (o ++ o2), m2. unfold bind. rewrite E. split; [done|]. split; [by eapply prints_app|done].
Qed.

Lemma shows_weaken {A} (p : prog machine A) m a (P Q : list Z -> Prop) :
  shows p m a P -> (forall o, P o -> Q o) -> shows p m a Q.
Proof. intros (o & m' & E & Ho & HP) HQ. exists o, m'. auto. Qed.

(** The formats of the messages. *)
Lemma formatted_char c fmt args :
  (c =? 0x25) = false -> formatted fmt args = true -> formatted (c :: fmt) args = true.
Proof. intros Hc Hf. cbn [formatted]. by rewrite Hc. Qed.
Lemma formatted_d v fmt args :
  formatted fmt args = true -> formatted (0x25 :: 0x64 :: fmt) (va_word v :: args) = true.
Proof. done. Qed.
Lemma formatted_x v fmt args :
  formatted fmt args = true -> formatted (0x25 :: 0x78 :: fmt) (va_word v :: args) = true.
Proof. done. Qed.
Lemma formatted_s l fmt args :
  formatted fmt args = true -> formatted (0x25 :: 0x73 :: fmt) (va_string l :: args) = true.
Proof. done. Qed.

Ltac formats :=
  match goal with |- formatted ?f _ = true => let l := eval vm_compute in f in change f with l end;
  repeat first [apply formatted_x | apply formatted_s | apply formatted_d | apply formatted_char; [reflexivity|] | reflexivity].

Section Facts.
Context `{AssemblerOk}.

Lemma shows_printk fmt args m :
  formatted (text "BOOTROM: " ++ fmt) args = true -> console_ready m ->
  shows (printk fmt args) m tt (renders (text "BOOTROM: " ++ fmt) args).
Proof.
  intros Hf HR. destruct (printk_mp_raw_prints _ _ args m (le_n _) Hf HR) as (o & m' & Ho & E & HP). by exists o, m'.
Qed.

Section Platform.
Context (s : setting).

(** The machine while the firmware starts: the memory map and the rom of the set-up. *)
Record starting (m : machine) : Prop := {
  st_platform : platform m;
  st_map : table_ok (pmr_ops m) /\ pmr_ops m ≡ₚ memory_map s;
  st_rom : rom_image s (bootrom m) /\ holds_bytes ZELDA_DTB_ADDRESS (s_dtb s) (bootrom m) /\
           holds_bytes ZELDA_BOOT_INFO_ADDRESS (boot_info_bytes (s_info s)) (bootrom m)
}.

Lemma starting_prints o m m' : prints o m m' -> starting m -> starting m'.
Proof.
  intros HP [Hp Hm Hr]. pose proof (served_platform _ _ (served_prints _ _ _ HP) Hp).
  destruct HP as (p & _ & ->). by split.
Qed.

Lemma resolve_region m r a :
  starting m -> r ∈ memory_map s -> covers r a -> 0 <= a < 2 ^ 32 - 1 -> resolve m a = Some (r, a).
Proof.
  intros [[Hl _] [HT HP] _] Hin Hc Ha. unfold resolve, paging. rewrite Hl. cbn [Z.ltb Z.compare Pos.compare Pos.compare_cont andb PRIVILEGE_LEVEL_MACHINE].
  by rewrite (region_found s m r a HT HP Hin Hc Ha).
Qed.

(** ** Loads from the rom *)

Lemma load_bytes_held m l : forall off,
  (forall i c, l !! i = Some c -> mem_byte m (off + Z.of_nat i) = c) ->
  load_bytes (length l) off m = le_value l.
Proof.
  induction l as [|c l IH]; intros off Hl; [done|]. cbn [length load_bytes le_value foldr]. fold (le_value l).
  rewrite <- (Hl 0%nat c eq_refl), Z.add_0_r, IH; [done|]. intros i x Hi.
  rewrite <- (Hl (S i) x Hi). f_equal. lia.
Qed.

(** A load of some of the bytes that lie at an offset. *)
Lemma rom_load m n off pre w post :
  starting m -> holds_bytes off (pre ++ w ++ post) (bootrom m) -> n = len w -> legal_size n = true ->
  off + len pre + n <= 0x400000 -> vmread n (off + len pre) m = Ok (truncate n (le_value w)) m.
Proof.
  intros HS (Hoff & Hend & Hb) -> Hn Hlim. pose proof (len_nonneg pre). pose proof (len_nonneg post).
  assert (1 <= len w) by (unfold legal_size in Hn; revert Hn; to_prop; lia).
  rewrite (vmread_resolved _ _ m rom_region (off + len pre)).
  - unfold bind, pmr_read. cbn [pmr_callbacks rom_region]. unfold bootrom_read. cbn [addr_high rom_region addr_low].
    rewrite (proj2 (Z.ltb_ge _ _)) by lia. rewrite Hn, Z.sub_0_r. cbn [negb].
    assert (mem_load (off + len pre) (len w) (bootrom m) = Some (le_value w)) as ->; [|done].
    unfold mem_load, in_bounds. rewrite !len_app in Hend. rewrite !(proj2 (Z.leb_le _ _)) by lia. cbn [andb].
    unfold len at 1. rewrite Nat2Z.id. f_equal. apply load_bytes_held. intros i c Hi.
    rewrite <- (Hb (length pre + i)%nat c); [f_equal; unfold len; lia|].
    pose proof (lookup_lt_Some _ _ _ Hi). rewrite lookup_app_r by lia.
    replace (length pre + i - length pre)%nat with i by lia. by rewrite lookup_app_l by lia.
  - apply resolve_region; [done| |unfold covers, rom_region; cbn [addr_low addr_high]; lia|lia].
    unfold memory_map. by repeat constructor.
Qed.

Lemma rom_load32 m off pre v post :
  starting m -> holds_bytes off (pre ++ le32 v ++ post) (bootrom m) -> is_uint 32 v ->
  off + len pre + 4 <= 0x400000 -> mmu_read32 (off + len pre) m = Ok v m.
Proof.
  intros HS Hb Hv Hl. unfold mmu_read32. rewrite (rom_load m 4 off pre (le32 v) post HS Hb eq_refl eq_refl Hl).
  unfold truncate. rewrite le_value32. change (8 * 4) with 32. fold (u32 (u32 v)). by rewrite !u32_id by (done || by rewrite u32_id).
Qed.

Context (file : list Z -> option (list Z)) (ini : list Z) (HC : configured file ini s).

Lemma info_range :
  is_uint 32 (s_load s) /\ is_uint 32 (s_base s) /\ is_uint 32 (s_size s) /\ 0 < s_nr s < 2 ^ 31 /\
  is_uint 32 (bi_initrd_start (s_info s)) /\ is_uint 32 (bi_initrd_end (s_info s)).
Proof.
  pose proof (cf_ram_range _ _ _ HC) as (Hb & Hm & Ht). pose proof (cf_load_range _ _ _ HC) as [Hl Hk].
  pose proof (cf_nr_range _ _ _ HC) as Hn. pose proof (cf_initrd _ _ _ HC) as Hi. pose proof (len_nonneg (s_kernel s)).
  unfold s_info, s_range, UART_16550_BASE, s_size, is_uint in *. cbn [bi_initrd_start bi_initrd_end].
  change (2 ^ 32) with 4294967296 in *. change (2 ^ 31) with 2147483648.
  destruct (s_initrd s) as [[start contents]|]; [|cbn; lia].
  pose proof (len_nonneg contents). destruct Hi as (_ & _ & Hi1 & Hi2). cbn. lia.
Qed.

(** The fields of the boot info, by their words. *)
Lemma info_reads m :
  starting m ->
  info_magic m = Ok ZELDA_BOOT_INFO_MAGIC m /\ info_kernel_entry m = Ok (s_load s) m /\
  info_dtb_address m = Ok ZELDA_DTB_ADDRESS m /\ info_initrd_start m = Ok (bi_initrd_start (s_info s)) m /\
  info_initrd_end m = Ok (bi_initrd_end (s_info s)) m /\ info_memory_start m = Ok (s_base s) m /\
  info_memory_size m = Ok (s_size s) m /\ info_nr_harts m = Ok (s_nr s) m.
Proof.
  intros HS. pose proof (proj2 (proj2 (st_rom _ HS))) as Hi. destruct info_range as (R1 & R2 & R3 & R4 & R5 & R6).
  unfold boot_info_bytes in Hi. set (I := s_info s) in *.
  assert (HR : forall pre v post, le32 (bi_magic I) ++ le32 (bi_kernel_entry I) ++ le32 (bi_dtb_address I) ++
      le32 (bi_initrd_start I) ++ le32 (bi_initrd_end I) ++ le32 (bi_memory_start I) ++ le32 (bi_memory_size I) ++
      le32 (bi_nr_harts I) = pre ++ le32 v ++ post -> is_uint 32 v -> len pre <= 28 ->
      mmu_read32 (ZELDA_BOOT_INFO_ADDRESS + len pre) m = Ok v m).
  { intros pre v post E Hv Hp. rewrite E in Hi. apply (rom_load32 _ _ pre v post); try done. unfold ZELDA_BOOT_INFO_ADDRESS. lia. }
  set (w0 := le32 (bi_magic I)). set (w1 := le32 (bi_kernel_entry I)). set (w2 := le32 (bi_dtb_address I)).
  set (w3 := le32 (bi_initrd_start I)). set (w4 := le32 (bi_initrd_end I)). set (w5 := le32 (bi_memory_start I)).
  set (w6 := le32 (bi_memory_size I)).
  assert (is_uint 32 (s_nr s)) as R7 by (unfold is_uint; change (2 ^ 31) with 2147483648 in R4; change (2 ^ 32) with 4294967296; lia).
  split; [exact (HR [] ZELDA_BOOT_INFO_MAGIC _ eq_refl ltac:(by vm_compute) ltac:(done))|].
  split; [exact (HR w0 _ _ eq_refl R1 ltac:(done))|].
  split; [exact (HR (w0 ++ w1) ZELDA_DTB_ADDRESS _ eq_refl ltac:(by vm_compute) ltac:(done))|].
  split; [exact (HR (w0 ++ w1 ++ w2) _ _ eq_refl R5 ltac:(done))|].
  split; [exact (HR (w0 ++ w1 ++ w2 ++ w3) _ _ eq_refl R6 ltac:(done))|].
  split; [exact (HR (w0 ++ w1 ++ w2 ++ w3 ++ w4) _ _ eq_refl R2 ltac:(done))|].
  split; [exact (HR (w0 ++ w1 ++ w2 ++ w3 ++ w4 ++ w5) _ _ eq_refl R3 ltac:(done))|].
  exact (HR (w0 ++ w1 ++ w2 ++ w3 ++ w4 ++ w5 ++ w6) _ [] eq_refl R7 ltac:(done)).
Qed.

(** A message, in a program that goes on. *)
Lemma shows_message {A} fmt args (k : prog machine A) m b :
  starting m -> formatted (text "BOOTROM: " ++ fmt) args = true ->
  (forall m', starting m' -> shows k m' b (fun _ => True)) ->
  shows (printk fmt args ;;; k) m b (fun _ => True).
Proof.
  intros HS Hf Hk. eapply shows_then; [apply shows_printk; [done|apply platform_console, (st_platform _ HS)]|].
  intros o m' Hp _. eapply shows_weaken; [apply Hk; by eapply starting_prints|done].
Qed.

Lemma last_message fmt args m :
  starting m -> formatted (text "BOOTROM: " ++ fmt) args = true -> shows (printk fmt args) m tt (fun _ => True).
Proof.
  intros HS Hf. eapply shows_weaken; [apply shows_printk; [done|apply platform_console, (st_platform _ HS)]|done].
Qed.

Ltac say HS := apply (shows_message _ _ _ _ _ HS); [formats|clear HS; intros ? HS].
Ltac reads HS :=
  destruct (info_reads _ HS) as (? & ? & ? & ? & ? & ? & ? & ?);
  match goal with |- shows (bind ?q _) ?m _ _ =>
    match goal with E : q m = Ok _ m |- _ => eapply shows_load; [exact E|] end end.

Lemma banner_shows m : starting m -> shows banner m tt (fun _ => True).
Proof.
  intros HS. unfold banner. destruct info_range as (_ & _ & R3 & R4 & _).
  say HS. say HS. reads HS. say HS.
  do 2 reads HS. say HS.
  reads HS. say HS. reads HS. say HS. do 2 reads HS.
  eapply shows_then with (P := fun _ => True).
  - case_test; [|by apply shows_ret]. apply last_message; [done|formats].
  - intros o mi Hp _. apply (starting_prints _ _ _ Hp) in HS. eapply shows_weaken; [|done]. say HS. by apply last_message.
Qed.

Lemma rom_load_be32 m off pre v post :
  starting m -> holds_bytes off (pre ++ be32 v ++ post) (bootrom m) ->
  off + len pre + 4 <= 0x400000 -> mmu_read32 (off + len pre) m = Ok (le_value (be32 v)) m.
Proof.
  intros HS Hb Hl. unfold mmu_read32. rewrite (rom_load m 4 off pre (be32 v) post HS Hb eq_refl eq_refl Hl).
  unfold truncate. change (8 * 4) with 32. by rewrite Z.mod_small by apply le_value_be32_range.
Qed.

(** ** The checksum *)

Lemma blob_front its : exists rest, blob_of its = be32 FDT_MAGIC ++ be32 (len (blob_of its)) ++ rest.
Proof.
  unfold blob_of, header. cbv zeta. rewrite <- !app_assoc. eexists. do 2 f_equal.
  autorewrite with len. change (len (replicate 16 0)) with 16. f_equal. lia.
Qed.

Lemma read_bytes_held m off l : forall pre,
  starting m -> holds_bytes off (pre ++ l) (bootrom m) -> off + len pre + len l <= 0x400000 ->
  read_bytes (length l) (off + len pre) m = Ok (map u8 l) m.
Proof.
  induction l as [|c l IH]; intros pre HS Hb Hl; [done|]. rewrite len_cons in Hl. pose proof (len_nonneg l).
  cbn [length read_bytes map]. unfold bind.
  rewrite (rom_load m 1 off pre [c] l HS Hb eq_refl eq_refl) by lia.
  replace (off + len pre + 1) with (off + len (pre ++ [c])) by (rewrite len_app, len_cons, len_nil; lia).
  rewrite IH; [|done|by rewrite <- app_assoc|rewrite len_app, len_cons, len_nil; lia].
  unfold ret. do 2 f_equal. unfold truncate, u8. cbn [le_value foldr]. change (8 * 1) with 8. f_equal. lia.
Qed.

(** The checksum the console shows: of the bytes as they are loaded. *)
Definition checksum : list Z := hex_result (sha1 (map u8 (s_dtb s))).

Definition checksum_shown (o : list Z) : Prop := exists before shown, o = before ++ shown /\
  renders (text "BOOTROM: " ++ text "device tree blob sha1 checksum: %s" ++ [0x0a]) [va_string checksum] shown.

Lemma map_u8_ok l : bytes_ok (map u8 l).
Proof. apply Forall_map, Forall_true. apply u8_range. Qed.

Lemma checksum_after o o2 : checksum_shown o2 -> checksum_shown (o ++ o2).
Proof. intros (b & sh & -> & Hr). exists (o ++ b), sh. by rewrite <- app_assoc. Qed.

Lemma validate_shows m : starting m -> shows (validate_dtb ZELDA_DTB_ADDRESS) m tt checksum_shown.
Proof.
  intros HS. assert (HD : forall m, starting m -> holds_bytes ZELDA_DTB_ADDRESS (s_dtb s) (bootrom m) /\
    ZELDA_DTB_ADDRESS + len (s_dtb s) <= 0x400000).
  { intros m0 [_ _ ([Hsz _] & Hd & _)]. split; [done|]. destruct Hd as (_ & Hd & _). by rewrite Hsz in Hd. }
  destruct (blob_front (flatten (device_tree (s_config s) 0 0x400000 (s_range s) (s_bootarg s)))) as [rest E].
  fold (s_dtb s) in E. set (n := len (s_dtb s)) in E. pose proof (len_nonneg (s_dtb s)) as Hn0.
  assert (Hsize : forall m, starting m -> mmu_read32 (ZELDA_DTB_ADDRESS + 4) m = Ok (le_value (be32 n)) m).
  { intros m0 HS0. destruct (HD m0 HS0) as [Hb Hl]. rewrite E in Hb.
    exact (rom_load_be32 m0 _ (be32 FDT_MAGIC) n rest HS0 Hb ltac:(done)). }
  unfold validate_dtb. destruct (HD m HS) as [Hb Hl]. assert (Hmg := Hb). rewrite E in Hmg.
  eapply shows_load; [exact (rom_load_be32 m _ [] FDT_MAGIC _ HS Hmg ltac:(done))|].
  change (le_value (be32 FDT_MAGIC) =? swap32 0xd00dfeed) with true. cbv iota.
  assert (is_uint 32 n /\ s32 n = n) as [Hn Hs].
  { unfold ZELDA_DTB_ADDRESS in Hl. fold n in Hl, Hn0. split; [|apply s32_id]; unfold is_uint;
      change (2 ^ 32) with 4294967296; change (2 ^ 31) with 2147483648; lia. }
  eapply shows_then; [apply last_message; [done|formats]|]. intros o1 m1 Hp1 _. apply (starting_prints _ _ _ Hp1) in HS.
  eapply shows_load; [exact (Hsize m1 HS)|]. rewrite (swap32_be32 n Hn).
  eapply shows_then; [apply last_message; [done|formats]|].
  intros o2 m2 Hp2 _. apply (starting_prints _ _ _ Hp2) in HS.
  eapply shows_load; [exact (Hsize m2 HS)|]. rewrite (swap32_be32 n Hn).
  destruct (HD m2 HS) as [Hb2 Hl2]. unfold n. unfold len at 1. rewrite Nat2Z.id.
  eapply shows_load; [exact (read_bytes_held m2 ZELDA_DTB_ADDRESS (s_dtb s) [] HS Hb2 Hl2)|].
  eapply shows_load; [by rewrite (SHA1_spec _ (map_u8_ok _))|].
  eapply shows_weaken; [apply shows_printk; [formats|apply platform_console, (st_platform _ HS)]|].
  intros o3 Hr. apply checksum_after, checksum_after. by exists [], o3.
Qed.

(** ** The console *)

Lemma uart_register m reg : starting m -> 0 <= reg < 8 -> at_uart reg m.
Proof.
  intros HS Hr. exists uart_pm_region. split; [|done]. apply resolve_region; [done| |unfold covers, uart_pm_region|].
  - unfold memory_map. by repeat constructor.
  - cbn [addr_low addr_high]. unfold UART16550_BASE, UART_16550_BASE. lia.
  - unfold UART16550_BASE. lia.
Qed.

(** A store to a register, but for the data. *)
Lemma uart_set reg v m :
  starting m \/ (exists u p m0, starting m0 /\ m = set_plic p (set_uart u m0)) ->
  0 < reg < 4 \/ reg = 0 /\ dlab (uart m) = true ->
  exists u p, uart_store reg v m = Ok tt (set_plic p (set_uart u m)) /\
    lcr u = if reg =? UART_REG_LCR then u8 v else lcr (uart m).
Proof.
  intros HS Hr. assert (at_uart reg m) as HA.
  { destruct HS as [HS|(u & p & m0 & HS & ->)]; [apply uart_register; [done|lia]|].
    exact (uart_register m0 reg HS ltac:(lia)). }
  rewrite uart_store_at by done. unfold pmr_write. cbn [pmr_callbacks]. unfold uart_mmio_write.
  replace (u32 (UART16550_BASE + reg - UART_16550_BASE)) with reg.
  2: { unfold UART16550_BASE, UART_16550_BASE. rewrite u32_id; [lia|]. unfold is_uint. change (2 ^ 32) with 4294967296. lia. }
  cbn [negb Z.eqb Pos.eqb]. generalize (u8 v) as w. intros w.
  assert (reg = 0 \/ reg = 1 \/ reg = 2 \/ reg = 3) as Hc by lia.
  destruct Hc as [->|[->|[->| ->]]]; cbn -[uart_refresh_interrupt dlab truthy].
  - destruct Hr as [Hr|[_ ->]]; [lia|]. rewrite refresh_line. cbn [mbind option_bind]. rewrite app_nil_r. by eexists _, _.
  - rewrite refresh_line. cbn [mbind option_bind]. rewrite app_nil_r. eexists _, _. split; [done|]. by case_test.
  - rewrite refresh_line. cbn [mbind option_bind]. rewrite app_nil_r. eexists _, _. split; [done|]. by case_test.
  - rewrite refresh_line. cbn [mbind option_bind]. rewrite app_nil_r. by eexists _, _.
Qed.

Lemma uart_init_ok m :
  starting m -> exists u p, uart16550_init m = Ok tt (set_plic p (set_uart u m)) /\ dlab u = false.
Proof.
  intros HS.
  unfold uart16550_init, bind.
  destruct (uart_set UART_REG_IER 0x00 m) as (u1 & p1 & -> & L1); [by left|by left|].
  destruct (uart_set UART_REG_LCR 0x80 (set_plic p1 (set_uart u1 m))) as (u2 & p2 & -> & L2); [right; by exists u1, p1, m|by left|].
  change (set_plic p2 (set_uart u2 (set_plic p1 (set_uart u1 m)))) with (set_plic p2 (set_uart u2 m)).
  destruct (uart_set UART_REG_DLL 0x03 (set_plic p2 (set_uart u2 m))) as (u3 & p3 & -> & L3);
    [right; by exists u2, p2, m|right; split; [done|unfold dlab; cbn [uart set_plic set_uart]; by rewrite L2]|].
  change (set_plic p3 (set_uart u3 (set_plic p2 (set_uart u2 m)))) with (set_plic p3 (set_uart u3 m)).
  destruct (uart_set UART_REG_DLM 0x00 (set_plic p3 (set_uart u3 m))) as (u4 & p4 & -> & L4); [right; by exists u3, p3, m|by left|].
  change (set_plic p4 (set_uart u4 (set_plic p3 (set_uart u3 m)))) with (set_plic p4 (set_uart u4 m)).
  destruct (uart_set UART_REG_LCR 0x03 (set_plic p4 (set_uart u4 m))) as (u5 & p5 & -> & L5); [right; by exists u4, p4, m|by left|].
  change (set_plic p5 (set_uart u5 (set_plic p4 (set_uart u4 m)))) with (set_plic p5 (set_uart u5 m)).
  destruct (uart_set UART_REG_FCR 0xc7 (set_plic p5 (set_uart u5 m))) as (u6 & p6 & -> & L6); [right; by exists u5, p5, m|by left|].
  exists u6, p6. split; [done|]. unfold dlab. rewrite L6. cbn [uart set_plic set_uart]. by rewrite L5.
Qed.

Lemma starting_uart m u p : starting m -> dlab u = false -> starting (set_plic p (set_uart u m)).
Proof. intros [[Hl [? ? ? ? ? ? ? ? ?]] Hm Hr] Hd. split; [|done|done]. by split. Qed.

(** ** The csrs *)

Lemma write_known e f v m :
  csrs_known (m_hart m) -> e ∈ csr_registery_head -> reg_write e = Some f ->
  write_csr (reg_addr e) v m =
    Ok tt (set_m_hart (run_write f (reg_addr e) (Z.land v (reg_wpri_mask e)) (m_hart m)) m).
Proof.
  intros HK He Hf. unfold write_csr. rewrite known_access by done. unfold on_hart, zoom, bind, get.
  rewrite known_mask, known_store, Hf by done. reflexivity.
Qed.

(** What a csr write keeps. *)
Record csr_written (h h' : hart) : Prop := {
  cw_shape : forall b, shape (csr_at h' b) = shape (csr_at h b);
  cw_id : hart_id h' = hart_id h;
  cw_level : privilege_level h' = privilege_level h
}.

Lemma starting_written m h : starting m -> csr_written (m_hart m) h -> starting (set_m_hart h m).
Proof.
  intros [[Hl HW] Hm Hr] [Hs Hi Hv]. split; [|done|done]. split; [by cbn; rewrite Hv|]. by apply wired_hart.
Qed.

(** One write of a registered csr. *)
Lemma write_step e f v m :
  starting m -> e ∈ csr_registery_head -> reg_write e = Some f ->
  (forall w h, csr_written h (run_write f (reg_addr e) w h)) ->
  let h' := run_write f (reg_addr e) (Z.land v (reg_wpri_mask e)) (m_hart m) in
  write_csr (reg_addr e) v m = Ok tt (set_m_hart h' m) /\ starting (set_m_hart h' m).
Proof.
  intros HS He Hf Hw h'. split; [|apply starting_written; [done|apply Hw]].
  apply write_known; [apply (wi_csrs _ (proj2 (st_platform _ HS)))|done|done].
Qed.

Lemma written_blob a v h : csr_written h (put_csr_blob a v h).
Proof. split; [intros b; apply shape_put|done|done]. Qed.

Definition mstatus_for_kernel (v : Z) : Z :=
  Z.lor (Z.lor (Z.ldiff v MSTATUS_MPP_MASK) (Z.shiftl PRIVILEGE_SUPERVISOR MSTATUS_MPP_SHIFT)) MSTATUS_MPIE.

(** The hart as the firmware has set it up. *)
Definition prepared (vec : Z) (h : hart) : hart :=
  let h := put_csr_blob CSR_ADDRESS_MTVEC (Z.land vec 0xfffffffd) h in
  let h := csr_mip_write CSR_ADDRESS_MIP 0 (set_ienable MIE_MSIE h) in
  let h := set_idelegation MIDELEG_TO_SUPERVISOR (put_csr_blob CSR_ADDRESS_MEDELEG MEDELEG_TO_SUPERVISOR h) in
  csr_mstatus_write CSR_ADDRESS_MSTATUS
    (Z.land (mstatus_for_kernel (Z.land (csr_mstatus_read 0 CSR_ADDRESS_MSTATUS h) 0x19aa)) 0x19aa) h.

Lemma sbi_init_ok vec m :
  starting m -> let h' := csr_mip_write CSR_ADDRESS_MIP 0 (set_ienable MIE_MSIE
    (put_csr_blob CSR_ADDRESS_MTVEC (Z.land vec 0xfffffffd) (m_hart m))) in
  sbi_init vec m = Ok tt (set_m_hart h' m) /\ starting (set_m_hart h' m).
Proof.
  intros HS h'. unfold sbi_init.
  destruct (write_step mtvec_csr_entry Fn.csr_mtvec_write vec m HS ltac:(registered_csr) eq_refl) as [E1 HS1];
    [intros; apply written_blob|].
  destruct (write_step mie_csr_entry Fn.csr_mie_write MIE_MSIE _ HS1 ltac:(registered_csr) eq_refl) as [E2 HS2]; [by split|].
  destruct (write_step mip_csr_entry Fn.csr_mip_write 0 _ HS2 ltac:(registered_csr) eq_refl) as [E3 HS3]; [by split|].
  rewrite (then_step _ _ _ _ _ E1), (then_step _ _ _ _ _ E2). split; [exact E3|exact HS3].
Qed.

(** Delegation and the status, after [sbi_init]. *)
Lemma delegate_ok {A} (k : prog machine A) m :
  starting m ->
  let h1 := set_idelegation MIDELEG_TO_SUPERVISOR (put_csr_blob CSR_ADDRESS_MEDELEG MEDELEG_TO_SUPERVISOR (m_hart m)) in
  let m' := set_m_hart (csr_mstatus_write CSR_ADDRESS_MSTATUS
    (Z.land (mstatus_for_kernel (Z.land (csr_mstatus_read 0 CSR_ADDRESS_MSTATUS h1) 0x19aa)) 0x19aa) h1) m in
  (write_csr CSR_ADDRESS_MEDELEG MEDELEG_TO_SUPERVISOR ;;;
   write_csr CSR_ADDRESS_MIDELEG MIDELEG_TO_SUPERVISOR ;;;
   let* mstatus := read_csr CSR_ADDRESS_MSTATUS in
   write_csr CSR_ADDRESS_MSTATUS (mstatus_for_kernel mstatus) ;;;
   k) m = k m' /\ starting m'.
Proof.
  intros HS h1 m'.
  destruct (write_step medeleg_csr_entry Fn.csr_medeleg_write MEDELEG_TO_SUPERVISOR m HS ltac:(registered_csr) eq_refl)
    as [E1 HS1]; [intros; apply written_blob|].
  destruct (write_step mideleg_csr_entry Fn.csr_mideleg_write MIDELEG_TO_SUPERVISOR _ HS1 ltac:(registered_csr) eq_refl)
    as [E2 HS2]; [by split|].
  rewrite (then_step _ _ _ _ _ E1), (then_step _ _ _ _ _ E2).
  rewrite (then_step _ _ _ _ _ (read_known mstatus_csr_entry Fn.csr_mstatus_read (set_m_hart h1 m) _
    (wi_csrs _ (proj2 (st_platform _ HS2))) ltac:(registered_csr) eq_refl eq_refl)).
  destruct (write_step mstatus_csr_entry Fn.csr_mstatus_write
    (mstatus_for_kernel (Z.land (csr_mstatus_read 0 CSR_ADDRESS_MSTATUS h1) 0x19aa)) _ HS2 ltac:(registered_csr) eq_refl)
    as [E4 HS4]; [by split|].
  rewrite (then_step _ _ _ _ _ E4). split; [done|exact HS4].
Qed.

Lemma read_sie now a h : Z.testbit (csr_mstatus_read now a h) 1 = sie (status h).
Proof.
  unfold csr_mstatus_read. rewrite !Z.lor_spec, !testbit_flag, Z.shiftl_spec, (Z.testbit_neg_r (mpp _)) by done.
  cbn [Z.eqb Pos.eqb]. change (Z.testbit 0 1) with false. btauto.
Qed.

Lemma prepared_status vec h :
  mpp (status (prepared vec h)) = PRIVILEGE_SUPERVISOR /\ mpie (status (prepared vec h)) = true /\
  sie (status (prepared vec h)) = sie (status h).
Proof.
  unfold prepared. cbv zeta.
  change (csr_mstatus_read 0 CSR_ADDRESS_MSTATUS _) with (csr_mstatus_read 0 CSR_ADDRESS_MSTATUS h).
  rewrite <- (read_sie 0 CSR_ADDRESS_MSTATUS h).
  cbn [csr_mstatus_write status set_status mpp mpie sie]. generalize (csr_mstatus_read 0 CSR_ADDRESS_MSTATUS h). intros x.
  unfold mstatus_for_kernel. change (Z.shiftl PRIVILEGE_SUPERVISOR MSTATUS_MPP_SHIFT) with 0x800.
  change MSTATUS_MPP_MASK with 0x1800. change MSTATUS_MPIE with 0x80. change PRIVILEGE_SUPERVISOR with 1.
  split; [|split].
  - apply Z.bits_inj'. intros i Hi. rewrite !Z.land_spec, Z.shiftr_spec, !Z.land_spec, !Z.lor_spec, Z.ldiff_spec by done.
    destruct (Z.lt_ge_cases i 2).
    + assert (i = 0 \/ i = 1) as [-> | ->] by lia; [change (0 + 11) with 11|change (1 + 11) with 12]; known_bits; btauto.
    + rewrite (testbit_high 2 0x3), (testbit_high 2 1) by (done || lia). btauto.
  - rewrite value_bit_testbit, !Z.land_spec, !Z.lor_spec by done. known_bits. btauto.
  - rewrite value_bit_testbit, !Z.land_spec, !Z.lor_spec, Z.ldiff_spec, Z.land_spec by done. known_bits. btauto.
Qed.

(** ** The hand-over *)

(** What an mret to supervisor level leaves and takes. *)
Record dropped (h h' : hart) : Prop := {
  dr_pc : pc h' = blob h CSR_ADDRESS_MEPC;
  dr_level : privilege_level h' = PRIVILEGE_LEVEL_SUPERVISOR;
  dr_registers : registers h' = registers h;
  dr_csrs : csrs_base h' = csrs_base h;
  dr_id : hart_id h' = hart_id h;
  dr_irqs : idelegation h' = idelegation h /\ ienable h' = ienable h /\ ipending h' = ipending h;
  dr_enables : mie (status h') = mpie (status h) /\ sie (status h') = sie (status h)
}.

Lemma mret_drops h :
  privilege_level h = PRIVILEGE_LEVEL_MACHINE -> mpp (status h) = PRIVILEGE_SUPERVISOR ->
  exists h', mret_callback h = Ok tt h' /\ dropped h h'.
Proof.
  intros Hl Hm. unfold mret_callback, assert_hart_running_in_mmode, bind, gets. rewrite Hl.
  cbn [Z.eqb Pos.eqb PRIVILEGE_LEVEL_MACHINE negb]. unfold adjust_mstatus_upon_mret, bind, get, ASSERT, ret.
  assert (((mpp (status h) =? PRIVILEGE_LEVEL_USER) || (mpp (status h) =? PRIVILEGE_LEVEL_SUPERVISOR)
    || (mpp (status h) =? PRIVILEGE_LEVEL_MACHINE))%bool = true) as Hr by by rewrite Hm.
  rewrite Hr. eexists. split; [reflexivity|].
  unfold flush_translation_cache_on_address_space_change. case_test; split; try exact Hm; try done; by csr_reads.
Qed.

(** The kernel's entry, from a hart that is prepared. *)
Lemma enter_ok top id dtb entry m :
  starting m -> mpp (status (m_hart m)) = PRIVILEGE_SUPERVISOR -> is_uint 32 entry ->
  exists h, enter_supervisor top id dtb entry m = Ok tt (set_m_hart h m) /\
    pc h = entry /\ privilege_level h = PRIVILEGE_LEVEL_SUPERVISOR /\
    registers h = registers (set_HART_REG 11 dtb (set_HART_REG 10 id (m_hart m))) /\
    (forall a, a <> CSR_ADDRESS_MEPC -> a <> CSR_ADDRESS_MSCRATCH -> blob h a = blob (m_hart m) a) /\
    idelegation h = idelegation (m_hart m) /\ ienable h = ienable (m_hart m) /\ ipending h = ipending (m_hart m) /\
    sie (status h) = sie (status (m_hart m)) /\ mie (status h) = mpie (status (m_hart m)) /\ wired (set_m_hart h m) /\
    blob h CSR_ADDRESS_MSCRATCH = u32 (top - u32 (Z.shiftl (u32 (hart_id (m_hart m))) FW_STACK_SHIFT)).
Proof.
  intros HS Hm He. set (h1 := set_HART_REG 11 dtb (set_HART_REG 10 id (m_hart m))).
  assert (starting (set_m_hart h1 m)) as HS1 by (apply starting_written; [done|by split]).
  destruct (write_step mepc_csr_entry Fn.csr_mepc_write entry _ HS1 mepc_known eq_refl) as [E1 HS2];
    [intros; apply written_blob|].
  set (t0 := u32 (top - u32 (Z.shiftl (u32 (hart_id (m_hart m))) FW_STACK_SHIFT))).
  destruct (write_step mscratch_csr_entry Fn.csr_mscratch_write t0 _ HS2 ltac:(registered_csr) eq_refl) as [E2 HS3];
    [intros; apply written_blob|].
  match type of HS3 with starting (set_m_hart ?x _) => set (h3 := x) in * end.
  destruct (mret_drops h3 (proj1 (st_platform _ HS3)) Hm) as (h & E3 & [D1 D2 D3 D4 D5 (D6 & D7 & D8) [D9 D10]]).
  exists h. split.
  { unfold enter_supervisor. erewrite then_step by reflexivity. rewrite (then_step _ _ _ _ _ E1).
    rewrite (then_step _ _ _ _ _ (read_hartid _ (wi_csrs _ (proj2 (st_platform _ HS2))))).
    rewrite (then_step _ _ _ _ _ E2). unfold on_hart, zoom. cbn [m_hart set_m_hart]. fold h3. by rewrite E3. }
  assert (h3 = put_csr_blob CSR_ADDRESS_MSCRATCH (u32 t0) (put_csr_blob CSR_ADDRESS_MEPC (u32 entry) h1)) as Eh.
  { unfold u32 at 1 2. rewrite <- (land_low t0), <- (land_low entry). reflexivity. }
  clearbody h3. subst h3.
  split; [rewrite D1; csr_reads; by apply u32_id|]. split; [exact D2|]. split; [exact D3|].
  split. { intros a Ha1 Ha2. transitivity (blob (put_csr_blob CSR_ADDRESS_MSCRATCH (u32 t0) (put_csr_blob CSR_ADDRESS_MEPC (u32 entry) h1)) a).
    - unfold blob, csr_at. by rewrite D4.
    - rewrite !blob_put, !(proj2 (Z.eqb_neq _ _)) by done. done. }
  do 3 (split; [done|]). split; [exact D10|]. split; [exact D9|].
  split.
  - destruct (st_platform _ HS3) as [_ HW]. refine (wired_hart h _ HW _ D5). intros b. unfold csr_at. by rewrite D4.
  - transitivity (blob (put_csr_blob CSR_ADDRESS_MSCRATCH (u32 t0) (put_csr_blob CSR_ADDRESS_MEPC (u32 entry) h1)) CSR_ADDRESS_MSCRATCH).
    + unfold blob, csr_at. by rewrite D4.
    + rewrite blob_put, Z.eqb_refl. unfold t0. by rewrite u32_u32.
Qed.

(** The machine the kernel starts on, from the machine that was resumed. *)
Record entered (vec top : Z) (m m' : machine) : Prop := {
  en_kernel : privilege_level (m_hart m') = PRIVILEGE_LEVEL_SUPERVISOR /\ pc (m_hart m') = s_load s;
  en_arguments : HART_REG (m_hart m') 10 = s_boot s /\ HART_REG (m_hart m') 11 = ZELDA_DTB_ADDRESS;
  en_delegated : blob (m_hart m') CSR_ADDRESS_MEDELEG = MEDELEG_TO_SUPERVISOR /\
                 idelegation (m_hart m') = MIDELEG_TO_SUPERVISOR;
  en_trap : blob (m_hart m') CSR_ADDRESS_MTVEC = Z.land vec 0xfffffffd /\ ienable (m_hart m') = MIE_MSIE;
  en_enables : sie (status (m_hart m')) = sie (status (m_hart m)) /\ mie (status (m_hart m')) = true;
  en_scratch : blob (m_hart m') CSR_ADDRESS_MSCRATCH = u32 (top - u32 (Z.shiftl (s_boot s) FW_STACK_SHIFT));
  en_wired : wired m' /\ pmr_ops m' = pmr_ops m;
  en_memory : ram m' = ram m /\ bootrom m' = bootrom m;
  en_console : exists before shown after, terminal m' = terminal m ++ before ++ shown ++ after /\
    renders (text "BOOTROM: " ++ text "device tree blob sha1 checksum: %s" ++ [0x0a]) [va_string checksum] shown
}.

Lemma prints_same o m m' : prints o m m' ->
  m_hart m' = m_hart m /\ ram m' = ram m /\ bootrom m' = bootrom m /\ terminal m' = terminal m ++ o /\
  pmr_ops m' = pmr_ops m.
Proof. by intros (p & _ & ->). Qed.

Lemma delegated vec m m3 :
  m_hart m3 = m_hart m ->
  let m4 := set_m_hart (csr_mip_write CSR_ADDRESS_MIP 0 (set_ienable MIE_MSIE
    (put_csr_blob CSR_ADDRESS_MTVEC (Z.land vec 0xfffffffd) (m_hart m3)))) m3 in
  let h1 := set_idelegation MIDELEG_TO_SUPERVISOR (put_csr_blob CSR_ADDRESS_MEDELEG MEDELEG_TO_SUPERVISOR (m_hart m4)) in
  set_m_hart (csr_mstatus_write CSR_ADDRESS_MSTATUS
    (Z.land (mstatus_for_kernel (Z.land (csr_mstatus_read 0 CSR_ADDRESS_MSTATUS h1) 0x19aa)) 0x19aa) h1) m4 =
  set_m_hart (prepared vec (m_hart m)) m3.
Proof. intros <-. reflexivity. Qed.

Lemma prepared_medeleg vec h : blob (prepared vec h) CSR_ADDRESS_MEDELEG = MEDELEG_TO_SUPERVISOR.
Proof.
  change (blob (put_csr_blob CSR_ADDRESS_MEDELEG MEDELEG_TO_SUPERVISOR
    (put_csr_blob CSR_ADDRESS_MTVEC (Z.land vec 0xfffffffd) h)) CSR_ADDRESS_MEDELEG = MEDELEG_TO_SUPERVISOR).
  by rewrite !blob_put.
Qed.

Lemma prepared_mtvec vec h : blob (prepared vec h) CSR_ADDRESS_MTVEC = Z.land vec 0xfffffffd.
Proof.
  change (blob (put_csr_blob CSR_ADDRESS_MEDELEG MEDELEG_TO_SUPERVISOR
    (put_csr_blob CSR_ADDRESS_MTVEC (Z.land vec 0xfffffffd) h)) CSR_ADDRESS_MTVEC = Z.land vec 0xfffffffd).
  by rewrite !blob_put.
Qed.

(** The kernel's two arguments, once both registers are written. *)
Lemma two_registers h h0 x y :
  registers h = registers (set_HART_REG 11 y (set_HART_REG 10 x h0)) -> length (registers h0) = 32%nat ->
  HART_REG h 10 = x /\ HART_REG h 11 = y.
Proof.
  intros E Hlen. unfold HART_REG. rewrite E. unfold set_HART_REG, set_registers. cbn [registers].
  by rewrite list_lookup_insert_ne, !list_lookup_insert_eq by (rewrite ?length_insert; cbn; lia).
Qed.

Lemma fw_main_ok vec top m :
  booted s m -> exists m', fw_main vec top m = Ok (Returns tt) m' /\ entered vec top m m'.
Proof.
  intros HB. assert (starting m) as HS0 by (destruct HB; by split).
  destruct (uart_init_ok m HS0) as (u & p & E1 & Hd). assert (HS1 := starting_uart m u p HS0 Hd).
  set (m1 := set_plic p (set_uart u m)) in *.
  destruct (banner_shows m1 HS1) as (o2 & m2 & E2 & Hp2 & _). assert (HS2 := starting_prints _ _ _ Hp2 HS1).
  destruct (validate_shows m2 HS2) as (o3 & m3 & E3 & Hp3 & before & shown & -> & Hshown).
  assert (HS3 := starting_prints _ _ _ Hp3 HS2).
  destruct (sbi_init_ok vec m3 HS3) as [E4 HS4].
  match type of HS4 with starting ?x => set (m4 := x) in * end.
  destruct info_range as (Rl & _).
  destruct (prints_same _ _ _ Hp2) as (Eh2 & Er2 & Eb2 & Et2 & Ep2). destruct (prints_same _ _ _ Hp3) as (Eh3 & Er3 & Eb3 & Et3 & Ep3).
  change (m_hart m1) with (m_hart m) in Eh2. change (ram m1) with (ram m) in Er2.
  change (bootrom m1) with (bootrom m) in Eb2. change (pmr_ops m1) with (pmr_ops m) in Ep2. change (terminal m1) with (terminal m) in Et2.
  assert (Eh : m_hart m3 = m_hart m) by congruence.
  set (m5 := set_m_hart (prepared vec (m_hart m)) m3).
  assert (HS5 : starting m5).
  { destruct (delegate_ok (ret tt) m4 HS4) as [_ HS5]. unfold m5. rewrite <- Eh. exact HS5. }
  assert (formatted (text "BOOTROM: " ++ text "[firmware] entering supervisor at 0x%x" ++ crlf ++ crlf) [va_word (s_load s)] = true)
    as HF by formats.
  destruct (last_message _ _ m5 HS5 HF) as (o6 & m6 & E6 & Hp6 & _). assert (HS6 := starting_prints _ _ _ Hp6 HS5).
  destruct (prints_same _ _ _ Hp6) as (Eh6 & Er6 & Eb6 & Et6 & Ep6).
  destruct (prepared_status vec (m_hart m)) as (Q1 & Q2 & Q3).
  destruct (enter_ok top (s_boot s) ZELDA_DTB_ADDRESS (s_load s) m6 HS6) as (h & E7 & HE); [by rewrite Eh6|done|].
  assert (Ehid : u32 (hart_id (m_hart m5)) = s_boot s).
  { change (hart_id (m_hart m5)) with (hart_id (m_hart m)). rewrite (proj2 (bo_hart _ _ HB)).
    pose proof (cf_boot_range _ _ _ HC). pose proof (cf_nr_range _ _ _ HC). apply u32_id. unfold is_uint.
    change (2 ^ 32) with 4294967296. lia. }
  exists (set_m_hart h m6). split.
  - unfold fw_main. rewrite (then_step _ _ _ _ _ E1).
    destruct (info_reads m1 HS1) as (M1 & _). rewrite (then_step _ _ _ _ _ M1).
    change (negb (ZELDA_BOOT_INFO_MAGIC =? ZELDA_BOOT_INFO_MAGIC)) with false. cbv iota.
    rewrite (then_step _ _ _ _ _ E2). destruct (info_reads m2 HS2) as (_ & _ & M2 & _).
    rewrite (then_step _ _ _ _ _ M2), (then_step _ _ _ _ _ E3), (then_step _ _ _ _ _ E4).
    match goal with |- (_ ;;; _ ;;; let* mstatus := _ in (_ ;;; ?k)) _ = _ =>
      transitivity (k m5); [exact (eq_trans (proj1 (delegate_ok k m4 HS4)) (f_equal k (delegated vec m m3 Eh)))|] end.
    destruct (info_reads m5 HS5) as (_ & M5 & _). rewrite (then_step _ _ _ _ _ M5), (then_step _ _ _ _ _ E6).
    rewrite (then_step _ _ _ _ _ (read_hartid _ (wi_csrs _ (proj2 (st_platform _ HS6))))).
    destruct (info_reads m6 HS6) as (_ & M6 & M7 & _). rewrite (then_step _ _ _ _ _ M7), (then_step _ _ _ _ _ M6).
    rewrite Eh6, Ehid.
    unfold plain. by rewrite (then_step _ _ _ _ _ E7).
  - destruct HE as (G1 & G2 & G3 & G4 & G5 & G6 & G7 & G8 & G9 & G10 & G11). rewrite Eh6 in *.
    destruct (proj1 (bo_guest _ _ HB)) as [(Hlen & _ & _) _]. cbn [bank_wf machine_bank hart_bank] in Hlen.
    split; cbn [m_hart ram bootrom terminal set_m_hart]; try done.
    + apply (two_registers h (m_hart m5)); [exact G3|exact Hlen].
    + rewrite G4, G5 by done. split; [apply prepared_medeleg|reflexivity].
    + rewrite G4, G6 by done. split; [apply prepared_mtvec|reflexivity].
    + rewrite G8, G9. cbn [m_hart set_m_hart m5]. by rewrite Q3, Q2.
    + rewrite G11. rewrite Ehid. done.
    + split; [exact G10|]. cbn [pmr_ops set_m_hart]. rewrite Ep6. cbn [pmr_ops m5 set_m_hart]. congruence.
    + rewrite Er6, Eb6. cbn [ram bootrom m5 set_m_hart]. split; congruence.
    + exists (o2 ++ before), shown, o6. split; [|done]. rewrite Et6. cbn [terminal m5 set_m_hart]. rewrite Et3, Et2.
      by rewrite <- !app_assoc.
Qed.

(** ** The reset *)

(** Where the linker put things: .bss behind the image, in the rom, and in .bss the
    stacks of four harts. *)
Record linked (top bss_start bss_end : Z) : Prop := {
  lk_words : bss_start mod 4 = 0 /\ bss_end mod 4 = 0;
  lk_rom : s_pc s + len (s_image s) <= bss_start /\ bss_end <= 0x400000;
  lk_stacks : bss_start <= top - 4 * FW_STACK_SIZE /\ top <= bss_end
}.

(** Of the rom only .bss has changed, where what is not the program's own is zero. *)
Record only_bss (bss_start bss_end : Z) (own : list (Z * Z)) (r r' : memory) : Prop := {
  ob_size : mem_size r' = mem_size r;
  ob_outside : forall a, a < bss_start \/ bss_end <= a -> mem_byte r' a = mem_byte r a;
  ob_zero : forall a, bss_start <= a < bss_end -> a ∉ own.*1 -> mem_byte r' a = 0
}.

Section Reset.
Context (top bss_start bss_end : Z) (HL : linked top bss_start bss_end).

Lemma zero_stored off n m r a : mem_store off n 0 m = Some r -> off <= a < off + n -> mem_byte r a = 0.
Proof.
  unfold mem_store. case_test; [|done]. intros [= <-] Ha. unfold mem_byte. cbn [mem_bytes].
  rewrite store_bytes_byte by lia. by rewrite Zdiv_0_l.
Qed.

(** A store to .bss. *)
Lemma bss_write m a n v :
  starting m -> bss_start <= a -> a + n <= bss_end -> legal_size n = true ->
  exists r, vmwrite n a v m = Ok tt (set_bootrom r m) /\ mem_store a n v (bootrom m) = Some r.
Proof.
  intros HS Ha He Hn. destruct HL as [_ [Hi Hr] _]. pose proof (cf_pc_range _ _ _ HC) as [Hp _].
  pose proof (len_nonneg (s_image s)). unfold ZELDA_BOOT_INFO_ADDRESS in Hp.
  assert (1 <= n) by (unfold legal_size in Hn; revert Hn; to_prop; lia).
  destruct (st_rom _ HS) as ([Hsz _] & _).
  assert (exists r, mem_store a n v (bootrom m) = Some r) as [r E].
  { unfold mem_store, in_bounds. rewrite !(proj2 (Z.leb_le _ _)) by lia. by eexists. }
  exists r. split; [|done]. rewrite (vmwrite_hits _ a _ m rom_region a).
  - unfold pmr_write. cbn [pmr_callbacks rom_region]. unfold bootrom_write. cbn [addr_high rom_region addr_low].
    rewrite (proj2 (Z.ltb_ge _ _)) by lia. rewrite Hn, Z.sub_0_r. cbn [negb]. by rewrite E.
  - apply resolve_region; [done| |unfold covers, rom_region; cbn [addr_low addr_high]; lia|lia].
    unfold memory_map. by repeat constructor.
Qed.

(** The loaded parts of the rom are before .bss. *)
Lemma starting_bss m r :
  starting m -> mem_size r = mem_size (bootrom m) ->
  (forall a, a < bss_start -> mem_byte r a = mem_byte (bootrom m) a) -> starting (set_bootrom r m).
Proof.
  intros [[Hl [? ? ? ? ? ? ? ? ?]] Hm ([Hs Hi] & Hd & Hb)] Hz Ho. destruct HL as [_ [Hbs _] _].
  pose proof (cf_pc_range _ _ _ HC) as [Hp _]. pose proof (len_nonneg (s_image s)).
  assert (HK : forall off l, off + len l <= bss_start -> holds_bytes off l (bootrom m) -> holds_bytes off l r).
  { intros off l He (P1 & P2 & P3). split; [done|]. split; [by rewrite Hz|]. intros i c Hic. rewrite <- (P3 i c Hic).
    apply Ho. pose proof (lookup_lt_Some _ _ _ Hic). unfold len in *. lia. }
  destruct (s_dtb_built file ini s HC (empty_blob 0 0)) as (_ & _ & Hdl). unfold ZELDA_BOOT_INFO_ADDRESS, ZELDA_DTB_ADDRESS in *.
  split; [by split|done|]. cbn [bootrom set_bootrom]. split; [split; [by rewrite Hz|by apply HK]|].
  split; apply HK; try done; [unfold ZELDA_DTB_ADDRESS; lia|].
  change (len (boot_info_bytes (s_info s))) with 32. unfold ZELDA_BOOT_INFO_ADDRESS. lia.
Qed.

(** The loop from [t0] on. *)
Lemma clearing fuel : forall t0 m,
  starting m -> bss_start <= t0 <= bss_end -> t0 mod 4 = 0 -> bss_end - t0 < Z.of_nat fuel ->
  exists r, clear_bss fuel t0 bss_end m = Ok tt (set_bootrom r m) /\ starting (set_bootrom r m) /\
    mem_size r = mem_size (bootrom m) /\
    (forall a, a < t0 \/ bss_end <= a -> mem_byte r a = mem_byte (bootrom m) a) /\
    (forall a, t0 <= a < bss_end -> mem_byte r a = 0).
Proof.
  destruct HL as [[Hw1 Hw2] [Hi Hr] _]. pose proof (cf_pc_range _ _ _ HC) as [Hp _]. unfold ZELDA_BOOT_INFO_ADDRESS in Hp.
  pose proof (len_nonneg (s_image s)).
  induction fuel as [|fuel IH]; intros t0 m HS Ht Hm Hf; [lia|]. cbn [clear_bss].
  destruct (Z.leb_spec bss_end t0) as [He|He].
  - exists (bootrom m). replace (set_bootrom (bootrom m) m) with m by by destruct m. do 3 (split; [done|]).
    split; [done|]. intros a Ha. lia.
  - assert (t0 + 4 <= bss_end) as H4 by dlia.
    destruct (bss_write m t0 4 0 HS ltac:(lia) H4 eq_refl) as (r1 & E1 & Es).
    destruct (mem_store_load t0 4 0 (bootrom m) r1 ltac:(done) Es) as (_ & Hz & Ho).
    assert (HS1 := starting_bss m r1 HS Hz ltac:(intros; apply Ho; lia)).
    rewrite (then_step _ _ _ _ _ E1), u32_id by (unfold is_uint; change (2 ^ 32) with 4294967296; lia).
    destruct (IH (t0 + 4) (set_bootrom r1 m) HS1) as (r & E & HS2 & Hs & Hout & Hin); [lia|dlia|lia|].
    cbn [bootrom set_bootrom] in Hs, Hout. exists r. split; [exact E|]. split; [exact HS2|].
    split; [congruence|]. split.
    + intros a Ha. rewrite Hout by lia. apply Ho. lia.
    + intros a Ha. destruct (decide (a < t0 + 4)) as [Hl|Hl]; [|apply Hin; lia]. rewrite Hout by lia.
      by apply (zero_stored t0 4 (bootrom m)); [|lia].
Qed.

(** What the program leaves of its own. *)
Lemma leaving own : forall m,
  starting m -> Forall (fun w => bss_start <= w.1 < bss_end) own ->
  exists r, leave own m = Ok tt (set_bootrom r m) /\ starting (set_bootrom r m) /\
    mem_size r = mem_size (bootrom m) /\ (forall a, a ∉ own.*1 -> mem_byte r a = mem_byte (bootrom m) a).
Proof.
  induction own as [|[x b] own IH]; intros m HS HF; cbn [leave].
  - exists (bootrom m). by replace (set_bootrom (bootrom m) m) with m by by destruct m.
  - apply Forall_cons in HF as [Hx HF]. cbn [fst] in Hx.
    destruct (bss_write m x 1 b HS ltac:(lia) ltac:(lia) eq_refl) as (r1 & E1 & Es).
    destruct (mem_store_load x 1 b (bootrom m) r1 ltac:(done) Es) as (_ & Hz & Ho).
    assert (HS1 := starting_bss m r1 HS Hz ltac:(intros; apply Ho; lia)).
    destruct (IH _ HS1 HF) as (r & E & HS2 & Hs & Hout). cbn [bootrom set_bootrom] in Hs, Hout.
    exists r. unfold mmu_write8. rewrite (then_step _ _ _ _ _ E1). split; [exact E|]. split; [exact HS2|]. split; [congruence|].
    intros a [Hn Ha]%not_elem_of_cons. cbn [fst] in Hn. rewrite Hout by done. apply Ho. lia.
Qed.

(** The machine [fw_main] starts on. *)
Lemma rom_reset_ok own m :
  booted s m -> Forall (fun w => bss_start <= w.1 < bss_end) own ->
  exists h r, (rom_reset top bss_start bss_end ;;; leave own) m = Ok tt (set_bootrom r (set_m_hart h m)) /\
    booted s (set_bootrom r (set_m_hart h m)) /\ status h = status (m_hart m) /\
    only_bss bss_start bss_end own (bootrom m) r.
Proof.
  intros HB HF. destruct HL as [[Hw _] [_ Hr] Hst]. assert (starting m) as HS by (destruct HB; by split).
  set (h := set_HART_REG SP (u32 (top - u32 (Z.shiftl (u32 (hart_id (m_hart m))) FW_STACK_SHIFT))) (m_hart m)).
  assert (starting (set_m_hart h m)) as HS1 by (apply starting_written; [done|by split]).
  destruct (clearing (S (Z.to_nat (bss_end - bss_start))) bss_start _ HS1) as (r1 & E1 & HS2 & Hz1 & Ho1 & Hi1);
    [change FW_STACK_SIZE with 8192 in Hst; lia|done|lia|].
  destruct (leaving own _ HS2 HF) as (r2 & E2 & HS3 & Hz2 & Ho2). exists h, r2. split; [|split; [|split; [done|]]].
  - unfold rom_reset. unfold bind at 1. unfold bind at 1.
    rewrite (read_hartid _ (wi_csrs _ (proj2 (st_platform _ HS)))). unfold bind at 1, on_hart, zoom, modify. fold h.
    by rewrite E1.
  - destruct HB as [Bp Bh [[Bw Bz] Bu] Bc Bm _ Br]. destruct HS3 as [Sp Sm Sr].
    split; cbn [m_hart set_m_hart set_bootrom ram pmr_ops bootrom] in *; try done.
    + split; [|exact Bu]. split; [exact (wr_reg_wf (W := machine) m SP _ Bw ltac:(done) (u32_range _))|].
      exact (eq_trans (rd_wr_reg_ne (W := machine) m 0 SP _ ltac:(done) ltac:(done) ltac:(done)) Bz).
    + intros base. destruct (Bc base) as ([C1 C2 C3 C4 C5 C6 C7 C8 C9] & Bch & Bb). split; [by split|]. by split.
  - cbn [bootrom set_m_hart set_bootrom] in *. split; [congruence| |].
    + intros a Ha. rewrite Ho2; [by apply Ho1|]. intros (w & -> & Hw')%list_elem_of_fmap.
      rewrite Forall_forall in HF. specialize (HF w Hw'). cbn in HF. lia.
    + intros a Ha Hn. rewrite Ho2 by done. by apply Hi1.
Qed.

(** The trap vector finds the hart's stack: 8 KiB in .bss. *)
Lemma entered_stack vec m m' :
  booted s m -> entered vec top m m' ->
  on_stack rom_region (top - s_boot s * FW_STACK_SIZE) m' /\
  bss_start <= top - s_boot s * FW_STACK_SIZE - FW_STACK_SIZE.
Proof.
  intros HB [_ _ _ [Hv _] _ Hs [_ Hops] [_ Hb] _]. destruct HL as [_ [Hbs Hr] [H4 Ht]].
  pose proof (cf_boot_range _ _ _ HC). pose proof (cf_nr_range _ _ _ HC). pose proof (cf_pc_range _ _ _ HC) as [Hp _].
  pose proof (len_nonneg (s_image s)). unfold ZELDA_BOOT_INFO_ADDRESS in Hp. change FW_STACK_SIZE with 8192 in *.
  split; [|lia]. split.
  - rewrite Hs. change (Z.shiftl (s_boot s) FW_STACK_SHIFT) with (Z.shiftl (s_boot s) 13). rewrite Z.shiftl_mul_pow2 by lia.
    change (2 ^ 13) with 8192. rewrite (u32_id (s_boot s * 8192)), u32_id;
      [done|unfold is_uint; change (2 ^ 32) with 4294967296; lia..].
  - intros a Ha. change FW_STACK_SIZE with 8192 in Ha. rewrite Hops. destruct (bo_map _ _ HB) as [HT HP]. apply (region_found s m); [done|done| | |lia].
    + unfold memory_map. by repeat constructor.
    + unfold covers, rom_region. cbn [addr_low addr_high]. lia.
  - rewrite Hb. destruct (bo_rom _ _ HB) as ([-> _] & _). done.
  - rewrite Hv. rewrite Z.land_comm. by apply land_range_l.
Qed.
End Reset.
End Platform.

(** ** Property *)

(** C15. From the configuration to the kernel. From a configuration of this platform, the
    machine the vmm resumes runs the firmware through from its reset entry: wherever the
    linker put .bss behind the image and whatever the compiled code leaves there, .bss is
    cleared and [fw_main] enters the kernel by an mret, at supervisor level, with the
    boot hart's id in a0 and the device tree's address in a1. The supervisor's exceptions
    and interrupts are delegated, its ecalls are not: they reach the firmware's trap
    vector, with the hart's stack in mscratch. The platform is wired, as the theorems on
    SBI calls ask; memory and, but for .bss, rom are as they were loaded; the console has
    shown the SHA-1 checksum of the device tree. The mret sets the machine's interrupt
    enable: the supervisor's, which by a comment in init.c takes MPIE, stays as it was at
    reset. *)
Theorem kernel_entered file config contents ini s attached keys lines vec top bss_start bss_end own :
  file config = Some contents -> ini_load contents = Some ini -> configured file ini s ->
  linked s top bss_start bss_end -> Forall (fun w => bss_start <= w.1 < bss_end) own ->
  exists m v m' r, main_until_resume file config attached (vm_off (machine_off keys lines)) = Ok m v /\
    booted s m /\ rom_entry vec top bss_start bss_end own m = Ok (Returns tt) m' /\
    only_bss bss_start bss_end own (bootrom m) r /\ entered s vec top (set_bootrom r m) m' /\
    Z.testbit (blob (m_hart m') CSR_ADDRESS_MEDELEG) 9 = false /\
    on_stack rom_region (top - s_boot s * FW_STACK_SIZE) m' /\
    bss_start <= top - s_boot s * FW_STACK_SIZE - FW_STACK_SIZE.
Proof.
  intros Hf Hl HC HL HF. destruct (boots file config contents ini s attached keys lines Hf Hl HC) as (m & v & E & HB).
  destruct (rom_reset_ok s file ini HC top bss_start bss_end HL own m HB HF) as (h & r & E0 & HB1 & Est & HO).
  destruct (fw_main_ok s file ini HC vec top _ HB1) as (m' & Em & HE). exists m, v, m', r.
  split; [done|]. split; [done|]. split.
  { unfold rom_entry, bind. revert E0. unfold bind. destruct (rom_reset _ _ _ m); try done.
    intros ->. exact Em. }
  split; [done|]. pose proof (entered_stack s file ini HC top bss_start bss_end HL vec _ m' HB1 HE) as HS.
  split; [|split; [by rewrite (proj1 (en_delegated _ _ _ _ _ HE))|exact HS]].
  destruct HE as [G1 G2 G3 G4 G5 G6 G7 G8 G9]. split; try done.
  cbn [m_hart set_bootrom set_m_hart] in G5. by rewrite Est in G5.
Qed.
End Facts.

(** ** Witness: the repository's configuration *)

Module Witness.
Import Vm.Witness.
#[local] Existing Instance Hart.Concrete.sizes.

Definition line (l : string) (ending : list Z) : list Z := text "BOOTROM: " ++ text l ++ ending.

(** .bss with the stacks of four harts, behind an image of four bytes; the firmware
    leaves a pointer and some bytes of its stack. *)
Definition own : list (Z * Z) := [(0x8000, 0); (0x8001, 0); (0x8002, 0); (0x8003, 0x10); (0x17ffc, 0x42)].

(** What the console shows, from the configuration's text on. *)
Example boot_console :
  match main_until_resume file (text "vm.ini") true (vm_off (machine_off [] [])) with
  | Ok m _ =>
      match rom_entry 0x5000 0x18000 0x8000 0x18010 own m with
      | Ok (Returns tt) m' => Some (terminal m', pc (m_hart m'), privilege_level (m_hart m'))
      | _ => None
      end
  | _ => None
  end =
  Some (line "" crlf ++
  line "zelda machine mode firmware" crlf ++
  line "  platform    : rv32ima, 2 hart(s)" crlf ++
  line "  memory      : 0x80000000 + 1024 MiB" crlf ++
  line "  device tree : 0x1000" crlf ++
  line "  kernel      : 0x80400000" crlf ++
  line "  initrd      : 0x88000000 - 0x88000006" crlf ++
  line "  sbi         : v0.3, extensions base/time/ipi/rfence/srst" crlf ++
  line "" crlf ++
  line "device tree detected at 0x1000" [0x0a] ++
  line "device tree blob size: 2490 bytes" [0x0a] ++
  line "device tree blob sha1 checksum: 830b7236dcfb0323b41f6991469ee6c40fa87339" [0x0a] ++
  line "[firmware] entering supervisor at 0x80400000" (crlf ++ crlf),
  0x80400000, PRIVILEGE_LEVEL_SUPERVISOR).
Proof. vm_compute. reflexivity. Qed.

Lemma kernel_entered_witness :
  exists m v m' r, main_until_resume file (text "vm.ini") true (vm_off (machine_off [] [])) = Ok m v /\
    booted s m /\ rom_entry 0x5000 0x18000 0x8000 0x18010 own m = Ok (Returns tt) m' /\
    only_bss 0x8000 0x18010 own (bootrom m) r /\ entered s 0x5000 0x18000 (set_bootrom r m) m' /\
    Z.testbit (blob (m_hart m') CSR_ADDRESS_MEDELEG) 9 = false /\
    on_stack rom_region (0x18000 - s_boot s * FW_STACK_SIZE) m' /\
    0x8000 <= 0x18000 - s_boot s * FW_STACK_SIZE - FW_STACK_SIZE.
Proof.
  apply (kernel_entered file (text "vm.ini") contents ini s true [] [] 0x5000 0x18000 0x8000 0x18010 own).
  - vm_compute. reflexivity.
  - vm_compute. reflexivity.
  - exact s_configured.
  - split; [by split|split; vm_compute; discriminate|split; vm_compute; discriminate].
  - repeat constructor; cbn; lia || discriminate.
Defined.
End Witness.
