(* ===== verification/SelfTest.v ===== *)
(** * The firmware's self tests

    Models src/bootrom/unittest.c and the macros of src/bootrom/unittest.h, guest code
    built into the firmware with FW_SELFTEST: some three hundred instructions with the
    results they ought to have, stores and loads of every size over a buffer, and the
    atomics on a variable of the stack, which like the buffer lies in the rom. An inline-assembly
    statement puts its operands into registers, executes the instruction as the emulator
    does (BlockSys.v) and reads its result. Which registers is the compiler's choice, a
    parameter: for each statement by itself, and in a loop for each round, one register for
    both operands if they are equal, x0 for an operand that is zero. Parameters
    are also the addresses of the buffer and of the variable the atomics work on. The texts the macros make of their arguments are kept,
    and the operands are read from them.

    Proved here: on the machine the vmm sets up every test passes. The self tests run to
    their end and the console shows the line PASS of each of them and no other. *)

From S2P Require Import Prelude Monad PmRegion X86 Hart Rv32 Decode BlockArith Refine Clint Plic Uart Machine Mmu Console Amo.
From S2P Require Import Calls BlockMem BlockSys Ini Sbi Vm Boot.
From S2P Require Debug.
Local Open Scope Z_scope.

(** ** The tests *)

(** A number as it is written in C, shifted if it is written so. *)
Definition literal (s : string) : Z :=
  let t := text s in
  let digits := match t with 0x2d :: t => t | _ => t end in
  Debug.strtol (match digits with 0x30 :: 0x78 :: _ => 16 | _ => 10 end) t.

Definition c_value (s : string) : Z :=
  match String.index 0 "<<" s with
  | Some i => Z.shiftl (literal (String.substring 0 i s)) (literal (String.substring (i + 2) (String.length s) s))
  | None => literal s
  end.

(** A call of one of the two macros: the instruction, then its operands as they are
    written, the expected result first. *)
Inductive test :=
  | R_R_R (intr : alu_op) (rd rs1 rs2 : string)
  | R_R_I (intr : alu_op) (rd rs1 imm : string).

Definition mnemonic (op : alu_op) : string :=
  match op with
  | ADD => "add" | SUB => "sub" | SLL => "sll" | SLT => "slt" | SLTU => "sltu" | XOR => "xor" | SRL => "srl"
  | SRA => "sra" | OR => "or" | AND => "and" | MUL => "mul" | MULH => "mulh" | MULHSU => "mulhsu"
  | MULHU => "mulhu" | DIV => "div" | DIVU => "divu" | REM => "rem" | REMU => "remu"
  end.
Definition mnemonic_immediate (op : alu_op) : string :=
  match op with SLTU => "sltiu" | _ => (mnemonic op ++ "i")%string end.

Definition test_text (t : test) : string :=
  match t with
  | R_R_R op rd rs1 rs2 => mnemonic op ++ " " ++ rd ++ ", " ++ rs1 ++ ", " ++ rs2
  | R_R_I op rd rs1 imm => mnemonic_immediate op ++ " " ++ rd ++ ", " ++ rs1 ++ ", " ++ imm
  end.

(** [word] in a colour, and the rest of the line. *)
Definition verdict (colour word rest : string) : list Z :=
  0x1b :: text colour ++ text word ++ 0x1b :: text "[0m" ++ text rest ++ [0x0a].

Definition GREEN : string := "[32m".
Definition RED : string := "[31m".

(** The calls of [test_arithmetic_instruction].
    src/bootrom/unittest.c:7-176 test_arithmetic_instruction *)
Definition arithmetic_tests : list test :=
  [R_R_R ADD "0x00000000" "0x00000000" "0x00000000"; R_R_R ADD "0x00000002" "0x00000001" "0x00000001";
   R_R_R ADD "0x0000000a" "0x00000003" "0x00000007"; R_R_R ADD "0xffff8000" "0x00000000" "0xffff8000";
   R_R_R ADD "0x80000000" "0x80000000" "0x00000000"; R_R_R ADD "0x7fff8000" "0x80000000" "0xffff8000";
   R_R_R ADD "0x00007fff" "0x00000000" "0x00007fff"; R_R_R ADD "0x7fffffff" "0x7fffffff" "0x00000000";
   R_R_R ADD "0x80007ffe" "0x7fffffff" "0x00007fff"; R_R_R ADD "0x80007fff" "0x80000000" "0x00007fff";
   R_R_R ADD "0x7fff7fff" "0x7fffffff" "0xffff8000"; R_R_R ADD "0xffffffff" "0x00000000" "0xffffffff";
   R_R_R ADD "0x00000000" "0xffffffff" "0x00000001"; R_R_R ADD "0xfffffffe" "0xffffffff" "0xffffffff";
   R_R_R ADD "0x80000000" "0x00000001" "0x7fffffff"; R_R_R AND "0x0f000f00" "0xff00ff00" "0x0f0f0f0f";
   R_R_R AND "0x00f000f0" "0x0ff00ff0" "0xf0f0f0f0"; R_R_R AND "0x000f000f" "0x00ff00ff" "0x0f0f0f0f";
   R_R_R AND "0xf000f000" "0xf00ff00f" "0xf0f0f0f0"; R_R_R OR "0xff0fff0f" "0xff00ff00" "0x0f0f0f0f";
   R_R_R OR "0xfff0fff0" "0x0ff00ff0" "0xf0f0f0f0"; R_R_R OR "0x0fff0fff" "0x00ff00ff" "0x0f0f0f0f";
   R_R_R OR "0xf0fff0ff" "0xf00ff00f" "0xf0f0f0f0"; R_R_R SLL "0x00000001" "0x00000001" "0";
   R_R_R SLL "0x00000002" "0x00000001" "1"; R_R_R SLL "0x00000080" "0x00000001" "7";
   R_R_R SLL "0x00004000" "0x00000001" "14"; R_R_R SLL "0x80000000" "0x00000001" "31";
   R_R_R SLL "0xffffffff" "0xffffffff" "0"; R_R_R SLL "0xfffffffe" "0xffffffff" "1";
   R_R_R SLL "0xffffff80" "0xffffffff" "7"; R_R_R SLL "0xffffc000" "0xffffffff" "14";
   R_R_R SLL "0x80000000" "0xffffffff" "31"; R_R_R SLL "0x21212121" "0x21212121" "0";
   R_R_R SLL "0x42424242" "0x21212121" "1"; R_R_R SLL "0x90909080" "0x21212121" "7";
   R_R_R SLL "0x48484000" "0x21212121" "14"; R_R_R SLL "0x80000000" "0x21212121" "31";
   R_R_R SLL "0x21212121" "0x21212121" "0xffffffc0"; R_R_R SLL "0x42424242" "0x21212121" "0xffffffc1";
   R_R_R SLL "0x90909080" "0x21212121" "0xffffffc7"; R_R_R SLL "0x48484000" "0x21212121" "0xffffffce";
   R_R_R SLT "0" "0x00000000" "0x00000000"; R_R_R SLT "0" "0x00000001" "0x00000001";
   R_R_R SLT "1" "0x00000003" "0x00000007"; R_R_R SLT "0" "0x00000007" "0x00000003";
   R_R_R SLT "0" "0x00000000" "0xffff8000"; R_R_R SLT "1" "0x80000000" "0x00000000";
   R_R_R SLT "1" "0x80000000" "0xffff8000"; R_R_R SLT "1" "0x00000000" "0x00007fff";
   R_R_R SLT "0" "0x7fffffff" "0x00000000"; R_R_R SLT "0" "0x7fffffff" "0x00007fff";
   R_R_R SLT "1" "0x80000000" "0x00007fff"; R_R_R SLT "0" "0x7fffffff" "0xffff8000";
   R_R_R SLT "0" "0x00000000" "0xffffffff"; R_R_R SLT "1" "0xffffffff" "0x00000001";
   R_R_R SLT "0" "0xffffffff" "0xffffffff"; R_R_R SLTU "0" "0x00000000" "0x00000000";
   R_R_R SLTU "0" "0x00000001" "0x00000001"; R_R_R SLTU "1" "0x00000003" "0x00000007";
   R_R_R SLTU "0" "0x00000007" "0x00000003"; R_R_R SLTU "1" "0x00000000" "0xffff8000";
   R_R_R SLTU "0" "0x80000000" "0x00000000"; R_R_R SLTU "1" "0x80000000" "0xffff8000";
   R_R_R SLTU "1" "0x00000000" "0x00007fff"; R_R_R SLTU "0" "0x7fffffff" "0x00000000";
   R_R_R SLTU "0" "0x7fffffff" "0x00007fff"; R_R_R SLTU "0" "0x80000000" "0x00007fff";
   R_R_R SLTU "1" "0x7fffffff" "0xffff8000"; R_R_R SLTU "1" "0x00000000" "0xffffffff";
   R_R_R SLTU "0" "0xffffffff" "0x00000001"; R_R_R SLTU "0" "0xffffffff" "0xffffffff";
   R_R_R SRA "0x80000000" "0x80000000" "0"; R_R_R SRA "0xc0000000" "0x80000000" "1";
   R_R_R SRA "0xff000000" "0x80000000" "7"; R_R_R SRA "0xfffe0000" "0x80000000" "14";
   R_R_R SRA "0xffffffff" "0x80000001" "31"; R_R_R SRA "0x7fffffff" "0x7fffffff" "0";
   R_R_R SRA "0x3fffffff" "0x7fffffff" "1"; R_R_R SRA "0x00ffffff" "0x7fffffff" "7";
   R_R_R SRA "0x0001ffff" "0x7fffffff" "14"; R_R_R SRA "0x00000000" "0x7fffffff" "31";
   R_R_R SRA "0x81818181" "0x81818181" "0"; R_R_R SRA "0xc0c0c0c0" "0x81818181" "1";
   R_R_R SRA "0xff030303" "0x81818181" "7"; R_R_R SRA "0xfffe0606" "0x81818181" "14";
   R_R_R SRA "0xffffffff" "0x81818181" "31"; R_R_R SRA "0x81818181" "0x81818181" "0xffffffc0";
   R_R_R SRA "0xc0c0c0c0" "0x81818181" "0xffffffc1"; R_R_R SRA "0xff030303" "0x81818181" "0xffffffc7";
   R_R_R SRA "0xfffe0606" "0x81818181" "0xffffffce"; R_R_R SRA "0xffffffff" "0x81818181" "0xffffffff";
   R_R_R SRL "0x80000000" "0x80000000" "0"; R_R_R SRL "0x40000000" "0x80000000" "1";
   R_R_R SRL "0x1000000" "0x80000000" "7"; R_R_R SRL "0x20000" "0x80000000" "14";
   R_R_R SRL "0x1" "0x80000001" "31"; R_R_R SRL "0xffffffff" "0xffffffff" "0";
   R_R_R SRL "0x7FFFFFFF" "0xffffffff" "1"; R_R_R SRL "0x1FFFFFF" "0xffffffff" "7";
   R_R_R SRL "0x3FFFF" "0xffffffff" "14"; R_R_R SRL "0x1" "0xffffffff" "31";
   R_R_R SRL "0x21212121" "0x21212121" "0"; R_R_R SRL "0x10909090" "0x21212121" "1";
   R_R_R SRL "0x424242" "0x21212121" "7"; R_R_R SRL "0x8484" "0x21212121" "14";
   R_R_R SRL "0x0" "0x21212121" "31"; R_R_R SRL "0x21212121" "0x21212121" "0xffffffc0";
   R_R_R SRL "0x10909090" "0x21212121" "0xffffffc1"; R_R_R SRL "0x00424242" "0x21212121" "0xffffffc7";
   R_R_R SRL "0x00008484" "0x21212121" "0xffffffce"; R_R_R SRL "0x00000000" "0x21212121" "0xffffffff";
   R_R_R XOR "0xf00ff00f" "0xff00ff00" "0x0f0f0f0f"; R_R_R XOR "0xff00ff00" "0x0ff00ff0" "0xf0f0f0f0";
   R_R_R XOR "0x0ff00ff0" "0x00ff00ff" "0x0f0f0f0f"; R_R_R XOR "0x00ff00ff" "0xf00ff00f" "0xf0f0f0f0";
   R_R_R SUB "0x00000000" "0x00000000" "0x00000000"; R_R_R SUB "0x00000000" "0x00000001" "0x00000001";
   R_R_R SUB "0xfffffffc" "0x00000003" "0x00000007"; R_R_R SUB "0x00008000" "0x00000000" "0xffff8000";
   R_R_R SUB "0x80000000" "0x80000000" "0x00000000"; R_R_R SUB "0x80008000" "0x80000000" "0xffff8000";
   R_R_R SUB "0xffff8001" "0x00000000" "0x00007fff"; R_R_R SUB "0x7fffffff" "0x7fffffff" "0x00000000";
   R_R_R SUB "0x7fff8000" "0x7fffffff" "0x00007fff"; R_R_R SUB "0x7fff8001" "0x80000000" "0x00007fff";
   R_R_R SUB "0x80007fff" "0x7fffffff" "0xffff8000"; R_R_R SUB "0x00000001" "0x00000000" "0xffffffff";
   R_R_R SUB "0xfffffffe" "0xffffffff" "0x00000001"; R_R_R SUB "0x00000000" "0xffffffff" "0xffffffff"].

(** The calls of [test_arithmetic_immediate_instruction].
    src/bootrom/unittest.c:178-313 test_arithmetic_immediate_instruction *)
Definition immediate_tests : list test :=
  [R_R_I ADD "0x00000000" "0x00000000" "0x000"; R_R_I ADD "0x00000002" "0x00000001" "0x001";
   R_R_I ADD "0x0000000a" "0x00000003" "0x007"; R_R_I ADD "0xfffff800" "0x00000000" "-0x800";
   R_R_I ADD "0x80000000" "0x80000000" "0x000"; R_R_I ADD "0x7ffff800" "0x80000000" "-0x800";
   R_R_I ADD "0x000007ff" "0x00000000" "0x7ff"; R_R_I ADD "0x7fffffff" "0x7fffffff" "0x000";
   R_R_I ADD "0x800007fe" "0x7fffffff" "0x7ff"; R_R_I ADD "0x800007ff" "0x80000000" "0x7ff";
   R_R_I ADD "0x7ffff7ff" "0x7fffffff" "-0x800"; R_R_I ADD "0xffffffff" "0x00000000" "-0x1";
   R_R_I ADD "0x00000000" "0xffffffff" "0x001"; R_R_I ADD "0xfffffffe" "0xffffffff" "-0x1";
   R_R_I ADD "0x80000000" "0x7fffffff" "0x001"; R_R_I AND "0xff00ff00" "0xff00ff00" "-0xf1";
   R_R_I AND "0x000000f0" "0x0ff00ff0" "0x0f0"; R_R_I AND "0x0000000f" "0x00ff00ff" "0x70f";
   R_R_I AND "0x00000000" "0xf00ff00f" "0x0f0"; R_R_I OR "0xffffff0f" "0xff00ff00" "-0xf1";
   R_R_I OR "0x0ff00ff0" "0x0ff00ff0" "0x0f0"; R_R_I OR "0x00ff07ff" "0x00ff00ff" "0x70f";
   R_R_I OR "0xf00ff0ff" "0xf00ff00f" "0x0f0"; R_R_I SLL "0x00000001" "0x00000001" "0";
   R_R_I SLL "0x00000002" "0x00000001" "1"; R_R_I SLL "0x00000080" "0x00000001" "7";
   R_R_I SLL "0x00004000" "0x00000001" "14"; R_R_I SLL "0x80000000" "0x00000001" "31";
   R_R_I SLL "0xffffffff" "0xffffffff" "0"; R_R_I SLL "0xfffffffe" "0xffffffff" "1";
   R_R_I SLL "0xffffff80" "0xffffffff" "7"; R_R_I SLL "0xffffc000" "0xffffffff" "14";
   R_R_I SLL "0x80000000" "0xffffffff" "31"; R_R_I SLL "0x21212121" "0x21212121" "0";
   R_R_I SLL "0x42424242" "0x21212121" "1"; R_R_I SLL "0x90909080" "0x21212121" "7";
   R_R_I SLL "0x48484000" "0x21212121" "14"; R_R_I SLL "0x80000000" "0x21212121" "31";
   R_R_I SLT "0" "0x00000000" "0x000"; R_R_I SLT "0" "0x00000001" "0x001";
   R_R_I SLT "1" "0x00000003" "0x007"; R_R_I SLT "0" "0x00000007" "0x003";
   R_R_I SLT "0" "0x00000000" "-0x800"; R_R_I SLT "1" "0x80000000" "0x000";
   R_R_I SLT "1" "0x80000000" "-0x800"; R_R_I SLT "1" "0x00000000" "0x7ff";
   R_R_I SLT "0" "0x7fffffff" "0x000"; R_R_I SLT "0" "0x7fffffff" "0x7ff";
   R_R_I SLT "1" "0x80000000" "0x7ff"; R_R_I SLT "0" "0x7fffffff" "-0x800";
   R_R_I SLT "0" "0x00000000" "-0x1"; R_R_I SLT "1" "0xffffffff" "0x001";
   R_R_I SLT "0" "0xffffffff" "-0x1"; R_R_I SLTU "0" "0x00000000" "0x000";
   R_R_I SLTU "0" "0x00000001" "0x001"; R_R_I SLTU "1" "0x00000003" "0x007";
   R_R_I SLTU "0" "0x00000007" "0x003"; R_R_I SLTU "1" "0x00000000" "-0x800";
   R_R_I SLTU "0" "0x80000000" "0x000"; R_R_I SLTU "1" "0x80000000" "-0x800";
   R_R_I SLTU "1" "0x00000000" "0x7ff"; R_R_I SLTU "0" "0x7fffffff" "0x000";
   R_R_I SLTU "0" "0x7fffffff" "0x7ff"; R_R_I SLTU "0" "0x80000000" "0x7ff";
   R_R_I SLTU "1" "0x7fffffff" "-0x800"; R_R_I SLTU "1" "0x00000000" "-0x1";
   R_R_I SLTU "0" "0xffffffff" "0x001"; R_R_I SLTU "0" "0xffffffff" "-0x1";
   R_R_I SRA "0x00000000" "0x00000000" "0"; R_R_I SRA "0xc0000000" "0x80000000" "1";
   R_R_I SRA "0xff000000" "0x80000000" "7"; R_R_I SRA "0xfffe0000" "0x80000000" "14";
   R_R_I SRA "0xffffffff" "0x80000001" "31"; R_R_I SRA "0x7fffffff" "0x7fffffff" "0";
   R_R_I SRA "0x3fffffff" "0x7fffffff" "1"; R_R_I SRA "0x00ffffff" "0x7fffffff" "7";
   R_R_I SRA "0x0001ffff" "0x7fffffff" "14"; R_R_I SRA "0x00000000" "0x7fffffff" "31";
   R_R_I SRA "0x81818181" "0x81818181" "0"; R_R_I SRA "0xc0c0c0c0" "0x81818181" "1";
   R_R_I SRA "0xff030303" "0x81818181" "7"; R_R_I SRA "0xfffe0606" "0x81818181" "14";
   R_R_I SRA "0xffffffff" "0x81818181" "31"; R_R_I SRL "0x80000000" "0x80000000" "0";
   R_R_I SRL "0x40000000" "0x80000000" "1"; R_R_I SRL "0x1000000" "0x80000000" "7";
   R_R_I SRL "0x20000" "0x80000000" "14"; R_R_I SRL "0x1" "0x80000001" "31";
   R_R_I SRL "0xffffffff" "0xffffffff" "0"; R_R_I SRL "0x7FFFFFFF" "0xffffffff" "1";
   R_R_I SRL "0x1FFFFFF" "0xffffffff" "7"; R_R_I SRL "0x3FFFF" "0xffffffff" "14";
   R_R_I SRL "0x1" "0xffffffff" "31"; R_R_I SRL "0x21212121" "0x21212121" "0";
   R_R_I SRL "0x10909090" "0x21212121" "1"; R_R_I SRL "0x424242" "0x21212121" "7";
   R_R_I SRL "0x8484" "0x21212121" "14"; R_R_I SRL "0x0" "0x21212121" "31";
   R_R_I XOR "0xff00f00f" "0x00ff0f00" "-0xf1"; R_R_I XOR "0x0ff00f00" "0x0ff00ff0" "0x0f0";
   R_R_I XOR "0x00ff0ff0" "0x00ff08ff" "0x70f"; R_R_I XOR "0xf00ff0ff" "0xf00ff00f" "0x0f0"].

(** The calls of [test_extension_M_instructions].
    src/bootrom/unittest.c:401-527 test_extension_M_instructions *)
Definition extension_M_tests : list test :=
  [R_R_R DIV "3" "20" "6"; R_R_R DIV "-3" "-20" "6";
   R_R_R DIV "-3" "20" "-6"; R_R_R DIV "3" "-20" "-6";
   R_R_R DIV "-1<<31" "-1<<31" "1"; R_R_R DIVU "3" "20" "6";
   R_R_R DIVU "715827879" "-20" "6"; R_R_R DIVU "0" "20" "-6";
   R_R_R DIVU "0" "-20" "-6"; R_R_R DIVU "-1<<31" "-1<<31" "1";
   R_R_R MUL "0x00001200" "0x00007e00" "0xb6db6db7"; R_R_R MUL "0x00001240" "0x00007fc0" "0xb6db6db7";
   R_R_R MUL "0x00000000" "0x00000000" "0x00000000"; R_R_R MUL "0x00000001" "0x00000001" "0x00000001";
   R_R_R MUL "0x00000015" "0x00000003" "0x00000007"; R_R_R MUL "0x00000000" "0x00000000" "0xffff8000";
   R_R_R MUL "0x00000000" "0x80000000" "0x00000000"; R_R_R MUL "0x00000000" "0x80000000" "0xffff8000";
   R_R_R MUL "0x0000ff7f" "0xaaaaaaab" "0x0002fe7d"; R_R_R MUL "0x0000ff7f" "0x0002fe7d" "0xaaaaaaab";
   R_R_R MUL "0x00000000" "0xff000000" "0xff000000"; R_R_R MUL "0x00000001" "0xffffffff" "0xffffffff";
   R_R_R MUL "0xffffffff" "0xffffffff" "0x00000001"; R_R_R MUL "0xffffffff" "0x00000001" "0xffffffff";
   R_R_R MULH "0x00000000" "0x00000000" "0x00000000"; R_R_R MULH "0x00000000" "0x00000001" "0x00000001";
   R_R_R MULH "0x00000000" "0x00000003" "0x00000007"; R_R_R MULH "0x00000000" "0x00000000" "0xffff8000";
   R_R_R MULH "0x00000000" "0x80000000" "0x00000000"; R_R_R MULH "0x00000000" "0x80000000" "0x00000000";
   R_R_R MULH "0xffff0081" "0xaaaaaaab" "0x0002fe7d"; R_R_R MULH "0xffff0081" "0x0002fe7d" "0xaaaaaaab";
   R_R_R MULH "0x00010000" "0xff000000" "0xff000000"; R_R_R MULH "0x00000000" "0xffffffff" "0xffffffff";
   R_R_R MULH "0xffffffff" "0xffffffff" "0x00000001"; R_R_R MULH "0xffffffff" "0x00000001" "0xffffffff";
   R_R_R MULHSU "0x00000000" "0x00000000" "0x00000000"; R_R_R MULHSU "0x00000000" "0x00000001" "0x00000001";
   R_R_R MULHSU "0x00000000" "0x00000003" "0x00000007"; R_R_R MULHSU "0x00000000" "0x00000000" "0xffff8000";
   R_R_R MULHSU "0x00000000" "0x80000000" "0x00000000"; R_R_R MULHSU "0x80004000" "0x80000000" "0xffff8000";
   R_R_R MULHSU "0xffff0081" "0xaaaaaaab" "0x0002fe7d"; R_R_R MULHSU "0x0001fefe" "0x0002fe7d" "0xaaaaaaab";
   R_R_R MULHSU "0xff010000" "0xff000000" "0xff000000"; R_R_R MULHSU "0xffffffff" "0xffffffff" "0xffffffff";
   R_R_R MULHSU "0xffffffff" "0xffffffff" "0x00000001"; R_R_R MULHSU "0x00000000" "0x00000001" "0xffffffff";
   R_R_R MULHU "0x00000000" "0x00000000" "0x00000000"; R_R_R MULHU "0x00000000" "0x00000001" "0x00000001";
   R_R_R MULHU "0x00000000" "0x00000003" "0x00000007"; R_R_R MULHU "0x00000000" "0x00000000" "0xffff8000";
   R_R_R MULHU "0x00000000" "0x80000000" "0x00000000"; R_R_R MULHU "0x7fffc000" "0x80000000" "0xffff8000";
   R_R_R MULHU "0x0001fefe" "0xaaaaaaab" "0x0002fe7d"; R_R_R MULHU "0x0001fefe" "0x0002fe7d" "0xaaaaaaab";
   R_R_R MULHU "0xfe010000" "0xff000000" "0xff000000"; R_R_R MULHU "0xfffffffe" "0xffffffff" "0xffffffff";
   R_R_R MULHU "0x00000000" "0xffffffff" "0x00000001"; R_R_R MULHU "0x00000000" "0x00000001" "0xffffffff";
   R_R_R REM "2" "20" "6"; R_R_R REM "-2" "-20" "6";
   R_R_R REM "2" "20" "-6"; R_R_R REM "-2" "-20" "-6";
   R_R_R REM "0" "-1<<31" "1"; R_R_R REMU "2" "20" "6";
   R_R_R REMU "2" "-20" "6"; R_R_R REMU "20" "20" "-6";
   R_R_R REMU "-20" "-20" "-6"; R_R_R REMU "0" "-1<<31" "1"].

Section SelfTest.
Context `{Assembler}.

(** The registers of a statement: of its result and of its operands. *)
Record choice := { RD : Z; RS1 : Z; RS2 : Z }.

(** The compiler's choice for the statement at a place of the source, in the round of its
    loop, with two operands; and the addresses of the buffer and of [target]. *)
Context (alloc : nat -> Z -> Z -> Z -> choice) (chunk target : Z).

(** An inline-assembly statement with two operands, or with one. *)
Definition asm2 (c : choice) (i : rv_instr) (rs1 rs2 : Z) : prog machine unit :=
  put_reg (RS1 c) (u32 rs1) ;;; put_reg (RS2 c) (u32 rs2) ;;; execute_rv32 i.
Definition asm1 (c : choice) (i : rv_instr) (rs1 : Z) : prog machine unit :=
  put_reg (RS1 c) (u32 rs1) ;;; execute_rv32 i.

Definition report (pass : bool) (what : string) : prog machine unit :=
  if pass then printk (verdict GREEN "PASS" what) [] else printk (verdict RED "FAIL" what) [].

(** src/bootrom/unittest.h:10-24 TEST_R_R_R *)
Definition TEST_R_R_R (place : nat) (intr : alu_op) (rd rs1 rs2 : string) : prog machine unit :=
  let c := alloc place 0 (c_value rs1) (c_value rs2) in
  asm2 c (Comp (I_OP intr (RD c) (RS1 c) (RS2 c))) (c_value rs1) (c_value rs2) ;;;
  let* output := reg (RD c) in
  report (output =? u32 (c_value rd)) (" instruction [" ++ test_text (R_R_R intr rd rs1 rs2) ++ "]").

(** src/bootrom/unittest.h:27-41 TEST_R_R_I *)
Definition TEST_R_R_I (place : nat) (intr : alu_op) (rd rs1 imm : string) : prog machine unit :=
  let c := alloc place 0 (c_value rs1) (c_value rs1) in
  asm1 c (Comp (I_OP_IMM intr (RD c) (RS1 c) (c_value imm))) (c_value rs1) ;;;
  let* output := reg (RD c) in
  report (output =? u32 (c_value rd)) (" instruction [" ++ test_text (R_R_I intr rd rs1 imm) ++ "]").

Definition run_test (place : nat) (t : test) : prog machine unit :=
  match t with
  | R_R_R intr rd rs1 rs2 => TEST_R_R_R place intr rd rs1 rs2
  | R_R_I intr rd rs1 imm => TEST_R_R_I place intr rd rs1 imm
  end.

Fixpoint run_tests (place : nat) (ts : list test) : prog machine unit :=
  match ts with
  | [] => ret tt
  | t :: ts => run_test place t ;;; run_tests (S place) ts
  end.

(** The statements are numbered in the order of the source. *)
Definition immediate_place : nat := length arithmetic_tests.
Definition extension_M_place : nat := immediate_place + length immediate_tests.
Definition memory_place : nat := extension_M_place + length extension_M_tests.
Definition amo_place : nat := memory_place + 26.

Definition test_arithmetic_instruction : prog machine unit := run_tests 0 arithmetic_tests.
Definition test_arithmetic_immediate_instruction : prog machine unit := run_tests immediate_place immediate_tests.
Definition test_extension_M_instructions : prog machine unit := run_tests extension_M_place extension_M_tests.

(** *** Loads and stores *)

(** src/bootrom/unittest.h:44-48 MEM_LOAD_COMMON *)
Definition MEM_LOAD_COMMON (place : nat) (idx : Z) (instr : load_op) (addr : Z) : prog machine Z :=
  let c := alloc place idx addr addr in
  asm1 c (Memory (I_LOAD instr (RD c) (RS1 c) 0)) addr ;;; reg (RD c).

(** src/bootrom/unittest.h:56-60 MEM_STORE_COMMON *)
Definition MEM_STORE_COMMON (place : nat) (idx : Z) (instr : store_op) (addr value : Z) : prog machine unit :=
  let c := alloc place idx addr value in
  asm2 c (Memory (I_STORE instr (RS1 c) (RS2 c) 0)) addr value.

(** The checks of a round: a load each, from an offset, with the value it must read.
    src/bootrom/unittest.c:315-319 _ *)
Fixpoint checks (place : nat) (idx : Z) (cs : list (load_op * Z * Z)) (addr : Z) : prog machine bool :=
  match cs with
  | [] => ret true
  | (instr, off, expected) :: cs =>
      let* read_value := MEM_LOAD_COMMON place idx instr (addr + off) in
      if read_value =? expected then checks (S place) idx cs addr else ret false
  end.

(** A loop over the buffer in steps of [step], [rounds] of them left. *)
Fixpoint sweep (place rounds : nat) (idx step : Z) (instr : store_op) (value : Z) (cs : list (load_op * Z * Z)) :
    prog machine bool :=
  match rounds with
  | O => ret true
  | S rounds =>
      MEM_STORE_COMMON place idx instr (chunk + idx) value ;;;
      let* ok := checks (S place) idx cs (chunk + idx) in
      if ok then sweep place rounds (idx + step) step instr value cs else ret false
  end.

(** src/bootrom/unittest.c:330-336 test_memory_operation *)
Definition byte_loop : prog machine bool :=
  sweep memory_place (Z.to_nat 8192) 0 1 SB 0xfe [(LB, 0, 0xfffffffe); (LBU, 0, 0xfe)].

(** src/bootrom/unittest.c:338-352 test_memory_operation *)
Definition half_word_loop : prog machine bool :=
  sweep (memory_place + 3) (Z.to_nat 4096) 0 2 SH 0xdeadbeef
    [(LBU, 0, 0xef); (LB, 0, 0xffffffef); (LBU, 1, 0xbe); (LB, 1, 0xffffffbe); (LH, 0, 0xffffbeef); (LHU, 0, 0xbeef)].

(** src/bootrom/unittest.c:354-392 test_memory_operation *)
Definition word_loop : prog machine bool :=
  sweep (memory_place + 10) (Z.to_nat 2048) 0 4 SW 0xdeadbeef
    [(LBU, 0, 0xef); (LBU, 1, 0xbe); (LBU, 2, 0xad); (LBU, 3, 0xde);
     (LB, 0, 0xffffffef); (LB, 1, 0xffffffbe); (LB, 2, 0xffffffad); (LB, 3, 0xffffffde);
     (LHU, 0, 0xbeef); (LHU, 2, 0xdead); (LH, 0, 0xffffbeef); (LH, 2, 0xffffdead);
     (LH, 1, 0xffffadbe); (LHU, 1, 0xadbe); (LW, 0, 0xdeadbeef)].

(** src/bootrom/unittest.c:322-397 test_memory_operation *)
Definition test_memory_operation : prog machine unit :=
  let* bytes := byte_loop in
  let* halves := if bytes then half_word_loop else ret false in
  let* words := if halves then word_loop else ret false in
  report words " memory operations".

(** *** Atomics *)

(** One of the five parts, all alike; the line of a failure says PASS as well, in red.
    src/bootrom/unittest.c:533-544 test_amo_instruction *)
Definition amo_test (place : nat) (name : string) (funct5 rs2 expected : Z) : prog machine unit :=
  vmwrite 4 target 0x12345678 ;;;
  let c := alloc place 0 target rs2 in
  asm2 c (Memory (I_AMO funct5 (RD c) (RS1 c) (RS2 c))) target rs2 ;;;
  let* initial_value := reg (RD c) in
  let* value := vmread 4 target in
  let line := (" " ++ name ++ " rd, rs2, (rs1)")%string in
  if (initial_value =? 0x12345678) && (value =? expected)
  then printk (verdict GREEN "PASS" line) [] else printk (verdict RED "PASS" line) [].

(** src/bootrom/unittest.c:529-601 test_amo_instruction *)
Definition test_amo_instruction : prog machine unit :=
  amo_test amo_place "amoadd.w" 0x0 (- 0x678) 0x12345000 ;;;
  amo_test (amo_place + 1) "amoor.w" 0x8 0xfff 0x12345fff ;;;
  amo_test (amo_place + 2) "amoxor.w" 0x4 0x679 0x12345001 ;;;
  amo_test (amo_place + 3) "amoswap.w" 0x1 0x87654321 0x87654321 ;;;
  amo_test (amo_place + 4) "amoand.w" 0xc 0xfff0000f 0x12300008.

(** src/bootrom/unittest.c:603-611 unit_test *)
Definition unit_test : prog machine unit :=
  test_arithmetic_instruction ;;;
  test_arithmetic_immediate_instruction ;;;
  test_extension_M_instructions ;;;
  test_memory_operation ;;;
  test_amo_instruction.
End SelfTest.

(** ** What a statement does *)

Section Facts.
Context `{Assembler}.
Context (alloc : nat -> Z -> Z -> Z -> choice) (chunk target : Z) (rom : pm_region_operation).

(** A result has a register other than x0, and two operands share a register only if they
    are equal, one of them x0 only if it is zero. *)
Record fits (c : choice) (a b : Z) : Prop := {
  fi_rd : 0 < RD c < 32;
  fi_rs1 : 0 <= RS1 c < 32 /\ (RS1 c = 0 -> u32 a = 0);
  fi_rs2 : 0 <= RS2 c < 32 /\ (RS2 c = 0 -> u32 b = 0);
  fi_shared : RS1 c = RS2 c -> u32 a = u32 b
}.

(** The compiler's choices fit the operands;
    the buffer and the variable lie in the firmware's rom, the variable aligned. *)
Record compiled : Prop := {
  co_alloc : forall place round a b, fits (alloc place round a b) a b;
  co_rom : pmr_callbacks rom = bootrom_region /\ 0 <= addr_low rom /\ addr_high rom < 2 ^ 32;
  co_chunk : addr_low rom <= chunk /\ chunk + 8192 <= addr_high rom;
  co_target : addr_low rom <= target /\ target + 4 <= addr_high rom /\ target mod 4 = 0
}.

Context (HC : compiled).

(** A machine the firmware runs on. *)
Record bench (m : machine) : Prop := {
  be_bank : bank_wf m;
  be_level : privilege_level (m_hart m) = PRIVILEGE_LEVEL_MACHINE;
  be_console : console_ready m;
  be_rom : forall a, addr_low rom <= a < addr_high rom -> resolve m a = Some (rom, a);
  be_size : addr_high rom - addr_low rom <= mem_size (bootrom m)
}.

Lemma level_unpaged h : privilege_level h = PRIVILEGE_LEVEL_MACHINE -> paging h = false.
Proof. intros E. unfold paging. by rewrite E. Qed.

Lemma bench_same m m' :
  bench m -> bank_wf m' -> privilege_level (m_hart m') = PRIVILEGE_LEVEL_MACHINE -> pmr_ops m' = pmr_ops m ->
  uart m' = uart m -> mem_size (bootrom m') = mem_size (bootrom m) -> bench m'.
Proof.
  intros [HB HL [HQ HS HD] HR HZ] HB' HL' HO HU HM.
  assert (HRes : forall a, resolve m' a = resolve m a).
  { intros a. unfold resolve. by rewrite !level_unpaged, HO by done. }
  split; [done|done| |intros a Ha; rewrite HRes; by apply HR|by rewrite HM].
  split; [..|by rewrite HU]; unfold at_uart in *; by rewrite HRes.
Qed.

(** From every bench machine the program runs to its end, on a bench again, and has
    shown [out]. *)
Definition says (p : prog machine unit) (out : list Z) : Prop :=
  forall m, bench m -> exists m', p m = Ok tt m' /\ bench m' /\ terminal m' = terminal m ++ out.

Lemma says_ret : says (ret tt) [].
Proof. intros m HB. exists m. by rewrite app_nil_r. Qed.
Lemma says_seq p q o1 o2 : says p o1 -> says q o2 -> says (p ;;; q) (o1 ++ o2).
Proof.
  intros Hp Hq m HB. destruct (Hp m HB) as (m1 & E1 & HB1 & T1). destruct (Hq m1 HB1) as (m2 & E2 & HB2 & T2).
  exists m2. unfold bind. rewrite E1, E2. split; [done|]. split; [done|]. by rewrite T2, T1, (assoc_L app).
Qed.

(** A program that leaves the console alone, in front of one that writes to it. *)
Definition quiet_to {A} (p : prog machine A) (m : machine) (a : A) (m' : machine) : Prop :=
  p m = Ok a m' /\ bench m' /\ terminal m' = terminal m.

Lemma quiet_bind {A B} (p : prog machine A) (k : A -> prog machine B) m a m1 b m2 :
  quiet_to p m a m1 -> quiet_to (k a) m1 b m2 -> quiet_to (let* x := p in k x) m b m2.
Proof. intros (E1 & _ & T1) (E2 & HB2 & T2). split; [unfold bind; by rewrite E1|]. split; [done|congruence]. Qed.

Lemma quiet_says {A} (p : prog machine A) (k : A -> prog machine unit) m a m1 out :
  quiet_to p m a m1 -> says (k a) out ->
  exists m', (let* x := p in k x) m = Ok tt m' /\ bench m' /\ terminal m' = terminal m ++ out.
Proof.
  intros (E1 & HB1 & T1) Hk. destruct (Hk m1 HB1) as (m' & E & HB' & T). exists m'. unfold bind. rewrite E1.
  split; [done|]. split; [done|]. congruence.
Qed.

(** A line without directives. *)
Definition literally (l : list Z) : bool := forallb (fun c => negb (c =? 0x25) && (0 <=? c) && (c <? 256)) l.

Lemma renders_literally fmt out : literally fmt = true -> renders fmt [] out -> out = fmt.
Proof.
  intros Hl HR. remember [] as args eqn:Ea. induction HR as [| c fmt args out Hc HR IH| | | | | | | |]; cbn in Hl; to_prop; try done.
  destruct Hl as [[[_ H0'] H1'] Hl]. rewrite IH by done. f_equal. apply u8_id. by split.
Qed.
Lemma literally_formatted fmt : literally fmt = true -> formatted fmt [] = true.
Proof.
  induction fmt as [|c fmt IH]; [done|]. cbn [literally forallb formatted]. intros Hl. to_prop.
  destruct Hl as [[[Hc _] _] Hl]. rewrite (proj2 (Z.eqb_neq _ _) Hc). cbn [negb]. by apply IH.
Qed.

Definition shown (line : list Z) : list Z := text "BOOTROM: " ++ line.

Lemma says_printk line : literally line = true -> says (printk line []) (shown line).
Proof.
  intros Hl m HB. assert (literally (shown line) = true) as Hs by exact Hl.
  destruct (printk_mp_raw_prints _ _ [] m (le_n _) (literally_formatted _ Hs) (be_console _ HB)) as (o & m' & Ho & E & HP).
  apply renders_literally in Ho as ->; [|done]. exists m'. split; [exact E|].
  destruct HP as (p & _ & ->). split; [|done]. apply (bench_same m); try done; apply HB.
Qed.

(** The operands are in their registers. *)
Definition loaded (c : choice) (a b : Z) (m m' : machine) : Prop :=
  bench m' /\ terminal m' = terminal m /\ bootrom m' = bootrom m /\
  rd_reg (RS1 c) m' = a /\ rd_reg (RS2 c) m' = b.

Lemma wr_reg_bench i v m : bench m -> 0 <= i < 32 -> is_uint 32 v -> bench (wr_reg i v m).
Proof.
  intros HB Hi Hv. apply (bench_same m); try done; [|apply HB].
  apply (wr_reg_wf (W := machine)); [apply HB|lia|done].
Qed.
Lemma wr_pc_bench v m : bench m -> is_uint 32 v -> bench (wr_pc v m).
Proof. intros HB Hv. apply (bench_same m); try done; [|apply HB]. apply (wr_pc_wf (W := machine)); [apply HB|done]. Qed.

Lemma asm2_loads c i a b m : fits c a b -> bench m ->
  exists m', asm2 c i a b m = execute_rv32 i m' /\ loaded c (u32 a) (u32 b) m m'.
Proof.
  intros [_ [H1 _] [H2 _] Hs] HB. pose proof (wr_reg_bench (RS1 c) _ m HB H1 (u32_range a)) as HB1.
  exists (wr_reg (RS2 c) (u32 b) (wr_reg (RS1 c) (u32 a) m)). split; [done|].
  assert (rd_reg (RS2 c) (wr_reg (RS2 c) (u32 b) (wr_reg (RS1 c) (u32 a) m)) = u32 b) as E2
    by (apply (rd_wr_reg (W := machine)); [apply HB1|lia]).
  split; [apply wr_reg_bench; [done..|apply u32_range]|]. do 2 (split; [done|]). split; [|done].
  destruct (decide (RS1 c = RS2 c)) as [E|Hne]; [by rewrite E at 1; rewrite E2, Hs|].
  rewrite rd_wr_reg_ne by lia. apply rd_wr_reg; [apply HB|lia].
Qed.

Lemma asm1_loads c i a b m : fits c a b -> bench m ->
  exists m', asm1 c i a m = execute_rv32 i m' /\ loaded c (u32 a) (rd_reg (RS2 c) m') m m'.
Proof.
  intros [_ [H1 _] _ _] HB.
  exists (wr_reg (RS1 c) (u32 a) m). split; [done|]. split; [apply wr_reg_bench; [done..|apply u32_range]|].
  do 2 (split; [done|]). split; [|done]. apply (rd_wr_reg (W := machine)); [apply HB|lia].
Qed.

(** The end of a statement: the result is in its register. *)
Definition finished (c : choice) (v : Z) (m : machine) : machine := wr_pc (u32 (rd_pc m + 4)) (set_rd (RD c) v m).

Lemma result_read c v m : 0 < RD c < 32 -> bench m -> is_uint 32 v ->
  next_pc (set_rd (RD c) v m) = Ok tt (finished c v m) /\ quiet_to (reg (RD c)) (finished c v m) v (finished c v m) /\
  terminal (finished c v m) = terminal m /\ bootrom (finished c v m) = bootrom m.
Proof.
  intros Hd HB Hv.
  assert (E : set_rd (RD c) v m = wr_reg (RD c) v m) by (unfold set_rd; by rewrite (proj2 (Z.eqb_neq _ _)) by lia).
  unfold finished. rewrite E. split; [done|]. split; [|done]. split; [|split; [|done]].
  - unfold reg, gets. f_equal. change (rd_reg (RD c) (wr_pc (u32 (rd_pc m + 4)) (wr_reg (RD c) v m)) = v).
    rewrite rd_reg_wr_pc. apply rd_wr_reg; [apply HB|lia].
  - apply wr_pc_bench; [apply wr_reg_bench; [done|lia|done]|apply u32_range].
Qed.

(** A line in answer to a result. *)
Lemma answer c v (k : Z -> prog machine unit) m m1 out :
  0 < RD c < 32 -> bench m1 -> is_uint 32 v -> terminal m1 = terminal m -> says (k v) out ->
  exists m', (let* x := reg (RD c) in k x) (finished c v m1) = Ok tt m' /\ bench m' /\ terminal m' = terminal m ++ out.
Proof.
  intros Hd HB Hv T Hk. destruct (result_read c v m1 Hd HB Hv) as (_ & HQ & HT & _).
  destruct (quiet_says _ _ _ _ _ _ HQ Hk) as (m' & E & HB' & T'). exists m'. rewrite T', HT, T. done.
Qed.

(** ** The register tests *)

Definition expected (t : test) : bool :=
  match t with
  | R_R_R op rd rs1 rs2 =>
      negb (div_faults op (u32 (c_value rs1)) (u32 (c_value rs2))) &&
      (alu op (u32 (c_value rs1)) (u32 (c_value rs2)) =? u32 (c_value rd))
  | R_R_I op rd rs1 imm => alu op (u32 (c_value rs1)) (c_value imm) =? u32 (c_value rd)
  end.

Definition pass_line (t : test) : list Z := verdict GREEN "PASS" (" instruction [" ++ test_text t ++ "]").

Lemma run_test_says place t :
  expected t = true -> literally (pass_line t) = true -> says (run_test alloc place t) (shown (pass_line t)).
Proof.
  intros He Hl m HB.
  assert (HR : forall rd, says (report (u32 (c_value rd) =? u32 (c_value rd)) (" instruction [" ++ test_text t ++ "]"))
    (shown (pass_line t))).
  { intros rd. rewrite Z.eqb_refl. by apply says_printk. }
  destruct t as [op rd rs1 rs2|op rd rs1 imm]; cbn [run_test expected] in *; to_prop.
  - destruct He as [Hf Hv]. unfold TEST_R_R_R, bind at 1. cbv zeta.
    pose proof (co_alloc HC place 0 (c_value rs1) (c_value rs2)) as Hfit. set (c := alloc place 0 _ _) in *.
    destruct (asm2_loads c (Comp (I_OP op (RD c) (RS1 c) (RS2 c))) (c_value rs1) (c_value rs2) m Hfit HB)
      as (m1 & -> & HB1 & T1 & _ & E1 & E2).
    cbn [execute_rv32 host_faults execute]. rewrite E1, E2, Hf, Hv.
    apply answer; [apply Hfit|done|apply u32_range|done|apply HR].
  - unfold TEST_R_R_I, bind at 1. cbv zeta.
    pose proof (co_alloc HC place 0 (c_value rs1) (c_value rs1)) as Hfit. set (c := alloc place 0 _ _) in *.
    destruct (asm1_loads c (Comp (I_OP_IMM op (RD c) (RS1 c) (c_value imm))) (c_value rs1) _ m Hfit HB) as (m1 & -> & HB1 & T1 & _ & E1 & _).
    cbn [execute_rv32 host_faults execute]. rewrite E1, He.
    apply answer; [apply Hfit|done|apply u32_range|done|apply HR].
Qed.

Definition pass_lines (ts : list test) : list Z := flat_map (fun t => shown (pass_line t)) ts.

Lemma run_tests_says ts : forall place,
  forallb (fun t => expected t && literally (pass_line t)) ts = true -> says (run_tests alloc place ts) (pass_lines ts).
Proof.
  induction ts as [|t ts IH]; intros place Ht; cbn [run_tests pass_lines flat_map]; [apply says_ret|].
  cbn [forallb] in Ht. to_prop. destruct Ht as [[He Hl] Ht]. apply says_seq; [by apply run_test_says|by apply IH].
Qed.
(** ** The buffer *)

(** The [n] bytes at [a] are the low bytes of [v]. *)
Definition bytes_at (a n v : Z) (m : machine) : Prop :=
  addr_low rom <= a /\ a + n <= addr_high rom /\
  forall i, 0 <= i < n -> mem_byte (bootrom m) (a - addr_low rom + i) = v / 2 ^ (8 * i) mod 256.

Lemma buffer_store a n v m : bench m -> legal_size n = true -> addr_low rom <= a -> a + n <= addr_high rom ->
  exists m', vmwrite n a v m = Ok tt m' /\ bench m' /\ terminal m' = terminal m /\ m_hart m' = m_hart m /\
    bytes_at a n v m'.
Proof.
  intros HB Hn Hl Hh. destruct HC as [_ (Hrom & _) _ _].
  assert (0 < n <= 8) by (unfold legal_size in Hn; revert Hn; to_prop; lia).
  rewrite (vmwrite_hits _ _ _ _ _ _ (be_rom _ HB a ltac:(lia))). unfold pmr_write. rewrite Hrom. unfold bootrom_write.
  rewrite (proj2 (Z.ltb_ge _ _)), Hn by lia. cbn [negb]. unfold mem_store, in_bounds. pose proof (be_size _ HB).
  rewrite !(proj2 (Z.leb_le _ _)) by lia. cbn [andb]. eexists. split; [reflexivity|].
  split; [apply (bench_same m); try done; apply HB|]. do 4 (split; [done|]).
  intros i Hi. unfold mem_byte. cbn [bootrom set_bootrom mem_bytes].
  rewrite store_bytes_byte by lia. cbn. do 4 f_equal. lia.
Qed.

Lemma buffer_load a n k s v m : bench m -> bytes_at a n v m -> legal_size s = true -> 0 <= k -> k + s <= n ->
  vmread s (a + k) m = Ok ((v / 2 ^ (8 * k)) mod 2 ^ (8 * s)) m.
Proof.
  intros HB (Hl & Hh & Hb) Hs Hk Hks. destruct HC as [_ (Hrom & _) _ _].
  assert (0 < s <= 8) by (unfold legal_size in Hs; revert Hs; to_prop; lia).
  rewrite (vmread_resolved _ _ _ _ _ (be_rom _ HB (a + k) ltac:(lia))). unfold bind, pmr_read. rewrite Hrom.
  unfold bootrom_read. rewrite (proj2 (Z.ltb_ge _ _)), Hs by lia. cbn [negb]. unfold mem_load, in_bounds.
  pose proof (be_size _ HB). rewrite !(proj2 (Z.leb_le _ _)) by lia. cbn [andb of_opt]. unfold ret, truncate.
  rewrite (load_bytes_value _ _ _ (v / 2 ^ (8 * k))).
  - rewrite Z2Nat.id by lia. rewrite Z.mod_mod by (apply Z.pow_nonzero; lia). done.
  - intros i Hi. rewrite Z2Nat.id in Hi by lia. replace i with (a - addr_low rom + (i - (a - addr_low rom))) at 1 by lia.
    rewrite Hb by lia. rewrite Z.div_div by (try apply Z.pow_nonzero; try apply Z.pow_pos_nonneg; lia).
    rewrite <- Z.pow_add_r by lia. do 3 f_equal. lia.
Qed.

Lemma store_size_legal op : legal_size (store_size op) = true.
Proof. by destruct op. Qed.
Lemma load_size_legal op : legal_size (load_size op) = true.
Proof. by destruct op. Qed.

Lemma in_address a : addr_low rom <= a <= addr_high rom -> is_uint 32 a.
Proof. destruct HC as [_ (_ & Hl & Hh) _ _]. unfold is_uint. lia. Qed.

Lemma store_statement place idx op a v m :
  bench m -> addr_low rom <= a -> a + store_size op <= addr_high rom ->
  exists m', quiet_to (MEM_STORE_COMMON alloc place idx op a v) m tt m' /\
    bytes_at a (store_size op) (u32 v mod 2 ^ (8 * store_size op)) m'.
Proof.
  intros HB Hl Hh. assert (0 < store_size op) by by destruct op. unfold MEM_STORE_COMMON. cbv zeta.
  pose proof (co_alloc HC place idx a v) as Hfit. set (c := alloc place idx _ _) in *.
  destruct (asm2_loads c (Memory (I_STORE op (RS1 c) (RS2 c) 0)) a v m Hfit HB) as (m1 & E & HB1 & T1 & _ & E1 & E2).
  rewrite (u32_id a) in E1 by (apply in_address; lia).
  destruct (buffer_store a (store_size op) (u32 v mod 2 ^ (8 * store_size op)) m1 HB1 (store_size_legal op) Hl Hh)
    as (m2 & EW & HB2 & T2 & _ & HA).
  exists (wr_pc (u32 (rd_pc m2 + 4)) m2). split; [|exact HA].
  split; [|split; [apply wr_pc_bench; [done|apply u32_range]|by rewrite <- T1, <- T2]].
  rewrite E. cbn [execute_rv32 execute_mem]. unfold bind, gets. rewrite E1, E2, Z.add_0_r.
  rewrite (u32_id a) by (apply in_address; lia). by rewrite EW.
Qed.

Lemma load_value_range op v : is_uint 32 (load_value op (v mod 2 ^ (8 * load_size op))).
Proof.
  assert (HR : forall n, 0 <= n <= 4 -> is_uint 32 (v mod 2 ^ (8 * n))).
  { intros n Hn. pose proof (Z.mod_pos_bound v (2 ^ (8 * n)) ltac:(apply Z.pow_pos_nonneg; lia)).
    pose proof (Z.pow_le_mono_r 2 (8 * n) 32 ltac:(lia) ltac:(lia)). unfold is_uint. lia. }
  destruct op; cbn [load_value load_size]; try apply u32_range; by apply HR.
Qed.

Lemma load_statement place idx op a n k v m :
  bench m -> bytes_at a n v m -> 0 <= k -> k + load_size op <= n ->
  exists m', quiet_to (MEM_LOAD_COMMON alloc place idx op (a + k)) m
    (load_value op ((v / 2 ^ (8 * k)) mod 2 ^ (8 * load_size op))) m' /\ bootrom m' = bootrom m.
Proof.
  intros HB HA Hk Hkn. pose proof HA as (Hl & Hh & _). assert (0 < load_size op) by by destruct op.
  unfold MEM_LOAD_COMMON. cbv zeta.
  pose proof (co_alloc HC place idx (a + k) (a + k)) as Hfit. set (c := alloc place idx _ _) in *.
  destruct (asm1_loads c (Memory (I_LOAD op (RD c) (RS1 c) 0)) (a + k) _ m Hfit HB) as (m1 & E & HB1 & T1 & EB & E1 & _).
  rewrite (u32_id (a + k)) in E1 by (apply in_address; lia).
  assert (HA1 : bytes_at a n v m1) by (unfold bytes_at; by rewrite EB).
  pose proof (buffer_load a n k (load_size op) v m1 HB1 HA1 (load_size_legal op) Hk Hkn) as EL.
  destruct (result_read c _ m1 (fi_rd _ _ _ Hfit) HB1 (load_value_range op (v / 2 ^ (8 * k)))) as (EN & (ER & HB2 & _) & T2 & EB2).
  set (x := load_value op _) in *. exists (finished c x m1). split; [|congruence]. split; [|split; [done|congruence]].
  unfold bind at 1. rewrite E. cbn [execute_rv32 execute_mem]. unfold bind, gets. rewrite E1, Z.add_0_r.
  rewrite (u32_id (a + k)) by (apply in_address; lia). rewrite EL. unfold modify. fold x.
  rewrite EN. exact ER.
Qed.

(** A check that holds of a value of [n] bytes. *)
Definition check_holds (n v : Z) (c : load_op * Z * Z) : bool :=
  let '(op, k, e) := c in
  (0 <=? k) && (k + load_size op <=? n) && (load_value op ((v / 2 ^ (8 * k)) mod 2 ^ (8 * load_size op)) =? e).

Lemma checks_pass place idx a n v cs m :
  bench m -> bytes_at a n v m -> forallb (check_holds n v) cs = true ->
  exists m', quiet_to (checks alloc place idx cs a) m true m'.
Proof.
  revert place m. induction cs as [|[[op k] e] cs IH]; intros place m HB HA Hcs; cbn [checks]; [by exists m|].
  cbn [forallb check_holds] in Hcs. to_prop. destruct Hcs as [[[Hk Hkn] He] Hcs].
  destruct (load_statement place idx op a n k v m HB HA Hk Hkn) as (m1 & HQ & EB).
  destruct (IH (S place) m1) as (m2 & HQ2); [apply HQ|unfold bytes_at; by rewrite EB|done|].
  exists m2. eapply quiet_bind; [exact HQ|]. cbn beta. by rewrite He, Z.eqb_refl.
Qed.

Lemma sweep_pass place rounds : forall idx step op value cs m,
  bench m -> forallb (check_holds (store_size op) (u32 value mod 2 ^ (8 * store_size op))) cs = true ->
  0 <= idx -> store_size op = step -> idx + Z.of_nat rounds * step <= 8192 ->
  exists m', quiet_to (sweep alloc chunk place rounds idx step op value cs) m true m'.
Proof.
  induction rounds as [|rounds IH]; intros idx step op value cs m HB Hcs Hi <- Hend; cbn [sweep]; [by exists m|].
  destruct HC as [_ _ (Hcl & Hch) _]. assert (0 < store_size op) by by destruct op.
  destruct (store_statement place idx op (chunk + idx) value m HB) as (m1 & HQ1 & HA); [lia..|].
  destruct (checks_pass (S place) idx _ _ _ cs m1 (proj1 (proj2 HQ1)) HA Hcs) as (m2 & HQ2).
  destruct (IH (idx + store_size op) (store_size op) op value cs m2 (proj1 (proj2 HQ2)) Hcs) as (m3 & HQ3); [lia|done|lia|].
  exists m3. eapply quiet_bind; [exact HQ1|]. eapply quiet_bind; [exact HQ2|exact HQ3].
Qed.

Lemma byte_loop_pass m : bench m -> exists m', quiet_to (byte_loop alloc chunk) m true m'.
Proof. intros HB. by apply sweep_pass. Qed.
Lemma half_word_loop_pass m : bench m -> exists m', quiet_to (half_word_loop alloc chunk) m true m'.
Proof. intros HB. by apply sweep_pass. Qed.
Lemma word_loop_pass m : bench m -> exists m', quiet_to (word_loop alloc chunk) m true m'.
Proof. intros HB. by apply sweep_pass. Qed.

Lemma memory_says :
  says (test_memory_operation alloc chunk) (shown (verdict GREEN "PASS" " memory operations")).
Proof.
  intros m HB. unfold test_memory_operation.
  destruct (byte_loop_pass m HB) as (m1 & E1 & HB1 & T1). destruct (half_word_loop_pass m1 HB1) as (m2 & E2 & HB2 & T2).
  destruct (word_loop_pass m2 HB2) as (m3 & E3 & HB3 & T3).
  destruct (says_printk (verdict GREEN "PASS" " memory operations") (eq_refl true) m3 HB3) as (m' & E & HB' & T).
  exists m'. unfold bind. rewrite E1, E2, E3. split; [exact E|]. split; [done|]. congruence.
Qed.

(** ** The atomics *)

(** A write of zero to x0, and on to the next instruction. *)
Lemma zero_bench m : bench m -> bench (wr_reg 0 0 m).
Proof.
  intros HB. apply (bench_same m); try done; [|apply HB]. by apply (wr_reg_wf (W := machine)); [apply HB| |].
Qed.

Lemma aligned_target : truthy (Z.land target 3) = false.
Proof.
  destruct HC as [_ _ _ (_ & _ & Ha)]. change 3 with (Z.ones 2). rewrite Z.land_ones by lia.
  change (2 ^ 2) with 4. by rewrite Ha.
Qed.

Lemma amo_statement c f rs2 v m :
  fits c target rs2 -> bench m -> is_amo f = true -> is_uint 32 v -> bytes_at target 4 v m ->
  exists m', quiet_to (asm2 c (Memory (I_AMO f (RD c) (RS1 c) (RS2 c))) target rs2) m tt m' /\
    rd_reg (RD c) m' = v /\ bytes_at target 4 (amo_op f v (u32 rs2)) m'.
Proof.
  intros Hfit HB Hf Hv HA. destruct HC as [_ _ _ (Htl & Hth & _)].
  pose proof (fi_rd _ _ _ Hfit) as Hrd. pose proof (proj1 (fi_rs1 _ _ _ Hfit)) as H1. pose proof (proj1 (fi_rs2 _ _ _ Hfit)) as H2.
  destruct (asm2_loads c (Memory (I_AMO f (RD c) (RS1 c) (RS2 c))) target rs2 m Hfit HB) as (m1 & E & HB1 & T1 & EB & E1 & E2).
  rewrite (u32_id target) in E1 by (apply in_address; lia).
  assert (HA1 : bytes_at target 4 v m1) by (unfold bytes_at; by rewrite EB).
  pose proof (buffer_load target 4 0 4 v m1 HB1 HA1 eq_refl ltac:(lia) ltac:(lia)) as EL.
  rewrite Z.add_0_r, Z.mul_0_r, Z.pow_0_r, Z.div_1_r, Z.mod_small in EL by exact Hv.
  pose proof (wr_reg_bench (RD c) v m1 HB1 ltac:(lia) Hv) as HB2.
  destruct (buffer_store target 4 (amo_op f v (u32 rs2)) (wr_reg (RD c) v m1) HB2 eq_refl Htl Hth) 
    as (m3 & EW & HB3 & T3 & EH & HA3).
  exists (wr_pc (u32 (rd_pc (wr_reg 0 0 m3) + 4)) (wr_reg 0 0 m3)). split; [|split; [|exact HA3]].
  - split; [|split; [apply wr_pc_bench; [by apply zero_bench|apply u32_range]|rewrite <- T1; exact T3]].
    rewrite E. cbn [execute_rv32 execute_mem]. unfold bind at 1. rewrite amo_unfold by done. cbv zeta.
    change (HART_REG (m_hart m1) (RS1 c)) with (rd_reg (RS1 c) m1). change (HART_REG (m_hart m1) (RS2 c)) with (rd_reg (RS2 c) m1).
    rewrite E1, E2. unfold mmu_read32_aligned, mmu_write32_aligned. rewrite aligned_target.
    unfold bind at 1, ret at 1. rewrite EL. change (with_reg (RD c) v m1) with (wr_reg (RD c) v m1).
    change (HART_REG (m_hart (wr_reg (RD c) v m1)) (RD c)) with (rd_reg (RD c) (wr_reg (RD c) v m1)).
    rewrite rd_wr_reg by (apply HB1 || lia). unfold bind at 1, ret at 1. rewrite EW. done.
  - rewrite rd_reg_wr_pc, rd_wr_reg_ne by lia.
    assert (rd_reg (RD c) m3 = rd_reg (RD c) (wr_reg (RD c) v m1)) as -> by (cbn [rd_reg machine_bank]; by rewrite EH).
    apply rd_wr_reg; [apply HB1|lia].
Qed.

Definition amo_line (name : string) : list Z := verdict GREEN "PASS" (" " ++ name ++ " rd, rs2, (rs1)").

Lemma amo_test_says place name f rs2 e :
  is_amo f = true -> amo_op f 0x12345678 (u32 rs2) = e -> is_uint 32 e -> literally (amo_line name) = true ->
  says (amo_test alloc target place name f rs2 e) (shown (amo_line name)).
Proof.
  intros Hf He Hu Hl m HB. destruct HC as [_ _ _ (Htl & Hth & _)]. unfold amo_test. cbv zeta.
  pose proof (co_alloc HC place 0 target rs2) as Hfit. set (c := alloc place 0 _ _) in *.
  destruct (buffer_store target 4 0x12345678 m HB eq_refl Htl Hth) as (m1 & E1 & HB1 & T1 & _ & HA1).
  destruct (amo_statement c f rs2 0x12345678 m1 Hfit HB1 Hf) as (m2 & (E2 & HB2 & T2) & ER & HA2); [by vm_compute|done|].
  rewrite He in HA2. pose proof (buffer_load target 4 0 4 e m2 HB2 HA2 eq_refl ltac:(lia) ltac:(lia)) as EL.
  rewrite Z.add_0_r, Z.mul_0_r, Z.pow_0_r, Z.div_1_r, Z.mod_small in EL by exact Hu.
  destruct (says_printk (amo_line name) Hl m2 HB2) as (m' & E & HB' & T).
  exists m'. split; [|split; [done|congruence]]. unfold bind at 1. rewrite E1. unfold bind at 1. rewrite E2.
  unfold bind at 1, reg, gets. change (HART_REG (m_hart m2) (RD c)) with (rd_reg (RD c) m2). rewrite ER.
  unfold bind at 1. rewrite EL. by rewrite !Z.eqb_refl.
Qed.

Definition amo_names : list string := ["amoadd.w"; "amoor.w"; "amoxor.w"; "amoswap.w"; "amoand.w"].
Definition amo_lines : list Z := flat_map (fun name => shown (amo_line name)) amo_names.

Lemma amo_says : says (test_amo_instruction alloc target) amo_lines.
Proof.
  unfold test_amo_instruction, amo_lines, amo_names. cbn [flat_map]. rewrite app_nil_r.
  do 4 (apply says_seq; [by apply amo_test_says|]). by apply amo_test_says.
Qed.

(** Every line the self tests print when nothing is wrong. *)
Definition all_pass : list Z :=
  pass_lines arithmetic_tests ++ pass_lines immediate_tests ++ pass_lines extension_M_tests ++
  shown (verdict GREEN "PASS" " memory operations") ++ amo_lines.

Lemma unit_test_says : says (unit_test alloc chunk target) all_pass.
Proof.
  unfold unit_test, all_pass. do 3 (apply says_seq; [apply run_tests_says; vm_compute; reflexivity|]).
  apply says_seq; [apply memory_says|apply amo_says].
Qed.
End Facts.

(** The machine on which the firmware starts carries the self tests. *)
Lemma starting_bench `{Assembler} (s : setting) m :
  starting s m -> bank_wf m -> dlab (uart m) = false -> bench rom_region m.
Proof.
  intros HS HB HD. pose proof (st_platform _ _ HS) as [HL _]. destruct (st_rom _ _ HS) as [[HZ _] _].
  split; [done|exact HL|by apply platform_console, (st_platform _ _ HS)| |].
  - intros a [Ha0 Ha]. cbn [addr_low addr_high rom_region] in Ha0, Ha.
    apply (resolve_region s); [done| |unfold covers, rom_region; cbn [addr_low addr_high]; lia|lia].
    unfold memory_map. by repeat constructor.
  - cbn [addr_low addr_high rom_region]. rewrite HZ. lia.
Qed.

(** C17. The emulated machine passes the firmware's self tests. On the machine the vmm sets
    up from its configuration, the firmware clears its .bss, resets the console and shows
    its banner, and then, whatever registers the compiler chose for each statement of inline assembly,
    one for both operands where they are equal included, and wherever in
    the rom the linker put the buffer and the variable, the self tests run to their end -
    no trap, no failed assertion -, and the console has shown one line for each test, in
    order, every one of them PASS: the 302 arithmetic instructions compute the expected
    results, the loads of the 8 KiB see what was stored, misaligned half-words included,
    and the atomics return the old word and leave the new one. *)
Theorem self_tests_pass `{Assembler} file config contents ini s attached keys lines alloc chunk target
    top bss_start bss_end :
  file config = Some contents -> ini_load contents = Some ini -> configured file ini s ->
  linked s top bss_start bss_end -> compiled alloc chunk target rom_region ->
  exists m v m1 m2,
    main_until_resume file config attached (vm_off (machine_off keys lines)) = Ok m v /\ booted s m /\
    (rom_reset top bss_start bss_end ;;; uart16550_init ;;; banner) m = Ok tt m1 /\
    unit_test alloc chunk target m1 = Ok tt m2 /\ terminal m2 = terminal m1 ++ all_pass.
Proof.
  intros Hf Hi HC HL Hco. destruct (boots file config contents ini s attached keys lines Hf Hi HC) as (m & v & E & HB0).
  destruct (rom_reset_ok s file ini HC top bss_start bss_end HL [] m HB0 (Forall_nil_2 _)) as (h & r & E0 & HB & _).
  set (m0 := set_bootrom r (set_m_hart h m)) in *.
  assert (starting s m0) as HS by (destruct HB; by split). pose proof (proj1 (proj1 (bo_guest _ _ HB))) as HW.
  destruct (uart_init_ok s m0 HS) as (u & p & E1 & Hd). assert (HS1 := starting_uart s m0 u p HS Hd).
  destruct (banner_shows s file ini HC _ HS1) as (o & m1 & E2 & Hp & _).
  assert (HS2 := starting_prints s _ _ _ Hp HS1). destruct Hp as (q & _ & ->).
  destruct (unit_test_says alloc chunk target rom_region Hco _ (starting_bench s _ HS2 HW Hd))
    as (m2 & E3 & _ & T).
  eexists m, v, _, m2. split; [exact E|]. split; [exact HB0|]. split; [|split; [exact E3|exact T]].
  revert E0. unfold bind. destruct (rom_reset _ _ _ m); try done. cbn [leave]. unfold ret. intros [= ->]. by rewrite E1.
Qed.

Module Witness.
Import Vm.Witness.
#[local] Existing Instance Hart.Concrete.sizes.

(** What a line looks like. *)
Example first_line :
  take 36 all_pass = text "BOOTROM: " ++ 0x1b :: text "[32mPASS" ++ 0x1b :: text "[0m instruction [".
Proof. vm_compute. reflexivity. Qed.

(** One register for equal operands, another for each statement otherwise. *)
Definition shares (place : nat) (round a b : Z) : choice :=
  {| RD := 10 + Z.of_nat place mod 4; RS1 := 14; RS2 := if u32 a =? u32 b then 14 else 15 |}.

Lemma shares_fits place round a b : fits (shares place round a b) a b.
Proof.
  pose proof (Z.mod_pos_bound (Z.of_nat place) 4 ltac:(done)). unfold shares.
  split; cbn [RD RS1 RS2]; [lia|lia|case_test; lia|]. destruct (Z.eqb_spec (u32 a) (u32 b)); [done|lia].
Qed.

Lemma self_tests_pass_witness :
  exists m v m1 m2,
    main_until_resume file (text "vm.ini") true (vm_off (machine_off [] [])) = Ok m v /\ booted s m /\
    (rom_reset 0x18000 0x8000 0x18010 ;;; uart16550_init ;;; banner) m = Ok tt m1 /\
    unit_test shares 0x8000 0xb000 m1 = Ok tt m2 /\ terminal m2 = terminal m1 ++ all_pass.
Proof.
  apply (self_tests_pass file (text "vm.ini") contents ini s true [] [] shares 0x8000 0xb000 0x18000 0x8000 0x18010).
  - vm_compute. reflexivity.
  - vm_compute. reflexivity.
  - exact s_configured.
  - split; [by split|split; vm_compute; discriminate|split; vm_compute; discriminate].
  - split; [exact shares_fits|cbn; lia || by repeat split..].
Defined.
End Witness.
