(* ===== verification/Guest.v ===== *)
(** * The guest's init program

    Models src/guest/init.c, the shell that runs as the first process of the Linux in the
    emulated machine when there is no busybox. The kernel it runs on is no part of the
    repository: it is a parameter, a state with one function for the system calls, and
    what the shell relies on is the class [Linux], whose laws say for each call what the
    manual says of it, short writes and reads that fail included. A pointer is the bytes
    of its object from there on; what the stack holds before it is written is a
    parameter. Each loop has a bound, [fuel]; running out of it and leaving a buffer are
    failures.

    Proved here: a session. Whatever is typed, with reads that are interrupted or find
    the console closed in between, the shell answers each line with what the command
    prints, an unknown one with its name, never leaves one of its buffers, and switches
    the machine off when it is told to; of each write the console shows what the kernel
    took. *)

From S2P Require Import Prelude Monad Bytes.
Local Open Scope Z_scope.

(** ** The kernel *)

(** A system call with its arguments, a buffer that is read by its bytes, one that is
    written by its size.
    src/guest/init.c:9-17 SYS_read *)
Inductive call :=
  | SYS_read (fd size : Z)
  | SYS_write (fd : Z) (bytes : list Z)
  | SYS_openat (path : list Z) (flags : Z)
  | SYS_close (fd : Z)
  | SYS_exit_group (code : Z)
  | SYS_reboot (magic magic2 cmd : Z)
  | SYS_mount (source target kind : list Z)
  | SYS_uname
  | SYS_getdents64 (fd size : Z)
  | SYS_nanosleep (sec nsec : Z).

(** A call returns its result and the bytes it has written to the caller's buffer, or
    does not return. *)
Class Kernel := {
  kernel : Type;
  system_call : call -> kernel -> option (Z * list Z * kernel)
}.

(** ** The shell *)

Section Shell.
Context `{Kernel} (garbage : Z -> Z).

Definition io : Type -> Type := prog kernel.

(** src/guest/init.c:21-45 syscall3 *)
Definition syscall (c : call) : io (Z * list Z) := fun k =>
  match system_call c k with
  | Some (r, out, k) => Ok (r, out) k
  | None => Exited 0 k
  end.

(** A buffer on the stack. *)
Definition uninit (n : Z) : list Z := map garbage (seqZ 0 n).

(** A string literal. *)
Definition literal (s : string) : list Z := text s ++ [0].

(** src/guest/init.c:47-55 slen *)
Fixpoint slen (s : list Z) : option Z :=
  match s with
  | [] => None
  | c :: s => if truthy c then n ← slen s; Some (1 + n) else Some 0
  end.

(** src/guest/init.c:57-61 put *)
Definition put (s : list Z) : io unit :=
  let* n := of_opt (slen s) in
  let* bytes := of_opt (load_at 0 n s) in
  syscall (SYS_write 1 bytes) ;;; ret tt.

(** src/guest/init.c:63-71 seq *)
Fixpoint seq (a b : list Z) : option bool :=
  match a, b with
  | x :: a', y :: b' => if truthy x && (x =? y) then seq a' b' else Some (x =? y)
  | _, _ => None
  end.

(** The bytes from an offset on. *)
Definition from (off : Z) (buf : list Z) : option (list Z) :=
  if (0 <=? off) && (off <=? len buf) then Some (drop (Z.to_nat off) buf) else None.

Definition open_path (path : list Z) (flags : Z) : io Z :=
  let* name := of_opt (until_zero path) in
  let* (fd, _) := syscall (SYS_openat name flags) in
  ret fd.

Definition cannot_open (path : list Z) : io unit :=
  put (literal "cannot open ") ;;; put path ;;; put [0x0a; 0].

(** src/guest/init.c:84-90 cat *)
Fixpoint cat_loop (fuel : nat) (fd : Z) (buf : list Z) : io unit :=
  match fuel with
  | O => failed
  | S fuel =>
      let* (n, out) := syscall (SYS_read fd 512) in
      let* buf := of_opt (store_at 0 out buf) in
      if n <=? 0 then ret tt
      else
        let* bytes := of_opt (load_at 0 n buf) in
        syscall (SYS_write 1 bytes) ;;; cat_loop fuel fd buf
  end.

(** src/guest/init.c:73-92 cat *)
Definition cat (fuel : nat) (path : list Z) : io unit :=
  let* fd := open_path path 0 in
  if fd <? 0 then cannot_open path
  else cat_loop fuel fd (uninit 512) ;;; syscall (SYS_close fd) ;;; ret tt.

(** The offsets of the fields of [struct utsname_rv], each of 65 bytes.
    src/guest/init.c:94-97 utsname_rv *)
Definition utsname_field (i : Z) : Z := 65 * i.
Definition u_sysname : Z := utsname_field 0.
Definition u_release : Z := utsname_field 2.
Definition u_machine : Z := utsname_field 4.
Definition utsname_size : Z := utsname_field 6.

Definition put_from (off : Z) (buf : list Z) : io unit :=
  let* s := of_opt (from off buf) in put s.

(** src/guest/init.c:99-112 do_uname *)
Definition do_uname : io unit :=
  let* (r, out) := syscall SYS_uname in
  let* u := of_opt (store_at 0 out (uninit utsname_size)) in
  if r <? 0 then ret tt
  else
    put_from u_sysname u ;;; put (literal " ") ;;;
    put_from u_release u ;;; put (literal " ") ;;;
    put_from u_machine u ;;; put [0x0a; 0].

Definition builtins : string := "builtins: help uname meminfo cpuinfo version ls poweroff".

(** src/guest/init.c:114-118 help *)
Definition help : io unit := put (text builtins ++ [0x0a; 0]).

(** The entries of a buffer that [getdents64] has filled up to [n].
    src/guest/init.c:136-143 ls *)
Fixpoint ls_entries (fuel : nat) (off n : Z) (buf : list Z) : io unit :=
  match fuel with
  | O => failed
  | S fuel =>
      if off <? n then
        let* reclen := of_opt (load_at (off + 16) 2 buf) in
        put_from (off + 19) buf ;;;
        put (literal "  ") ;;;
        ls_entries fuel (off + le_value reclen) n buf
      else ret tt
  end.

(** src/guest/init.c:131-144 ls *)
Fixpoint ls_loop (fuel : nat) (fd : Z) (buf : list Z) : io unit :=
  match fuel with
  | O => failed
  | S fuel' =>
      let* (n, out) := syscall (SYS_getdents64 fd 1024) in
      let* buf := of_opt (store_at 0 out buf) in
      if n <=? 0 then ret tt
      else ls_entries fuel 0 n buf ;;; ls_loop fuel' fd buf
  end.

Definition O_DIRECTORY : Z := 0x10000.

(** src/guest/init.c:120-147 ls *)
Definition ls (fuel : nat) (path : list Z) : io unit :=
  let* fd := open_path path O_DIRECTORY in
  if fd <? 0 then cannot_open path
  else ls_loop fuel fd (uninit 1024) ;;; put [0x0a; 0] ;;; syscall (SYS_close fd) ;;; ret tt.

Definition LINE_SIZE : Z := 128.

(** The loop that reads a line.
    src/guest/init.c:169-187 _start *)
Fixpoint read_line (fuel : nat) (n : Z) (line : list Z) : io (Z * list Z) :=
  match fuel with
  | O => failed
  | S fuel =>
      let* (r, out) := syscall (SYS_read 0 1) in
      let* cell := of_opt (store_at 0 out (uninit 1)) in
      let* c := of_opt (head cell) in
      if r =? 0 then syscall (SYS_nanosleep 1 0) ;;; read_line fuel n line
      else if r <? 0 then read_line fuel n line
      else if (c =? 0x0d) || (c =? 0x0a) then ret (n, line)
      else if n + 1 <? LINE_SIZE then
        let* line := of_opt (store_at n [c] line) in
        read_line fuel (n + 1) line
      else read_line fuel n line
  end.

Definition power_off : io unit :=
  put (text "powering off" ++ [0x0a; 0]) ;;;
  syscall (SYS_reboot 0xfee1dead 672274793 0x4321fedc) ;;; ret tt.

Definition unknown_command (line : list Z) : io unit :=
  put (literal "unknown command: ") ;;; put line ;;; put [0x0a; 0].

(** A test of the chain of [else if]s. *)
Definition when_line (line : list Z) (name : string) (yes no : io unit) : io unit :=
  let* b := of_opt (seq line (literal name)) in if b then yes else no.

(** src/guest/init.c:190-212 _start *)
Definition run_command (fuel : nat) (n : Z) (line : list Z) : io unit :=
  if negb (truthy n) then ret tt
  else
    when_line line "help" help (
    when_line line "uname" do_uname (
    when_line line "meminfo" (cat fuel (literal "/proc/meminfo")) (
    when_line line "cpuinfo" (cat fuel (literal "/proc/cpuinfo")) (
    when_line line "version" (cat fuel (literal "/proc/version")) (
    when_line line "ls" (ls fuel (literal "/")) (
    when_line line "poweroff" power_off (
    unknown_command line))))))).

Definition prompt : string := "zelda:/# ".

(** One turn of the outer loop; the line stays in its buffer.
    src/guest/init.c:161-213 _start *)
Definition one_command (fuel : nat) (line : list Z) : io (list Z) :=
  put (literal prompt) ;;;
  let* (n, line) := read_line fuel 0 line in
  let* line := of_opt (store_at n [0] line) in
  run_command fuel n line ;;; ret line.

Fixpoint commands (rounds fuel : nat) (line : list Z) : io unit :=
  match rounds with
  | O => failed
  | S rounds => let* line := one_command fuel line in commands rounds fuel line
  end.

Definition welcome : list Z := text "  Zelda RISC-V emulator -- rv32ima Linux userspace is alive." ++ [0x0a].
Definition instructions : list Z :=
  text "  Type 'help' for the builtins, 'poweroff' to stop the machine." ++ [0x0a; 0x0a].

(** src/guest/init.c:149-215 _start *)
Definition _start (fuel : nat) : io unit :=
  syscall (SYS_mount (text "proc") (text "/proc") (text "proc")) ;;;
  syscall (SYS_mount (text "sysfs") (text "/sys") (text "sysfs")) ;;;
  put [0x0a; 0] ;;;
  put (welcome ++ [0]) ;;;
  put (instructions ++ [0]) ;;;
  commands fuel fuel (uninit LINE_SIZE).
End Shell.

(** ** The kernel the shell relies on *)

(** An entry of a directory. *)
Record entry := {
  d_ino : Z;
  d_off : Z;
  d_type : Z;
  d_name : list Z;
  d_pad : list Z
}.

Definition d_reclen (e : entry) : Z := 20 + len (d_name e) + len (d_pad e).

Definition dirent (e : entry) : list Z :=
  le_bytes 8 (d_ino e) ++ le_bytes 8 (d_off e) ++ le_bytes 2 (d_reclen e) ++ [d_type e] ++ d_name e ++ 0 :: d_pad e.
Definition dirents (es : list entry) : list Z := flat_map dirent es.

Inductive source :=
  | File (contents : list Z)
  | Directory (entries : list entry).

Definition source_size (s : source) : nat :=
  match s with File contents => length contents | Directory es => length es end.

(** A name has 255 bytes at most, and an entry is padded to a multiple of eight. *)
Definition entry_ok (e : entry) : Prop := c_string (d_name e) /\ d_reclen e <= 280.
Definition source_ok (s : source) : Prop :=
  match s with File _ => True | Directory es => Forall entry_ok es end.

(** What [openat] opens: a directory is opened for reading too. *)
Definition opens (s : option source) (flags : Z) : option source :=
  match s with
  | Some (File contents) => if flags =? 0 then Some (File contents) else None
  | s => s
  end.

(** What a read of the console finds: a key, or nothing, with a result that is not positive. *)
Inductive event := Key (c : Z) | Nothing (errno : N).

(** What the shell can see of a process: what it has asked the console to show, what
    will be read from it, and the descriptors it has opened with what is left to read of
    each. *)
Record process := {
  told : list Z;
  typed : list event;
  opened : gmap Z source
}.

Definition tell (bytes : list Z) (w : process) : process :=
  {| told := told w ++ bytes; typed := typed w; opened := opened w |}.
Definition set_typed (evs : list event) (w : process) : process :=
  {| told := told w; typed := evs; opened := opened w |}.
Definition set_opened (o : gmap Z source) (w : process) : process :=
  {| told := told w; typed := typed w; opened := o |}.

Definition utsname_bytes (fields : list (list Z)) : list Z :=
  flat_map (fun s => s ++ replicate (65 - length s) 0) fields.

(** What the manual says of a call: the answer that is seen by a process. A write may
    have any result, a file may not be opened, a read of one may end early or fail. A
    call that is not made by the shell may do anything. *)
Definition answers (file : list Z -> option source) (uts : list (list Z)) (c : call) (w : process)
    (a : option (Z * list Z * process)) : Prop :=
  let fails := exists r, r < 0 /\ a = Some (r, [], w) in
  match c with
  | SYS_write fd bytes => fd = 1 -> exists r, a = Some (r, [], tell bytes w)
  | SYS_read fd size =>
      if fd =? 0 then
        size = 1 ->
        match typed w with
        | [] => exists r, r <= 0 /\ a = Some (r, [], w)
        | Key c :: evs => a = Some (1, [c], set_typed evs w)
        | Nothing errno :: evs => a = Some (- Z.of_N errno, [], set_typed evs w)
        end
      else
        match opened w !! fd with
        | Some (File contents) =>
            0 < size -> fails \/
            exists part rest, contents = part ++ rest /\ len part <= size /\ (contents <> [] -> part <> []) /\
              a = Some (len part, part, set_opened (<[fd := File rest]> (opened w)) w)
        | Some (Directory _) => fails
        | None => True
        end
  | SYS_getdents64 fd size =>
      match opened w !! fd with
      | Some (Directory es) =>
          1024 <= size -> Forall entry_ok es -> fails \/
          exists part rest, es = part ++ rest /\ len (dirents part) <= size /\ (es <> [] -> part <> []) /\
            a = Some (len (dirents part), dirents part, set_opened (<[fd := Directory rest]> (opened w)) w)
      | _ => True
      end
  | SYS_openat path flags =>
      fails \/
      exists s fd, opens (file path) flags = Some s /\ 2 < fd /\ opened w !! fd = None /\
        a = Some (fd, [], set_opened (<[fd := s]> (opened w)) w)
  | SYS_close fd => exists r, a = Some (r, [], set_opened (delete fd (opened w)) w)
  | SYS_uname => a = Some (0, utsname_bytes uts, w)
  | SYS_mount _ _ _ | SYS_nanosleep _ _ => exists r, a = Some (r, [], w)
  | SYS_reboot magic magic2 cmd => magic = 0xfee1dead -> magic2 = 672274793 -> cmd = 0x4321fedc -> a = None
  | SYS_exit_group _ => a = None
  end.

(** What a call asks the console to show. *)
Definition output (c : call) : list Z :=
  match c with SYS_write fd bytes => if fd =? 1 then bytes else [] | _ => [] end.

(** The result of a write says how many of its bytes were taken, or that none were. *)
Definition takes (c : call) (r : Z) (n : nat) : Prop :=
  match c with SYS_write _ bytes => r = Z.of_nat n /\ (n <= length bytes)%nat \/ r < 0 /\ n = 0%nat | _ => True end.

(** A kernel that does what the manual says, to a process that may switch the machine
    off. The files may change between two calls, but none is larger than [limit]; the
    root is a directory. Of each write the console shows the bytes that were taken. *)
Class Linux `{Kernel} := {
  process_of : kernel -> process;
  console : kernel -> list Z;
  file : kernel -> list Z -> option source;
  uts : list (list Z);
  limit : nat;
  calls_answered c k :
    answers (file k) uts c (process_of k)
      (option_map (fun '(r, out, k) => (r, out, process_of k)) (system_call c k));
  calls_shown c k r out k' : system_call c k = Some (r, out, k') ->
    told (process_of k') = told (process_of k) ++ output c /\
    exists n, takes c r n /\ console k' = console k ++ take n (output c);
  file_ok k path s : file k path = Some s -> source_ok s /\ (source_size s <= limit)%nat;
  root_ok k : exists es, file k (text "/") = Some (Directory es);
  uts_ok : length uts = 6%nat /\ Forall (fun s => c_string s /\ (length s < 65)%nat) uts
}.

(** ** What a session shows *)

Definition line_feed : list Z := [0x0a].

(** A file that is opened is shown up to where a read of it fails. *)
Definition of_file (path : string) (s : option source) (out : list Z) : Prop :=
  out = text "cannot open " ++ text path ++ line_feed \/
  match s with
  | Some (File contents) => out `prefix_of` contents
  | Some (Directory _) => out = []
  | None => False
  end.

Definition shown_names (es : list entry) : list Z := flat_map (fun e => d_name e ++ text "  ") es.

Definition listing (s : option source) (out : list Z) : Prop :=
  out = text "cannot open " ++ text "/" ++ line_feed \/
  match s with
  | Some (Directory es) => exists part, part `prefix_of` es /\ out = shown_names part ++ line_feed
  | _ => False
  end.

Fixpoint before_zero (l : list Z) : list Z :=
  match l with [] => [] | c :: l => if c =? 0 then [] else c :: before_zero l end.

Section Session.
Context `{Linux}.

(** The answer to a line, as the files are when it is given. *)
Definition reply (k : kernel) (line out : list Z) : Prop :=
  let name := before_zero line in
  if decide (line = []) then out = []
  else if decide (name = text "help") then out = text builtins ++ line_feed
  else if decide (name = text "uname") then
    out = nth 0 uts [] ++ text " " ++ nth 2 uts [] ++ text " " ++ nth 4 uts [] ++ line_feed
  else if decide (name = text "meminfo") then of_file "/proc/meminfo" (file k (text "/proc/meminfo")) out
  else if decide (name = text "cpuinfo") then of_file "/proc/cpuinfo" (file k (text "/proc/cpuinfo")) out
  else if decide (name = text "version") then of_file "/proc/version" (file k (text "/proc/version")) out
  else if decide (name = text "ls") then listing (file k (text "/")) out
  else out = text "unknown command: " ++ name ++ line_feed.

(** A line is what is typed up to a carriage return or a line feed; the first 127 keys
    count. *)
Record typing := { keys : list event; enter : Z }.

Definition key (e : event) : option Z := match e with Key c => Some c | Nothing _ => None end.
Definition is_enter (c : Z) : bool := (c =? 0x0d) || (c =? 0x0a).
Definition heard (t : typing) : list Z := take 127 (omap key (keys t)).
Definition events (t : typing) : list event := keys t ++ [Key (enter t)].

Definition typing_ok (t : typing) : Prop :=
  is_enter (enter t) = true /\ Forall (fun e => forall c, key e = Some c -> is_enter c = false) (keys t).

(** What the shell answers to some lines, [rest] being typed after them. *)
Fixpoint replies (lines : list typing) (rest : list event) (out : list Z) : Prop :=
  match lines with
  | [] => out = []
  | t :: lines =>
      exists k a out', typed (process_of k) = flat_map events lines ++ rest /\ reply k (heard t) a /\
        out = text prompt ++ a ++ out' /\ replies lines rest out'
  end.
End Session.

(** ** Strings and buffers *)

Lemma slen_until s t : until_zero s = Some t -> slen s = Some (len t) /\ exists r, s = t ++ r.
Proof.
  revert t. induction s as [|c s IH]; intros t E; [done|]. cbn [until_zero slen] in *. unfold truthy.
  destruct (c =? 0); cbn [negb]; [injection E as <-; split; [done|by exists (c :: s)]|].
  destruct (until_zero s) as [u|]; [|done]. injection E as <-. destruct (IH u eq_refl) as [-> [r ->]].
  split; [by rewrite len_cons|by exists r].
Qed.

Lemma seq_correct a : forall b x y,
  until_zero a = Some x -> until_zero b = Some y -> seq a b = Some (bool_decide (x = y)).
Proof.
  induction a as [|c a IH]; intros b x y Ea Eb; [done|]. destruct b as [|d b]; [done|].
  cbn [until_zero seq] in *. unfold truthy. destruct (Z.eqb_spec c 0) as [->|Hc]; cbn [negb andb].
  - injection Ea as <-. f_equal. destruct (Z.eqb_spec 0 d) as [<-|Hd]; [by injection Eb as <-|].
    destruct (Z.eqb_spec d 0) as [->|Hn]; [done|]. destruct (until_zero b); [|done]. by injection Eb as <-.
  - destruct (until_zero a) as [u|] eqn:Eu; [|done]. injection Ea as <-. destruct (Z.eqb_spec d 0) as [->|Hd].
    + injection Eb as <-. by rewrite (proj2 (Z.eqb_neq _ _)).
    + destruct (until_zero b) as [v|] eqn:Ev; [|done]. injection Eb as <-. destruct (Z.eqb_spec c d) as [->|Hn].
      * rewrite (IH b u v) by done. apply f_equal, bool_decide_ext. by split; [intros ->|intros [= ->]].
      * f_equal. symmetry. apply bool_decide_eq_false_2. congruence.
Qed.

Lemma before_zero_until l r : until_zero (l ++ 0 :: r) = Some (before_zero l).
Proof.
  induction l as [|c l IH]; [done|]. cbn [app until_zero before_zero]. destruct (c =? 0); [done|]. by rewrite IH.
Qed.

Lemma before_zero_string s : c_string s -> before_zero s = s.
Proof. induction 1 as [|c s Hc _ IH]; [done|]. cbn [before_zero]. rewrite (proj2 (Z.eqb_neq _ _)) by done. by f_equal. Qed.

Lemma literal_until s : c_string (text s) -> until_zero (literal s) = Some (text s).
Proof. apply until_zero_app. Qed.

Lemma from_app off pre post : off = len pre -> from off (pre ++ post) = Some post.
Proof.
  intros ->. unfold from. rewrite len_app. pose proof (len_nonneg pre). pose proof (len_nonneg post).
  rewrite !(proj2 (Z.leb_le _ _)) by lia. cbn [andb]. unfold len. by rewrite Nat2Z.id, drop_app_length.
Qed.

Lemma len_uninit g n : 0 <= n -> len (uninit g n) = n.
Proof. intros Hn. unfold uninit, len. rewrite length_map, length_seqZ. lia. Qed.

(** Bytes written to the front of a buffer, and read back. *)
Lemma store_front out buf : len out <= len buf -> exists rest, store_at 0 out buf = Some (out ++ rest) /\ len (out ++ rest) = len buf.
Proof.
  intros Hl. unfold store_at, in_buffer. cbn [Z.leb Z.compare andb]. rewrite (proj2 (Z.leb_le _ _)) by lia.
  exists (drop (length out) buf). split; [done|]. unfold len in *. rewrite length_app, length_drop. lia.
Qed.

Lemma load_front out rest : load_at 0 (len out) (out ++ rest) = Some out.
Proof. by apply (load_at_app 0 (len out) [] out rest). Qed.

(** ** Programs that return *)

Section Facts.
Context `{Linux} (garbage : Z -> Z).

Definition does {A} (m : io A) (k : kernel) (a : A) (w : process) : Prop :=
  exists k', m k = Ok a k' /\ process_of k' = w.

Lemma does_ret {A} (a : A) k : does (ret a) k a (process_of k).
Proof. by exists k. Qed.

Lemma does_bind {A B} (m : io A) (f : A -> io B) k a w b w' :
  does m k a w -> (forall k', process_of k' = w -> does (f a) k' b w') -> does (bind m f) k b w'.
Proof.
  intros (k1 & E1 & Hw) Hf. destruct (Hf k1 Hw) as (k2 & E2 & Hw2). exists k2. split; [|done]. unfold bind. by rewrite E1.
Qed.

Lemma does_opt {A B} (o : option A) (f : A -> io B) k a b w' :
  o = Some a -> does (f a) k b w' -> does (bind (of_opt o) f) k b w'.
Proof. by intros ->. Qed.

Lemma does_call c k r out w :
  option_map (fun '(r, out, k) => (r, out, process_of k)) (system_call c k) = Some (r, out, w) ->
  does (syscall c) k (r, out) w.
Proof.
  unfold does, syscall. destruct (system_call c k) as [[[r' out'] k']|]; [|done]. intros [= <- <- <-]. by exists k'.
Qed.

(** A call whose answer is ignored. *)
Lemma does_then {B} c (f : io B) k r out w b w' :
  option_map (fun '(r, out, k) => (r, out, process_of k)) (system_call c k) = Some (r, out, w) ->
  (forall k', process_of k' = w -> does f k' b w') -> does (syscall c ;;; f) k b w'.
Proof. intros E Hf. eapply does_bind; [by eapply does_call|exact Hf]. Qed.

Lemma put_does s t k : until_zero s = Some t -> does (put s) k tt (tell t (process_of k)).
Proof.
  intros Ht. destruct (slen_until s t Ht) as [Hn [r ->]]. unfold put.
  eapply does_opt; [exact Hn|]. eapply does_opt; [apply load_front|].
  destruct (calls_answered (SYS_write 1 t) k eq_refl) as [res E].
  eapply does_then; [exact E|]. intros k' <-. apply does_ret.
Qed.

Lemma tell_tell a b w : tell b (tell a w) = tell (a ++ b) w.
Proof. unfold tell. cbn [told typed opened]. by rewrite app_assoc. Qed.
Lemma tell_nil w : tell [] w = w.
Proof. destruct w. unfold tell. cbn. by rewrite app_nil_r. Qed.
Lemma set_opened_same fd s w : opened w !! fd = Some s -> set_opened (<[fd := s]> (opened w)) w = w.
Proof. intros E. unfold set_opened. rewrite insert_id by done. by destruct w. Qed.

(** [put], and then the rest. *)
Lemma put_then {B} s t (f : io B) k b w' :
  until_zero s = Some t -> (forall k', process_of k' = tell t (process_of k) -> does f k' b w') ->
  does (put s ;;; f) k b w'.
Proof. intros Hs Hf. eapply does_bind; [by apply put_does|exact Hf]. Qed.

(** ** The commands *)

Lemma file_read fd contents k :
  3 <= fd -> opened (process_of k) !! fd = Some (File contents) ->
  (exists r, r < 0 /\ does (syscall (SYS_read fd 512)) k (r, []) (process_of k)) \/
  exists part rest, contents = part ++ rest /\ len part <= 512 /\ (contents <> [] -> part <> []) /\
    does (syscall (SYS_read fd 512)) k (len part, part)
      (set_opened (<[fd := File rest]> (opened (process_of k))) (process_of k)).
Proof.
  intros Hfd Ho. pose proof (calls_answered (SYS_read fd 512) k) as HA. cbn [answers] in HA.
  rewrite (proj2 (Z.eqb_neq _ _)), Ho in HA by lia. destruct (HA eq_refl) as [(r & Hr & E)|(part & rest & Hc & Hl & Hn & E)].
  - left. exists r. split; [done|]. by apply does_call.
  - right. exists part, rest. repeat (split; [done|]). by apply does_call.
Qed.

(** A read that fails leaves the buffer, and the loop. *)
Lemma read_stops (n : Z) (buf : list Z) (go stop : list Z -> io unit) k :
  n <= 0 -> does (stop buf) k tt (process_of k) ->
  does (let* buf := of_opt (store_at 0 [] buf) in if n <=? 0 then stop buf else go buf) k tt (process_of k).
Proof.
  intros Hn HD. destruct (store_front [] buf) as (junk & Hs & Hj); [pose proof (len_nonneg buf); rewrite len_nil; lia|].
  cbn [app] in *. eapply does_opt; [exact Hs|]. rewrite (proj2 (Z.leb_le _ _)) by done.
  unfold store_at in Hs. case_match; [|done]. injection Hs as <-. exact HD.
Qed.

(** A file is shown, to its end unless a read fails. *)
Lemma cat_loop_does fuel : forall fd contents buf k,
  (length contents < fuel)%nat -> len buf = 512 -> 3 <= fd ->
  opened (process_of k) !! fd = Some (File contents) ->
  exists part rest, contents = part ++ rest /\ does (cat_loop fuel fd buf) k tt
    (tell part (set_opened (<[fd := File rest]> (opened (process_of k))) (process_of k))).
Proof.
  induction fuel as [|fuel IH]; intros fd contents buf k Hf Hb Hfd Ho; [lia|]. cbn [cat_loop].
  destruct (file_read fd contents k Hfd Ho) as [(r & Hr & E)|(part & rest & -> & Hl & Hn & E)].
  { exists [], contents. split; [done|]. rewrite tell_nil, set_opened_same by done.
    eapply does_bind; [exact E|]. intros k1 Hk1. cbv beta iota. rewrite <- Hk1.
    apply (read_stops r buf _ (fun _ => ret tt)); [lia|apply does_ret]. }
  destruct (store_front part buf) as (junk & Hs & Hj); [lia|].
  destruct part as [|c part].
  - cbn [app length] in *. destruct rest as [|c rest]; [|by destruct (Hn ltac:(done))].
    exists [], []. split; [done|]. eapply does_bind; [exact E|]. intros k1 Hk1. cbv beta iota.
    eapply does_opt; [exact Hs|]. cbn [Z.leb Z.compare]. rewrite tell_nil, <- Hk1. apply does_ret.
  - destruct E as (k1 & E1 & Hk1).
    destruct (calls_answered (SYS_write 1 (c :: part)) k1 eq_refl) as [res Ew].
    destruct (does_call _ _ _ _ _ Ew) as (k2 & E2 & Hk2).
    assert (opened (process_of k2) !! fd = Some (File rest)) as Ho2
      by (rewrite Hk2, Hk1; cbn [opened tell set_opened]; apply lookup_insert_eq).
    destruct (IH fd rest ((c :: part) ++ junk) k2) as (more & left & -> & k3 & E3 & Hk3); [| lia | done | done |].
    { cbn [app length] in Hf. rewrite length_app in Hf. lia. }
    exists ((c :: part) ++ more), left. split; [by rewrite app_assoc|]. exists k3. split.
    + unfold bind at 1. rewrite E1. rewrite Hs. unfold bind at 1, of_opt at 1, ret at 1.
      rewrite (proj2 (Z.leb_gt _ _)) by (rewrite len_cons; pose proof (len_nonneg part); lia).
      rewrite load_front. unfold bind at 1, of_opt at 1, ret at 1. unfold bind at 1. by rewrite E2.
    + rewrite Hk3, Hk2, Hk1. unfold tell, set_opened. cbn [told typed opened]. by rewrite insert_insert_eq, <- app_assoc.
Qed.

Lemma cat_loop_directory fuel fd es k :
  (0 < fuel)%nat -> 3 <= fd -> opened (process_of k) !! fd = Some (Directory es) ->
  does (cat_loop fuel fd (uninit garbage 512)) k tt (process_of k).
Proof.
  intros Hf Hfd Ho. destruct fuel as [|fuel]; [lia|]. cbn [cat_loop].
  pose proof (calls_answered (SYS_read fd 512) k) as HA. cbn [answers] in HA.
  rewrite (proj2 (Z.eqb_neq _ _)), Ho in HA by lia. destruct HA as (r & Hr & E).
  eapply does_bind; [by apply does_call|]. intros k1 <-. cbv beta iota.
  apply (read_stops r _ _ (fun _ => ret tt)); [lia|apply does_ret].
Qed.

Lemma open_does path name flags k :
  until_zero path = Some name ->
  (exists r, r < 0 /\ does (open_path path flags) k r (process_of k)) \/
  exists s fd, opens (file k name) flags = Some s /\ 2 < fd /\ opened (process_of k) !! fd = None /\
    does (open_path path flags) k fd (set_opened (<[fd := s]> (opened (process_of k))) (process_of k)).
Proof.
  intros Hp. assert (forall r w, option_map (fun '(r, out, k) => (r, out, process_of k)) (system_call (SYS_openat name flags) k) =
    Some (r, [], w) -> does (open_path path flags) k r w) as HD.
  { intros r w E. unfold open_path. eapply does_opt; [exact Hp|]. eapply does_bind; [by apply does_call|].
    intros k' <-. apply does_ret. }
  destruct (calls_answered (SYS_openat name flags) k) as [(r & H1 & E)|(s & fd & H1 & H2 & H3 & E)]; [left|right]; eauto 8.
Qed.

Lemma cannot_open_does path name k :
  until_zero path = Some name -> does (cannot_open path) k tt (tell (text "cannot open " ++ name ++ line_feed) (process_of k)).
Proof.
  intros Hp. unfold cannot_open. eapply put_then; [by apply (literal_until "cannot open "); repeat constructor|].
  intros k1 E1. eapply put_then; [exact Hp|]. intros k2 E2.
  destruct (put_does [0x0a; 0] line_feed k2 eq_refl) as (k3 & E3 & Hk3). exists k3. split; [exact E3|].
  by rewrite Hk3, E2, E1, !tell_tell.
Qed.

(** Closing the descriptor that was opened. *)
Lemma reclosed fd (s s' : source) o : o !! fd = None -> delete fd (<[fd := s']> (<[fd := s]> o)) = (o : gmap Z source).
Proof. intros Hn. by rewrite insert_insert_eq, delete_insert_id. Qed.

Lemma cat_does fuel path k :
  c_string (text path) -> (limit < fuel)%nat ->
  exists out, of_file path (file k (text path)) out /\
    does (cat garbage fuel (literal path)) k tt (tell out (process_of k)).
Proof.
  intros Hp Hf. destruct (open_does (literal path) (text path) 0 k (literal_until path Hp))
    as [(r & Hr & E)|(s & fd & Hs & Hfd & Hfree & E)].
  - eexists. split; [by left|]. unfold cat. eapply does_bind; [exact E|]. intros k1 Hk1.
    rewrite (proj2 (Z.ltb_lt _ _)), <- Hk1 by lia. apply cannot_open_does, (literal_until path Hp).
  - destruct E as (k1 & E1 & Hk1).
    assert (exists out s', of_file path (file k (text path)) out /\ does (cat_loop fuel fd (uninit garbage 512)) k1 tt
      (tell out (set_opened (<[fd := s']> (opened (process_of k))) (process_of k)))) as (out & s' & Ho & k2 & E2 & Hk2).
    { destruct (file k (text path)) as [[contents|es]|] eqn:Ef; cbn [opens Z.eqb] in Hs; [| |done]; injection Hs as <-.
      - destruct (cat_loop_does fuel fd contents (uninit garbage 512) k1) as (part & rest & -> & D);
          [|by apply len_uninit|lia|rewrite Hk1; apply lookup_insert_eq|].
        { destruct (file_ok k _ _ Ef) as [_ Hl]. cbn [source_size] in Hl. lia. }
        exists part, (File rest). split; [right; by exists rest|]. rewrite Hk1 in D. unfold set_opened in *. cbn [told typed opened] in D.
        by rewrite insert_insert_eq in D.
      - exists [], (Directory es). split; [by right|]. rewrite tell_nil, <- Hk1.
        apply (cat_loop_directory fuel fd es); [lia|lia|]. rewrite Hk1. apply lookup_insert_eq. }
    destruct (calls_answered (SYS_close fd) k2) as [r Ec]. destruct (does_call _ _ _ _ _ Ec) as (k3 & E3 & Hk3).
    exists out. split; [done|]. exists k3. split.
    + unfold cat, bind at 1. rewrite E1, (proj2 (Z.ltb_ge _ _)) by lia. unfold bind at 1. rewrite E2. unfold bind. by rewrite E3.
    + rewrite Hk3, Hk2. unfold tell, set_opened. cbn [told typed opened]. by rewrite delete_insert_id.
Qed.

Lemma len_utsname fields :
  Forall (fun s => c_string s /\ (length s < 65)%nat) fields -> len (utsname_bytes fields) = 65 * len fields.
Proof.
  unfold utsname_bytes. induction 1 as [|s fields [_ Hs] _ IH]; [done|]. cbn [flat_map]. rewrite !len_app, IH, len_cons, len_replicate.
  unfold len. lia.
Qed.

Lemma utsname_at i fields rest :
  Forall (fun s => c_string s /\ (length s < 65)%nat) fields -> (i < length fields)%nat ->
  exists r, from (65 * Z.of_nat i) (utsname_bytes fields ++ rest) = Some (nth i fields [] ++ 0 :: r) /\
    c_string (nth i fields []).
Proof.
  intros HF Hi. destruct (nth_split fields [] Hi) as (l1 & l2 & E & Hl).
  assert (HF' := HF). rewrite E in HF'. apply Forall_app in HF' as [H1 HF']. apply Forall_cons in HF' as [[Hc Hs] _].
  set (f := nth i fields []) in *. destruct (65 - length f)%nat as [|pad] eqn:Ep; [lia|].
  exists (replicate pad 0 ++ utsname_bytes l2 ++ rest). split; [|done]. rewrite E. unfold utsname_bytes.
  rewrite flat_map_app. cbn [flat_map]. rewrite Ep, <- !app_assoc. apply from_app.
  rewrite <- Hl. symmetry. by apply len_utsname.
Qed.

Lemma do_uname_does k :
  does (do_uname garbage) k tt
    (tell (nth 0 uts [] ++ text " " ++ nth 2 uts [] ++ text " " ++ nth 4 uts [] ++ line_feed) (process_of k)).
Proof.
  destruct uts_ok as [Hlen HF]. unfold do_uname. pose proof (calls_answered SYS_uname k) as E. cbn [answers] in E.
  eapply does_bind; [by apply does_call|]. intros k1 <-. cbv beta iota.
  destruct (store_front (utsname_bytes uts) (uninit garbage utsname_size)) as (junk & Hs & _).
  { rewrite len_utsname, len_uninit by done. unfold len. by rewrite Hlen. }
  eapply does_opt; [exact Hs|]. cbn [Z.ltb Z.compare].
  destruct (utsname_at 0 uts junk HF) as (r0 & E0 & C0); [lia|]. destruct (utsname_at 2 uts junk HF) as (r2 & E2 & C2); [lia|].
  destruct (utsname_at 4 uts junk HF) as (r4 & E4 & C4); [lia|].
  eapply does_bind; [eapply does_opt; [exact E0|apply put_does, (until_zero_app _ _ C0)]|]. intros k2 H2.
  eapply put_then; [by apply (literal_until " "); repeat constructor|]. intros k3 H3.
  eapply does_bind; [eapply does_opt; [exact E2|apply put_does, (until_zero_app _ _ C2)]|]. intros k4 H4.
  eapply put_then; [by apply (literal_until " "); repeat constructor|]. intros k5 H5.
  eapply does_bind; [eapply does_opt; [exact E4|apply put_does, (until_zero_app _ _ C4)]|]. intros k6 H6.
  destruct (put_does [0x0a; 0] line_feed k6 eq_refl) as (k7 & E7 & H7). exists k7. split; [exact E7|].
  rewrite H7, H6, H5, H4, H3, H2, !tell_tell, <- ?app_assoc. done.
Qed.

(** *** The listing *)

Lemma len_dirent e : len (dirent e) = d_reclen e.
Proof. unfold dirent, d_reclen. rewrite !len_app, !len_cons, !len_le_bytes, len_nil. lia. Qed.

(** The fields of an entry in the buffer. *)
Lemma entry_reclen pre e post :
  0 <= d_reclen e < 2 ^ 16 ->
  exists w, load_at (len pre + 16) 2 (pre ++ dirent e ++ post) = Some w /\ le_value w = d_reclen e.
Proof.
  intros He. exists (le_bytes 2 (d_reclen e)). split.
  - unfold dirent. replace (pre ++ _ ++ post) with ((pre ++ le_bytes 8 (d_ino e) ++ le_bytes 8 (d_off e)) ++
      le_bytes 2 (d_reclen e) ++ ([d_type e] ++ d_name e ++ 0 :: d_pad e) ++ post) by (by rewrite <- !app_assoc).
    apply load_at_app; [|by rewrite len_le_bytes]. rewrite !len_app, !len_le_bytes. lia.
  - rewrite le_value_bytes. by apply Z.mod_small.
Qed.

Lemma entry_name pre e post :
  exists r, from (len pre + 19) (pre ++ dirent e ++ post) = Some (d_name e ++ 0 :: r).
Proof.
  exists (d_pad e ++ post). unfold dirent.
  replace (pre ++ _ ++ post) with ((pre ++ le_bytes 8 (d_ino e) ++ le_bytes 8 (d_off e) ++
    le_bytes 2 (d_reclen e) ++ [d_type e]) ++ d_name e ++ 0 :: d_pad e ++ post) by (by rewrite <- !app_assoc).
  apply from_app. rewrite !len_app, !len_le_bytes, len_cons, len_nil. lia.
Qed.

Lemma ls_entries_does fuel : forall es pre post k,
  (length es < fuel)%nat -> Forall entry_ok es ->
  does (ls_entries fuel (len pre) (len pre + len (dirents es)) (pre ++ dirents es ++ post)) k tt
    (tell (shown_names es) (process_of k)).
Proof.
  induction fuel as [|fuel IH]; intros es pre post k Hf Hes; [lia|]. cbn [ls_entries].
  destruct es as [|e es].
  - cbn [dirents flat_map shown_names]. rewrite len_nil, Z.add_0_r, Z.ltb_irrefl, tell_nil. apply does_ret.
  - apply Forall_cons in Hes as [[Hc Hr] Hes]. cbn [dirents flat_map]. fold (dirents es).
    assert (0 < d_reclen e) as Hp by (unfold d_reclen; pose proof (len_nonneg (d_name e)); pose proof (len_nonneg (d_pad e)); lia).
    rewrite len_app, len_dirent. pose proof (len_nonneg (dirents es)).
    rewrite (proj2 (Z.ltb_lt _ _)) by lia. rewrite <- app_assoc.
    destruct (entry_reclen pre e (dirents es ++ post)) as (w & Hw & Ew); [lia|].
    destruct (entry_name pre e (dirents es ++ post)) as (r & Hn).
    eapply does_opt; [exact Hw|]. rewrite Ew.
    eapply does_bind; [eapply does_opt; [exact Hn|apply put_does, (until_zero_app _ _ Hc)]|]. intros k1 J1.
    eapply put_then; [by apply (literal_until "  "); repeat constructor|]. intros k2 J2.
    destruct (IH es (pre ++ dirent e) post k2) as (k3 & E3 & J3); [cbn [length] in Hf; lia|done|].
    exists k3. split.
    + rewrite len_app, len_dirent, <- !app_assoc, <- Z.add_assoc in E3. exact E3.
    + rewrite J3, J2, J1, !tell_tell. cbn [shown_names flat_map]. by rewrite <- !app_assoc.
Qed.

Lemma names_app es1 es2 : shown_names (es1 ++ es2) = shown_names es1 ++ shown_names es2.
Proof. apply flat_map_app. Qed.

(** The names, to the last unless a call fails. *)
Lemma ls_loop_does fuel : forall fd es buf k,
  (length es < fuel)%nat -> Forall entry_ok es -> len buf = 1024 ->
  opened (process_of k) !! fd = Some (Directory es) ->
  exists part rest, es = part ++ rest /\ does (ls_loop fuel fd buf) k tt
    (tell (shown_names part) (set_opened (<[fd := Directory rest]> (opened (process_of k))) (process_of k))).
Proof.
  induction fuel as [|fuel IH]; intros fd es buf k Hf Hes Hb Ho; [lia|]. cbn [ls_loop].
  pose proof (calls_answered (SYS_getdents64 fd 1024) k) as HA. cbn [answers] in HA. rewrite Ho in HA.
  destruct (HA ltac:(done) Hes) as [(r & Hr & E)|(part & rest & -> & Hl & Hn & E)].
  { exists [], es. split; [done|]. unfold shown_names. cbn [flat_map]. rewrite tell_nil, set_opened_same by done.
    eapply does_bind; [by apply does_call|]. intros k1 Hk1. cbv beta iota. rewrite <- Hk1.
    apply (read_stops r buf _ (fun _ => ret tt)); [lia|apply does_ret]. }
  apply Forall_app in Hes as [Hpart Hrest].
  destruct (store_front (dirents part) buf) as (junk & Hs & Hj); [lia|].
  destruct (does_call _ _ _ _ _ E) as (k1 & E1 & Hk1). destruct part as [|e part].
  - cbn [app] in *. destruct rest as [|c rest]; [|by destruct (Hn ltac:(done))].
    exists [], []. split; [done|]. exists k1. unfold bind at 1. rewrite E1, Hs. by rewrite Hk1, tell_nil.
  - assert (0 < len (dirents (e :: part))) as Hpos.
    { cbn [dirents flat_map]. fold (dirents part). rewrite len_app, len_dirent. unfold d_reclen. pose proof (len_nonneg (dirents part)).
      pose proof (len_nonneg (d_name e)). pose proof (len_nonneg (d_pad e)). lia. }
    rewrite length_app in Hf.
    destruct (ls_entries_does (S fuel) (e :: part) [] junk k1) as (k2 & E2 & Hk2); [lia|done|].
    assert (opened (process_of k2) !! fd = Some (Directory rest)) as Ho2
      by (rewrite Hk2, Hk1; cbn [opened tell set_opened]; apply lookup_insert_eq).
    destruct (IH fd rest (dirents (e :: part) ++ junk) k2) as (more & left & -> & k3 & E3 & Hk3); [cbn [length] in Hf; lia|done|lia|done|].
    exists ((e :: part) ++ more), left. split; [by rewrite app_assoc|]. exists k3. split.
    + unfold bind at 1. rewrite E1, Hs. unfold bind at 1, of_opt at 1, ret at 1.
      rewrite (proj2 (Z.leb_gt _ _)) by lia. unfold bind at 1. change (len []) with 0 in E2. rewrite Z.add_0_l in E2.
      cbn [app] in E2. by rewrite E2.
    + rewrite Hk3, Hk2, Hk1. unfold tell, set_opened. cbn [told typed opened].
      by rewrite insert_insert_eq, names_app, <- app_assoc.
Qed.

Lemma ls_does fuel k :
  (limit < fuel)%nat ->
  exists out, listing (file k (text "/")) out /\ does (ls garbage fuel (literal "/")) k tt (tell out (process_of k)).
Proof.
  intros Hf. destruct (root_ok k) as [es Ef]. destruct (file_ok k _ _ Ef) as [Hes Hl]. rewrite Ef.
  destruct (open_does (literal "/") (text "/") O_DIRECTORY k eq_refl) as [(r & Hr & E)|(s & fd & Hs & Hfd & Hfree & E)].
  - eexists. split; [by left|]. unfold ls. eapply does_bind; [exact E|]. intros k1 Hk1.
    rewrite (proj2 (Z.ltb_lt _ _)), <- Hk1 by lia. by apply (cannot_open_does (literal "/") (text "/")).
  - rewrite Ef in Hs. cbn [opens] in Hs. injection Hs as <-. cbn [source_ok source_size] in *.
    destruct E as (k1 & E1 & Hk1).
    destruct (ls_loop_does fuel fd es (uninit garbage 1024) k1) as (part & rest & -> & k2 & E2 & Hk2);
      [lia|done|by apply len_uninit|rewrite Hk1; apply lookup_insert_eq|].
    destruct (put_does [0x0a; 0] line_feed k2 eq_refl) as (k3 & E3 & Hk3).
    destruct (calls_answered (SYS_close fd) k3) as [r Ec]. destruct (does_call _ _ _ _ _ Ec) as (k4 & E4 & Hk4).
    exists (shown_names part ++ line_feed). split; [right; exists part; split; [by exists rest|done]|]. exists k4. split.
    + unfold ls, bind at 1. rewrite E1, (proj2 (Z.ltb_ge _ _)) by lia. unfold bind at 1. rewrite E2. unfold bind. by rewrite E3, E4.
    + rewrite Hk4, Hk3, Hk2, Hk1. unfold tell, set_opened. cbn [told typed opened].
      by rewrite reclosed, <- app_assoc.
Qed.

(** *** The line *)

Lemma console_read k evs e :
  typed (process_of k) = e :: evs ->
  does (syscall (SYS_read 0 1)) k
    (match e with Key c => (1, [c]) | Nothing errno => (- Z.of_N errno, []) end) (set_typed evs (process_of k)).
Proof.
  intros Ht. pose proof (calls_answered (SYS_read 0 1) k) as HA. cbn [answers Z.eqb] in HA. rewrite Ht in HA.
  specialize (HA eq_refl). destruct e; by apply does_call.
Qed.

(** A read that found nothing is tried again; a key goes on to the tests. *)
Lemma read_nothing fuel n line k errno evs :
  typed (process_of k) = Nothing errno :: evs ->
  exists k', process_of k' = set_typed evs (process_of k) /\
    read_line garbage (S fuel) n line k = read_line garbage fuel n line k'.
Proof.
  intros Ht. destruct (console_read k evs _ Ht) as (k1 & E1 & Hk1). cbn [read_line]. unfold bind at 1. rewrite E1.
  change (store_at 0 [] (uninit garbage 1)) with (Some [garbage 0]).
  unfold bind at 1, of_opt at 1, ret at 1. cbn [head]. unfold bind at 1, of_opt at 1, ret at 1.
  destruct (Z.eqb_spec (- Z.of_N errno) 0) as [Hz|Hz].
  - destruct (calls_answered (SYS_nanosleep 1 0) k1) as [r E]. destruct (does_call _ _ _ _ _ E) as (k2 & E2 & Hk2).
    exists k2. split; [by rewrite Hk2, Hk1|]. unfold bind at 1. by rewrite E2.
  - exists k1. split; [done|]. by rewrite (proj2 (Z.ltb_lt _ _)) by lia.
Qed.

Lemma read_key fuel n line k c evs :
  typed (process_of k) = Key c :: evs ->
  exists k', process_of k' = set_typed evs (process_of k) /\
    read_line garbage (S fuel) n line k =
      (if is_enter c then ret (n, line)
       else if n + 1 <? LINE_SIZE then
         let* line := of_opt (store_at n [c] line) in read_line garbage fuel (n + 1) line
       else read_line garbage fuel n line) k'.
Proof.
  intros Ht. destruct (console_read k evs _ Ht) as (k1 & E1 & Hk1). exists k1. split; [done|].
  cbn [read_line]. unfold bind at 1. rewrite E1. reflexivity.
Qed.

Lemma take_heard (taken more : list Z) : len taken = 127 -> take 127 (taken ++ more) = taken.
Proof. intros Ht. apply take_app_length'. unfold len in Ht. lia. Qed.

Lemma read_line_does fuel : forall l e rest taken junk k,
  (length l < fuel)%nat -> Forall (fun ev => forall c, key ev = Some c -> is_enter c = false) l -> is_enter e = true ->
  len (taken ++ junk) = LINE_SIZE -> len taken <= 127 -> typed (process_of k) = l ++ Key e :: rest ->
  let h := take 127 (taken ++ omap key l) in
  exists junk', len (h ++ junk') = LINE_SIZE /\
    does (read_line garbage fuel (len taken) (taken ++ junk)) k (len h, h ++ junk') (set_typed rest (process_of k)).
Proof.
  induction fuel as [|fuel IH]; intros l e rest taken junk k Hf Hl He Hb Ht Hk; [lia|].
  destruct l as [|[c|errno] l]; cbn [app] in Hk.
  - exists junk. cbv zeta. change (omap key []) with (@nil Z). rewrite app_nil_r, take_ge by (unfold len in Ht; lia). split; [done|].
    destruct (read_key fuel (len taken) (taken ++ junk) k e rest Hk) as (k1 & Hk1 & E1). exists k1. by rewrite E1, He.
  - apply Forall_cons in Hl as [Hc Hl]. cbn [length] in Hf. specialize (Hc c eq_refl).
    destruct (read_key fuel (len taken) (taken ++ junk) k c _ Hk) as (k1 & Hk1 & E1). rewrite Hc in E1.
    change (omap key (Key c :: l)) with (c :: omap key l). cbv zeta.
    assert (typed (process_of k1) = l ++ Key e :: rest) as Hk' by (by rewrite Hk1).
    destruct (Z.ltb_spec (len taken + 1) LINE_SIZE) as [Hlt|Hge].
    + unfold LINE_SIZE in *. destruct junk as [|j junk]; [rewrite app_nil_r in Hb; lia|].
      destruct (IH l e rest (taken ++ [c]) junk k1) as (junk' & Hj & k2 & E2 & Hk2); [lia|done|done| |rewrite len_app, len_cons, len_nil; lia|done|].
      { revert Hb. autorewrite with len. lia. }
      cbv zeta in Hj, E2. rewrite <- (app_assoc taken [c]) in Hj, E2. exists junk'. split; [exact Hj|]. exists k2. rewrite E1.
      change (taken ++ j :: junk) with (taken ++ [j] ++ junk).
      rewrite (store_at_app (len taken) taken [j] junk [c]) by done.
      rewrite <- app_assoc, len_app in E2. split; [exact E2|by rewrite Hk2, Hk1].
    + destruct (IH l e rest taken junk k1) as (junk' & Hj & k2 & E2 & Hk2); [lia|done..|].
      unfold LINE_SIZE in *. rewrite take_heard in Hj, E2 by lia. rewrite take_heard by lia.
      exists junk'. split; [exact Hj|]. exists k2. split; [by rewrite E1|by rewrite Hk2, Hk1].
  - apply Forall_cons in Hl as [_ Hl]. cbn [length] in Hf.
    destruct (read_nothing fuel (len taken) (taken ++ junk) k errno _ Hk) as (k1 & Hk1 & E1).
    destruct (IH l e rest taken junk k1) as (junk' & Hj & k2 & E2 & Hk2); [lia|done|done|done|done|by rewrite Hk1|].
    change (omap key (Nothing errno :: l)) with (omap key l).
    exists junk'. split; [exact Hj|]. exists k2. split; [by rewrite E1|by rewrite Hk2, Hk1].
Qed.

(** *** Dispatch *)

Lemma when_line_is line name s yes no :
  until_zero line = Some name -> c_string (text s) ->
  when_line line s yes no = if decide (name = text s) then yes else no.
Proof.
  intros Hl Hs. unfold when_line. rewrite (seq_correct line (literal s) name (text s) Hl (literal_until s Hs)).
  by destruct (decide (name = text s)) as [E|E]; [rewrite bool_decide_eq_true_2|rewrite bool_decide_eq_false_2].
Qed.

Lemma powering_off k : exists k', power_off k = Exited 0 k' /\ process_of k' = tell (text "powering off" ++ line_feed) (process_of k).
Proof.
  destruct (put_does (text "powering off" ++ [0x0a; 0]) (text "powering off" ++ line_feed) k eq_refl) as (k1 & E1 & H1).
  exists k1. split; [|done]. unfold power_off, bind at 1. rewrite E1. unfold bind, syscall.
  pose proof (calls_answered (SYS_reboot 0xfee1dead 672274793 0x4321fedc) k1 eq_refl eq_refl eq_refl) as HA.
  by destruct (system_call _ k1).
Qed.

Lemma unknown_does line name k :
  until_zero line = Some name ->
  does (unknown_command line) k tt (tell (text "unknown command: " ++ name ++ line_feed) (process_of k)).
Proof.
  intros Hl. unfold unknown_command. eapply put_then; [by apply (literal_until "unknown command: "); repeat constructor|].
  intros k1 E1. eapply put_then; [exact Hl|]. intros k2 E2.
  destruct (put_does [0x0a; 0] line_feed k2 eq_refl) as (k3 & E3 & Hk3). exists k3. split; [exact E3|].
  by rewrite Hk3, E2, E1, !tell_tell.
Qed.

Lemma positive_len (c : Z) (h : list Z) : truthy (len (c :: h)) = true.
Proof. unfold truthy. rewrite len_cons. pose proof (len_nonneg h). by rewrite (proj2 (Z.eqb_neq _ _)) by lia. Qed.

Ltac on_line := erewrite when_line_is by (apply before_zero_until || by repeat constructor); case_decide.

Lemma run_command_does fuel h junk k :
  (limit < fuel)%nat -> before_zero h <> text "poweroff" ->
  exists out, reply k h out /\
    does (run_command garbage fuel (len h) (h ++ 0 :: junk)) k tt (tell out (process_of k)).
Proof.
  intros Hf Hp. unfold run_command, reply. destruct h as [|c h].
  { eexists. split; [done|]. rewrite tell_nil. apply does_ret. }
  rewrite positive_len. setoid_rewrite (decide_False (P := c :: h = [])); [|done..]. cbn [negb].
  on_line; [eexists; split; [done|by apply put_does]|]. on_line; [eexists; split; [done|apply do_uname_does]|].
  do 3 (on_line; [by apply cat_does; [repeat constructor|]|]).
  on_line; [by apply ls_does|]. on_line; [done|]. eexists. split; [done|]. apply unknown_does, before_zero_until.
Qed.

Lemma run_command_off fuel h junk k :
  before_zero h = text "poweroff" ->
  exists k', run_command garbage fuel (len h) (h ++ 0 :: junk) k = Exited 0 k' /\
    process_of k' = tell (text "powering off" ++ line_feed) (process_of k).
Proof.
  intros Hp. unfold run_command. destruct h as [|c h]; [done|]. rewrite positive_len. cbn [negb].
  do 7 (on_line; [rewrite Hp in *; try done|]); [apply powering_off|by rewrite Hp in *].
Qed.

(** The shell up to the line that has been typed. *)
Lemma prompted fuel line t rest k :
  (length (keys t) < fuel)%nat -> typing_ok t -> len line = LINE_SIZE -> typed (process_of k) = events t ++ rest ->
  exists junk k', len (heard t ++ 0 :: junk) = LINE_SIZE /\
    one_command garbage fuel line k =
      (run_command garbage fuel (len (heard t)) (heard t ++ 0 :: junk) ;;; ret (heard t ++ 0 :: junk)) k' /\
    process_of k' = tell (text prompt) (set_typed rest (process_of k)).
Proof.
  intros Hf [He Hk] Hl Ht. unfold events in Ht. rewrite <- app_assoc in Ht.
  destruct (put_does (literal prompt) (text prompt) k eq_refl) as (k1 & E1 & H1).
  destruct (read_line_does fuel (keys t) (enter t) rest [] line k1) as (junk & Hj & k2 & E2 & H2); try done.
  { by rewrite H1. }
  change (take 127 ([] ++ omap key (keys t))) with (heard t) in Hj, E2. change (len []) with 0 in E2. cbn [app] in E2.
  assert (len (heard t) <= 127) as Hh by (unfold heard, len; rewrite length_take; lia).
  destruct junk as [|j junk]; [unfold LINE_SIZE in Hj; rewrite app_nil_r in Hj; lia|].
  exists junk, k2. split; [revert Hj; autorewrite with len; lia|]. split; [|by rewrite H2, H1].
  unfold one_command, bind at 1. rewrite E1. unfold bind at 1. rewrite E2.
  change (heard t ++ j :: junk) with (heard t ++ [j] ++ junk). by rewrite (store_at_app (len (heard t)) _ [j] junk [0]).
Qed.

Lemma commands_session fuel off after lines : forall rounds line k,
  (limit < fuel)%nat -> (length lines < rounds)%nat -> Forall (fun t => (length (keys t) < fuel)%nat) (lines ++ [off]) ->
  Forall typing_ok (lines ++ [off]) -> Forall (fun t => before_zero (heard t) <> text "poweroff") lines ->
  before_zero (heard off) = text "poweroff" -> len line = LINE_SIZE ->
  typed (process_of k) = flat_map events lines ++ events off ++ after ->
  exists out k', replies lines (events off ++ after) out /\ commands garbage rounds fuel line k = Exited 0 k' /\
    process_of k' = tell (out ++ text prompt ++ text "powering off" ++ line_feed) (set_typed after (process_of k)).
Proof.
  induction lines as [|t lines IH]; intros rounds line k Hlim Hr Hf Hok Hno Hoff Hl Ht;
    (destruct rounds as [|rounds]; [lia|]); cbn [app] in Hf, Hok; apply Forall_cons in Hf as [Hft Hf];
    apply Forall_cons in Hok as [Hot Hok].
  - destruct (prompted fuel line off after k Hft Hot Hl Ht) as (junk & k1 & Hj & E1 & H1).
    destruct (run_command_off fuel (heard off) junk k1 Hoff) as (k2 & E2 & H2).
    exists [], k2. split; [done|]. split; [|by rewrite H2, H1, tell_tell].
    cbn [commands]. unfold bind at 1. rewrite E1. unfold bind at 1. by rewrite E2.
  - apply Forall_cons in Hno as [Hn Hno]. cbn [flat_map] in Ht. rewrite <- app_assoc in Ht.
    destruct (prompted fuel line t _ k Hft Hot Hl Ht) as (junk & k1 & Hj & E1 & H1).
    destruct (run_command_does fuel (heard t) junk k1 Hlim Hn) as (a & HA & k2 & E2 & H2).
    destruct (IH rounds (heard t ++ 0 :: junk) k2) as (out & k3 & HR & E3 & H3); try done; [cbn [length] in Hr; lia| |].
    { by rewrite H2, H1. }
    exists (text prompt ++ a ++ out), k3. split; [|split].
    + exists k1, a, out. split; [by rewrite H1|done].
    + cbn [commands]. unfold bind at 1. rewrite E1. unfold bind at 1. rewrite E2. exact E3.
    + rewrite H3, H2, H1. unfold tell, set_typed. cbn [told typed opened]. by rewrite <- !app_assoc.
Qed.

(** ** What the console takes *)

Create HintDb logged.

(** From one state to the other the process has made these writes: the bytes of each with
    the number of them that were taken. *)
Definition wrote (log : list (list Z * nat)) (k k' : kernel) : Prop :=
  told (process_of k') = told (process_of k) ++ flat_map fst log /\
  console k' = console k ++ flat_map (fun w => take w.2 w.1) log /\
  Forall (fun w => (w.2 <= length w.1)%nat) log.

Definition logged {A} (m : io A) : Prop := forall k,
  match m k with Ok _ k' | Exited _ k' => exists log, wrote log k k' | _ => True end.

Lemma logged_ret {A} (a : A) : logged (ret a).
Proof. intros k. exists []. by split; [rewrite app_nil_r|split; [rewrite app_nil_r|]]. Qed.
Lemma logged_failed {A} : logged (@failed kernel A).
Proof. done. Qed.
Lemma logged_opt {A} (o : option A) : logged (of_opt o).
Proof. destruct o; [apply logged_ret|apply logged_failed]. Qed.

Lemma logged_bind {A B} (m : io A) (f : A -> io B) : logged m -> (forall a, logged (f a)) -> logged (bind m f).
Proof.
  intros Hm Hf k. specialize (Hm k). unfold bind. destruct (m k) as [a k1| | |]; [|done..].
  destruct Hm as (l1 & T1 & C1 & F1). specialize (Hf a k1). destruct (f a k1) as [b k2| |c k2|]; try done;
    destruct Hf as (l2 & T2 & C2 & F2); exists (l1 ++ l2);
    (split; [by rewrite T2, T1, flat_map_app, app_assoc|split; [by rewrite C2, C1, flat_map_app, app_assoc|by apply Forall_app]]).
Qed.

Lemma logged_syscall c : logged (syscall c).
Proof.
  intros k. unfold syscall. destruct (system_call c k) as [[[r out] k']|] eqn:E; [|apply (logged_ret tt k)].
  destruct (calls_shown c k r out k' E) as (HT & n & Hn & HC). unfold output in *.
  destruct c as [?|fd bytes| | | | | | | |]; try (exists []; rewrite take_nil in HC; by split; [|split]).
  cbn [takes] in Hn. case_match.
  - exists [(bytes, n)]. unfold wrote. cbn [flat_map fst snd]. rewrite !app_nil_r. split; [done|]. split; [done|].
    repeat constructor. cbn. lia.
  - exists []. rewrite take_nil in HC. by split; [|split].
Qed.
#[local] Hint Resolve logged_ret logged_failed logged_opt logged_syscall : logged.

Ltac writing := repeat first
  [ solve [auto with logged]
  | apply logged_bind; [|intros ?]
  | match goal with |- logged (match ?x with _ => _ end) => destruct x end
  | match goal with |- logged (let '_ := ?x in _) => destruct x end ].

Lemma logged_put s : logged (put s).
Proof. unfold put. writing. Qed.
#[local] Hint Resolve logged_put : logged.
Lemma logged_put_from off buf : logged (put_from off buf).
Proof. unfold put_from. writing. Qed.
Lemma logged_open path flags : logged (open_path path flags).
Proof. unfold open_path. writing. Qed.
Lemma logged_cannot path : logged (cannot_open path).
Proof. unfold cannot_open. writing. Qed.
#[local] Hint Resolve logged_put_from logged_open logged_cannot : logged.
Lemma logged_cat_loop fuel fd : forall buf, logged (cat_loop fuel fd buf).
Proof. induction fuel as [|fuel IH]; intros buf; cbn [cat_loop]; writing. Qed.
Lemma logged_ls_entries fuel : forall off n buf, logged (ls_entries fuel off n buf).
Proof. induction fuel as [|fuel IH]; intros off n buf; cbn [ls_entries]; writing. Qed.
#[local] Hint Resolve logged_cat_loop logged_ls_entries : logged.
Lemma logged_ls_loop fuel fd : forall buf, logged (ls_loop fuel fd buf).
Proof. induction fuel as [|fuel IH]; intros buf; cbn [ls_loop]; writing. Qed.
Lemma logged_read_line fuel : forall n line, logged (read_line garbage fuel n line).
Proof. induction fuel as [|fuel IH]; intros n line; cbn [read_line]; writing. Qed.
#[local] Hint Resolve logged_ls_loop logged_read_line : logged.
Lemma logged_run_command fuel n line : logged (run_command garbage fuel n line).
Proof.
  unfold run_command, when_line, cat, ls, help, do_uname, power_off, unknown_command. writing.
Qed.
#[local] Hint Resolve logged_run_command : logged.
Lemma logged_commands fuel rounds : forall line, logged (commands garbage rounds fuel line).
Proof. induction rounds as [|rounds IH]; intros line; cbn [commands]; unfold one_command; writing. Qed.
#[local] Hint Resolve logged_commands : logged.
Lemma logged_start fuel : logged (_start garbage fuel).
Proof. unfold _start. writing. Qed.

(** The session, as the shell asks the console to show it. *)
Lemma session_runs fuel lines off after k :
  (limit < fuel)%nat -> (length lines < fuel)%nat ->
  Forall (fun t => (length (keys t) < fuel)%nat) (lines ++ [off]) -> Forall typing_ok (lines ++ [off]) ->
  Forall (fun t => before_zero (heard t) <> text "poweroff") lines -> before_zero (heard off) = text "poweroff" ->
  typed (process_of k) = flat_map events lines ++ events off ++ after ->
  exists out k', replies lines (events off ++ after) out /\ _start garbage fuel k = Exited 0 k' /\
    process_of k' =
      tell (line_feed ++ welcome ++ instructions ++ out ++ text prompt ++ text "powering off" ++ line_feed)
        (set_typed after (process_of k)).
Proof.
  intros Hlim Hn Hf Hok Hno Hoff Ht.
  destruct (calls_answered (SYS_mount (text "proc") (text "/proc") (text "proc")) k) as [r1 A1].
  destruct (does_call _ _ _ _ _ A1) as (k1 & E1 & H1).
  destruct (calls_answered (SYS_mount (text "sysfs") (text "/sys") (text "sysfs")) k1) as [r2 A2].
  destruct (does_call _ _ _ _ _ A2) as (k2 & E2 & H2).
  destruct (put_does [0x0a; 0] line_feed k2 eq_refl) as (k3 & E3 & H3).
  destruct (put_does (welcome ++ [0]) welcome k3 eq_refl) as (k4 & E4 & H4).
  destruct (put_does (instructions ++ [0]) instructions k4 eq_refl) as (k5 & E5 & H5).
  destruct (commands_session fuel off after lines fuel (uninit garbage LINE_SIZE) k5) as (out & k6 & HR & E6 & H6); try done.
  { by rewrite H5, H4, H3, H2, H1. }
  exists out, k6. split; [exact HR|]. split.
  - unfold _start, bind. rewrite E1, E2, E3, E4, E5. exact E6.
  - rewrite H6, H5, H4, H3, H2, H1. unfold tell, set_typed. cbn [told typed opened]. by rewrite <- !app_assoc.
Qed.

(** C18. A session of the shell. On a kernel that does what the manual says, whatever the stack
    held and whatever is typed - lines ended by a carriage return or a line feed, with
    reads in between that fail or find nothing, keys past the 127th dropped -, the shell
    writes its greeting and for each line the prompt and the answer: the names of the
    builtins, the kernel's, the contents of the file up to where a read of it fails, or
    that it cannot be opened, the entries of the root directory, or the command that is
    unknown. The console shows of each write the bytes that the kernel took, all of them
    unless the write was short or failed: the shell does not try again. It never leaves
    one of its buffers, closes what it opens, and at the line that says so it powers the
    machine off, with what is typed after it unread. A bound on its loops by the largest
    file, the number of lines and their lengths is enough. *)
Theorem session_answered fuel lines off after k :
  (limit < fuel)%nat -> (length lines < fuel)%nat ->
  Forall (fun t => (length (keys t) < fuel)%nat) (lines ++ [off]) -> Forall typing_ok (lines ++ [off]) ->
  Forall (fun t => before_zero (heard t) <> text "poweroff") lines -> before_zero (heard off) = text "poweroff" ->
  typed (process_of k) = flat_map events lines ++ events off ++ after ->
  exists out log k', replies lines (events off ++ after) out /\ _start garbage fuel k = Exited 0 k' /\
    flat_map fst log =
      line_feed ++ welcome ++ instructions ++ out ++ text prompt ++ text "powering off" ++ line_feed /\
    console k' = console k ++ flat_map (fun w => take w.2 w.1) log /\ Forall (fun w => (w.2 <= length w.1)%nat) log /\
    typed (process_of k') = after /\ opened (process_of k') = opened (process_of k).
Proof.
  intros Hlim Hn Hf Hok Hno Hoff Ht.
  destruct (session_runs fuel lines off after k Hlim Hn Hf Hok Hno Hoff Ht) as (out & k' & HR & E & HK).
  pose proof (logged_start fuel k) as HW. rewrite E in HW. destruct HW as (log & HT & HC & HF).
  exists out, log, k'. split; [exact HR|]. split; [exact E|]. split; [|split; [exact HC|split; [exact HF|by rewrite HK]]].
  rewrite HK in HT. cbn [told tell set_typed] in HT. by apply app_inv_head in HT.
Qed.
End Facts.

(** ** A kernel *)

Module Witness.

Definition names : list (list Z) := map text ["Linux"; "zelda"; "6.1.0"; "#1"; "riscv32"; "(none)"].

Definition entry_of (name : string) : entry :=
  {| d_ino := 7; d_off := 64; d_type := 4; d_name := text name; d_pad := [0; 0] |}.

Definition files (path : list Z) : option source :=
  if decide (path = text "/") then Some (Directory (map entry_of ["."; ".."; "init"; "proc"]))
  else if decide (path = text "/proc/version") then Some (File (text "Linux version 6.1.0 (zelda)" ++ line_feed))
  else None.

(** A process and what the console has shown of it; the kernel takes at most 40 bytes at
    a time. *)
Definition chunk : nat := 40.

Definition top (o : gmap Z source) : Z := map_fold (fun fd _ m => Z.max fd m) 2 o.

Definition calls (c : call) (w : process) : option (Z * list Z * process) :=
  let answer (r : Z) (out : list Z) (w : process) := Some (r, out, w) in
  match c with
  | SYS_write fd bytes => answer (Z.of_nat (length (take chunk bytes))) [] (if fd =? 1 then tell bytes w else w)
  | SYS_read fd size =>
      if fd =? 0 then
        match typed w with
        | [] => answer 0 [] w
        | Key c :: evs => answer 1 [c] (set_typed evs w)
        | Nothing errno :: evs => answer (- Z.of_N errno) [] (set_typed evs w)
        end
      else
        match opened w !! fd with
        | Some (File contents) =>
            let part := take (Z.to_nat size) contents in
            answer (len part) part (set_opened (<[fd := File (drop (Z.to_nat size) contents)]> (opened w)) w)
        | Some (Directory _) => answer (-21) [] w
        | None => answer (-9) [] w
        end
  | SYS_getdents64 fd size =>
      match opened w !! fd with
      | Some (Directory es) =>
          let part := take 1 es in
          answer (len (dirents part)) (dirents part) (set_opened (<[fd := Directory (drop 1 es)]> (opened w)) w)
      | _ => answer (-9) [] w
      end
  | SYS_openat path flags =>
      match opens (files path) flags with
      | None => answer (-2) [] w
      | Some s => let fd := top (opened w) + 1 in answer fd [] (set_opened (<[fd := s]> (opened w)) w)
      end
  | SYS_close fd => answer 0 [] (set_opened (delete fd (opened w)) w)
  | SYS_uname => answer 0 (utsname_bytes names) w
  | SYS_mount _ _ _ | SYS_nanosleep _ _ => answer 0 [] w
  | SYS_reboot _ _ _ | SYS_exit_group _ => None
  end.

(** The console is behind the process. *)
Definition console_calls (c : call) (k : process * list Z) : option (Z * list Z * (process * list Z)) :=
  let seen := k.2 ++ take chunk (output c) in
  option_map (fun '(r, out, w) => (r, out, (w, seen))) (calls c k.1).

Instance kernel_calls : Kernel := {| kernel := process * list Z; system_call := console_calls |}.

Lemma top_above o : 2 <= top o /\ forall fd s, o !! fd = Some s -> fd <= top o.
Proof.
  unfold top. apply (map_fold_weak_ind (fun m (o : gmap Z source) => 2 <= m /\ forall fd s, o !! fd = Some s -> fd <= m)); [done|].
  intros fd s o' m _ [H2 Hm]. split; [lia|]. intros fd' s' [[<- _]|[_ H]]%lookup_insert_Some; [lia|]. specialize (Hm _ _ H). lia.
Qed.


Lemma files_fit path s : files path = Some s -> source_ok s /\ (source_size s <= 64)%nat.
Proof.
  unfold files. case_decide; [|case_decide; [|done]]; intros [= <-]; (split; [|vm_compute; lia]); [|done].
  repeat constructor; vm_compute; discriminate.
Qed.

Lemma calls_answer c w : answers files names c w (calls c w).
Proof.
  destruct c as [fd size|fd bytes|path flags|fd| | | | |fd size| ]; cbn [answers calls]; try (by eexists); try (by intros ->; eexists); try done.
  - case_test.
    + intros _. destruct (typed w) as [|[c|errno] evs]; [by exists 0|done..].
    + destruct (opened w !! fd) as [[contents|es]|]; [|by exists (-21)|done]. intros Hs. right.
      exists (take (Z.to_nat size) contents), (drop (Z.to_nat size) contents). split; [by rewrite take_drop|].
      split; [unfold len; rewrite length_take; lia|]. split; [|done]. intros Hn Ht.
      apply (f_equal length) in Ht. rewrite length_take in Ht. destruct contents; [done|]. cbn [length] in Ht. lia.
  - destruct (opens _ _) as [s|]; [|left; by exists (-2)]. right. exists s, (top (opened w) + 1). split; [done|]. destruct (top_above (opened w)) as [H2 Hm].
    split; [lia|]. split; [|done]. destruct (opened w !! _) eqn:E; [|done]. specialize (Hm _ _ E). lia.
  - destruct (opened w !! fd) as [[contents|es]|]; [done| |done]. intros Hs Hes. right.
    exists (take 1 es), (drop 1 es). split; [by rewrite take_drop|]. split; [|split; [|done]].
    + destruct es as [|e es]; [change (0 <= size); lia|]. apply Forall_cons in Hes as [[_ He] _]. cbn [take dirents flat_map].
      rewrite app_nil_r, len_dirent. lia.
    + by destruct es.
Qed.

Lemma calls_told c w r out w' :
  calls c w = Some (r, out, w') ->
  told w' = told w ++ output c /\ exists n, takes c r n /\ take chunk (output c) = take n (output c).
Proof.
  destruct c as [fd size|fd bytes|path flags|fd| | | | |fd size| ]; cbn [calls output takes]; intros E;
    repeat case_match; simplify_eq; cbn [told tell set_typed set_opened]; rewrite ?app_nil_r;
    (split; [done|]); try by exists 0%nat.
  - exists (length (take chunk bytes)). split; [left; rewrite length_take; lia|].
    rewrite length_take. destruct (decide (chunk <= length bytes)%nat); [by rewrite Nat.min_l by lia|].
    rewrite Nat.min_r, !take_ge by lia. done.
  - exists (length (take chunk bytes)). split; [left; rewrite length_take; lia|]. by rewrite !take_nil.
Qed.

Instance linux : Linux.
Proof.
  refine {| process_of := fun k : kernel => k.1; console := fun k : kernel => k.2;
            file := fun _ => files; uts := names; limit := 64 |}.
  - intros c k. pose proof (calls_answer c k.1) as HA. cbn [system_call kernel_calls]. unfold console_calls.
    by destruct (calls c k.1) as [[[r out] w]|].
  - intros c k r out k'. cbn [system_call kernel_calls]. unfold console_calls.
    destruct (calls c k.1) as [[[r' out'] w]|] eqn:E; [|done]. intros [= <- <- <-]. cbn [fst snd].
    destruct (calls_told _ _ _ _ _ E) as (HT & n & Hn & Ht). split; [done|]. exists n. by rewrite Ht.
  - intros _. exact files_fit.
  - intros _. by eexists.
  - split; [done|]. repeat constructor; discriminate || (cbn; lia).
Defined.

Definition line (l : string) : typing := {| keys := map Key (text l); enter := 0x0d |}.
Definition interrupted : typing := {| keys := Nothing 0 :: Nothing 4 :: map Key (text "ls"); enter := 0x0a |}.
Definition session : list typing := [line "help"; line ""; line "version"; interrupted; line "meminfo"; line "halt"].
Definition typist : kernel :=
  ({| told := []; typed := flat_map events session ++ events (line "poweroff"); opened := empty |}, []).

(** What the session shows, long lines cut short. *)
Example on_the_console :
  match _start (fun _ => 0xaa) 100 typist with Exited 0 k => Some (console k, opened (process_of k)) | _ => None end =
  Some (line_feed ++ take chunk welcome ++ take chunk instructions ++
    text "zelda:/# builtins: help uname meminfo cpuinfo ver" ++
    text "zelda:/# " ++
    text "zelda:/# Linux version 6.1.0 (zelda)" ++ line_feed ++
    text "zelda:/# .  ..  init  proc  " ++ line_feed ++
    text "zelda:/# cannot open /proc/meminfo" ++ line_feed ++
    text "zelda:/# unknown command: halt" ++ line_feed ++
    text "zelda:/# powering off" ++ line_feed, empty).
Proof. vm_compute. reflexivity. Qed.

Lemma session_answered_witness :
  exists out log k', replies session (events (line "poweroff") ++ []) out /\ _start (fun _ => 0xaa) 100 typist = Exited 0 k' /\
    flat_map fst log =
      line_feed ++ welcome ++ instructions ++ out ++ text prompt ++ text "powering off" ++ line_feed /\
    console k' = console typist ++ flat_map (fun w => take w.2 w.1) log /\ Forall (fun w => (w.2 <= length w.1)%nat) log /\
    typed (process_of k') = [] /\ opened (process_of k') = opened (process_of typist).
Proof.
  apply (session_answered (fun _ => 0xaa) 100 session (line "poweroff") []).
  - cbn. lia.
  - cbn. lia.
  - repeat constructor.
  - repeat (constructor; [split; [done|]; repeat constructor; by intros c [= <-]|]). constructor.
  - repeat constructor; discriminate.
  - reflexivity.
  - reflexivity.
Defined.
End Witness.
