(* ===== verification/Host.v ===== *)
(** * The host's side: terminal, log, device-tree dump

    Models what the vmm does to its host beside running the guest: the raw mode of the
    terminal (src/vmm/emulate_uart.c), the filter and the form of the log
    (src/vmm/log.c, without colours) and the dump of the device tree to a file
    (src/vmm/fdt.c). What is left in [console] is the argument [attached] of Vm.v. The host's calls - isatty, tcgetattr, tcsetattr, write - are
    parameters; the bits of the terminal's flags are those of Linux.

    Proved here: in raw mode no control character is interpreted and nothing else of
    the settings has changed, and whichever way the vmm ends the terminal has its
    settings back; a message is shown when its level is not below the one that is
    configured; a dump writes the blob if every write makes progress. *)

From S2P Require Import Prelude Bytes.
Local Open Scope Z_scope.

(** ** The terminal *)

Definition ISIG : Z := 0x1.
Definition ICANON : Z := 0x2.
Definition ECHO : Z := 0x8.
Definition IEXTEN : Z := 0x8000.
Definition BRKINT : Z := 0x2.
Definition ISTRIP : Z := 0x20.
Definition INLCR : Z := 0x40.
Definition IGNCR : Z := 0x80.
Definition ICRNL : Z := 0x100.
Definition IXON : Z := 0x400.
Definition OPOST : Z := 0x1.

Record termios := { c_iflag : Z; c_oflag : Z; c_lflag : Z; c_vmin : Z; c_vtime : Z }.

(** The terminal of the process, and what emulate_uart.c keeps of it.
    src/vmm/emulate_uart.c:73-75 saved_termios *)
Record host := {
  settings : termios;
  saved_termios : termios;
  termios_saved : bool;
  console : bool;
  exit_handlers : nat;
  handled_signals : list Z
}.

Definition set_settings (t : termios) (h : host) : host :=
  {| settings := t; saved_termios := saved_termios h; termios_saved := termios_saved h; console := console h;
     exit_handlers := exit_handlers h; handled_signals := handled_signals h |}.
Definition set_saved (t : termios) (b : bool) (h : host) : host :=
  {| settings := settings h; saved_termios := t; termios_saved := b; console := console h;
     exit_handlers := exit_handlers h; handled_signals := handled_signals h |}.
Definition attach (handlers : nat) (signals : list Z) (h : host) : host :=
  {| settings := settings h; saved_termios := saved_termios h; termios_saved := termios_saved h; console := true;
     exit_handlers := handlers + exit_handlers h; handled_signals := signals ++ handled_signals h |}.

Section Terminal.
(** Whether standard input is a terminal, and whether its settings can be read. *)
Context (isatty tcgetattr : bool).
(** Whether [tcsetattr] accepts some settings. *)
Context (tcsetattr : termios -> bool).

Definition apply_settings (t : termios) (h : host) : host := if tcsetattr t then set_settings t h else h.

(** src/vmm/emulate_uart.c:77-84 uart_restore_terminal *)
Definition uart_restore_terminal (h : host) : host :=
  if termios_saved h then set_saved (saved_termios h) false (apply_settings (saved_termios h) h) else h.

(** The process ends with the status.
    src/vmm/emulate_uart.c:86-91 uart_terminal_signal *)
Definition uart_terminal_signal (signo : Z) (h : host) : Z * host := (128 + signo, uart_restore_terminal h).

Definition SIGNALS : list Z := [2; 15; 11; 6].

Definition raw_of (t : termios) : termios :=
  {| c_iflag := Z.ldiff (c_iflag t) (Z.lor (Z.lor (Z.lor (Z.lor (Z.lor IXON ICRNL) INLCR) IGNCR) BRKINT) ISTRIP);
     c_oflag := Z.ldiff (c_oflag t) OPOST;
     c_lflag := Z.ldiff (c_lflag t) (Z.lor (Z.lor (Z.lor ICANON ECHO) ISIG) IEXTEN);
     c_vmin := 0; c_vtime := 0 |}.

(** src/vmm/emulate_uart.c:98-127 uart_setup_terminal *)
Definition uart_setup_terminal (h : host) : host :=
  if negb isatty then attach 0 [] h
  else if negb tcgetattr then h
  else
    let h := set_saved (settings h) (termios_saved h) h in
    let raw := raw_of (saved_termios h) in
    if negb (tcsetattr raw) then h
    else attach 1 SIGNALS (set_saved (saved_termios h) true (set_settings raw h)).

(** [exit] runs the handlers. *)
Definition at_exit (h : host) : host := Nat.iter (exit_handlers h) uart_restore_terminal h.

Definition bit_off (f i : Z) : Prop := Z.land f i = 0.

(** The raw mode is raw, and gives the other flags as they were. *)
Lemma raw_is_raw t :
  Forall (bit_off (c_iflag (raw_of t))) [IXON; ICRNL; INLCR; IGNCR; BRKINT; ISTRIP] /\
  bit_off (c_oflag (raw_of t)) OPOST /\ Forall (bit_off (c_lflag (raw_of t))) [ICANON; ECHO; ISIG; IEXTEN] /\
  (forall i, Z.testbit 0x5e2 i = false -> Z.testbit (c_iflag (raw_of t)) i = Z.testbit (c_iflag t) i) /\
  (forall i, i <> 0 -> Z.testbit (c_oflag (raw_of t)) i = Z.testbit (c_oflag t) i) /\
  (forall i, Z.testbit 0x800b i = false -> Z.testbit (c_lflag (raw_of t)) i = Z.testbit (c_lflag t) i).
Proof.
  assert (HC : forall f m b, Z.land m b = b -> bit_off (Z.ldiff f m) b).
  { intros f m b <-. unfold bit_off. apply Z.bits_inj'. intros i Hi. rewrite !Z.land_spec, Z.ldiff_spec, Z.bits_0.
    by destruct (Z.testbit f i), (Z.testbit m i), (Z.testbit b i). }
  assert (HK : forall f m i, Z.testbit m i = false -> Z.testbit (Z.ldiff f m) i = Z.testbit f i).
  { intros f m i Hm. destruct (Z.lt_ge_cases i 0); [by rewrite !Z.testbit_neg_r|].
    rewrite Z.ldiff_spec, Hm. by destruct (Z.testbit f i). }
  unfold raw_of. cbn [c_iflag c_oflag c_lflag]. split; [repeat constructor; by apply HC|]. split; [by apply HC|].
  split; [repeat constructor; by apply HC|]. split; [intros i Hi; by apply HK|]. split; [|intros i Hi; by apply HK].
  intros i Hi. apply HK. unfold OPOST. destruct (Z.lt_ge_cases i 0); [by apply Z.testbit_neg_r|].
  change 1 with (2 ^ 0). apply Z.pow2_bits_false. lia.
Qed.

(** The terminal comes back as it was, by [exit] or by a signal, if the host accepts its
    own settings; and if it could not be set up it was not touched. *)
Theorem terminal_restored h signo :
  termios_saved h = false -> exit_handlers h = 0%nat -> tcsetattr (settings h) = true ->
  let h' := uart_setup_terminal h in
  settings (at_exit h') = settings h /\ settings (snd (uart_terminal_signal signo h')) = settings h /\
  fst (uart_terminal_signal signo h') = 128 + signo /\
  (settings h' = raw_of (settings h) \/ settings h' = settings h) /\
  (console h' = false -> settings h' = settings h).
Proof.
  intros Hs He Ht. unfold uart_setup_terminal, uart_terminal_signal, at_exit, uart_restore_terminal.
  destruct isatty; cbn [negb]; [|cbn; rewrite He; cbn; rewrite Hs; by repeat split; auto].
  destruct tcgetattr; cbn [negb]; [|rewrite He; cbn; rewrite Hs; by repeat split; auto].
  cbn [saved_termios set_saved]. destruct (tcsetattr (raw_of (settings h))); cbn [negb];
    [|cbn; rewrite He; cbn; rewrite Hs; by repeat split; auto].
  cbn. rewrite He. cbn. unfold apply_settings. rewrite Ht. cbn. by repeat split; auto.
Qed.
End Terminal.

(** ** The log *)

Definition LOG_TRACE : Z := 0.
Definition LOG_UART : Z := 6.

(** src/vmm/log.c:38-44 L *)
Record logger := { level : Z; quiet : bool }.

(** src/vmm/log.c:48-50 level_names *)
Definition level_names : list string := ["TRACE"; "DEBUG"; "INFO"; "WARN"; "ERROR"; "FATAL"; "UART16550"].
Definition level_name (l : Z) : list Z := text (nth (Z.to_nat l) level_names "").

(** ["%-5s"]. *)
Definition padded (s : list Z) : list Z := s ++ replicate (5 - length s) 0x20.

(** src/vmm/log.c:75-77 log_set_level *)
Definition log_set_level (l : Z) (L : logger) : logger := {| level := l; quiet := quiet L |}.
(** src/vmm/log.c:80-82 log_set_quiet *)
Definition log_set_quiet (enable : Z) (L : logger) : logger := {| level := level L; quiet := truthy enable |}.

(** What goes to standard output; [line] is the line number in decimal, [message] the
    formatted message.
    src/vmm/log.c:85-113 log_log *)
Definition log_log (l : Z) (file line message : list Z) (L : logger) : list Z :=
  if l <? level L then []
  else if quiet L then []
  else
    (if l =? LOG_UART then text "[" ++ level_name l ++ text "] "
     else padded (level_name l) ++ text " " ++ file ++ text ":" ++ line ++ text ": ") ++ message.

Lemma log_filtered l v file line message L :
  log_log l file line message (log_set_level v L) <> [] -> v <= l.
Proof. unfold log_log. case_test; [done|]. cbn [level log_set_level] in *. to_prop. lia. Qed.

(** ** The dump of the device tree *)

(** The results of the writes are [answers]; what has been written comes back. Without
    an answer left the write has failed.
    src/vmm/fdt.c:149-168 dump_device_tree_to_file *)
Fixpoint dump_loop (answers : list Z) (buffer : list Z) : list Z :=
  match buffer with
  | [] => []
  | _ =>
      match answers with
      | [] => []
      | rc :: answers =>
          if rc <=? 0 then []
          else take (Z.to_nat rc) buffer ++ dump_loop answers (drop (Z.to_nat rc) buffer)
      end
  end.

(** Writes that make progress write it all, however they cut it. *)
Lemma dump_complete answers : forall buffer,
  Forall (fun rc => 0 < rc) answers -> (length buffer <= length answers)%nat -> dump_loop answers buffer = buffer.
Proof.
  induction answers as [|rc answers IH]; intros buffer HF Hl; [destruct buffer; [done|cbn in Hl; lia]|].
  apply Forall_cons in HF as [Hrc HF]. destruct buffer as [|c buffer]; [done|]. cbn [dump_loop].
  rewrite (proj2 (Z.leb_gt _ _)) by lia. rewrite IH; [by rewrite take_drop|done|]. rewrite length_drop. cbn [length] in *. lia.
Qed.

(** A write that fails leaves a prefix. *)
Lemma dump_prefix answers : forall buffer, exists rest, buffer = dump_loop answers buffer ++ rest.
Proof.
  induction answers as [|rc answers IH]; intros buffer; [by destruct buffer; eexists|].
  destruct buffer as [|c buffer]; [by eexists|]. cbn [dump_loop]. case_test; [by eexists|].
  destruct (IH (drop (Z.to_nat rc) (c :: buffer))) as [rest Hr]. exists rest. rewrite <- app_assoc, <- Hr. by rewrite take_drop.
Qed.

Module Witness.
Definition cooked : termios := {| c_iflag := 0x4500; c_oflag := 0x5; c_lflag := 0x8a3b; c_vmin := 1; c_vtime := 0 |}.
Definition start : host :=
  {| settings := cooked; saved_termios := cooked; termios_saved := false; console := false; exit_handlers := 0; handled_signals := [] |}.

Lemma terminal_restored_witness :
  settings (at_exit (fun _ => true) (uart_setup_terminal true true (fun _ => true) start)) = cooked.
Proof. apply (terminal_restored true true (fun _ => true) start 2); reflexivity. Defined.
End Witness.
